(* ===== verification/_CoqProject ===== *)
-Q . S2P
Prelude.v
Status.v
Codec.v
Checksum.v
Page.v
Superblock.v
File.v
Sha256.v
Chacha.v
Poly1305.v
Aead.v
EncryptedPage.v
KeyManager.v
SuperblockStore.v
Keys.v
Probe.v
WalIndex.v
PageCache.v
WalFormat.v
WalRecover.v
WalLog.v
WalLegacy.v
GroupCommit.v
BtreePage.v
OrderedMap.v
PagerInterface.v
Txn.v
MemoryStore.v
TxnLaws.v
BtreeNode.v
BtreeTree.v
Btree.v
BtreeGet.v
BtreeBatch.v
BtreeInsert.v
BtreePut.v
BtreeContext.v
BtreeReclaim.v
BtreeDelete.v
BtreeFit.v
BtreeProgress.v
BtreeDeleteProgress.v
BtreeSteady.v
BtreeMap.v
BtreeLive.v
BtreeCursor.v
BtreeScan.v
BtreeVerify.v
EngineKeys.v
EngineRows.v
EngineObject.v
EngineMap.v
EngineDocument.v
EngineIndex.v
EngineReclaim.v
EngineDocumentMap.v
EngineScan.v
EngineScanMap.v
EngineView.v
Engine.v
EngineApi.v
EngineCursor.v
EngineCursorMap.v
