(* ===== verification/Prelude.v ===== *)
(** * A verification library for ShibaDB

    ShibaDB is an embedded, optionally encrypted key/value database in C ([src/src]).
    Its parts, from the disk up, and the files that model them:

    - the integer codec and the CRC ([codec.c], [checksum.c]): [Codec], [Checksum];
    - the page envelope and the superblock codec ([page.c], [superblock.c]): [Page],
      [Superblock];
    - file access ([file.c], POSIX side): [File], a file with a script of the replies
      the kernel gives, its durable contents and what a crash may leave;
    - the mirrored superblock ([superblock_store.c]): [SuperblockStore];
    - cryptography ([sha256.c], [xchacha20poly1305.c], [chacha_avx2.c]): [Sha256],
      [Chacha], [Poly1305], [Aead]; encrypted pages and the wrapped data key
      ([encrypted_page.c], [key_manager.c]): [EncryptedPage], [KeyManager];
    - open-addressing tables: [Probe], shared by the WAL index ([wal_index.c],
      [WalIndex]), the page cache ([page_cache.c], [PageCache]) and the duplicate check
      of the log ([WalFormat]);
    - the write-ahead log ([wal.c]): [WalFormat] (records and appends), [WalRecover]
      (recovery), [WalLog] (the theorems over both), [WalLegacy] (versions 1 and 2);
    - transactions ([pager.c]): [Txn], over a page store given by the class
      [PageStoreLaws]; [MemoryStore] is an instance, [TxnLaws] shows that transactions
      keep the promises of [PagerInterface];
    - group commit ([pager.c]): [GroupCommit], the coordinator as a step relation over
      interleaved threads and the log file;
    - the B-tree ([btree_page.c], [btree.c]): [Keys], [BtreePage] (nodes as bytes),
      [BtreeNode] (operations on one node), [Btree] (the operations of the tree, over
      the class [PagerOps]), [BtreeCursor] (cursors), [BtreeVerify] (the verifier);
      [OrderedMap], [BtreeTree] and [BtreeContext] hold the specification: sorted
      lists, page trees, trees with a hole;
    - the engine ([engine.c]): [EngineKeys] (row keys and values), [EngineObject]
      (versioned objects cut into chunks), [EngineDocument] (documents, indexes, unique
      guards, reverse rows), [EngineScan] (scans with cursors) and [Engine] (the
      database handle, mutations, auto-commit operations and transactions).  The
      operations are written over the class [Rows] of [EngineRows], of which a tree
      batch is an instance; [EngineMap], [EngineIndex], [EngineReclaim],
      [EngineDocumentMap] and [EngineScanMap] tie the rows to maps of objects,
      documents and index entries, [EngineView] states one step of these maps per
      operation, and [EngineApi] proves the operations of the handle against it.

    [Prelude] holds what all files share: bytes, fixed-width integers, [slice] and
    [splice] of buffers, tactics and hints; [Status] the status codes and the error
    monad.

    ** Conventions

    A C integer is a [Z], reduced by [wrap w] where the code can leave its width; a
    buffer is a list of bytes; a structure is a record.  A function that returns a
    status and fills output parameters is a function into [result]; file operations are
    in the state-and-error monad [fileM], batch operations of the tree in [batchM].  A
    loop that is not structural has fuel, and running out of it is a separate outcome
    ([None]), so that the theorems show it is never reached: the probe loops have the
    capacity of their table, the CLOCK sweep twice the capacity, the scan of a log one
    more than its length, the table of page ids doubles at most 65 times, and descents
    of the tree have the 64 levels of the source, of which the height bound of
    [BtreePut] (52 levels for 2^64 pages) uses fewer; scans of the engine have the
    number of rows.  In [Chacha], [Aead] and above,
    [avx2] is the answer of the processor query and [random] that of the entropy source.

    ** What the theorems show

    - Codecs ([Page], [Superblock], [BtreePage], [WalFormat]): what is written is read
      back, what is accepted is exactly what the writer would have written, and no
      decoder reads outside its buffer.
    - Checksums and cryptography: the optimised routines (slice-by-8 CRC, streaming
      SHA-256, limb arithmetic of Poly1305, eight-block ChaCha20) compute the standard's
      functions on every input; decryption accepts exactly what encryption produced.
    - Crash safety: a superblock update is atomic under every crash and every sequence
      of kernel replies ([SuperblockStore]); a commit the log reported survives every
      crash, an interrupted one is replayed wholly or not at all, and recovery ends on
      every input and applies sealed transactions only ([WalLog]).
    - Tables: the WAL index is a finite map, the page cache a bounded one that never
      serves a stale page; no probe runs forever.
    - Transactions: every sequence of operations keeps the free list and the pages in
      use apart and loses no page ([TxnLaws]).
    - The tree is a finite map: batches refine it through splits, merges and root
      changes ([BtreeMap]), failures leave the committed map alone, and on entries of at
      most half a page operations succeed unless the storage refuses ([BtreeLive], which
      also reaches the one exception, a redistribution that overflows the parent);
      cursors deliver its bindings in order ([BtreeScan]) and the verifier accepts
      exactly the well-formed trees ([BtreeVerify]).
    - Group commit: acknowledged means durable in every interleaving, and every
      committer returns ([GroupCommit]).
    - The database is a set of maps ([EngineApi]): every operation is one step of them
      or changes nothing, a transaction is atomic and reads its own writes, a unique
      index is unique, visiting an index value finds exactly its documents, and a
      reopened database never hands out a generation that is in use.  The promises are
      for databases whose rows these operations have written: index entries without
      reverse rows, as older versions left them, are handled by the definitions but
      excluded by the invariant.

    ** What is not modelled

    - Allocation failures and checks of null pointers; clearing of secrets; the sizes
      reported next to [SDB_E_BUFFER_TOO_SMALL].
    - The effect of reads on the page cache inside the pager: the cache is verified on
      its own, and the pager's store is the class [PageStoreLaws].
    - Opening, checkpointing and key rotation of the pager, and the creation of a tree.
    - Of the engine: opening, closing, options, snapshots and user cursors, its
      verifier, statistics, compaction, backup and migration; the deferred commit of
      the auto-commit calls, whose coordinator [GroupCommit] models, is a synchronous
      commit in [Engine].  The command line tool.
    - The SHA-NI transform, a run-time alternative to the scalar one.
    - Mutexes, random numbers, processor queries, path handling and the Windows
      branches: calls of the operating system. *)

From stdpp Require Export base numbers list list_numbers gmap sets strings countable.
From coqutil Require Export Byte LittleEndianList.
From Stdlib Require Export ZArith Lia Btauto Sorted.

#[global] Set Default Goal Selector "!".
#[global] Open Scope Z_scope.

(** ** Bytes *)

Abbreviation byte := Corelib.Init.Byte.byte.
Abbreviation x00 := Corelib.Init.Byte.x00.
Abbreviation bytes := (list byte).

#[global] Instance byte_eq_dec : EqDecision byte.
Proof. intros a b; destruct (Stdlib.Strings.Byte.byte_eq_dec a b); [left | right]; done. Defined.

#[global] Instance byte_inhabited : Inhabited byte := populate x00.

#[global] Instance byte_countable : Countable byte.
Proof.
  refine (inj_countable' (fun b => byte.unsigned b) byte.of_Z _).
  intros b; apply byte.of_Z_unsigned.
Defined.

(** ** Fixed-width integers

    A [w]-bit unsigned integer is a [Z]; [wrap w] is the reduction C performs
    when a result is stored back into an object of that width. *)

Definition wrap (w x : Z) : Z := x mod 2 ^ w.

Definition UINT16_MAX : Z := 65535.
Definition UINT32_MAX : Z := 4294967295.
Definition UINT64_MAX : Z := 18446744073709551615.
Definition SIZE_MAX : Z := UINT64_MAX.

Lemma wrap_range (w x : Z) : 0 <= w -> 0 <= wrap w x < 2 ^ w.
Proof. intros; unfold wrap; apply Z.mod_pos_bound; lia. Qed.

Lemma wrap_small (w x : Z) : 0 <= x < 2 ^ w -> wrap w x = x.
Proof. apply Z.mod_small. Qed.

Lemma lor_range (w a b : Z) :
  0 <= w -> 0 <= a < 2 ^ w -> 0 <= b < 2 ^ w -> 0 <= Z.lor a b < 2 ^ w.
Proof.
  intros Hw Ha Hb; pose proof (proj2 (Z.lor_nonneg a b) ltac:(lia)).
  split; [done|]; destruct (decide (Z.lor a b = 0)) as [->|]; [lia|].
  apply Z.log2_lt_pow2; [lia|]; rewrite Z.log2_lor by lia.
  assert (forall x, 0 <= x < 2 ^ w -> 0 < w -> Z.log2 x < w) as L.
  { intros x Hx ?; destruct (decide (x = 0)) as [->|]; [cbn; lia|].
    apply Z.log2_lt_pow2; lia. }
  destruct (decide (w = 0)) as [->|]; [|apply Z.max_lub_lt; apply L; lia].
  exfalso; cbn in Ha, Hb; assert (a = 0) as -> by lia; assert (b = 0) as -> by lia; done.
Qed.

Lemma byte_range (b : byte) : 0 <= byte.unsigned b < 256.
Proof. pose proof (byte.unsigned_range b); lia. Qed.

Lemma byte_of_Z_small (z : Z) : 0 <= z < 256 -> byte.unsigned (byte.of_Z z) = z.
Proof. intros; rewrite byte.unsigned_of_Z; unfold byte.wrap; apply Z.mod_small; lia. Qed.

(** ** Buffers

    A C buffer is a [list byte].  [slice] is the object a pointer [buf + off]
    with a length denotes, [memcpy_at] is [memcpy (buf + off, src, |src|)]
    into a buffer large enough to hold it (a buffer never changes its size),
    [zeros] is what [memset 0] leaves. *)

Definition zeros (n : nat) : bytes := replicate n x00.

Definition slice (buf : bytes) (off n : nat) : bytes := take n (drop off buf).

Definition memcpy_at (buf : bytes) (off : nat) (src : bytes) : bytes :=
  take (length buf) (take off buf ++ src ++ drop (off + length src) buf).

Lemma length_zeros (n : nat) : length (zeros n) = n.
Proof. apply length_replicate. Qed.

Lemma length_slice (buf : bytes) (off n : nat) :
  (off + n <= length buf)%nat -> length (slice buf off n) = n.
Proof. intros; unfold slice; rewrite length_take, length_drop; lia. Qed.

Lemma length_memcpy_at (buf src : bytes) (off : nat) :
  length (memcpy_at buf off src) = length buf.
Proof.
  unfold memcpy_at; rewrite length_take, !length_app, length_take, length_drop; lia.
Qed.

Lemma memcpy_at_in (buf src : bytes) (off : nat) :
  (off + length src <= length buf)%nat ->
  memcpy_at buf off src = take off buf ++ src ++ drop (off + length src) buf.
Proof.
  intros; unfold memcpy_at; apply take_ge.
  rewrite !length_app, length_take, length_drop; lia.
Qed.

Lemma slice_memcpy_same (buf src : bytes) (off n : nat) :
  n = length src -> (off + length src <= length buf)%nat ->
  slice (memcpy_at buf off src) off n = src.
Proof.
  intros -> ?; unfold slice; rewrite memcpy_at_in by done.
  rewrite drop_app_length' by (rewrite length_take; lia).
  by rewrite take_app_length.
Qed.

Lemma slice_lookup (buf : bytes) (off n i : nat) :
  (i < n)%nat -> slice buf off n !! i = buf !! (off + i)%nat.
Proof. intros; unfold slice; rewrite lookup_take_lt by lia; apply lookup_drop. Qed.

Lemma slice_lookup_ge (buf : bytes) (off n i : nat) :
  (n <= i)%nat -> slice buf off n !! i = None.
Proof. intros; unfold slice; apply lookup_take_ge; lia. Qed.

Lemma memcpy_lookup_out (buf src : bytes) (off i : nat) :
  (off + length src <= length buf)%nat ->
  (i < off \/ off + length src <= i)%nat ->
  memcpy_at buf off src !! i = buf !! i.
Proof.
  intros ? [?|?]; rewrite memcpy_at_in by done.
  - rewrite lookup_app_l by (rewrite length_take; lia).
    by apply lookup_take_lt.
  - rewrite lookup_app_r by (rewrite length_take; lia).
    rewrite lookup_app_r by (rewrite length_take; lia).
    rewrite lookup_drop; f_equal; rewrite length_take; lia.
Qed.

Lemma memcpy_lookup_in (buf src : bytes) (off i : nat) :
  (off + length src <= length buf)%nat ->
  (off <= i < off + length src)%nat ->
  memcpy_at buf off src !! i = src !! (i - off)%nat.
Proof.
  intros ? ?; rewrite memcpy_at_in by done.
  rewrite lookup_app_r by (rewrite length_take; lia).
  rewrite lookup_app_l by (rewrite length_take; lia).
  f_equal; rewrite length_take; lia.
Qed.

Lemma slice_memcpy_disjoint (buf src : bytes) (off o n : nat) :
  (off + length src <= length buf)%nat ->
  (o + n <= off \/ off + length src <= o)%nat ->
  slice (memcpy_at buf off src) o n = slice buf o n.
Proof.
  intros ? ?; apply list_eq; intros i.
  destruct (decide (i < n)%nat).
  - rewrite !slice_lookup by lia; apply memcpy_lookup_out; lia.
  - by rewrite !slice_lookup_ge by lia.
Qed.

Lemma slice_zeros (m off n : nat) :
  (off + n <= m)%nat -> slice (zeros m) off n = zeros n.
Proof.
  intros; unfold slice, zeros; rewrite drop_replicate, take_replicate.
  f_equal; lia.
Qed.

Lemma slice_slice (buf : bytes) (o1 n1 o2 n2 : nat) :
  (o2 + n2 <= n1)%nat ->
  slice (slice buf o1 n1) o2 n2 = slice buf (o1 + o2) n2.
Proof.
  intros; apply list_eq; intros i.
  destruct (decide (i < n2)%nat).
  - rewrite !slice_lookup by lia; f_equal; lia.
  - by rewrite !slice_lookup_ge by lia.
Qed.

Lemma slice_all (buf : bytes) (n : nat) : n = length buf -> slice buf 0 n = buf.
Proof. intros ->; unfold slice; rewrite drop_0; apply firstn_all. Qed.

Lemma slice_whole (buf : bytes) (off n : nat) :
  off = 0%nat -> n = length buf -> slice buf off n = buf.
Proof. intros -> ?; by apply slice_all. Qed.

Lemma slice_app_l (a b : bytes) (off n : nat) :
  (off + n <= length a)%nat -> slice (a ++ b) off n = slice a off n.
Proof.
  intros; apply list_eq; intros i.
  destruct (decide (i < n)%nat).
  - rewrite !slice_lookup by lia; apply lookup_app_l; lia.
  - by rewrite !slice_lookup_ge by lia.
Qed.

Lemma slice_app_r (a b : bytes) (off n : nat) :
  (length a <= off)%nat -> slice (a ++ b) off n = slice b (off - length a) n.
Proof.
  intros; apply list_eq; intros i.
  destruct (decide (i < n)%nat).
  - rewrite !slice_lookup, lookup_app_r by lia; f_equal; lia.
  - by rewrite !slice_lookup_ge by lia.
Qed.

Lemma slice_take (buf : bytes) (off n m : nat) :
  (off + n <= m)%nat -> slice (take m buf) off n = slice buf off n.
Proof.
  intros; apply list_eq; intros i.
  destruct (decide (i < n)%nat).
  - rewrite !slice_lookup, lookup_take_lt by lia; done.
  - by rewrite !slice_lookup_ge by lia.
Qed.

Lemma slice_drop (buf : bytes) (m off n : nat) :
  slice (drop m buf) off n = slice buf (m + off) n.
Proof. unfold slice; rewrite drop_drop; done. Qed.

(** Two buffers that agree on a partition of their indices are equal. *)
Lemma slice_split (buf : bytes) (n m : nat) :
  slice buf 0 (n + m) = slice buf 0 n ++ slice buf n m.
Proof. unfold slice; rewrite drop_0; symmetry; apply take_take_drop. Qed.

Lemma drop_slice_ext (a b : bytes) (m k : nat) :
  slice a m k = slice b m k -> drop (m + k) a = drop (m + k) b -> drop m a = drop m b.
Proof.
  intros Hs Hd; rewrite <- (take_drop k (drop m a)), <- (take_drop k (drop m b)).
  unfold slice in Hs; by rewrite Hs, !drop_drop, Hd.
Qed.

Lemma drop_0_ext (a b : bytes) : drop 0 a = drop 0 b -> a = b.
Proof. done. Qed.

Lemma memcpy_at_id (buf src : bytes) (off : nat) :
  slice buf off (length src) = src -> memcpy_at buf off src = buf.
Proof.
  unfold slice, memcpy_at; intros H; rewrite <- H at 1.
  by rewrite <- drop_drop, take_drop, take_drop, firstn_all.
Qed.

Lemma memcpy_at_twice (buf a b : bytes) (off : nat) :
  (off + length a <= length buf)%nat -> length a = length b ->
  memcpy_at (memcpy_at buf off a) off b = memcpy_at buf off b.
Proof.
  intros Hl Hab; rewrite memcpy_at_in by (rewrite length_memcpy_at; lia).
  rewrite !memcpy_at_in, <- Hab by lia.
  rewrite take_app_length' by (rewrite length_take; lia).
  rewrite (app_assoc (take off buf) a), drop_app_length'; [done|].
  rewrite length_app, length_take; lia.
Qed.

Lemma drop_as_slice (buf : bytes) (m : nat) : drop m buf = slice buf m (length buf - m).
Proof. unfold slice; rewrite take_ge; [done | rewrite length_drop; lia]. Qed.

Lemma slice_nil_iff (buf : bytes) (off n : nat) :
  slice buf off n = [] <-> (n = 0%nat \/ (length buf <= off)%nat).
Proof.
  rewrite <- length_zero_iff_nil; unfold slice; rewrite length_take, length_drop; lia.
Qed.

Lemma slice_add (buf : bytes) (off n m : nat) :
  slice buf off (n + m) = slice buf off n ++ slice buf (off + n) m.
Proof. unfold slice; rewrite <- drop_drop; symmetry; apply take_take_drop. Qed.

Lemma memcpy_at_app (pre rest src : bytes) (off : nat) :
  off = length pre -> (length src <= length rest)%nat ->
  memcpy_at (pre ++ rest) off src = (pre ++ src) ++ drop (length src) rest.
Proof.
  intros -> H; rewrite memcpy_at_in by (rewrite length_app; lia).
  rewrite take_app_length, drop_app_add, <- app_assoc; done.
Qed.

Lemma memcpy_at_tail (buf src : bytes) (off : nat) :
  (off + length src <= length buf)%nat ->
  take (off + length src) (memcpy_at buf off src) = take off buf ++ src.
Proof.
  intros; rewrite memcpy_at_in, app_assoc by done; apply take_app_length'.
  rewrite length_app, length_take; lia.
Qed.

Lemma all_zero_zeros (l : bytes) :
  forallb (fun b => bool_decide (b = x00)) l = true <-> l = zeros (length l).
Proof.
  induction l as [|b l IH]; cbn; [done|].
  rewrite andb_true_iff, bool_decide_eq_true, IH; split.
  - intros [-> H]; by rewrite H at 1.
  - intros E; injection E as E1 E2; done.
Qed.

(** ** Tactics *)

(** [sizes]: the on-disk size constants, for [autounfold]. *)
Create HintDb sizes.

Create Rewrite HintDb len.
#[export] Hint Rewrite length_zeros @length_replicate length_le_split @length_app
  @length_take @length_drop length_memcpy_at : len.

(** Evaluate [Z.of_nat] of literals. *)
Ltac is_nat_lit n :=
  lazymatch n with O => idtac | S ?m => is_nat_lit m | _ => fail end.
Ltac zconst :=
  repeat match goal with
  | |- context [Z.of_nat ?n] =>
      is_nat_lit n; let z := eval vm_compute in (Z.of_nat n) in change (Z.of_nat n) with z
  | H : context [Z.of_nat ?n] |- _ =>
      is_nat_lit n; let z := eval vm_compute in (Z.of_nat n) in change (Z.of_nat n) with z in H
  end.

#[export] Hint Rewrite length_slice using (autorewrite with len; cbn [length]; zconst; lia) : len.

(** [len_lia]: arithmetic over buffer lengths. *)
Ltac len_lia := autorewrite with len; cbn [length]; zconst; lia.

(** Resolve a slice of a chain of writes into the write it hits. *)
Ltac buf_step :=
  first
    [ rewrite slice_memcpy_same by len_lia
    | rewrite slice_memcpy_disjoint by len_lia
    | rewrite slice_zeros by len_lia
    | rewrite slice_slice by len_lia; cbn [Nat.add] ].
Ltac buf_simp := repeat buf_step.

(** Resolve a slice of a concatenation whose parts have known lengths. *)
Ltac app_simp :=
  repeat first
    [ rewrite slice_whole by len_lia
    | rewrite slice_app_l by len_lia
    | rewrite slice_app_r by len_lia ].

(** Compare the next [k] bytes of two buffers compared from some offset on. *)
Ltac drop_ext k :=
  lazymatch goal with
  | |- drop ?m _ = drop _ _ =>
      apply (drop_slice_ext _ _ m k); [buf_simp; try congruence | try (is_nat_lit k; cbn [Nat.add])]
  end.

(** Case analysis on the innermost condition or scrutinee of the goal or of a
    hypothesis. *)
Ltac case_if :=
  match goal with
  | |- context [if ?b then _ else _] =>
      lazymatch b with
      | context [if _ then _ else _] => fail
      | _ => destruct b eqn:?
      end
  end.

Ltac case_if_in H :=
  match type of H with
  | context [if ?b then _ else _] =>
      lazymatch b with
      | context [if _ then _ else _] => fail
      | _ => destruct b eqn:?
      end
  end.

(** Turn boolean hypotheses into propositions. *)
Ltac bool_hyps :=
  repeat match goal with
  | H : (_ || _) = false |- _ => apply orb_false_iff in H; destruct H
  | H : (_ && _) = true |- _ => apply andb_true_iff in H; destruct H
  | H : negb _ = true |- _ => apply negb_true_iff in H
  | H : negb _ = false |- _ => apply negb_false_iff in H
  | H : bool_decide _ = true |- _ => apply bool_decide_eq_true in H
  | H : bool_decide _ = false |- _ => apply bool_decide_eq_false in H
  end.

(** Boolean comparisons in hypotheses as inequalities. *)
Ltac zbool_hyps :=
  bool_hyps;
  repeat match goal with
  | H : (_ >? _) = _ |- _ => rewrite Z.gtb_ltb in H
  | H : (_ >=? _) = _ |- _ => rewrite Z.geb_leb in H
  | H : (_ <? _) = false |- _ => apply Z.ltb_ge in H
  | H : (_ <? _) = true |- _ => apply Z.ltb_lt in H
  | H : (_ <=? _) = false |- _ => apply Z.leb_gt in H
  | H : (_ <=? _) = true |- _ => apply Z.leb_le in H
  | H : (_ =? _) = false |- _ => apply Z.eqb_neq in H
  | H : (_ =? _) = true |- _ => apply Z.eqb_eq in H
  end.

(** Decide the integer comparisons of the goal that arithmetic settles. *)
Ltac zcmp_step :=
  match goal with
  | |- context [Z.eqb ?a ?b] =>
      first [ rewrite (proj2 (Z.eqb_eq a b)) by lia | rewrite (proj2 (Z.eqb_neq a b)) by lia ]
  | |- context [Z.ltb ?a ?b] =>
      first [ rewrite (proj2 (Z.ltb_lt a b)) by lia | rewrite (proj2 (Z.ltb_ge a b)) by lia ]
  | |- context [Z.leb ?a ?b] =>
      first [ rewrite (proj2 (Z.leb_le a b)) by lia | rewrite (proj2 (Z.leb_gt a b)) by lia ]
  | |- context [Z.gtb ?a ?b] => rewrite (Z.gtb_ltb a b)
  | |- context [Z.geb ?a ?b] => rewrite (Z.geb_leb a b)
  end.
Ltac zcmp := zconst; repeat zcmp_step.
