(* ===== verification/Status.v ===== *)
(** * Status codes and the error monad

    The enumeration [sdb_status] of [include/shibadb.h], its rendering by
    [src/status.c], and the monad in which every fallible operation of the
    library is written: a C function that returns a status and fills output
    parameters on [SDB_OK] is a function into [result]. *)

From S2P Require Import Prelude.

Inductive sdb_status :=
  | SDB_OK
  | SDB_E_INVALID_ARGUMENT
  | SDB_E_BUFFER_TOO_SMALL
  | SDB_E_BAD_MAGIC
  | SDB_E_UNSUPPORTED_VERSION
  | SDB_E_CORRUPT
  | SDB_E_OVERFLOW
  | SDB_E_IO
  | SDB_E_INTERNAL
  | SDB_E_TRUNCATED
  | SDB_E_NOT_FOUND
  | SDB_E_AUTHENTICATION
  | SDB_E_CONFLICT
  | SDB_E_BUSY
  | SDB_E_OUT_OF_MEMORY.

#[global] Instance sdb_status_eq_dec : EqDecision sdb_status.
Proof. solve_decision. Defined.

(** The numeric value the ABI fixes for each status. *)
Definition sdb_status_code (s : sdb_status) : Z :=
  match s with
  | SDB_OK => 0
  | SDB_E_INVALID_ARGUMENT => 1
  | SDB_E_BUFFER_TOO_SMALL => 2
  | SDB_E_BAD_MAGIC => 3
  | SDB_E_UNSUPPORTED_VERSION => 4
  | SDB_E_CORRUPT => 5
  | SDB_E_OVERFLOW => 6
  | SDB_E_IO => 7
  | SDB_E_INTERNAL => 8
  | SDB_E_TRUNCATED => 9
  | SDB_E_NOT_FOUND => 10
  | SDB_E_AUTHENTICATION => 11
  | SDB_E_CONFLICT => 12
  | SDB_E_BUSY => 13
  | SDB_E_OUT_OF_MEMORY => 14
  end.

(** [sdb_status_string] takes the C integer: a value outside the enumeration
    reaches the final [return]. *)
Definition sdb_status_string (code : Z) : string :=
  match code with
  | 0 => "ok"
  | 1 => "invalid argument"
  | 2 => "buffer too small"
  | 3 => "bad magic"
  | 4 => "unsupported version"
  | 5 => "corrupt data"
  | 6 => "integer overflow"
  | 7 => "I/O error"
  | 8 => "internal error"
  | 9 => "truncated data"
  | 10 => "not found"
  | 11 => "authentication failed"
  | 12 => "conflict"
  | 13 => "database busy"
  | 14 => "out of memory"
  | _ => "unknown status"
  end%string.

Definition SDB_VERSION_MAJOR : Z := 1.
Definition SDB_VERSION_MINOR : Z := 0.
Definition SDB_VERSION_PATCH : Z := 0.
Definition sdb_abi_version : Z := 1.
Definition sdb_version_string : string := "1.0.0".
Definition sdb_version_number : Z := 1000000.

(** ** The error monad *)

Inductive result (A : Type) :=
  | Ok (a : A)
  | Err (e : sdb_status).
Arguments Ok {A} a.
Arguments Err {A} e.

#[global] Instance result_eq_dec `{EqDecision A} : EqDecision (result A).
Proof. solve_decision. Defined.

#[global] Instance result_ret : MRet result := fun A => Ok.
#[global] Instance result_bind : MBind result := fun A B f r =>
  match r with Ok a => f a | Err e => Err e end.
#[global] Instance result_fmap : FMap result := fun A B f r =>
  match r with Ok a => Ok (f a) | Err e => Err e end.

(** The status a caller observes. *)
Definition status_of {A} (r : result A) : sdb_status :=
  match r with Ok _ => SDB_OK | Err e => e end.

(** [check b e k]: the guard [if (b) return e;] followed by [k]. *)
Definition check {A} (b : bool) (e : sdb_status) (k : result A) : result A :=
  if b then Err e else k.

Notation "'fail_if' b 'with' e ;; k" := (check b e k)
  (at level 100, b at level 99, e at level 0, k at level 200, right associativity,
   format "'fail_if'  b  'with'  e  ;; '//' k").

(** ** Memory accesses

    [memM A] is a computation that may also leave the bounds of an object it
    reads: [None] is undefined behaviour.  Parsers with data-dependent offsets
    are modelled in it, so that their memory safety is a theorem. *)

Definition memM (A : Type) : Type := option (result A).

#[global] Instance memM_ret : MRet memM := fun A a => Some (Ok a).
#[global] Instance memM_bind : MBind memM := fun A B k m =>
  match m with
  | None => None
  | Some (Err e) => Some (Err e)
  | Some (Ok a) => k a
  end.

Definition mem_err {A} (e : sdb_status) : memM A := Some (Err e).
Definition mem_ret {A} (a : A) : memM A := Some (Ok a).

(** ** Lemmas *)

Lemma bind_Ok {A B} (r : result A) (f : A -> result B) (b : B) :
  r ≫= f = Ok b -> exists a, r = Ok a /\ f a = Ok b.
Proof. destruct r; cbn; intros; [eauto | discriminate]. Qed.

Lemma check_Ok {A} (b : bool) e (k : result A) (a : A) :
  check b e k = Ok a -> b = false /\ k = Ok a.
Proof. unfold check; destruct b; [discriminate | auto]. Qed.

Lemma check_Err {A} (b : bool) e (k : result A) e' :
  check b e k = Err e' -> (b = true /\ e' = e) \/ (b = false /\ k = Err e').
Proof. unfold check; destruct b; [intros [= ->]; auto | auto]. Qed.

Lemma check_false {A} e (k : result A) : check false e k = k.
Proof. reflexivity. Qed.

(** Decompose a hypothesis that a computation in the monad succeeded. *)
Ltac inv_ok H :=
  repeat match type of H with
  | check _ _ _ = Ok _ =>
      let Hb := fresh "Hchk" in apply check_Ok in H; destruct H as [Hb H]
  | (_ ≫= _) = Ok _ =>
      let a := fresh "a" in let Ha := fresh "Hbind" in
      apply bind_Ok in H; destruct H as (a & Ha & H)
  end.

(** ** Failures carry a status other than [SDB_OK] *)

Definition honest {A} (r : result A) : Prop := r <> Err SDB_OK.
Definition honest_mem {A} (m : memM A) : Prop := m <> Some (Err SDB_OK).

Lemma honest_ok {A} (a : A) : honest (Ok a).
Proof. done. Qed.
Lemma honest_err {A} (e : sdb_status) : e <> SDB_OK -> honest (A := A) (Err e).
Proof. intros He H; injection H as H; done. Qed.
Lemma honest_bind {A B} (r : result A) (k : A -> result B) :
  honest r -> (forall a, honest (k a)) -> honest (r ≫= k).
Proof. intros Hr Hk; destruct r as [a|e]; cbn; [apply Hk|]; intros H; injection H as ->; by apply Hr. Qed.
Lemma honest_check {A} (c : bool) (e : sdb_status) (k : result A) :
  e <> SDB_OK -> honest k -> honest (fail_if c with e ;; k).
Proof. intros He Hk; unfold check; destruct c; [by apply honest_err|done]. Qed.

Lemma honest_mem_bind {A B} (m : memM A) (k : A -> memM B) :
  honest_mem m -> (forall a, honest_mem (k a)) -> honest_mem (m ≫= k).
Proof.
  intros Hr Hk; destruct m as [[a|e]|]; cbn; [apply Hk| |done]; intros H; injection H as ->; by apply Hr.
Qed.
Lemma honest_mem_ret {A} (a : A) : honest_mem (mem_ret a).
Proof. done. Qed.
Lemma honest_mem_none {A} : honest_mem (A := A) None.
Proof. done. Qed.
Lemma honest_mem_err {A} (e : sdb_status) : e <> SDB_OK -> honest_mem (A := A) (mem_err e).
Proof. intros He H; injection H as H; done. Qed.

Create HintDb honest.
#[export] Hint Resolve honest_ok honest_err honest_check honest_mem_ret honest_mem_none honest_mem_err : honest.
#[export] Hint Extern 1 (_ <> SDB_OK) => discriminate : honest.

(** Follow the program to its failures. *)
Ltac honest_tac :=
  repeat first
    [ solve [eauto with honest]
    | match goal with
      | |- honest (_ ≫= _) => apply honest_bind; [|intros ?]
      | |- honest (check _ _ _) => apply honest_check; [discriminate|]
      | |- honest_mem (_ ≫= _) => apply honest_mem_bind; [|intros ?]
      | |- honest (match ?x with _ => _ end) => destruct x
      | |- honest_mem (match ?x with _ => _ end) => destruct x
      end
    | progress cbv zeta ].
