(* ===== verification/Codec.v ===== *)
(** * Little-endian codec and checked size arithmetic ([src/codec.c])

    Reads and writes take the buffer and the offset of the C pointer
    [buf + off].  A read past the end of the buffer yields zero bytes and a
    write there is dropped, where C has undefined behaviour; every lemma about
    a write requires the field to lie inside the buffer. *)

From S2P Require Import Prelude Status.

Definition sdb_checked_add_size (left right : Z) : option Z :=
  if right >? SIZE_MAX - left then None else Some (left + right).

Definition sdb_checked_mul_size (left right : Z) : option Z :=
  if negb (left =? 0) && (right >? SIZE_MAX / left) then None
  else Some (left * right).

(** [buf[i]] promoted to an integer, and [buf[i] = (uint8_t)v]. *)
Definition u8_at (buf : bytes) (i : nat) : Z := byte.unsigned (buf !!! i).
Definition store_u8 (buf : bytes) (i : nat) (v : Z) : bytes := <[i := byte.of_Z v]> buf.

(** An access of [n] bytes at [off] is defined when it stays in the object. *)
Definition in_bounds (buf : bytes) (off n : nat) : bool := bool_decide (off + n <= length buf)%nat.

Definition sdb_read_u16_le (buf : bytes) (off : nat) : Z :=
  wrap 16 (Z.lor (u8_at buf off) (wrap 16 (Z.shiftl (u8_at buf (off + 1)) 8))).

Definition sdb_read_u32_le (buf : bytes) (off : nat) : Z :=
  wrap 32 (Z.lor (Z.lor (Z.lor (u8_at buf off)
                               (wrap 32 (Z.shiftl (u8_at buf (off + 1)) 8)))
                        (wrap 32 (Z.shiftl (u8_at buf (off + 2)) 16)))
                 (wrap 32 (Z.shiftl (u8_at buf (off + 3)) 24))).

Definition sdb_read_u64_le (buf : bytes) (off : nat) : Z :=
  fold_left (fun value index =>
    Z.lor value (wrap 64 (Z.shiftl (u8_at buf (off + index)) (Z.of_nat index * 8))))
    (seq 0 8) 0.

Definition load_u16 (buf : bytes) (off : nat) : memM Z :=
  if in_bounds buf off 2 then mem_ret (sdb_read_u16_le buf off) else None.
Definition load_u32 (buf : bytes) (off : nat) : memM Z :=
  if in_bounds buf off 4 then mem_ret (sdb_read_u32_le buf off) else None.
Definition load_u64 (buf : bytes) (off : nat) : memM Z :=
  if in_bounds buf off 8 then mem_ret (sdb_read_u64_le buf off) else None.
Definition load_bytes (buf : bytes) (off n : nat) : memM bytes :=
  if in_bounds buf off n then mem_ret (slice buf off n) else None.

Definition sdb_write_u16_le (buf : bytes) (off : nat) (value : Z) : bytes :=
  store_u8 (store_u8 buf off (Z.land value 255))
           (off + 1) (Z.land (Z.shiftr value 8) 255).

Definition sdb_write_u32_le (buf : bytes) (off : nat) (value : Z) : bytes :=
  fold_left (fun b index =>
    store_u8 b (off + index) (Z.land (Z.shiftr value (Z.of_nat index * 8)) 255))
    (seq 0 4) buf.

Definition sdb_write_u64_le (buf : bytes) (off : nat) (value : Z) : bytes :=
  fold_left (fun b index =>
    store_u8 b (off + index) (Z.land (Z.shiftr value (Z.of_nat index * 8)) 255))
    (seq 0 8) buf.

(** ** Reads are little-endian values of slices *)

Lemma slice_S (buf : bytes) (off n : nat) :
  slice buf off (S n) = slice buf off n ++ option_list (buf !! (off + n)%nat).
Proof.
  unfold slice; rewrite <- lookup_drop.
  destruct (drop off buf !! n) as [b|] eqn:E; cbn.
  - by apply take_S_r.
  - apply lookup_ge_None in E; rewrite app_nil_r, !take_ge by lia; done.
Qed.

Lemma u8_at_range (buf : bytes) (i : nat) : 0 <= u8_at buf i < 256.
Proof. apply byte_range. Qed.

Lemma le_combine_slice_range (buf : bytes) (off n : nat) :
  0 <= le_combine (slice buf off n) < 2 ^ (8 * Z.of_nat n).
Proof.
  pose proof (le_combine_bound (slice buf off n)) as [? Hb]; split; [done|].
  eapply Z.lt_le_trans; [exact Hb|].
  apply Z.pow_le_mono_r; [lia|]; unfold slice; rewrite length_take; lia.
Qed.

Lemma le_combine_slice_S (buf : bytes) (off n : nat) :
  le_combine (slice buf off (S n)) =
    Z.lor (le_combine (slice buf off n))
          (Z.shiftl (u8_at buf (off + n)) (Z.of_nat n * 8)).
Proof.
  rewrite slice_S; unfold u8_at; rewrite list_lookup_total_alt.
  destruct (buf !! (off + n)%nat) as [b|] eqn:E; cbn [from_option].
  - change (option_list (Some b)) with [b]; unfold id.
    rewrite le_combine_app, le_combine_1.
    do 3 f_equal; apply lookup_lt_Some in E; rewrite length_slice by lia; done.
  - change (option_list None) with (@nil byte).
    rewrite app_nil_r; change (byte.unsigned inhabitant) with 0.
    by rewrite Z.shiftl_0_l, Z.lor_0_r.
Qed.

(** One more byte, stored in a [w]-bit integer, loses nothing. *)
Lemma wrap_shifted_byte (buf : bytes) (i : nat) (k w : Z) :
  0 <= k -> k + 8 <= w ->
  wrap w (Z.shiftl (u8_at buf i) k) = Z.shiftl (u8_at buf i) k.
Proof.
  intros Hk Hw; apply wrap_small; rewrite Z.shiftl_mul_pow2 by lia.
  pose proof (u8_at_range buf i).
  pose proof (Z.pow_le_mono_r 2 (k + 8) w ltac:(lia) Hw).
  pose proof (Z.pow_pos_nonneg 2 k).
  rewrite Z.pow_add_r in * by lia; change (2 ^ 8) with 256 in *; nia.
Qed.

Lemma le_combine_slice_0 (buf : bytes) (off : nat) : le_combine (slice buf off 0) = 0.
Proof. reflexivity. Qed.

Ltac read_spec off :=
  rewrite ?wrap_shifted_byte by lia;
  repeat rewrite le_combine_slice_S; rewrite le_combine_slice_0, Z.lor_0_l;
  cbn [Z.of_nat Pos.of_succ_nat Pos.succ Z.mul Pos.mul];
  rewrite Z.shiftl_0_r, Nat.add_0_r.

Lemma sdb_read_u16_le_spec (buf : bytes) (off : nat) :
  sdb_read_u16_le buf off = le_combine (slice buf off 2).
Proof.
  unfold sdb_read_u16_le; rewrite wrap_shifted_byte by lia.
  replace (Z.lor _ _) with (le_combine (slice buf off 2)).
  - apply wrap_small, (le_combine_slice_range buf off 2).
  - read_spec off; done.
Qed.

Lemma sdb_read_u32_le_spec (buf : bytes) (off : nat) :
  sdb_read_u32_le buf off = le_combine (slice buf off 4).
Proof.
  unfold sdb_read_u32_le; rewrite !wrap_shifted_byte by lia.
  match goal with |- wrap 32 ?x = _ => replace x with (le_combine (slice buf off 4)) end.
  - apply wrap_small, (le_combine_slice_range buf off 4).
  - read_spec off; done.
Qed.

Lemma sdb_read_u64_le_spec (buf : bytes) (off : nat) :
  sdb_read_u64_le buf off = le_combine (slice buf off 8).
Proof.
  unfold sdb_read_u64_le; cbn [seq fold_left].
  rewrite !wrap_shifted_byte by lia.
  rewrite Z.lor_0_l; read_spec off; done.
Qed.

Lemma sdb_read_u16_le_range (buf : bytes) (off : nat) : 0 <= sdb_read_u16_le buf off < 65536.
Proof. rewrite sdb_read_u16_le_spec; apply (le_combine_slice_range buf off 2). Qed.

Lemma sdb_read_u32_le_range (buf : bytes) (off : nat) :
  0 <= sdb_read_u32_le buf off < 4294967296.
Proof. rewrite sdb_read_u32_le_spec; apply (le_combine_slice_range buf off 4). Qed.

Lemma sdb_read_u64_le_range (buf : bytes) (off : nat) :
  0 <= sdb_read_u64_le buf off < 18446744073709551616.
Proof. rewrite sdb_read_u64_le_spec; apply (le_combine_slice_range buf off 8). Qed.

(** ** Writes are [memcpy] of the little-endian encoding *)

Lemma byte_of_Z_land (v : Z) : byte.of_Z (Z.land v 255) = byte.of_Z v.
Proof.
  apply byte.unsigned_inj; rewrite !byte.unsigned_of_Z; unfold byte.wrap.
  change 255 with (Z.ones 8); rewrite Z.land_ones by lia.
  change 256 with (2 ^ 8); apply Z.mod_mod; lia.
Qed.

Lemma memcpy_at_snoc (buf src : bytes) (off : nat) (b : byte) :
  (off + length src < length buf)%nat ->
  memcpy_at buf off (src ++ [b]) = <[(off + length src)%nat := b]> (memcpy_at buf off src).
Proof.
  intros Hlen; apply list_eq; intros i.
  destruct (decide (i = off + length src)%nat) as [->|Hne].
  - rewrite list_lookup_insert_eq by (rewrite length_memcpy_at; lia).
    rewrite memcpy_lookup_in by len_lia.
    rewrite lookup_app_r by lia.
    by replace (off + length src - off - length src)%nat with 0%nat by lia.
  - rewrite list_lookup_insert_ne by done.
    destruct (decide (off <= i < off + length src)%nat).
    + rewrite !memcpy_lookup_in by len_lia; apply lookup_app_l; lia.
    + rewrite !memcpy_lookup_out by len_lia; done.
Qed.

Lemma le_split_S_r (n : nat) (v : Z) :
  le_split (S n) v = le_split n v ++ [byte.of_Z (Z.shiftr v (Z.of_nat n * 8))].
Proof.
  revert v; induction n as [|n IH]; intros v.
  - cbn; by rewrite Z.shiftr_0_r.
  - change (le_split (S (S n)) v) with (byte.of_Z v :: le_split (S n) (Z.shiftr v 8)).
    rewrite IH, Z.shiftr_shiftr by lia; cbn [app].
    change (le_split (S n) v) with (byte.of_Z v :: le_split n (Z.shiftr v 8)).
    cbn [app]; do 5 f_equal; lia.
Qed.

Lemma memcpy_at_nil (buf : bytes) (off : nat) : memcpy_at buf off [] = buf.
Proof. by apply memcpy_at_id. Qed.

Lemma store_loop_spec (buf : bytes) (off n : nat) (v : Z) :
  (off + n <= length buf)%nat ->
  fold_left (fun b index =>
    store_u8 b (off + index) (Z.land (Z.shiftr v (Z.of_nat index * 8)) 255))
    (seq 0 n) buf = memcpy_at buf off (le_split n v).
Proof.
  induction n as [|n IH]; intros Hlen.
  - cbn; symmetry; apply memcpy_at_nil.
  - rewrite seq_S, fold_left_app, IH by lia; cbn [fold_left Nat.add].
    rewrite le_split_S_r, memcpy_at_snoc by len_lia.
    unfold store_u8; by rewrite byte_of_Z_land, length_le_split.
Qed.

Lemma sdb_write_u16_le_spec (buf : bytes) (off : nat) (v : Z) :
  (off + 2 <= length buf)%nat ->
  sdb_write_u16_le buf off v = memcpy_at buf off (le_split 2 v).
Proof.
  intros; rewrite <- store_loop_spec by done; unfold sdb_write_u16_le.
  cbn [seq fold_left]; by rewrite Nat.add_0_r, Z.mul_0_l, Z.shiftr_0_r.
Qed.

Lemma sdb_write_u32_le_spec (buf : bytes) (off : nat) (v : Z) :
  (off + 4 <= length buf)%nat ->
  sdb_write_u32_le buf off v = memcpy_at buf off (le_split 4 v).
Proof. apply store_loop_spec. Qed.

Lemma sdb_write_u64_le_spec (buf : bytes) (off : nat) (v : Z) :
  (off + 8 <= length buf)%nat ->
  sdb_write_u64_le buf off v = memcpy_at buf off (le_split 8 v).
Proof. apply store_loop_spec. Qed.

Lemma length_store_u8 (buf : bytes) (i : nat) (v : Z) :
  length (store_u8 buf i v) = length buf.
Proof. apply length_insert. Qed.

Lemma length_store_loop (buf : bytes) (off : nat) (f : nat -> Z) (l : list nat) :
  length (fold_left (fun b index => store_u8 b (off + index) (f index)) l buf) = length buf.
Proof.
  revert buf; induction l as [|i l IH]; intros buf; cbn; [done|].
  by rewrite IH, length_store_u8.
Qed.

Lemma length_write_u16 (buf : bytes) (off : nat) (v : Z) :
  length (sdb_write_u16_le buf off v) = length buf.
Proof. unfold sdb_write_u16_le; by rewrite !length_store_u8. Qed.
Lemma length_write_u32 (buf : bytes) (off : nat) (v : Z) :
  length (sdb_write_u32_le buf off v) = length buf.
Proof. apply (length_store_loop buf off (fun i => _)). Qed.
Lemma length_write_u64 (buf : bytes) (off : nat) (v : Z) :
  length (sdb_write_u64_le buf off v) = length buf.
Proof. apply (length_store_loop buf off (fun i => _)). Qed.

#[export] Hint Rewrite length_write_u16 length_write_u32 length_write_u64 : len.

(** ** Round trips of the encodings *)

Lemma le_combine_split_small (n : nat) (v : Z) :
  0 <= v < 2 ^ (Z.of_nat n * 8) -> le_combine (le_split n v) = v.
Proof. intros; rewrite le_combine_split; apply Z.mod_small; done. Qed.

Lemma le_split_inj (n : nat) (v w : Z) :
  0 <= v < 2 ^ (Z.of_nat n * 8) -> 0 <= w < 2 ^ (Z.of_nat n * 8) ->
  le_split n v = le_split n w -> v = w.
Proof.
  intros Hv Hw E; rewrite <- (le_combine_split_small n v Hv).
  by rewrite E, le_combine_split_small.
Qed.

Lemma le_split_combine_slice (buf : bytes) (off n : nat) :
  (off + n <= length buf)%nat ->
  le_split n (le_combine (slice buf off n)) = slice buf off n.
Proof. intros; apply split_le_combine'; by apply length_slice. Qed.

Lemma store_u8_memcpy (buf : bytes) (i : nat) (v : Z) :
  (i < length buf)%nat -> store_u8 buf i v = memcpy_at buf i [byte.of_Z v].
Proof.
  intros; unfold store_u8; rewrite memcpy_at_in by (cbn; lia); cbn.
  rewrite insert_take_drop by done; do 3 f_equal; lia.
Qed.

(** Rewrite every codec call of the goal into slices and encodings. *)
Ltac codec_unfold :=
  rewrite ?sdb_read_u16_le_spec, ?sdb_read_u32_le_spec, ?sdb_read_u64_le_spec;
  rewrite ?sdb_write_u16_le_spec, ?sdb_write_u32_le_spec, ?sdb_write_u64_le_spec
    by len_lia.
