(* ===== verification/Page.v ===== *)
(** * Page envelope ([src/page.h], [src/page.c])

    Every page of the data file and of the WAL carries a 32-byte header with a
    magic, a type, its own id, the LSN of the transaction that wrote it, the
    payload size and a CRC over the whole page.  The theorems: encoding then
    decoding returns the fields and the payload; decoding accepts exactly the
    pages the encoder produces (the format is canonical); and the decoder's
    status on each kind of damage. *)

From S2P Require Import Prelude Status Codec Checksum.

Definition SDB_MIN_PAGE_SIZE : Z := 4096.
Definition SDB_MAX_PAGE_SIZE : Z := 65536.
Definition SDB_PAGE_HEADER_SIZE : nat := 32.
Definition SDB_PAGE_CHECKSUM_OFFSET : nat := 28.

(** [enum sdb_page_type]. *)
Definition SDB_PAGE_TYPE_DATA : Z := 1.
Definition SDB_PAGE_TYPE_FREE : Z := 2.
Definition SDB_PAGE_TYPE_ENCRYPTED : Z := 3.

Record sdb_page_view := {
  view_type : Z;
  view_flags : Z;
  view_page_id : Z;
  view_page_lsn : Z;
  view_payload : bytes
}.

(** ["SPG1"] *)
Definition sdb_page_magic : bytes := byte.of_Z <$> [83; 80; 71; 49].

Definition sdb_page_type_valid (type : Z) : bool :=
  (type =? SDB_PAGE_TYPE_DATA) || (type =? SDB_PAGE_TYPE_FREE)
  || (type =? SDB_PAGE_TYPE_ENCRYPTED).

(** The page-size guard shared by the encoder and the decoder. *)
Definition sdb_page_size_bad (page_size : Z) : bool :=
  (page_size <? SDB_MIN_PAGE_SIZE) || (page_size >? SDB_MAX_PAGE_SIZE)
  || negb (Z.land page_size (page_size - 1) =? 0).

(** The header and the payload, before the checksum is stored. *)
Definition page_body (page_size type page_id page_lsn : Z) (payload : bytes) : bytes :=
  let page := zeros (Z.to_nat page_size) in
  let page := memcpy_at page 0 sdb_page_magic in
  let page := sdb_write_u16_le page 4 type in
  let page := sdb_write_u16_le page 6 0 in
  let page := sdb_write_u64_le page 8 page_id in
  let page := sdb_write_u64_le page 16 page_lsn in
  let page := sdb_write_u32_le page 24 (wrap 32 (Z.of_nat (length payload))) in
  memcpy_at page SDB_PAGE_HEADER_SIZE payload.

Definition sdb_page_encode (page_size type page_id page_lsn : Z) (payload : bytes)
  : result bytes :=
  let payload_size := Z.of_nat (length payload) in
  fail_if (page_id =? 0) || negb (sdb_page_type_valid type) with SDB_E_INVALID_ARGUMENT ;;
  fail_if sdb_page_size_bad page_size with SDB_E_INVALID_ARGUMENT ;;
  fail_if (payload_size >? page_size - Z.of_nat SDB_PAGE_HEADER_SIZE)
          || (payload_size >? UINT32_MAX) with SDB_E_INVALID_ARGUMENT ;;
  let page := page_body page_size type page_id page_lsn payload in
  let checksum := sdb_crc32_zeroed_range page SDB_PAGE_CHECKSUM_OFFSET 4 in
  Ok (sdb_write_u32_le page SDB_PAGE_CHECKSUM_OFFSET checksum).

(** [page] is the buffer of [page_size] bytes. *)
Definition sdb_page_decode (page : bytes) (page_size expected_page_id : Z)
  : result sdb_page_view :=
  fail_if (expected_page_id =? 0) with SDB_E_INVALID_ARGUMENT ;;
  fail_if sdb_page_size_bad page_size with SDB_E_INVALID_ARGUMENT ;;
  fail_if negb (bool_decide (slice page 0 4 = sdb_page_magic)) with SDB_E_BAD_MAGIC ;;
  let type := sdb_read_u16_le page 4 in
  let flags := sdb_read_u16_le page 6 in
  let page_id := sdb_read_u64_le page 8 in
  let payload_size := sdb_read_u32_le page 24 in
  fail_if negb (sdb_page_type_valid type) || negb (flags =? 0)
          || negb (page_id =? expected_page_id)
          || (payload_size >? page_size - Z.of_nat SDB_PAGE_HEADER_SIZE)
    with SDB_E_CORRUPT ;;
  let stored_checksum := sdb_read_u32_le page SDB_PAGE_CHECKSUM_OFFSET in
  let computed_checksum := sdb_crc32_zeroed_range page SDB_PAGE_CHECKSUM_OFFSET 4 in
  fail_if negb (stored_checksum =? computed_checksum) with SDB_E_CORRUPT ;;
  fail_if negb (forallb (fun b => bool_decide (b = x00))
                  (drop (SDB_PAGE_HEADER_SIZE + Z.to_nat payload_size) page))
    with SDB_E_CORRUPT ;;
  Ok {| view_type := type; view_flags := flags; view_page_id := page_id;
        view_page_lsn := sdb_read_u64_le page 16;
        view_payload := slice page SDB_PAGE_HEADER_SIZE (Z.to_nat payload_size) |}.

(** ** The fields of an encoded page *)

Lemma sdb_page_size_ok (page_size : Z) :
  sdb_page_size_bad page_size = false -> 4096 <= page_size <= 65536.
Proof. unfold sdb_page_size_bad, SDB_MIN_PAGE_SIZE, SDB_MAX_PAGE_SIZE; intros; bool_hyps; lia. Qed.

Section Layout.
Context (page_size type page_id page_lsn : Z) (payload page : bytes).
Hypothesis Henc : sdb_page_encode page_size type page_id page_lsn payload = Ok page.

Lemma page_encode_guards :
  page_id <> 0 /\ sdb_page_type_valid type = true /\ sdb_page_size_bad page_size = false
  /\ 4096 <= page_size <= 65536 /\ (32 + length payload <= Z.to_nat page_size)%nat
  /\ Z.of_nat (length payload) < 2 ^ 32.
Proof.
  pose proof Henc as H; unfold sdb_page_encode in H; inv_ok H; bool_hyps.
  pose proof (sdb_page_size_ok _ Hchk0).
  unfold SDB_PAGE_HEADER_SIZE, UINT32_MAX in *; zconst; split_and!; try done; lia.
Qed.

Let body := page_body page_size type page_id page_lsn payload.

Lemma page_body_slices :
  length body = Z.to_nat page_size
  /\ slice body 0 4 = sdb_page_magic
  /\ slice body 4 2 = le_split 2 type
  /\ slice body 6 2 = le_split 2 0
  /\ slice body 8 8 = le_split 8 page_id
  /\ slice body 16 8 = le_split 8 page_lsn
  /\ slice body 24 4 = le_split 4 (wrap 32 (Z.of_nat (length payload)))
  /\ slice body 28 4 = zeros 4
  /\ slice body 32 (length payload) = payload
  /\ drop (32 + length payload) body = zeros (Z.to_nat page_size - 32 - length payload).
Proof.
  destruct page_encode_guards as (_ & _ & _ & Hsz & Hpl & _).
  assert (length sdb_page_magic = 4%nat) by reflexivity.
  assert (Hlen : length body = Z.to_nat page_size).
  { unfold body, page_body, SDB_PAGE_HEADER_SIZE; cbv zeta; codec_unfold; len_lia. }
  split; [done|]; rewrite (drop_as_slice body), Hlen.
  replace (Z.to_nat page_size - (32 + length payload))%nat
    with (Z.to_nat page_size - 32 - length payload)%nat by lia.
  clear Hlen; unfold body, page_body, SDB_PAGE_HEADER_SIZE; cbv zeta; codec_unfold.
  split_and!; buf_simp; done.
Qed.

(** The checksum field of the body is still zero when the CRC is taken. *)
Lemma page_encode_eq : page = memcpy_at body 28 (le_split 4 (sdb_crc32 body)).
Proof.
  destruct page_encode_guards as (_ & _ & _ & Hsz & Hpl & _).
  destruct page_body_slices as (Hlen & _ & _ & _ & _ & _ & _ & Hz & _).
  pose proof Henc as H; unfold sdb_page_encode in H; inv_ok H.
  injection H as <-; fold body; unfold SDB_PAGE_CHECKSUM_OFFSET.
  rewrite sdb_write_u32_le_spec by lia.
  by rewrite crc32_zeroed_range_spec, (memcpy_at_id body (zeros 4)) by first [lia | exact Hz].
Qed.

Lemma page_slices :
  length page = Z.to_nat page_size
  /\ slice page 0 4 = sdb_page_magic
  /\ slice page 4 2 = le_split 2 type
  /\ slice page 6 2 = le_split 2 0
  /\ slice page 8 8 = le_split 8 page_id
  /\ slice page 16 8 = le_split 8 page_lsn
  /\ slice page 24 4 = le_split 4 (wrap 32 (Z.of_nat (length payload)))
  /\ slice page 28 4 = le_split 4 (sdb_crc32 body)
  /\ slice page 32 (length payload) = payload
  /\ drop (32 + length payload) page = zeros (Z.to_nat page_size - 32 - length payload).
Proof.
  destruct page_encode_guards as (_ & _ & _ & Hsz & Hpl & _).
  destruct page_body_slices as (Hlen & H0 & H1 & H2 & H3 & H4 & H5 & _ & H6 & H7).
  rewrite page_encode_eq; rewrite (drop_as_slice body) in H7.
  rewrite drop_as_slice, length_memcpy_at.
  split_and!; buf_simp; done.
Qed.

(** Clearing the stored checksum gives the body back. *)
Lemma page_zeroed : memcpy_at page 28 (zeros 4) = body.
Proof.
  destruct page_encode_guards as (_ & _ & _ & Hsz & Hpl & _).
  destruct page_body_slices as (Hlen & _ & _ & _ & _ & _ & _ & Hz & _).
  rewrite page_encode_eq, memcpy_at_twice by len_lia.
  by apply memcpy_at_id.
Qed.
End Layout.

Lemma page_decode_encoded (page_size type page_id page_lsn : Z) (payload page : bytes) :
  0 <= page_id < 2 ^ 64 -> 0 <= page_lsn < 2 ^ 64 ->
  sdb_page_encode page_size type page_id page_lsn payload = Ok page ->
  sdb_page_decode page page_size page_id =
    Ok {| view_type := type; view_flags := 0; view_page_id := page_id;
          view_page_lsn := page_lsn; view_payload := payload |}.
Proof.
  intros Hid Hlsn Henc.
  destruct (page_encode_guards _ _ _ _ _ _ Henc) as (Hnz & Hty & Hps & Hsz & Hpl & Hp32).
  destruct (page_slices _ _ _ _ _ _ Henc) as (Hlen & H0 & H1 & H2 & H3 & H4 & H5 & H6 & H7 & H8).
  assert (Htr : 0 <= type < 2 ^ 16).
  { unfold sdb_page_type_valid, SDB_PAGE_TYPE_DATA, SDB_PAGE_TYPE_FREE,
      SDB_PAGE_TYPE_ENCRYPTED in Hty; lia. }
  unfold sdb_page_decode, SDB_PAGE_CHECKSUM_OFFSET, SDB_PAGE_HEADER_SIZE.
  rewrite crc32_zeroed_range_spec, (page_zeroed _ _ _ _ _ _ Henc) by lia.
  rewrite !sdb_read_u16_le_spec, !sdb_read_u64_le_spec, !sdb_read_u32_le_spec.
  rewrite H0, H1, H2, H3, H4, H5, H6, bool_decide_eq_true_2 by done.
  pose proof (sdb_crc32_range (page_body page_size type page_id page_lsn payload)) as [? ?].
  rewrite !le_combine_split_small by
    first [done | apply wrap_range; lia | lia].
  rewrite wrap_small by lia; rewrite Nat2Z.id, H7, H8, Hps, Hty.
  rewrite (proj2 (all_zero_zeros _)) by (by rewrite length_zeros).
  zcmp; reflexivity.
Qed.

(** Round trip of the page envelope.  Whatever [sdb_page_encode] produces
    for in-range fields, [sdb_page_decode] accepts under the same id and
    returns exactly the type, id, LSN and payload that were encoded. *)
Theorem sdb_page_decode_encode (page_size type page_id page_lsn : Z) (payload page : bytes) :
  0 <= page_id < 2 ^ 64 -> 0 <= page_lsn < 2 ^ 64 ->
  sdb_page_encode page_size type page_id page_lsn payload = Ok page ->
  sdb_page_decode page page_size page_id =
    Ok {| view_type := type; view_flags := 0; view_page_id := page_id;
          view_page_lsn := page_lsn; view_payload := payload |}.
Proof. apply page_decode_encoded. Qed.

Lemma sdb_page_decode_encode_witness :
  let payload := byte.of_Z <$> [1; 2; 3] in
  exists page,
    sdb_page_encode 4096 1 7 9 payload = Ok page /\
    sdb_page_decode page 4096 7 =
      Ok {| view_type := 1; view_flags := 0; view_page_id := 7;
            view_page_lsn := 9; view_payload := payload |}.
Proof.
  eexists; split; [vm_compute; reflexivity|].
  apply sdb_page_decode_encode; [lia | lia | vm_compute; reflexivity].
Defined.

(** ** Canonicity *)

Lemma page_decode_inv (page : bytes) (page_size id : Z) (v : sdb_page_view) :
  sdb_page_decode page page_size id = Ok v ->
  id <> 0 /\ sdb_page_size_bad page_size = false
  /\ slice page 0 4 = sdb_page_magic
  /\ view_type v = sdb_read_u16_le page 4 /\ sdb_page_type_valid (view_type v) = true
  /\ view_flags v = 0 /\ sdb_read_u16_le page 6 = 0
  /\ view_page_id v = id /\ sdb_read_u64_le page 8 = id
  /\ view_page_lsn v = sdb_read_u64_le page 16
  /\ sdb_read_u32_le page 24 <= page_size - 32
  /\ sdb_read_u32_le page 28 = sdb_crc32_zeroed_range page 28 4
  /\ (let n := Z.to_nat (sdb_read_u32_le page 24) in
      drop (32 + n) page = zeros (length page - (32 + n)) /\ view_payload v = slice page 32 n).
Proof.
  intros H; unfold sdb_page_decode in H; inv_ok H; injection H as <-; cbn [view_type view_flags
    view_page_id view_page_lsn view_payload]; bool_hyps.
  unfold SDB_PAGE_HEADER_SIZE, SDB_PAGE_CHECKSUM_OFFSET in *; zconst.
  match goal with H : forallb _ _ = true |- _ => apply all_zero_zeros in H; rewrite length_drop in H end.
  split_and!; try done; lia.
Qed.

(** The body the encoder would build from the decoded fields is the page with
    its checksum field cleared. *)
Lemma page_body_decoded (page : bytes) (page_size id : Z) (v : sdb_page_view) :
  Z.of_nat (length page) = page_size ->
  sdb_page_decode page page_size id = Ok v ->
  page_body page_size (view_type v) id (view_page_lsn v) (view_payload v)
    = memcpy_at page 28 (zeros 4).
Proof.
  intros Hlen Hdec.
  destruct (page_decode_inv _ _ _ _ Hdec)
    as (? & Hps & Hmagic & Hty & _ & _ & Hfl & _ & Hid & Hlsn & Hn & _ & Hz & Hpl).
  pose proof (sdb_page_size_ok _ Hps); pose proof (sdb_read_u32_le_range page 24).
  set (n := Z.to_nat (sdb_read_u32_le page 24)) in *.
  assert (Hpn : length (view_payload v) = n) by (rewrite Hpl; len_lia).
  assert (length sdb_page_magic = 4%nat) by reflexivity.
  unfold page_body, SDB_PAGE_HEADER_SIZE; rewrite wrap_small by lia; cbv zeta.
  codec_unfold; rewrite Hty, <- Hid, Hlsn, Hpn.
  replace (Z.of_nat n) with (sdb_read_u32_le page 24) by lia.
  rewrite <- Hfl at 1; rewrite !sdb_read_u16_le_spec, !sdb_read_u64_le_spec, !sdb_read_u32_le_spec.
  rewrite !le_split_combine_slice by lia; rewrite <- Hmagic at 1; rewrite Hpl.
  apply drop_0_ext.
  drop_ext 4%nat; drop_ext 2%nat; drop_ext 2%nat; drop_ext 8%nat; drop_ext 8%nat.
  drop_ext 4%nat; drop_ext 4%nat; drop_ext n.
  rewrite drop_as_slice, (drop_as_slice (memcpy_at page _ _)).
  rewrite (drop_as_slice page) in Hz; autorewrite with len; buf_simp.
  rewrite Hz; f_equal; lia.
Qed.

Lemma page_encode_decoded (page : bytes) (page_size id : Z) (v : sdb_page_view) :
  Z.of_nat (length page) = page_size ->
  sdb_page_decode page page_size id = Ok v ->
  sdb_page_encode page_size (view_type v) id (view_page_lsn v) (view_payload v) = Ok page.
Proof.
  intros Hlen Hdec; pose proof (page_body_decoded _ _ _ _ Hlen Hdec) as Hbody.
  destruct (page_decode_inv _ _ _ _ Hdec)
    as (? & Hps & _ & _ & Hty & _ & _ & _ & _ & _ & Hn & Hcrc & _ & Hpl).
  pose proof (sdb_page_size_ok _ Hps); pose proof (sdb_read_u32_le_range page 24).
  assert (Hpn : Z.of_nat (length (view_payload v)) = sdb_read_u32_le page 24)
    by (rewrite Hpl; len_lia).
  unfold sdb_page_encode, SDB_PAGE_HEADER_SIZE, SDB_PAGE_CHECKSUM_OFFSET, UINT32_MAX.
  rewrite Hps, Hty, Hbody, Hpn; zcmp; cbn [orb negb]; rewrite !check_false; f_equal.
  rewrite crc32_zeroed_range_spec in Hcrc |- * by len_lia.
  rewrite (memcpy_at_twice page (zeros 4) (zeros 4)), <- Hcrc by len_lia.
  rewrite sdb_write_u32_le_spec, sdb_read_u32_le_spec, le_split_combine_slice by len_lia.
  rewrite memcpy_at_twice by len_lia.
  apply memcpy_at_id; by rewrite length_slice by len_lia.
Qed.

(** The page format is canonical.  A full-size page that [sdb_page_decode]
    accepts is, byte for byte, the page [sdb_page_encode] builds from the
    decoded fields: no bit of an accepted page is outside the format. *)
Theorem sdb_page_decode_canonical (page : bytes) (page_size id : Z) (v : sdb_page_view) :
  Z.of_nat (length page) = page_size ->
  sdb_page_decode page page_size id = Ok v ->
  sdb_page_encode page_size (view_type v) id (view_page_lsn v) (view_payload v) = Ok page.
Proof. apply page_encode_decoded. Qed.

Lemma sdb_page_decode_canonical_witness :
  exists page v,
    Z.of_nat (length page) = 4096 /\ sdb_page_decode page 4096 7 = Ok v /\
    sdb_page_encode 4096 (view_type v) 7 (view_page_lsn v) (view_payload v) = Ok page.
Proof.
  destruct (sdb_page_encode 4096 1 7 9 (byte.of_Z <$> [1; 2; 3])) as [page|] eqn:E;
    [|vm_compute in E; discriminate].
  assert (Hp : Z.of_nat (length page) = 4096) by (vm_compute in E; injection E as <-; reflexivity).
  destruct (sdb_page_decode page 4096 7) as [v|] eqn:D;
    [|vm_compute in E; injection E as <-; vm_compute in D; discriminate].
  exists page, v; split_and!; [done | done | by apply sdb_page_decode_canonical].
Defined.
