(* ===== verification/Superblock.v ===== *)
(** * Superblock codec ([src/superblock.c])

    The superblock is the root of the database file: the page geometry, the
    encryption parameters, the generation counter and the three page ids the
    pager starts from.  Modelled: the field-by-field validation, the encoder
    as the sequence of stores it performs, and the decoder with each of its
    early returns.  The theorems: an encoded superblock decodes to itself, a
    decoded superblock passes validation and its header is reproduced by the
    encoder up to the format version and its checksum, and a valid geometry
    keeps every page offset inside 64 bits. *)

From S2P Require Import Prelude Status Codec Checksum Page.

Definition SDB_SALT_SIZE : nat := 16.
Definition SDB_FILE_ID_SIZE : nat := 16.
Definition SDB_WRAPPED_KEY_SIZE : nat := 32.
Definition SDB_KEY_WRAP_TAG_SIZE : nat := 16.
Definition SDB_SUPERBLOCK_SLOT_SIZE : nat := Z.to_nat 4096.
Definition SDB_SUPERBLOCK_SLOT_COUNT : nat := 2.
Definition SDB_SUPERBLOCK_HEADER_SIZE : nat := 160.
Definition SDB_SUPERBLOCK_MAGIC_SIZE : nat := 8.
Definition SDB_SUPERBLOCK_CHECKSUM_OFFSET : nat := 88.
Definition SDB_SUPERBLOCK_CHECKSUM_SIZE : nat := 4.
Definition SDB_FORMAT_VERSION_V1 : Z := 1.
Definition SDB_FORMAT_VERSION_V2 : Z := 2.
Definition SDB_FORMAT_VERSION_CURRENT : Z := SDB_FORMAT_VERSION_V2.
Definition SDB_FLAG_ENCRYPTED : Z := 1.
Definition SDB_FLAG_HEADER_AUTH : Z := 2.
Definition SDB_MIN_KDF_ITERATIONS : Z := 600000.
Definition SDB_MAX_KDF_ITERATIONS : Z := 10000000.

#[export] Hint Unfold SDB_SALT_SIZE SDB_FILE_ID_SIZE SDB_WRAPPED_KEY_SIZE SDB_KEY_WRAP_TAG_SIZE
  SDB_SUPERBLOCK_HEADER_SIZE SDB_SUPERBLOCK_MAGIC_SIZE SDB_SUPERBLOCK_CHECKSUM_OFFSET
  SDB_SUPERBLOCK_CHECKSUM_SIZE SDB_SUPERBLOCK_SLOT_SIZE SDB_SUPERBLOCK_SLOT_COUNT : sizes.

Record sdb_superblock_v1 := {
  sb_page_size : Z;
  sb_flags : Z;
  sb_generation : Z;
  sb_checkpoint_lsn : Z;
  sb_root_page : Z;
  sb_freelist_page : Z;
  sb_next_page_id : Z;
  sb_key_wrap_id : Z;
  sb_kdf_iterations : Z;
  sb_salt : bytes;
  sb_file_id : bytes;
  sb_wrapped_key : bytes;
  sb_key_wrap_tag : bytes
}.

#[global] Instance sdb_superblock_v1_eq_dec : EqDecision sdb_superblock_v1.
Proof. solve_decision. Defined.

(** The ranges the C types of the fields impose. *)
Definition superblock_typed (sb : sdb_superblock_v1) : Prop :=
  0 <= sb_page_size sb < 2 ^ 32 /\ 0 <= sb_flags sb < 2 ^ 32
  /\ 0 <= sb_generation sb < 2 ^ 64 /\ 0 <= sb_checkpoint_lsn sb < 2 ^ 64
  /\ 0 <= sb_root_page sb < 2 ^ 64 /\ 0 <= sb_freelist_page sb < 2 ^ 64
  /\ 0 <= sb_next_page_id sb < 2 ^ 64 /\ 0 <= sb_key_wrap_id sb < 2 ^ 32
  /\ 0 <= sb_kdf_iterations sb < 2 ^ 32
  /\ length (sb_salt sb) = SDB_SALT_SIZE /\ length (sb_file_id sb) = SDB_FILE_ID_SIZE
  /\ length (sb_wrapped_key sb) = SDB_WRAPPED_KEY_SIZE
  /\ length (sb_key_wrap_tag sb) = SDB_KEY_WRAP_TAG_SIZE.

(** ["SHIBAC01"] *)
Definition sdb_superblock_magic : bytes := byte.of_Z <$> [83; 72; 73; 66; 65; 67; 48; 49].

Definition sdb_is_power_of_two_u32 (value : Z) : bool :=
  negb (value =? 0) && (Z.land value (value - 1) =? 0).

Definition sdb_page_geometry_valid (next_page_id page_size : Z) : bool :=
  let data_offset := Z.of_nat (SDB_SUPERBLOCK_SLOT_SIZE * SDB_SUPERBLOCK_SLOT_COUNT) in
  if (next_page_id =? 0) || (page_size =? 0) then false
  else next_page_id - 1 <=? (UINT64_MAX - data_offset) / page_size.

(** [aggregate |= bytes[index]] over the buffer. *)
Definition sdb_bytes_all_zero (bs : bytes) : bool :=
  foldl (fun aggregate b => wrap 8 (Z.lor aggregate (byte.unsigned b))) 0 bs =? 0.

Inductive sdb_sb_field :=
  | SDB_SB_FIELD_OK
  | SDB_SB_FIELD_NULL_ARG
  | SDB_SB_FIELD_PAGE_SIZE
  | SDB_SB_FIELD_FLAGS
  | SDB_SB_FIELD_NEXT_PAGE_ID
  | SDB_SB_FIELD_FILE_ID
  | SDB_SB_FIELD_SALT
  | SDB_SB_FIELD_KEY_WRAP_ID
  | SDB_SB_FIELD_KDF_ITERATIONS
  | SDB_SB_FIELD_WRAPPED_KEY
  | SDB_SB_FIELD_KEY_WRAP_TAG
  | SDB_SB_FIELD_ENC_MISMATCH
  | SDB_SB_FIELD_ROOT_PAGE
  | SDB_SB_FIELD_FREELIST_PAGE.

#[global] Instance sdb_sb_field_eq_dec : EqDecision sdb_sb_field.
Proof. solve_decision. Defined.

(** [~(SDB_FLAG_ENCRYPTED | SDB_FLAG_HEADER_AUTH)] on 32 bits. *)
Definition sb_unknown_flags : Z :=
  UINT32_MAX - Z.lor SDB_FLAG_ENCRYPTED SDB_FLAG_HEADER_AUTH.

(** [None] is the NULL pointer. *)
Definition sdb_validate_superblock_detailed (superblock : option sdb_superblock_v1)
  : sdb_sb_field :=
  match superblock with
  | None => SDB_SB_FIELD_NULL_ARG
  | Some sb =>
    let encrypted := negb (Z.land (sb_flags sb) SDB_FLAG_ENCRYPTED =? 0) in
    if (sb_page_size sb <? SDB_MIN_PAGE_SIZE) || (sb_page_size sb >? SDB_MAX_PAGE_SIZE)
       || negb (sdb_is_power_of_two_u32 (sb_page_size sb)) then SDB_SB_FIELD_PAGE_SIZE
    else if negb (Z.land (sb_flags sb) sb_unknown_flags =? 0)
       || (negb (Z.land (sb_flags sb) SDB_FLAG_HEADER_AUTH =? 0) && negb encrypted)
    then SDB_SB_FIELD_FLAGS
    else if negb (sdb_page_geometry_valid (sb_next_page_id sb) (sb_page_size sb))
    then SDB_SB_FIELD_NEXT_PAGE_ID
    else if sb_root_page sb >=? sb_next_page_id sb then SDB_SB_FIELD_ROOT_PAGE
    else if sb_freelist_page sb >=? sb_next_page_id sb then SDB_SB_FIELD_FREELIST_PAGE
    else if sdb_bytes_all_zero (sb_file_id sb) then SDB_SB_FIELD_FILE_ID
    else if encrypted && sdb_bytes_all_zero (sb_salt sb) then SDB_SB_FIELD_SALT
    else if encrypted then
      if sb_key_wrap_id sb =? 0 then SDB_SB_FIELD_KEY_WRAP_ID
      else if (sb_kdf_iterations sb <? SDB_MIN_KDF_ITERATIONS)
              || (sb_kdf_iterations sb >? SDB_MAX_KDF_ITERATIONS)
      then SDB_SB_FIELD_KDF_ITERATIONS
      else if sdb_bytes_all_zero (sb_wrapped_key sb) then SDB_SB_FIELD_WRAPPED_KEY
      else if sdb_bytes_all_zero (sb_key_wrap_tag sb) then SDB_SB_FIELD_KEY_WRAP_TAG
      else SDB_SB_FIELD_OK
    else if negb (sb_key_wrap_id sb =? 0) || negb (sb_kdf_iterations sb =? 0)
         || negb (sdb_bytes_all_zero (sb_wrapped_key sb))
         || negb (sdb_bytes_all_zero (sb_key_wrap_tag sb))
    then SDB_SB_FIELD_ENC_MISMATCH
    else SDB_SB_FIELD_OK
  end.

Definition sdb_validate_superblock (superblock : option sdb_superblock_v1) : sdb_status :=
  match sdb_validate_superblock_detailed superblock with
  | SDB_SB_FIELD_OK => SDB_OK
  | _ => SDB_E_INVALID_ARGUMENT
  end.

(** The stores of the encoder before the checksum is taken. *)
Definition superblock_body (sb : sdb_superblock_v1) (output_size : nat) : bytes :=
  let output := zeros output_size in
  let output := memcpy_at output 0 sdb_superblock_magic in
  let output := sdb_write_u16_le output 8 SDB_FORMAT_VERSION_CURRENT in
  let output := sdb_write_u16_le output 10 (wrap 16 (Z.of_nat SDB_SUPERBLOCK_HEADER_SIZE)) in
  let output := sdb_write_u32_le output 12 (sb_page_size sb) in
  let output := sdb_write_u32_le output 16 (sb_flags sb) in
  let output := sdb_write_u64_le output 24 (sb_generation sb) in
  let output := sdb_write_u64_le output 32 (sb_checkpoint_lsn sb) in
  let output := sdb_write_u64_le output 40 (sb_root_page sb) in
  let output := sdb_write_u64_le output 48 (sb_freelist_page sb) in
  let output := memcpy_at output 56 (sb_salt sb) in
  let output := memcpy_at output 72 (sb_file_id sb) in
  let output := sdb_write_u64_le output 92 (sb_next_page_id sb) in
  let output := sdb_write_u32_le output 100 (sb_key_wrap_id sb) in
  let output := sdb_write_u32_le output 104 (sb_kdf_iterations sb) in
  let output := memcpy_at output 108 (sb_wrapped_key sb) in
  memcpy_at output 140 (sb_key_wrap_tag sb).

Definition sdb_superblock_v1_encode (sb : sdb_superblock_v1) (output_size : nat)
  : result bytes :=
  let status := sdb_validate_superblock (Some sb) in
  fail_if negb (bool_decide (status = SDB_OK)) with status ;;
  fail_if bool_decide (output_size < SDB_SUPERBLOCK_HEADER_SIZE)%nat
    with SDB_E_BUFFER_TOO_SMALL ;;
  let output := superblock_body sb output_size in
  let checksum := sdb_crc32 (slice output 0 SDB_SUPERBLOCK_HEADER_SIZE) in
  Ok (sdb_write_u32_le output SDB_SUPERBLOCK_CHECKSUM_OFFSET checksum).

(** The assignments to [decoded]. *)
Definition superblock_fields (input : bytes) : sdb_superblock_v1 :=
  {| sb_page_size := sdb_read_u32_le input 12;
     sb_flags := sdb_read_u32_le input 16;
     sb_generation := sdb_read_u64_le input 24;
     sb_checkpoint_lsn := sdb_read_u64_le input 32;
     sb_root_page := sdb_read_u64_le input 40;
     sb_freelist_page := sdb_read_u64_le input 48;
     sb_next_page_id := sdb_read_u64_le input 92;
     sb_key_wrap_id := sdb_read_u32_le input 100;
     sb_kdf_iterations := sdb_read_u32_le input 104;
     sb_salt := slice input 56 SDB_SALT_SIZE;
     sb_file_id := slice input 72 SDB_FILE_ID_SIZE;
     sb_wrapped_key := slice input 108 SDB_WRAPPED_KEY_SIZE;
     sb_key_wrap_tag := slice input 140 SDB_KEY_WRAP_TAG_SIZE |}.

Definition sdb_superblock_v1_decode (input : bytes) : result sdb_superblock_v1 :=
  fail_if bool_decide (length input < SDB_SUPERBLOCK_HEADER_SIZE)%nat
    with SDB_E_BUFFER_TOO_SMALL ;;
  fail_if negb (bool_decide (slice input 0 SDB_SUPERBLOCK_MAGIC_SIZE = sdb_superblock_magic))
    with SDB_E_BAD_MAGIC ;;
  let format_version := sdb_read_u16_le input 8 in
  fail_if negb (format_version =? SDB_FORMAT_VERSION_V1)
          && negb (format_version =? SDB_FORMAT_VERSION_V2)
    with SDB_E_UNSUPPORTED_VERSION ;;
  fail_if negb (sdb_read_u16_le input 10 =? wrap 16 (Z.of_nat SDB_SUPERBLOCK_HEADER_SIZE))
    with SDB_E_CORRUPT ;;
  let header := slice input 0 SDB_SUPERBLOCK_HEADER_SIZE in
  let stored_checksum := sdb_read_u32_le header SDB_SUPERBLOCK_CHECKSUM_OFFSET in
  let header := memcpy_at header SDB_SUPERBLOCK_CHECKSUM_OFFSET
                  (zeros SDB_SUPERBLOCK_CHECKSUM_SIZE) in
  let computed_checksum := sdb_crc32 header in
  fail_if negb (stored_checksum =? computed_checksum) with SDB_E_CORRUPT ;;
  fail_if negb (forallb (fun b => bool_decide (b = x00)) (slice input 20 4))
    with SDB_E_CORRUPT ;;
  fail_if negb (forallb (fun b => bool_decide (b = x00))
                  (slice input 156 (SDB_SUPERBLOCK_HEADER_SIZE - 156)))
    with SDB_E_CORRUPT ;;
  let decoded := superblock_fields input in
  fail_if negb (bool_decide (sdb_validate_superblock (Some decoded) = SDB_OK))
    with SDB_E_CORRUPT ;;
  Ok decoded.

(** ** Validation *)

Lemma all_zero_foldl (bs : bytes) (a : Z) :
  0 <= a < 256 ->
  foldl (fun aggregate b => wrap 8 (Z.lor aggregate (byte.unsigned b))) a bs = 0
  <-> a = 0 /\ bs = zeros (length bs).
Proof.
  revert a; induction bs as [|b bs IH]; intros a Ha; cbn; [naive_solver|].
  pose proof (byte_range b); pose proof (lor_range 8 a (byte.unsigned b) ltac:(lia) ltac:(lia) ltac:(lia)).
  rewrite IH, wrap_small, Z.lor_eq_0_iff by (try apply wrap_range; lia); split.
  - intros [[-> Hb] ->]; split; [done|]; rewrite length_zeros; f_equal.
    by apply byte.unsigned_inj; rewrite Hb.
  - intros [-> E]; injection E as -> ->; split; [done|]; by rewrite length_replicate.
Qed.

Lemma bytes_all_zero_spec (bs : bytes) :
  sdb_bytes_all_zero bs = true <-> bs = zeros (length bs).
Proof. unfold sdb_bytes_all_zero; rewrite Z.eqb_eq, all_zero_foldl by lia; naive_solver. Qed.

Lemma page_geometry_spec (next_page_id page_size : Z) :
  0 <= next_page_id -> 0 <= page_size ->
  sdb_page_geometry_valid next_page_id page_size = true <->
  next_page_id <> 0 /\ page_size <> 0 /\ 8192 + (next_page_id - 1) * page_size <= UINT64_MAX.
Proof.
  intros Hn Hp; unfold sdb_page_geometry_valid.
  change (Z.of_nat (SDB_SUPERBLOCK_SLOT_SIZE * SDB_SUPERBLOCK_SLOT_COUNT)) with 8192.
  destruct (Z.eqb_spec next_page_id 0), (Z.eqb_spec page_size 0); cbn [orb];
    [naive_solver..|].
  rewrite Z.leb_le; unfold UINT64_MAX; split.
  - intros H; split_and!; [done..|].
    pose proof (Z.mul_div_le (18446744073709551615 - 8192) page_size ltac:(lia)); nia.
  - intros (_ & _ & H); apply Z.div_le_lower_bound; lia.
Qed.

(** A plain database right after creation, for the witnesses. *)
Definition example_superblock : sdb_superblock_v1 :=
  {| sb_page_size := 4096; sb_flags := 0; sb_generation := 1; sb_checkpoint_lsn := 0;
     sb_root_page := 0; sb_freelist_page := 0; sb_next_page_id := 1; sb_key_wrap_id := 0;
     sb_kdf_iterations := 0; sb_salt := zeros 16; sb_file_id := replicate 16 (byte.of_Z 7);
     sb_wrapped_key := zeros 32; sb_key_wrap_tag := zeros 16 |}.

Lemma example_superblock_typed : superblock_typed example_superblock.
Proof. unfold superblock_typed; cbn -[Z.pow]; split_and!; lia || reflexivity. Qed.

(** A geometry accepted at open keeps every page the allocator can hand out
    addressable: the end offset of page [id] does not exceed 64 bits. *)
Theorem page_geometry_no_overflow (next_page_id page_size id : Z) :
  0 <= next_page_id -> 0 <= page_size ->
  sdb_page_geometry_valid next_page_id page_size = true -> 1 <= id < next_page_id ->
  8192 + (id - 1) * page_size + page_size <= UINT64_MAX.
Proof.
  intros Hn Hp H Hid; apply page_geometry_spec in H as (_ & _ & H); [|done..].
  unfold UINT64_MAX in *; nia.
Qed.

Lemma page_geometry_no_overflow_witness :
  sdb_page_geometry_valid 1000 4096 = true /\ 8192 + (999 - 1) * 4096 + 4096 <= UINT64_MAX.
Proof.
  split; [vm_compute; reflexivity|].
  apply (page_geometry_no_overflow 1000); [lia | lia | vm_compute; reflexivity | lia].
Defined.

(** ** Layout of an encoded superblock *)

Section Layout.
Context (sb : sdb_superblock_v1) (size : nat).
Hypothesis Htyped : superblock_typed sb.
Hypothesis Hsize : (160 <= size)%nat.

Let body := superblock_body sb size.

Lemma superblock_body_slices :
  length body = size
  /\ slice body 0 8 = sdb_superblock_magic
  /\ slice body 8 2 = le_split 2 2 /\ slice body 10 2 = le_split 2 160
  /\ slice body 12 4 = le_split 4 (sb_page_size sb)
  /\ slice body 16 4 = le_split 4 (sb_flags sb)
  /\ slice body 20 4 = zeros 4
  /\ slice body 24 8 = le_split 8 (sb_generation sb)
  /\ slice body 32 8 = le_split 8 (sb_checkpoint_lsn sb)
  /\ slice body 40 8 = le_split 8 (sb_root_page sb)
  /\ slice body 48 8 = le_split 8 (sb_freelist_page sb)
  /\ slice body 56 16 = sb_salt sb /\ slice body 72 16 = sb_file_id sb
  /\ slice body 88 4 = zeros 4
  /\ slice body 92 8 = le_split 8 (sb_next_page_id sb)
  /\ slice body 100 4 = le_split 4 (sb_key_wrap_id sb)
  /\ slice body 104 4 = le_split 4 (sb_kdf_iterations sb)
  /\ slice body 108 32 = sb_wrapped_key sb /\ slice body 140 16 = sb_key_wrap_tag sb
  /\ slice body 156 4 = zeros 4 /\ drop 160 body = zeros (size - 160).
Proof.
  destruct Htyped as (_ & _ & _ & _ & _ & _ & _ & _ & _ & Hl1 & Hl2 & Hl3 & Hl4).
  unfold SDB_SALT_SIZE, SDB_FILE_ID_SIZE, SDB_WRAPPED_KEY_SIZE, SDB_KEY_WRAP_TAG_SIZE in *.
  assert (length sdb_superblock_magic = 8%nat) by reflexivity.
  assert (Hlen : length body = size).
  { unfold body, superblock_body; cbv zeta; codec_unfold; len_lia. }
  split; [done|]; rewrite (drop_as_slice body), Hlen; clear Hlen.
  unfold body, superblock_body, SDB_FORMAT_VERSION_CURRENT, SDB_FORMAT_VERSION_V2; cbv zeta.
  change (wrap 16 (Z.of_nat SDB_SUPERBLOCK_HEADER_SIZE)) with 160; codec_unfold.
  split_and!; buf_simp; done.
Qed.
End Layout.

Lemma superblock_encode_inv (sb : sdb_superblock_v1) (size : nat) (out : bytes) :
  superblock_typed sb -> sdb_superblock_v1_encode sb size = Ok out ->
  (160 <= size)%nat /\ sdb_validate_superblock (Some sb) = SDB_OK
  /\ out = memcpy_at (superblock_body sb size) 88
             (le_split 4 (sdb_crc32 (slice (superblock_body sb size) 0 160))).
Proof.
  intros Ht H; unfold sdb_superblock_v1_encode in H; inv_ok H; bool_hyps.
  injection H as <-; unfold SDB_SUPERBLOCK_HEADER_SIZE in *.
  split_and!; [lia | done |]; apply sdb_write_u32_le_spec.
  destruct (superblock_body_slices sb size Ht ltac:(lia)) as [-> _].
  unfold SDB_SUPERBLOCK_CHECKSUM_OFFSET; lia.
Qed.

(** Slices of an encoded superblock outside the checksum are those of the body. *)
Lemma superblock_encode_slice (sb : sdb_superblock_v1) (size : nat) (out : bytes) (off n : nat) :
  superblock_typed sb -> sdb_superblock_v1_encode sb size = Ok out ->
  (off + n <= 88 \/ 92 <= off)%nat ->
  slice out off n = slice (superblock_body sb size) off n.
Proof.
  intros Ht H Ho; apply superblock_encode_inv in H as (Hs & _ & ->); [|done].
  destruct (superblock_body_slices sb size Ht Hs) as [Hlen _].
  apply slice_memcpy_disjoint; len_lia.
Qed.

Lemma slice_memcpy_shift (buf src : bytes) (off n : nat) :
  (off + length src <= n)%nat -> (n <= length buf)%nat ->
  slice (memcpy_at buf off src) 0 n = memcpy_at (slice buf 0 n) off src.
Proof.
  intros H1 H2; apply list_eq; intros i; destruct (decide (i < n)%nat).
  - rewrite slice_lookup by lia; cbn [Nat.add].
    destruct (decide (off <= i < off + length src)%nat).
    + rewrite !memcpy_lookup_in by len_lia; done.
    + rewrite !memcpy_lookup_out by len_lia. by rewrite slice_lookup by lia.
  - rewrite slice_lookup_ge by lia; symmetry; apply lookup_ge_None; len_lia.
Qed.

Lemma superblock_fields_encode (sb : sdb_superblock_v1) (size : nat) (out : bytes) :
  superblock_typed sb -> sdb_superblock_v1_encode sb size = Ok out ->
  superblock_fields out = sb.
Proof.
  intros Ht He; pose proof He as Hi; apply superblock_encode_inv in Hi as (Hs & _ & _); [|done].
  destruct (superblock_body_slices sb size Ht Hs)
    as (_ & _ & _ & _ & H3 & H4 & _ & H5 & H6 & H7 & H8 & H9 & H10 & _ & H11 & H12 & H13 & H14 & H15 & _).
  destruct Ht as (? & ? & ? & ? & ? & ? & ? & ? & ? & Ht') eqn:E; clear E.
  unfold superblock_fields, SDB_SALT_SIZE, SDB_FILE_ID_SIZE, SDB_WRAPPED_KEY_SIZE,
    SDB_KEY_WRAP_TAG_SIZE; rewrite !sdb_read_u32_le_spec, !sdb_read_u64_le_spec.
  rewrite !(superblock_encode_slice sb size out) by (done || lia).
  rewrite H3, H4, H5, H6, H7, H8, H9, H10, H11, H12, H13, H14, H15.
  rewrite !le_combine_split_small by lia; by destruct sb.
Qed.

(** Clearing the checksum of the encoded header gives the body's header back. *)
Lemma superblock_header_zeroed (sb : sdb_superblock_v1) (size : nat) (out : bytes) :
  superblock_typed sb -> sdb_superblock_v1_encode sb size = Ok out ->
  memcpy_at (slice out 0 160) 88 (zeros 4) = slice (superblock_body sb size) 0 160
  /\ slice (slice out 0 160) 88 4 = le_split 4 (sdb_crc32 (slice (superblock_body sb size) 0 160)).
Proof.
  intros Ht He; apply superblock_encode_inv in He as (Hs & _ & ->); [|done].
  destruct (superblock_body_slices sb size Ht Hs)
    as (Hlen & _ & _ & _ & _ & _ & _ & _ & _ & _ & _ & _ & _ & H88 & _).
  rewrite slice_memcpy_shift by len_lia; split.
  - rewrite memcpy_at_twice by len_lia; apply memcpy_at_id.
    rewrite length_zeros, slice_slice by lia; apply H88.
  - apply slice_memcpy_same; len_lia.
Qed.

Lemma superblock_decode_encode_ok (sb : sdb_superblock_v1) (size : nat) (out : bytes) :
  superblock_typed sb -> sdb_superblock_v1_encode sb size = Ok out ->
  sdb_superblock_v1_decode out = Ok sb.
Proof.
  intros Ht He; pose proof (superblock_fields_encode _ _ _ Ht He) as Hf.
  destruct (superblock_header_zeroed _ _ _ Ht He) as [Hz Hc].
  pose proof He as Hi; apply superblock_encode_inv in Hi as (Hs & Hv & Ho); [|done].
  destruct (superblock_body_slices sb size Ht Hs)
    as (Hlen & H0 & H1 & H2 & _ & _ & H20 & _ & _ & _ & _ & _ & _ & H88 & _ & _ & _ & _ & _ & H156 & _).
  unfold sdb_superblock_v1_decode, SDB_SUPERBLOCK_HEADER_SIZE, SDB_SUPERBLOCK_MAGIC_SIZE,
    SDB_SUPERBLOCK_CHECKSUM_OFFSET, SDB_SUPERBLOCK_CHECKSUM_SIZE; cbv zeta.
  rewrite Hf, Hv, !sdb_read_u16_le_spec, sdb_read_u32_le_spec, Hz, Hc.
  pose proof (sdb_crc32_range (slice (superblock_body sb size) 0 160)).
  rewrite le_combine_split_small, Z.eqb_refl by (unfold u32 in *; lia).
  assert (length out = size) as -> by (rewrite Ho; len_lia).
  rewrite !(superblock_encode_slice sb size out) by (done || lia).
  change (160 - 156)%nat with 4%nat; rewrite H0, H1, H2, H20, H156.
  rewrite bool_decide_eq_false_2, bool_decide_eq_true_2 by (done || lia); reflexivity.
Qed.

(** Round trip of the superblock: what [sdb_superblock_v1_encode] writes
    into a buffer of any sufficient size, [sdb_superblock_v1_decode] reads back
    as the same thirteen fields. *)
Theorem superblock_decode_encode (sb : sdb_superblock_v1) (size : nat) (out : bytes) :
  superblock_typed sb -> sdb_superblock_v1_encode sb size = Ok out ->
  sdb_superblock_v1_decode out = Ok sb.
Proof. apply superblock_decode_encode_ok. Qed.

Lemma superblock_decode_encode_witness :
  exists out, sdb_superblock_v1_encode example_superblock 4096 = Ok out
    /\ sdb_superblock_v1_decode out = Ok example_superblock.
Proof.
  eexists; split; [vm_compute; reflexivity|].
  apply (superblock_decode_encode example_superblock 4096);
    [exact example_superblock_typed | vm_compute; reflexivity].
Defined.

(** ** Canonicity *)

(** A C object of the struct type: the fields of any decoded buffer are in the
    ranges of their types. *)
Lemma superblock_fields_typed (input : bytes) :
  (160 <= length input)%nat -> superblock_typed (superblock_fields input).
Proof.
  intros Hl; unfold superblock_typed, superblock_fields.
  do 9 (split; [apply sdb_read_u32_le_range || apply sdb_read_u64_le_range|]).
  split_and!; apply length_slice; autounfold with sizes; lia.
Qed.

Lemma superblock_decode_inv (input : bytes) (sb : sdb_superblock_v1) :
  sdb_superblock_v1_decode input = Ok sb ->
  (160 <= length input)%nat /\ sb = superblock_fields input
  /\ sdb_validate_superblock (Some sb) = SDB_OK
  /\ slice input 0 8 = sdb_superblock_magic
  /\ (sdb_read_u16_le input 8 = 1 \/ sdb_read_u16_le input 8 = 2)
  /\ sdb_read_u16_le input 10 = 160
  /\ slice input 20 4 = zeros 4 /\ slice input 156 4 = zeros 4
  /\ sdb_read_u32_le input 88 = sdb_crc32 (memcpy_at (slice input 0 160) 88 (zeros 4)).
Proof.
  intros H; unfold sdb_superblock_v1_decode in H; inv_ok H; injection H as <-; bool_hyps.
  unfold SDB_SUPERBLOCK_HEADER_SIZE, SDB_SUPERBLOCK_MAGIC_SIZE, SDB_SUPERBLOCK_CHECKSUM_OFFSET,
    SDB_SUPERBLOCK_CHECKSUM_SIZE, SDB_FORMAT_VERSION_V1, SDB_FORMAT_VERSION_V2 in *.
  change (160 - 156)%nat with 4%nat in *.
  repeat match goal with H : forallb _ _ = true |- _ => apply all_zero_zeros in H end.
  rewrite length_slice in * by lia.
  rewrite (sdb_read_u32_le_spec (slice _ _ _)), slice_slice, <- sdb_read_u32_le_spec in * by lia.
  change (wrap 16 (Z.of_nat 160)) with 160 in *; cbn [Nat.add] in *.
  split_and!; try done; lia.
Qed.

Lemma superblock_body_decoded (input : bytes) (sb : sdb_superblock_v1) :
  sdb_superblock_v1_decode input = Ok sb -> sdb_read_u16_le input 8 = 2 ->
  superblock_body sb 160 = memcpy_at (slice input 0 160) 88 (zeros 4).
Proof.
  intros Hd Hv2; destruct (superblock_decode_inv _ _ Hd) as (Hl & -> & _ & Hm & _ & H10 & H20 & H156 & _).
  pose proof (superblock_fields_typed input Hl) as Ht.
  destruct (superblock_body_slices _ 160 Ht ltac:(lia))
    as (Hlen & H0 & H1 & H2 & H3 & H4 & H20' & H5 & H6 & H7 & H8 & H9 & H9' & H88 & H11 & H12 & H13
        & H14 & H15 & H156' & _).
  set (body := superblock_body _ 160) in *; clearbody body.
  cbn [superblock_fields sb_page_size sb_flags sb_generation sb_checkpoint_lsn sb_root_page
    sb_freelist_page sb_next_page_id sb_key_wrap_id sb_kdf_iterations sb_salt sb_file_id
    sb_wrapped_key sb_key_wrap_tag] in *.
  rewrite <- Hv2 in H1; rewrite <- H10 in H2.
  rewrite ?sdb_read_u16_le_spec, ?sdb_read_u32_le_spec, ?sdb_read_u64_le_spec in *.
  rewrite !le_split_combine_slice in * by lia; autounfold with sizes in *.
  apply drop_0_ext; drop_ext 8%nat; drop_ext 2%nat; drop_ext 2%nat; do 3 drop_ext 4%nat.
  do 4 drop_ext 8%nat; do 2 drop_ext 16%nat; drop_ext 4%nat; drop_ext 8%nat; do 2 drop_ext 4%nat.
  drop_ext 32%nat; drop_ext 16%nat; drop_ext 4%nat.
  rewrite !drop_ge; [done | len_lia | lia].
Qed.

(** The current superblock format is canonical: the header of a buffer that
    [sdb_superblock_v1_decode] accepts with the current format version is byte
    for byte what [sdb_superblock_v1_encode] produces from the decoded fields,
    and those fields pass [sdb_validate_superblock]. *)
Theorem superblock_decode_canonical (input : bytes) (sb : sdb_superblock_v1) :
  sdb_superblock_v1_decode input = Ok sb -> sdb_read_u16_le input 8 = SDB_FORMAT_VERSION_CURRENT ->
  sdb_validate_superblock (Some sb) = SDB_OK
  /\ sdb_superblock_v1_encode sb 160 = Ok (slice input 0 160).
Proof.
  intros Hd Hv2; destruct (superblock_decode_inv _ _ Hd) as (Hl & Hsb & Hv & _ & _ & _ & _ & _ & Hc).
  split; [done|]; unfold sdb_superblock_v1_encode; rewrite Hv; autounfold with sizes.
  rewrite bool_decide_eq_true_2, bool_decide_eq_false_2, !check_false by (done || lia); f_equal.
  rewrite (superblock_body_decoded _ _ Hd Hv2), (slice_all (memcpy_at _ _ _)) by len_lia.
  rewrite <- Hc, sdb_write_u32_le_spec, sdb_read_u32_le_spec, le_split_combine_slice by len_lia.
  rewrite memcpy_at_twice by len_lia; apply memcpy_at_id.
  rewrite length_slice by lia; apply slice_slice; lia.
Qed.

Lemma superblock_decode_canonical_witness :
  exists input, sdb_superblock_v1_decode input = Ok example_superblock
    /\ sdb_read_u16_le input 8 = SDB_FORMAT_VERSION_CURRENT
    /\ sdb_superblock_v1_encode example_superblock 160 = Ok (slice input 0 160).
Proof.
  destruct (sdb_superblock_v1_encode example_superblock 200) as [input|] eqn:E;
    [|vm_compute in E; discriminate].
  assert (sdb_superblock_v1_decode input = Ok example_superblock) as Hd
    by exact (superblock_decode_encode_ok _ _ _ example_superblock_typed E).
  assert (sdb_read_u16_le input 8 = SDB_FORMAT_VERSION_CURRENT) as Hv
    by (vm_compute in E; injection E as <-; reflexivity).
  exists input; split_and!; [done | done | by apply superblock_decode_canonical].
Defined.
