(* ===== verification/File.v ===== *)
(** * File I/O ([src/file.h], [src/file.c], POSIX side)

    The wrappers that retry interrupted system calls and complete partial
    transfers.  The kernel is not part of the program: a file carries a
    script of the replies the coming system calls get (a short transfer, an
    interruption, an error; full success once the script is exhausted), and
    the theorems quantify over the script.  Next to the contents reads
    observe, a file records its durable contents and the regions written
    since the last successful [fsync], which is what a crash may damage.

    The Windows side, the path functions and the fault counters compiled under
    [SDB_TESTING] are not modelled. *)

From S2P Require Import Prelude Status Codec.

Definition INT64_MAX : Z := 9223372036854775807.
Definition SSIZE_MAX : Z := INT64_MAX.

(** ** The operating system's side *)

Inductive os_reply :=
  | OsFull                 (* the whole request is served *)
  | OsShort (n : nat)      (* at most [n + 1] bytes are transferred *)
  | OsEintr                (* -1, errno = EINTR *)
  | OsError.               (* -1, any other errno *)

#[global] Instance os_reply_eq_dec : EqDecision os_reply.
Proof. solve_decision. Defined.

(** A region a crash may leave in any state. *)
Inductive dirty :=
  | DRange (off len : nat)
  | DFrom (off : nat).

Record sdb_file := {
  f_data : bytes;
  f_durable : bytes;
  f_dirty : list dirty;
  f_script : list os_reply
}.

Definition dirty_at (d : dirty) (i : nat) : Prop :=
  match d with
  | DRange off len => (off <= i < off + len)%nat
  | DFrom off => (off <= i)%nat
  end.

Definition touched (f : sdb_file) (i : nat) : Prop := Exists (fun d => dirty_at d i) (f_dirty f).

(** [crash_contents f c]: after a crash the file may contain [c]. *)
Definition crash_contents (f : sdb_file) (c : bytes) : Prop :=
  forall i, ~ touched f i -> c !! i = f_durable f !! i.

(** What is observed differs from what is durable only in the dirty regions. *)
Definition file_wf (f : sdb_file) : Prop := crash_contents f (f_data f).

Definition set_script (f : sdb_file) (s : list os_reply) : sdb_file :=
  {| f_data := f_data f; f_durable := f_durable f; f_dirty := f_dirty f; f_script := s |}.

(** A system call outside a retry loop. *)
Definition syscall (f : sdb_file) : os_reply * sdb_file :=
  (default OsFull (head (f_script f)), set_script f (tail (f_script f))).

(** [do { r = call; } while (r < 0 && errno == EINTR)] *)
Fixpoint skip_eintr (s : list os_reply) : list os_reply :=
  match s with
  | OsEintr :: s' => skip_eintr s'
  | _ => s
  end.

Definition syscall_retry (f : sdb_file) : os_reply * sdb_file :=
  syscall (set_script f (skip_eintr (f_script f))).

Definition os_count (r : os_reply) (avail : nat) : nat :=
  match r with
  | OsFull => avail
  | OsShort n => Nat.min (S n) avail
  | OsEintr | OsError => 0
  end.

(** [pwrite] past the end extends the file, with zeros in the gap. *)
Definition file_splice (data : bytes) (off : nat) (src : bytes) : bytes :=
  take off (data ++ zeros (off - length data)) ++ src ++ drop (off + length src) data.

Definition write_dirty (data : bytes) (off len : nat) : dirty :=
  if bool_decide (off + len <= length data)%nat then DRange off len
  else DFrom (Nat.min off (length data)).

Definition os_write (f : sdb_file) (off : nat) (src : bytes) : sdb_file :=
  {| f_data := file_splice (f_data f) off src;
     f_durable := f_durable f;
     f_dirty := write_dirty (f_data f) off (length src) :: f_dirty f;
     f_script := f_script f |}.

(** A failed [pwrite] may still reach the medium in part. *)
Definition os_write_failed (f : sdb_file) (off len : nat) : sdb_file :=
  {| f_data := f_data f; f_durable := f_durable f;
     f_dirty := write_dirty (f_data f) off len :: f_dirty f; f_script := f_script f |}.

Definition os_sync (f : sdb_file) : sdb_file :=
  {| f_data := f_data f; f_durable := f_data f; f_dirty := []; f_script := f_script f |}.

Definition os_truncate (f : sdb_file) (n : nat) : sdb_file :=
  {| f_data := take n (f_data f ++ zeros (n - length (f_data f)));
     f_durable := f_durable f;
     f_dirty := DFrom (Nat.min n (length (f_data f))) :: f_dirty f;
     f_script := f_script f |}.

(** ** The program's side *)

(** A file operation: a result and the file afterwards. *)
Definition fileM (A : Type) : Type := sdb_file -> result A * sdb_file.

#[global] Instance fileM_ret : MRet fileM := fun A a f => (Ok a, f).
#[global] Instance fileM_bind : MBind fileM := fun A B k m f =>
  match m f with
  | (Ok a, f') => k a f'
  | (Err e, f') => (Err e, f')
  end.

Definition fileM_err {A} (e : sdb_status) : fileM A := fun f => (Err e, f).
Definition fileM_lift {A} (r : result A) : fileM A := fun f => (r, f).

(** [sdb_posix_chunk] with the production [io_limit]. *)
Definition sdb_posix_chunk (remaining limit : Z) : Z :=
  let chunk := if remaining <? limit then remaining else limit in
  if chunk >? SSIZE_MAX then SSIZE_MAX else chunk.

(** One iteration per transfer; every transfer moves at least one byte, so
    [size + 1] iterations suffice. *)
Fixpoint read_loop (fuel : nat) (offset : Z) (size : nat) (output : bytes) : fileM bytes :=
  fun f =>
  let completed := length output in
  match fuel with
  | O => (Err SDB_E_INTERNAL, f)
  | S fuel =>
    if bool_decide (completed < size)%nat then
      let chunk := sdb_posix_chunk (Z.of_nat (size - completed)) SIZE_MAX in
      if Z.of_nat completed >? UINT64_MAX - offset then (Err SDB_E_OVERFLOW, f)
      else
      let position := offset + Z.of_nat completed in
      if position >? INT64_MAX then (Err SDB_E_OVERFLOW, f)
      else
      let '(reply, f) := syscall_retry f in
      match reply with
      | OsError | OsEintr => (Err SDB_E_IO, f)
      | _ =>
        let got := slice (f_data f) (Z.to_nat position) (os_count reply (Z.to_nat chunk)) in
        if bool_decide (got = []) then (Err SDB_E_TRUNCATED, f)
        else read_loop fuel offset size (output ++ got) f
      end
    else (Ok output, f)
  end.

Definition sdb_file_read_full (offset : Z) (size : nat) : fileM bytes := fun f =>
  if offset >? INT64_MAX then (Err SDB_E_INVALID_ARGUMENT, f)
  else read_loop (S size) offset size [] f.

Fixpoint write_loop (fuel : nat) (offset : Z) (input : bytes) (completed : nat) : fileM unit :=
  fun f =>
  match fuel with
  | O => (Err SDB_E_INTERNAL, f)
  | S fuel =>
    if bool_decide (completed < length input)%nat then
      let chunk := sdb_posix_chunk (Z.of_nat (length input - completed)) SIZE_MAX in
      if Z.of_nat completed >? UINT64_MAX - offset then (Err SDB_E_OVERFLOW, f)
      else
      let position := offset + Z.of_nat completed in
      if position >? INT64_MAX then (Err SDB_E_OVERFLOW, f)
      else
      let '(reply, f) := syscall_retry f in
      match reply with
      | OsError | OsEintr =>
          (Err SDB_E_IO, os_write_failed f (Z.to_nat position) (Z.to_nat chunk))
      | _ =>
        let transferred := os_count reply (Z.to_nat chunk) in
        let f := os_write f (Z.to_nat position) (slice input completed transferred) in
        write_loop fuel offset input (completed + transferred) f
      end
    else (Ok tt, f)
  end.

Definition sdb_file_write_full (offset : Z) (input : bytes) : fileM unit := fun f =>
  if offset >? INT64_MAX then (Err SDB_E_INVALID_ARGUMENT, f)
  else write_loop (S (length input)) offset input 0 f.

Definition sdb_file_sync : fileM unit := fun f =>
  let '(reply, f) := syscall_retry f in
  match reply with
  | OsError | OsEintr => (Err SDB_E_IO, f)
  | _ => (Ok tt, os_sync f)
  end.

Definition sdb_file_resize (size : Z) : fileM unit := fun f =>
  if size >? INT64_MAX then (Err SDB_E_INVALID_ARGUMENT, f)
  else
  let '(reply, f) := syscall_retry f in
  match reply with
  | OsError | OsEintr => (Err SDB_E_IO, f)
  | _ => (Ok tt, os_truncate f (Z.to_nat size))
  end.

Definition sdb_file_size : fileM Z := fun f =>
  let '(reply, f) := syscall f in
  match reply with
  | OsError | OsEintr => (Err SDB_E_IO, f)
  | _ => (Ok (Z.of_nat (length (f_data f))), f)
  end.

Definition sdb_file_close : fileM unit := fun f =>
  let '(reply, f) := syscall f in
  match reply with
  | OsError | OsEintr => (Err SDB_E_IO, f)
  | _ => (Ok tt, f)
  end.

(** [sdb_file_create_new] on a directory entry: [O_CREAT | O_EXCL] fails on an
    existing file, which [sdb_file_open_posix] reports as a conflict.  The new
    file receives the rest of the script. *)
Definition sdb_file_create_new (entry : option sdb_file) (script : list os_reply)
  : result sdb_file * list os_reply :=
  let script := skip_eintr script in
  match head script, entry with
  | Some OsError, _ => (Err SDB_E_IO, tail script)
  | _, Some _ => (Err SDB_E_CONFLICT, tail script)
  | _, None =>
      (Ok {| f_data := []; f_durable := []; f_dirty := []; f_script := tail script |}, [])
  end.

(** [open], [fsync] and [close] of the parent directory. *)
Definition sdb_file_sync_parent_directory (script : list os_reply) : sdb_status * list os_reply :=
  let script := skip_eintr script in
  match head script with
  | Some OsError => (SDB_E_IO, tail script)
  | _ =>
    let script := skip_eintr (tail script) in
    let synced := negb (bool_decide (head script = Some OsError)) in
    let script := tail script in
    let closed := negb (bool_decide (head script = Some OsError \/ head script = Some OsEintr)) in
    ((if synced && closed then SDB_OK else SDB_E_IO), tail script)
  end.

(** ** Specifications of the wrappers *)

(** The kernel never reports an error other than an interruption. *)
Definition reliable (f : sdb_file) : Prop := Forall (fun r => r <> OsError) (f_script f).

Definition same_contents (f f' : sdb_file) : Prop :=
  f_data f' = f_data f /\ f_durable f' = f_durable f /\ f_dirty f' = f_dirty f
  /\ (reliable f -> reliable f').

Lemma same_contents_refl (f : sdb_file) : same_contents f f.
Proof. unfold same_contents; naive_solver. Qed.

Lemma same_contents_trans (f g h : sdb_file) :
  same_contents f g -> same_contents g h -> same_contents f h.
Proof. unfold same_contents; intros (-> & -> & -> & ?) (-> & -> & -> & ?); naive_solver. Qed.

#[export] Hint Resolve same_contents_refl : core.

Lemma syscall_spec (f f' : sdb_file) (r : os_reply) :
  syscall f = (r, f') -> same_contents f f' /\ (reliable f -> r <> OsError).
Proof.
  unfold syscall, same_contents, reliable; intros [= <- <-]; cbn.
  destruct (f_script f) as [|x s]; cbn; [naive_solver|].
  rewrite Forall_cons_iff; naive_solver.
Qed.

Lemma skip_eintr_spec (s : list os_reply) :
  head (skip_eintr s) <> Some OsEintr
  /\ (Forall (fun r => r <> OsError) s -> Forall (fun r => r <> OsError) (skip_eintr s)).
Proof.
  induction s as [|[] s IH]; cbn; try naive_solver.
  rewrite Forall_cons_iff; naive_solver.
Qed.

Lemma syscall_retry_spec (f f' : sdb_file) (r : os_reply) :
  syscall_retry f = (r, f') ->
  same_contents f f' /\ r <> OsEintr /\ (reliable f -> r <> OsError).
Proof.
  unfold syscall_retry; intros H.
  destruct (skip_eintr_spec (f_script f)) as [Hh Hr].
  assert (r <> OsEintr).
  { intros ->; injection H as H _; cbn in H; apply Hh.
    destruct (head (skip_eintr _)); cbn in H; congruence. }
  apply syscall_spec in H as [(? & ? & ? & ?) ?].
  unfold same_contents, reliable in *; cbn in *; naive_solver.
Qed.

Lemma os_count_pos (r : os_reply) (avail : nat) :
  r <> OsEintr -> r <> OsError -> (0 < avail)%nat -> (0 < os_count r avail <= avail)%nat.
Proof. unfold os_count; destruct r; try done; lia. Qed.

Lemma posix_chunk_bounds (n : nat) :
  (0 < n)%nat -> (0 < Z.to_nat (sdb_posix_chunk (Z.of_nat n) SIZE_MAX) <= n)%nat.
Proof.
  intros; unfold sdb_posix_chunk, SIZE_MAX, UINT64_MAX, SSIZE_MAX, INT64_MAX.
  destruct (Z.ltb_spec (Z.of_nat n) 18446744073709551615);
    match goal with |- context [?a >? ?b] => destruct (Z.gtb_spec a b) end; lia.
Qed.

(** What a read of [size] bytes at [off] yields when no system call fails. *)
Definition read_outcome (data : bytes) (off size : nat) : result bytes :=
  if bool_decide (size = 0%nat \/ (off + size <= length data)%nat) then Ok (slice data off size)
  else Err SDB_E_TRUNCATED.

Lemma read_loop_spec (fuel : nat) (offset : Z) (size : nat) (output : bytes) (f : sdb_file) :
  0 <= offset -> offset + Z.of_nat size <= INT64_MAX ->
  output = slice (f_data f) (Z.to_nat offset) (length output) ->
  (length output <= size < fuel + length output)%nat ->
  exists r f', read_loop fuel offset size output f = (r, f') /\ same_contents f f'
    /\ (r = read_outcome (f_data f) (Z.to_nat offset) size \/ r = Err SDB_E_IO /\ ~ reliable f).
Proof.
  intros Ho Hmax; revert output f; induction fuel as [|fuel IH]; intros output f Hout Hsz; [lia|].
  assert (Hr : output = [] \/ (Z.to_nat offset + length output <= length (f_data f))%nat).
  { destruct output as [|b l]; [by left|right]; apply (f_equal length) in Hout.
    unfold slice in Hout; rewrite length_take, length_drop in Hout; cbn [length] in *; lia. }
  cbn [read_loop]; case_bool_decide as Hlt.
  2:{ exists (Ok output), f; split_and!; [done | done |]; left.
      assert (size = length output) as -> by lia; unfold read_outcome.
      rewrite bool_decide_eq_true_2; [by rewrite <- Hout|].
      destruct Hr as [->|?]; [by left | by right]. }
  unfold UINT64_MAX, INT64_MAX in *.
  rewrite !Z.gtb_ltb, !(proj2 (Z.ltb_ge _ _)) by lia.
  destruct (syscall_retry f) as [reply f1] eqn:Hs; apply syscall_retry_spec in Hs as (Hsc & He & Hre).
  pose proof (posix_chunk_bounds (size - length output) ltac:(lia)) as Hch.
  set (chunk := Z.to_nat (sdb_posix_chunk _ _)) in *.
  replace (Z.to_nat (offset + Z.of_nat (length output)))
    with (Z.to_nat offset + length output)%nat by lia.
  pose proof Hsc as (Hd & _ & _ & Hrel).
  destruct (decide (reply = OsError)) as [->|Hne].
  { exists (Err SDB_E_IO), f1; naive_solver. }
  pose proof (os_count_pos reply chunk He Hne ltac:(lia)) as Hc.
  set (k := os_count reply chunk) in *.
  assert (Hmatch : forall A (x y : A), match reply with OsError | OsEintr => x | _ => y end = y)
    by (intros; by destruct reply).
  rewrite Hmatch; case_bool_decide as Hgot.
  - rewrite Hd in Hgot; apply slice_nil_iff in Hgot as [?|Hgot]; [lia|].
    exists (Err SDB_E_TRUNCATED), f1; split_and!; [done | done | left]; unfold read_outcome.
    rewrite bool_decide_eq_false_2 by lia; done.
  - rewrite Hd, slice_nil_iff in Hgot.
    set (got := slice (f_data f1) _ k).
    assert (Hgl : (0 < length got <= k)%nat).
    { unfold got, slice; rewrite length_take, length_drop, Hd; lia. }
    destruct (IH (output ++ got) f1) as (r & f2 & Hl & Hsc2 & Hres); [| |].
    + rewrite length_app, slice_add, Hd, <- Hout; f_equal; unfold got; rewrite Hd.
      unfold slice; rewrite length_take, length_drop.
      apply list_eq; intros i; destruct (decide (i < k `min` (length (f_data f) - (Z.to_nat offset + length output)))%nat).
      * by rewrite !lookup_take_lt by lia.
      * rewrite !lookup_ge_None_2; [done | rewrite length_take; lia |].
        rewrite length_take, length_drop; lia.
    + rewrite length_app; lia.
    + exists r, f2; split_and!; [done | by eapply same_contents_trans | rewrite Hd in Hres; naive_solver].
Qed.

(** Whatever the kernel replies, a completed [sdb_file_read_full] returns the
    bytes of the file, and the only other outcomes are a truncation exactly
    when the range passes the end, or an I/O error the kernel reported. *)
Lemma read_full_spec (offset : Z) (size : nat) (f : sdb_file) :
  0 <= offset -> offset + Z.of_nat size <= INT64_MAX ->
  exists r f', sdb_file_read_full offset size f = (r, f') /\ same_contents f f'
    /\ (r = read_outcome (f_data f) (Z.to_nat offset) size \/ r = Err SDB_E_IO /\ ~ reliable f).
Proof.
  intros Ho Hm; unfold sdb_file_read_full.
  rewrite Z.gtb_ltb, (proj2 (Z.ltb_ge _ _)) by lia.
  apply read_loop_spec; [done | done | by unfold slice | cbn; lia].
Qed.

(** ** Writes *)

Lemma file_splice_in (data src : bytes) (off : nat) :
  (off + length src <= length data)%nat -> file_splice data off src = memcpy_at data off src.
Proof.
  intros; unfold file_splice; rewrite memcpy_at_in by done.
  by replace (off - length data)%nat with 0%nat by lia; rewrite app_nil_r.
Qed.

Lemma length_file_splice (data src : bytes) (off : nat) :
  length (file_splice data off src) = Nat.max (length data) (off + length src).
Proof.
  unfold file_splice; rewrite !length_app, length_take, length_app, length_zeros, length_drop; lia.
Qed.

Lemma file_splice_lookup_out (data src : bytes) (off i : nat) :
  ~ dirty_at (write_dirty data off (length src)) i -> file_splice data off src !! i = data !! i.
Proof.
  unfold write_dirty; case_bool_decide; cbn; intros Hi.
  - rewrite file_splice_in by done; apply memcpy_lookup_out; lia.
  - unfold file_splice; rewrite lookup_app_l by (rewrite length_take, length_app; lia).
    rewrite lookup_take_lt, lookup_app_l by lia; done.
Qed.

Lemma file_splice_app (data a b : bytes) (off : nat) :
  file_splice (file_splice data off a) (off + length a) b = file_splice data off (a ++ b).
Proof.
  unfold file_splice at 1; rewrite length_file_splice.
  replace (off + length a - (length data `max` (off + length a)))%nat with 0%nat by lia.
  rewrite app_nil_r; unfold file_splice; set (h := take off _).
  assert (length h = off) by (unfold h; rewrite length_take, length_app, length_zeros; lia).
  rewrite (app_assoc h a), take_app_length' by (rewrite length_app; lia).
  rewrite drop_app_ge by (rewrite length_app; lia).
  rewrite drop_drop, <- !app_assoc, !length_app; do 4 f_equal; lia.
Qed.

Lemma write_dirty_mono (data : bytes) (off k n i : nat) :
  (0 < k <= n)%nat -> dirty_at (write_dirty data off k) i -> dirty_at (write_dirty data off n) i.
Proof. unfold write_dirty; repeat case_bool_decide; cbn; lia. Qed.

Lemma write_dirty_step (data src : bytes) (off n i : nat) :
  (length src <= n)%nat ->
  dirty_at (write_dirty (file_splice data off src) (off + length src) (n - length src)) i ->
  dirty_at (write_dirty data off n) i.
Proof. unfold write_dirty; rewrite length_file_splice; repeat case_bool_decide; cbn; lia. Qed.

(** The effect of a (possibly failed) write of [n] bytes at [off]: durable
    contents unchanged, only the range dirtied, only the range modified. *)
Record write_effect (off n : nat) (f f' : sdb_file) : Prop := {
  we_durable : f_durable f' = f_durable f;
  we_keeps : forall i, touched f i -> touched f' i;
  we_dirty : forall i, touched f' i -> touched f i \/ dirty_at (write_dirty (f_data f) off n) i;
  we_clean : forall i, ~ touched f' i -> f_data f' !! i = f_data f !! i;
  we_out : forall i, ~ dirty_at (write_dirty (f_data f) off n) i -> f_data f' !! i = f_data f !! i;
  we_reliable : reliable f -> reliable f'
}.

Lemma same_contents_write_effect (off n : nat) (f f' : sdb_file) :
  same_contents f f' -> write_effect off n f f'.
Proof.
  intros (Hd & Hdur & Hdi & Hr); split; unfold touched; rewrite ?Hd, ?Hdur, ?Hdi; naive_solver.
Qed.

Lemma os_write_effect (off n : nat) (src : bytes) (f : sdb_file) :
  (0 < length src <= n)%nat -> write_effect off n f (os_write f off src).
Proof.
  intros Hn; split; try done; unfold touched; cbn [os_write f_data f_dirty]; intros i.
  - intros; by right.
  - rewrite Exists_cons; intros [Hd|?]; [right; by eapply write_dirty_mono | by left].
  - rewrite Exists_cons; intros Hd; apply file_splice_lookup_out; naive_solver.
  - intros Hd; apply file_splice_lookup_out; intros ?; apply Hd; by eapply write_dirty_mono.
Qed.

Lemma os_write_failed_effect (off k n : nat) (f : sdb_file) :
  (0 < k <= n)%nat -> write_effect off n f (os_write_failed f off k).
Proof.
  intros Hn; split; try done; unfold touched; cbn [os_write_failed f_data f_dirty]; intros i.
  - intros; by right.
  - rewrite Exists_cons; intros [Hd|?]; [right; by eapply write_dirty_mono | by left].
Qed.

Lemma write_effect_step (off n : nat) (src : bytes) (f f' : sdb_file) :
  (0 < length src <= n)%nat ->
  write_effect (off + length src) (n - length src) (os_write f off src) f' ->
  write_effect off n f f'.
Proof.
  intros Hn [D K Di C O R]; pose proof (os_write_effect off n src f Hn) as [D' K' Di' C' O' R'].
  assert (forall i, dirty_at (write_dirty (file_splice (f_data f) off src)
                                (off + length src) (n - length src)) i ->
                    dirty_at (write_dirty (f_data f) off n) i) as Hst
    by (intros; eapply write_dirty_step; [|done]; lia).
  cbn [os_write f_data] in *; split.
  - by rewrite D.
  - eauto.
  - intros i Hi; destruct (Di i Hi) as [Ht|Hd]; [by apply Di' | right; by apply Hst].
  - intros i Hi; rewrite C by done; apply C'; intros ?; apply Hi; eauto.
  - intros i Hi; rewrite O by (intros ?; apply Hi, Hst; done); by apply O'.
  - eauto.
Qed.

Lemma same_contents_then_write (off n : nat) (f f1 f' : sdb_file) :
  same_contents f f1 -> write_effect off n f1 f' -> write_effect off n f f'.
Proof.
  intros (Hd & Hdur & Hdi & Hr) [D K Di C O R]; unfold touched in *; rewrite Hd, Hdi, Hdur in *.
  split; unfold touched; eauto.
Qed.

Lemma write_loop_spec (fuel : nat) (offset : Z) (input : bytes) (completed : nat) (f : sdb_file) :
  0 <= offset -> offset + Z.of_nat (length input) <= INT64_MAX ->
  (completed <= length input < fuel + completed)%nat ->
  let off := (Z.to_nat offset + completed)%nat in
  let rest := drop completed input in
  exists r f', write_loop fuel offset input completed f = (r, f')
    /\ write_effect off (length rest) f f'
    /\ (r = Ok tt /\ (rest <> [] -> f_data f' = file_splice (f_data f) off rest)
        /\ (rest = [] -> f_data f' = f_data f)
        \/ r = Err SDB_E_IO /\ ~ reliable f).
Proof.
  intros Ho Hmax; revert completed f; induction fuel as [|fuel IH]; intros completed f Hsz; [lia|].
  cbn [write_loop]; case_bool_decide as Hlt; cbv zeta.
  2:{ exists (Ok tt), f; split_and!; [done | by apply same_contents_write_effect | left].
      split_and!; [done | | done]; intros []; apply drop_ge; lia. }
  unfold UINT64_MAX, INT64_MAX in *.
  rewrite !Z.gtb_ltb, !(proj2 (Z.ltb_ge _ _)) by lia.
  destruct (syscall_retry f) as [reply f1] eqn:Hs; apply syscall_retry_spec in Hs as (Hsc & He & Hre).
  pose proof (posix_chunk_bounds (length input - completed) ltac:(lia)) as Hch.
  set (chunk := Z.to_nat (sdb_posix_chunk _ _)) in *.
  replace (Z.to_nat (offset + Z.of_nat completed)) with (Z.to_nat offset + completed)%nat by lia.
  pose proof Hsc as (Hd & _ & _ & Hrel).
  assert (Hrl : length (drop completed input) = (length input - completed)%nat) by apply length_drop.
  destruct (decide (reply = OsError)) as [->|Hne].
  { eexists _, _; split_and!; [done | | right; naive_solver].
    eapply same_contents_then_write; [done|]; apply os_write_failed_effect; lia. }
  pose proof (os_count_pos reply chunk He Hne ltac:(lia)) as Hc.
  set (k := os_count reply chunk) in *.
  assert (Hmatch : forall A (x y : A), match reply with OsError | OsEintr => x | _ => y end = y)
    by (intros; by destruct reply).
  rewrite Hmatch; set (src := slice input completed k).
  assert (Hsl : length src = k) by (apply length_slice; lia).
  assert (Hrest : drop completed input = src ++ drop (completed + k) input).
  { unfold src, slice; rewrite <- drop_drop; symmetry; apply take_drop. }
  destruct (IH (completed + k)%nat (os_write f1 (Z.to_nat offset + completed) src))
    as (r & f' & Hl & Hw & Hres); [lia|].
  rewrite length_drop in Hw; rewrite Nat.add_assoc in Hw, Hres.
  exists r, f'; split_and!; [done | |].
  - eapply same_contents_then_write; [done|]; rewrite Hrl.
    apply (write_effect_step _ _ src); [lia|]; rewrite Hsl.
    by replace (length input - completed - k)%nat with (length input - (completed + k))%nat by lia.
  - destruct Hres as [(-> & H1 & H2)|[-> Hnr]]; [left | right; naive_solver].
    split_and!; [done | intros _ | intros E; rewrite E in Hrl; cbn in Hrl; lia].
    cbn [os_write f_data] in *; rewrite Hd in *; rewrite Hrest.
    destruct (decide (drop (completed + k) input = [])) as [E|E].
    + rewrite (H2 E), E, app_nil_r; done.
    + rewrite (H1 E), <- file_splice_app, Hsl; done.
Qed.

(** Whatever the kernel replies, [sdb_file_write_full] dirties only its range,
    leaves the durable contents alone, and reports success only when the whole
    buffer is in the file. *)
Lemma write_full_spec (offset : Z) (input : bytes) (f : sdb_file) :
  0 <= offset -> offset + Z.of_nat (length input) <= INT64_MAX -> input <> [] ->
  exists r f', sdb_file_write_full offset input f = (r, f')
    /\ write_effect (Z.to_nat offset) (length input) f f'
    /\ (r = Ok tt /\ f_data f' = file_splice (f_data f) (Z.to_nat offset) input
        \/ r = Err SDB_E_IO /\ ~ reliable f).
Proof.
  intros Ho Hm Hne; unfold sdb_file_write_full.
  rewrite Z.gtb_ltb, (proj2 (Z.ltb_ge _ _)) by lia.
  destruct (write_loop_spec (S (length input)) offset input 0 f) as (r & f' & -> & Hw & Hr); [done | done | lia|].
  rewrite Nat.add_0_r, drop_0 in *; exists r, f'; naive_solver.
Qed.

(** A write that reports success is complete, wherever it is. *)
Lemma write_loop_ok (fuel : nat) (offset : Z) (input : bytes) :
  0 <= offset ->
  forall completed f f', (completed <= length input)%nat -> write_loop fuel offset input completed f = (Ok tt, f') ->
  f_durable f' = f_durable f
  /\ f_data f' = if bool_decide (completed < length input)%nat
                 then file_splice (f_data f) (Z.to_nat offset + completed) (drop completed input) else f_data f.
Proof.
  intros Ho; induction fuel as [|fuel IH]; intros completed f f' Hc; cbn [write_loop]; [done|].
  case_bool_decide as Hlt; [|by intros [= <-]]; do 2 (case_if; [done|]).
  destruct (syscall_retry f) as [reply f1] eqn:Hs; apply syscall_retry_spec in Hs as ((Hd & Hdu & _) & He & _).
  pose proof (posix_chunk_bounds (length input - completed) ltac:(lia)) as Hch; set (chunk := Z.to_nat (sdb_posix_chunk _ _)) in *.
  replace (Z.to_nat (offset + Z.of_nat completed)) with (Z.to_nat offset + completed)%nat by lia.
  destruct (decide (reply = OsError)) as [->|Hne]; [done|].
  pose proof (os_count_pos reply chunk He Hne ltac:(lia)) as Hk; set (k := os_count reply chunk) in *.
  assert (Hmatch : forall A (x y : A), match reply with OsError | OsEintr => x | _ => y end = y) by (intros; by destruct reply).
  rewrite Hmatch; set (src := slice input completed k); assert (Hsl : length src = k) by (apply length_slice; lia).
  intros Hrun; apply IH in Hrun as [Edu Ed]; [|lia]; cbn [os_write f_data f_durable] in *; split; [by rewrite Edu|].
  assert (Hrest : drop completed input = src ++ drop (completed + k) input).
  { unfold src, slice; rewrite <- drop_drop; symmetry; apply take_drop. }
  rewrite Ed, Hd, Hrest; case_bool_decide.
  - rewrite Nat.add_assoc, <- Hsl; apply file_splice_app.
  - by rewrite (drop_ge input (completed + k)), app_nil_r by lia.
Qed.

Lemma write_full_ok (offset : Z) (input : bytes) (f f' : sdb_file) :
  0 <= offset -> input <> [] -> sdb_file_write_full offset input f = (Ok tt, f') ->
  f_durable f' = f_durable f /\ f_data f' = file_splice (f_data f) (Z.to_nat offset) input.
Proof.
  intros Ho Hi; unfold sdb_file_write_full; case_if; [done|]; intros H; apply write_loop_ok in H as [Hd H]; [|done|lia].
  split; [done|]; rewrite H, bool_decide_eq_true_2, Nat.add_0_r, drop_0; [done|]; destruct input; [done|cbn; lia].
Qed.

Lemma sync_spec (f : sdb_file) :
  exists r f', sdb_file_sync f = (r, f')
    /\ (r = Ok tt /\ f_data f' = f_data f /\ f_durable f' = f_data f /\ f_dirty f' = []
        /\ (reliable f -> reliable f')
        \/ r = Err SDB_E_IO /\ same_contents f f' /\ ~ reliable f).
Proof.
  unfold sdb_file_sync.
  destruct (syscall_retry f) as [reply f1] eqn:Hs; apply syscall_retry_spec in Hs as (Hsc & He & Hre).
  pose proof Hsc as (Hd & _ & _ & Hrel).
  destruct (decide (reply = OsError)) as [->|Hne]; [eexists _, _; split; [done|right; naive_solver]|].
  exists (Ok tt), (os_sync f1); split; [by destruct reply|]; left; cbn; naive_solver.
Qed.

Lemma resize_spec (size : Z) (f : sdb_file) :
  0 <= size <= INT64_MAX ->
  exists r f', sdb_file_resize size f = (r, f') /\ f_durable f' = f_durable f
    /\ (reliable f -> reliable f')
    /\ (r = Ok tt
        /\ f_data f' = take (Z.to_nat size) (f_data f ++ zeros (Z.to_nat size - length (f_data f)))
        /\ f_dirty f' = DFrom (Nat.min (Z.to_nat size) (length (f_data f))) :: f_dirty f
        \/ r = Err SDB_E_IO /\ same_contents f f' /\ ~ reliable f).
Proof.
  intros Hsz; unfold sdb_file_resize; rewrite Z.gtb_ltb, (proj2 (Z.ltb_ge _ _)) by lia.
  destruct (syscall_retry f) as [reply f1] eqn:Hs; apply syscall_retry_spec in Hs as (Hsc & He & Hre).
  pose proof Hsc as (Hd & Hdu & Hdi & Hrel).
  destruct (decide (reply = OsError)) as [->|Hne]; [eexists _, _; split; [done|naive_solver]|].
  exists (Ok tt), (os_truncate f1 (Z.to_nat size)); split; [by destruct reply|].
  cbn; rewrite Hd, Hdi; naive_solver.
Qed.

Lemma file_size_spec (f : sdb_file) :
  exists r f', sdb_file_size f = (r, f') /\ same_contents f f'
    /\ (r = Ok (Z.of_nat (length (f_data f))) \/ r = Err SDB_E_IO).
Proof.
  unfold sdb_file_size; destruct (syscall f) as [reply f1] eqn:Hs.
  apply syscall_spec in Hs as (Hsc & _); pose proof Hsc as (Hd & _).
  destruct reply; eexists _, _; (split; [done|]); rewrite ?Hd; naive_solver.
Qed.

(** ** Crash states *)

Lemma write_effect_wf (off n : nat) (f f' : sdb_file) :
  file_wf f -> write_effect off n f f' -> file_wf f'.
Proof.
  intros Hwf [D K Di C O R] i Hi; rewrite C, D by done; apply Hwf; eauto.
Qed.

Lemma same_contents_wf (f f' : sdb_file) : file_wf f -> same_contents f f' -> file_wf f'.
Proof.
  intros Hwf (Hd & Hdu & Hdi & _) i; unfold touched; rewrite Hd, Hdu, Hdi; apply Hwf.
Qed.

Lemma synced_wf (f : sdb_file) : f_durable f = f_data f -> f_dirty f = [] -> file_wf f.
Proof. intros H _ i _; by rewrite H. Qed.

(** After a successful [fsync] a crash loses nothing. *)
Lemma crash_synced (f : sdb_file) (c : bytes) :
  f_dirty f = [] -> crash_contents f c -> c = f_durable f.
Proof.
  intros Hd Hc; apply list_eq; intros i; apply Hc; unfold touched; rewrite Hd; inversion 1.
Qed.

(** A crash after writes confined to [off, off + n) of a synced file leaves
    the rest of the file as it was. *)
Lemma crash_outside (f f' : sdb_file) (off n : nat) (c : bytes) :
  f_dirty f = [] -> write_effect off n f f' -> (off + n <= length (f_data f))%nat ->
  crash_contents f' c ->
  forall i, (i < off \/ off + n <= i)%nat -> c !! i = f_durable f !! i.
Proof.
  intros Hd [D K Di C O R] Hl Hc i Hi; rewrite <- D; apply Hc.
  intros Ht; destruct (Di i Ht) as [H|H].
  - unfold touched in H; rewrite Hd in H; inversion H.
  - unfold write_dirty in H; rewrite bool_decide_eq_true_2 in H by done; cbn in H; lia.
Qed.
