(* ===== verification/Sha256.v ===== *)
(** * SHA-256, HMAC and PBKDF2 ([src/crypto.h], [src/sha256.c])

    The hash context with its 64-byte buffer, the scalar block transform, the
    streaming update, the padding in [sdb_sha256_final], HMAC and PBKDF2.  The
    theorems: hashing a message in any sequence of updates is the one-shot
    padded hash of the concatenation, HMAC is the textbook composition over
    it, the constant-time comparison decides equality, and PBKDF2 fills
    exactly the requested output.

    The SHA-NI variant of the transform ([src/sha256_shani.c]) is compiler
    intrinsics and is not modelled; neither is the scrubbing of temporaries. *)

From S2P Require Import Prelude Status Codec.

Definition SDB_SHA256_SIZE : nat := 32.

Record sdb_sha256_context := {
  sha_state : list Z;
  sha_bit_count : Z;
  sha_buffer : bytes;
  sha_buffered : nat
}.

Definition sdb_sha256_constants : list Z :=
  [1116352408; 1899447441; 3049323471; 3921009573;
   961987163; 1508970993; 2453635748; 2870763221;
   3624381080; 310598401; 607225278; 1426881987;
   1925078388; 2162078206; 2614888103; 3248222580;
   3835390401; 4022224774; 264347078; 604807628;
   770255983; 1249150122; 1555081692; 1996064986;
   2554220882; 2821834349; 2952996808; 3210313671;
   3336571891; 3584528711; 113926993; 338241895;
   666307205; 773529912; 1294757372; 1396182291;
   1695183700; 1986661051; 2177026350; 2456956037;
   2730485921; 2820302411; 3259730800; 3345764771;
   3516065817; 3600352804; 4094571909; 275423344;
   430227734; 506948616; 659060556; 883997877;
   958139571; 1322822218; 1537002063; 1747873779;
   1955562222; 2024104815; 2227730452; 2361852424;
   2428436474; 2756734187; 3204031479; 3329325298].

Definition sdb_rotr32 (value amount : Z) : Z :=
  Z.lor (Z.shiftr value amount) (wrap 32 (Z.shiftl value (32 - amount))).

Definition sdb_read_u32_be (input : bytes) (off : nat) : Z :=
  Z.lor (Z.lor (Z.lor (wrap 32 (Z.shiftl (u8_at input off) 24))
                      (Z.shiftl (u8_at input (off + 1)) 16))
               (Z.shiftl (u8_at input (off + 2)) 8))
        (u8_at input (off + 3)).

Definition sdb_write_u32_be (output : bytes) (off : nat) (value : Z) : bytes :=
  let output := store_u8 output off (Z.shiftr value 24) in
  let output := store_u8 output (off + 1) (Z.shiftr value 16) in
  let output := store_u8 output (off + 2) (Z.shiftr value 8) in
  store_u8 output (off + 3) value.

(** [schedule[i]] *)
Definition sha_w (schedule : list Z) (i : nat) : Z := nth i schedule 0.

(** The first loop of the transform. *)
Definition sha_schedule_init (block : bytes) : list Z :=
  (fun index => sdb_read_u32_be block (index * 4)) <$> seq 0 16.

(** One iteration of the second loop; [schedule[index]] is the next free slot. *)
Definition sha_schedule_step (schedule : list Z) (index : nat) : list Z :=
  let w15 := sha_w schedule (index - 15) in
  let w2 := sha_w schedule (index - 2) in
  let s0 := Z.lxor (Z.lxor (sdb_rotr32 w15 7) (sdb_rotr32 w15 18)) (Z.shiftr w15 3) in
  let s1 := Z.lxor (Z.lxor (sdb_rotr32 w2 17) (sdb_rotr32 w2 19)) (Z.shiftr w2 10) in
  schedule ++ [wrap 32 (sha_w schedule (index - 16) + s0 + sha_w schedule (index - 7) + s1)].

Record sha_vars := { va : Z; vb : Z; vc : Z; vd : Z; ve : Z; vf : Z; vg : Z; vh : Z }.

(** One iteration of the compression loop. *)
Definition sha_round (schedule : list Z) (v : sha_vars) (index : nat) : sha_vars :=
  let sum1 := Z.lxor (Z.lxor (sdb_rotr32 (ve v) 6) (sdb_rotr32 (ve v) 11)) (sdb_rotr32 (ve v) 25) in
  let choose := Z.lxor (Z.land (ve v) (vf v)) (Z.land (UINT32_MAX - ve v) (vg v)) in
  let temporary1 :=
    wrap 32 (vh v + sum1 + choose + sha_w sdb_sha256_constants index + sha_w schedule index) in
  let sum0 := Z.lxor (Z.lxor (sdb_rotr32 (va v) 2) (sdb_rotr32 (va v) 13)) (sdb_rotr32 (va v) 22) in
  let majority :=
    Z.lxor (Z.lxor (Z.land (va v) (vb v)) (Z.land (va v) (vc v))) (Z.land (vb v) (vc v)) in
  let temporary2 := wrap 32 (sum0 + majority) in
  {| vh := vg v; vg := vf v; vf := ve v; ve := wrap 32 (vd v + temporary1);
     vd := vc v; vc := vb v; vb := va v; va := wrap 32 (temporary1 + temporary2) |}.

(** [sdb_sha256_transform_scalar] on the eight state words. *)
Definition sdb_sha256_transform_scalar (state : list Z) (block : bytes) : list Z :=
  let schedule := foldl sha_schedule_step (sha_schedule_init block) (seq 16 48) in
  let s := sha_w state in
  let v := {| va := s 0%nat; vb := s 1%nat; vc := s 2%nat; vd := s 3%nat;
              ve := s 4%nat; vf := s 5%nat; vg := s 6%nat; vh := s 7%nat |} in
  let v := foldl (sha_round schedule) v (seq 0 64) in
  [wrap 32 (s 0%nat + va v); wrap 32 (s 1%nat + vb v); wrap 32 (s 2%nat + vc v);
   wrap 32 (s 3%nat + vd v); wrap 32 (s 4%nat + ve v); wrap 32 (s 5%nat + vf v);
   wrap 32 (s 6%nat + vg v); wrap 32 (s 7%nat + vh v)].

Definition sha_initial : list Z :=
  [1779033703; 3144134277; 1013904242; 2773480762; 1359893119; 2600822924; 528734635; 1541459225].

Definition sdb_sha256_init : sdb_sha256_context :=
  {| sha_state := sha_initial; sha_bit_count := 0; sha_buffer := zeros 64; sha_buffered := 0 |}.

(** One iteration of the update loop: the context and the data left. *)
Definition sha_update_step (c : sdb_sha256_context) (data : bytes) : sdb_sha256_context * bytes :=
  let available := (64 - sha_buffered c)%nat in
  let size := length data in
  let n := if bool_decide (size < available)%nat then size else available in
  let buffer := memcpy_at (sha_buffer c) (sha_buffered c) (take n data) in
  let buffered := (sha_buffered c + n)%nat in
  let bit_count := wrap 64 (sha_bit_count c + wrap 64 (Z.of_nat n * 8)) in
  let c' :=
    if bool_decide (buffered = 64%nat) then
      {| sha_state := sdb_sha256_transform_scalar (sha_state c) buffer;
         sha_bit_count := bit_count; sha_buffer := buffer; sha_buffered := 0 |}
    else
      {| sha_state := sha_state c; sha_bit_count := bit_count;
         sha_buffer := buffer; sha_buffered := buffered |} in
  (c', drop n data).

(** Every iteration consumes a byte, so [length data] iterations suffice. *)
Fixpoint sha_update_loop (fuel : nat) (c : sdb_sha256_context) (data : bytes)
  : sdb_sha256_context :=
  match fuel, data with
  | S fuel, _ :: _ => let '(c', rest) := sha_update_step c data in sha_update_loop fuel c' rest
  | _, _ => c
  end.

Definition sdb_sha256_update (c : sdb_sha256_context) (data : bytes) : sdb_sha256_context :=
  sha_update_loop (length data) c data.

(** [buffer[63 - index] = (uint8_t)bit_count; bit_count >>= 8;] *)
Definition sha_store_length (buffer : bytes) (bit_count : Z) : bytes :=
  foldl (fun b index => store_u8 b (63 - index) (Z.shiftr bit_count (8 * Z.of_nat index)))
    buffer (seq 0 8).

(** [memset(buffer + from, 0, n)] *)
Definition memset0 (buffer : bytes) (from n : nat) : bytes := memcpy_at buffer from (zeros n).

Definition sha_write_digest (state : list Z) : bytes :=
  foldl (fun out index => sdb_write_u32_be out (index * 4) (sha_w state index))
    (zeros SDB_SHA256_SIZE) (seq 0 8).

Definition sdb_sha256_final (c : sdb_sha256_context) : bytes :=
  let buffer := store_u8 (sha_buffer c) (sha_buffered c) 128 in
  let buffered := (sha_buffered c + 1)%nat in
  let '(state, buffer, buffered) :=
    if bool_decide (56 < buffered)%nat then
      let buffer := memset0 buffer buffered (64 - buffered) in
      (sdb_sha256_transform_scalar (sha_state c) buffer, buffer, 0%nat)
    else (sha_state c, buffer, buffered) in
  let buffer := memset0 buffer buffered (56 - buffered) in
  let buffer := sha_store_length buffer (sha_bit_count c) in
  sha_write_digest (sdb_sha256_transform_scalar state buffer).

Definition sdb_constant_time_equal (left right : bytes) (size : nat) : bool :=
  foldl (fun difference index =>
           Z.lor difference (Z.lxor (u8_at left index) (u8_at right index))) 0 (seq 0 size) =? 0.

Definition sdb_sha256 (data : bytes) : bytes :=
  sdb_sha256_final (sdb_sha256_update sdb_sha256_init data).

Definition xor_byte (k : Z) (b : byte) : byte := byte.of_Z (Z.lxor (byte.unsigned b) k).

(** [normalized]: the key padded to the block size, or its hash. *)
Definition hmac_normalized (key : bytes) : bytes :=
  if bool_decide (64 < length key)%nat then memcpy_at (zeros 64) 0 (sdb_sha256 key)
  else memcpy_at (zeros 64) 0 key.

Definition sdb_hmac_sha256 (key data : bytes) : bytes :=
  let normalized := hmac_normalized key in
  let c := sdb_sha256_update sdb_sha256_init (xor_byte 54 <$> normalized) in
  let inner_hash := sdb_sha256_final (sdb_sha256_update c data) in
  let c := sdb_sha256_update sdb_sha256_init (xor_byte 92 <$> normalized) in
  sdb_sha256_final (sdb_sha256_update c inner_hash).

(** [u = HMAC (password, u); result ^= u], [n] times. *)
Fixpoint pbkdf2_iterate (n : nat) (password u res : bytes) : bytes :=
  match n with
  | O => res
  | S n =>
      let u := sdb_hmac_sha256 password u in
      pbkdf2_iterate n password u (zip_with (fun a b => xor_byte (byte.unsigned b) a) res u)
  end.

(** The four bytes [block] occupies at the end of the message. *)
Definition pbkdf2_message (salt : bytes) (block : Z) : bytes :=
  salt ++ [byte.of_Z (Z.shiftr block 24); byte.of_Z (Z.shiftr block 16);
           byte.of_Z (Z.shiftr block 8); byte.of_Z block].

Definition pbkdf2_block (password salt : bytes) (iterations block : Z) : bytes :=
  let u := sdb_hmac_sha256 password (pbkdf2_message salt block) in
  pbkdf2_iterate (Z.to_nat (iterations - 1)) password u u.

(** The [while (output_size != 0)] loop; every iteration produces a byte. *)
Fixpoint pbkdf2_loop (fuel : nat) (password salt : bytes) (iterations block : Z)
    (output_size : nat) : result bytes :=
  match fuel with
  | O => Ok []
  | S fuel =>
    if bool_decide (output_size = 0%nat) then Ok []
    else
      let n := if bool_decide (output_size < 32)%nat then output_size else 32%nat in
      let res := take n (pbkdf2_block password salt iterations block) in
      let output_size := (output_size - n)%nat in
      fail_if (block =? UINT32_MAX) && negb (bool_decide (output_size = 0%nat))
        with SDB_E_OVERFLOW ;;
      rest ← pbkdf2_loop fuel password salt iterations (block + 1) output_size;
      Ok (res ++ rest)
  end.

Definition sdb_pbkdf2_hmac_sha256 (password salt : bytes) (iterations : Z) (output_size : nat)
  : result bytes :=
  fail_if (iterations =? 0) || (Z.of_nat (length salt) >? SIZE_MAX - 4)
    with SDB_E_INVALID_ARGUMENT ;;
  pbkdf2_loop output_size password salt iterations 1 output_size.

(** ** Reference: one-shot padding and block fold *)

Definition sha_pad_zeros (n : nat) : nat :=
  if bool_decide (n mod 64 < 56)%nat then (55 - n mod 64)%nat else (119 - n mod 64)%nat.

Definition sha_padding (n : nat) : bytes :=
  byte.of_Z 128 :: zeros (sha_pad_zeros n) ++ rev (le_split 8 (wrap 64 (8 * Z.of_nat n))).

Definition sha_blocks (msg : bytes) : list bytes :=
  (fun i => slice msg (64 * i) 64) <$> seq 0 (length msg / 64).

Definition sha256_reference (msg : bytes) : bytes :=
  sha_write_digest
    (foldl sdb_sha256_transform_scalar sha_initial (sha_blocks (msg ++ sha_padding (length msg)))).

(** ** The context represents the bytes absorbed so far *)

Record ctx_repr (c : sdb_sha256_context) (blocks : list bytes) (pending : bytes) : Prop := {
  cr_blocks : Forall (fun b => length b = 64%nat) blocks;
  cr_state : sha_state c = foldl sdb_sha256_transform_scalar sha_initial blocks;
  cr_buffer : length (sha_buffer c) = 64%nat;
  cr_buffered : sha_buffered c = length pending;
  cr_small : (length pending < 64)%nat;
  cr_pending : take (length pending) (sha_buffer c) = pending;
  cr_bits : sha_bit_count c = wrap 64 (8 * Z.of_nat (64 * length blocks + length pending))
}.

Lemma ctx_repr_init : ctx_repr sdb_sha256_init [] [].
Proof. by split; cbn; auto with lia. Qed.

Lemma wrap_add (w a b : Z) : 0 <= w -> wrap w (wrap w a + wrap w b) = wrap w (a + b).
Proof. intros; unfold wrap; symmetry; apply Z.add_mod; lia. Qed.

(** One iteration absorbs a non-empty prefix of the data. *)
Lemma sha_update_step_spec (c : sdb_sha256_context) (blocks : list bytes) (pending data : bytes) :
  ctx_repr c blocks pending -> data <> [] ->
  exists n blocks' pending', (0 < n <= length data)%nat
    /\ snd (sha_update_step c data) = drop n data
    /\ ctx_repr (fst (sha_update_step c data)) blocks' pending'
    /\ mjoin blocks' ++ pending' = mjoin blocks ++ pending ++ take n data.
Proof.
  intros [HB HS HL HN HP HT HC] Hd; unfold sha_update_step.
  set (n := if bool_decide (length data < _)%nat then _ else _).
  assert (Hn : (0 < n <= length data)%nat /\ (n + length pending <= 64)%nat).
  { assert (0 < length data)%nat by (destruct data; cbn; done || lia).
    subst n; rewrite HN; case_bool_decide; lia. }
  assert (Hl : length (take n data) = n) by (rewrite length_take; lia).
  pose proof (memcpy_at_tail (sha_buffer c) (take n data) (length pending) ltac:(lia)) as Ht.
  rewrite Hl, HT in Ht.
  assert (Hbits : wrap 64 (sha_bit_count c + wrap 64 (Z.of_nat n * 8))
      = wrap 64 (8 * Z.of_nat (64 * length blocks + length pending + n))).
  { rewrite HC, wrap_add by lia; f_equal; lia. }
  cbn [fst snd]; exists n; rewrite HN; case_bool_decide as Hfull.
  - exists (blocks ++ [pending ++ take n data]), []; split_and!; [lia | lia | done | |].
    + assert (Hbuf : memcpy_at (sha_buffer c) (length pending) (take n data) = pending ++ take n data).
      { rewrite <- Ht, Hfull; symmetry; apply take_ge; rewrite length_memcpy_at; lia. }
      rewrite Hbuf; split; cbn; try done.
      * apply Forall_app; split; [done|]; constructor; [|done]; rewrite length_app; lia.
      * rewrite HS, foldl_snoc; done.
      * rewrite length_app; lia.
      * lia.
      * rewrite Hbits, length_app; cbn; do 2 f_equal; lia.
    + rewrite join_app; cbn; rewrite !app_nil_r; done.
  - exists blocks, (pending ++ take n data); split_and!; [lia | lia | done | |].
    + split; cbn; try done.
      * by rewrite length_memcpy_at.
      * rewrite length_app; lia.
      * rewrite length_app; lia.
      * rewrite length_app, Hl; exact Ht.
      * rewrite Hbits, length_app, Hl; f_equal; lia.
    + done.
Qed.

Lemma sha_update_loop_spec (fuel : nat) (c : sdb_sha256_context) (blocks : list bytes)
    (pending data : bytes) :
  ctx_repr c blocks pending -> (length data <= fuel)%nat ->
  exists blocks' pending', ctx_repr (sha_update_loop fuel c data) blocks' pending'
    /\ mjoin blocks' ++ pending' = mjoin blocks ++ pending ++ data.
Proof.
  revert c blocks pending data; induction fuel as [|fuel IH]; intros c blocks pending data Hc Hf.
  { assert (data = []) as -> by (destruct data; cbn in *; done || lia).
    exists blocks, pending; by rewrite app_nil_r. }
  destruct data as [|b data']; [exists blocks, pending; by rewrite app_nil_r|].
  cbn [sha_update_loop].
  destruct (sha_update_step_spec c blocks pending (b :: data') Hc ltac:(done))
    as (n & bl & pe & Hn & Hrest & Hr & Hj).
  destruct (sha_update_step c (b :: data')) as [c' rest]; cbn [fst snd] in *; subst rest.
  destruct (IH c' bl pe (drop n (b :: data')) Hr) as (bl' & pe' & Hr' & Hj').
  { rewrite length_drop; lia. }
  exists bl', pe'; split; [done|]; rewrite Hj', app_assoc, Hj, <- !app_assoc, take_drop; done.
Qed.

Lemma sha_update_spec (c : sdb_sha256_context) (blocks : list bytes) (pending data : bytes) :
  ctx_repr c blocks pending ->
  exists blocks' pending', ctx_repr (sdb_sha256_update c data) blocks' pending'
    /\ mjoin blocks' ++ pending' = mjoin blocks ++ pending ++ data.
Proof. intros; by apply sha_update_loop_spec. Qed.

Lemma sha_store_length_spec (pre l : bytes) (v : Z) :
  length pre = 56%nat -> length l = 8%nat ->
  sha_store_length (pre ++ l) v = pre ++ rev (le_split 8 v).
Proof.
  intros Hp Hl; do 8 (destruct l as [|? l]; [discriminate|]); destruct l; [|discriminate].
  assert (Hi : forall i x (t : bytes), (56 <= i)%nat ->
             store_u8 (pre ++ t) i x = pre ++ <[(i - 56)%nat := byte.of_Z x]> t).
  { intros i x t ?; unfold store_u8; rewrite insert_app_r_alt by lia; by rewrite Hp. }
  unfold sha_store_length; cbn [seq foldl]; by rewrite !Hi by lia.
Qed.

Lemma length_join64 (bs : list bytes) :
  Forall (fun b => length b = 64%nat) bs -> length (mjoin bs) = (64 * length bs)%nat.
Proof.
  induction 1 as [|b bs E _ IH]; [done|].
  change (mjoin (b :: bs)) with (b ++ mjoin bs); rewrite length_app, E, IH; cbn [length]; lia.
Qed.

Lemma sha_blocks_join (bs : list bytes) :
  Forall (fun b => length b = 64%nat) bs -> sha_blocks (mjoin bs) = bs.
Proof.
  intros Hb; unfold sha_blocks; rewrite length_join64, Nat.mul_comm, Nat.div_mul by done.
  induction Hb as [|b bs E Hb IH]; [done|].
  cbn [length seq]; rewrite fmap_cons, <- seq_shift; f_equal.
  - cbn; unfold slice; rewrite drop_0, take_app_length'; done.
  - rewrite <- list_fmap_compose; etransitivity; [|exact IH].
    apply list_fmap_ext; intros i j _; unfold compose.
    change (mjoin (b :: bs)) with (b ++ mjoin bs); rewrite slice_app_r by lia; f_equal; lia.
Qed.

(** The last one or two blocks of the padded message. *)
Lemma sha_padded_join (blocks : list bytes) (pending : bytes) (more : list bytes) :
  Forall (fun b => length b = 64%nat) blocks -> Forall (fun b => length b = 64%nat) more ->
  pending ++ sha_padding (64 * length blocks + length pending) = mjoin more ->
  sha256_reference (mjoin blocks ++ pending)
    = sha_write_digest (foldl sdb_sha256_transform_scalar sha_initial (blocks ++ more)).
Proof.
  intros Hb Hm E; unfold sha256_reference; do 2 f_equal.
  rewrite length_app, (length_join64 blocks), <- app_assoc, E, <- join_app by done.
  apply sha_blocks_join, Forall_app; done.
Qed.

Lemma sha_final_spec (c : sdb_sha256_context) (blocks : list bytes) (pending : bytes) :
  ctx_repr c blocks pending -> sdb_sha256_final c = sha256_reference (mjoin blocks ++ pending).
Proof.
  intros [HB HS HL HN HP HT HC]; unfold sdb_sha256_final, memset0; rewrite HN, HC, HS.
  set (len := (64 * length blocks + length pending)%nat).
  assert (Hmod : (len mod 64 = length pending)%nat).
  { unfold len; rewrite Nat.add_comm, Nat.mul_comm, Nat.Div0.mod_add; by apply Nat.mod_small. }
  set (r := drop (length pending) (sha_buffer c)).
  assert (Hbuf : sha_buffer c = pending ++ r) by (unfold r; rewrite <- HT at 1; by rewrite take_drop).
  assert (Hr : length r = (64 - length pending)%nat) by (unfold r; rewrite length_drop; lia).
  rewrite store_u8_memcpy by lia; rewrite Hbuf, memcpy_at_app by (cbn; lia); cbn [length].
  set (p1 := pending ++ [byte.of_Z 128]).
  assert (Hp1 : length p1 = (length pending + 1)%nat) by (unfold p1; by rewrite length_app).
  case_bool_decide as H56.
  - rewrite memcpy_at_app by len_lia.
    rewrite (drop_ge (drop 1 r)), app_nil_r by len_lia.
    set (b1 := p1 ++ zeros (64 - (length pending + 1))).
    assert (Hb1 : length b1 = 64%nat) by (unfold b1; len_lia).
    change (56 - 0)%nat with 56%nat; rewrite <- (app_nil_l b1) at 2.
    rewrite memcpy_at_app by len_lia; cbn [app length].
    rewrite sha_store_length_spec by len_lia.
    rewrite (sha_padded_join blocks pending [b1; zeros 56 ++ rev (le_split 8 (wrap 64 (8 * Z.of_nat len)))]).
    + by rewrite foldl_app.
    + done.
    + rewrite !Forall_cons_iff; split_and!; [done | rewrite length_app, length_rev; len_lia | constructor].
    + fold len; unfold sha_padding, sha_pad_zeros, b1, p1; rewrite Hmod, bool_decide_eq_false_2 by lia.
      cbn [mjoin list_join]; rewrite app_nil_r, <- !app_assoc; cbn [app]; do 2 f_equal.
      rewrite app_assoc; f_equal; unfold zeros; rewrite <- replicate_add; f_equal; lia.
  - rewrite memcpy_at_app by len_lia; rewrite sha_store_length_spec by len_lia.
    set (b1 := (p1 ++ _) ++ _).
    rewrite (sha_padded_join blocks pending [b1]).
    + by rewrite foldl_app.
    + done.
    + rewrite Forall_cons_iff; split; [unfold b1; rewrite !length_app, length_rev; len_lia | constructor].
    + fold len; unfold sha_padding, sha_pad_zeros, b1, p1; rewrite Hmod, bool_decide_eq_true_2 by lia.
      cbn [mjoin list_join]; rewrite app_nil_r, <- !app_assoc; cbn [app]; do 4 f_equal; lia.
Qed.

Lemma sha_streaming_from (parts : list bytes) (c : sdb_sha256_context) (blocks : list bytes)
    (pending : bytes) :
  ctx_repr c blocks pending ->
  sdb_sha256_final (foldl sdb_sha256_update c parts)
    = sha256_reference (mjoin blocks ++ pending ++ mjoin parts).
Proof.
  revert c blocks pending; induction parts as [|d parts IH]; intros c blocks pending Hc.
  - cbn; rewrite app_nil_r; by apply sha_final_spec.
  - destruct (sha_update_spec c blocks pending d Hc) as (bl & pe & Hr & Hj).
    cbn [foldl]; rewrite (IH _ _ _ Hr), app_assoc, Hj, <- !app_assoc; done.
Qed.


Lemma sha256_oneshot (data : bytes) : sdb_sha256 data = sha256_reference data.
Proof.
  unfold sdb_sha256; pose proof (sha_streaming_from [data] _ [] [] ctx_repr_init) as H.
  cbn in H; by rewrite app_nil_r in H.
Qed.

Lemma sha256_two (a b : bytes) :
  sdb_sha256_final (sdb_sha256_update (sdb_sha256_update sdb_sha256_init a) b)
    = sha256_reference (a ++ b).
Proof.
  pose proof (sha_streaming_from [a; b] _ [] [] ctx_repr_init) as H.
  cbn in H; by rewrite app_nil_r in H.
Qed.

Lemma length_sha_digest (state : list Z) : length (sha_write_digest state) = 32%nat.
Proof.
  unfold sha_write_digest, sdb_write_u32_be; cbn [seq foldl].
  by rewrite !length_store_u8, length_zeros.
Qed.

Lemma length_sha256 (data : bytes) : length (sdb_sha256 data) = 32%nat.
Proof. rewrite sha256_oneshot; apply length_sha_digest. Qed.

(** ** HMAC *)

(** RFC 2104's key block. *)
Definition hmac_key_block (key : bytes) : bytes :=
  if bool_decide (64 < length key)%nat then sha256_reference key ++ zeros 32
  else key ++ zeros (64 - length key).

Lemma hmac_normalized_spec (key : bytes) : hmac_normalized key = hmac_key_block key.
Proof.
  unfold hmac_normalized, hmac_key_block; case_bool_decide.
  - rewrite <- sha256_oneshot, <- (app_nil_l (zeros 64)), memcpy_at_app
      by (cbn; rewrite ?length_sha256; cbn; lia).
    rewrite length_sha256; reflexivity.
  - rewrite <- (app_nil_l (zeros 64)), memcpy_at_app by (cbn; lia); cbn [app].
    f_equal; unfold zeros; rewrite drop_replicate; done.
Qed.

(** [sdb_hmac_sha256] is HMAC-SHA-256: for keys of every length it is the
    nested hash of the padded (or pre-hashed) key block with the inner and outer
    constants. *)
Theorem hmac_sha256_correct (key data : bytes) :
  sdb_hmac_sha256 key data =
    sha256_reference ((xor_byte 92 <$> hmac_key_block key)
      ++ sha256_reference ((xor_byte 54 <$> hmac_key_block key) ++ data)).
Proof.
  unfold sdb_hmac_sha256; by rewrite hmac_normalized_spec, !sha256_two.
Qed.

Lemma length_hmac (key data : bytes) : length (sdb_hmac_sha256 key data) = 32%nat.
Proof. unfold sdb_hmac_sha256; rewrite !sha256_two; apply length_sha_digest. Qed.

(** ** Constant-time comparison *)

Lemma ct_fold_zero (l r : bytes) (ixs : list nat) (a : Z) :
  0 <= a ->
  foldl (fun d i => Z.lor d (Z.lxor (u8_at l i) (u8_at r i))) a ixs = 0
  <-> a = 0 /\ Forall (fun i => l !!! i = r !!! i) ixs.
Proof.
  revert a; induction ixs as [|i ixs IH]; intros a Ha; cbn; [naive_solver|].
  pose proof (byte_range (l !!! i)); pose proof (byte_range (r !!! i)).
  rewrite IH, Z.lor_eq_0_iff, Z.lxor_eq_0_iff, Forall_cons_iff.
  - unfold u8_at; split.
    + intros [[-> E] ?]; split_and!; [done | by apply byte.unsigned_inj | done].
    + intros (-> & -> & ?); done.
  - apply Z.lor_nonneg; split; [done|]; apply Z.lxor_nonneg; unfold u8_at; lia.
Qed.

(** [sdb_constant_time_equal] decides equality of the two prefixes. *)
Lemma constant_time_equal_spec (l r : bytes) (n : nat) :
  (n <= length l)%nat -> (n <= length r)%nat ->
  sdb_constant_time_equal l r n = bool_decide (take n l = take n r).
Proof.
  intros Hl Hr; apply eq_bool_prop_intro; rewrite bool_decide_spec.
  unfold sdb_constant_time_equal; rewrite Is_true_true, Z.eqb_eq, ct_fold_zero by lia; split.
  - intros [_ HF]; apply list_eq; intros i; destruct (decide (i < n)%nat).
    + rewrite !lookup_take_lt by done; rewrite Forall_forall in HF.
      specialize (HF i ltac:(apply in_seq; lia)).
      rewrite !(list_lookup_lookup_total_lt _ i) by lia; by rewrite HF.
    + rewrite !lookup_take_ge by lia; done.
  - intros E; split; [done|]; apply Forall_forall; intros i Hi; apply in_seq in Hi.
    assert (Ht : forall x : bytes, x !!! i = default x00 (x !! i)).
    { intros x; rewrite list_lookup_total_alt; done. }
    rewrite !Ht, <- (lookup_take_lt l n i), <- (lookup_take_lt r n i) by lia; by rewrite E.
Qed.

(** ** PBKDF2 *)

Lemma length_pbkdf2_iterate (n : nat) (password u res : bytes) :
  length res = 32%nat -> length (pbkdf2_iterate n password u res) = 32%nat.
Proof.
  revert u res; induction n as [|n IH]; intros u res H; cbn; [done|].
  apply IH; rewrite length_zip_with, length_hmac; lia.
Qed.

Lemma length_pbkdf2_block (password salt : bytes) (iterations block : Z) :
  length (pbkdf2_block password salt iterations block) = 32%nat.
Proof. apply length_pbkdf2_iterate, length_hmac. Qed.

(** RFC 8018: [T_block || T_(block+1) || ...], cut to the output size. *)
Definition pbkdf2_reference (password salt : bytes) (iterations block : Z) (size : nat) : bytes :=
  take size (mjoin (pbkdf2_block password salt iterations
                      <$> seqZ block (Z.of_nat ((size + 31) / 32)))).

Lemma pbkdf2_reference_step (password salt : bytes) (iterations block : Z) (size : nat) :
  (0 < size)%nat ->
  pbkdf2_reference password salt iterations block size =
    take (Nat.min size 32) (pbkdf2_block password salt iterations block)
      ++ pbkdf2_reference password salt iterations (block + 1) (size - Nat.min size 32).
Proof.
  intros Hs; unfold pbkdf2_reference.
  pose proof (length_pbkdf2_block password salt iterations block) as Hlb.
  assert (Hq : ((size + 31) / 32 = S ((size - Nat.min size 32 + 31) / 32))%nat).
  { destruct (decide (size <= 32)%nat).
    - rewrite Nat.min_l, Nat.sub_diag by lia; change ((0 + 31) / 32)%nat with 0%nat.
      symmetry; apply Nat.div_unique with (r := (size - 1)%nat); lia.
    - rewrite Nat.min_r by lia.
      replace (size + 31)%nat with ((size - 32 + 31) + 1 * 32)%nat by lia.
      rewrite Nat.div_add by lia; lia. }
  rewrite Hq, seqZ_cons by lia; rewrite Nat2Z.inj_succ, Z.pred_succ, <- Z.add_1_r.
  cbn [fmap list_fmap mjoin list_join]; rewrite take_app, Hlb.
  destruct (decide (size <= 32)%nat).
  - rewrite Nat.min_l, Nat.sub_diag by lia.
    replace (size - 32)%nat with 0%nat by lia; done.
  - rewrite Nat.min_r by lia; f_equal; rewrite !take_ge by lia; done.
Qed.

Lemma pbkdf2_loop_spec (fuel : nat) (password salt : bytes) (iterations block : Z) (size : nat) :
  (size <= fuel)%nat -> 1 <= block -> Z.of_nat size <= 32 * (UINT32_MAX - block + 1) ->
  pbkdf2_loop fuel password salt iterations block size =
    Ok (pbkdf2_reference password salt iterations block size).
Proof.
  revert block size; induction fuel as [|fuel IH]; intros block size Hf Hb Hs.
  { assert (size = 0%nat) as -> by lia; done. }
  cbn [pbkdf2_loop]; case_bool_decide as Hz; [by rewrite Hz|].
  rewrite pbkdf2_reference_step by lia; set (n := if bool_decide _ then _ else _).
  assert (Hn : n = Nat.min size 32) by (unfold n; case_bool_decide; lia).
  assert (Hchk : (block =? UINT32_MAX) && negb (bool_decide ((size - n)%nat = 0%nat)) = false).
  { apply andb_false_iff; destruct (Z.eqb_spec block UINT32_MAX) as [->|]; [right|by left].
    rewrite bool_decide_eq_true_2 by lia; done. }
  rewrite Hchk, check_false, IH by lia; cbn [mbind result_bind]; by rewrite Hn.
Qed.

Lemma pbkdf2_total (password salt : bytes) (iterations : Z) (output_size : nat) :
  1 <= iterations -> Z.of_nat (length salt) <= SIZE_MAX - 4 ->
  Z.of_nat output_size <= 32 * UINT32_MAX ->
  exists out, sdb_pbkdf2_hmac_sha256 password salt iterations output_size = Ok out
    /\ out = pbkdf2_reference password salt iterations 1 output_size
    /\ length out = output_size.
Proof.
  intros Hi Hs Ho; eexists; split_and!; [|done|].
  - unfold sdb_pbkdf2_hmac_sha256; zcmp; rewrite check_false.
    apply pbkdf2_loop_spec; lia.
  - generalize 1 as block; revert output_size Ho.
    induction output_size as [n IH] using lt_wf_ind; intros Hn block.
    destruct (decide (n = 0%nat)) as [->|]; [done|].
    rewrite pbkdf2_reference_step, length_app, length_take, length_pbkdf2_block, IH by lia; lia.
Qed.

(** Key derivation is total and exact: for a positive iteration count and
    an output within the 2^32 - 1 block limit, [sdb_pbkdf2_hmac_sha256] succeeds
    and returns the first [output_size] bytes of the concatenated PBKDF2 blocks. *)
Theorem pbkdf2_correct (password salt : bytes) (iterations : Z) (output_size : nat) :
  1 <= iterations -> Z.of_nat (length salt) <= SIZE_MAX - 4 ->
  Z.of_nat output_size <= 32 * UINT32_MAX ->
  exists out, sdb_pbkdf2_hmac_sha256 password salt iterations output_size = Ok out
    /\ out = pbkdf2_reference password salt iterations 1 output_size
    /\ length out = output_size.
Proof. apply pbkdf2_total. Qed.

Lemma pbkdf2_correct_witness :
  exists out, sdb_pbkdf2_hmac_sha256 [byte.of_Z 112] [byte.of_Z 115] 2 40 = Ok out
    /\ out = pbkdf2_reference [byte.of_Z 112] [byte.of_Z 115] 2 1 40 /\ length out = 40%nat.
Proof. apply pbkdf2_correct; cbn; unfold SIZE_MAX, UINT64_MAX, UINT32_MAX; lia. Defined.

(** FIPS 180-4's one-block example, the message [abc]. *)
Example sha256_abc :
  byte.unsigned <$> sdb_sha256 (byte.of_Z <$> [97; 98; 99]) =
    [186; 120; 22; 191; 143; 1; 207; 234; 65; 65; 64; 222; 93; 174; 34; 35;
     176; 3; 97; 163; 150; 23; 122; 156; 180; 16; 255; 97; 242; 0; 21; 173].
Proof. vm_compute; reflexivity. Qed.
