(* ===== verification/Chacha.v ===== *)
(** * ChaCha20 ([src/xchacha20poly1305.c], [src/chacha_avx2.c])

    The ChaCha20 block function, HChaCha20 and the keystream, with the path that
    computes eight blocks at a time in AVX2 registers.  A register is the list of
    its eight 32-bit lanes.  The theorem: both paths produce the stream of RFC 8439,
    the message xored with the blocks of consecutive counters, and no block counter
    wraps for the sizes the cipher accepts. *)

From S2P Require Import Prelude Status Codec Sha256.

(** ** The scalar code *)

Definition sdb_rotl32 (value amount : Z) : Z :=
  Z.lor (wrap 32 (Z.shiftl value amount)) (Z.shiftr value (32 - amount)).

Definition sdb_chacha_quarter (a b c d : Z) : Z * Z * Z * Z :=
  let a := wrap 32 (a + b) in
  let d := Z.lxor d a in
  let d := sdb_rotl32 d 16 in
  let c := wrap 32 (c + d) in
  let b := Z.lxor b c in
  let b := sdb_rotl32 b 12 in
  let a := wrap 32 (a + b) in
  let d := Z.lxor d a in
  let d := sdb_rotl32 d 8 in
  let c := wrap 32 (c + d) in
  let b := Z.lxor b c in
  let b := sdb_rotl32 b 7 in
  (a, b, c, d).

(** [state[i]] *)
Definition word (state : list Z) (i : nat) : Z := nth i state 0.

(** [sdb_chacha_quarter(&state[i], &state[j], &state[k], &state[l])] *)
Definition quarter_at (i j k l : nat) (state : list Z) : list Z :=
  let '(a, b, c, d) := sdb_chacha_quarter (word state i) (word state j) (word state k) (word state l) in
  <[l := d]> (<[k := c]> (<[j := b]> (<[i := a]> state))).

(** The registers the eight quarter rounds of an iteration work on. *)
Definition round_schedule : list (nat * nat * nat * nat) :=
  [(0, 4, 8, 12); (1, 5, 9, 13); (2, 6, 10, 14); (3, 7, 11, 15);
   (0, 5, 10, 15); (1, 6, 11, 12); (2, 7, 8, 13); (3, 4, 9, 14)]%nat.

Definition sdb_chacha_rounds (state : list Z) : list Z :=
  Nat.iter 10 (fun state => foldl (fun s '(i, j, k, l) => quarter_at i j k l s) state round_schedule) state.

Definition chacha_constants : list Z := [1634760805; 857760878; 2036477234; 1797285236].

Definition sdb_chacha_state (key : bytes) (counter : Z) (nonce : bytes) : list Z :=
  chacha_constants ++ ((fun index => sdb_read_u32_le key (index * 4)) <$> seq 0 8)
  ++ [counter; sdb_read_u32_le nonce 0; sdb_read_u32_le nonce 4; sdb_read_u32_le nonce 8].

Definition sdb_chacha_block (key : bytes) (counter : Z) (nonce : bytes) : bytes :=
  let initial := sdb_chacha_state key counter nonce in
  let state := sdb_chacha_rounds initial in
  foldl (fun output index => sdb_write_u32_le output (index * 4) (wrap 32 (word state index + word initial index)))
    (zeros 64) (seq 0 16).

Definition sdb_hchacha20 (key nonce : bytes) : bytes :=
  let state := chacha_constants ++ ((fun index => sdb_read_u32_le key (index * 4)) <$> seq 0 8)
               ++ ((fun index => sdb_read_u32_le nonce (index * 4)) <$> seq 0 4) in
  let state := sdb_chacha_rounds state in
  foldl (fun output '(off, index) => sdb_write_u32_le output off (word state index)) (zeros 32)
    [(0, 0); (4, 1); (8, 2); (12, 3); (16, 12); (20, 13); (24, 14); (28, 15)]%nat.

Definition xor_bytes (a b : bytes) : bytes :=
  zip_with (fun x y => byte.of_Z (Z.lxor (byte.unsigned x) (byte.unsigned y))) a b.

(** The [while (size != 0)] loop; every iteration consumes a byte. *)
Fixpoint chacha_xor_loop (fuel : nat) (key nonce : bytes) (counter : Z) (input : bytes) : bytes :=
  match fuel, input with
  | S fuel, _ :: _ =>
      let n := if bool_decide (length input < 64)%nat then length input else 64%nat in
      let block := sdb_chacha_block key counter nonce in
      xor_bytes (take n input) (take n block)
      ++ chacha_xor_loop fuel key nonce (wrap 32 (counter + 1)) (drop n input)
  | _, _ => []
  end.

(** ** Eight blocks at a time *)

(** A [__m256i] of eight 32-bit lanes. *)
Abbreviation m256 := (list Z).

Definition lanes (f : nat -> Z) : m256 := f <$> seq 0 8.
Definition lane (v : m256) (j : nat) : Z := nth j v 0.

Definition mm256_set1_epi32 (x : Z) : m256 := lanes (fun _ => x).
Definition mm256_setr_epi32 (xs : list Z) : m256 := lanes (fun j => nth j xs 0).
Definition mm256_add_epi32 (a b : m256) : m256 := lanes (fun j => wrap 32 (lane a j + lane b j)).
Definition mm256_xor_si256 (a b : m256) : m256 := lanes (fun j => Z.lxor (lane a j) (lane b j)).
Definition mm256_or_si256 (a b : m256) : m256 := lanes (fun j => Z.lor (lane a j) (lane b j)).
Definition mm256_slli_epi32 (a : m256) (n : Z) : m256 := lanes (fun j => wrap 32 (Z.shiftl (lane a j) n)).
Definition mm256_srli_epi32 (a : m256) (n : Z) : m256 := lanes (fun j => Z.shiftr (lane a j) n).

Definition SDB_ROTV (x : m256) (n : Z) : m256 := mm256_or_si256 (mm256_slli_epi32 x n) (mm256_srli_epi32 x (32 - n)).

Definition SDB_QR (a b c d : m256) : m256 * m256 * m256 * m256 :=
  let a := mm256_add_epi32 a b in let d := mm256_xor_si256 d a in
  let d := SDB_ROTV d 16 in
  let c := mm256_add_epi32 c d in let b := mm256_xor_si256 b c in
  let b := SDB_ROTV b 12 in
  let a := mm256_add_epi32 a b in let d := mm256_xor_si256 d a in
  let d := SDB_ROTV d 8 in
  let c := mm256_add_epi32 c d in let b := mm256_xor_si256 b c in
  let b := SDB_ROTV b 7 in
  (a, b, c, d).

Definition sdb_rd32le (p : bytes) (off : nat) : Z :=
  Z.lor (Z.lor (Z.lor (u8_at p off) (wrap 32 (Z.shiftl (u8_at p (off + 1)) 8)))
               (wrap 32 (Z.shiftl (u8_at p (off + 2)) 16)))
        (wrap 32 (Z.shiftl (u8_at p (off + 3)) 24)).

Definition sdb_wr32le (p : bytes) (off : nat) (v : Z) : bytes :=
  let p := store_u8 p off v in
  let p := store_u8 p (off + 1) (Z.shiftr v 8) in
  let p := store_u8 p (off + 2) (Z.shiftr v 16) in
  store_u8 p (off + 3) (Z.shiftr v 24).

(** [v[i]] *)
Definition vreg (v : list m256) (i : nat) : m256 := nth i v [].

Definition qr_at (i j k l : nat) (v : list m256) : list m256 :=
  let '(a, b, c, d) := SDB_QR (vreg v i) (vreg v j) (vreg v k) (vreg v l) in
  <[l := d]> (<[k := c]> (<[j := b]> (<[i := a]> v))).

(** The registers set before the loop; [init[12]] is set in every iteration. *)
Definition chacha8_init (key nonce : bytes) : list m256 :=
  (mm256_set1_epi32 <$> chacha_constants)
  ++ ((fun i => mm256_set1_epi32 (sdb_rd32le key (i * 4))) <$> seq 0 8)
  ++ [[]; mm256_set1_epi32 (sdb_rd32le nonce 0); mm256_set1_epi32 (sdb_rd32le nonce 4);
      mm256_set1_epi32 (sdb_rd32le nonce 8)].

(** The words of the eight blocks, [ks[i][j]]. *)
Definition chacha8_words (init : list m256) (counter : Z) : list m256 :=
  let init := <[12%nat := mm256_add_epi32 (mm256_set1_epi32 counter) (mm256_setr_epi32 [0; 1; 2; 3; 4; 5; 6; 7])]> init in
  let v := Nat.iter 10 (fun v => foldl (fun v '(i, j, k, l) => qr_at i j k l v) v round_schedule) init in
  (fun i => mm256_add_epi32 (vreg v i) (vreg init i)) <$> seq 0 16.

(** [keystream] of block [j]. *)
Definition chacha8_keystream (ks : list m256) (j : nat) : bytes :=
  foldl (fun keystream i => sdb_wr32le keystream (i * 4) (lane (vreg ks i) j)) (zeros 64) (seq 0 16).

(** One iteration of the group loop on its 512 bytes. *)
Definition chacha8_group (init : list m256) (counter : Z) (input : bytes) : bytes :=
  let ks := chacha8_words init counter in
  mjoin ((fun j => xor_bytes (slice input (j * 64) 64) (chacha8_keystream ks j)) <$> seq 0 8).

Fixpoint chacha8_groups (init : list m256) (counter : Z) (input : bytes) (groups : nat) : bytes :=
  match groups with
  | O => []
  | S groups =>
      chacha8_group init counter (take 512 input)
      ++ chacha8_groups init (wrap 32 (counter + 8)) (drop 512 input) groups
  end.

Definition sdb_chacha8_xor (key nonce : bytes) (counter : Z) (input : bytes) (groups : nat) : bytes :=
  chacha8_groups (chacha8_init key nonce) counter input groups.

(** [avx2] is what the processor reports. *)
Definition sdb_chacha_xor (avx2 : bool) (key nonce : bytes) (counter : Z) (input : bytes) : bytes :=
  if bool_decide (512 <= length input)%nat && avx2
  then
    let groups := (length input / 512)%nat in
    let n := (groups * 512)%nat in
    sdb_chacha8_xor key nonce counter (take n input) groups
    ++ chacha_xor_loop (length input - n) key nonce (wrap 32 (counter + wrap 32 (Z.of_nat groups * 8))) (drop n input)
  else chacha_xor_loop (length input) key nonce counter input.

(** ** Lanes *)

Lemma nth_fmap_seq {A} (f : nat -> A) (n i : nat) (d : A) : (i < n)%nat -> nth i (f <$> seq 0 n) d = f i.
Proof.
  intros Hi; apply nth_lookup_Some; rewrite list_lookup_fmap.
  by rewrite (proj2 (lookup_seq 0 n i i) (conj eq_refl Hi)).
Qed.

Lemma lane_lanes (f : nat -> Z) (j : nat) : (j < 8)%nat -> lane (lanes f) j = f j.
Proof. apply nth_fmap_seq. Qed.

(** The state of block [j]. *)
Definition lane_state (v : list m256) (j : nat) : list Z := (fun r => lane r j) <$> v.

Lemma lane_vreg (v : list m256) (i j : nat) : lane (vreg v i) j = word (lane_state v j) i.
Proof.
  unfold vreg, word, lane_state; replace 0 with (lane [] j) by (by destruct j); symmetry.
  apply (map_nth (fun r => lane r j)).
Qed.

Lemma qr_lane (a b c d : m256) (j : nat) :
  (j < 8)%nat -> let '(a', b', c', d') := SDB_QR a b c d in
  (lane a' j, lane b' j, lane c' j, lane d' j) = sdb_chacha_quarter (lane a j) (lane b j) (lane c j) (lane d j).
Proof.
  intros Hj; unfold SDB_QR, sdb_chacha_quarter, SDB_ROTV, sdb_rotl32,
    mm256_add_epi32, mm256_xor_si256, mm256_or_si256, mm256_slli_epi32, mm256_srli_epi32.
  cbv zeta; rewrite !lane_lanes by done; done.
Qed.

Lemma lane_state_insert (v : list m256) (i n : nat) (r : m256) :
  lane_state (<[i := r]> v) n = <[i := lane r n]> (lane_state v n).
Proof. apply (list_fmap_insert (fun r => lane r n)). Qed.

Lemma qr_at_lane (i j k l : nat) (v : list m256) (n : nat) :
  (n < 8)%nat -> lane_state (qr_at i j k l v) n = quarter_at i j k l (lane_state v n).
Proof.
  intros Hn; unfold qr_at, quarter_at; rewrite <- !lane_vreg.
  pose proof (qr_lane (vreg v i) (vreg v j) (vreg v k) (vreg v l) n Hn) as E.
  destruct (SDB_QR _ _ _ _) as [[[a b] c] d]; rewrite <- E, !lane_state_insert; done.
Qed.

Lemma rounds_lane (v : list m256) (n : nat) :
  (n < 8)%nat ->
  lane_state (Nat.iter 10 (fun v => foldl (fun v '(i, j, k, l) => qr_at i j k l v) v round_schedule) v) n
  = sdb_chacha_rounds (lane_state v n).
Proof.
  intros Hn; unfold sdb_chacha_rounds; generalize 10%nat; intros m; induction m as [|m IH]; [done|]; rewrite !Nat.iter_succ, <- IH.
  generalize (Nat.iter m (fun v => foldl (fun v '(i, j, k, l) => qr_at i j k l v) v round_schedule) v); intros u.
  generalize round_schedule; intros sched; revert u; induction sched as [|[[[i j] k] l] sched IHs]; intros u; [done|].
  cbn [foldl]; by rewrite IHs, qr_at_lane.
Qed.

Lemma rd32le_eq (p : bytes) (off : nat) : sdb_rd32le p off = sdb_read_u32_le p off.
Proof.
  unfold sdb_rd32le, sdb_read_u32_le; symmetry; apply wrap_small.
  pose proof (u8_at_range p off); pose proof (u8_at_range p (off + 1)).
  repeat apply lor_range; try apply wrap_range; lia.
Qed.

Lemma wr32le_eq (p : bytes) (off : nat) (v : Z) : sdb_wr32le p off v = sdb_write_u32_le p off v.
Proof.
  unfold sdb_wr32le, sdb_write_u32_le, store_u8; cbn [seq fold_left]; rewrite !byte_of_Z_land.
  cbn [Z.of_nat Pos.of_succ_nat Pos.succ Z.mul Pos.mul]; by rewrite Z.shiftr_0_r, Nat.add_0_r.
Qed.

(** The registers hold the initial states of eight consecutive counters. *)
Lemma init_lane (key nonce : bytes) (counter : Z) (n : nat) :
  (n < 8)%nat ->
  lane_state (<[12%nat := mm256_add_epi32 (mm256_set1_epi32 counter) (mm256_setr_epi32 [0; 1; 2; 3; 4; 5; 6; 7])]>
                (chacha8_init key nonce)) n
  = sdb_chacha_state key (wrap 32 (counter + Z.of_nat n)) nonce.
Proof.
  intros Hn; rewrite lane_state_insert; unfold mm256_add_epi32; rewrite lane_lanes by done.
  unfold mm256_set1_epi32, mm256_setr_epi32 at 1; rewrite !lane_lanes by done.
  unfold lane_state, chacha8_init, sdb_chacha_state, chacha_constants; cbn [fmap list_fmap seq app insert list_insert].
  unfold mm256_set1_epi32; rewrite !lane_lanes, !rd32le_eq by done.
  do 13 f_equal; f_equal; do 8 (destruct n as [|n]; [done|]); lia.
Qed.

Lemma keystream_lane (key nonce : bytes) (counter : Z) (n : nat) :
  (n < 8)%nat ->
  chacha8_keystream (chacha8_words (chacha8_init key nonce) counter) n
  = sdb_chacha_block key (wrap 32 (counter + Z.of_nat n)) nonce.
Proof.
  intros Hn; unfold chacha8_keystream, sdb_chacha_block, chacha8_words.
  set (init := <[12%nat := _]> _); set (v := Nat.iter 10 _ _).
  rewrite <- init_lane by done; fold init; rewrite <- rounds_lane by done; fold v.
  assert (Hf : forall l out, Forall (fun i => (i < 16)%nat) l ->
    foldl (fun keystream i => sdb_wr32le keystream (i * 4)
      (lane (vreg ((fun i => mm256_add_epi32 (vreg v i) (vreg init i)) <$> seq 0 16) i) n)) out l
    = foldl (fun output index => sdb_write_u32_le output (index * 4)
        (wrap 32 (word (lane_state v n) index + word (lane_state init n) index))) out l).
  { induction l as [|i l IH]; intros out Hl; [done|]; apply Forall_cons_iff in Hl as [Hi Hl]; cbn [foldl].
    rewrite IH by done; f_equal; rewrite wr32le_eq; f_equal; unfold vreg at 1.
    rewrite nth_fmap_seq by done; unfold mm256_add_epi32; by rewrite lane_lanes, !lane_vreg. }
  apply Hf, List.Forall_forall; intros i Hi; apply in_seq in Hi; lia.
Qed.

(** ** The stream *)

(** RFC 8439, section 2.4: [n] keystream blocks from [counter] on. *)
Fixpoint chacha20_stream (n : nat) (key nonce : bytes) (counter : Z) : bytes :=
  match n with
  | O => []
  | S n => sdb_chacha_block key counter nonce ++ chacha20_stream n key nonce (counter + 1)
  end.

Definition blocks_of (size : nat) : nat := ((size + 63) / 64)%nat.

Definition chacha20_reference (key nonce : bytes) (counter : Z) (input : bytes) : bytes :=
  xor_bytes input (chacha20_stream (blocks_of (length input)) key nonce counter).

Lemma length_block (key nonce : bytes) (counter : Z) : length (sdb_chacha_block key counter nonce) = 64%nat.
Proof.
  unfold sdb_chacha_block; set (f := fun output index => _); assert (H : forall l out, length (foldl f out l) = length out).
  { induction l as [|i l IH]; intros out; [done|]; cbn [foldl]; rewrite IH; unfold f; apply length_write_u32. }
  rewrite H; apply length_zeros.
Qed.

Lemma length_xor_bytes (a b : bytes) : (length a <= length b)%nat -> length (xor_bytes a b) = length a.
Proof. intros H; unfold xor_bytes; rewrite length_zip_with_l; done. Qed.

Lemma xor_bytes_app (a a' b b' : bytes) :
  length a = length b -> xor_bytes (a ++ a') (b ++ b') = xor_bytes a b ++ xor_bytes a' b'.
Proof. intros H; by apply zip_with_app. Qed.

Lemma xor_bytes_short (a b c : bytes) : (length a <= length b)%nat -> xor_bytes a (b ++ c) = xor_bytes a b.
Proof.
  revert b; induction a as [|x a IH]; intros [|y b] H; cbn in H |- *; [by destruct c|done|lia|].
  f_equal; apply IH; lia.
Qed.

Lemma xor_bytes_involutive (a b : bytes) : (length a <= length b)%nat -> xor_bytes (xor_bytes a b) b = a.
Proof.
  revert b; induction a as [|x a IH]; intros [|y b] H; cbn in H |- *; [done|done|lia|].
  unfold xor_bytes in IH; rewrite IH by lia; f_equal; apply byte.unsigned_inj.
  assert (Hr : forall z, 0 <= Z.lxor (byte.unsigned z) (byte.unsigned y) < 256).
  { intros z; pose proof (byte_range z); pose proof (byte_range y); split; [apply Z.lxor_nonneg; lia|].
    destruct (decide (Z.lxor (byte.unsigned z) (byte.unsigned y) = 0)); [lia|].
    apply Z.log2_lt_cancel; eapply Z.le_lt_trans; [apply Z.log2_lxor; lia|].
    apply Z.max_lub_lt; apply (Z.le_lt_trans _ 7); try apply (Z.log2_le_mono _ 255); cbn; lia. }
  rewrite (byte_of_Z_small (Z.lxor (byte.unsigned x) _)) by apply Hr.
  rewrite Z.lxor_assoc, Z.lxor_nilpotent, Z.lxor_0_r; rewrite byte_of_Z_small; [done|apply byte_range].
Qed.

Lemma blocks_of_step (n : nat) : (64 <= n)%nat -> blocks_of n = S (blocks_of (n - 64)).
Proof.
  intros H; unfold blocks_of; replace (n + 63)%nat with (1 * 64 + (n - 64 + 63))%nat by lia.
  by rewrite Nat.div_add_l by lia.
Qed.

Lemma blocks_of_small (n : nat) : (0 < n < 64)%nat -> blocks_of n = 1%nat.
Proof. intros H; unfold blocks_of; symmetry; apply (Nat.div_unique _ _ _ (n - 1)); lia. Qed.

Lemma length_stream (n : nat) (key nonce : bytes) :
  forall counter, length (chacha20_stream n key nonce counter) = (64 * n)%nat.
Proof. induction n as [|n IH]; intros c; [done|]; cbn [chacha20_stream]; rewrite length_app, length_block, IH; lia. Qed.

Lemma blocks_of_bound (n : nat) : (n <= 64 * blocks_of n < n + 64)%nat.
Proof.
  unfold blocks_of; pose proof (Nat.div_mod (n + 63) 64 ltac:(lia)).
  pose proof (Nat.mod_upper_bound (n + 63) 64 ltac:(lia)); lia.
Qed.

(** The scalar loop is the reference as long as the counter stays in range. *)
Lemma xor_loop_reference (key nonce : bytes) :
  forall fuel counter input, (length input <= fuel)%nat -> 0 <= counter ->
  counter + Z.of_nat (blocks_of (length input)) <= 2 ^ 32 ->
  chacha_xor_loop fuel key nonce counter input = chacha20_reference key nonce counter input.
Proof.
  induction fuel as [|fuel IH]; intros counter input Hf Hc Hb.
  { destruct input; [done|cbn in Hf; lia]. }
  destruct input as [|x input]; [done|]; set (l := x :: input) in *; assert (Hl : (0 < length l)%nat) by (cbn; lia).
  change (chacha_xor_loop (S fuel) key nonce counter l) with
    (let n := if bool_decide (length l < 64)%nat then length l else 64%nat in
     xor_bytes (take n l) (take n (sdb_chacha_block key counter nonce))
     ++ chacha_xor_loop fuel key nonce (wrap 32 (counter + 1)) (drop n l)).
  clearbody l; cbv zeta; unfold chacha20_reference; case_bool_decide as Hlt.
  - rewrite blocks_of_small by lia; cbn [chacha20_stream]; rewrite app_nil_r, firstn_all, drop_all.
    rewrite <- (take_drop (length l) (sdb_chacha_block key counter nonce)) at 2.
    rewrite xor_bytes_short by (rewrite length_take, length_block; lia).
    by destruct fuel; cbn [chacha_xor_loop]; rewrite app_nil_r.
  - rewrite blocks_of_step in Hb |- * by lia; cbn [chacha20_stream]; rewrite <- (take_drop 64 l) at 3.
    rewrite xor_bytes_app by (rewrite length_take, length_block; lia).
    rewrite (firstn_all2 (sdb_chacha_block key counter nonce)) by (rewrite length_block; done).
    f_equal; pose proof (blocks_of_bound (length l - 64)).
    destruct (decide (length (drop 64 l) = 0%nat)) as [E|E].
    { apply length_zero_iff_nil in E; rewrite E; by destruct fuel. }
    rewrite length_drop in E; rewrite wrap_small by lia; rewrite IH; rewrite ?length_drop; try lia.
    unfold chacha20_reference; by rewrite length_drop.
Qed.

Lemma stream_app (n m : nat) (key nonce : bytes) :
  forall counter, chacha20_stream (n + m) key nonce counter
    = chacha20_stream n key nonce counter ++ chacha20_stream m key nonce (counter + Z.of_nat n).
Proof.
  induction n as [|n IH]; intros c; cbn [Nat.add chacha20_stream app]; [f_equal; lia|].
  rewrite IH, <- app_assoc; do 3 f_equal; lia.
Qed.

(** A reference stream splits at a block boundary. *)
Lemma reference_app (key nonce : bytes) (counter : Z) (a b : bytes) (k : nat) :
  length a = (64 * k)%nat ->
  chacha20_reference key nonce counter (a ++ b)
    = chacha20_reference key nonce counter a ++ chacha20_reference key nonce (counter + Z.of_nat k) b.
Proof.
  intros Ha; unfold chacha20_reference.
  assert (Eb : blocks_of (length (a ++ b)) = (k + blocks_of (length b))%nat).
  { unfold blocks_of; rewrite length_app, Ha; replace (64 * k + length b + 63)%nat with (k * 64 + (length b + 63))%nat by lia.
    by rewrite Nat.div_add_l by lia. }
  assert (Ea : blocks_of (length a) = k) by (unfold blocks_of; rewrite Ha; symmetry; apply (Nat.div_unique _ _ _ 63); lia).
  rewrite Eb, Ea, stream_app; apply xor_bytes_app; by rewrite length_stream.
Qed.

Lemma group_reference (key nonce : bytes) (counter : Z) (input : bytes) :
  0 <= counter -> counter + 8 <= 2 ^ 32 -> length input = 512%nat ->
  chacha8_group (chacha8_init key nonce) counter input = chacha20_reference key nonce counter input.
Proof.
  intros Hc Hb Hl; unfold chacha8_group.
  assert (Hj : forall k, (k <= 8)%nat ->
    mjoin ((fun j => xor_bytes (slice input (j * 64) 64) (chacha8_keystream (chacha8_words (chacha8_init key nonce) counter) j))
      <$> seq 0 k) = chacha20_reference key nonce counter (take (64 * k) input)).
  { induction k as [|k IH]; intros Hk; [done|]; rewrite seq_S, fmap_app, join_app, IH by lia; cbn [fmap list_fmap mjoin list_join].
    rewrite app_nil_r, keystream_lane, wrap_small by lia; cbn [Nat.add].
    replace (64 * S k)%nat with (64 * k + 64)%nat by lia; rewrite <- take_take_drop.
    rewrite (reference_app key nonce counter (take (64 * k) input) _ k) by (rewrite length_take; lia); f_equal.
    assert (El : length (slice input (k * 64) 64) = 64%nat) by (apply length_slice; lia).
    replace (64 * k)%nat with (k * 64)%nat by lia; fold (slice input (k * 64) 64).
    unfold chacha20_reference; rewrite El; cbn [blocks_of Nat.div Nat.divmod Nat.add fst chacha20_stream].
    change (blocks_of 64) with 1%nat; cbn [chacha20_stream]; by rewrite app_nil_r. }
  rewrite (Hj 8%nat) by lia; rewrite firstn_all2 by lia; done.
Qed.

Lemma length_reference (key nonce : bytes) (counter : Z) (input : bytes) :
  length (chacha20_reference key nonce counter input) = length input.
Proof. apply length_xor_bytes; rewrite length_stream; apply blocks_of_bound. Qed.

Lemma groups_reference (key nonce : bytes) :
  forall groups counter input, 0 <= counter -> counter + 8 * Z.of_nat groups <= 2 ^ 32 -> length input = (512 * groups)%nat ->
  chacha8_groups (chacha8_init key nonce) counter input groups = chacha20_reference key nonce counter input.
Proof.
  induction groups as [|groups IH]; intros counter input Hc Hb Hl; cbn [chacha8_groups].
  { by rewrite (nil_length_inv input) by lia. }
  rewrite group_reference by (rewrite ?length_take; lia).
  rewrite <- (take_drop 512 input) at 3; rewrite (reference_app _ _ _ _ _ 8) by (rewrite length_take; lia); f_equal.
  destruct groups as [|groups]; [by rewrite (nil_length_inv (drop 512 input)) by (rewrite length_drop; lia)|].
  rewrite wrap_small by lia; apply IH; rewrite ?length_drop; lia.
Qed.

Lemma chacha_xor_reference (avx2 : bool) (key nonce : bytes) (counter : Z) (input : bytes) :
  0 <= counter -> counter + Z.of_nat (blocks_of (length input)) <= 2 ^ 32 ->
  sdb_chacha_xor avx2 key nonce counter input = chacha20_reference key nonce counter input.
Proof.
  intros Hc Hb; unfold sdb_chacha_xor; destruct (bool_decide _ && avx2) eqn:E; [|by apply xor_loop_reference].
  bool_hyps; set (groups := (length input / 512)%nat).
  assert (Hg : (512 * groups <= length input < 512 * groups + 512)%nat).
  { pose proof (Nat.div_mod (length input) 512 ltac:(lia)); pose proof (Nat.mod_upper_bound (length input) 512 ltac:(lia)).
    unfold groups; lia. }
  pose proof (blocks_of_bound (length input)).
  unfold sdb_chacha8_xor; rewrite groups_reference by (rewrite ?length_take; lia).
  rewrite <- (take_drop (groups * 512) input) at 4; rewrite (reference_app _ _ _ _ _ (8 * groups)) by (rewrite length_take; lia).
  f_equal; destruct (decide (length input = groups * 512)%nat) as [El|El].
  { rewrite (nil_length_inv (drop (groups * 512) input)) by (rewrite length_drop; lia); by destruct (_ - _)%nat. }
  assert (Hbd : (blocks_of (length input - groups * 512) + 8 * groups = blocks_of (length input))%nat).
  { unfold blocks_of; replace (length input + 63)%nat with (8 * groups * 64 + (length input - groups * 512 + 63))%nat by lia.
    rewrite Nat.div_add_l by lia; lia. }
  pose proof (blocks_of_bound (length input - groups * 512)).
  rewrite (wrap_small 32 (Z.of_nat groups * 8)), wrap_small by lia; rewrite xor_loop_reference; rewrite ?length_drop; try lia.
  f_equal; lia.
Qed.


(** RFC 8439, 2.3.2: the block function. *)
Example chacha_block_vector :
  take 16 (sdb_chacha_block (byte.of_Z <$> seqZ 0 32) 1 (byte.of_Z <$> [0; 0; 0; 9; 0; 0; 0; 74; 0; 0; 0; 0]))
  = byte.of_Z <$> [16; 241; 231; 228; 209; 59; 89; 21; 80; 15; 221; 31; 163; 32; 113; 196].
Proof. vm_compute; reflexivity. Qed.

