(* ===== verification/Poly1305.v ===== *)
(** * Poly1305 ([src/xchacha20poly1305.c])

    The authenticator with its five 26-bit limbs, the streaming update and the
    final reduction.  The arithmetic keeps the widths of the code: 32-bit limbs,
    64-bit products.  The theorem: no product or carry overflows its width, and
    absorbing a message in any sequence of updates yields the tag of RFC 8439,
    computed modulo [2 ^ 130 - 5]. *)

From S2P Require Import Prelude Status Codec.

Record limbs := { l0 : Z; l1 : Z; l2 : Z; l3 : Z; l4 : Z }.

Record sdb_poly1305 := {
  po_r : limbs;
  po_h : limbs;
  po_pad : list Z;
  po_buffer : bytes;
  po_buffered : nat
}.

Definition mask26 : Z := 67108863.

(** ** The code *)

(** The limbs of a 16-byte block. *)
Definition load_limbs (message : bytes) (high_bit : Z) : limbs :=
  {| l0 := Z.land (sdb_read_u32_le message 0) mask26;
     l1 := Z.land (Z.shiftr (sdb_read_u32_le message 3) 2) mask26;
     l2 := Z.land (Z.shiftr (sdb_read_u32_le message 6) 4) mask26;
     l3 := Z.land (Z.shiftr (sdb_read_u32_le message 9) 6) mask26;
     l4 := Z.lor (Z.shiftr (sdb_read_u32_le message 12) 8) high_bit |}.

(** [h += message], 32 bits each. *)
Definition poly_add (h m : limbs) : limbs :=
  {| l0 := wrap 32 (l0 h + l0 m); l1 := wrap 32 (l1 h + l1 m); l2 := wrap 32 (l2 h + l2 m);
     l3 := wrap 32 (l3 h + l3 m); l4 := wrap 32 (l4 h + l4 m) |}.

(** The five 64-bit sums of products. *)
Definition poly_mul (h r : limbs) : limbs :=
  let s1 := wrap 32 (l1 r * 5) in
  let s2 := wrap 32 (l2 r * 5) in
  let s3 := wrap 32 (l3 r * 5) in
  let s4 := wrap 32 (l4 r * 5) in
  {| l0 := wrap 64 (l0 h * l0 r + l1 h * s4 + l2 h * s3 + l3 h * s2 + l4 h * s1);
     l1 := wrap 64 (l0 h * l1 r + l1 h * l0 r + l2 h * s4 + l3 h * s3 + l4 h * s2);
     l2 := wrap 64 (l0 h * l2 r + l1 h * l1 r + l2 h * l0 r + l3 h * s4 + l4 h * s3);
     l3 := wrap 64 (l0 h * l3 r + l1 h * l2 r + l2 h * l1 r + l3 h * l0 r + l4 h * s4);
     l4 := wrap 64 (l0 h * l4 r + l1 h * l3 r + l2 h * l2 r + l3 h * l1 r + l4 h * l0 r) |}.

(** The carries from [d0] to [d4] and back into [h0] and [h1]. *)
Definition poly_propagate (d : limbs) : limbs :=
  let carry := wrap 32 (Z.shiftr (l0 d) 26) in
  let h0 := Z.land (wrap 32 (l0 d)) mask26 in
  let d1 := wrap 64 (l1 d + carry) in
  let carry := wrap 32 (Z.shiftr d1 26) in
  let h1 := Z.land (wrap 32 d1) mask26 in
  let d2 := wrap 64 (l2 d + carry) in
  let carry := wrap 32 (Z.shiftr d2 26) in
  let h2 := Z.land (wrap 32 d2) mask26 in
  let d3 := wrap 64 (l3 d + carry) in
  let carry := wrap 32 (Z.shiftr d3 26) in
  let h3 := Z.land (wrap 32 d3) mask26 in
  let d4 := wrap 64 (l4 d + carry) in
  let carry := wrap 32 (Z.shiftr d4 26) in
  let h4 := Z.land (wrap 32 d4) mask26 in
  let h0 := wrap 32 (h0 + wrap 32 (carry * 5)) in
  let carry := Z.shiftr h0 26 in
  let h0 := Z.land h0 mask26 in
  let h1 := wrap 32 (h1 + carry) in
  {| l0 := h0; l1 := h1; l2 := h2; l3 := h3; l4 := h4 |}.

(** One iteration of the block loop. *)
Definition poly_block (r h : limbs) (message : bytes) (high_bit : Z) : limbs :=
  poly_propagate (poly_mul (poly_add h (load_limbs message high_bit)) r).

(** [while (size >= 16)] over [n] blocks. *)
Fixpoint poly_blocks_loop (n : nat) (r h : limbs) (message : bytes) (high_bit : Z) : limbs :=
  match n with
  | O => h
  | S n => poly_blocks_loop n r (poly_block r h message high_bit) (drop 16 message) high_bit
  end.

Definition set_h (c : sdb_poly1305) (h : limbs) : sdb_poly1305 :=
  {| po_r := po_r c; po_h := h; po_pad := po_pad c; po_buffer := po_buffer c; po_buffered := po_buffered c |}.

Definition set_buffer (c : sdb_poly1305) (buffer : bytes) (buffered : nat) : sdb_poly1305 :=
  {| po_r := po_r c; po_h := po_h c; po_pad := po_pad c; po_buffer := buffer; po_buffered := buffered |}.

Definition sdb_poly1305_blocks (c : sdb_poly1305) (message : bytes) (size : nat) (high_bit : Z) : sdb_poly1305 :=
  set_h c (poly_blocks_loop (size / 16) (po_r c) (po_h c) message high_bit).

Definition sdb_poly1305_init (key : bytes) : sdb_poly1305 :=
  {| po_r := {| l0 := Z.land (sdb_read_u32_le key 0) mask26;
                l1 := Z.land (Z.shiftr (sdb_read_u32_le key 3) 2) 67108611;
                l2 := Z.land (Z.shiftr (sdb_read_u32_le key 6) 4) 67092735;
                l3 := Z.land (Z.shiftr (sdb_read_u32_le key 9) 6) 66076671;
                l4 := Z.land (Z.shiftr (sdb_read_u32_le key 12) 8) 1048575 |};
     po_h := {| l0 := 0; l1 := 0; l2 := 0; l3 := 0; l4 := 0 |};
     po_pad := [sdb_read_u32_le key 16; sdb_read_u32_le key 20; sdb_read_u32_le key 24; sdb_read_u32_le key 28];
     po_buffer := zeros 16; po_buffered := 0 |}.

Definition HIGH_BIT : Z := 16777216.

(** The part of the update that completes a started block. *)
Definition poly_fill (c : sdb_poly1305) (message : bytes) : sdb_poly1305 * bytes :=
  if bool_decide (po_buffered c = 0%nat) then (c, message)
  else
    let available := (16 - po_buffered c)%nat in
    let n := if bool_decide (length message < available)%nat then length message else available in
    let c := set_buffer c (memcpy_at (po_buffer c) (po_buffered c) (take n message)) (po_buffered c + n) in
    let c := if bool_decide (po_buffered c = 16%nat)
             then set_buffer (sdb_poly1305_blocks c (po_buffer c) 16 HIGH_BIT) (po_buffer c) 0
             else c in
    (c, drop n message).

Definition sdb_poly1305_update (c : sdb_poly1305) (message : bytes) : sdb_poly1305 :=
  let '(c, message) := poly_fill c message in
  let '(c, message) :=
    if bool_decide (16 <= length message)%nat
    then
      let full_size := (length message - length message mod 16)%nat in
      (sdb_poly1305_blocks c message full_size HIGH_BIT, drop full_size message)
    else (c, message) in
  if bool_decide (length message = 0%nat) then c
  else set_buffer c (memcpy_at (po_buffer c) 0 message) (length message).

(** The last carries. *)
Definition poly_carry (h : limbs) : limbs :=
  let carry := Z.shiftr (l1 h) 26 in
  let h1 := Z.land (l1 h) mask26 in
  let h2 := wrap 32 (l2 h + carry) in
  let carry := Z.shiftr h2 26 in
  let h2 := Z.land h2 mask26 in
  let h3 := wrap 32 (l3 h + carry) in
  let carry := Z.shiftr h3 26 in
  let h3 := Z.land h3 mask26 in
  let h4 := wrap 32 (l4 h + carry) in
  let carry := Z.shiftr h4 26 in
  let h4 := Z.land h4 mask26 in
  let h0 := wrap 32 (l0 h + wrap 32 (carry * 5)) in
  let carry := Z.shiftr h0 26 in
  let h0 := Z.land h0 mask26 in
  let h1 := wrap 32 (h1 + carry) in
  {| l0 := h0; l1 := h1; l2 := h2; l3 := h3; l4 := h4 |}.

(** [h + 5 - 2 ^ 130], selected by mask when it is not negative. *)
Definition poly_select (h : limbs) : limbs :=
  let g0 := wrap 32 (l0 h + 5) in
  let carry := Z.shiftr g0 26 in
  let g0 := Z.land g0 mask26 in
  let g1 := wrap 32 (l1 h + carry) in
  let carry := Z.shiftr g1 26 in
  let g1 := Z.land g1 mask26 in
  let g2 := wrap 32 (l2 h + carry) in
  let carry := Z.shiftr g2 26 in
  let g2 := Z.land g2 mask26 in
  let g3 := wrap 32 (l3 h + carry) in
  let carry := Z.shiftr g3 26 in
  let g3 := Z.land g3 mask26 in
  let g4 := wrap 32 (l4 h + carry - 67108864) in
  let mask := wrap 32 (Z.shiftr g4 31 - 1) in
  let nmask := UINT32_MAX - mask in
  {| l0 := Z.lor (Z.land (l0 h) nmask) (Z.land g0 mask);
     l1 := Z.lor (Z.land (l1 h) nmask) (Z.land g1 mask);
     l2 := Z.lor (Z.land (l2 h) nmask) (Z.land g2 mask);
     l3 := Z.lor (Z.land (l3 h) nmask) (Z.land g3 mask);
     l4 := Z.lor (Z.land (l4 h) nmask) (Z.land g4 mask) |}.

(** Adding the pad, 32 bits at a time. *)
Definition poly_tag (h : limbs) (pad : list Z) : bytes :=
  let tag := zeros 16 in
  let f := wrap 64 (Z.lor (l0 h) (wrap 32 (Z.shiftl (l1 h) 26)) + nth 0 pad 0) in
  let tag := sdb_write_u32_le tag 0 (wrap 32 f) in
  let f := wrap 64 (Z.lor (Z.shiftr (l1 h) 6) (wrap 32 (Z.shiftl (l2 h) 20)) + nth 1 pad 0 + Z.shiftr f 32) in
  let tag := sdb_write_u32_le tag 4 (wrap 32 f) in
  let f := wrap 64 (Z.lor (Z.shiftr (l2 h) 12) (wrap 32 (Z.shiftl (l3 h) 14)) + nth 2 pad 0 + Z.shiftr f 32) in
  let tag := sdb_write_u32_le tag 8 (wrap 32 f) in
  let f := wrap 64 (Z.lor (Z.shiftr (l3 h) 18) (wrap 32 (Z.shiftl (l4 h) 8)) + nth 3 pad 0 + Z.shiftr f 32) in
  sdb_write_u32_le tag 12 (wrap 32 f).

Definition sdb_poly1305_final (c : sdb_poly1305) : bytes :=
  let c := if bool_decide (po_buffered c = 0%nat) then c
           else
             let buffer := store_u8 (po_buffer c) (po_buffered c) 1 in
             let buffered := (po_buffered c + 1)%nat in
             let buffer := memcpy_at buffer buffered (zeros (16 - buffered)) in
             sdb_poly1305_blocks (set_buffer c buffer buffered) buffer 16 0 in
  poly_tag (poly_select (poly_carry (po_h c))) (po_pad c).

(** ** Reference: RFC 8439, section 2.5 *)

Definition P1305 : Z := 2 ^ 130 - 5.

(** The clamp of [r]. *)
Definition CLAMP : Z := 21267647620597763993911028882763415551.

Definition poly_step (r acc : Z) (block : bytes) : Z := ((acc + le_combine (block ++ [byte.of_Z 1])) * r) mod P1305.

(** Blocks of 16 bytes, the last one possibly shorter. *)
Fixpoint chunks16 (fuel : nat) (msg : bytes) : list bytes :=
  match fuel, msg with
  | S fuel, _ :: _ => take 16 msg :: chunks16 fuel (drop 16 msg)
  | _, _ => []
  end.

Definition poly1305_reference (key msg : bytes) : bytes :=
  let r := Z.land (le_combine (slice key 0 16)) CLAMP in
  let s := le_combine (slice key 16 16) in
  le_split 16 (foldl (poly_step r) 0 (chunks16 (length msg) msg) + s).

(** ** Words and limbs of a number *)

Definition limbs_val (l : limbs) : Z := l0 l + 2 ^ 26 * l1 l + 2 ^ 52 * l2 l + 2 ^ 78 * l3 l + 2 ^ 104 * l4 l.

Lemma le_combine_drop (k : nat) (b : bytes) : le_combine (drop k b) = Z.shiftr (le_combine b) (8 * Z.of_nat k).
Proof.
  revert b; induction k as [|k IH]; intros [|x b]; try done.
  { rewrite drop_nil; change (le_combine []) with 0; by rewrite Z.shiftr_0_l. }
  assert (E : Z.shiftr (le_combine (x :: b)) 8 = le_combine b).
  { change (le_combine (x :: b)) with (Z.lor (byte.unsigned x) (Z.shiftl (le_combine b) 8)); rewrite Z.shiftr_lor, Z.shiftr_shiftl_r, Z.sub_diag, Z.shiftr_0_r by lia.
    pose proof (byte_range x); rewrite Z.shiftr_div_pow2, Z.div_small by lia; by rewrite Z.lor_0_l. }
  cbn [drop]; rewrite IH, <- E, Z.shiftr_shiftr by lia; f_equal; lia.
Qed.

Lemma le_combine_slice (b : bytes) (off n : nat) :
  le_combine (slice b off n) = Z.shiftr (le_combine b) (8 * Z.of_nat off) mod 2 ^ (8 * Z.of_nat n).
Proof. unfold slice; rewrite <- le_combine_drop; apply le_combine_firstn. Qed.

Lemma land_mask26 (x : Z) : Z.land x mask26 = x mod 2 ^ 26.
Proof. apply (Z.land_ones x 26); lia. Qed.

Lemma wrap_land_mask26 (x : Z) : Z.land (wrap 32 x) mask26 = x mod 2 ^ 26.
Proof. rewrite land_mask26; unfold wrap; apply Z.mod_mod_divide; by exists 64. Qed.

(** ** One block *)

Definition r_ok (r : limbs) : Prop :=
  0 <= l0 r < 2 ^ 26 /\ 0 <= l1 r < 2 ^ 26 /\ 0 <= l2 r < 2 ^ 26 /\ 0 <= l3 r < 2 ^ 26 /\ 0 <= l4 r < 2 ^ 20.

Definition h_ok (h : limbs) : Prop :=
  0 <= l0 h < 2 ^ 26 /\ 0 <= l1 h < 2 ^ 26 + 64 /\ 0 <= l2 h < 2 ^ 26 /\ 0 <= l3 h < 2 ^ 26 /\ 0 <= l4 h < 2 ^ 26.

Definition m_ok (m : limbs) : Prop :=
  0 <= l0 m < 2 ^ 26 /\ 0 <= l1 m < 2 ^ 26 /\ 0 <= l2 m < 2 ^ 26 /\ 0 <= l3 m < 2 ^ 26 /\ 0 <= l4 m < 2 ^ 25.

Lemma mul_bound (x y a b : Z) : 0 <= x <= a -> 0 <= y <= b -> 0 <= x * y <= a * b.
Proof. nia. Qed.

Lemma sum5_bound (a b c d e A B C D E T : Z) :
  0 <= a <= A -> 0 <= b <= B -> 0 <= c <= C -> 0 <= d <= D -> 0 <= e <= E -> A + B + C + D + E < T ->
  0 <= a + b + c + d + e < T.
Proof. lia. Qed.

Ltac sum_bound A B C D E := apply (sum5_bound _ _ _ _ _ A B C D E); [apply mul_bound; lia..|by vm_compute].

(** The five sums stay far below 64 bits. *)
Lemma sums_bound (r h : limbs) :
  r_ok r ->
  0 <= l0 h < 2 ^ 27 + 64 -> 0 <= l1 h < 2 ^ 27 + 64 -> 0 <= l2 h < 2 ^ 27 + 64 -> 0 <= l3 h < 2 ^ 27 + 64 ->
  0 <= l4 h < 2 ^ 26 + 2 ^ 25 ->
  0 <= l0 h * l0 r + l1 h * (l4 r * 5) + l2 h * (l3 r * 5) + l3 h * (l2 r * 5) + l4 h * (l1 r * 5) < 2 ^ 57
  /\ 0 <= l0 h * l1 r + l1 h * l0 r + l2 h * (l4 r * 5) + l3 h * (l3 r * 5) + l4 h * (l2 r * 5) < 2 ^ 57
  /\ 0 <= l0 h * l2 r + l1 h * l1 r + l2 h * l0 r + l3 h * (l4 r * 5) + l4 h * (l3 r * 5) < 2 ^ 57
  /\ 0 <= l0 h * l3 r + l1 h * l2 r + l2 h * l1 r + l3 h * l0 r + l4 h * (l4 r * 5) < 2 ^ 57
  /\ 0 <= l0 h * l4 r + l1 h * l3 r + l2 h * l2 r + l3 h * l1 r + l4 h * l0 r < 2 ^ 55 - 2 ^ 32.
Proof.
  intros (R0&R1&R2&R3&R4) H0 H1 H2 H3 H4; pose (B := 2 ^ 27 + 63); pose (C := 2 ^ 26 + 2 ^ 25 - 1).
  pose (M := 2 ^ 26 - 1); pose (N := 2 ^ 20 - 1).
  split; [|split; [|split; [|split]]].
  - sum_bound (B * M) (B * (N * 5)) (B * (M * 5)) (B * (M * 5)) (C * (M * 5)).
  - sum_bound (B * M) (B * M) (B * (N * 5)) (B * (M * 5)) (C * (M * 5)).
  - sum_bound (B * M) (B * M) (B * M) (B * (N * 5)) (C * (M * 5)).
  - sum_bound (B * M) (B * M) (B * M) (B * M) (C * (N * 5)).
  - sum_bound (B * N) (B * M) (B * M) (B * M) (C * M).
Qed.

(** A 64-bit sum splits into a limb and a carry. *)
Lemma carry_split (d : Z) :
  0 <= d < 2 ^ 58 ->
  exists q m, wrap 32 (Z.shiftr d 26) = q /\ Z.land (wrap 32 d) mask26 = m /\ d = q * 2 ^ 26 + m
              /\ 0 <= m < 2 ^ 26 /\ 0 <= q < 2 ^ 32.
Proof.
  intros Hd; exists (d / 2 ^ 26), (d mod 2 ^ 26).
  assert (0 <= d / 2 ^ 26 < 2 ^ 32) by (split; [apply Z.div_pos|apply Z.div_lt_upper_bound]; lia).
  pose proof (Z.div_mod d (2 ^ 26) ltac:(lia)); pose proof (Z.mod_pos_bound d (2 ^ 26) ltac:(lia)).
  rewrite wrap_land_mask26, Z.shiftr_div_pow2, wrap_small by lia; lia.
Qed.

Lemma carry_split32 (x : Z) :
  0 <= x < 2 ^ 32 ->
  exists q m, Z.shiftr x 26 = q /\ Z.land x mask26 = m /\ x = q * 2 ^ 26 + m /\ 0 <= m < 2 ^ 26 /\ 0 <= q < 64.
Proof.
  intros Hd; exists (x / 2 ^ 26), (x mod 2 ^ 26).
  assert (0 <= x / 2 ^ 26 < 64) by (split; [apply Z.div_pos|apply Z.div_lt_upper_bound]; lia).
  pose proof (Z.div_mod x (2 ^ 26) ltac:(lia)); pose proof (Z.mod_pos_bound x (2 ^ 26) ltac:(lia)).
  rewrite land_mask26, Z.shiftr_div_pow2 by lia; lia.
Qed.

Definition d_ok (d : limbs) : Prop :=
  0 <= l0 d < 2 ^ 57 /\ 0 <= l1 d < 2 ^ 57 /\ 0 <= l2 d < 2 ^ 57 /\ 0 <= l3 d < 2 ^ 57 /\ 0 <= l4 d < 2 ^ 55 - 2 ^ 32.

Lemma propagate_spec (d : limbs) :
  d_ok d -> h_ok (poly_propagate d) /\ exists k, limbs_val (poly_propagate d) = limbs_val d - k * P1305.
Proof.
  intros (?&?&?&?&?); unfold poly_propagate.
  destruct (carry_split (l0 d)) as (q0&m0&Q0&M0&S0&?&?); [lia|].
  destruct (carry_split (l1 d + q0)) as (q1&m1&Q1&M1&S1&?&?); [lia|].
  destruct (carry_split (l2 d + q1)) as (q2&m2&Q2&M2&S2&?&?); [lia|].
  destruct (carry_split (l3 d + q2)) as (q3&m3&Q3&M3&S3&?&?); [lia|].
  destruct (carry_split (l4 d + q3)) as (q4&m4&Q4&M4&S4&?&?); [lia|].
  cbv zeta; rewrite Q0, M0, (wrap_small 64 (_ + q0)), Q1, M1, (wrap_small 64 (_ + q1)), Q2, M2 by lia.
  rewrite (wrap_small 64 (_ + q2)), Q3, M3, (wrap_small 64 (_ + q3)), Q4, M4 by lia.
  rewrite (wrap_small 32 (q4 * 5)), (wrap_small 32 (m0 + _)) by lia.
  destruct (carry_split32 (m0 + q4 * 5)) as (q5&m5&->&->&S5&?&?); [lia|]; rewrite (wrap_small 32 (m1 + _)) by lia.
  split; [unfold h_ok; cbn [l0 l1 l2 l3 l4]; lia|].
  exists q4; unfold limbs_val, P1305; cbn [l0 l1 l2 l3 l4]; lia.
Qed.

Lemma poly_block_spec (r h : limbs) (message : bytes) (hb : Z) :
  r_ok r -> h_ok h -> m_ok (load_limbs message hb) ->
  h_ok (poly_block r h message hb)
  /\ exists k, limbs_val (poly_block r h message hb)
             = (limbs_val h + limbs_val (load_limbs message hb)) * limbs_val r - k * P1305.
Proof.
  unfold poly_block; generalize (load_limbs message hb); intros m Hr (?&?&?&?&?) (?&?&?&?&?).
  replace (limbs_val h + limbs_val m) with (limbs_val (poly_add h m)).
  2: { unfold poly_add, limbs_val; cbn [l0 l1 l2 l3 l4]; rewrite !(wrap_small 32) by lia; ring. }
  assert (Ha : 0 <= l0 (poly_add h m) < 2 ^ 27 + 64 /\ 0 <= l1 (poly_add h m) < 2 ^ 27 + 64
    /\ 0 <= l2 (poly_add h m) < 2 ^ 27 + 64 /\ 0 <= l3 (poly_add h m) < 2 ^ 27 + 64 /\ 0 <= l4 (poly_add h m) < 2 ^ 26 + 2 ^ 25).
  { unfold poly_add; cbn [l0 l1 l2 l3 l4]; rewrite !(wrap_small 32) by lia; lia. }
  generalize dependent (poly_add h m); intros s (?&?&?&?&?).
  destruct (sums_bound r s Hr) as (D0&D1&D2&D3&D4); [done..|].
  destruct Hr as (?&?&?&?&?).
  assert (Hd : d_ok (poly_mul s r) /\ exists k, limbs_val (poly_mul s r) = limbs_val s * limbs_val r - k * P1305).
  { unfold poly_mul, d_ok, limbs_val; cbn [l0 l1 l2 l3 l4]; rewrite !(wrap_small 32), !(wrap_small 64) by lia.
    split; [done|].
    exists (l1 s * l4 r + l2 s * l3 r + l3 s * l2 r + l4 s * l1 r + (l2 s * l4 r + l3 s * l3 r + l4 s * l2 r) * 2 ^ 26
      + (l3 s * l4 r + l4 s * l3 r) * 2 ^ 52 + l4 s * l4 r * 2 ^ 78).
    unfold P1305; ring. }
  destruct Hd as [Hd (k & Ek)], (propagate_spec _ Hd) as [Hp (k' & Ek')].
  split; [done|]; exists (k + k'); rewrite Ek', Ek; ring.
Qed.

(** ** The final reduction *)

Definition reduced (h : limbs) : Prop :=
  0 <= l0 h < 2 ^ 26 /\ 0 <= l1 h < 2 ^ 26 /\ 0 <= l2 h < 2 ^ 26 /\ 0 <= l3 h < 2 ^ 26 /\ 0 <= l4 h < 2 ^ 26.

Lemma poly_carry_spec (h : limbs) :
  h_ok h -> reduced (poly_carry h) /\ exists k, limbs_val (poly_carry h) = limbs_val h - k * P1305.
Proof.
  intros (?&?&?&?&?); unfold poly_carry.
  destruct (carry_split32 (l1 h)) as (q1&m1&Q1&M1&S1&?&?); [lia|].
  destruct (carry_split32 (l2 h + q1)) as (q2&m2&Q2&M2&S2&?&?); [lia|].
  destruct (carry_split32 (l3 h + q2)) as (q3&m3&Q3&M3&S3&?&?); [lia|].
  destruct (carry_split32 (l4 h + q3)) as (q4&m4&Q4&M4&S4&?&?); [lia|].
  cbv zeta; rewrite Q1, M1, (wrap_small 32 (_ + q1)), Q2, M2, (wrap_small 32 (_ + q2)), Q3, M3 by lia.
  rewrite (wrap_small 32 (_ + q3)), Q4, M4, (wrap_small 32 (q4 * 5)), (wrap_small 32 (_ + _ * 5)) by lia.
  destruct (carry_split32 (l0 h + q4 * 5)) as (q0&m0&->&->&S0&?&?); [lia|]; rewrite (wrap_small 32 (m1 + _)) by lia.
  split; [unfold reduced; cbn [l0 l1 l2 l3 l4]; lia|].
  exists q4; unfold limbs_val, P1305; cbn [l0 l1 l2 l3 l4]; lia.
Qed.

Lemma limbs_val_bound (h : limbs) : reduced h -> 0 <= limbs_val h < 2 ^ 130.
Proof. unfold reduced, limbs_val; lia. Qed.

Lemma land_all_ones (x : Z) : 0 <= x < 2 ^ 32 -> Z.land x UINT32_MAX = x.
Proof. intros; change UINT32_MAX with (Z.ones 32); rewrite Z.land_ones by lia; apply Z.mod_small; lia. Qed.

Lemma poly_select_spec (h : limbs) :
  reduced h -> reduced (poly_select h) /\ limbs_val (poly_select h) = limbs_val h mod P1305.
Proof.
  intros Hr; pose proof (limbs_val_bound h Hr) as Hv; destruct Hr as (?&?&?&?&?); unfold poly_select.
  destruct (carry_split32 (l0 h + 5)) as (q0&m0&Q0&M0&S0&?&?); [lia|].
  destruct (carry_split32 (l1 h + q0)) as (q1&m1&Q1&M1&S1&?&?); [lia|].
  destruct (carry_split32 (l2 h + q1)) as (q2&m2&Q2&M2&S2&?&?); [lia|].
  destruct (carry_split32 (l3 h + q2)) as (q3&m3&Q3&M3&S3&?&?); [lia|].
  cbv zeta; rewrite (wrap_small 32 (_ + 5)), Q0, M0, (wrap_small 32 (_ + q0)), Q1, M1, (wrap_small 32 (_ + q1)), Q2, M2 by lia.
  rewrite (wrap_small 32 (_ + q2)), Q3, M3 by lia.
  assert (Ev : limbs_val h + 5 = m0 + 2 ^ 26 * m1 + 2 ^ 52 * m2 + 2 ^ 78 * m3 + 2 ^ 104 * (l4 h + q3)) by (unfold limbs_val; lia).
  destruct (decide (2 ^ 26 <= l4 h + q3)).
  - rewrite (wrap_small 32 (_ - 67108864)) by lia.
    rewrite (Z.shiftr_div_pow2 _ 31), (Z.div_small (_ - _)) by lia; change (wrap 32 (0 - 1)) with UINT32_MAX.
    rewrite Z.sub_diag, !Z.land_0_r, !Z.lor_0_l, !land_all_ones by lia.
    split; [unfold reduced; cbn [l0 l1 l2 l3 l4]; lia|].
    rewrite <- (Z.mod_add _ (-1)) by done; rewrite Z.mod_small; unfold P1305; unfold limbs_val at 1; cbn [l0 l1 l2 l3 l4]; lia.
  - replace (wrap 32 (_ - 67108864)) with (l4 h + q3 - 67108864 + 2 ^ 32).
    2: { unfold wrap; rewrite <- (Z.mod_add _ 1) by done; rewrite Z.mod_small; lia. }
    replace (Z.shiftr _ 31) with 1.
    2: { rewrite Z.shiftr_div_pow2 by lia; apply (Z.div_unique _ _ _ (l4 h + q3 - 67108864 + 2 ^ 31)); lia. }
    change (wrap 32 (1 - 1)) with 0; rewrite !Z.land_0_r, !Z.lor_0_r, Z.sub_0_r, !land_all_ones by lia.
    split; [done|]; rewrite Z.mod_small by (unfold P1305; lia); by destruct h.
Qed.

(** ** The tag *)

Lemma lor_add (a b k : Z) : 0 <= k -> 0 <= a < 2 ^ k -> Z.lor a (b * 2 ^ k) = a + b * 2 ^ k.
Proof.
  intros Hk Ha; symmetry; apply Z.add_nocarry_lor; rewrite <- Z.shiftl_mul_pow2 by lia.
  apply Z.bits_inj'; intros i Hi; rewrite Z.land_spec, Z.bits_0; destruct (decide (i < k)).
  - by rewrite (Z.shiftl_spec_low b), andb_false_r.
  - rewrite <- (Z.mod_small a (2 ^ k)) by lia; by rewrite Z.mod_pow2_bits_high by lia.
Qed.

Lemma word_join (a b k : Z) :
  0 <= k <= 32 -> 0 <= a < 2 ^ k -> Z.lor a (wrap 32 (Z.shiftl b k)) = a + (b mod 2 ^ (32 - k)) * 2 ^ k.
Proof.
  intros Hk Ha; unfold wrap; rewrite Z.shiftl_mul_pow2 by lia.
  replace (2 ^ 32) with (2 ^ (32 - k) * 2 ^ k) by (rewrite <- Z.pow_add_r by lia; f_equal; lia).
  pose proof (Z.pow_pos_nonneg 2 (32 - k)); pose proof (Z.pow_pos_nonneg 2 k).
  rewrite Z.mul_mod_distr_r by lia; apply lor_add; lia.
Qed.

Lemma le_split_app (n m : nat) (v : Z) : le_split (n + m) v = le_split n v ++ le_split m (Z.shiftr v (8 * Z.of_nat n)).
Proof.
  revert v; induction n as [|n IH]; intros v; [by rewrite Z.shiftr_0_r|].
  change (le_split (S n + m) v) with (byte.of_Z v :: le_split (n + m) (Z.shiftr v 8)).
  change (le_split (S n) v) with (byte.of_Z v :: le_split n (Z.shiftr v 8)).
  replace (8 * Z.of_nat (S n)) with (8 + 8 * Z.of_nat n) by lia; by rewrite IH, Z.shiftr_shiftr by lia.
Qed.

Lemma le_split_digit (k lo w hi : Z) :
  0 <= k -> 0 <= lo < 2 ^ k -> le_split 4 (Z.shiftr (lo + (w + hi * 2 ^ 32) * 2 ^ k) k) = le_split 4 w.
Proof.
  intros Hk Hl; rewrite Z.shiftr_div_pow2, Z.div_add by lia; rewrite (Z.div_small lo) by lia; rewrite Z.add_0_l.
  rewrite le_split_mod, (le_split_mod w); f_equal; by apply Z.mod_add.
Qed.

(** Four little-endian words are the 128-bit number they spell. *)
Lemma write_words (x0 x1 x2 x3 hi : Z) :
  0 <= x0 < 2 ^ 32 -> 0 <= x1 < 2 ^ 32 -> 0 <= x2 < 2 ^ 32 ->
  sdb_write_u32_le (sdb_write_u32_le (sdb_write_u32_le (sdb_write_u32_le (zeros 16) 0 x0) 4 x1) 8 x2) 12 x3
  = le_split 16 (x0 + 2 ^ 32 * x1 + 2 ^ 64 * x2 + 2 ^ 96 * x3 + 2 ^ 128 * hi).
Proof.
  intros; set (v := x0 + 2 ^ 32 * x1 + 2 ^ 64 * x2 + 2 ^ 96 * x3 + 2 ^ 128 * hi); codec_unfold.
  transitivity (le_split 4 x0 ++ le_split 4 x1 ++ le_split 4 x2 ++ le_split 4 x3); [reflexivity|].
  rewrite (le_split_app 4 12), (le_split_app 4 8), (le_split_app 4 4), !Z.shiftr_shiftr by lia.
  change (8 * Z.of_nat 4) with 32; change (32 + 32) with 64; change (64 + 32) with 96.
  f_equal; [|f_equal; [|f_equal]]; symmetry; unfold v.
  - rewrite <- (le_split_digit 0 0 x0 (x1 + 2 ^ 32 * x2 + 2 ^ 64 * x3 + 2 ^ 96 * hi)) by lia; rewrite Z.shiftr_0_r; f_equal; ring.
  - rewrite <- (le_split_digit 32 x0 x1 (x2 + 2 ^ 32 * x3 + 2 ^ 64 * hi)) by lia; do 2 f_equal; ring.
  - rewrite <- (le_split_digit 64 (x0 + 2 ^ 32 * x1) x2 (x3 + 2 ^ 32 * hi)) by lia; do 2 f_equal; ring.
  - rewrite <- (le_split_digit 96 (x0 + 2 ^ 32 * x1 + 2 ^ 64 * x2) x3 hi) by lia; do 2 f_equal; ring.
Qed.

Lemma div_mod_split (x a : Z) : 0 < a -> 0 <= x -> exists q m, x / a = q /\ x mod a = m /\ x = q * a + m /\ 0 <= m < a /\ 0 <= q.
Proof.
  intros Ha Hx; exists (x / a), (x mod a); pose proof (Z.div_mod x a ltac:(lia)); pose proof (Z.mod_pos_bound x a ltac:(lia)).
  pose proof (Z.div_pos x a ltac:(lia) Ha); do 4 (split; [lia|]); done.
Qed.

Lemma poly_tag_spec (h : limbs) (p0 p1 p2 p3 : Z) :
  reduced h -> 0 <= p0 < 2 ^ 32 -> 0 <= p1 < 2 ^ 32 -> 0 <= p2 < 2 ^ 32 -> 0 <= p3 < 2 ^ 32 ->
  poly_tag h [p0; p1; p2; p3] = le_split 16 (limbs_val h + (p0 + 2 ^ 32 * p1 + 2 ^ 64 * p2 + 2 ^ 96 * p3)).
Proof.
  intros (?&?&?&?&?) ? ? ? ?; unfold poly_tag; cbn [nth].
  destruct (div_mod_split (l1 h) (2 ^ 6)) as (q1&m1&Q1&M1&S1&?&?); [lia..|].
  destruct (div_mod_split (l2 h) (2 ^ 12)) as (q2&m2&Q2&M2&S2&?&?); [lia..|].
  destruct (div_mod_split (l3 h) (2 ^ 18)) as (q3&m3&Q3&M3&S3&?&?); [lia..|].
  destruct (div_mod_split (l4 h) (2 ^ 24)) as (q4&m4&Q4&M4&S4&?&?); [lia..|].
  rewrite !(Z.shiftr_div_pow2 (_ h)), Q1, Q2, Q3, !word_join by lia.
  change (32 - 26) with 6; change (32 - 20) with 12; change (32 - 14) with 18; change (32 - 8) with 24.
  rewrite M1, M2, M3, M4, !Z.shiftr_div_pow2 by lia.
  destruct (div_mod_split (l0 h + m1 * 2 ^ 26 + p0) (2 ^ 32)) as (c0&f0&C0&F0&T0&?&?); [lia..|].
  destruct (div_mod_split (q1 + m2 * 2 ^ 20 + p1 + c0) (2 ^ 32)) as (c1&f1&C1&F1&T1&?&?); [lia..|].
  destruct (div_mod_split (q2 + m3 * 2 ^ 14 + p2 + c1) (2 ^ 32)) as (c2&f2&C2&F2&T2&?&?); [lia..|].
  destruct (div_mod_split (q3 + m4 * 2 ^ 8 + p3 + c2) (2 ^ 32)) as (c3&f3&C3&F3&T3&?&?); [lia..|].
  cbv zeta; rewrite (wrap_small 64 (_ + p0)), C0, (wrap_small 64 (_ + c0)), C1, (wrap_small 64 (_ + c1)), C2 by lia.
  rewrite (wrap_small 64 (_ + c2)) by lia; unfold wrap; rewrite F0, F1, F2, F3.
  rewrite (write_words _ _ _ _ (q4 + c3)) by lia; f_equal; unfold limbs_val; lia.
Qed.

(** ** Loading blocks and keys *)

(** A 32-bit read, shifted, is a digit of the number the bytes spell. *)
Lemma read_digit (b : bytes) (k : nat) (s w : Z) :
  0 <= s -> 0 <= w -> s + w <= 32 ->
  Z.shiftr (sdb_read_u32_le b k) s mod 2 ^ w = Z.shiftr (le_combine b) (8 * Z.of_nat k + s) mod 2 ^ w.
Proof.
  intros Hs Hw Hsw; rewrite sdb_read_u32_le_spec, le_combine_slice; apply Z.bits_inj'; intros i Hi.
  destruct (decide (i < w)); [|by rewrite !Z.mod_pow2_bits_high by lia].
  rewrite !Z.mod_pow2_bits_low, !Z.shiftr_spec, Z.mod_pow2_bits_low, Z.shiftr_spec by lia; f_equal; lia.
Qed.

Definition digit26 (x i : Z) : Z := Z.shiftr x (26 * i) mod 2 ^ 26.

Lemma digits_sum (x : Z) :
  0 <= x < 2 ^ 130 ->
  digit26 x 0 + 2 ^ 26 * digit26 x 1 + 2 ^ 52 * digit26 x 2 + 2 ^ 78 * digit26 x 3 + 2 ^ 104 * digit26 x 4 = x.
Proof.
  intros Hx; unfold digit26; rewrite Z.shiftr_0_r.
  assert (D : forall k, 0 <= k -> Z.shiftr x (26 * k) = Z.shiftr x (26 * k) mod 2 ^ 26 + 2 ^ 26 * Z.shiftr x (26 * (k + 1))).
  { intros k Hk; replace (26 * (k + 1)) with (26 * k + 26) by lia; rewrite <- Z.shiftr_shiftr by lia.
    rewrite (Z.shiftr_div_pow2 (Z.shiftr _ _)) by lia; pose proof (Z.div_mod (Z.shiftr x (26 * k)) (2 ^ 26)); lia. }
  pose proof (D 0 ltac:(lia)); pose proof (D 1 ltac:(lia)); pose proof (D 2 ltac:(lia)); pose proof (D 3 ltac:(lia));
    pose proof (D 4 ltac:(lia)); clear D.
  change (0 + 1) with 1 in *; change (1 + 1) with 2 in *; change (2 + 1) with 3 in *; change (3 + 1) with 4 in *.
  change (26 * (4 + 1)) with 130 in *; change (26 * 0) with 0 in *; rewrite Z.shiftr_0_r in *.
  assert (Z.shiftr x 130 = 0) by (rewrite Z.shiftr_div_pow2 by lia; apply Z.div_small; lia); lia.
Qed.

Lemma digit26_mod (x n i : Z) : 0 <= i -> 26 * i + 26 <= n -> digit26 (x mod 2 ^ n) i = digit26 x i.
Proof.
  intros Hi Hn; unfold digit26; apply Z.bits_inj'; intros j Hj.
  destruct (decide (j < 26)); [|by rewrite !Z.mod_pow2_bits_high by lia].
  by rewrite !Z.mod_pow2_bits_low, !Z.shiftr_spec, Z.mod_pow2_bits_low by lia.
Qed.

Lemma read_limb (b : bytes) (k : nat) (s i : Z) :
  0 <= s -> s + 26 <= 32 -> 26 * i = 8 * Z.of_nat k + s ->
  Z.land (Z.shiftr (sdb_read_u32_le b k) s) mask26 = digit26 (le_combine b) i.
Proof. intros Hs Hw E; rewrite land_mask26, read_digit by lia; unfold digit26; by rewrite E. Qed.

Lemma digit26_high (x : Z) : digit26 (x mod 2 ^ 128) 4 = Z.shiftr x 104 mod 2 ^ 24.
Proof.
  unfold digit26; apply Z.bits_inj'; intros j Hj; change (26 * 4) with 104.
  destruct (decide (j < 24)).
  - by rewrite !Z.mod_pow2_bits_low, !Z.shiftr_spec, Z.mod_pow2_bits_low by lia.
  - rewrite (Z.mod_pow2_bits_high _ 24) by lia; destruct (decide (j < 26)); [|by rewrite Z.mod_pow2_bits_high by lia].
    by rewrite Z.mod_pow2_bits_low, Z.shiftr_spec, Z.mod_pow2_bits_high by lia.
Qed.

Lemma load_limbs_spec (b : bytes) (hb : Z) :
  hb = 0 \/ hb = HIGH_BIT ->
  m_ok (load_limbs b hb) /\ limbs_val (load_limbs b hb) = le_combine (take 16 b) + 2 ^ 104 * hb.
Proof.
  intros Hb; unfold load_limbs.
  assert (E4 : Z.lor (Z.shiftr (sdb_read_u32_le b 12) 8) hb = Z.shiftr (le_combine b) 104 mod 2 ^ 24 + hb).
  { pose proof (sdb_read_u32_le_range b 12).
    rewrite <- (Z.mod_small (Z.shiftr _ 8) (2 ^ 24)) by (rewrite Z.shiftr_div_pow2 by lia; split; [apply Z.div_pos|apply Z.div_lt_upper_bound]; lia).
    rewrite read_digit by lia; change (8 * Z.of_nat 12 + 8) with 104.
    pose proof (Z.mod_pos_bound (Z.shiftr (le_combine b) 104) (2 ^ 24)).
    destruct Hb as [->| ->]; [by rewrite Z.lor_0_r, Z.add_0_r|]; apply (lor_add _ 1 24); lia. }
  rewrite <- (Z.shiftr_0_r (sdb_read_u32_le b 0)).
  rewrite (read_limb b 0 0 0), (read_limb b 3 2 1), (read_limb b 6 4 2), (read_limb b 9 6 3), E4 by lia.
  change (take 16 b) with (slice b 0 16); rewrite le_combine_slice, Z.shiftr_0_r; change (8 * Z.of_nat 16) with 128.
  pose proof (Z.mod_pos_bound (le_combine b) (2 ^ 128) ltac:(lia)).
  rewrite <- (digits_sum (le_combine b mod 2 ^ 128)) by lia; rewrite digit26_high, !digit26_mod by lia.
  unfold m_ok, limbs_val; cbn [l0 l1 l2 l3 l4].
  assert (D : forall i, 0 <= digit26 (le_combine b) i < 2 ^ 26) by (intros; apply Z.mod_pos_bound; lia).
  pose proof (Z.mod_pos_bound (Z.shiftr (le_combine b) 104) (2 ^ 24) ltac:(lia)).
  split; [|ring]; do 4 (split; [apply D|]); unfold HIGH_BIT in *; lia.
Qed.

(** [le_combine] with the byte the padding adds. *)
Lemma le_combine_one (b : bytes) : le_combine (b ++ [byte.of_Z 1]) = le_combine b + 2 ^ (8 * Z.of_nat (length b)).
Proof.
  rewrite le_combine_app; change (le_combine [byte.of_Z 1]) with 1; rewrite Z.shiftl_mul_pow2 by lia.
  rewrite lor_add; [rewrite Z.mul_1_l; do 2 f_equal; lia|lia|].
  rewrite Z.mul_comm; apply le_combine_bound.
Qed.

Lemma digit26_land (x y i : Z) : 0 <= i -> digit26 (Z.land x y) i = Z.land (digit26 x i) (digit26 y i).
Proof.
  intros Hi; unfold digit26; apply Z.bits_inj'; intros j Hj; rewrite Z.land_spec.
  destruct (decide (j < 26)); [|by rewrite !Z.mod_pow2_bits_high by lia].
  by rewrite !Z.mod_pow2_bits_low, !Z.shiftr_spec, Z.land_spec by lia.
Qed.

(** The masks of the code are the digits of the clamp. *)
Lemma read_clamped (b : bytes) (k : nat) (s i m : Z) :
  0 <= i -> 0 <= s -> s + 26 <= 32 -> 26 * i = 8 * Z.of_nat k + s -> m = digit26 CLAMP i ->
  Z.land (Z.shiftr (sdb_read_u32_le b k) s) m = digit26 (Z.land (le_combine b) CLAMP) i.
Proof.
  intros Hi Hs Hw E ->; rewrite digit26_land, <- (read_limb b k s i), <- Z.land_assoc by done; f_equal.
  rewrite Z.land_comm, land_mask26; symmetry; apply Z.mod_small, Z.mod_pos_bound; lia.
Qed.

Lemma land_clamp_bound (x : Z) : 0 <= x -> 0 <= Z.land x CLAMP < 2 ^ 124.
Proof.
  intros Hx; change CLAMP with (Z.land (Z.ones 124) CLAMP); rewrite Z.land_assoc, Z.land_ones by lia.
  set (y := x mod 2 ^ 124); assert (0 <= y < 2 ^ 124) by (apply Z.mod_pos_bound; lia).
  split; [apply Z.land_nonneg; lia|].
  assert (Z.land y CLAMP = Z.land y CLAMP mod 2 ^ 124) as ->; [|apply Z.mod_pos_bound; lia].
  apply Z.bits_inj'; intros j Hj; destruct (decide (j < 124)); [by rewrite Z.mod_pow2_bits_low by lia|].
  rewrite Z.mod_pow2_bits_high, Z.land_spec by lia; unfold y; by rewrite Z.mod_pow2_bits_high by lia.
Qed.

Definition key_r (key : bytes) : Z := Z.land (le_combine (slice key 0 16)) CLAMP.

Lemma init_r (key : bytes) : r_ok (po_r (sdb_poly1305_init key)) /\ limbs_val (po_r (sdb_poly1305_init key)) = key_r key.
Proof.
  cbn [po_r sdb_poly1305_init]; rewrite <- (Z.shiftr_0_r (sdb_read_u32_le key 0)).
  rewrite (read_clamped key 0 0 0), (read_clamped key 3 2 1), (read_clamped key 6 4 2), (read_clamped key 9 6 3) by done || lia.
  assert (E4 : Z.land (Z.shiftr (sdb_read_u32_le key 12) 8) 1048575 = digit26 (Z.land (le_combine key) CLAMP) 4).
  { rewrite digit26_land by lia; change (digit26 CLAMP 4) with (Z.ones 20); change 1048575 with (Z.ones 20).
    rewrite !Z.land_ones, read_digit by lia; unfold digit26; symmetry; apply Z.mod_mod_divide; by exists 64. }
  assert (Ek : key_r key = Z.land (le_combine key) CLAMP).
  { unfold key_r; rewrite le_combine_slice, Z.shiftr_0_r, <- Z.land_ones, <- Z.land_assoc by lia; done. }
  assert (D : forall i, 0 <= digit26 (Z.land (le_combine key) CLAMP) i < 2 ^ 26) by (intros; apply Z.mod_pos_bound; lia).
  split.
  - do 4 (split; [apply D|]); cbn [l4]; change 1048575 with (Z.ones 20); rewrite Z.land_ones by lia; apply Z.mod_pos_bound; lia.
  - rewrite E4; unfold limbs_val; cbn [l0 l1 l2 l3 l4]; rewrite Ek; apply digits_sum.
    pose proof (land_clamp_bound (le_combine key)); pose proof (le_combine_bound key); lia.
Qed.

Definition pad_val (p : list Z) : Z := nth 0 p 0 + 2 ^ 32 * nth 1 p 0 + 2 ^ 64 * nth 2 p 0 + 2 ^ 96 * nth 3 p 0.

Lemma words_sum (x : Z) :
  x mod 2 ^ 32 + 2 ^ 32 * (Z.shiftr x 32 mod 2 ^ 32) + 2 ^ 64 * (Z.shiftr x 64 mod 2 ^ 32) + 2 ^ 96 * (Z.shiftr x 96 mod 2 ^ 32)
  = x mod 2 ^ 128.
Proof.
  change (2 ^ 128) with (2 ^ 32 * (2 ^ 32 * (2 ^ 32 * 2 ^ 32))); rewrite !Z.rem_mul_r, !Z.div_div by lia.
  rewrite !Z.shiftr_div_pow2 by lia; change (2 ^ 32 * 2 ^ 32) with (2 ^ 64); change (2 ^ 32 * 2 ^ 64) with (2 ^ 96).
  change (2 ^ 64 * 2 ^ 32) with (2 ^ 96); ring.
Qed.

Lemma init_pad (key : bytes) :
  po_pad (sdb_poly1305_init key) = [sdb_read_u32_le key 16; sdb_read_u32_le key 20; sdb_read_u32_le key 24; sdb_read_u32_le key 28]
  /\ pad_val (po_pad (sdb_poly1305_init key)) = le_combine (slice key 16 16).
Proof.
  split; [done|]; unfold pad_val; cbn [po_pad sdb_poly1305_init nth].
  rewrite !sdb_read_u32_le_spec, !le_combine_slice.
  change (8 * Z.of_nat 16) with 128; change (8 * Z.of_nat 20) with (128 + 32); change (8 * Z.of_nat 24) with (128 + 64).
  change (8 * Z.of_nat 28) with (128 + 96); change (8 * Z.of_nat 4) with 32; rewrite <- !Z.shiftr_shiftr by lia.
  apply words_sum.
Qed.

(** ** The stream *)

Lemma chunks16_enough (f g : nat) (m : bytes) :
  (length m <= 16 * f)%nat -> (length m <= 16 * g)%nat -> chunks16 f m = chunks16 g m.
Proof.
  revert g m; induction f as [|f IH]; intros [|g] [|x m] Hf Hg; cbn [length] in *; try done; try lia.
  cbn [chunks16]; f_equal; apply IH; rewrite length_drop; cbn [length]; lia.
Qed.

Lemma chunks16_app (n f : nat) (a b : bytes) :
  length a = (16 * n)%nat -> chunks16 (n + f) (a ++ b) = chunks16 n a ++ chunks16 f b.
Proof.
  revert a; induction n as [|n IH]; intros a Ha.
  { by rewrite (nil_length_inv a) by lia. }
  destruct a as [|x a]; [cbn [length] in Ha; lia|].
  cbn [Nat.add chunks16 app]; rewrite !app_comm_cons, take_app_le, drop_app_le by lia.
  rewrite IH by (rewrite length_drop; lia); done.
Qed.

Lemma poly_block_step (r h : limbs) (block message : bytes) (hb : Z) :
  r_ok r -> h_ok h -> hb = 0 \/ hb = HIGH_BIT ->
  le_combine (take 16 message) + 2 ^ 104 * hb = le_combine (block ++ [byte.of_Z 1]) ->
  h_ok (poly_block r h message hb)
  /\ limbs_val (poly_block r h message hb) mod P1305 = poly_step (limbs_val r) (limbs_val h mod P1305) block.
Proof.
  intros Hr Hh Hb Hv; destruct (load_limbs_spec message hb Hb) as [Hm Em].
  destruct (poly_block_spec r h message hb Hr Hh Hm) as [Ho (k & Ek)]; split; [done|].
  unfold poly_step; rewrite Ek, Em, Hv, <- Z.add_opp_r, <- Z.mul_opp_l, Z.mod_add by done.
  rewrite <- Z.mul_mod_idemp_l, <- (Z.add_mod_idemp_l (limbs_val h)), Z.mul_mod_idemp_l by done; done.
Qed.

Lemma chunks16_one (b : bytes) : length b = 16%nat -> chunks16 1 b = [b].
Proof. intros H; destruct b as [|x b]; [done|]; cbn [chunks16]; by rewrite take_ge by lia. Qed.

Lemma blocks_loop_spec (r : limbs) :
  forall n h m, r_ok r -> h_ok h -> (16 * n <= length m)%nat ->
  h_ok (poly_blocks_loop n r h m HIGH_BIT)
  /\ limbs_val (poly_blocks_loop n r h m HIGH_BIT) mod P1305
     = foldl (poly_step (limbs_val r)) (limbs_val h mod P1305) (chunks16 n (take (16 * n) m)).
Proof.
  induction n as [|n IH]; intros h m Hr Hh Hl; [done|]; cbn [poly_blocks_loop].
  destruct (poly_block_step r h (take 16 m) m HIGH_BIT Hr Hh) as [Hb Eb]; [auto| |].
  { rewrite le_combine_one, length_take, Nat.min_l by lia; done. }
  destruct (IH (poly_block r h m HIGH_BIT) (drop 16 m) Hr Hb) as [Ho Ev]; [rewrite length_drop; lia|].
  split; [done|]; rewrite Ev, Eb.
  rewrite <- (take_drop 16 (take (16 * S n) m)), take_take, Nat.min_l by lia.
  rewrite (chunks16_app 1 n), foldl_app by (rewrite length_take; lia).
  rewrite chunks16_one by (rewrite length_take; lia); cbn [foldl]; do 2 f_equal.
  rewrite take_drop_commute; do 2 f_equal; lia.
Qed.

(** The context after absorbing [msg]: whole blocks are in [h], the rest is buffered. *)
Definition poly_is (key msg : bytes) (c : sdb_poly1305) : Prop :=
  po_r c = po_r (sdb_poly1305_init key) /\ po_pad c = po_pad (sdb_poly1305_init key) /\ length (po_buffer c) = 16%nat
  /\ h_ok (po_h c) /\ (po_buffered c < 16)%nat
  /\ exists n full, msg = full ++ take (po_buffered c) (po_buffer c) /\ length full = (16 * n)%nat
       /\ limbs_val (po_h c) mod P1305 = foldl (poly_step (key_r key)) 0 (chunks16 n full).

Lemma poly_init_is (key : bytes) : poly_is key [] (sdb_poly1305_init key).
Proof.
  split; [done|]; split; [done|]; split; [done|]; split; [by repeat split|]; split; [cbn; lia|].
  by exists 0%nat, [].
Qed.

(** Absorbing whole blocks when the buffer is empty. *)
Lemma blocks_is (key msg : bytes) (c : sdb_poly1305) (m : bytes) (n : nat) :
  poly_is key msg c -> po_buffered c = 0%nat -> (16 * n <= length m)%nat ->
  poly_is key (msg ++ take (16 * n) m) (sdb_poly1305_blocks c m (16 * n) HIGH_BIT).
Proof.
  intros (Hr & Hp & Hb & Hh & Hlt & k & full & -> & Hf & Hv) E0 Hl.
  destruct (init_r key) as [Hro Hrv].
  unfold sdb_poly1305_blocks; rewrite (Nat.mul_comm 16 n), Nat.div_mul, Hr by lia.
  destruct (blocks_loop_spec (po_r (sdb_poly1305_init key)) n (po_h c) m Hro Hh Hl) as [Ho Ev].
  do 3 (split; [done|]); split; [done|]; split; [done|]; cbn [po_buffered po_buffer po_h set_h].
  exists (k + n)%nat, (full ++ take (16 * n) m); rewrite E0, !take_0, !app_nil_r, (Nat.mul_comm n 16).
  split; [done|]; split; [rewrite length_app, length_take; lia|].
  by rewrite Ev, Hv, Hrv, chunks16_app, foldl_app by done.
Qed.

Lemma set_buffer_is (key msg : bytes) (c : sdb_poly1305) (m : bytes) :
  poly_is key msg c -> (po_buffered c + length m < 16)%nat ->
  poly_is key (msg ++ m) (set_buffer c (memcpy_at (po_buffer c) (po_buffered c) m) (po_buffered c + length m)).
Proof.
  intros (Hr & Hp & Hb & Hh & Hlt & k & full & -> & Hf & Hv) Hl.
  do 2 (split; [done|]); split; [by cbn; rewrite length_memcpy_at|]; split; [done|]; split; [cbn; lia|].
  exists k, full; cbn [po_buffered po_buffer po_h set_buffer]; split; [|done].
  rewrite memcpy_at_in by lia; rewrite <- app_assoc; f_equal.
  rewrite app_assoc, take_app_length' by (rewrite length_app, length_take; lia); done.
Qed.

(** A completed buffer is absorbed as a block. *)
Lemma full_buffer_is (key msg : bytes) (c : sdb_poly1305) (m : bytes) (buffered : nat) :
  poly_is key msg c -> (po_buffered c + length m = 16)%nat ->
  let buffer := memcpy_at (po_buffer c) (po_buffered c) m in
  poly_is key (msg ++ m) (set_buffer (sdb_poly1305_blocks (set_buffer c buffer buffered) buffer 16 HIGH_BIT) buffer 0).
Proof.
  intros (Hr & Hp & Hb & Hh & Hlt & k & full & -> & Hf & Hv) Hl buffer.
  destruct (init_r key) as [Hro Hrv].
  assert (Eb : buffer = take (po_buffered c) (po_buffer c) ++ m).
  { unfold buffer; rewrite memcpy_at_in by lia; rewrite drop_ge by lia; by rewrite app_nil_r. }
  assert (Lb : length buffer = 16%nat) by (rewrite Eb, length_app, length_take; lia).
  destruct (blocks_loop_spec (po_r (sdb_poly1305_init key)) 1 (po_h c) buffer Hro Hh) as [Ho Ev]; [lia|].
  change (16 * 1)%nat with 16%nat in Ev; rewrite (take_ge buffer) in Ev by lia.
  split; [done|]; split; [done|]; split; [done|]; split; [cbn; rewrite Hr; done|]; split; [cbn; lia|].
  exists (k + 1)%nat, (full ++ buffer); rewrite <- app_assoc, <- Eb, app_nil_r.
  split; [done|]; split; [rewrite length_app; lia|].
  cbn [po_h po_r set_buffer set_h sdb_poly1305_blocks]; change (16 / 16)%nat with 1%nat.
  by rewrite Hr, Ev, Hv, Hrv, chunks16_app, foldl_app by done.
Qed.

Lemma poly_fill_is (key msg : bytes) (c : sdb_poly1305) (m : bytes) :
  poly_is key msg c ->
  exists c' taken m', poly_fill c m = (c', m') /\ m = taken ++ m' /\ poly_is key (msg ++ taken) c'
    /\ (po_buffered c' = 0%nat \/ m' = []).
Proof.
  intros Hi; pose proof Hi as (Hr & Hp & Hb & Hh & Hlt & k & full & Em & Hf & Hv); unfold poly_fill.
  case_bool_decide as E0; [exists c, [], m; rewrite app_nil_r; auto|].
  set (n := if bool_decide (length m < 16 - po_buffered c)%nat then length m else (16 - po_buffered c)%nat).
  cbn [po_buffered po_buffer set_buffer]; case_bool_decide as E16.
  - assert (Hn : n = (16 - po_buffered c)%nat /\ (n <= length m)%nat) by (unfold n in *; case_bool_decide; lia).
    eexists _, (take n m), (drop n m); split; [done|]; split; [by rewrite take_drop|]; split; [|by left].
    apply full_buffer_is; [done|]; rewrite length_take; lia.
  - assert (Hn : n = length m /\ (length m < 16 - po_buffered c)%nat) by (unfold n in *; case_bool_decide; lia).
    destruct Hn as [-> Hn]; eexists _, m, []; rewrite drop_all, app_nil_r, firstn_all; split; [done|].
    split; [done|]; split; [|by right]; apply set_buffer_is; [done|lia].
Qed.

Lemma update_is (key msg : bytes) (c : sdb_poly1305) (m : bytes) :
  poly_is key msg c -> poly_is key (msg ++ m) (sdb_poly1305_update c m).
Proof.
  intros Hi; unfold sdb_poly1305_update.
  destruct (poly_fill_is key msg c m Hi) as (c1 & taken & m1 & -> & -> & Hi1 & H0); clear Hi.
  rewrite app_assoc; revert Hi1; generalize (msg ++ taken); clear msg; intros msg Hi1.
  case_bool_decide as E16.
  - destruct H0 as [H0| ->]; [|cbn in E16; lia].
    set (n := (length m1 / 16)%nat).
    assert (En : (length m1 - length m1 mod 16 = 16 * n)%nat) by (pose proof (Nat.div_mod (length m1) 16 ltac:(lia)); unfold n; lia).
    rewrite En; assert (Hn : (16 * n <= length m1 < 16 * n + 16)%nat).
    { pose proof (Nat.mod_upper_bound (length m1) 16 ltac:(lia)); lia. }
    pose proof (blocks_is key msg c1 m1 n Hi1 H0 ltac:(lia)) as Hi2; cbv zeta beta iota.
    case_bool_decide as El; rewrite length_drop in El; [by rewrite take_ge in Hi2 by lia|].
    rewrite <- (take_drop (16 * n) m1) at 1; rewrite app_assoc.
    apply (set_buffer_is _ _ _ (drop (16 * n) m1)) in Hi2; [|rewrite length_drop; change (po_buffered _) with (po_buffered c1); lia].
    change (po_buffered _) with (po_buffered c1) in Hi2; by rewrite H0 in Hi2.
  - cbv zeta beta iota; case_bool_decide as El; [rewrite (nil_length_inv m1 El); by rewrite app_nil_r|].
    destruct H0 as [H0| ->]; [|done].
    apply (set_buffer_is _ _ _ m1) in Hi1; [by rewrite H0 in Hi1|lia].
Qed.

(** Any sequence of updates. *)
Lemma updates_are (key : bytes) (ms : list bytes) :
  forall msg c, poly_is key msg c -> poly_is key (msg ++ concat ms) (fold_left sdb_poly1305_update ms c).
Proof.
  induction ms as [|m ms IH]; intros msg c Hi; cbn [fold_left concat]; [by rewrite app_nil_r|].
  rewrite app_assoc; apply IH, update_is, Hi.
Qed.

(** The last block, closed by the byte 1 and zeros. *)
Lemma last_block (b : bytes) (k : nat) :
  length b = 16%nat -> (k < 16)%nat ->
  memcpy_at (store_u8 b k 1) (k + 1) (zeros (16 - (k + 1))) = (take k b ++ [byte.of_Z 1]) ++ zeros (16 - (k + 1)).
Proof.
  intros Hb Hk; rewrite memcpy_at_in by (rewrite length_zeros, length_store_u8; lia).
  rewrite length_zeros, drop_ge, app_nil_r by (rewrite length_store_u8; lia); f_equal.
  unfold store_u8; rewrite insert_take_drop by lia.
  rewrite (cons_middle _ (take k b)), app_assoc, take_app_length' by (rewrite length_app, length_take; cbn; lia); done.
Qed.

Lemma le_combine_zeros (b : bytes) (n : nat) : le_combine (b ++ zeros n) = le_combine b.
Proof.
  assert (zeros n = List.repeat x00 n) as -> by (induction n as [|n IH]; [done|]; cbn; by rewrite <- IH).
  apply le_combine_app_0.
Qed.

Lemma final_is (key msg : bytes) (c : sdb_poly1305) :
  poly_is key msg c -> sdb_poly1305_final c = poly1305_reference key msg.
Proof.
  intros (Hr & Hp & Hb & Hh & Hlt & k & full & -> & Hf & Hv); unfold sdb_poly1305_final.
  destruct (init_r key) as [Hro Hrv], (init_pad key) as [Hp1 Hp2].
  set (c' := if bool_decide _ then c else _).
  assert (Hc : po_pad c' = po_pad c /\ h_ok (po_h c')
    /\ limbs_val (po_h c') mod P1305 = foldl (poly_step (key_r key)) 0 (chunks16 (k + 1) (full ++ take (po_buffered c) (po_buffer c)))).
  { rewrite chunks16_app, foldl_app, <- Hv by done; unfold c'; case_bool_decide as E0; [by rewrite E0|].
    split; [done|]; cbn [po_h po_r sdb_poly1305_blocks set_h set_buffer]; change (16 / 16)%nat with 1%nat.
    cbn [poly_blocks_loop]; rewrite last_block, Hr, <- Hrv by done.
    set (rest := take (po_buffered c) (po_buffer c)).
    assert (Lr : length rest = po_buffered c) by (unfold rest; rewrite length_take; lia).
    replace (chunks16 1 rest) with [rest]; cbn [foldl].
    2: { destruct rest as [|x rest]; [cbn in Lr; lia|]; cbn [chunks16]; by rewrite take_ge by lia. }
    apply poly_block_step; [done|done|by left|].
    rewrite take_ge by (rewrite !length_app, length_zeros; cbn; lia).
    rewrite Z.mul_0_r, Z.add_0_r; apply le_combine_zeros. }
  destruct Hc as (Ep & Ho & Ev), (poly_carry_spec _ Ho) as [Hcr (q & Eq)], (poly_select_spec _ Hcr) as [Hs Es].
  rewrite Ep, Hp, Hp1; rewrite Hp1 in Hp2.
  rewrite poly_tag_spec by (done || apply sdb_read_u32_le_range); cbn [pad_val nth] in Hp2.
  unfold poly1305_reference; f_equal; fold (key_r key).
  assert (Ef : limbs_val (poly_select (poly_carry (po_h c'))) = limbs_val (po_h c') mod P1305).
  { by rewrite Es, Eq, <- Z.add_opp_r, <- Z.mul_opp_l, Z.mod_add by done. }
  rewrite Ef, Ev, <- Hp2, (chunks16_enough (k + 1) (length (full ++ take (po_buffered c) (po_buffer c)))); [done| |lia].
  rewrite length_app, length_take; lia.
Qed.

(** C32: The authenticator computes RFC 8439's Poly1305.  Whatever the sizes in which a
    message is fed to the update, the tag is that of the whole message: the blocks,
    each closed by a 1, are the coefficients of a polynomial evaluated at the clamped
    key modulo [2 ^ 130 - 5], and the second half of the key is added modulo
    [2 ^ 128].  No 32-bit limb and no 64-bit sum of products overflows on the way. *)
Theorem poly1305_correct (key : bytes) (ms : list bytes) :
  sdb_poly1305_final (fold_left sdb_poly1305_update ms (sdb_poly1305_init key)) = poly1305_reference key (concat ms).
Proof. apply final_is, (updates_are key ms [] _ (poly_init_is key)). Qed.

(** RFC 8439, 2.5.2. *)
Example poly1305_vector :
  sdb_poly1305_final (sdb_poly1305_update (sdb_poly1305_init (byte.of_Z <$>
      [133; 214; 190; 120; 87; 85; 109; 51; 127; 68; 82; 254; 66; 213; 6; 168;
       1; 3; 128; 138; 251; 13; 178; 253; 74; 191; 246; 175; 65; 73; 245; 27]))
    (byte.of_Z <$> [67; 114; 121; 112; 116; 111; 103; 114; 97; 112; 104; 105; 99; 32; 70; 111; 114; 117; 109; 32; 82; 101;
       115; 101; 97; 114; 99; 104; 32; 71; 114; 111; 117; 112]))
  = byte.of_Z <$> [168; 6; 29; 193; 48; 81; 54; 198; 194; 43; 139; 175; 12; 1; 39; 169].
Proof. vm_compute; reflexivity. Qed.
