(* ===== verification/Aead.v ===== *)
(** * XChaCha20-Poly1305 ([src/xchacha20poly1305.c], from [sdb_poly1305_pad16] on)

    The authenticated encryption of pages and keys, composed of the cipher of
    [Chacha] and the authenticator of [Poly1305].  Its contract: the tag is the one
    of RFC 8439 over the associated data, the ciphertext and their lengths, and the
    decryption accepts exactly the ciphertexts and tags the encryption produces.
    [avx2] is what [sdb_cpu_has_avx2] reports; it never changes a result. *)

From S2P Require Import Prelude Status Codec Sha256 Chacha Poly1305.

Definition sdb_poly1305_pad16 (c : sdb_poly1305) (size : nat) : sdb_poly1305 :=
  let remainder := (size mod 16)%nat in
  if bool_decide (remainder = 0%nat) then c else sdb_poly1305_update c (zeros (16 - remainder)).

(** The subkey and the nonce of the inner cipher. *)
Definition sdb_xchacha_setup (key nonce : bytes) : bytes * bytes :=
  (sdb_hchacha20 key nonce, memcpy_at (zeros 12) 4 (slice nonce 16 8)).

Definition sdb_aead_tag (poly_key aad ciphertext : bytes) : bytes :=
  let c := sdb_poly1305_init poly_key in
  let c := if bool_decide (length aad = 0%nat) then c else sdb_poly1305_update c aad in
  let c := sdb_poly1305_pad16 c (length aad) in
  let c := if bool_decide (length ciphertext = 0%nat) then c else sdb_poly1305_update c ciphertext in
  let c := sdb_poly1305_pad16 c (length ciphertext) in
  let lengths := sdb_write_u64_le (zeros 16) 0 (Z.of_nat (length aad)) in
  let lengths := sdb_write_u64_le lengths 8 (Z.of_nat (length ciphertext)) in
  sdb_poly1305_final (sdb_poly1305_update c lengths).

(** The largest message: the counter of its last block is [UINT32_MAX - 1] at most. *)
Definition aead_too_large (size : nat) : bool := Z.of_nat size >? (UINT32_MAX - 1) * 64.

Definition sdb_xchacha20poly1305_encrypt (avx2 : bool) (key nonce aad plaintext : bytes) : result (bytes * bytes) :=
  fail_if aead_too_large (length plaintext) with SDB_E_INVALID_ARGUMENT ;;
  let '(subkey, ietf_nonce) := sdb_xchacha_setup key nonce in
  let first_block := sdb_chacha_block subkey 0 ietf_nonce in
  let ciphertext := if bool_decide (length plaintext = 0%nat) then []
                    else sdb_chacha_xor avx2 subkey ietf_nonce 1 plaintext in
  Ok (ciphertext, sdb_aead_tag first_block aad ciphertext).

Definition sdb_xchacha20poly1305_decrypt (avx2 : bool) (key nonce aad ciphertext tag : bytes) : result bytes :=
  fail_if aead_too_large (length ciphertext) with SDB_E_INVALID_ARGUMENT ;;
  let '(subkey, ietf_nonce) := sdb_xchacha_setup key nonce in
  let first_block := sdb_chacha_block subkey 0 ietf_nonce in
  let expected := sdb_aead_tag first_block aad ciphertext in
  fail_if negb (sdb_constant_time_equal expected tag 16) with SDB_E_CORRUPT ;;
  Ok (if bool_decide (length ciphertext = 0%nat) then []
      else sdb_chacha_xor avx2 subkey ietf_nonce 1 ciphertext).

(** ** Reference *)

Definition pad16 (b : bytes) : bytes := b ++ zeros ((16 - length b mod 16) mod 16).

Definition aead_reference (poly_key aad ciphertext : bytes) : bytes :=
  poly1305_reference poly_key
    (pad16 aad ++ pad16 ciphertext ++ le_split 8 (Z.of_nat (length aad)) ++ le_split 8 (Z.of_nat (length ciphertext))).

(** ** The tag *)

Lemma update_if (key msg b : bytes) (c : sdb_poly1305) :
  poly_is key msg c ->
  poly_is key (msg ++ b) (if bool_decide (length b = 0%nat) then c else sdb_poly1305_update c b).
Proof.
  intros Hi; case_bool_decide as E; [rewrite (nil_length_inv b E), app_nil_r; done|by apply update_is].
Qed.

Lemma pad16_is (key msg b : bytes) (c : sdb_poly1305) :
  poly_is key (msg ++ b) c -> poly_is key (msg ++ pad16 b) (sdb_poly1305_pad16 c (length b)).
Proof.
  intros Hi; unfold sdb_poly1305_pad16, pad16; pose proof (Nat.mod_upper_bound (length b) 16 ltac:(lia)).
  case_bool_decide as E; rewrite app_assoc.
  - rewrite E; change ((16 - 0) mod 16)%nat with 0%nat; cbn [zeros replicate]; by rewrite app_nil_r.
  - rewrite (Nat.mod_small (16 - _)) by lia; by apply update_is.
Qed.

Lemma aead_tag_reference (poly_key aad ciphertext : bytes) :
  sdb_aead_tag poly_key aad ciphertext = aead_reference poly_key aad ciphertext.
Proof.
  unfold sdb_aead_tag, aead_reference; apply final_is; rewrite !app_assoc.
  replace (sdb_write_u64_le _ 8 _)
    with (le_split 8 (Z.of_nat (length aad)) ++ le_split 8 (Z.of_nat (length ciphertext))) by (codec_unfold; reflexivity).
  rewrite <- !app_assoc, (app_assoc (pad16 aad)).
  apply update_is, pad16_is, update_if, (pad16_is _ []), (update_if _ []), poly_init_is.
Qed.

Lemma length_aead_tag (poly_key aad ciphertext : bytes) : length (sdb_aead_tag poly_key aad ciphertext) = 16%nat.
Proof. rewrite aead_tag_reference; apply length_le_split. Qed.

(** ** Encryption and decryption *)

Lemma aead_counter (size : nat) : aead_too_large size = false -> 1 + Z.of_nat (blocks_of size) <= 2 ^ 32.
Proof. unfold aead_too_large, UINT32_MAX; intros H; pose proof (blocks_of_bound size); zbool_hyps; lia. Qed.

(** The stream cipher as encryption and decryption call it. *)
Definition stream (avx2 : bool) (key nonce m : bytes) : bytes :=
  if bool_decide (length m = 0%nat) then [] else sdb_chacha_xor avx2 key nonce 1 m.

Lemma stream_reference (avx2 : bool) (key nonce m : bytes) :
  aead_too_large (length m) = false -> stream avx2 key nonce m = chacha20_reference key nonce 1 m.
Proof.
  intros Hs; unfold stream; case_bool_decide as E; [by rewrite (nil_length_inv m E)|].
  apply chacha_xor_reference; [lia|by apply aead_counter].
Qed.

Lemma length_stream_cipher (avx2 : bool) (key nonce m : bytes) :
  aead_too_large (length m) = false -> length (stream avx2 key nonce m) = length m.
Proof. intros; rewrite stream_reference by done; apply length_reference. Qed.

Lemma stream_involutive (a a' : bool) (key nonce m : bytes) :
  aead_too_large (length m) = false -> stream a key nonce (stream a' key nonce m) = m.
Proof.
  intros Hs; rewrite (stream_reference a) by (rewrite length_stream_cipher; done); rewrite stream_reference by done.
  unfold chacha20_reference; rewrite length_xor_bytes by (rewrite length_stream; apply blocks_of_bound).
  apply xor_bytes_involutive; rewrite length_stream; apply blocks_of_bound.
Qed.

Lemma decrypt_iff_encrypt (a a' : bool) (key nonce aad plaintext ciphertext tag : bytes) :
  length tag = 16%nat ->
  sdb_xchacha20poly1305_decrypt a key nonce aad ciphertext tag = Ok plaintext
  <-> sdb_xchacha20poly1305_encrypt a' key nonce aad plaintext = Ok (ciphertext, tag).
Proof.
  intros Ht; unfold sdb_xchacha20poly1305_decrypt, sdb_xchacha20poly1305_encrypt.
  destruct (sdb_xchacha_setup key nonce) as [subkey ietf_nonce].
  fold (stream a subkey ietf_nonce ciphertext) (stream a' subkey ietf_nonce plaintext).
  rewrite constant_time_equal_spec by (rewrite ?length_aead_tag; lia).
  rewrite !take_ge by (rewrite ?length_aead_tag; lia); split.
  - intros H; inv_ok H; injection H as <-; apply negb_false_iff, bool_decide_eq_true in Hchk0.
    rewrite length_stream_cipher, Hchk, stream_involutive by done; cbn [check]; by rewrite Hchk0.
  - intros H; inv_ok H; injection H as <- <-.
    rewrite length_stream_cipher, Hchk, stream_involutive by done; by rewrite bool_decide_eq_true_2 by done.
Qed.

(** The decryption, against the reference. *)
Lemma decrypt_reference (avx2 : bool) (key nonce aad ciphertext tag subkey ietf_nonce : bytes) :
  length tag = 16%nat -> aead_too_large (length ciphertext) = false ->
  sdb_xchacha_setup key nonce = (subkey, ietf_nonce) ->
  sdb_xchacha20poly1305_decrypt avx2 key nonce aad ciphertext tag
  = if bool_decide (tag = aead_reference (sdb_chacha_block subkey 0 ietf_nonce) aad ciphertext)
    then Ok (chacha20_reference subkey ietf_nonce 1 ciphertext) else Err SDB_E_CORRUPT.
Proof.
  intros Ht Hs Es; unfold sdb_xchacha20poly1305_decrypt; rewrite Hs, Es.
  rewrite <- (stream_reference avx2 subkey ietf_nonce ciphertext Hs); fold (stream avx2 subkey ietf_nonce ciphertext).
  rewrite <- aead_tag_reference.
  set (expected := sdb_aead_tag _ _ _); generalize (stream avx2 subkey ietf_nonce ciphertext); intros out.
  assert (Le : length expected = 16%nat) by apply length_aead_tag; clearbody expected.
  rewrite constant_time_equal_spec, !take_ge by lia; cbn [check].
  do 2 case_bool_decide; try done; congruence.
Qed.

(** C33: The authenticated cipher is a bijection between what it accepts and what it
    produces.  A ciphertext and a tag decrypt to a plaintext exactly when encrypting
    this plaintext under the same key, nonce and associated data yields this
    ciphertext and this tag; every other pair of an admissible size is
    [SDB_E_CORRUPT].  The tag is RFC 8439's Poly1305 over the padded associated data,
    the padded ciphertext and the two lengths, the ciphertext RFC 8439's ChaCha20
    from counter 1, and neither depends on the instruction set that computed them. *)
Theorem aead_decrypt_iff (avx2 avx2' : bool) (key nonce aad ciphertext tag : bytes) :
  length tag = 16%nat ->
  (forall plaintext,
     sdb_xchacha20poly1305_decrypt avx2 key nonce aad ciphertext tag = Ok plaintext
     <-> sdb_xchacha20poly1305_encrypt avx2' key nonce aad plaintext = Ok (ciphertext, tag))
  /\ (aead_too_large (length ciphertext) = false ->
      let '(subkey, ietf_nonce) := sdb_xchacha_setup key nonce in
      sdb_xchacha20poly1305_decrypt avx2 key nonce aad ciphertext tag
      = if bool_decide (tag = aead_reference (sdb_chacha_block subkey 0 ietf_nonce) aad ciphertext)
        then Ok (chacha20_reference subkey ietf_nonce 1 ciphertext) else Err SDB_E_CORRUPT).
Proof.
  intros Ht; split; [intros; by apply decrypt_iff_encrypt|].
  intros Hs; pose proof (decrypt_reference avx2 key nonce aad ciphertext tag) as H.
  destruct (sdb_xchacha_setup key nonce) as [subkey ietf_nonce]; by apply H.
Qed.

(** Encryption succeeds on every message the counter can number. *)
Lemma encrypt_ok (avx2 : bool) (key nonce aad plaintext : bytes) :
  aead_too_large (length plaintext) = false ->
  exists ciphertext tag, sdb_xchacha20poly1305_encrypt avx2 key nonce aad plaintext = Ok (ciphertext, tag)
    /\ length ciphertext = length plaintext /\ length tag = 16%nat.
Proof.
  intros Hs; unfold sdb_xchacha20poly1305_encrypt; rewrite Hs; destruct (sdb_xchacha_setup key nonce) as [subkey n].
  fold (stream avx2 subkey n plaintext); eexists _, _; split; [done|].
  by rewrite length_stream_cipher, length_aead_tag.
Qed.

Lemma encrypt_lengths (avx2 : bool) (key nonce aad plaintext ciphertext tag : bytes) :
  sdb_xchacha20poly1305_encrypt avx2 key nonce aad plaintext = Ok (ciphertext, tag) ->
  length ciphertext = length plaintext /\ length tag = 16%nat.
Proof.
  intros H; pose proof H as H'; unfold sdb_xchacha20poly1305_encrypt in H'; destruct (sdb_xchacha_setup key nonce) in H'.
  apply check_Ok in H' as [Hs _]; destruct (encrypt_ok avx2 key nonce aad plaintext Hs) as (ct & t & E & ? & ?).
  rewrite H in E; injection E as <- <-; done.
Qed.

Lemma aead_decrypt_iff_witness :
  sdb_xchacha20poly1305_decrypt true (zeros 32) (zeros 24) (zeros 5) (zeros 70) (zeros 16) = Err SDB_E_CORRUPT
  /\ exists ct tag, sdb_xchacha20poly1305_encrypt true (zeros 32) (zeros 24) (zeros 5) (zeros 70) = Ok (ct, tag)
     /\ sdb_xchacha20poly1305_decrypt false (zeros 32) (zeros 24) (zeros 5) ct tag = Ok (zeros 70).
Proof.
  split; [vm_compute; reflexivity|].
  destruct (encrypt_ok true (zeros 32) (zeros 24) (zeros 5) (zeros 70)) as (ct & tag & E & _ & Ht); [reflexivity|].
  exists ct, tag; split; [exact E|].
  exact (proj2 (proj1 (aead_decrypt_iff false true (zeros 32) (zeros 24) (zeros 5) ct tag Ht) (zeros 70)) E).
Defined.
