(* ===== verification/EncryptedPage.v ===== *)
(** * Encrypted pages ([src/encrypted_page.c])

    A page of an encrypted database is a page envelope whose payload is a header
    (magic, version, inner type, nonce, size, tag) and the ciphertext of the inner
    payload; the associated data binds it to its file, its page id, its LSN, its
    type and its size.  [random] is what [sdb_random_bytes] answers, the operating
    system's. *)

From S2P Require Import Prelude Status Codec Checksum Page Superblock Sha256 Chacha Poly1305 Aead.

Definition SDB_CRYPTO_NONCE_SIZE : nat := 24.
Definition SDB_CRYPTO_TAG_SIZE : nat := 16.
Definition SDB_ENCRYPTED_PAYLOAD_HEADER_SIZE : nat := 52.
Definition SDB_ENCRYPTED_AAD_SIZE : nat := 40.

(** ["SEN1"] *)
Definition sdb_encrypted_magic : bytes := byte.of_Z <$> [83; 69; 78; 49].

Definition sdb_encrypted_aad (superblock : sdb_superblock_v1) (page_id page_lsn plaintext_type plaintext_size : Z) : bytes :=
  let aad := zeros SDB_ENCRYPTED_AAD_SIZE in
  let aad := memcpy_at aad 0 (sb_file_id superblock) in
  let aad := sdb_write_u64_le aad 16 page_id in
  let aad := sdb_write_u64_le aad 24 page_lsn in
  let aad := sdb_write_u16_le aad 32 plaintext_type in
  sdb_write_u32_le aad 36 plaintext_size.

(** A type a page may have inside the encryption. *)
Definition inner_type_bad (t : Z) : bool := negb (t =? SDB_PAGE_TYPE_DATA) && negb (t =? SDB_PAGE_TYPE_FREE).

(** The header, before the tag is known. *)
Definition encrypted_header (plaintext_type : Z) (nonce : bytes) (plaintext_size : Z) : bytes :=
  let payload := zeros SDB_ENCRYPTED_PAYLOAD_HEADER_SIZE in
  let payload := memcpy_at payload 0 sdb_encrypted_magic in
  let payload := sdb_write_u16_le payload 4 1 in
  let payload := sdb_write_u16_le payload 6 plaintext_type in
  let payload := memcpy_at payload 8 nonce in
  sdb_write_u32_le payload 32 plaintext_size.

Definition sdb_encrypted_page_encode (avx2 : bool) (random : result bytes) (superblock : sdb_superblock_v1) (data_key : bytes)
    (page_size plaintext_type page_id page_lsn : Z) (plaintext : bytes) : result bytes :=
  let plaintext_size := Z.of_nat (length plaintext) in
  fail_if (page_id =? 0) || inner_type_bad plaintext_type
          || (page_size <? Z.of_nat SDB_PAGE_HEADER_SIZE + Z.of_nat SDB_ENCRYPTED_PAYLOAD_HEADER_SIZE)
          || (plaintext_size >? UINT32_MAX)
          || (plaintext_size >? page_size - Z.of_nat SDB_PAGE_HEADER_SIZE - Z.of_nat SDB_ENCRYPTED_PAYLOAD_HEADER_SIZE)
    with SDB_E_INVALID_ARGUMENT ;;
  nonce ← random;
  let payload := encrypted_header plaintext_type nonce (wrap 32 plaintext_size) in
  let aad := sdb_encrypted_aad superblock page_id page_lsn plaintext_type (wrap 32 plaintext_size) in
  '(ciphertext, tag) ← sdb_xchacha20poly1305_encrypt avx2 data_key nonce aad plaintext;
  sdb_page_encode page_size SDB_PAGE_TYPE_ENCRYPTED page_id page_lsn (memcpy_at payload 36 tag ++ ciphertext).

(** The type and the plaintext.  The size the code stores when the output is too
    small is not part of the result. *)
Definition sdb_encrypted_page_decrypt (avx2 : bool) (superblock : sdb_superblock_v1) (data_key : bytes)
    (encrypted_view : sdb_page_view) (plaintext_capacity : nat) : result (Z * bytes) :=
  let payload := view_payload encrypted_view in
  fail_if negb (view_type encrypted_view =? SDB_PAGE_TYPE_ENCRYPTED)
          || bool_decide (length payload < SDB_ENCRYPTED_PAYLOAD_HEADER_SIZE)%nat
    with SDB_E_INVALID_ARGUMENT ;;
  let version := sdb_read_u16_le payload 4 in
  let plaintext_type := sdb_read_u16_le payload 6 in
  let plaintext_size := sdb_read_u32_le payload 32 in
  fail_if negb (bool_decide (slice payload 0 4 = sdb_encrypted_magic))
          || negb (version =? 1)
          || inner_type_bad plaintext_type
          || negb (plaintext_size =? Z.of_nat (length payload) - Z.of_nat SDB_ENCRYPTED_PAYLOAD_HEADER_SIZE)
    with SDB_E_CORRUPT ;;
  fail_if (Z.of_nat plaintext_capacity <? plaintext_size) with SDB_E_BUFFER_TOO_SMALL ;;
  let expected_nonce := slice payload 8 SDB_CRYPTO_NONCE_SIZE in
  let aad := sdb_encrypted_aad superblock (view_page_id encrypted_view) (view_page_lsn encrypted_view)
               plaintext_type plaintext_size in
  plaintext ← sdb_xchacha20poly1305_decrypt avx2 data_key expected_nonce aad
                (slice payload SDB_ENCRYPTED_PAYLOAD_HEADER_SIZE (Z.to_nat plaintext_size))
                (slice payload 36 SDB_CRYPTO_TAG_SIZE);
  Ok (plaintext_type, plaintext).

(** ** The payload of an encrypted page *)

Definition encrypted_payload (t : Z) (nonce : bytes) (size : Z) (tag ciphertext : bytes) : bytes :=
  memcpy_at (encrypted_header t nonce size) 36 tag ++ ciphertext.

Lemma payload_slices (t : Z) (nonce : bytes) (size : Z) (tag ciphertext : bytes) :
  length nonce = 24%nat -> length tag = 16%nat ->
  let payload := encrypted_payload t nonce size tag ciphertext in
  length payload = (52 + length ciphertext)%nat
  /\ slice payload 0 4 = sdb_encrypted_magic /\ slice payload 4 2 = le_split 2 1 /\ slice payload 6 2 = le_split 2 t
  /\ slice payload 8 24 = nonce /\ slice payload 32 4 = le_split 4 size /\ slice payload 36 16 = tag
  /\ slice payload 52 (length ciphertext) = ciphertext.
Proof.
  intros Hn Ht; assert (length sdb_encrypted_magic = 4%nat) by reflexivity.
  unfold encrypted_payload; set (head := memcpy_at _ 36 tag).
  assert (Hl : length head = 52%nat).
  { unfold head, encrypted_header, SDB_ENCRYPTED_PAYLOAD_HEADER_SIZE; cbv zeta; codec_unfold; len_lia. }
  split; [rewrite length_app; lia|].
  assert (Hc : slice (head ++ ciphertext) 52 (length ciphertext) = ciphertext).
  { unfold slice; by rewrite drop_app_length', firstn_all. }
  rewrite Hc; do 6 (rewrite slice_app_l by lia).
  clear Hl; unfold head, encrypted_header, SDB_ENCRYPTED_PAYLOAD_HEADER_SIZE; cbv zeta; codec_unfold.
  split_and!; buf_simp; done.
Qed.

Lemma payload_eta (payload : bytes) :
  (52 <= length payload)%nat -> slice payload 0 4 = sdb_encrypted_magic -> sdb_read_u16_le payload 4 = 1 ->
  payload = encrypted_payload (sdb_read_u16_le payload 6) (slice payload 8 24) (sdb_read_u32_le payload 32)
              (slice payload 36 16) (drop 52 payload).
Proof.
  intros Hl Hm Hv; rewrite <- (take_drop 52 payload) at 1; unfold encrypted_payload; f_equal.
  assert (length sdb_encrypted_magic = 4%nat) by reflexivity.
  unfold encrypted_header, SDB_ENCRYPTED_PAYLOAD_HEADER_SIZE; cbv zeta; codec_unfold.
  rewrite sdb_read_u16_le_spec in Hv; rewrite <- Hv, <- Hm, !le_split_combine_slice by len_lia.
  change (take 52 payload) with (slice payload 0 52); symmetry.
  apply drop_0_ext; drop_ext 4%nat; drop_ext 2%nat; drop_ext 2%nat; drop_ext 24%nat; drop_ext 4%nat; drop_ext 16%nat.
  by rewrite !drop_ge by len_lia.
Qed.

Lemma inner_type_range (t : Z) : inner_type_bad t = false -> 0 <= t < 2 ^ 16.
Proof. unfold inner_type_bad, SDB_PAGE_TYPE_DATA, SDB_PAGE_TYPE_FREE; intros H; apply andb_false_iff in H; destruct H; zbool_hyps; lia. Qed.

Lemma too_large_u32 (n : nat) : Z.of_nat n < 2 ^ 32 -> aead_too_large n = false.
Proof. intros; unfold aead_too_large, UINT32_MAX; zcmp; done. Qed.

(** The decryption accepts exactly the payloads the encoding builds. *)
Lemma decrypt_iff_payload (a a' : bool) (sb : sdb_superblock_v1) (key : bytes) (v : sdb_page_view) (cap : nat) (t : Z) (pt : bytes) :
  view_type v = SDB_PAGE_TYPE_ENCRYPTED ->
  sdb_encrypted_page_decrypt a sb key v cap = Ok (t, pt)
  <-> (length pt <= cap)%nat /\ inner_type_bad t = false /\ Z.of_nat (length pt) < 2 ^ 32
      /\ exists nonce ct tag, length nonce = 24%nat
           /\ sdb_xchacha20poly1305_encrypt a' key nonce
                (sdb_encrypted_aad sb (view_page_id v) (view_page_lsn v) t (Z.of_nat (length pt))) pt = Ok (ct, tag)
           /\ view_payload v = encrypted_payload t nonce (Z.of_nat (length pt)) tag ct.
Proof.
  intros Hty; unfold sdb_encrypted_page_decrypt, SDB_ENCRYPTED_PAYLOAD_HEADER_SIZE, SDB_CRYPTO_NONCE_SIZE, SDB_CRYPTO_TAG_SIZE.
  rewrite Hty, Z.eqb_refl; set (P := view_payload v); split.
  - intros H; inv_ok H; injection H as <- <-; zbool_hyps.
    pose proof (sdb_read_u32_le_range P 32).
    match goal with H : _ = Ok a0 |- _ => apply (decrypt_iff_encrypt a a') in H; [rename H into He|apply length_slice; lia] end.
    destruct (encrypt_lengths _ _ _ _ _ _ _ He) as [El _]; rewrite length_slice in El by lia.
    replace (Z.of_nat (length a0)) with (sdb_read_u32_le P 32) by lia.
    do 3 (split; [done || lia|]); eexists _, _, _; split; [|split; [exact He|]]; [apply length_slice; lia|].
    rewrite (payload_eta P) at 1 by done || lia; f_equal; unfold slice; rewrite take_ge by (rewrite length_drop; lia); done.
  - intros (Hc & Ht & Hs & nonce & ct & tag & Hn & He & EP).
    destruct (encrypt_lengths _ _ _ _ _ _ _ He) as [El Etag].
    destruct (payload_slices t nonce (Z.of_nat (length pt)) tag ct Hn Etag) as (L & S0 & S4 & S6 & S8 & S32 & S36 & S52).
    rewrite <- EP in L, S0, S4, S6, S8, S32, S36, S52.
    rewrite !sdb_read_u16_le_spec, sdb_read_u32_le_spec, S0, S4, S6, S8, S32, S36.
    pose proof (inner_type_range t Ht); rewrite !le_combine_split_small by lia.
    rewrite Nat2Z.id, <- El, S52, El, Ht, L, (bool_decide_eq_true_2 (_ = _)), bool_decide_eq_false_2 by done || lia.
    zcmp; cbn [orb negb check]; apply (decrypt_iff_encrypt a a') in He; [by rewrite He|done].
Qed.

Lemma encode_ok_iff (a : bool) (nonce : bytes) (sb : sdb_superblock_v1) (key : bytes) (page_size t id lsn : Z) (pt page : bytes) :
  sdb_encrypted_page_encode a (Ok nonce) sb key page_size t id lsn pt = Ok page
  <-> inner_type_bad t = false /\ Z.of_nat (length pt) < 2 ^ 32 /\ Z.of_nat (length pt) <= page_size - 84
      /\ exists ct tag, sdb_xchacha20poly1305_encrypt a key nonce (sdb_encrypted_aad sb id lsn t (Z.of_nat (length pt))) pt = Ok (ct, tag)
           /\ sdb_page_encode page_size SDB_PAGE_TYPE_ENCRYPTED id lsn
                (encrypted_payload t nonce (Z.of_nat (length pt)) tag ct) = Ok page.
Proof.
  unfold sdb_encrypted_page_encode, SDB_PAGE_HEADER_SIZE, SDB_ENCRYPTED_PAYLOAD_HEADER_SIZE, UINT32_MAX; split.
  - intros H; apply check_Ok in H as [Hc H]; zbool_hyps; cbn [mbind result_bind] in H; rewrite wrap_small in H by lia.
    apply bind_Ok in H as ([ct tag] & He & H); do 3 (split; [done || lia|]); by exists ct, tag.
  - intros (Ht & Hs & Hp & ct & tag & He & H); pose proof (page_encode_guards _ _ _ _ _ _ H) as (? & _ & _ & ? & _).
    rewrite Ht; zcmp; cbn [orb check mbind result_bind]; rewrite wrap_small by lia; by rewrite He.
Qed.


