(* ===== verification/KeyManager.v ===== *)
(** * Wrapping the data key ([src/key_manager.c])

    The data key of an encrypted database is stored in its superblock, encrypted
    under a key derived from the password; the associated data is the part of the
    header that must not be changed behind the key's back. *)

From S2P Require Import Prelude Status Codec Superblock Sha256 Chacha Poly1305 Aead.

Definition sdb_key_wrap_nonce (superblock : sdb_superblock_v1) : bytes :=
  sdb_write_u64_le (memcpy_at (zeros 24) 0 (sb_file_id superblock)) 16 (sb_key_wrap_id superblock).

Definition sdb_key_wrap_aad (superblock : sdb_superblock_v1) : bytes :=
  let aad := zeros 48 in
  let aad := memcpy_at aad 0 (sb_file_id superblock) in
  let aad := memcpy_at aad 16 (sb_salt superblock) in
  let aad := sdb_write_u32_le aad 32 (sb_page_size superblock) in
  let aad := sdb_write_u32_le aad 36 (sb_flags superblock) in
  let aad := sdb_write_u32_le aad 40 (sb_key_wrap_id superblock) in
  sdb_write_u32_le aad 44 (sb_kdf_iterations superblock).

(** The guard both operations open with. *)
Definition key_arguments_bad (superblock : sdb_superblock_v1) (password : bytes) : bool :=
  bool_decide (length password = 0%nat)
  || (Z.land (sb_flags superblock) SDB_FLAG_ENCRYPTED =? 0)
  || (sb_key_wrap_id superblock =? 0)
  || (sb_kdf_iterations superblock <? SDB_MIN_KDF_ITERATIONS)
  || (sb_kdf_iterations superblock >? SDB_MAX_KDF_ITERATIONS).

Definition set_wrapped (sb : sdb_superblock_v1) (wrapped_key key_wrap_tag : bytes) : sdb_superblock_v1 :=
  {| sb_page_size := sb_page_size sb; sb_flags := sb_flags sb; sb_generation := sb_generation sb;
     sb_checkpoint_lsn := sb_checkpoint_lsn sb; sb_root_page := sb_root_page sb; sb_freelist_page := sb_freelist_page sb;
     sb_next_page_id := sb_next_page_id sb; sb_key_wrap_id := sb_key_wrap_id sb; sb_kdf_iterations := sb_kdf_iterations sb;
     sb_salt := sb_salt sb; sb_file_id := sb_file_id sb; sb_wrapped_key := wrapped_key; sb_key_wrap_tag := key_wrap_tag |}.

Definition sdb_key_wrap (avx2 : bool) (superblock : sdb_superblock_v1) (password data_key : bytes) : result sdb_superblock_v1 :=
  fail_if key_arguments_bad superblock password with SDB_E_INVALID_ARGUMENT ;;
  wrapping_key ← sdb_pbkdf2_hmac_sha256 password (sb_salt superblock) (sb_kdf_iterations superblock) 32;
  '(wrapped_key, key_wrap_tag) ←
    sdb_xchacha20poly1305_encrypt avx2 wrapping_key (sdb_key_wrap_nonce superblock) (sdb_key_wrap_aad superblock) data_key;
  Ok (set_wrapped superblock wrapped_key key_wrap_tag).

(** [SDB_E_CORRUPT] of the cipher is a wrong password. *)
Definition as_authentication {A} (r : result A) : result A :=
  match r with Err SDB_E_CORRUPT => Err SDB_E_AUTHENTICATION | r => r end.

Definition sdb_key_unwrap (avx2 : bool) (superblock : sdb_superblock_v1) (password : bytes) : result bytes :=
  fail_if key_arguments_bad superblock password with SDB_E_INVALID_ARGUMENT ;;
  wrapping_key ← sdb_pbkdf2_hmac_sha256 password (sb_salt superblock) (sb_kdf_iterations superblock) 32;
  as_authentication
    (sdb_xchacha20poly1305_decrypt avx2 wrapping_key (sdb_key_wrap_nonce superblock) (sdb_key_wrap_aad superblock)
       (sb_wrapped_key superblock) (sb_key_wrap_tag superblock)).

(** ** Wrapping and unwrapping *)

Lemma wrapping_key_total (sb : sdb_superblock_v1) (password : bytes) :
  superblock_typed sb -> key_arguments_bad sb password = false ->
  exists k, sdb_pbkdf2_hmac_sha256 password (sb_salt sb) (sb_kdf_iterations sb) 32 = Ok k.
Proof.
  intros Ht Hg; unfold superblock_typed, SDB_SALT_SIZE in Ht; unfold key_arguments_bad, SDB_MIN_KDF_ITERATIONS in Hg; zbool_hyps.
  destruct (pbkdf2_total password (sb_salt sb) (sb_kdf_iterations sb) 32) as (k & E & _);
    unfold SIZE_MAX, UINT64_MAX, UINT32_MAX; [lia..|by exists k].
Qed.

(** The stored fields do not enter the nonce, the associated data or the guard. *)
Lemma set_wrapped_same (sb : sdb_superblock_v1) : set_wrapped sb (sb_wrapped_key sb) (sb_key_wrap_tag sb) = sb.
Proof. by destruct sb. Qed.

Lemma as_authentication_ok {A} (r : result A) (x : A) : as_authentication r = Ok x -> r = Ok x.
Proof. by destruct r as [|[]]. Qed.

Lemma unwrap_error (a : bool) (k nonce aad wrapped tag : bytes) (e : sdb_status) :
  length tag = 16%nat -> length wrapped = 32%nat ->
  as_authentication (sdb_xchacha20poly1305_decrypt a k nonce aad wrapped tag) = Err e -> e = SDB_E_AUTHENTICATION.
Proof.
  intros Ht Hw; destruct (sdb_xchacha_setup k nonce) as [subkey n] eqn:Es.
  rewrite (decrypt_reference a k nonce aad wrapped tag subkey n Ht) by (done || by rewrite Hw).
  case_bool_decide; cbn; congruence.
Qed.

Definition key_superblock : sdb_superblock_v1 :=
  {| sb_page_size := 4096; sb_flags := SDB_FLAG_ENCRYPTED; sb_generation := 1; sb_checkpoint_lsn := 0; sb_root_page := 0;
     sb_freelist_page := 0; sb_next_page_id := 3; sb_key_wrap_id := 1; sb_kdf_iterations := SDB_MIN_KDF_ITERATIONS;
     sb_salt := zeros 16; sb_file_id := zeros 16; sb_wrapped_key := zeros 32; sb_key_wrap_tag := zeros 16 |}.

(** C35: The password protects the data key.  For a well-typed header whose flags and
    iteration count a wrapping accepts, wrapping a 32-byte key always succeeds, and
    the header it returns unwraps to the same key under the same password.  In
    general a header unwraps to a key exactly when wrapping this key with this
    password leaves the header as it is; otherwise the answer is
    [SDB_E_AUTHENTICATION].  A change of the file id, the salt, the page size, the
    flags, the wrap id or the iteration count is a change of what is authenticated. *)
Theorem key_unwrap_iff (a a' : bool) (sb : sdb_superblock_v1) (password : bytes) :
  superblock_typed sb -> key_arguments_bad sb password = false ->
  (forall data_key, length data_key = 32%nat ->
     exists sb', sdb_key_wrap a sb password data_key = Ok sb' /\ superblock_typed sb'
       /\ sdb_key_unwrap a' sb' password = Ok data_key)
  /\ (forall data_key, sdb_key_unwrap a' sb password = Ok data_key <-> sdb_key_wrap a sb password data_key = Ok sb)
  /\ (forall e, sdb_key_unwrap a' sb password = Err e -> e = SDB_E_AUTHENTICATION).
Proof.
  intros Ht Hg; destruct (wrapping_key_total sb password Ht Hg) as (k & Ek).
  unfold sdb_key_wrap, sdb_key_unwrap; rewrite Hg, Ek; cbn [check mbind result_bind].
  split; [|split].
  - intros data_key Hl.
    destruct (encrypt_ok a k (sdb_key_wrap_nonce sb) (sdb_key_wrap_aad sb) data_key) as (ct & tag & E & Ec & Etag).
    { rewrite Hl; reflexivity. }
    rewrite E; cbn [mbind result_bind]; eexists; split; [done|]; split.
    { unfold superblock_typed in *; cbn [set_wrapped sb_wrapped_key sb_key_wrap_tag]; rewrite Ec, Etag, Hl; intuition. }
    change (key_arguments_bad (set_wrapped sb ct tag) password) with (key_arguments_bad sb password); rewrite Hg.
    cbn [check set_wrapped sb_salt sb_kdf_iterations sb_wrapped_key sb_key_wrap_tag]; rewrite Ek; cbn [mbind result_bind].
    change (sdb_key_wrap_nonce (set_wrapped sb ct tag)) with (sdb_key_wrap_nonce sb).
    change (sdb_key_wrap_aad (set_wrapped sb ct tag)) with (sdb_key_wrap_aad sb).
    by rewrite (proj2 (decrypt_iff_encrypt a' a _ _ _ _ _ _ Etag) E).
  - intros data_key; pose proof (decrypt_iff_encrypt a' a k (sdb_key_wrap_nonce sb) (sdb_key_wrap_aad sb) data_key
      (sb_wrapped_key sb) (sb_key_wrap_tag sb)) as H; destruct H as [H1 H2]; [apply Ht|]; split.
    + intros E; rewrite H1; [cbn; by rewrite set_wrapped_same|]; by apply as_authentication_ok.
    + intros E; apply bind_Ok in E as ([ct tag] & E & Es); injection Es as Es.
      pose proof (f_equal sb_wrapped_key Es) as E1; pose proof (f_equal sb_key_wrap_tag Es) as E2; cbn in E1, E2.
      by rewrite H2 by congruence.
  - intros e; apply unwrap_error; apply Ht.
Qed.

Lemma key_unwrap_iff_witness :
  exists sb', sdb_key_wrap false key_superblock [byte.of_Z 112] (zeros 32) = Ok sb' /\ superblock_typed sb'
    /\ sdb_key_unwrap true sb' [byte.of_Z 112] = Ok (zeros 32).
Proof.
  apply (key_unwrap_iff false true); [|reflexivity|reflexivity].
  unfold superblock_typed, SDB_SALT_SIZE, SDB_FILE_ID_SIZE, SDB_WRAPPED_KEY_SIZE, SDB_KEY_WRAP_TAG_SIZE; repeat split; by vm_compute.
Defined.
