(* ===== verification/Keys.v ===== *)
(** * Key comparison ([sdb_btree_page_compare_keys] of [src/btree_page.c] and
    [sdb_btree_compare] of [src/btree.c])

    [memcmp] on the common prefix, then the lengths.  The comparison is shown
    to be the three-way comparison of the lexicographic order on byte strings,
    and that order to be a strict total order; every ordering argument about
    nodes and trees uses [key_lt]. *)

From S2P Require Import Prelude Status Codec.

(** The sign of C's [memcmp] on two buffers of [n] bytes: the difference of the
    first bytes that differ. *)
Fixpoint memcmp (s1 s2 : bytes) (n : nat) : Z :=
  match n, s1, s2 with
  | S n, a :: s1, b :: s2 =>
      if byte.unsigned a =? byte.unsigned b then memcmp s1 s2 n
      else byte.unsigned a - byte.unsigned b
  | _, _, _ => 0
  end.

Definition sdb_btree_page_compare_keys (left right : bytes) : Z :=
  let left_size := Z.of_nat (length left) in
  let right_size := Z.of_nat (length right) in
  let common := if left_size <? right_size then left_size else right_size in
  let compared := memcmp left right (Z.to_nat common) in
  if negb (compared =? 0) then compared
  else if left_size <? right_size then -1
  else if left_size >? right_size then 1 else 0.

Definition sdb_btree_compare (left right : bytes) : Z :=
  let left_size := Z.of_nat (length left) in
  let right_size := Z.of_nat (length right) in
  let common := if left_size <? right_size then left_size else right_size in
  let compared := memcmp left right (Z.to_nat common) in
  if negb (compared =? 0) then compared
  else if left_size <? right_size then -1
  else if left_size >? right_size then 1 else 0.

(** ** The lexicographic order *)

Fixpoint key_cmp (l r : bytes) : comparison :=
  match l, r with
  | [], [] => Eq
  | [], _ :: _ => Lt
  | _ :: _, [] => Gt
  | a :: l, b :: r =>
      match byte.unsigned a ?= byte.unsigned b with
      | Eq => key_cmp l r
      | c => c
      end
  end.

Definition key_lt (l r : bytes) : Prop := key_cmp l r = Lt.
Definition key_le (l r : bytes) : Prop := key_cmp l r <> Gt.

#[global] Instance key_lt_dec (l r : bytes) : Decision (key_lt l r).
Proof. unfold key_lt; destruct (key_cmp l r); [right | left | right]; done. Defined.
#[global] Instance key_le_dec (l r : bytes) : Decision (key_le l r).
Proof. unfold key_le; destruct (key_cmp l r); [left | left | right]; done || naive_solver. Defined.

Lemma key_cmp_eq (l r : bytes) : key_cmp l r = Eq <-> l = r.
Proof.
  revert r; induction l as [|a l IH]; intros [|b r]; cbn; try done.
  destruct (Z.compare_spec (byte.unsigned a) (byte.unsigned b)) as [E|E|E].
  - apply byte.unsigned_inj in E as ->; rewrite IH; split; [by intros -> | by intros [= ->]].
  - split; [done|]; intros [= -> _]; lia.
  - split; [done|]; intros [= -> _]; lia.
Qed.

Lemma key_cmp_antisym (l r : bytes) : key_cmp r l = CompOpp (key_cmp l r).
Proof.
  revert r; induction l as [|a l IH]; intros [|b r]; cbn; try done.
  rewrite Z.compare_antisym; destruct (byte.unsigned a ?= byte.unsigned b); cbn; auto.
Qed.

Lemma key_cmp_trans (a b c : bytes) : key_cmp a b = Lt -> key_cmp b c = Lt -> key_cmp a c = Lt.
Proof.
  revert b c; induction a as [|x a IH]; intros [|y b] [|z c]; cbn; try done.
  destruct (Z.compare_spec (byte.unsigned x) (byte.unsigned y)),
    (Z.compare_spec (byte.unsigned y) (byte.unsigned z)),
    (Z.compare_spec (byte.unsigned x) (byte.unsigned z)); try done; try lia; eauto.
Qed.

#[global] Instance key_lt_strict : StrictOrder key_lt.
Proof.
  split.
  - intros k H; unfold key_lt in H; by rewrite (proj2 (key_cmp_eq k k) eq_refl) in H.
  - intros a b c; apply key_cmp_trans.
Qed.

Lemma key_lt_irrefl (k : bytes) : ~ key_lt k k.
Proof. apply irreflexivity; apply _. Qed.

Lemma key_lt_trans (a b c : bytes) : key_lt a b -> key_lt b c -> key_lt a c.
Proof. apply key_cmp_trans. Qed.

Lemma key_le_lt_eq (a b : bytes) : key_le a b <-> key_lt a b \/ a = b.
Proof.
  unfold key_le, key_lt; rewrite <- key_cmp_eq; destruct (key_cmp a b); naive_solver.
Qed.

Lemma key_not_lt (a b : bytes) : ~ key_lt a b <-> key_le b a.
Proof.
  unfold key_le, key_lt; rewrite (key_cmp_antisym a b); destruct (key_cmp a b); cbn; naive_solver.
Qed.

Lemma key_not_le (a b : bytes) : ~ key_le a b <-> key_lt b a.
Proof.
  unfold key_le, key_lt; rewrite (key_cmp_antisym a b); destruct (key_cmp a b); cbn; naive_solver.
Qed.

Lemma key_le_refl (a : bytes) : key_le a a.
Proof. apply key_le_lt_eq; by right. Qed.

Lemma key_le_lt_trans (a b c : bytes) : key_le a b -> key_lt b c -> key_lt a c.
Proof. rewrite key_le_lt_eq; intros [?| ->]; [by apply key_lt_trans | done]. Qed.

Lemma key_lt_le_trans (a b c : bytes) : key_lt a b -> key_le b c -> key_lt a c.
Proof. rewrite key_le_lt_eq; intros ? [?| <-]; [by eapply key_lt_trans | done]. Qed.

Lemma key_le_trans (a b c : bytes) : key_le a b -> key_le b c -> key_le a c.
Proof.
  rewrite !key_le_lt_eq; intros [?| ->] [?| ->]; auto; left; by eapply key_lt_trans.
Qed.

Lemma key_lt_le (a b : bytes) : key_lt a b -> key_le a b.
Proof. rewrite key_le_lt_eq; auto. Qed.

Lemma key_trichotomy (a b : bytes) : key_lt a b \/ a = b \/ key_lt b a.
Proof.
  unfold key_lt; rewrite (key_cmp_antisym a b), <- key_cmp_eq; destruct (key_cmp a b); cbn; auto.
Qed.

(** ** The C comparison computes it *)

Lemma ltb_succ (x y : Z) : (Z.succ x <? Z.succ y) = (x <? y).
Proof. destruct (Z.ltb_spec (Z.succ x) (Z.succ y)), (Z.ltb_spec x y); done || lia. Qed.

Lemma compare_keys_cons (a b : byte) (l r : bytes) :
  sdb_btree_compare (a :: l) (b :: r) =
    if byte.unsigned a =? byte.unsigned b then sdb_btree_compare l r
    else byte.unsigned a - byte.unsigned b.
Proof.
  unfold sdb_btree_compare; cbn [length]; rewrite !Nat2Z.inj_succ.
  set (x := Z.of_nat (length l)); set (y := Z.of_nat (length r)).
  assert (Hc : Z.to_nat (if Z.succ x <? Z.succ y then Z.succ x else Z.succ y)
             = S (Z.to_nat (if x <? y then x else y))).
  { destruct (Z.ltb_spec (Z.succ x) (Z.succ y)), (Z.ltb_spec x y); lia. }
  rewrite Hc; cbn [memcmp].
  rewrite !Z.gtb_ltb, !ltb_succ.
  destruct (Z.eqb_spec (byte.unsigned a) (byte.unsigned b)); [done|].
  by rewrite (proj2 (Z.eqb_neq _ _)) by lia.
Qed.

Lemma compare_keys_cmp (l r : bytes) : (sdb_btree_compare l r ?= 0) = key_cmp l r.
Proof.
  revert r; induction l as [|a l IH]; intros [|b r]; try done.
  rewrite compare_keys_cons; cbn [key_cmp].
  destruct (Z.eqb_spec (byte.unsigned a) (byte.unsigned b)) as [E|E].
  - by rewrite E, Z.compare_refl.
  - destruct (Z.compare_spec (byte.unsigned a) (byte.unsigned b)); [lia| |];
      [apply Z.compare_lt_iff | apply Z.compare_gt_iff]; lia.
Qed.

Lemma page_compare_keys_eq (l r : bytes) :
  sdb_btree_page_compare_keys l r = sdb_btree_compare l r.
Proof. reflexivity. Qed.

(** The forms the callers test. *)
Lemma compare_lt_0 (l r : bytes) : (sdb_btree_compare l r <? 0) = bool_decide (key_lt l r).
Proof.
  symmetry; destruct (Z.ltb_spec (sdb_btree_compare l r) 0) as [E|E].
  - apply bool_decide_eq_true_2; unfold key_lt; rewrite <- compare_keys_cmp.
    by apply Z.compare_lt_iff.
  - apply bool_decide_eq_false_2; unfold key_lt; rewrite <- compare_keys_cmp.
    by apply Z.compare_ge_iff.
Qed.

Lemma compare_ge_0 (l r : bytes) : (sdb_btree_compare l r >=? 0) = negb (bool_decide (key_lt l r)).
Proof. rewrite <- compare_lt_0, Z.geb_leb; apply Z.leb_antisym. Qed.

Lemma compare_eq_0 (l r : bytes) : (sdb_btree_compare l r =? 0) = bool_decide (l = r).
Proof.
  pose proof (compare_keys_cmp l r) as H; pose proof (key_cmp_eq l r) as He.
  destruct (Z.eqb_spec (sdb_btree_compare l r) 0) as [E|E].
  - rewrite E in H; cbn in H; by rewrite bool_decide_eq_true_2 by (apply He; done).
  - rewrite bool_decide_eq_false_2; [done|]; intros Heq; apply He in Heq; rewrite Heq in H.
    apply Z.compare_eq in H; lia.
Qed.

Lemma compare_le_0 (l r : bytes) : (sdb_btree_compare l r <=? 0) = bool_decide (key_le l r).
Proof.
  pose proof (compare_lt_0 l r); pose proof (compare_eq_0 l r).
  destruct (decide (key_le l r)) as [E|E].
  - rewrite (bool_decide_eq_true_2 (key_le l r)) by done; apply key_le_lt_eq in E as [E|E].
    + rewrite bool_decide_eq_true_2 in H by done; lia.
    + rewrite (bool_decide_eq_true_2 (l = r)) in H0 by done; lia.
  - rewrite (bool_decide_eq_false_2 (key_le l r)) by done; rewrite key_le_lt_eq in E.
    rewrite bool_decide_eq_false_2 in H by naive_solver.
    rewrite bool_decide_eq_false_2 in H0 by naive_solver; lia.
Qed.
