(* ===== verification/Probe.v ===== *)
(** * Open addressing with linear probing

    Three tables of the program share one scheme: the WAL index
    ([src/wal_index.c]), the page cache ([src/page_cache.c]) and the duplicate
    check of the WAL writer ([src/wal.c]).  The capacity is a power of two, an
    identifier is hashed by a multiplication, the identifier 0 marks an empty
    slot.  The probe loops, the insertion and the backward-shift deletion are
    modelled here once, over the type of slots, with the invariant that makes
    them correct: every slot between the home of an identifier and its place is
    occupied. *)

From S2P Require Import Prelude.

(** [UINT64_C(11400714819323198485)] *)
Definition HASH_MUL : Z := 11400714819323198485.

Definition home (capacity page_id : Z) : Z := Z.land (wrap 64 (page_id * HASH_MUL)) (capacity - 1).

Definition next_slot (capacity index : Z) : Z := Z.land (wrap 64 (index + 1)) (capacity - 1).

Definition power_of_two (n : Z) : Prop := exists k, 0 <= k < 64 /\ n = 2 ^ k.

(** How many steps a probe makes from [a] to [b]. *)
Definition dist (n a b : Z) : Z := if a <=? b then b - a else b - a + n.

(** ** Arithmetic *)

Lemma land_mask (n x : Z) : power_of_two n -> Z.land x (n - 1) = x mod n.
Proof.
  intros (k & Hk & ->); rewrite <- Z.land_ones by lia; by rewrite Z.ones_equiv, Z.sub_1_r.
Qed.

Lemma power_of_two_pos (n : Z) : power_of_two n -> 0 < n <= 2 ^ 63.
Proof. intros (k & Hk & ->); split; [lia|]; apply Z.pow_le_mono_r; lia. Qed.

Lemma home_range (n x : Z) : power_of_two n -> 0 <= home n x < n.
Proof. intros Hn; unfold home; rewrite land_mask by done; apply Z.mod_pos_bound; by apply power_of_two_pos. Qed.

Lemma next_slot_spec (n i : Z) :
  power_of_two n -> 0 <= i < n -> next_slot n i = if i + 1 =? n then 0 else i + 1.
Proof.
  intros Hn Hi; pose proof (power_of_two_pos n Hn); unfold next_slot; rewrite land_mask by done.
  rewrite wrap_small by lia; destruct (Z.eqb_spec (i + 1) n) as [->|]; [apply Z.mod_same; lia|apply Z.mod_small; lia].
Qed.

(** Decide probe distances by arithmetic. *)
Ltac dist_lia :=
  unfold dist in *; repeat match goal with
  | |- context [?a <=? ?b] => destruct (Z.leb_spec a b)
  | H : context [?a <=? ?b] |- _ => destruct (Z.leb_spec a b)
  end; try lia.

Section Probe.
Context {A : Type} (id : A -> Z).

Implicit Types (slots : list A) (s : A).

(** ** The loops *)

(** [while (slots[index].page_id != 0 && slots[index].page_id != page_id)]; [None]
    when the loop does not end within [fuel] steps or leaves the table. *)
Fixpoint probe_for (fuel : nat) slots (capacity page_id index : Z) : option Z :=
  match fuel with
  | O => None
  | S fuel =>
      s ← slots !! Z.to_nat index;
      if (id s =? 0) || (id s =? page_id) then Some index
      else probe_for fuel slots capacity page_id (next_slot capacity index)
  end.

(** [for (probes = 0; probes < capacity; ++probes)]: the slot that holds the
    identifier, [Some None] if there is none. *)
Fixpoint probe_find (probes : nat) slots (capacity page_id index : Z) : option (option Z) :=
  match probes with
  | O => Some None
  | S probes =>
      s ← slots !! Z.to_nat index;
      if id s =? 0 then Some None
      else if id s =? page_id then Some (Some index)
      else probe_find probes slots capacity page_id (next_slot capacity index)
  end.

(** ** The invariant *)

Definition key_at slots (i : Z) : Z := from_option id 0 (slots !! Z.to_nat i).

Record table_wf (n : Z) slots : Prop := {
  tw_pow : power_of_two n;
  tw_length : Z.of_nat (length slots) = n;
  tw_unique i j : 0 <= i < n -> 0 <= j < n -> key_at slots i <> 0 -> key_at slots i = key_at slots j -> i = j;
  tw_chain i p : 0 <= i < n -> 0 <= p < n -> key_at slots i <> 0 ->
    dist n (home n (key_at slots i)) p < dist n (home n (key_at slots i)) i -> key_at slots p <> 0
}.

(** The occupied slots. *)
Definition occupied slots : list A := filter (fun s => id s <> 0) slots.

Definition empty_at (n : Z) slots (i : Z) : Prop := 0 <= i < n /\ key_at slots i = 0.

Lemma key_at_lookup slots (i : Z) s : slots !! Z.to_nat i = Some s -> key_at slots i = id s.
Proof. intros H; unfold key_at; by rewrite H. Qed.

Lemma slot_exists (n : Z) slots (i : Z) :
  Z.of_nat (length slots) = n -> 0 <= i < n -> exists s, slots !! Z.to_nat i = Some s.
Proof. intros Hl Hi; destruct (lookup_lt_is_Some_2 slots (Z.to_nat i)) as [s Hs]; [lia|]; by exists s. Qed.

Lemma key_at_insert slots (i p : Z) s :
  0 <= i < Z.of_nat (length slots) -> 0 <= p ->
  key_at (<[Z.to_nat i := s]> slots) p = if p =? i then id s else key_at slots p.
Proof.
  intros Hi Hp; unfold key_at; destruct (Z.eqb_spec p i) as [->|Hne].
  - rewrite list_lookup_insert_eq by lia; done.
  - rewrite list_lookup_insert_ne by lia; done.
Qed.

(** ** Probing *)

(** A probe has passed occupied slots with other identifiers only. *)
Definition passed (n : Z) slots (x i : Z) : Prop :=
  forall p, 0 <= p < n -> dist n (home n x) p < dist n (home n x) i -> key_at slots p <> 0 /\ key_at slots p <> x.

Lemma passed_next (n : Z) slots (x i : Z) :
  power_of_two n -> 0 <= i < n -> key_at slots i <> 0 -> key_at slots i <> x -> passed n slots x i ->
  dist n (home n x) i + 1 < n ->
  passed n slots x (next_slot n i) /\ dist n (home n x) (next_slot n i) = dist n (home n x) i + 1
  /\ 0 <= next_slot n i < n.
Proof.
  intros Hn Hi H0 Hx Hp Hd; pose proof (home_range n x Hn); rewrite next_slot_spec by done.
  assert (Hnext : 0 <= (if i + 1 =? n then 0 else i + 1) < n) by (destruct (Z.eqb_spec (i + 1) n); lia).
  assert (E : dist n (home n x) (if i + 1 =? n then 0 else i + 1) = dist n (home n x) i + 1)
    by (destruct (Z.eqb_spec (i + 1) n); dist_lia).
  split; [|done]; intros p Hpr Hpd; rewrite E in Hpd.
  destruct (decide (p = i)) as [->|Hne]; [done|]; apply Hp; [done|]; dist_lia.
Qed.

(** An identifier that the probe has not met before an empty slot is absent. *)
Lemma passed_absent (n : Z) slots (x i : Z) :
  table_wf n slots -> 0 <= i < n -> x <> 0 -> passed n slots x i -> key_at slots i = 0 ->
  forall j, 0 <= j < n -> key_at slots j <> x.
Proof.
  intros Hw Hi Hx Hp H0 j Hj Ej; pose proof (home_range n x (tw_pow _ _ Hw)).
  destruct (decide (dist n (home n x) j < dist n (home n x) i)) as [Hd|Hd]; [by apply (Hp j)|].
  assert (j <> i) by congruence.
  eapply (tw_chain _ _ Hw j i Hj Hi); [congruence| |done]; rewrite Ej; dist_lia.
Qed.

Lemma probe_for_spec (n : Z) slots (x e : Z) :
  table_wf n slots -> x <> 0 -> empty_at n slots e ->
  forall fuel i, passed n slots x i -> 0 <= i < n -> n <= Z.of_nat fuel + dist n (home n x) i ->
  exists q, probe_for fuel slots n x i = Some q /\ 0 <= q < n /\ passed n slots x q
    /\ (key_at slots q = x \/ key_at slots q = 0).
Proof.
  intros Hw Hx [He H0]; pose proof (tw_pow _ _ Hw) as Hn; pose proof (home_range n x Hn).
  induction fuel as [|fuel IH]; intros i Hp Hi Hf; [dist_lia|].
  destruct (slot_exists n slots i (tw_length _ _ Hw) Hi) as [s Hs]; apply key_at_lookup in Hs as Hk.
  cbn [probe_for]; rewrite Hs; cbn; destruct ((id s =? 0) || (id s =? x)) eqn:E.
  { exists i; do 3 (split; [done|]); rewrite Hk; apply orb_true_iff in E as [E|E]; apply Z.eqb_eq in E; tauto. }
  apply orb_false_iff in E as [E1 E2]; zbool_hyps.
  assert (Hd : dist n (home n x) i < dist n (home n x) e).
  { destruct (decide (dist n (home n x) e < dist n (home n x) i)) as [Hd|Hd]; [by destruct (Hp e He Hd)|].
    assert (i <> e) by congruence; dist_lia. }
  destruct (passed_next n slots x i) as (Hp' & Hd' & Hi'); try done; try congruence; [dist_lia|].
  apply IH; [done|done|lia].
Qed.

(** A probe for an empty slot is a probe for an absent identifier. *)
Lemma probe_for_empty (n : Z) slots (x : Z) :
  table_wf n slots -> (forall q, 0 <= q < n -> key_at slots q <> x) ->
  forall fuel i, 0 <= i < n -> probe_for fuel slots n 0 i = probe_for fuel slots n x i.
Proof.
  intros Hw Hx; induction fuel as [|fuel IH]; intros i Hi; [done|]; cbn [probe_for].
  destruct (slot_exists n slots i (tw_length _ _ Hw) Hi) as [s Hs]; rewrite Hs; cbn [mbind option_bind].
  apply key_at_lookup in Hs; rewrite (proj2 (Z.eqb_neq (id s) x)) by (rewrite <- Hs; by apply Hx).
  rewrite IH, orb_diag, orb_false_r; [done|]; rewrite next_slot_spec by (apply Hw || done).
  destruct (Z.eqb_spec (i + 1) n); lia.
Qed.

Lemma probe_find_spec (n : Z) slots (x : Z) :
  table_wf n slots -> x <> 0 ->
  forall probes i, passed n slots x i -> 0 <= i < n -> n = Z.of_nat probes + dist n (home n x) i ->
  exists r, probe_find probes slots n x i = Some r
    /\ match r with
       | Some q => 0 <= q < n /\ key_at slots q = x
       | None => forall q, 0 <= q < n -> key_at slots q <> x
       end.
Proof.
  intros Hw Hx; pose proof (tw_pow _ _ Hw) as Hn; pose proof (home_range n x Hn).
  induction probes as [|probes IH]; intros i Hp Hi Hf; [dist_lia|].
  destruct (slot_exists n slots i (tw_length _ _ Hw) Hi) as [s Hs]; apply key_at_lookup in Hs as Hk.
  cbn [probe_find]; rewrite Hs; cbn; destruct (Z.eqb_spec (id s) 0) as [E|E].
  { exists None; split; [done|]; eapply passed_absent; try done; congruence. }
  destruct (Z.eqb_spec (id s) x) as [Ex|Ex]; [exists (Some i); split_and!; (done || lia || congruence)|].
  destruct probes as [|probes].
  - exists None; split; [done|]; intros q Hq Eq; destruct (decide (q = i)) as [->|Hne]; [congruence|].
    destruct (Hp q Hq) as [_ Hpx]; [dist_lia|done].
  - destruct (passed_next n slots x i) as (Hp' & Hd' & Hi'); try done; try congruence; [lia|].
    apply IH; [done|done|lia].
Qed.

Lemma passed_home (n : Z) slots (x : Z) : power_of_two n -> passed n slots x (home n x).
Proof. intros Hn p Hp Hd; pose proof (home_range n x Hn); dist_lia. Qed.
(** ** Contents *)

Lemma occupied_cons slots s : occupied (s :: slots) = if id s =? 0 then occupied slots else s :: occupied slots.
Proof. unfold occupied; rewrite filter_cons; destruct (Z.eqb_spec (id s) 0); case_decide; done. Qed.

Lemma occupied_insert slots (i : nat) s s0 :
  slots !! i = Some s0 ->
  occupied [s0] ++ occupied (<[i := s]> slots) ≡ₚ occupied [s] ++ occupied slots.
Proof.
  intros H; unfold occupied; rewrite insert_take_drop by (by eapply lookup_lt_Some).
  rewrite <- (take_drop_middle slots i s0 H) at 3.
  rewrite !list.filter_app, !filter_cons, !filter_nil; repeat case_decide; solve_Permutation.
Qed.

Lemma occupied_fill slots (i : Z) s :
  0 <= i < Z.of_nat (length slots) -> key_at slots i = 0 -> id s <> 0 ->
  occupied (<[Z.to_nat i := s]> slots) ≡ₚ s :: occupied slots.
Proof.
  intros Hi H0 Hs; destruct (slot_exists _ slots i eq_refl Hi) as [s0 E]; apply key_at_lookup in E as Hk.
  pose proof (occupied_insert slots _ s s0 E) as HP; unfold occupied at 1 3 in HP.
  rewrite !filter_cons, !filter_nil, decide_False in HP by (intros Hc; congruence).
  by rewrite decide_True in HP.
Qed.

Lemma occupied_clear slots (i : Z) s s' :
  slots !! Z.to_nat i = Some s -> id s <> 0 -> id s' = 0 ->
  s :: occupied (<[Z.to_nat i := s']> slots) ≡ₚ occupied slots.
Proof.
  intros E Hs Hs'; pose proof (occupied_insert slots _ s' s E) as HP; unfold occupied at 1 3 in HP.
  rewrite !filter_cons, !filter_nil, decide_True in HP by done.
  by rewrite decide_False in HP by (intros Hc; congruence).
Qed.

Lemma occupied_key slots s :
  s ∈ occupied slots -> exists i, 0 <= i < Z.of_nat (length slots) /\ slots !! Z.to_nat i = Some s /\ id s <> 0.
Proof.
  intros Hs; apply list_elem_of_filter in Hs as [H0 Hs]; apply list_elem_of_lookup in Hs as [i Hi].
  exists (Z.of_nat i); rewrite Nat2Z.id; apply lookup_lt_Some in Hi as Hl; split_and!; (done || lia).
Qed.

Lemma lookup_occupied slots (i : nat) s : slots !! i = Some s -> id s <> 0 -> s ∈ occupied slots.
Proof. intros Hi H0; apply list_elem_of_filter; split; [done|by eapply list_elem_of_lookup_2]. Qed.

Lemma occupied_unique (n : Z) slots : table_wf n slots -> NoDup (id <$> occupied slots).
Proof.
  intros Hw; assert (Hu : forall i j s s', slots !! i = Some s -> slots !! j = Some s' -> id s <> 0 -> id s = id s' -> i = j).
  { intros i j s s' Hi Hj Hs E; apply lookup_lt_Some in Hi as Li; apply lookup_lt_Some in Hj as Lj.
    pose proof (tw_length _ _ Hw); rewrite <- (Nat2Z.id i) in Hi; rewrite <- (Nat2Z.id j) in Hj.
    apply key_at_lookup in Hi, Hj; apply Nat2Z.inj; apply (tw_unique _ _ Hw); try lia; congruence. }
  clear Hw; induction slots as [|s slots IH]; [constructor|].
  assert (IH' : NoDup (id <$> occupied slots)).
  { apply IH; intros i j s1 s2 Hi Hj Hs E; by apply eq_add_S, (Hu (S i) (S j) s1 s2). }
  unfold occupied in *; rewrite filter_cons; case_decide as H0; [|done]; rewrite fmap_cons; constructor; [|done].
  intros Hin; apply list_elem_of_fmap in Hin as (s' & E & Hs'); apply list_elem_of_filter in Hs' as [_ Hs'].
  apply list_elem_of_lookup in Hs' as [j Hj]; by specialize (Hu 0%nat (S j) s s' eq_refl Hj H0 E).
Qed.

(** A table with fewer entries than slots has an empty slot. *)
Lemma empty_exists (n : Z) slots :
  Z.of_nat (length slots) = n -> Z.of_nat (length (occupied slots)) < n -> exists e, empty_at n slots e.
Proof.
  intros <- Hc; destruct (decide (Forall (fun s => id s <> 0) slots)) as [HF|HF].
  - exfalso; assert (E : occupied slots = slots); [|rewrite E in Hc; lia]; clear Hc; unfold occupied.
    induction HF as [|s slots Hs _ IH]; [done|]; rewrite filter_cons, decide_True by done; by rewrite IH.
  - apply not_Forall_Exists in HF; [|intros s; apply _]; apply list.Exists_exists in HF as (s & Hs & H0).
    apply list_elem_of_lookup in Hs as [i Hi]; apply lookup_lt_Some in Hi as Hl; exists (Z.of_nat i).
    split; [lia|]; unfold key_at; rewrite Nat2Z.id, Hi; cbn; by apply dec_stable.
Qed.

(** The probe of a table with room finds the place of an identifier. *)
Lemma probe_home (n : Z) slots (x : Z) :
  table_wf n slots -> Z.of_nat (length (occupied slots)) < n -> x <> 0 ->
  exists q, probe_for (Z.to_nat n) slots n x (home n x) = Some q /\ 0 <= q < n /\ passed n slots x q
    /\ (key_at slots q = x \/ key_at slots q = 0).
Proof.
  intros Hw Hc Hx; destruct (empty_exists n slots (tw_length _ _ Hw) Hc) as [e He].
  pose proof (home_range n x (tw_pow _ _ Hw)); eapply probe_for_spec; try done.
  - apply passed_home, Hw.
  - dist_lia.
Qed.

(** ** Insertion and update *)

Lemma table_fill (n : Z) slots (x q : Z) s :
  table_wf n slots -> x <> 0 -> id s = x -> 0 <= q < n -> passed n slots x q -> key_at slots q = 0 ->
  table_wf n (<[Z.to_nat q := s]> slots).
Proof.
  intros Hw Hx Hs Hq Hp H0; pose proof Hw as [Hn Hl Hu Hc]; pose proof (passed_absent _ _ _ _ Hw Hq Hx Hp H0) as Ha.
  split; [done|by rewrite length_insert| |].
  - intros i j Hi Hj; rewrite !key_at_insert by lia; destruct (Z.eqb_spec i q), (Z.eqb_spec j q); try congruence.
    + intros _ E; exfalso; apply (Ha j Hj); congruence.
    + intros _ E; exfalso; apply (Ha i Hi); congruence.
    + by apply Hu.
  - intros i p Hi Hpr; rewrite !key_at_insert by lia; destruct (Z.eqb_spec p q); [congruence|].
    destruct (Z.eqb_spec i q) as [->|Hne]; [|by apply Hc].
    rewrite Hs; intros _ Hd; by apply Hp.
Qed.

Lemma table_update (n : Z) slots (q : Z) s :
  table_wf n slots -> 0 <= q < n -> key_at slots q = id s -> table_wf n (<[Z.to_nat q := s]> slots).
Proof.
  intros [Hn Hl Hu Hc] Hq E.
  assert (Hk : forall p, 0 <= p < n -> key_at (<[Z.to_nat q := s]> slots) p = key_at slots p).
  { intros p Hp; rewrite key_at_insert by lia; destruct (Z.eqb_spec p q); congruence. }
  split; [done|by rewrite length_insert| |].
  - intros i j Hi Hj; rewrite !Hk by done; by apply Hu.
  - intros i p Hi Hp; rewrite !Hk by done; by apply Hc.
Qed.
(** ** The table as a finite map *)

Section Map.
Context {V : Type} (val : A -> V).

Definition table_map slots : gmap Z V := list_to_map ((fun s => (id s, val s)) <$> occupied slots).

Lemma pairs_keys (l : list A) : ((fun s => (id s, val s)) <$> l).*1 = id <$> l.
Proof. rewrite <- list_fmap_compose; done. Qed.

Lemma table_map_some (n : Z) slots (i : nat) s :
  table_wf n slots -> slots !! i = Some s -> id s <> 0 -> table_map slots !! id s = Some (val s).
Proof.
  intros Hw Hi H0; apply elem_of_list_to_map_1; [rewrite pairs_keys; by eapply occupied_unique|].
  apply list_elem_of_fmap; exists s; split; [done|by eapply lookup_occupied].
Qed.

Lemma table_map_none (n : Z) slots (x : Z) :
  table_wf n slots -> (forall q, 0 <= q < n -> key_at slots q <> x) -> table_map slots !! x = None.
Proof.
  intros Hw Hx; apply not_elem_of_list_to_map_1; rewrite pairs_keys; intros Hin.
  apply list_elem_of_fmap in Hin as (s & -> & Hs); apply occupied_key in Hs as (i & Hi & Hsi & _).
  rewrite (tw_length _ _ Hw) in Hi; apply (Hx i Hi); by apply key_at_lookup.
Qed.

Lemma table_map_perm (n : Z) slots (l : list A) :
  table_wf n slots -> occupied slots ≡ₚ l -> table_map slots = list_to_map ((fun s => (id s, val s)) <$> l).
Proof.
  intros Hw HP; apply list_to_map_proper; [rewrite pairs_keys; by eapply occupied_unique|by rewrite HP].
Qed.

Lemma table_map_fill (n : Z) slots (q : Z) s :
  table_wf n (<[Z.to_nat q := s]> slots) -> 0 <= q < Z.of_nat (length slots) -> key_at slots q = 0 -> id s <> 0 ->
  table_map (<[Z.to_nat q := s]> slots) = <[id s := val s]> (table_map slots).
Proof. intros Hw Hq H0 Hs; erewrite table_map_perm; [|done|by apply occupied_fill]; done. Qed.

Lemma table_map_update (n : Z) slots (q : Z) s :
  table_wf n slots -> 0 <= q < n -> key_at slots q = id s -> id s <> 0 ->
  table_map (<[Z.to_nat q := s]> slots) = <[id s := val s]> (table_map slots).
Proof.
  intros Hw Hq E H0; destruct (slot_exists n slots q (tw_length _ _ Hw) Hq) as [s0 Hs0]; apply key_at_lookup in Hs0 as Hk.
  set (rest := occupied (take (Z.to_nat q) slots) ++ occupied (drop (S (Z.to_nat q)) slots)).
  assert (Hocc : forall s1, id s1 <> 0 -> occupied (<[Z.to_nat q := s1]> slots) ≡ₚ s1 :: rest).
  { intros s1 H1; unfold occupied, rest; rewrite insert_take_drop by (by eapply lookup_lt_Some).
    rewrite list.filter_app, filter_cons, decide_True by done; solve_Permutation. }
  erewrite (table_map_perm n); [|by apply table_update|by apply Hocc].
  erewrite (table_map_perm n slots); [|done|rewrite <- (list_insert_id slots _ s0 Hs0) at 1; apply Hocc; congruence].
  rewrite !fmap_cons; cbn [list_to_map foldr uncurry fst snd]; rewrite <- Hk, E; symmetry; apply insert_insert_eq.
Qed.

Lemma table_map_delete (n : Z) slots slots' s :
  table_wf n slots -> table_wf n slots' -> s :: occupied slots' ≡ₚ occupied slots ->
  table_map slots' = delete (id s) (table_map slots).
Proof.
  intros Hw Hw' HP; rewrite (table_map_perm n slots (s :: occupied slots')) by done.
  pose proof (occupied_unique _ _ Hw) as Hn; rewrite <- HP, fmap_cons in Hn; apply list.NoDup_cons in Hn as [Hn _].
  rewrite fmap_cons; cbn [list_to_map foldr uncurry fst snd]; rewrite delete_insert_eq, delete_id; [done|].
  apply not_elem_of_list_to_map_1; by rewrite pairs_keys.
Qed.

Lemma table_map_size (n : Z) slots : table_wf n slots -> size (table_map slots) = length (occupied slots).
Proof.
  intros Hw; rewrite <- (length_fmap (fun s => (id s, val s)) (occupied slots)).
  rewrite <- (map_to_list_to_map ((fun s => (id s, val s)) <$> occupied slots)); [by rewrite length_map_to_list|].
  rewrite pairs_keys; by eapply occupied_unique.
Qed.
End Map.

(** ** Deletion *)

(** [page_id = 0] of a slot. *)
Context (clear : A -> A).

(** The two nested loops of the backward-shift deletion: [i] is the hole, [j] the
    slot last looked at. *)
Fixpoint shift_back (fuel : nat) slots (capacity i j : Z) : option (list A) :=
  match fuel with
  | O => None
  | S fuel =>
      let j := next_slot capacity j in
      s ← slots !! Z.to_nat j;
      if id s =? 0 then Some slots
      else
        let h := home capacity (id s) in
        if (if i <=? j then (h >? i) && (h <=? j) else (h >? i) || (h <=? j))
        then shift_back fuel slots capacity i j
        else shift_back fuel (<[Z.to_nat j := clear s]> (<[Z.to_nat i := s]> slots)) capacity j j
  end.

Context (clear_id : forall s, id (clear s) = 0).

(** The state of the deletion: the hole at [i] is the only break in the chains,
    and no slot scanned so far needs it. *)
Record shifting (n : Z) slots (i j : Z) : Prop := {
  sh_pow : power_of_two n;
  sh_length : Z.of_nat (length slots) = n;
  sh_i : 0 <= i < n;
  sh_j : 0 <= j < n;
  sh_hole : key_at slots i = 0;
  sh_unique q p : 0 <= q < n -> 0 <= p < n -> key_at slots q <> 0 -> key_at slots q = key_at slots p -> q = p;
  sh_chain q p : 0 <= q < n -> 0 <= p < n -> key_at slots q <> 0 ->
    dist n (home n (key_at slots q)) p < dist n (home n (key_at slots q)) q -> key_at slots p <> 0 \/ p = i;
  sh_scanned q : 0 <= q < n -> key_at slots q <> 0 -> 0 < dist n i q <= dist n i j ->
    ~ dist n (home n (key_at slots q)) i < dist n (home n (key_at slots q)) q
}.

Lemma shifting_done (n : Z) slots (i j : Z) :
  shifting n slots i j -> dist n i j + 1 < n -> key_at slots (next_slot n j) = 0 -> table_wf n slots.
Proof.
  intros [Hn Hl Hi Hj Hh Hu Hc Hs] Hd H0; rewrite next_slot_spec in H0 by done; split; try done.
  intros q p Hq Hp Hkq Hdp; destruct (Hc q p Hq Hp Hkq Hdp) as [?| ->]; [done|]; exfalso.
  pose proof (home_range n (key_at slots q) Hn); specialize (Hs q Hq Hkq); set (h := home n (key_at slots q)) in *.
  set (j' := if j + 1 =? n then 0 else j + 1) in *.
  assert (Hj' : 0 <= j' < n /\ dist n i j' = dist n i j + 1) by (unfold j'; destruct (Z.eqb_spec (j + 1) n); dist_lia).
  destruct Hj' as [Hj' Edj]; assert (q <> j') by congruence; assert (q <> i) by congruence.
  assert (Hfar : dist n i j' < dist n i q).
  { destruct (decide (dist n i q <= dist n i j)); [exfalso; apply Hs; [dist_lia|done]|dist_lia]. }
  destruct (Hc q j' Hq Hj' Hkq) as [?|E]; [fold h; clearbody j'; dist_lia|done|].
  clearbody j'; subst; dist_lia.
Qed.

Lemma shifting_keep (n : Z) slots (i j : Z) :
  shifting n slots i j -> dist n i j + 1 < n -> let j' := next_slot n j in
  let h := home n (key_at slots j') in
  (if i <=? j' then (h >? i) && (h <=? j') else (h >? i) || (h <=? j')) = true -> shifting n slots i j'.
Proof.
  intros [Hn Hl Hi Hj Hh Hu Hc Hs] Hd j' h Hk.
  assert (Hj' : 0 <= j' < n /\ dist n i j' = dist n i j + 1)
    by (unfold j'; rewrite next_slot_spec by done; destruct (Z.eqb_spec (j + 1) n); dist_lia).
  destruct Hj' as [Hj' Edj]; pose proof (home_range n (key_at slots j') Hn); fold h in H.
  split; try done; intros q Hq Hkq Hdq; destruct (decide (q = j')) as [->|Hne].
  - fold h; clearbody h j'; destruct (Z.leb_spec i j');
      [apply andb_true_iff in Hk as [? ?]|apply orb_true_iff in Hk as [?|?]]; zbool_hyps; dist_lia.
  - apply Hs; [done|done|]; clearbody j'; dist_lia.
Qed.

Lemma shifting_move (n : Z) slots (i j : Z) s :
  shifting n slots i j -> dist n i j + 1 < n -> let j' := next_slot n j in
  slots !! Z.to_nat j' = Some s -> id s <> 0 ->
  let h := home n (id s) in
  (if i <=? j' then (h >? i) && (h <=? j') else (h >? i) || (h <=? j')) = false ->
  shifting n (<[Z.to_nat j' := clear s]> (<[Z.to_nat i := s]> slots)) j' j'.
Proof.
  intros [Hn Hl Hi Hj Hh Hu Hc Hs] Hd j' Hsj H0 h Hk.
  assert (Hj' : 0 <= j' < n /\ dist n i j' = dist n i j + 1)
    by (unfold j'; rewrite next_slot_spec by done; destruct (Z.eqb_spec (j + 1) n); dist_lia).
  destruct Hj' as [Hj' Edj]; pose proof (home_range n (id s) Hn); fold h in H.
  assert (Hij : i <> j') by (clearbody j'; dist_lia).
  apply key_at_lookup in Hsj as Hkj.
  assert (Hkey : forall p, 0 <= p < n -> key_at (<[Z.to_nat j' := clear s]> (<[Z.to_nat i := s]> slots)) p
    = if p =? j' then 0 else if p =? i then id s else key_at slots p).
  { intros p Hp; rewrite key_at_insert by (rewrite ?length_insert; lia); rewrite clear_id.
    destruct (p =? j'); [done|]; rewrite key_at_insert by lia; done. }
  assert (Hpath : dist n h i < dist n h j').
  { clearbody h j'; destruct (Z.leb_spec i j');
      [apply andb_false_iff in Hk as [?|?]|apply orb_false_iff in Hk as [? ?]]; zbool_hyps; dist_lia. }
  clear Hk; split; try done.
  - rewrite !length_insert; done.
  - rewrite Hkey, Z.eqb_refl by done; done.
  - intros q p Hq Hp; rewrite !Hkey by done.
    destruct (Z.eqb_spec q j'), (Z.eqb_spec q i), (Z.eqb_spec p j'), (Z.eqb_spec p i); try congruence; intros Hq0 E.
    + exfalso; assert (j' = p) by (apply Hu; congruence); congruence.
    + exfalso; assert (q = j') by (apply Hu; congruence); congruence.
    + by apply Hu.
  - intros q p Hq Hp; rewrite !Hkey by done.
    destruct (Z.eqb_spec p j') as [->|Hpj]; [by right|]; destruct (Z.eqb_spec q j') as [->|Hqj]; [done|].
    destruct (Z.eqb_spec p i) as [->|Hpi]; [by left|]; destruct (Z.eqb_spec q i) as [->|Hqi].
    + fold h; intros _ Hdp; destruct (Hc j' p Hj' Hp) as [?|?]; try congruence; [|by left].
      rewrite Hkj; fold h; clearbody h j'; dist_lia.
    + intros Hq0 Hdp; destruct (Hc q p Hq Hp Hq0 Hdp) as [?|?]; [by left|done].
  - intros q Hq _ Hdq; clearbody j'; dist_lia.
Qed.

Lemma shift_back_spec (n e : Z) :
  0 <= e < n ->
  forall fuel slots (i j : Z), shifting n slots i j -> key_at slots e = 0 ->
  dist n i j < dist n i e -> dist n j e <= Z.of_nat fuel ->
  exists slots', shift_back fuel slots n i j = Some slots' /\ table_wf n slots' /\ occupied slots' ≡ₚ occupied slots.
Proof.
  intros He; induction fuel as [|fuel IH]; intros slots i j Hsh H0 Hd Hf.
  { destruct Hsh; exfalso; dist_lia. }
  pose proof Hsh as [Hn Hl Hi Hj Hh Hu Hc Hs].
  assert (Hd1 : dist n i j + 1 < n) by dist_lia.
  set (j' := next_slot n j); assert (Hj' : 0 <= j' < n /\ dist n i j' = dist n i j + 1 /\ dist n j' e = dist n j e - 1)
    by (unfold j'; rewrite next_slot_spec by done; destruct (Z.eqb_spec (j + 1) n); dist_lia).
  destruct Hj' as (Hj' & Edj & Eje); destruct (slot_exists n slots j' Hl Hj') as [s Hsj]; apply key_at_lookup in Hsj as Hkj.
  cbn [shift_back]; fold j'; rewrite Hsj; cbn [mbind option_bind]; destruct (Z.eqb_spec (id s) 0) as [Es|Es].
  { exists slots; split_and!; [done| |done]; eapply shifting_done; try done; fold j'; congruence. }
  assert (Hne : j' <> e) by congruence.
  cbv zeta; match goal with |- context [if ?b then shift_back _ _ _ i j' else _] => destruct b eqn:Eb end.
  - apply IH; [eapply shifting_keep; try done; fold j'; by rewrite Hkj|done| |lia].
    clearbody j'; dist_lia.
  - destruct (IH (<[Z.to_nat j' := clear s]> (<[Z.to_nat i := s]> slots)) j' j') as (slots' & Hrun & Hw & HP); [| | |lia|].
    + by eapply shifting_move.
    + rewrite !key_at_insert by (rewrite ?length_insert; lia); rewrite clear_id.
      destruct (Z.eqb_spec e j'); [done|]; destruct (Z.eqb_spec e i) as [->|]; [clearbody j'; dist_lia|done].
    + clearbody j'; dist_lia.
    + exists slots'; split_and!; [done|done|]; rewrite HP; apply (Permutation_cons_inv (a := s)).
      assert (Hij : j' <> i) by (clearbody j'; dist_lia).
      rewrite occupied_clear; [|by rewrite list_lookup_insert_ne by lia|done|done].
      rewrite occupied_fill by (done || lia); done.
Qed.

(** Deleting the entry of slot [i]. *)
Lemma shift_back_deletes (n : Z) slots (i e : Z) s :
  table_wf n slots -> 0 <= i < n -> slots !! Z.to_nat i = Some s -> id s <> 0 -> empty_at n slots e ->
  exists slots', shift_back (Z.to_nat n) (<[Z.to_nat i := clear s]> slots) n i i = Some slots'
    /\ table_wf n slots' /\ s :: occupied slots' ≡ₚ occupied slots.
Proof.
  intros [Hn Hl Hu Hc] Hi Hs H0 [He Hke]; apply key_at_lookup in Hs as Hki; assert (Hie : i <> e) by congruence.
  assert (Hkey : forall p, 0 <= p < n -> key_at (<[Z.to_nat i := clear s]> slots) p = if p =? i then 0 else key_at slots p)
    by (intros p Hp; rewrite key_at_insert by lia; by rewrite clear_id).
  destruct (shift_back_spec n e He (Z.to_nat n) (<[Z.to_nat i := clear s]> slots) i i) as (slots' & Hrun & Hw & HP).
  - split; try done.
    + by rewrite length_insert.
    + by rewrite Hkey, Z.eqb_refl.
    + intros q p Hq Hp; rewrite !Hkey by done; destruct (Z.eqb_spec q i), (Z.eqb_spec p i); try congruence; by apply Hu.
    + intros q p Hq Hp; rewrite !Hkey by done; destruct (Z.eqb_spec q i), (Z.eqb_spec p i); try done; [by right|].
      intros Hq0 Hd; left; by apply (Hc q).
    + intros q Hq _ Hd; dist_lia.
  - rewrite Hkey by done; destruct (Z.eqb_spec e i); congruence.
  - dist_lia.
  - dist_lia.
  - exists slots'; split_and!; [done|done|]; rewrite HP; by apply occupied_clear.
Qed.
End Probe.
