(* ===== verification/WalIndex.v ===== *)
(** * The WAL index ([src/wal_index.c])

    An open-addressing hash table from page identifiers to offsets in the
    write-ahead log.  The operations work on the slot array as the code does; the
    theorem shows that they implement a finite map.  An allocation that fails is
    not modelled; the size checks before it are. *)

From S2P Require Import Prelude Status Probe.

(** ** Data *)

Record sdb_wal_index_slot := { ws_page_id : Z; ws_wal_offset : Z }.

(** [wi_slots] is [None] when the pointer is [NULL]. *)
Record sdb_wal_index := {
  wi_slots : option (list sdb_wal_index_slot);
  wi_capacity : Z;
  wi_size : Z
}.

Definition SDB_WAL_INDEX_INITIAL_CAPACITY : Z := 16.

(** [calloc(capacity, sizeof(slot))] *)
Definition empty_slots (capacity : Z) : list sdb_wal_index_slot :=
  replicate (Z.to_nat capacity) {| ws_page_id := 0; ws_wal_offset := 0 |}.

(** ** Operations

    [None] stands for a loop that does not end or an access outside the array. *)

Definition sdb_wal_index_slot_for (slots : list sdb_wal_index_slot) (capacity page_id : Z) : option Z :=
  probe_for ws_page_id (Z.to_nat capacity) slots capacity page_id (home capacity page_id).

(** The copying loop of [sdb_wal_index_grow]. *)
Fixpoint rehash (old new : list sdb_wal_index_slot) (capacity : Z) : option (list sdb_wal_index_slot) :=
  match old with
  | [] => Some new
  | s :: old =>
      if ws_page_id s =? 0 then rehash old new capacity
      else
        target ← sdb_wal_index_slot_for new capacity (ws_page_id s);
        rehash old (<[Z.to_nat target := {| ws_page_id := ws_page_id s; ws_wal_offset := ws_wal_offset s |}]> new) capacity
  end.

Definition sdb_wal_index_grow (ix : sdb_wal_index) (slots : list sdb_wal_index_slot)
  : option (sdb_status * sdb_wal_index) :=
  if wi_capacity ix >? SIZE_MAX / 2 then Some (SDB_E_OUT_OF_MEMORY, ix)
  else
    let new_capacity := wi_capacity ix * 2 in
    if new_capacity >? SIZE_MAX / 16 then Some (SDB_E_OUT_OF_MEMORY, ix)
    else
      new_slots ← rehash slots (empty_slots new_capacity) new_capacity;
      Some (SDB_OK, {| wi_slots := Some new_slots; wi_capacity := new_capacity; wi_size := wi_size ix |}).

Definition sdb_wal_index_init : sdb_wal_index :=
  {| wi_slots := Some (empty_slots SDB_WAL_INDEX_INITIAL_CAPACITY);
     wi_capacity := SDB_WAL_INDEX_INITIAL_CAPACITY; wi_size := 0 |}.

Definition sdb_wal_index_free (ix : sdb_wal_index) : sdb_wal_index :=
  {| wi_slots := None; wi_capacity := 0; wi_size := 0 |}.

(** Writing a new entry at [index]. *)
Definition put_new (ix : sdb_wal_index) (index page_id wal_offset : Z) : option (sdb_status * sdb_wal_index) :=
  slots ← wi_slots ix;
  Some (SDB_OK, {| wi_slots := Some (<[Z.to_nat index := {| ws_page_id := page_id; ws_wal_offset := wal_offset |}]> slots);
                   wi_capacity := wi_capacity ix; wi_size := wrap 64 (wi_size ix + 1) |}).

Definition sdb_wal_index_put (ix : sdb_wal_index) (page_id wal_offset : Z) : option (sdb_status * sdb_wal_index) :=
  match wi_slots ix with
  | None => Some (SDB_E_INVALID_ARGUMENT, ix)
  | Some slots =>
      if page_id =? 0 then Some (SDB_E_INVALID_ARGUMENT, ix)
      else
        index ← sdb_wal_index_slot_for slots (wi_capacity ix) page_id;
        s ← slots !! Z.to_nat index;
        if ws_page_id s =? page_id
        then Some (SDB_OK, {| wi_slots := Some (<[Z.to_nat index := {| ws_page_id := ws_page_id s; ws_wal_offset := wal_offset |}]> slots);
                              wi_capacity := wi_capacity ix; wi_size := wi_size ix |})
        else if wrap 64 (wi_size ix * 2) >=? wi_capacity ix
        then
          '(status, ix) ← sdb_wal_index_grow ix slots;
          if bool_decide (status = SDB_OK)
          then
            slots ← wi_slots ix;
            index ← sdb_wal_index_slot_for slots (wi_capacity ix) page_id;
            put_new ix index page_id wal_offset
          else Some (status, ix)
        else put_new ix index page_id wal_offset
  end.

(** [Some None] is a miss. *)
Definition sdb_wal_index_get (ix : sdb_wal_index) (page_id : Z) : option (option Z) :=
  match wi_slots ix with
  | None => Some None
  | Some slots =>
      if page_id =? 0 then Some None
      else
        r ← probe_find ws_page_id (Z.to_nat (wi_capacity ix)) slots (wi_capacity ix) page_id (home (wi_capacity ix) page_id);
        match r with
        | None => Some None
        | Some index => s ← slots !! Z.to_nat index; Some (Some (ws_wal_offset s))
        end
  end.

Definition sdb_wal_index_clear (ix : sdb_wal_index) : sdb_wal_index :=
  match wi_slots ix with
  | None => ix
  | Some slots => {| wi_slots := Some (empty_slots (wi_capacity ix)); wi_capacity := wi_capacity ix; wi_size := 0 |}
  end.

(** ** The invariant *)

Abbreviation index_map := (table_map ws_page_id ws_wal_offset).
Abbreviation live := (occupied ws_page_id).

(** The table holds the map [m]: probing works, and at most half the slots are
    taken.  The capacity stays below [2 ^ 60] (the size check of the growth). *)
Definition index_is (ix : sdb_wal_index) (m : gmap Z Z) : Prop :=
  exists slots, wi_slots ix = Some slots /\ table_wf ws_page_id (wi_capacity ix) slots
    /\ wi_size ix = Z.of_nat (length (live slots)) /\ 2 * wi_size ix <= wi_capacity ix
    /\ 16 <= wi_capacity ix <= 2 ^ 59 /\ index_map slots = m.

Lemma empty_slots_wf (n : Z) : power_of_two n -> table_wf ws_page_id n (empty_slots n).
Proof.
  intros Hn; pose proof (power_of_two_pos n Hn); assert (Hk : forall i, key_at ws_page_id (empty_slots n) i = 0).
  { intros i; unfold key_at, empty_slots; destruct (replicate _ _ !! _) as [s|] eqn:E; [|done].
    by apply lookup_replicate in E as [-> _]. }
  split; [done|unfold empty_slots; rewrite length_replicate; lia| |]; intros i j _ _; by rewrite Hk.
Qed.

Lemma empty_slots_live (n : Z) : live (empty_slots n) = [].
Proof. unfold empty_slots; induction (Z.to_nat n) as [|k IH]; [done|]; unfold occupied in *; cbn [replicate]; rewrite filter_cons; exact IH. Qed.

(** The probe of a table with room finds the place of an identifier. *)
Lemma slot_for_spec (n : Z) (slots : list sdb_wal_index_slot) (x : Z) :
  table_wf ws_page_id n slots -> Z.of_nat (length (live slots)) < n -> x <> 0 ->
  exists q, sdb_wal_index_slot_for slots n x = Some q /\ 0 <= q < n /\ passed ws_page_id n slots x q
    /\ (key_at ws_page_id slots q = x \/ key_at ws_page_id slots q = 0).
Proof. apply probe_home. Qed.

Lemma rehash_spec (n : Z) (old : list sdb_wal_index_slot) :
  forall new, table_wf ws_page_id n new -> NoDup (ws_page_id <$> live old ++ live new) ->
  Z.of_nat (length (live old ++ live new)) < n ->
  exists new', rehash old new n = Some new' /\ table_wf ws_page_id n new' /\ live new' ≡ₚ live old ++ live new.
Proof.
  induction old as [|[x off] old IH]; intros new Hw Hn Hc; cbn [rehash]; [by exists new|].
  rewrite occupied_cons in Hn, Hc |- *; cbn [ws_page_id ws_wal_offset] in *.
  destruct (Z.eqb_spec x 0) as [->|Hx]; [by apply IH|]; cbn [fmap list_fmap app length] in Hn, Hc.
  rewrite length_app in Hc; destruct (slot_for_spec n new x Hw) as (q & Hq & Hqr & Hp & Hk); [lia|done|].
  apply list.NoDup_cons in Hn as [Hnx Hn].
  assert (H0 : key_at ws_page_id new q = 0).
  { destruct Hk as [Hk|Hk]; [|done]; exfalso; apply Hnx, list_elem_of_fmap.
    destruct (slot_exists n new q (tw_length _ _ _ Hw) Hqr) as [s Hs]; apply (key_at_lookup ws_page_id) in Hs as Hks.
    exists s; split; [cbn; congruence|]; apply elem_of_app; right; eapply lookup_occupied; [exact Hs|congruence]. }
  rewrite Hq; cbn [mbind option_bind]; pose proof (tw_length _ _ _ Hw) as Hlen.
  set (s := {| ws_page_id := x; ws_wal_offset := off |}).
  assert (HP : live (<[Z.to_nat q := s]> new) ≡ₚ s :: live new) by (apply occupied_fill; [lia|done|done]).
  destruct (IH (<[Z.to_nat q := s]> new)) as (new' & Hrun & Hw' & HP').
  - by eapply table_fill.
  - rewrite HP, fmap_app, fmap_cons, <- Permutation_middle, <- fmap_app; by constructor.
  - rewrite HP, length_app; cbn [length]; lia.
  - exists new'; split_and!; [done|done|]; rewrite HP', HP; symmetry; apply Permutation_middle.
Qed.

Lemma index_map_perm (n : Z) (slots slots' : list sdb_wal_index_slot) :
  table_wf ws_page_id n slots -> live slots' ≡ₚ live slots -> index_map slots' = index_map slots.
Proof.
  intros Hw HP; symmetry; by apply (table_map_perm ws_page_id ws_wal_offset n).
Qed.

Lemma grow_spec (ix : sdb_wal_index) (slots : list sdb_wal_index_slot) (m : gmap Z Z) :
  wi_slots ix = Some slots -> index_is ix m ->
  if wi_capacity ix =? 2 ^ 59 then sdb_wal_index_grow ix slots = Some (SDB_E_OUT_OF_MEMORY, ix)
  else exists ix', sdb_wal_index_grow ix slots = Some (SDB_OK, ix') /\ index_is ix' m
         /\ wi_capacity ix' = 2 * wi_capacity ix /\ wi_size ix' = wi_size ix.
Proof.
  intros Es (slots0 & E & Hw & Hsz & Hload & Hcap & Hm); rewrite Es in E; injection E as <-.
  unfold sdb_wal_index_grow; change (SIZE_MAX / 2) with (2 ^ 63 - 1); change (SIZE_MAX / 16) with (2 ^ 60 - 1).
  destruct (Z.eqb_spec (wi_capacity ix) (2 ^ 59)) as [->|Hne]; [done|].
  assert (Hpow : power_of_two (wi_capacity ix * 2) /\ wi_capacity ix * 2 <= 2 ^ 59).
  { destruct (tw_pow _ _ _ Hw) as (k & Hk & Ek); rewrite Ek in *.
    assert (k < 59) by (apply (Z.pow_lt_mono_r_iff 2); lia); change (2 ^ k * 2) with (2 ^ k * 2 ^ 1).
    rewrite <- Z.pow_add_r by lia; split; [exists (k + 1); split; [lia|done]|apply Z.pow_le_mono_r; lia]. }
  destruct Hpow as [Hpow Hlt]; zcmp.
  destruct (rehash_spec (wi_capacity ix * 2) slots (empty_slots (wi_capacity ix * 2))) as (new & Hrun & Hw' & HP).
  - by apply empty_slots_wf.
  - rewrite empty_slots_live, app_nil_r; by eapply occupied_unique.
  - rewrite empty_slots_live, app_nil_r; lia.
  - rewrite Hrun; cbn [mbind option_bind]; eexists; split; [done|]; split; [|cbn; lia].
    rewrite empty_slots_live, app_nil_r in HP; exists new; cbn; split_and!; try done; try lia.
    + by rewrite HP.
    + rewrite <- Hm; by apply (index_map_perm (wi_capacity ix)).
Qed.

Lemma put_new_spec (ix : sdb_wal_index) (slots : list sdb_wal_index_slot) (m : gmap Z Z) (q x off : Z) :
  wi_slots ix = Some slots -> index_is ix m -> 2 * wi_size ix + 2 <= wi_capacity ix -> x <> 0 ->
  0 <= q < wi_capacity ix -> passed ws_page_id (wi_capacity ix) slots x q -> key_at ws_page_id slots q = 0 ->
  exists ix', put_new ix q x off = Some (SDB_OK, ix') /\ index_is ix' (<[x := off]> m).
Proof.
  intros Es (slots0 & E & Hw & Hsz & Hload & Hcap & <-) Hroom Hx Hq Hp H0; rewrite Es in E; injection E as <-.
  unfold put_new; rewrite Es; cbn [mbind option_bind]; eexists; split; [done|].
  set (s := {| ws_page_id := x; ws_wal_offset := off |}); pose proof (tw_length _ _ _ Hw) as Hl.
  assert (Hw' : table_wf ws_page_id (wi_capacity ix) (<[Z.to_nat q := s]> slots)) by (by eapply table_fill).
  eexists; cbn; split_and!; try done.
  - rewrite (occupied_fill ws_page_id slots q s) by (done || lia); cbn [length]; rewrite wrap_small; lia.
  - rewrite wrap_small; lia.
  - lia.
  - lia.
  - by apply (table_map_fill ws_page_id ws_wal_offset (wi_capacity ix) slots q s); [|lia| |].
Qed.

Lemma slot_key (ix : sdb_wal_index) (slots : list sdb_wal_index_slot) (q : Z) :
  table_wf ws_page_id (wi_capacity ix) slots -> 0 <= q < wi_capacity ix ->
  exists s, slots !! Z.to_nat q = Some s /\ key_at ws_page_id slots q = ws_page_id s.
Proof.
  intros Hw Hq; destruct (slot_exists _ slots q (tw_length _ _ _ Hw) Hq) as [s Hs].
  exists s; split; [done|by apply key_at_lookup].
Qed.

Lemma get_is (ix : sdb_wal_index) (m : gmap Z Z) (x : Z) :
  index_is ix m -> sdb_wal_index_get ix x = Some (if x =? 0 then None else m !! x).
Proof.
  intros (slots & Es & Hw & Hsz & Hload & Hcap & <-); unfold sdb_wal_index_get; rewrite Es.
  destruct (Z.eqb_spec x 0) as [->|Hx]; [done|]; pose proof (home_range _ x (tw_pow _ _ _ Hw)).
  destruct (probe_find_spec ws_page_id _ slots x Hw Hx (Z.to_nat (wi_capacity ix)) (home (wi_capacity ix) x))
    as (r & -> & Hr); [apply passed_home, Hw|done|dist_lia|]; cbn [mbind option_bind].
  destruct r as [q|]; [|by erewrite table_map_none].
  destruct Hr as [Hq Hk]; destruct (slot_key ix slots q Hw Hq) as (s & Hs & Hks); rewrite Hs; cbn [mbind option_bind].
  erewrite <- (table_map_some ws_page_id ws_wal_offset _ slots _ s); [|done|done|congruence]; by rewrite <- Hks, Hk.
Qed.

(** What a put does to the map. *)
Definition put_step (m : gmap Z Z) (x off : Z) (status : sdb_status) (m' : gmap Z Z) : Prop :=
  if x =? 0 then status = SDB_E_INVALID_ARGUMENT /\ m' = m
  else status = SDB_OK /\ m' = <[x := off]> m
       \/ status = SDB_E_OUT_OF_MEMORY /\ m' = m /\ m !! x = None /\ 2 ^ 58 <= Z.of_nat (size m).

Lemma put_update_spec (ix : sdb_wal_index) (slots : list sdb_wal_index_slot) (m : gmap Z Z) (q off : Z) (s : sdb_wal_index_slot) :
  wi_slots ix = Some slots -> index_is ix m -> slots !! Z.to_nat q = Some s -> 0 <= q < wi_capacity ix -> ws_page_id s <> 0 ->
  index_is {| wi_slots := Some (<[Z.to_nat q := {| ws_page_id := ws_page_id s; ws_wal_offset := off |}]> slots);
              wi_capacity := wi_capacity ix; wi_size := wi_size ix |} (<[ws_page_id s := off]> m).
Proof.
  intros Es (slots0 & E & Hw & Hsz & Hload & Hcap & Hm) Hs Hq H0; rewrite Es in E; injection E as <-.
  apply (key_at_lookup ws_page_id) in Hs as Hk.
  set (s' := {| ws_page_id := ws_page_id s; ws_wal_offset := off |}).
  assert (Hw' : table_wf ws_page_id (wi_capacity ix) (<[Z.to_nat q := s']> slots)) by (by apply table_update).
  assert (Em : index_map (<[Z.to_nat q := s']> slots) = <[ws_page_id s := off]> m)
    by (rewrite <- Hm; by apply (table_map_update ws_page_id ws_wal_offset (wi_capacity ix) slots q s')).
  assert (Hin : is_Some (m !! ws_page_id s)) by (exists (ws_wal_offset s); rewrite <- Hm; by eapply table_map_some).
  eexists; cbn; do 2 (split; [done|]); split; [|done].
  rewrite Hsz; f_equal; rewrite <- !(table_map_size ws_page_id ws_wal_offset (wi_capacity ix)) by done.
  by rewrite Em, Hm, map_size_insert_Some.
Qed.

Lemma put_is (ix : sdb_wal_index) (m : gmap Z Z) (x off : Z) :
  index_is ix m ->
  exists status ix' m', sdb_wal_index_put ix x off = Some (status, ix') /\ index_is ix' m' /\ put_step m x off status m'.
Proof.
  intros Hix; pose proof Hix as (slots & Es & Hw & Hsz & Hload & Hcap & Hm).
  unfold sdb_wal_index_put, put_step; rewrite Es; destruct (Z.eqb_spec x 0) as [->|Hx]; [by exists SDB_E_INVALID_ARGUMENT, ix, m|].
  destruct (slot_for_spec _ slots x Hw) as (q & -> & Hq & Hp & Hk); [lia|done|]; cbn [mbind option_bind].
  destruct (slot_key ix slots q Hw Hq) as (s & Hs & Hks); rewrite Hs; cbn [mbind option_bind].
  destruct (Z.eqb_spec (ws_page_id s) x) as [<-|Ex].
  { eexists _, _, _; split; [done|]; split; [by apply put_update_spec|by left]. }
  assert (H0 : key_at ws_page_id slots q = 0) by (destruct Hk as [Hk|Hk]; congruence).
  assert (Hnone : m !! x = None) by (rewrite <- Hm; eapply table_map_none; [done|]; by eapply passed_absent).
  assert (Hev : exists c, wi_capacity ix = 2 * c).
  { destruct (tw_pow _ _ _ Hw) as (k & Hk' & Ek); exists (2 ^ (k - 1)).
    destruct (decide (k = 0)) as [->|]; [lia|].
    rewrite <- Z.pow_succ_r by lia; by replace (Z.succ (k - 1)) with k by lia. }
  destruct Hev as [c Hev]; rewrite wrap_small by lia.
  destruct (wi_size ix * 2 >=? wi_capacity ix) eqn:Ef; zbool_hyps; cycle 1.
  { destruct (put_new_spec ix slots m q x off) as (ix' & -> & Hix'); try done; [lia|]; eexists _, _, _; split; [done|]; split; [done|by left]. }
  pose proof (grow_spec ix slots m Es Hix) as Hg; destruct (Z.eqb_spec (wi_capacity ix) (2 ^ 59)) as [Ec|Ec].
  - rewrite Hg; eexists _, _, m; split; [done|]; split; [done|]; right; split_and!; try done.
    rewrite <- Hm, (table_map_size ws_page_id ws_wal_offset _ _ Hw); lia.
  - destruct Hg as (ix1 & -> & Hix1 & Hc1 & Hs1); cbn [mbind option_bind]; rewrite bool_decide_eq_true_2 by done.
    pose proof Hix1 as (slots1 & Es1 & Hw1 & Hsz1 & Hload1 & Hcap1 & Hm1); rewrite Es1; cbn [mbind option_bind].
    destruct (slot_for_spec _ slots1 x Hw1) as (q1 & -> & Hq1 & Hp1 & Hk1); [lia|done|]; cbn [mbind option_bind].
    destruct (put_new_spec ix1 slots1 m q1 x off) as (ix' & -> & Hix'); try done; [lia| |].
    + destruct Hk1 as [Hk1|]; [|done]; exfalso; destruct (slot_key ix1 slots1 q1 Hw1 Hq1) as (s1 & Hl1 & Hks1).
      assert (E : m !! ws_page_id s1 = Some (ws_wal_offset s1)) by (rewrite <- Hm1; eapply table_map_some; [done|done|congruence]).
      congruence.
    + eexists _, _, _; split; [done|]; split; [done|by left].
Qed.

(** ** Sequences of operations *)

Inductive index_op := IxPut (page_id wal_offset : Z) | IxGet (page_id : Z) | IxClear.

Inductive index_reply := IxStatus (status : sdb_status) | IxFound (offset : option Z) | IxCleared.

Definition index_step (op : index_op) (ix : sdb_wal_index) : option (index_reply * sdb_wal_index) :=
  match op with
  | IxPut x off => '(status, ix) ← sdb_wal_index_put ix x off; Some (IxStatus status, ix)
  | IxGet x => r ← sdb_wal_index_get ix x; Some (IxFound r, ix)
  | IxClear => Some (IxCleared, sdb_wal_index_clear ix)
  end.

Fixpoint index_run (ops : list index_op) (ix : sdb_wal_index) : option (list index_reply * sdb_wal_index) :=
  match ops with
  | [] => Some ([], ix)
  | op :: ops =>
      '(r, ix) ← index_step op ix;
      '(rs, ix) ← index_run ops ix;
      Some (r :: rs, ix)
  end.

(** The same operations on a finite map. *)
Inductive map_runs : gmap Z Z -> list index_op -> list index_reply -> gmap Z Z -> Prop :=
  | mr_nil m : map_runs m [] [] m
  | mr_put m x off status m1 ops rs m' :
      put_step m x off status m1 -> map_runs m1 ops rs m' ->
      map_runs m (IxPut x off :: ops) (IxStatus status :: rs) m'
  | mr_get m x ops rs m' :
      map_runs m ops rs m' ->
      map_runs m (IxGet x :: ops) (IxFound (if x =? 0 then None else m !! x) :: rs) m'
  | mr_clear m ops rs m' : map_runs ∅ ops rs m' -> map_runs m (IxClear :: ops) (IxCleared :: rs) m'.

Lemma empty_index_is (n : Z) :
  power_of_two n -> 16 <= n <= 2 ^ 59 ->
  index_is {| wi_slots := Some (empty_slots n); wi_capacity := n; wi_size := 0 |} ∅.
Proof.
  intros Hn Hr; exists (empty_slots n); cbn; rewrite empty_slots_live; split_and!; try done; try lia.
  - by apply empty_slots_wf.
  - unfold table_map; by rewrite empty_slots_live.
Qed.

Lemma index_run_is (ops : list index_op) :
  forall ix m, index_is ix m -> exists rs ix' m', index_run ops ix = Some (rs, ix') /\ map_runs m ops rs m' /\ index_is ix' m'.
Proof.
  induction ops as [|op ops IH]; intros ix m Hix; [exists [], ix, m; split_and!; [done|constructor|done]|].
  assert (Hstep : exists r ix1 m1, index_step op ix = Some (r, ix1) /\ index_is ix1 m1
    /\ (forall rs m', map_runs m1 ops rs m' -> map_runs m (op :: ops) (r :: rs) m')).
  { destruct op as [x off|x|]; cbn [index_step].
    - destruct (put_is ix m x off Hix) as (status & ix1 & m1 & -> & Hix1 & Hst); eexists _, _, _.
      split_and!; [done|exact Hix1|]; intros; by econstructor.
    - rewrite (get_is ix m x Hix); eexists _, _, m; split_and!; [done|done|]; intros; by constructor.
    - eexists _, _, ∅; split_and!; [done| |intros; by constructor].
      destruct Hix as (slots & Es & Hw & _ & _ & Hc & _); unfold sdb_wal_index_clear; rewrite Es.
      apply empty_index_is; [apply Hw|done]. }
  destruct Hstep as (r & ix1 & m1 & Hr & Hix1 & Hcons); destruct (IH ix1 m1 Hix1) as (rs & ix' & m' & Hrs & Hm & Hix').
  exists (r :: rs), ix', m'; cbn [index_run]; rewrite Hr; cbn [mbind option_bind]; rewrite Hrs; eauto.
Qed.

(** C29: The WAL index implements a finite map.  Every sequence of puts, lookups
    and clears on a fresh index runs to its end, with every probe terminating
    inside the table and through every growth of it, and each reply is that of a
    finite map: a lookup returns the newest offset put since the last clear; a put
    is refused only for the reserved identifier 0 or, with a new key, when a table
    of [2 ^ 59] slots is half full. *)
Theorem wal_index_refines_map (ops : list index_op) :
  exists rs ix' m', index_run ops sdb_wal_index_init = Some (rs, ix') /\ map_runs ∅ ops rs m' /\ index_is ix' m'.
Proof.
  apply index_run_is, empty_index_is; [by exists 4|unfold SDB_WAL_INDEX_INITIAL_CAPACITY; lia].
Qed.
