(* ===== verification/PageCache.v ===== *)
(** * The page cache ([src/page_cache.c])

    A fixed number of frames with clean page copies, an open-addressing table from
    page identifiers to frames with backward-shift deletion, a stack of free
    frames, and CLOCK replacement.  The operations work on these arrays as the
    code does; the theorems show that the cache is a bounded finite map that may
    forget a page only to make room for another one. *)

From S2P Require Import Prelude Status Probe.

(** ** Data *)

Record sdb_page_cache_entry := {
  ce_page_id : Z;
  ce_bytes : bytes;
  ce_valid : bool;
  ce_ref : bool
}.

Record sdb_page_cache_slot := { cs_page_id : Z; cs_entry_index : Z }.

(** [slot_mask] is [slot_capacity - 1] throughout and not kept apart; [pc_slots]
    is [None] for a [NULL] pointer; the storage block is cut into the [bytes] of
    the entries. *)
Record sdb_page_cache := {
  pc_entries : list sdb_page_cache_entry;
  pc_slots : option (list sdb_page_cache_slot);
  pc_free_list : list Z;
  pc_capacity : Z;
  pc_slot_capacity : Z;
  pc_free_count : Z;
  pc_clock_hand : Z;
  pc_page_size : Z
}.

Definition set_entries (c : sdb_page_cache) (entries : list sdb_page_cache_entry) : sdb_page_cache :=
  {| pc_entries := entries; pc_slots := pc_slots c; pc_free_list := pc_free_list c; pc_capacity := pc_capacity c;
     pc_slot_capacity := pc_slot_capacity c; pc_free_count := pc_free_count c; pc_clock_hand := pc_clock_hand c;
     pc_page_size := pc_page_size c |}.

Definition set_slots (c : sdb_page_cache) (slots : list sdb_page_cache_slot) : sdb_page_cache :=
  {| pc_entries := pc_entries c; pc_slots := Some slots; pc_free_list := pc_free_list c; pc_capacity := pc_capacity c;
     pc_slot_capacity := pc_slot_capacity c; pc_free_count := pc_free_count c; pc_clock_hand := pc_clock_hand c;
     pc_page_size := pc_page_size c |}.

Definition set_free (c : sdb_page_cache) (free_list : list Z) (free_count : Z) : sdb_page_cache :=
  {| pc_entries := pc_entries c; pc_slots := pc_slots c; pc_free_list := free_list; pc_capacity := pc_capacity c;
     pc_slot_capacity := pc_slot_capacity c; pc_free_count := free_count; pc_clock_hand := pc_clock_hand c;
     pc_page_size := pc_page_size c |}.

Definition set_hand (c : sdb_page_cache) (hand : Z) : sdb_page_cache :=
  {| pc_entries := pc_entries c; pc_slots := pc_slots c; pc_free_list := pc_free_list c; pc_capacity := pc_capacity c;
     pc_slot_capacity := pc_slot_capacity c; pc_free_count := pc_free_count c; pc_clock_hand := hand;
     pc_page_size := pc_page_size c |}.

Definition with_ref (e : sdb_page_cache_entry) (ref : bool) : sdb_page_cache_entry :=
  {| ce_page_id := ce_page_id e; ce_bytes := ce_bytes e; ce_valid := ce_valid e; ce_ref := ref |}.

Definition clear_slot (s : sdb_page_cache_slot) : sdb_page_cache_slot :=
  {| cs_page_id := 0; cs_entry_index := cs_entry_index s |}.

(** ** Operations

    [None] stands for a loop that does not end or an access outside an array. *)

(** [while (slot_capacity < capacity * 2) slot_capacity <<= 1] *)
Fixpoint slot_capacity_for (fuel : nat) (slot_capacity wanted : Z) : Z :=
  match fuel with
  | O => slot_capacity
  | S fuel => if slot_capacity <? wanted then slot_capacity_for fuel (wrap 64 (Z.shiftl slot_capacity 1)) wanted else slot_capacity
  end.

(** The sizes of a frame, a slot and a free-list cell on a 64-bit target. *)
Definition ENTRY_SIZE : Z := 24.
Definition SLOT_SIZE : Z := 16.
Definition CELL_SIZE : Z := 8.

Definition sdb_page_cache_init (capacity page_size : Z) : result sdb_page_cache :=
  fail_if (capacity =? 0) || (page_size =? 0) with SDB_E_INVALID_ARGUMENT ;;
  fail_if (capacity >? SIZE_MAX / page_size) || (capacity >? SIZE_MAX / ENTRY_SIZE) || (capacity >? SIZE_MAX / CELL_SIZE)
    with SDB_E_OVERFLOW ;;
  fail_if capacity >? SIZE_MAX / 4 with SDB_E_OVERFLOW ;;
  let slot_capacity := slot_capacity_for 64 1 (capacity * 2) in
  fail_if slot_capacity >? SIZE_MAX / SLOT_SIZE with SDB_E_OVERFLOW ;;
  Ok {| pc_entries := replicate (Z.to_nat capacity)
          {| ce_page_id := 0; ce_bytes := zeros (Z.to_nat page_size); ce_valid := false; ce_ref := false |};
        pc_slots := Some (replicate (Z.to_nat slot_capacity) {| cs_page_id := 0; cs_entry_index := 0 |});
        pc_free_list := (fun index => capacity - 1 - Z.of_nat index) <$> seq 0 (Z.to_nat capacity);
        pc_capacity := capacity; pc_slot_capacity := slot_capacity; pc_free_count := capacity;
        pc_clock_hand := 0; pc_page_size := page_size |}.

Definition sdb_page_cache_destroy (c : sdb_page_cache) : sdb_page_cache :=
  {| pc_entries := []; pc_slots := None; pc_free_list := []; pc_capacity := 0; pc_slot_capacity := 0;
     pc_free_count := 0; pc_clock_hand := 0; pc_page_size := 0 |}.

Definition sdb_page_cache_find_slot (c : sdb_page_cache) (page_id : Z) : option (option Z) :=
  slots ← pc_slots c;
  probe_find cs_page_id (Z.to_nat (pc_slot_capacity c)) slots (pc_slot_capacity c) page_id (home (pc_slot_capacity c) page_id).

(** [while (slots[index].page_id != 0)]: a probe for the identifier 0. *)
Definition sdb_page_cache_slot_insert (c : sdb_page_cache) (page_id frame : Z) : option sdb_page_cache :=
  slots ← pc_slots c;
  index ← probe_for cs_page_id (Z.to_nat (pc_slot_capacity c)) slots (pc_slot_capacity c) 0 (home (pc_slot_capacity c) page_id);
  Some (set_slots c (<[Z.to_nat index := {| cs_page_id := page_id; cs_entry_index := frame |}]> slots)).

Definition sdb_page_cache_slot_delete_at (c : sdb_page_cache) (i : Z) : option sdb_page_cache :=
  slots ← pc_slots c;
  s ← slots !! Z.to_nat i;
  slots ← shift_back cs_page_id clear_slot (Z.to_nat (pc_slot_capacity c)) (<[Z.to_nat i := clear_slot s]> slots)
            (pc_slot_capacity c) i i;
  Some (set_slots c slots).

(** [Some (None, c)] is a miss. *)
Definition sdb_page_cache_get (c : sdb_page_cache) (page_id : Z) : option (option bytes * sdb_page_cache) :=
  match pc_slots c with
  | None => Some (None, c)
  | Some slots =>
      if page_id =? 0 then Some (None, c)
      else
        slot ← sdb_page_cache_find_slot c page_id;
        match slot with
        | None => Some (None, c)
        | Some slot =>
            s ← slots !! Z.to_nat slot;
            let frame := cs_entry_index s in
            e ← pc_entries c !! Z.to_nat frame;
            Some (Some (take (Z.to_nat (pc_page_size c)) (ce_bytes e)),
                  set_entries c (<[Z.to_nat frame := with_ref e true]> (pc_entries c)))
        end
  end.

(** The sweep of [sdb_page_cache_clock_evict]; two rounds are enough. *)
Fixpoint clock_sweep (fuel : nat) (c : sdb_page_cache) : option (Z * sdb_page_cache) :=
  match fuel with
  | O => None
  | S fuel =>
      let frame := pc_clock_hand c in
      e ← pc_entries c !! Z.to_nat frame;
      let c := set_hand c ((pc_clock_hand c + 1) mod pc_capacity c) in
      if negb (ce_valid e) then clock_sweep fuel c
      else if ce_ref e
      then clock_sweep fuel (set_entries c (<[Z.to_nat frame := with_ref e false]> (pc_entries c)))
      else
        slot ← sdb_page_cache_find_slot c (ce_page_id e);
        c ← match slot with None => Some c | Some slot => sdb_page_cache_slot_delete_at c slot end;
        Some (frame, set_entries c (<[Z.to_nat frame := {| ce_page_id := 0; ce_bytes := ce_bytes e; ce_valid := false;
                                                           ce_ref := ce_ref e |}]> (pc_entries c)))
  end.

Definition sdb_page_cache_clock_evict (c : sdb_page_cache) : option (Z * sdb_page_cache) :=
  clock_sweep (Z.to_nat (2 * pc_capacity c)) c.

(** A free frame, else the victim of the sweep. *)
Definition take_frame (c : sdb_page_cache) : option (Z * sdb_page_cache) :=
  if pc_free_count c >? 0
  then
    let free_count := pc_free_count c - 1 in
    frame ← pc_free_list c !! Z.to_nat free_count;
    Some (frame, set_free c (pc_free_list c) free_count)
  else sdb_page_cache_clock_evict c.

Definition sdb_page_cache_put (c : sdb_page_cache) (page_id : Z) (page : bytes) : option sdb_page_cache :=
  match pc_slots c with
  | None => Some c
  | Some slots =>
      if (page_id =? 0) || (pc_capacity c =? 0) then Some c
      else
        let copy := take (Z.to_nat (pc_page_size c)) page in
        slot ← sdb_page_cache_find_slot c page_id;
        match slot with
        | Some slot =>
            s ← slots !! Z.to_nat slot;
            let frame := cs_entry_index s in
            e ← pc_entries c !! Z.to_nat frame;
            Some (set_entries c (<[Z.to_nat frame := {| ce_page_id := ce_page_id e; ce_bytes := copy;
                                                        ce_valid := ce_valid e; ce_ref := true |}]> (pc_entries c)))
        | None =>
            '(frame, c) ← take_frame c;
            _ ← pc_entries c !! Z.to_nat frame;
            let c := set_entries c (<[Z.to_nat frame := {| ce_page_id := page_id; ce_bytes := copy;
                                                           ce_valid := true; ce_ref := false |}]> (pc_entries c)) in
            sdb_page_cache_slot_insert c page_id frame
        end
  end.

Definition sdb_page_cache_remove (c : sdb_page_cache) (page_id : Z) : option sdb_page_cache :=
  match pc_slots c with
  | None => Some c
  | Some slots =>
      if page_id =? 0 then Some c
      else
        slot ← sdb_page_cache_find_slot c page_id;
        match slot with
        | None => Some c
        | Some slot =>
            s ← slots !! Z.to_nat slot;
            let frame := cs_entry_index s in
            c ← sdb_page_cache_slot_delete_at c slot;
            e ← pc_entries c !! Z.to_nat frame;
            let c := set_entries c (<[Z.to_nat frame := {| ce_page_id := 0; ce_bytes := ce_bytes e; ce_valid := false;
                                                           ce_ref := false |}]> (pc_entries c)) in
            _ ← pc_free_list c !! Z.to_nat (pc_free_count c);
            Some (set_free c (<[Z.to_nat (pc_free_count c) := frame]> (pc_free_list c)) (wrap 64 (pc_free_count c + 1)))
        end
  end.

(** ** The invariant *)

Abbreviation frames := (table_map cs_page_id cs_entry_index).

(** The frames on the free stack. *)
Definition free_frames (c : sdb_page_cache) : list Z := take (Z.to_nat (pc_free_count c)) (pc_free_list c).

(** [held] frames are neither in use nor on the free stack: one in the middle of
    a put, none otherwise. *)
Record cache_wf (held : Z) (c : sdb_page_cache) (slots : list sdb_page_cache_slot) : Prop := {
  cw_slots : pc_slots c = Some slots;
  cw_table : table_wf cs_page_id (pc_slot_capacity c) slots;
  cw_capacity : 0 < pc_capacity c /\ 2 * pc_capacity c <= pc_slot_capacity c;
  cw_entries : Z.of_nat (length (pc_entries c)) = pc_capacity c;
  cw_mapped x f : frames slots !! x = Some f ->
    0 <= f /\ exists e, pc_entries c !! Z.to_nat f = Some e /\ ce_valid e = true /\ ce_page_id e = x;
  cw_valid f e : pc_entries c !! f = Some e -> ce_valid e = true -> frames slots !! ce_page_id e = Some (Z.of_nat f);
  cw_free_list : Z.of_nat (length (pc_free_list c)) = pc_capacity c;
  cw_free_count : 0 <= pc_free_count c <= pc_capacity c;
  cw_free_nodup : NoDup (free_frames c);
  cw_free f : f ∈ free_frames c -> 0 <= f /\ exists e, pc_entries c !! Z.to_nat f = Some e /\ ce_valid e = false;
  cw_count : Z.of_nat (size (frames slots)) + pc_free_count c + held = pc_capacity c;
  cw_hand : 0 <= pc_clock_hand c < pc_capacity c;
  cw_bytes f e : pc_entries c !! f = Some e -> Z.of_nat (length (ce_bytes e)) = pc_page_size c
}.

(** The pages the cache holds. *)
Definition pages_of (c : sdb_page_cache) (slots : list sdb_page_cache_slot) : gmap Z bytes :=
  omap (fun f => ce_bytes <$> pc_entries c !! Z.to_nat f) (frames slots).

Lemma pages_lookup (c : sdb_page_cache) (slots : list sdb_page_cache_slot) (x : Z) :
  pages_of c slots !! x = frames slots !! x ≫= fun f => ce_bytes <$> pc_entries c !! Z.to_nat f.
Proof. apply lookup_omap. Qed.

Lemma has_empty (held : Z) (c : sdb_page_cache) (slots : list sdb_page_cache_slot) :
  0 <= held -> cache_wf held c slots -> exists e, empty_at cs_page_id (pc_slot_capacity c) slots e.
Proof.
  intros Hh Hw; apply empty_exists; [apply Hw|]; rewrite <- (table_map_size cs_page_id cs_entry_index _ _ (cw_table _ _ _ Hw)).
  pose proof (cw_count _ _ _ Hw); pose proof (cw_capacity _ _ _ Hw); pose proof (cw_free_count _ _ _ Hw); lia.
Qed.

Lemma nonzero_frames (slots : list sdb_page_cache_slot) :
  frames slots !! 0 = None.
Proof.
  apply not_elem_of_list_to_map_1; rewrite pairs_keys; intros Hin.
  apply list_elem_of_fmap in Hin as (s & E & Hs); by apply occupied_key in Hs as (_ & _ & _ & H0).
Qed.

Lemma find_slot_spec (held : Z) (c : sdb_page_cache) (slots : list sdb_page_cache_slot) (x : Z) :
  cache_wf held c slots -> x <> 0 ->
  exists r, sdb_page_cache_find_slot c x = Some r
    /\ match r with
       | Some q => 0 <= q < pc_slot_capacity c
           /\ exists s, slots !! Z.to_nat q = Some s /\ cs_page_id s = x /\ frames slots !! x = Some (cs_entry_index s)
       | None => frames slots !! x = None
       end.
Proof.
  intros Hw Hx; unfold sdb_page_cache_find_slot; rewrite (cw_slots _ _ _ Hw); cbn [mbind option_bind].
  pose proof (cw_table _ _ _ Hw) as Ht; pose proof (home_range _ x (tw_pow _ _ _ Ht)).
  destruct (probe_find_spec cs_page_id _ slots x Ht Hx (Z.to_nat (pc_slot_capacity c)) (home (pc_slot_capacity c) x))
    as (r & -> & Hr); [apply passed_home, Ht|done|dist_lia|]; exists r; split; [done|].
  destruct r as [q|]; [|by eapply table_map_none]; destruct Hr as [Hq Hk]; split; [done|].
  destruct (slot_exists _ slots q (tw_length _ _ _ Ht) Hq) as [s Hs]; apply (key_at_lookup cs_page_id) in Hs as Hks.
  exists s; split_and!; [done|congruence|]; rewrite <- Hk, Hks; eapply table_map_some; [done|done|congruence].
Qed.

(** Setting the reference bit changes nothing else. *)
Lemma set_ref_wf (held : Z) (c : sdb_page_cache) (slots : list sdb_page_cache_slot) (f : nat) (e : sdb_page_cache_entry) (ref : bool) :
  cache_wf held c slots -> pc_entries c !! f = Some e ->
  let c' := set_entries c (<[f := with_ref e ref]> (pc_entries c)) in
  cache_wf held c' slots /\ pages_of c' slots = pages_of c slots.
Proof.
  intros Hw He c'; assert (Hl : (f < length (pc_entries c))%nat) by (by eapply lookup_lt_Some).
  assert (Hlk : forall g e', pc_entries c' !! g = Some e' ->
    exists e0, pc_entries c !! g = Some e0 /\ ce_valid e' = ce_valid e0 /\ ce_page_id e' = ce_page_id e0 /\ ce_bytes e' = ce_bytes e0).
  { cbn; intros g e'; destruct (decide (f = g)) as [<-|Hne].
    - rewrite list_lookup_insert_eq by done; intros E; injection E as <-; by exists e.
    - rewrite list_lookup_insert_ne by done; by exists e'. }
  assert (Hlk' : forall g e0, pc_entries c !! g = Some e0 ->
    exists e', pc_entries c' !! g = Some e' /\ ce_valid e' = ce_valid e0 /\ ce_page_id e' = ce_page_id e0 /\ ce_bytes e' = ce_bytes e0).
  { cbn; intros g e0 Hg; destruct (decide (f = g)) as [<-|Hne].
    - rewrite list_lookup_insert_eq by done; rewrite He in Hg; injection Hg as <-; by eexists.
    - rewrite list_lookup_insert_ne by done; by exists e0. }
  split.
  - destruct Hw as [H1 H2 H3 H4 H5 H6 H7 H8 H9 H10 H11 H12 H13]; split; try done.
    + cbn; by rewrite length_insert.
    + intros x g Hg; destruct (H5 x g Hg) as (Hg0 & e0 & He0 & Hv & Hp); split; [done|].
      destruct (Hlk' _ _ He0) as (e' & He' & Ev & Ep & _); exists e'; split_and!; congruence.
    + intros g e' He' Hv; destruct (Hlk _ _ He') as (e0 & He0 & Ev & Ep & _); rewrite Ep; apply H6; congruence.
    + intros g Hg; destruct (H10 g Hg) as (Hg0 & e0 & He0 & Hv); split; [done|].
      destruct (Hlk' _ _ He0) as (e' & He' & Ev & _); exists e'; split; congruence.
    + intros g e' He'; destruct (Hlk _ _ He') as (e0 & He0 & _ & _ & Eb); rewrite Eb; by eapply H13.
  - apply map_eq; intros x; rewrite !pages_lookup; destruct (frames slots !! x) as [g|]; [|done]; cbn [mbind option_bind].
    cbn [set_entries pc_entries c']; destruct (decide (f = Z.to_nat g)) as [->|Hne].
    + rewrite list_lookup_insert_eq by done; by rewrite He.
    + by rewrite list_lookup_insert_ne.
Qed.

(** ** Releasing a frame *)

(** A frame in nobody's hands. *)
Definition spare (c : sdb_page_cache) (f : Z) : Prop :=
  0 <= f /\ (exists e, pc_entries c !! Z.to_nat f = Some e /\ ce_valid e = false) /\ f ∉ free_frames c.

Lemma delete_at_spec (held : Z) (c : sdb_page_cache) (slots : list sdb_page_cache_slot) (q : Z) (s : sdb_page_cache_slot) :
  0 <= held -> cache_wf held c slots -> 0 <= q < pc_slot_capacity c -> slots !! Z.to_nat q = Some s -> cs_page_id s <> 0 ->
  exists slots', sdb_page_cache_slot_delete_at c q = Some (set_slots c slots')
    /\ table_wf cs_page_id (pc_slot_capacity c) slots' /\ frames slots' = delete (cs_page_id s) (frames slots).
Proof.
  intros Hh Hw Hq Hs H0; destruct (has_empty _ _ _ Hh Hw) as [e He]; pose proof (cw_table _ _ _ Hw) as Ht.
  destruct (shift_back_deletes cs_page_id clear_slot (fun s => eq_refl) _ slots q e s Ht Hq Hs H0 He) as (slots' & Hrun & Hw' & HP).
  exists slots'; unfold sdb_page_cache_slot_delete_at; rewrite (cw_slots _ _ _ Hw); cbn [mbind option_bind].
  rewrite Hs; cbn [mbind option_bind]; rewrite Hrun; split_and!; [done|done|by eapply table_map_delete].
Qed.

Lemma release_wf (c : sdb_page_cache) (slots slots' : list sdb_page_cache_slot) (x f : Z) (e : sdb_page_cache_entry) (ref : bool) :
  cache_wf 0 c slots -> table_wf cs_page_id (pc_slot_capacity c) slots' ->
  frames slots' = delete x (frames slots) -> frames slots !! x = Some f -> pc_entries c !! Z.to_nat f = Some e ->
  let c' := set_entries (set_slots c slots') (<[Z.to_nat f := {| ce_page_id := 0; ce_bytes := ce_bytes e; ce_valid := false;
              ce_ref := ref |}]> (pc_entries c)) in
  cache_wf 1 c' slots' /\ spare c' f /\ pages_of c' slots' = delete x (pages_of c slots).
Proof.
  intros [H1 H2 H3 H4 H5 H6 H7 H8 H9 H10 H11 H12 H13] Ht Hfr Hxf He c'.
  assert (Hl : (Z.to_nat f < length (pc_entries c))%nat) by (by eapply lookup_lt_Some).
  destruct (H5 x f Hxf) as (Hf0 & e0 & He0 & Hv0 & Hp0); rewrite He in He0; injection He0 as <-.
  assert (Hoth : forall y g, frames slots' !! y = Some g -> y <> x /\ frames slots !! y = Some g /\ Z.to_nat g <> Z.to_nat f).
  { intros y g; rewrite Hfr; intros Hy; apply lookup_delete_Some in Hy as [Hne Hy]; split_and!; [done|done|]; intros E.
    destruct (H5 y g Hy) as (_ & e1 & He1 & _ & Hp1); rewrite E, He in He1; congruence. }
  assert (Hnf : forall g, g ∈ free_frames c -> Z.to_nat g <> Z.to_nat f).
  { intros g Hg E; destruct (H10 g Hg) as (_ & e1 & He1 & Hv1); rewrite E, He in He1; congruence. }
  split_and!.
  - split; try done; cbn [c' set_entries set_slots pc_entries pc_capacity pc_free_list pc_free_count pc_page_size].
    + by rewrite length_insert.
    + intros y g Hy; destruct (Hoth y g Hy) as (_ & Hy' & Hne); rewrite list_lookup_insert_ne by done; by apply H5.
    + intros g e1; destruct (decide (Z.to_nat f = g)) as [<-|Hne].
      * rewrite list_lookup_insert_eq by done; intros E; by injection E as <-.
      * rewrite list_lookup_insert_ne by done; intros Hg Hv; rewrite Hfr, lookup_delete_ne; [by apply H6|].
        intros E; pose proof (H6 _ _ Hg Hv) as Hm; rewrite <- E, Hxf in Hm; injection Hm as ->; lia.
    + intros g Hg; specialize (Hnf g Hg); rewrite list_lookup_insert_ne by done; by apply H10.
    + rewrite Hfr, map_size_delete_Some by (by exists f); assert (size (frames slots) <> 0%nat); [|lia].
      intros E; apply map_size_empty_iff in E; rewrite E in Hxf; done.
    + intros g e1; destruct (decide (Z.to_nat f = g)) as [<-|Hne].
      * rewrite list_lookup_insert_eq by done; intros E; injection E as <-; cbn; by eapply H13.
      * rewrite list_lookup_insert_ne by done; by eapply H13.
  - split_and!; [done|cbn; rewrite list_lookup_insert_eq by done; by eexists|].
    intros Hf; by apply (Hnf f Hf).
  - apply map_eq; intros y; rewrite pages_lookup, lookup_delete; cbn [c' set_entries pc_entries].
    case_decide as Hy; [subst; by rewrite Hfr, lookup_delete_eq|]; rewrite pages_lookup, Hfr, lookup_delete_ne by done.
    destruct (frames slots !! y) as [g|] eqn:Eg; [|done]; cbn [mbind option_bind].
    rewrite list_lookup_insert_ne; [done|]; intros E; destruct (H5 y g Eg) as (_ & e1 & He1 & _ & Hp1).
    rewrite <- E, He in He1; congruence.
Qed.

(** ** The sweep *)

Lemma set_hand_wf (held : Z) (c : sdb_page_cache) (slots : list sdb_page_cache_slot) :
  cache_wf held c slots -> cache_wf held (set_hand c ((pc_clock_hand c + 1) mod pc_capacity c)) slots.
Proof.
  intros [H1 H2 H3 H4 H5 H6 H7 H8 H9 H10 H11 H12 H13]; split; try done; cbn; apply Z.mod_pos_bound; lia.
Qed.

(** How far the sweep is from taking the valid frame [v] at the latest. *)
Definition sweep_distance (c : sdb_page_cache) (v : Z) (e : sdb_page_cache_entry) : Z :=
  dist (pc_capacity c) (pc_clock_hand c) v + if ce_ref e then pc_capacity c else 0.

(** The hand's next position, seen from [v]. *)
Lemma hand_next (n hand v : Z) :
  0 <= hand < n -> 0 <= v < n ->
  dist n ((hand + 1) mod n) v = if hand =? v then n - 1 else dist n hand v - 1.
Proof.
  intros Hh Hv; destruct (decide (hand + 1 = n)) as [E|Hn]; [rewrite E, Z.mod_same by lia|rewrite Z.mod_small by lia];
    destruct (Z.eqb_spec hand v); dist_lia.
Qed.

(** What a sweep achieves. *)
Definition evicts (c : sdb_page_cache) (slots : list sdb_page_cache_slot) (r : option (Z * sdb_page_cache)) : Prop :=
  exists f c' slots' x, r = Some (f, c') /\ cache_wf 1 c' slots' /\ spare c' f
    /\ is_Some (pages_of c slots !! x) /\ pages_of c' slots' = delete x (pages_of c slots)
    /\ pc_capacity c' = pc_capacity c /\ pc_page_size c' = pc_page_size c.

(** The hand stands at an unreferenced page. *)
Lemma evict_at (c : sdb_page_cache) (slots : list sdb_page_cache_slot) (hand : nat) (e : sdb_page_cache_entry) :
  cache_wf 0 c slots -> pc_entries c !! hand = Some e -> ce_valid e = true ->
  evicts c slots
    (slot ← sdb_page_cache_find_slot c (ce_page_id e);
     c ← match slot with None => Some c | Some slot => sdb_page_cache_slot_delete_at c slot end;
     Some (Z.of_nat hand, set_entries c (<[hand := {| ce_page_id := 0; ce_bytes := ce_bytes e; ce_valid := false;
                                                      ce_ref := ce_ref e |}]> (pc_entries c)))).
Proof.
  intros Hw He Hv; pose proof (cw_valid _ _ _ Hw _ _ He Hv) as Hfr.
  assert (Hx : ce_page_id e <> 0) by (intros E; rewrite E, nonzero_frames in Hfr; done).
  destruct (find_slot_spec 0 c slots (ce_page_id e) Hw Hx) as (r & -> & Hr); cbn [mbind option_bind].
  destruct r as [q|]; [|congruence]; destruct Hr as (Hq & s & Hs & Hid & Hfs).
  destruct (delete_at_spec 0 c slots q s) as (slots' & -> & Ht' & Hfr'); [lia|done|done|done|congruence|].
  cbn [mbind option_bind]; rewrite Hid in Hfr'; rewrite <- (Nat2Z.id hand) in He.
  destruct (release_wf c slots slots' (ce_page_id e) (Z.of_nat hand) e (ce_ref e) Hw Ht' Hfr' Hfr He) as (Hw' & Hsp & Hpg).
  rewrite Nat2Z.id in *; eexists _, _, slots', (ce_page_id e); split_and!; try done.
  rewrite pages_lookup, Hfr; cbn [mbind option_bind]; rewrite Nat2Z.id, He; by eexists.
Qed.

Lemma clock_sweep_spec (v : Z) :
  forall fuel c slots e, cache_wf 0 c slots -> 0 <= v -> pc_entries c !! Z.to_nat v = Some e -> ce_valid e = true ->
  sweep_distance c v e < Z.of_nat fuel -> evicts c slots (clock_sweep fuel c).
Proof.
  induction fuel as [|fuel IH]; intros c slots e Hw Hv He Hval Hd; pose proof (cw_entries _ _ _ Hw) as Hlen;
    pose proof (cw_hand _ _ _ Hw) as Hh; assert (Hvc : v < pc_capacity c) by (apply lookup_lt_Some in He; lia);
    unfold sweep_distance in Hd.
  { destruct (ce_ref e); dist_lia. }
  cbn [clock_sweep]; set (hand := pc_clock_hand c) in *.
  pose proof (hand_next (pc_capacity c) hand v Hh ltac:(lia)) as Hnext.
  destruct (lookup_lt_is_Some_2 (pc_entries c) (Z.to_nat hand)) as [eh Heh]; [lia|]; rewrite Heh; cbn [mbind option_bind].
  set (c1 := set_hand c ((hand + 1) mod pc_capacity c)); assert (Hw1 : cache_wf 0 c1 slots) by (by apply set_hand_wf).
  destruct (ce_valid eh) eqn:Ev; cbn [negb]; cycle 1.
  { apply (IH c1 slots e); try done; unfold sweep_distance; cbn [c1 set_hand pc_capacity pc_clock_hand]; rewrite Hnext.
    destruct (Z.eqb_spec hand v) as [E|]; [rewrite E, He in Heh; congruence|lia]. }
  destruct (ce_ref eh) eqn:Er.
  - destruct (set_ref_wf 0 c1 slots (Z.to_nat hand) eh false Hw1 Heh) as [Hw2 Hp2].
    set (c2 := set_entries c1 (<[Z.to_nat hand := with_ref eh false]> (pc_entries c1))) in *.
    cut (evicts c2 slots (clock_sweep fuel c2)); [unfold evicts; rewrite Hp2; done|].
    destruct (Z.eqb_spec hand v) as [E|Hne].
    + rewrite E, He in Heh; injection Heh as <-; apply (IH c2 slots (with_ref e false)); try done.
      * cbn; rewrite E, list_lookup_insert_eq; [done|]; apply lookup_lt_Some in He; done.
      * unfold sweep_distance; cbn [c2 c1 set_entries set_hand pc_capacity pc_clock_hand with_ref ce_ref].
        rewrite Hnext, Er in *; dist_lia.
    + apply (IH c2 slots e); try done.
      * cbn; rewrite list_lookup_insert_ne by lia; done.
      * unfold sweep_distance; cbn [c2 c1 set_entries set_hand pc_capacity pc_clock_hand]; lia.
  - pose proof (evict_at c1 slots (Z.to_nat hand) eh Hw1 Heh Ev) as Hev; rewrite Z2Nat.id, Er in Hev by lia.
    exact Hev.
Qed.

(** Two rounds find a victim in a full cache. *)
Lemma clock_evict_spec (c : sdb_page_cache) (slots : list sdb_page_cache_slot) :
  cache_wf 0 c slots -> pc_free_count c = 0 -> evicts c slots (sdb_page_cache_clock_evict c).
Proof.
  intros Hw Hfc; pose proof (cw_count _ _ _ Hw) as Hcount; pose proof (cw_capacity _ _ _ Hw) as [Hcap _].
  assert (Hne : frames slots <> ∅) by (intros Em; rewrite Em, map_size_empty in Hcount; lia).
  apply map_choose in Hne as (x & v & Hxv); destruct (cw_mapped _ _ _ Hw x v Hxv) as (Hv0 & e & He & Hval & _).
  apply (clock_sweep_spec v _ c slots e Hw Hv0 He Hval).
  pose proof (cw_hand _ _ _ Hw); pose proof (cw_entries _ _ _ Hw); apply lookup_lt_Some in He; unfold sweep_distance.
  destruct (ce_ref e); dist_lia.
Qed.

Lemma pages_some (held : Z) (c : sdb_page_cache) (slots : list sdb_page_cache_slot) (x : Z) :
  cache_wf held c slots -> is_Some (pages_of c slots !! x) <-> is_Some (frames slots !! x).
Proof.
  intros Hw; rewrite pages_lookup; destruct (frames slots !! x) as [f|] eqn:Ef; [|split; intros [? Hc]; discriminate Hc].
  destruct (cw_mapped _ _ _ Hw x f Ef) as (_ & e & He & _); cbn [mbind option_bind]; rewrite He.
  split; intros _; by eexists.
Qed.

Lemma pages_size (held : Z) (c : sdb_page_cache) (slots : list sdb_page_cache_slot) :
  cache_wf held c slots -> size (pages_of c slots) = size (frames slots).
Proof.
  intros Hw; rewrite <- !size_dom; f_equal; apply set_eq; intros x.
  rewrite !elem_of_dom; by eapply pages_some.
Qed.

(** The capacity and the page size do not change. *)
Definition same_shape (c c' : sdb_page_cache) : Prop :=
  pc_capacity c' = pc_capacity c /\ pc_page_size c' = pc_page_size c.

Lemma pop_free_spec (c : sdb_page_cache) (slots : list sdb_page_cache_slot) :
  cache_wf 0 c slots -> 0 < pc_free_count c ->
  exists f, pc_free_list c !! Z.to_nat (pc_free_count c - 1) = Some f
    /\ let c' := set_free c (pc_free_list c) (pc_free_count c - 1) in cache_wf 1 c' slots /\ spare c' f.
Proof.
  intros [H1 H2 H3 H4 H5 H6 H7 H8 H9 H10 H11 H12 H13] Hc.
  destruct (lookup_lt_is_Some_2 (pc_free_list c) (Z.to_nat (pc_free_count c - 1))) as [f Hf]; [lia|].
  exists f; split; [done|]; set (c' := set_free c (pc_free_list c) (pc_free_count c - 1)).
  assert (E : free_frames c = free_frames c' ++ [f]).
  { unfold free_frames, c'; cbn [set_free pc_free_list pc_free_count]; rewrite <- take_S_r by done; f_equal; lia. }
  rewrite E in H9, H10; apply list.NoDup_app in H9 as (Hn & Hd & _).
  split; [split; try done|].
  - cbn; lia.
  - intros g Hg; apply (H10 g), elem_of_app; by left.
  - cbn; lia.
  - destruct (H10 f) as (Hf0 & e & He & Hv); [apply elem_of_app; right; by apply list_elem_of_singleton|].
    split_and!; [done|by exists e|]; intros Hin; apply (Hd f Hin); by apply list_elem_of_singleton.
Qed.

Lemma take_frame_spec (c : sdb_page_cache) (slots : list sdb_page_cache_slot) :
  cache_wf 0 c slots ->
  exists f c' slots', take_frame c = Some (f, c') /\ cache_wf 1 c' slots' /\ spare c' f /\ same_shape c c'
    /\ (pages_of c' slots' = pages_of c slots
        \/ Z.of_nat (size (pages_of c slots)) = pc_capacity c
           /\ exists x, is_Some (pages_of c slots !! x) /\ pages_of c' slots' = delete x (pages_of c slots)).
Proof.
  intros Hw; unfold take_frame; destruct (pc_free_count c >? 0) eqn:E; zbool_hyps.
  - destruct (pop_free_spec c slots Hw) as (f & -> & Hw' & Hsp); [lia|]; cbn [mbind option_bind].
    eexists _, _, slots; split_and!; try done; by left.
  - assert (Hfc : pc_free_count c = 0) by (pose proof (cw_free_count _ _ _ Hw); lia).
    pose proof (cw_count _ _ _ Hw) as Hcount; destruct (clock_evict_spec c slots Hw Hfc) as (f & c' & slots' & y & Hev).
    destruct Hev as (Hrun & Hw' & Hsp & Hy & Hpg & Hc1 & Hc2); exists f, c', slots'; split_and!; try done.
    right; split; [rewrite (pages_size 0) by done; lia|by exists y].
Qed.

(** ** Filling a frame *)

Lemma slot_insert_spec (held : Z) (c : sdb_page_cache) (slots : list sdb_page_cache_slot) (x f : Z) :
  0 <= held -> cache_wf held c slots -> x <> 0 -> frames slots !! x = None ->
  exists slots', (forall c', pc_slots c' = Some slots -> pc_slot_capacity c' = pc_slot_capacity c ->
      sdb_page_cache_slot_insert c' x f = Some (set_slots c' slots'))
    /\ table_wf cs_page_id (pc_slot_capacity c) slots' /\ frames slots' = <[x := f]> (frames slots).
Proof.
  intros Hh Hw Hx Hnone; pose proof (cw_table _ _ _ Hw) as Ht; destruct (has_empty _ _ _ Hh Hw) as [e He].
  pose proof (home_range _ x (tw_pow _ _ _ Ht)) as Hhome.
  destruct (probe_for_spec cs_page_id _ slots x e Ht Hx He (Z.to_nat (pc_slot_capacity c)) (home (pc_slot_capacity c) x))
    as (q & Hq & Hqr & Hp & Hk); [apply passed_home, Ht|done|dist_lia|].
  assert (Hab : forall j, 0 <= j < pc_slot_capacity c -> key_at cs_page_id slots j <> x).
  { intros j Hj E; destruct (slot_exists _ slots j (tw_length _ _ _ Ht) Hj) as [s Hs].
    apply (key_at_lookup cs_page_id) in Hs as Hks; rewrite <- E, Hks in Hnone.
    erewrite table_map_some in Hnone; [done|exact Ht|exact Hs|congruence]. }
  destruct Hk as [Hk|Hk]; [by destruct (Hab q Hqr)|].
  set (s := {| cs_page_id := x; cs_entry_index := f |}); assert (Ht' : table_wf cs_page_id (pc_slot_capacity c) (<[Z.to_nat q := s]> slots))
    by (by eapply table_fill).
  exists (<[Z.to_nat q := s]> slots); split_and!; [|done|].
  - intros c' Es Ec; unfold sdb_page_cache_slot_insert; rewrite Es, Ec; cbn [mbind option_bind].
    by rewrite (probe_for_empty cs_page_id _ slots x Ht Hab _ _ Hhome), Hq.
  - apply (table_map_fill cs_page_id cs_entry_index (pc_slot_capacity c) slots q s); [exact Ht'| |done|done].
    by rewrite (tw_length _ _ _ Ht).
Qed.

Lemma fill_wf (c : sdb_page_cache) (slots slots' : list sdb_page_cache_slot) (x f : Z) (page : bytes) :
  cache_wf 1 c slots -> spare c f -> frames slots !! x = None ->
  table_wf cs_page_id (pc_slot_capacity c) slots' -> frames slots' = <[x := f]> (frames slots) ->
  Z.of_nat (length page) = pc_page_size c ->
  let c' := set_slots (set_entries c (<[Z.to_nat f := {| ce_page_id := x; ce_bytes := page; ce_valid := true;
              ce_ref := false |}]> (pc_entries c))) slots' in
  cache_wf 0 c' slots' /\ pages_of c' slots' = <[x := page]> (pages_of c slots).
Proof.
  intros [H1 H2 H3 H4 H5 H6 H7 H8 H9 H10 H11 H12 H13] (Hf0 & (e & He & Hv) & Hnf) Hx Ht Hfr Hpage c'.
  assert (Hl : (Z.to_nat f < length (pc_entries c))%nat) by (by eapply lookup_lt_Some).
  assert (Hoth : forall y g, frames slots !! y = Some g -> Z.to_nat f <> Z.to_nat g).
  { intros y g Hy E; destruct (H5 y g Hy) as (_ & e1 & He1 & Hv1 & _); rewrite <- E, He in He1; congruence. }
  split.
  - split; try done; cbn [c' set_entries set_slots pc_entries pc_capacity pc_free_list pc_free_count pc_page_size].
    + by rewrite length_insert.
    + intros y g; rewrite Hfr; intros Hy; apply lookup_insert_Some in Hy as [[<- <-]|[Hne Hy]].
      * split; [done|]; rewrite list_lookup_insert_eq by done; by eexists.
      * rewrite list_lookup_insert_ne by (by eapply Hoth); by apply H5.
    + intros g e1; destruct (decide (Z.to_nat f = g)) as [<-|Hne].
      * rewrite list_lookup_insert_eq by done; intros E _; injection E as <-; cbn [ce_page_id].
        by rewrite Hfr, lookup_insert_eq, Z2Nat.id.
      * rewrite list_lookup_insert_ne by done; intros Hg Hv1; rewrite Hfr, lookup_insert_ne; [by apply H6|].
        intros E; rewrite (H6 g e1 Hg Hv1) in Hx || (rewrite E in Hx; rewrite (H6 g e1 Hg Hv1) in Hx); done.
    + intros g Hg; rewrite list_lookup_insert_ne; [by apply H10|]; intros E.
      destruct (H10 g Hg) as (Hg0 & _); assert (g = f) by lia; by subst.
    + rewrite Hfr, map_size_insert_None by done; lia.
    + intros g e1; destruct (decide (Z.to_nat f = g)) as [<-|Hne].
      * rewrite list_lookup_insert_eq by done; intros E; by injection E as <-.
      * rewrite list_lookup_insert_ne by done; by apply H13.
  - apply map_eq; intros y; rewrite pages_lookup; cbn [c' set_slots set_entries pc_entries]; rewrite Hfr.
    destruct (decide (x = y)) as [<-|Hne].
    + rewrite !lookup_insert_eq; cbn [mbind option_bind]; by rewrite list_lookup_insert_eq.
    + rewrite !lookup_insert_ne, pages_lookup by done; destruct (frames slots !! y) as [g|] eqn:Eg; [|done].
      cbn [mbind option_bind]; rewrite list_lookup_insert_ne; [done|]; by eapply Hoth.
Qed.

(** ** The operations on the map of pages *)

Definition cache_is (c : sdb_page_cache) (m : gmap Z bytes) : Prop :=
  exists slots, cache_wf 0 c slots /\ pages_of c slots = m.

Lemma cache_entry (c : sdb_page_cache) (slots : list sdb_page_cache_slot) (x f : Z) :
  cache_wf 0 c slots -> frames slots !! x = Some f ->
  exists e, pc_entries c !! Z.to_nat f = Some e /\ pages_of c slots !! x = Some (ce_bytes e)
    /\ Z.of_nat (length (ce_bytes e)) = pc_page_size c.
Proof.
  intros Hw Hf; destruct (cw_mapped _ _ _ Hw x f Hf) as (_ & e & He & _); exists e; split_and!; [done| |by eapply (cw_bytes _ _ _ Hw)].
  rewrite pages_lookup, Hf; cbn [mbind option_bind]; by rewrite He.
Qed.

Lemma get_cache_is (c : sdb_page_cache) (m : gmap Z bytes) (x : Z) :
  cache_is c m -> x <> 0 ->
  exists c', sdb_page_cache_get c x = Some (m !! x, c') /\ cache_is c' m /\ same_shape c c'.
Proof.
  intros (slots & Hw & <-) Hx; unfold sdb_page_cache_get; rewrite (cw_slots _ _ _ Hw), (proj2 (Z.eqb_neq x 0) Hx).
  destruct (find_slot_spec 0 c slots x Hw Hx) as (r & -> & Hr); cbn [mbind option_bind]; destruct r as [q|].
  - destruct Hr as (Hq & s & Hs & Hid & Hf); rewrite Hs; cbn [mbind option_bind].
    destruct (cache_entry c slots x _ Hw Hf) as (e & He & Hp & Hb); rewrite He, Hp; cbn [mbind option_bind].
    rewrite take_ge by lia; destruct (set_ref_wf 0 c slots _ e true Hw He) as [Hw' Hp'].
    eexists; split_and!; [done|by exists slots|done].
  - exists c; split_and!; [|by exists slots|done]; rewrite pages_lookup, Hr; done.
Qed.

(** An update in place. *)
Lemma overwrite_wf (c : sdb_page_cache) (slots : list sdb_page_cache_slot) (x f : Z) (e : sdb_page_cache_entry) (page : bytes) :
  cache_wf 0 c slots -> frames slots !! x = Some f -> pc_entries c !! Z.to_nat f = Some e ->
  Z.of_nat (length page) = pc_page_size c ->
  let c' := set_entries c (<[Z.to_nat f := {| ce_page_id := ce_page_id e; ce_bytes := page; ce_valid := ce_valid e;
              ce_ref := true |}]> (pc_entries c)) in
  cache_wf 0 c' slots /\ pages_of c' slots = <[x := page]> (pages_of c slots).
Proof.
  intros [H1 H2 H3 H4 H5 H6 H7 H8 H9 H10 H11 H12 H13] Hxf He Hpage c'.
  assert (Hl : (Z.to_nat f < length (pc_entries c))%nat) by (by eapply lookup_lt_Some).
  destruct (H5 x f Hxf) as (Hf0 & e0 & He0 & Hv0 & Hp0); rewrite He in He0; injection He0 as <-.
  assert (Hlk : forall g, pc_entries c' !! g = if decide (Z.to_nat f = g)
    then Some {| ce_page_id := ce_page_id e; ce_bytes := page; ce_valid := ce_valid e; ce_ref := true |} else pc_entries c !! g).
  { intros g; cbn; destruct (decide (Z.to_nat f = g)) as [<-|]; [by apply list_lookup_insert_eq|by apply list_lookup_insert_ne]. }
  split.
  - split; try done.
    + cbn; by rewrite length_insert.
    + intros y g Hy; destruct (H5 y g Hy) as (Hg0 & e1 & He1 & Hv1 & Hp1); split; [done|]; rewrite Hlk.
      case_decide as E; [rewrite <- E, He in He1; injection He1 as <-|]; by eexists.
    + intros g e1; rewrite Hlk; case_decide as E; [|by apply H6].
      intros Ee Hv; injection Ee as <-; cbn; apply H6; [by rewrite <- E|done].
    + intros g Hg; destruct (H10 g Hg) as (Hg0 & e1 & He1 & Hv1); split; [done|]; rewrite Hlk.
      case_decide as E; [rewrite <- E, He in He1; injection He1 as <-|]; by eexists.
    + intros g e1; rewrite Hlk; case_decide as E; [|by apply H13]; intros Ee; by injection Ee as <-.
  - apply map_eq; intros y; rewrite pages_lookup; destruct (decide (x = y)) as [<-|Hne].
    + rewrite lookup_insert_eq, Hxf; cbn [mbind option_bind]; by rewrite Hlk, decide_True.
    + rewrite lookup_insert_ne, pages_lookup by done; destruct (frames slots !! y) as [g|] eqn:Eg; [|done].
      cbn [mbind option_bind]; rewrite Hlk, decide_False; [done|]; intros E.
      destruct (H5 y g Eg) as (_ & e1 & He1 & _ & Hp1); rewrite <- E, He in He1; congruence.
Qed.

(** What a put does: the page is there, and to make room for a new one a full
    cache drops another. *)
Definition cached (capacity : Z) (m : gmap Z bytes) (x : Z) (page : bytes) (m' : gmap Z bytes) : Prop :=
  m' = <[x := page]> m
  \/ m !! x = None /\ Z.of_nat (size m) = capacity
     /\ exists victim, is_Some (m !! victim) /\ m' = <[x := page]> (delete victim m).

Lemma put_cache_is (c : sdb_page_cache) (m : gmap Z bytes) (x : Z) (page : bytes) :
  cache_is c m -> x <> 0 -> Z.of_nat (length page) = pc_page_size c ->
  exists c' m', sdb_page_cache_put c x page = Some c' /\ cache_is c' m' /\ same_shape c c' /\ cached (pc_capacity c) m x page m'.
Proof.
  intros (slots & Hw & <-) Hx Hpage; unfold sdb_page_cache_put; pose proof (cw_capacity _ _ _ Hw) as [Hcap _].
  rewrite (cw_slots _ _ _ Hw), (proj2 (Z.eqb_neq x 0) Hx), (proj2 (Z.eqb_neq (pc_capacity c) 0)) by lia; cbn [orb].
  rewrite take_ge by lia; destruct (find_slot_spec 0 c slots x Hw Hx) as (r & -> & Hr); cbn [mbind option_bind]; destruct r as [q|].
  - destruct Hr as (Hq & s & Hs & Hid & Hf); rewrite Hs; cbn [mbind option_bind].
    destruct (cache_entry c slots x _ Hw Hf) as (e & He & Hp & Hb); rewrite He; cbn [mbind option_bind].
    destruct (overwrite_wf c slots x _ e page Hw Hf He Hpage) as [Hw' Hp'].
    eexists _, _; split_and!; [done|exists slots; split; [exact Hw'|exact Hp']|done|by left].
  - destruct (take_frame_spec c slots Hw) as (f & c1 & slots1 & -> & Hw1 & Hsp & [Hc1 Hps1] & Hpg); cbn [mbind option_bind].
    assert (Hx1 : frames slots1 !! x = None).
    { apply eq_None_not_Some; rewrite <- (pages_some 1 c1) by done; assert (~ is_Some (pages_of c slots !! x))
        by (rewrite (pages_some 0) by done; rewrite Hr; by intros [? ?]).
      destruct Hpg as [->|(_ & y & _ & ->)]; [done|]; rewrite lookup_delete_is_Some; tauto. }
    pose proof Hsp as (_ & (e & He & _) & _); rewrite He; cbn [mbind option_bind].
    destruct (slot_insert_spec 1 c1 slots1 x f) as (slots2 & Hins & Ht2 & Hf2); [lia|done|done|done|].
    destruct (fill_wf c1 slots1 slots2 x f page Hw1 Hsp Hx1 Ht2 Hf2) as [Hw2 Hp2]; [congruence|].
    rewrite Hins; [|apply (cw_slots _ _ _ Hw1)|done]; eexists _, _; split_and!; [done|exists slots2; split; [exact Hw2|exact Hp2]|done|].
    destruct Hpg as [->|(Hsz & y & Hy & ->)]; [by left|right]; split_and!; [by rewrite pages_lookup, Hr|done|by exists y].
Qed.

Lemma push_free_wf (c : sdb_page_cache) (slots : list sdb_page_cache_slot) (f : Z) :
  cache_wf 1 c slots -> spare c f ->
  is_Some (pc_free_list c !! Z.to_nat (pc_free_count c)) /\ pc_free_count c < pc_capacity c
  /\ cache_wf 0 (set_free c (<[Z.to_nat (pc_free_count c) := f]> (pc_free_list c)) (pc_free_count c + 1)) slots.
Proof.
  intros [H1 H2 H3 H4 H5 H6 H7 H8 H9 H10 H11 H12 H13] (Hf0 & He & Hnf).
  assert (Hlt : pc_free_count c < pc_capacity c) by lia.
  split_and!; [apply lookup_lt_is_Some_2; lia|done|].
  assert (E : free_frames (set_free c (<[Z.to_nat (pc_free_count c) := f]> (pc_free_list c)) (pc_free_count c + 1))
    = free_frames c ++ [f]).
  { unfold free_frames; cbn [set_free pc_free_list pc_free_count].
    rewrite Z.add_1_r, Z2Nat.inj_succ, (take_S_r _ _ f) by (lia || (apply list_lookup_insert_eq; lia)).
    by rewrite take_insert_ge by lia. }
  split; try done.
  - cbn; by rewrite length_insert.
  - cbn; lia.
  - rewrite E; apply list.NoDup_app; split_and!; [done|intros g Hg Hc|apply NoDup_singleton].
    apply list_elem_of_singleton in Hc as ->; done.
  - intros g; rewrite E, elem_of_app, list_elem_of_singleton; intros [Hg| ->]; [by apply H10|done].
  - cbn; lia.
Qed.

Lemma remove_cache_is (c : sdb_page_cache) (m : gmap Z bytes) (x : Z) :
  cache_is c m -> x <> 0 -> pc_capacity c < 2 ^ 64 ->
  exists c', sdb_page_cache_remove c x = Some c' /\ cache_is c' (delete x m) /\ same_shape c c'.
Proof.
  intros (slots & Hw & <-) Hx Hcap; unfold sdb_page_cache_remove; rewrite (cw_slots _ _ _ Hw), (proj2 (Z.eqb_neq x 0) Hx).
  destruct (find_slot_spec 0 c slots x Hw Hx) as (r & -> & Hr); cbn [mbind option_bind]; destruct r as [q|].
  - destruct Hr as (Hq & s & Hs & Hid & Hf); rewrite Hs; cbn [mbind option_bind].
    destruct (delete_at_spec 0 c slots q s) as (slots' & -> & Ht' & Hfr'); [lia|done|done|done|congruence|].
    destruct (cache_entry c slots x _ Hw Hf) as (e & He & _); cbn [mbind option_bind set_slots pc_entries]; rewrite He.
    rewrite Hid in Hfr'; destruct (release_wf c slots slots' x _ e false Hw Ht' Hfr' Hf He) as (Hw' & Hsp & Hpg).
    destruct (push_free_wf _ _ _ Hw' Hsp) as ([g Hg] & Hlt & Hw''); cbn [mbind option_bind]; cbn in Hg, Hlt.
    cbn [set_entries set_slots pc_free_list pc_free_count]; rewrite Hg; cbn [mbind option_bind].
    pose proof (cw_free_count _ _ _ Hw); rewrite wrap_small by lia; eexists; split_and!; [done| |done].
    exists slots'; split; [exact Hw''|exact Hpg].
  - exists c; split_and!; [done| |done]; exists slots; split; [done|]; symmetry; apply delete_id.
    by rewrite pages_lookup, Hr.
Qed.

(** ** Creation *)

Lemma slot_capacity_spec (wanted : Z) :
  wanted <= 2 ^ 63 -> forall fuel k, 0 <= k -> k + Z.of_nat fuel = 64 -> (1 <= fuel)%nat ->
  exists j, k <= j < 64 /\ slot_capacity_for fuel (2 ^ k) wanted = 2 ^ j /\ wanted <= 2 ^ j.
Proof.
  intros Hw; induction fuel as [|fuel IH]; intros k Hk Hf H1; [lia|]; cbn [slot_capacity_for].
  destruct (Z.ltb_spec (2 ^ k) wanted) as [Hlt|Hge]; [|exists k; split_and!; (done || lia)].
  assert (Hk63 : k < 63) by (apply (Z.pow_lt_mono_r_iff 2); lia).
  rewrite Z.shiftl_mul_pow2, <- Z.pow_add_r, wrap_small by first [lia|split; [lia|apply Z.pow_lt_mono_r; lia]].
  destruct (IH (k + 1)) as (j & Hj & Hrun & Hle); [lia|lia|lia|]; exists j; split_and!; (done || lia).
Qed.

Lemma empty_table (n : Z) :
  power_of_two n ->
  table_wf cs_page_id n (replicate (Z.to_nat n) {| cs_page_id := 0; cs_entry_index := 0 |})
  /\ frames (replicate (Z.to_nat n) {| cs_page_id := 0; cs_entry_index := 0 |}) = ∅.
Proof.
  intros Hn; pose proof (power_of_two_pos n Hn); split.
  - assert (Hk : forall i, key_at cs_page_id (replicate (Z.to_nat n) {| cs_page_id := 0; cs_entry_index := 0 |}) i = 0).
    { intros i; unfold key_at; destruct (replicate _ _ !! _) as [s|] eqn:E; [|done].
      by apply lookup_replicate in E as [-> _]. }
    split; [done|rewrite length_replicate; lia| |]; intros i j _ _; by rewrite Hk.
  - unfold table_map; assert (E : forall k, occupied cs_page_id (replicate k {| cs_page_id := 0; cs_entry_index := 0 |}) = []).
    { induction k as [|k IH]; [done|]; cbn [replicate]; by rewrite occupied_cons. }
    by rewrite E.
Qed.

Lemma init_is (capacity page_size : Z) (c : sdb_page_cache) :
  0 <= capacity -> 0 <= page_size -> sdb_page_cache_init capacity page_size = Ok c ->
  cache_is c ∅ /\ pc_capacity c = capacity /\ pc_page_size c = page_size /\ capacity < 2 ^ 64.
Proof.
  intros Hc Hp H; unfold sdb_page_cache_init in H.
  remember (slot_capacity_for 64 1 (capacity * 2)) as sc eqn:Esc; inv_ok H; injection H as <-; zbool_hyps.
  change (SIZE_MAX / 4) with (2 ^ 62 - 1) in *; split; [|cbn; lia].
  destruct (slot_capacity_spec (capacity * 2) ltac:(lia) 64 0) as (j & Hj & Hsc & Hle); [lia|lia|lia|].
  change (2 ^ 0) with 1 in Hsc; rewrite <- Esc in Hsc; clear Esc; subst sc; destruct (empty_table (2 ^ j)) as [Ht Hf]; [exists j; split; [lia|done]|].
  eexists; split; [split|]; cbn [pc_slots pc_slot_capacity pc_capacity pc_entries pc_free_list pc_free_count pc_clock_hand pc_page_size]; try done.
  - lia.
  - rewrite length_replicate; lia.
  - intros x f; by rewrite Hf, lookup_empty.
  - intros f e E; apply lookup_replicate in E as [-> _]; done.
  - rewrite length_fmap, length_seq; lia.
  - unfold free_frames; cbn; eapply sublist_NoDup; [|apply sublist_take]; apply NoDup_fmap_2_strong; [|apply NoDup_seq].
    intros x y _ _; lia.
  - intros f Hin; unfold free_frames in Hin; cbn in Hin; apply elem_of_take in Hin as (i & Hi & _).
    apply list_lookup_fmap_Some in Hi as (k & -> & Hk); apply lookup_seq in Hk as [-> Hk].
    split; [lia|]; rewrite lookup_replicate_2 by lia; by eexists.
  - rewrite Hf, map_size_empty; lia.
  - lia.
  - intros f e E; apply lookup_replicate in E as [-> _]; cbn; rewrite length_zeros; lia.
  - unfold pages_of; rewrite Hf; apply omap_empty.
Qed.

(** ** Sequences of operations *)

Inductive cache_op := CGet (page_id : Z) | CPut (page_id : Z) (page : bytes) | CRemove (page_id : Z).

Definition cache_step (op : cache_op) (c : sdb_page_cache) : option (option bytes * sdb_page_cache) :=
  match op with
  | CGet x => sdb_page_cache_get c x
  | CPut x page => c ← sdb_page_cache_put c x page; Some (None, c)
  | CRemove x => c ← sdb_page_cache_remove c x; Some (None, c)
  end.

Fixpoint cache_run (ops : list cache_op) (c : sdb_page_cache) : option (list (option bytes) * sdb_page_cache) :=
  match ops with
  | [] => Some ([], c)
  | op :: ops =>
      '(r, c) ← cache_step op c;
      '(rs, c) ← cache_run ops c;
      Some (r :: rs, c)
  end.

(** A page handed to the cache has the page size. *)
Definition op_fits (page_size : Z) (op : cache_op) : Prop :=
  match op with CPut _ page => Z.of_nat (length page) = page_size | _ => True end.

(** The bounded map the cache stands for; identifier 0 is ignored. *)
Definition bounded_step (capacity : Z) (op : cache_op) (m : gmap Z bytes) (r : option bytes) (m' : gmap Z bytes) : Prop :=
  match op with
  | CGet x => r = (if x =? 0 then None else m !! x) /\ m' = m
  | CPut x page => r = None /\ if x =? 0 then m' = m else cached capacity m x page m'
  | CRemove x => r = None /\ m' = if x =? 0 then m else delete x m
  end.

Inductive bounded_runs (capacity : Z) : gmap Z bytes -> list cache_op -> list (option bytes) -> gmap Z bytes -> Prop :=
  | br_nil m : bounded_runs capacity m [] [] m
  | br_cons m op r m1 ops rs m' :
      bounded_step capacity op m r m1 -> bounded_runs capacity m1 ops rs m' ->
      bounded_runs capacity m (op :: ops) (r :: rs) m'.

Lemma cache_step_is (op : cache_op) (c : sdb_page_cache) (m : gmap Z bytes) :
  cache_is c m -> op_fits (pc_page_size c) op -> pc_capacity c < 2 ^ 64 ->
  exists r c' m', cache_step op c = Some (r, c') /\ cache_is c' m' /\ same_shape c c' /\ bounded_step (pc_capacity c) op m r m'.
Proof.
  intros Hc Hop Hcap; pose proof Hc as (slots & Hw & _); pose proof (cw_slots _ _ _ Hw) as Es.
  destruct op as [x|x page|x]; cbn [cache_step bounded_step]; destruct (Z.eqb_spec x 0) as [->|Hx].
  - exists None, c, m; unfold sdb_page_cache_get; by rewrite Es.
  - destruct (get_cache_is c m x Hc Hx) as (c' & -> & Hc' & Hs); by exists (m !! x), c', m.
  - exists None, c, m; unfold sdb_page_cache_put; by rewrite Es.
  - destruct (put_cache_is c m x page Hc Hx Hop) as (c' & m' & -> & Hc' & Hs & Hst); by exists None, c', m'.
  - exists None, c, m; unfold sdb_page_cache_remove; by rewrite Es.
  - destruct (remove_cache_is c m x Hc Hx Hcap) as (c' & -> & Hc' & Hs); by exists None, c', (delete x m).
Qed.

Lemma cache_run_is (ops : list cache_op) :
  forall c m, cache_is c m -> Forall (op_fits (pc_page_size c)) ops -> pc_capacity c < 2 ^ 64 ->
  exists rs c' m', cache_run ops c = Some (rs, c') /\ bounded_runs (pc_capacity c) m ops rs m' /\ cache_is c' m'
    /\ same_shape c c'.
Proof.
  induction ops as [|op ops IH]; intros c m Hc Hops Hcap; [exists [], c, m; split_and!; (done || constructor)|].
  apply Forall_cons_iff in Hops as [Hop Hops].
  destruct (cache_step_is op c m Hc Hop Hcap) as (r & c1 & m1 & Hr & Hc1 & [E1 E2] & Hst).
  rewrite <- E1, <- E2 in *; destruct (IH c1 m1 Hc1 Hops Hcap) as (rs & c' & m' & Hrs & Hm & Hc' & [E3 E4]).
  exists (r :: rs), c', m'; cbn [cache_run]; rewrite Hr; cbn [mbind option_bind]; rewrite Hrs.
  split_and!; [done| |done|split; congruence]; econstructor; [|exact Hm]; congruence.
Qed.

(** The page last put under an identifier and not removed since. *)
Fixpoint latest (ops : list cache_op) (x : Z) (page : option bytes) : option bytes :=
  match ops with
  | [] => page
  | CGet _ :: ops => latest ops x page
  | CPut y p :: ops => latest ops x (if y =? x then Some p else page)
  | CRemove y :: ops => latest ops x (if y =? x then None else page)
  end.

Lemma bounded_latest (capacity : Z) (m m' : gmap Z bytes) (ops : list cache_op) (rs : list (option bytes)) (x : Z)
    (known : option bytes) :
  x <> 0 -> bounded_runs capacity m ops rs m' -> (forall p, m !! x = Some p -> known = Some p) ->
  forall p, m' !! x = Some p -> latest ops x known = Some p.
Proof.
  intros Hx Hr; revert known; induction Hr as [m|m op r m1 ops rs m' Hst Hr IH]; intros known Hm; [done|].
  destruct op as [y|y page|y]; cbn [bounded_step latest] in *; destruct Hst as [_ Hst]; apply IH.
  - by subst.
  - intros p; destruct (Z.eqb_spec y 0) as [->|Hy]; [subst; destruct (Z.eqb_spec 0 x); [congruence|]; by apply Hm|].
    destruct Hst as [->|(_ & _ & v & _ & ->)]; destruct (Z.eqb_spec y x) as [->|Hne].
    + rewrite lookup_insert_eq; congruence.
    + rewrite lookup_insert_ne by done; by apply Hm.
    + rewrite lookup_insert_eq; congruence.
    + rewrite lookup_insert_ne, lookup_delete_Some by done; intros [_ Hp]; by apply Hm.
  - intros p; destruct (Z.eqb_spec y 0) as [->|Hy]; subst m1; [destruct (Z.eqb_spec 0 x); [congruence|]; by apply Hm|].
    rewrite lookup_delete_Some; intros [Hne Hp]; rewrite (proj2 (Z.eqb_neq y x)) by done; by apply Hm.
Qed.

(** C30: The page cache is a bounded map.  On a fresh cache every sequence of
    lookups, insertions and removals of pages of the page size runs to its end:
    every probe, backward shift and CLOCK sweep terminates inside its array.  Each
    reply is that of a map with at most [capacity] pages, which forgets a page only
    when it is removed or when a new one is put into a full cache. *)
Theorem page_cache_refines_bounded_map (capacity page_size : Z) (c : sdb_page_cache) (ops : list cache_op) :
  0 <= capacity -> 0 <= page_size -> sdb_page_cache_init capacity page_size = Ok c ->
  Forall (op_fits page_size) ops ->
  exists rs c' m', cache_run ops c = Some (rs, c') /\ bounded_runs capacity ∅ ops rs m'
    /\ cache_is c' m' /\ Z.of_nat (size m') <= capacity.
Proof.
  intros Hc Hp Hi Hops; destruct (init_is capacity page_size c Hc Hp Hi) as (Hci & <- & <- & Hcap).
  destruct (cache_run_is ops c ∅ Hci Hops Hcap) as (rs & c' & m' & Hrun & Hb & Hc' & [E1 E2]).
  exists rs, c', m'; split_and!; try done; destruct Hc' as (slots & Hw & <-); rewrite (pages_size 0) by done.
  pose proof (cw_count _ _ _ Hw); pose proof (cw_free_count _ _ _ Hw); lia.
Qed.

(** The cache is never stale.  Whatever was done to a fresh cache before, a
    lookup that hits returns the page last put under that identifier, and none
    when it has been removed since. *)
Theorem page_cache_never_stale (capacity page_size : Z) (c c' c'' : sdb_page_cache) (ops : list cache_op)
    (rs : list (option bytes)) (x : Z) (page : bytes) :
  0 <= capacity -> 0 <= page_size -> sdb_page_cache_init capacity page_size = Ok c ->
  Forall (op_fits page_size) ops -> cache_run ops c = Some (rs, c') ->
  sdb_page_cache_get c' x = Some (Some page, c'') -> latest ops x None = Some page.
Proof.
  intros Hc Hp Hi Hops Hrun Hget; destruct (init_is capacity page_size c Hc Hp Hi) as (Hci & <- & <- & Hcap).
  destruct (cache_run_is ops c ∅ Hci Hops Hcap) as (rs' & c1 & m' & Hrun' & Hb & Hc' & _).
  rewrite Hrun in Hrun'; injection Hrun' as <- <-.
  assert (Hx : x <> 0).
  { intros ->; destruct Hc' as (slots & Hw & _); unfold sdb_page_cache_get in Hget; by rewrite (cw_slots _ _ _ Hw) in Hget. }
  destruct (get_cache_is c' m' x Hc' Hx) as (c2 & Hget' & _); rewrite Hget in Hget'; injection Hget' as Hpg _.
  eapply bounded_latest; [exact Hx|exact Hb| |by symmetry]; intros p; by rewrite lookup_empty.
Qed.

(** CLOCK replacement terminates.  On a full cache the sweep, which the code
    runs without a bound, returns within two rounds of the hand: it takes the frame
    of one cached page out of the table and leaves every other page cached. *)
Theorem clock_evict_terminates (c : sdb_page_cache) (m : gmap Z bytes) :
  cache_is c m -> pc_free_count c = 0 ->
  exists frame c' slots' victim, clock_sweep (Z.to_nat (2 * pc_capacity c)) c = Some (frame, c')
    /\ 0 <= frame < pc_capacity c /\ pc_slots c' = Some slots' /\ is_Some (m !! victim)
    /\ pages_of c' slots' = delete victim m.
Proof.
  intros (slots & Hw & <-) Hfc; destruct (clock_evict_spec c slots Hw Hfc) as (f & c' & slots' & x & Hev).
  destruct Hev as (Hrun & Hw' & (Hf0 & (e & He & _) & _) & Hx & Hpg & Hc & _); exists f, c', slots', x.
  split_and!; [done|done| |apply Hw'|done|done]; pose proof (cw_entries _ _ _ Hw'); apply lookup_lt_Some in He; lia.
Qed.

(** ** Examples *)

Definition small_page (z : Z) : bytes := repeat (byte.of_Z z) 4.

Definition example_ops : list cache_op :=
  [CPut 1 (small_page 1); CPut 2 (small_page 2); CGet 1; CPut 3 (small_page 3); CGet 2; CGet 1; CRemove 1; CGet 1;
   CPut 3 (small_page 4); CPut 0 (small_page 5)].

Lemma example_ops_fit : Forall (op_fits 4) example_ops.
Proof. repeat constructor. Qed.

Lemma page_cache_refines_bounded_map_witness :
  exists c, sdb_page_cache_init 2 4 = Ok c
  /\ fst <$> cache_run example_ops c
       = Some [None; None; Some (small_page 1); None; None; Some (small_page 1); None; None; None; None]
  /\ exists rs c' m', cache_run example_ops c = Some (rs, c') /\ bounded_runs 2 ∅ example_ops rs m'
       /\ cache_is c' m' /\ Z.of_nat (size m') <= 2.
Proof.
  destruct (sdb_page_cache_init 2 4) as [c|e] eqn:E; [|vm_compute in E; discriminate E]; exists c; split; [done|].
  split; [vm_compute in E; injection E as <-; vm_compute; reflexivity|].
  apply (page_cache_refines_bounded_map 2 4 c example_ops); [lia|lia|exact E|apply example_ops_fit].
Defined.

Lemma page_cache_never_stale_witness :
  exists c, sdb_page_cache_init 2 4 = Ok c /\ latest example_ops 3 None = Some (small_page 4).
Proof.
  destruct (sdb_page_cache_init 2 4) as [c|e] eqn:E; [|vm_compute in E; discriminate E]; exists c; split; [done|].
  destruct (cache_run example_ops c) as [[rs c']|] eqn:Er; [|vm_compute in E; injection E as <-; vm_compute in Er; discriminate Er].
  destruct (sdb_page_cache_get c' 3) as [[[page|] c'']|] eqn:Eg;
    [|vm_compute in E; injection E as <-; vm_compute in Er; injection Er as <- <-; vm_compute in Eg; discriminate Eg..].
  assert (page = small_page 4) as ->
    by (vm_compute in E; injection E as <-; vm_compute in Er; injection Er as <- <-; vm_compute in Eg; injection Eg as <- _; reflexivity).
  eapply (page_cache_never_stale 2 4 c c' c'' example_ops rs 3); [lia|lia|exact E|apply example_ops_fit|exact Er|exact Eg].
Defined.

Lemma clock_evict_terminates_witness :
  exists c frame c', sdb_page_cache_init 2 4 = Ok c
  /\ (snd <$> cache_run [CPut 1 (small_page 1); CPut 2 (small_page 2); CGet 1] c) ≫= clock_sweep 4 = Some (frame, c').
Proof.
  destruct (sdb_page_cache_init 2 4) as [c|e] eqn:E; [|vm_compute in E; discriminate E]; exists c.
  destruct (init_is 2 4 c ltac:(lia) ltac:(lia) E) as (Hci & Hc & Hps & Hcap).
  destruct (cache_run_is [CPut 1 (small_page 1); CPut 2 (small_page 2); CGet 1] c ∅ Hci) as (rs & c1 & m & Hrun & _ & Hc1 & [Hs _]);
    [rewrite Hps; repeat constructor|lia|].
  destruct (clock_evict_terminates c1 m Hc1) as (f & c' & _ & _ & Hev & _).
  - vm_compute in E; injection E as <-; vm_compute in Hrun; injection Hrun as <- <-; reflexivity.
  - exists f, c'; split; [done|]; rewrite Hrun; cbn; rewrite Hs, Hc in Hev; exact Hev.
Defined.
