(* ===== verification/WalFormat.v ===== *)
(** * The write-ahead log: records and appends ([src/wal.h], [src/wal.c])

    A log is a 64-byte identity header followed by transactions; a transaction is a
    run of frames (a 40-byte header and a page image each) sealed by a 44-byte commit
    record, which carries the CRC of the frames and a CRC of itself.  Modelled here:
    the commit record, the table that detects a page logged twice, the encoding of a
    transaction and its append by one write and one [fsync].  Pages are given as
    page-sized buffers. *)

From S2P Require Import Prelude Status Codec Checksum Page Superblock File Probe.

Definition SDB_WAL_HEADER_SIZE : nat := 64.
Definition SDB_WAL_RECORD_HEADER_SIZE : nat := 8.
Definition SDB_WAL_RECORD_HEADER_SIZE_V4 : nat := 24.
Definition SDB_WAL_RECORD_HEADER_SIZE_V5 : nat := 40.
Definition SDB_WAL_COMMIT_SIZE : nat := 44.
Definition SDB_WAL_LEGACY_COMMIT_SIZE : nat := 24.
Definition SDB_WAL_MAX_RECORDS : Z := 1048576.
Definition SDB_WAL_MAX_BYTES : Z := 268435456.
Definition SDB_WAL_VERSION_V1 : Z := 1.
Definition SDB_WAL_VERSION : Z := 2.
Definition SDB_WAL_VERSION_V3 : Z := 3.
Definition SDB_WAL_VERSION_V4 : Z := 4.
Definition SDB_WAL_VERSION_V5 : Z := 5.

(** ["SWAL"] and ["SCMT"] *)
Definition sdb_wal_magic : bytes := byte.of_Z <$> [83; 87; 65; 76].
Definition sdb_wal_commit_magic : bytes := byte.of_Z <$> [83; 67; 77; 84].

Record sdb_wal_page := {
  wp_page_id : Z;
  wp_bytes : bytes
}.

Record sdb_wal_commit_rec := {
  cr_txn_id : Z;
  cr_frame_count : Z;
  cr_next_page_id : Z;
  cr_freelist_page : Z
}.

Definition sdb_wal_frame_size (page_size : nat) : nat := (SDB_WAL_RECORD_HEADER_SIZE + page_size)%nat.
Definition sdb_wal_frame_size_v4 (page_size : nat) : nat := (SDB_WAL_RECORD_HEADER_SIZE_V4 + page_size)%nat.
Definition sdb_wal_frame_size_v5 (page_size : nat) : nat := (SDB_WAL_RECORD_HEADER_SIZE_V5 + page_size)%nat.

(** ** The commit record *)

(** The record before its own checksum is stored. *)
Definition commit_body (rec : sdb_wal_commit_rec) (running_crc : Z) : bytes :=
  let out := zeros SDB_WAL_COMMIT_SIZE in
  let out := memcpy_at out 0 sdb_wal_commit_magic in
  let out := sdb_write_u16_le out 4 SDB_WAL_VERSION_V5 in
  let out := sdb_write_u16_le out 6 (Z.of_nat SDB_WAL_COMMIT_SIZE) in
  let out := sdb_write_u64_le out 8 (cr_txn_id rec) in
  let out := sdb_write_u32_le out 16 (cr_frame_count rec) in
  let out := sdb_write_u64_le out 20 (cr_next_page_id rec) in
  let out := sdb_write_u64_le out 28 (cr_freelist_page rec) in
  sdb_write_u32_le out 36 running_crc.

Definition sdb_wal_encode_commit_rec (rec : sdb_wal_commit_rec) (running_crc : Z) : bytes :=
  let out := commit_body rec running_crc in
  sdb_write_u32_le out 40 (sdb_crc32_zeroed_range out 40 4).

(** [inp] is the object of [avail] bytes the pointer denotes. *)
Definition sdb_wal_decode_commit_rec (inp : bytes) : result (sdb_wal_commit_rec * Z) :=
  fail_if bool_decide (length inp < SDB_WAL_COMMIT_SIZE)%nat with SDB_E_INVALID_ARGUMENT ;;
  let rec_version := sdb_read_u16_le inp 4 in
  fail_if negb (bool_decide (slice inp 0 4 = sdb_wal_commit_magic))
          || (negb (rec_version =? SDB_WAL_VERSION_V3) && negb (rec_version =? SDB_WAL_VERSION_V4)
              && negb (rec_version =? SDB_WAL_VERSION_V5))
          || negb (sdb_read_u16_le inp 6 =? Z.of_nat SDB_WAL_COMMIT_SIZE)
    with SDB_E_CORRUPT ;;
  let stored_commit_crc := sdb_read_u32_le inp 40 in
  let expected_commit_crc := sdb_crc32_zeroed_range (slice inp 0 SDB_WAL_COMMIT_SIZE) 40 4 in
  fail_if negb (stored_commit_crc =? expected_commit_crc) with SDB_E_CORRUPT ;;
  Ok ({| cr_txn_id := sdb_read_u64_le inp 8; cr_frame_count := sdb_read_u32_le inp 16;
         cr_next_page_id := sdb_read_u64_le inp 20; cr_freelist_page := sdb_read_u64_le inp 28 |},
      sdb_read_u32_le inp 36).

(** ** The set of page ids of a transaction

    [None] stands for a probe that does not end. *)

Fixpoint id_capacity (fuel : nat) (capacity required : Z) : result Z :=
  match fuel with
  | O => Err SDB_E_INTERNAL
  | S fuel =>
      if capacity <? required
      then if capacity >? SIZE_MAX / 2 then Err SDB_E_OVERFLOW else id_capacity fuel (capacity * 2) required
      else Ok capacity
  end.

Definition sdb_wal_id_set_create (page_count : Z) : result (list Z * Z) :=
  fail_if (page_count =? 0) || (page_count >? SIZE_MAX / 2) with SDB_E_INVALID_ARGUMENT ;;
  capacity ← id_capacity 65 1 (page_count * 2);
  fail_if capacity >? SIZE_MAX / 8 with SDB_E_OVERFLOW ;;
  Ok (replicate (Z.to_nat capacity) 0, capacity).

Definition slot_id (slot : Z) : Z := slot.

Definition sdb_wal_id_set_insert (slots : list Z) (capacity page_id : Z) : option (bool * list Z) :=
  if page_id =? 0 then Some (false, slots)
  else
    index ← probe_for slot_id (Z.to_nat capacity) slots capacity page_id (home capacity page_id);
    slot ← slots !! Z.to_nat index;
    if slot =? page_id then Some (false, slots)
    else Some (true, <[Z.to_nat index := page_id]> slots).

(** ** Encoding a transaction *)

(** The check of every page handed to the log: in range, not logged twice, well
    formed and stamped with the transaction. *)
Fixpoint check_pages (sb : sdb_superblock_v1) (txn_id : Z) (pages : list sdb_wal_page) (slots : list Z) (capacity : Z) : memM unit :=
  match pages with
  | [] => mem_ret tt
  | p :: pages =>
      if (wp_page_id p =? 0) || (wp_page_id p >=? sb_next_page_id sb) then mem_err SDB_E_INVALID_ARGUMENT
      else
        match sdb_wal_id_set_insert slots capacity (wp_page_id p) with
        | None => None
        | Some (false, _) => mem_err SDB_E_INVALID_ARGUMENT
        | Some (true, slots) =>
            match sdb_page_decode (slice (wp_bytes p) 0 (Z.to_nat (sb_page_size sb))) (sb_page_size sb) (wp_page_id p) with
            | Ok view => if negb (view_page_lsn view =? txn_id) then mem_err SDB_E_INVALID_ARGUMENT
                         else check_pages sb txn_id pages slots capacity
            | Err _ => mem_err SDB_E_INVALID_ARGUMENT
            end
        end
  end.

Definition check_all_pages (sb : sdb_superblock_v1) (txn_id : Z) (pages : list sdb_wal_page) : memM unit :=
  '(slots, capacity) ← (Some (sdb_wal_id_set_create (Z.of_nat (length pages))) : memM (list Z * Z));
  check_pages sb txn_id pages slots capacity.

(** The identity header of a log. *)
Definition header_body (version : Z) (sb : sdb_superblock_v1) (txn_id page_count : Z) : bytes :=
  let buffer := zeros SDB_WAL_HEADER_SIZE in
  let buffer := memcpy_at buffer 0 sdb_wal_magic in
  let buffer := sdb_write_u16_le buffer 4 version in
  let buffer := sdb_write_u16_le buffer 6 (Z.of_nat SDB_WAL_HEADER_SIZE) in
  let buffer := sdb_write_u64_le buffer 8 txn_id in
  let buffer := sdb_write_u32_le buffer 16 (sb_page_size sb) in
  let buffer := sdb_write_u32_le buffer 20 page_count in
  let buffer := memcpy_at buffer 24 (sb_file_id sb) in
  let buffer := sdb_write_u64_le buffer 40 (sb_next_page_id sb) in
  sdb_write_u64_le buffer 48 (sb_freelist_page sb).

Definition encode_header (version : Z) (sb : sdb_superblock_v1) (txn_id page_count : Z) : bytes :=
  let buffer := header_body version sb txn_id page_count in
  sdb_write_u32_le buffer 60 (sdb_crc32_zeroed_range buffer 60 4).

(** A frame of the current version. *)
Definition encode_frame (sb : sdb_superblock_v1) (txn_id page_count index : Z) (p : sdb_wal_page) : bytes :=
  let head := zeros SDB_WAL_RECORD_HEADER_SIZE_V5 in
  let head := sdb_write_u64_le head 0 (wp_page_id p) in
  let head := sdb_write_u64_le head 8 txn_id in
  let head := sdb_write_u32_le head 16 (wrap 32 index) in
  let head := sdb_write_u32_le head 20 (wrap 32 page_count) in
  let head := memcpy_at head 24 (sb_file_id sb) in
  head ++ slice (wp_bytes p) 0 (Z.to_nat (sb_page_size sb)).

Fixpoint encode_frames (sb : sdb_superblock_v1) (txn_id page_count index : Z) (pages : list sdb_wal_page) : bytes :=
  match pages with
  | [] => []
  | p :: pages => encode_frame sb txn_id page_count index p ++ encode_frames sb txn_id page_count (index + 1) pages
  end.

(** The buffer, where it is written and where the next transaction goes. *)
Definition sdb_wal_encode_txn (sb : sdb_superblock_v1) (append_offset txn_id : Z) (pages : list sdb_wal_page)
  : memM (bytes * Z * Z) :=
  let page_count := Z.of_nat (length pages) in
  if (txn_id =? 0) || (page_count =? 0) || (page_count >? SDB_WAL_MAX_RECORDS) || (page_count >? UINT32_MAX)
  then mem_err SDB_E_INVALID_ARGUMENT
  else
    let frame_size := Z.of_nat (sdb_wal_frame_size_v5 (Z.to_nat (sb_page_size sb))) in
    match sdb_checked_mul_size frame_size page_count with
    | None => mem_err SDB_E_OVERFLOW
    | Some frames_size =>
        if (append_offset >? SDB_WAL_MAX_BYTES) || (frames_size >? SDB_WAL_MAX_BYTES - append_offset)
           || (Z.of_nat SDB_WAL_COMMIT_SIZE >? SDB_WAL_MAX_BYTES - append_offset - frames_size)
        then mem_err SDB_E_OVERFLOW
        else
          _ ← check_all_pages sb txn_id pages;
          let first := append_offset =? Z.of_nat SDB_WAL_HEADER_SIZE in
          let header_prefix := if first then Z.of_nat SDB_WAL_HEADER_SIZE else 0 in
          match sdb_checked_add_size header_prefix frames_size ≫= fun n => sdb_checked_add_size n (Z.of_nat SDB_WAL_COMMIT_SIZE) with
          | None => mem_err SDB_E_OVERFLOW
          | Some total_size =>
              let frames := encode_frames sb txn_id page_count 0 pages in
              let header := if first then encode_header SDB_WAL_VERSION_V5 sb txn_id (wrap 32 page_count) else [] in
              let rec := {| cr_txn_id := txn_id; cr_frame_count := wrap 32 page_count;
                            cr_next_page_id := sb_next_page_id sb; cr_freelist_page := sb_freelist_page sb |} in
              let buffer := header ++ frames ++ sdb_wal_encode_commit_rec rec (sdb_crc32 frames) in
              mem_ret (buffer, if first then 0 else append_offset, append_offset + frames_size + Z.of_nat SDB_WAL_COMMIT_SIZE)
          end
    end.

(** One write and one [fsync]; the new offset is published only after both. *)
Definition sdb_wal_append_txn (append_offset : Z) (sb : sdb_superblock_v1) (txn_id : Z) (pages : list sdb_wal_page)
    (wal : sdb_file) : option (result Z * sdb_file) :=
  match sdb_wal_encode_txn sb append_offset txn_id pages with
  | None => None
  | Some (Err e) => Some (Err e, wal)
  | Some (Ok (buffer, write_offset, new_offset)) =>
      Some ((_ ← sdb_file_write_full write_offset buffer; _ ← sdb_file_sync; mret new_offset) wal)
  end.

(** ** The commit record, read back *)

Definition commit_typed (rec : sdb_wal_commit_rec) : Prop :=
  0 <= cr_txn_id rec < 2 ^ 64 /\ 0 <= cr_frame_count rec < 2 ^ 32 /\ 0 <= cr_next_page_id rec < 2 ^ 64
  /\ 0 <= cr_freelist_page rec < 2 ^ 64.

Lemma length_commit_body (rec : sdb_wal_commit_rec) (crc : Z) : length (commit_body rec crc) = 44%nat.
Proof. unfold commit_body, SDB_WAL_COMMIT_SIZE; cbv zeta; len_lia. Qed.

Lemma length_encode_commit (rec : sdb_wal_commit_rec) (crc : Z) : length (sdb_wal_encode_commit_rec rec crc) = SDB_WAL_COMMIT_SIZE.
Proof. unfold sdb_wal_encode_commit_rec; cbv zeta; rewrite length_write_u32; apply length_commit_body. Qed.

Lemma commit_slices (rec : sdb_wal_commit_rec) (crc : Z) :
  let b := commit_body rec crc in
  slice b 0 4 = sdb_wal_commit_magic /\ slice b 4 2 = le_split 2 5 /\ slice b 6 2 = le_split 2 44
  /\ slice b 8 8 = le_split 8 (cr_txn_id rec) /\ slice b 16 4 = le_split 4 (cr_frame_count rec)
  /\ slice b 20 8 = le_split 8 (cr_next_page_id rec) /\ slice b 28 8 = le_split 8 (cr_freelist_page rec)
  /\ slice b 36 4 = le_split 4 crc /\ slice b 40 4 = zeros 4.
Proof.
  assert (length sdb_wal_commit_magic = 4%nat) by reflexivity.
  unfold commit_body, SDB_WAL_COMMIT_SIZE, SDB_WAL_VERSION_V5; cbv zeta; codec_unfold.
  change (Z.of_nat 44) with 44; split_and!; buf_simp; done.
Qed.

(** A record stored with the CRC of the rest in a zeroed field of four bytes. *)
Lemma checksum_field (body : bytes) (off : nat) :
  (off + 4 <= length body)%nat -> slice body off 4 = zeros 4 ->
  sdb_write_u32_le body off (sdb_crc32_zeroed_range body off 4) = memcpy_at body off (le_split 4 (sdb_crc32 body))
  /\ sdb_crc32_zeroed_range (sdb_write_u32_le body off (sdb_crc32_zeroed_range body off 4)) off 4 = sdb_crc32 body.
Proof.
  intros Hl Hz.
  assert (E : sdb_crc32_zeroed_range body off 4 = sdb_crc32 body).
  { rewrite crc32_zeroed_range_spec by lia; rewrite memcpy_at_id by (rewrite ?length_zeros; done || lia); done. }
  rewrite E, sdb_write_u32_le_spec by lia; split; [done|].
  rewrite crc32_zeroed_range_spec by len_lia; rewrite memcpy_at_twice by len_lia.
  by rewrite memcpy_at_id by (rewrite ?length_zeros; done || lia).
Qed.

Lemma decode_commit_ok (inp : bytes) :
  length inp = SDB_WAL_COMMIT_SIZE -> slice inp 0 4 = sdb_wal_commit_magic -> sdb_read_u16_le inp 4 = SDB_WAL_VERSION_V5 ->
  sdb_read_u16_le inp 6 = 44 -> sdb_read_u32_le inp 40 = sdb_crc32_zeroed_range inp 40 4 ->
  sdb_wal_decode_commit_rec inp
  = Ok ({| cr_txn_id := sdb_read_u64_le inp 8; cr_frame_count := sdb_read_u32_le inp 16;
           cr_next_page_id := sdb_read_u64_le inp 20; cr_freelist_page := sdb_read_u64_le inp 28 |}, sdb_read_u32_le inp 36).
Proof.
  intros Hl H0 H4 H6 H40; unfold sdb_wal_decode_commit_rec.
  rewrite Hl, bool_decide_eq_false_2, H0, H4, H6, (slice_all inp), H40, !Z.eqb_refl by (done || lia).
  rewrite bool_decide_eq_true_2 by done; reflexivity.
Qed.

(** The fields of an encoded record. *)
Lemma encode_commit_fields (rec : sdb_wal_commit_rec) (crc : Z) :
  commit_typed rec -> 0 <= crc < 2 ^ 32 ->
  let b := sdb_wal_encode_commit_rec rec crc in
  slice b 0 4 = sdb_wal_commit_magic /\ sdb_read_u16_le b 4 = 5 /\ sdb_read_u16_le b 6 = 44
  /\ sdb_read_u64_le b 8 = cr_txn_id rec /\ sdb_read_u32_le b 16 = cr_frame_count rec
  /\ sdb_read_u64_le b 20 = cr_next_page_id rec /\ sdb_read_u64_le b 28 = cr_freelist_page rec
  /\ sdb_read_u32_le b 36 = crc /\ sdb_read_u32_le b 40 = sdb_crc32_zeroed_range b 40 4.
Proof.
  intros (H1 & H2 & H3 & H4) Hc; pose proof (length_commit_body rec crc) as Hl.
  destruct (commit_slices rec crc) as (S0 & S4 & S6 & S8 & S16 & S20 & S28 & S36 & S40).
  destruct (checksum_field (commit_body rec crc) 40) as [Ew Ec]; [lia|done|].
  unfold sdb_wal_encode_commit_rec; cbv zeta; rewrite Ec, Ew; clear Ec Ew.
  pose proof (sdb_crc32_range (commit_body rec crc)) as Hr; unfold u32 in Hr.
  generalize dependent (commit_body rec crc); intros body; intros.
  assert (Hs : forall off n, (off + n <= 40)%nat -> slice (memcpy_at body 40 (le_split 4 (sdb_crc32 body))) off n = slice body off n).
  { intros off n Hn; apply slice_memcpy_disjoint; len_lia. }
  rewrite !sdb_read_u16_le_spec, !sdb_read_u64_le_spec, !sdb_read_u32_le_spec, !Hs, slice_memcpy_same by len_lia.
  rewrite S0, S4, S6, S8, S16, S20, S28, S36, !le_combine_split_small by lia; done.
Qed.

Lemma decode_encode_commit (rec : sdb_wal_commit_rec) (crc : Z) :
  commit_typed rec -> 0 <= crc < 2 ^ 32 ->
  slice (sdb_wal_encode_commit_rec rec crc) 0 4 = sdb_wal_commit_magic
  /\ sdb_wal_decode_commit_rec (sdb_wal_encode_commit_rec rec crc) = Ok (rec, crc).
Proof.
  intros Ht Hc; destruct (encode_commit_fields rec crc Ht Hc) as (F0 & F4 & F6 & F8 & F16 & F20 & F28 & F36 & F40).
  split; [done|]; rewrite decode_commit_ok by (done || apply length_encode_commit).
  rewrite F8, F16, F20, F28, F36; by destruct rec.
Qed.

(** ** The id set *)

Abbreviation ids := (occupied slot_id).

Lemma id_capacity_spec (required : Z) :
  1 <= required <= 2 ^ 62 ->
  forall fuel k, 0 <= k -> k + Z.of_nat fuel = 65 -> 2 ^ k < 2 * required ->
  exists c, id_capacity fuel (2 ^ k) required = Ok c /\ power_of_two c /\ required <= c < 2 * required.
Proof.
  intros Hr; induction fuel as [|fuel IH]; intros k Hk Hf Hlt.
  { assert (2 ^ 65 <= 2 ^ k) by (apply Z.pow_le_mono_r; lia); lia. }
  assert (Hk63 : k < 64) by (destruct (decide (k < 64)); [done|]; assert (2 ^ 64 <= 2 ^ k) by (apply Z.pow_le_mono_r; lia); lia).
  cbn [id_capacity]; destruct (Z.ltb_spec (2 ^ k) required).
  - assert (2 ^ k * 2 = 2 ^ (k + 1)) as -> by (rewrite Z.pow_add_r by lia; lia).
    rewrite Z.gtb_ltb, (proj2 (Z.ltb_ge _ _)) by (unfold SIZE_MAX, UINT64_MAX; change (18446744073709551615 / 2) with (2 ^ 63 - 1); lia).
    apply IH; [lia|lia|]; rewrite Z.pow_add_r by lia; lia.
  - eexists; split; [done|]; split; [by exists k|lia].
Qed.

Lemma replicate_zero_wf (n : Z) : power_of_two n -> table_wf slot_id n (replicate (Z.to_nat n) 0) /\ ids (replicate (Z.to_nat n) 0) = [].
Proof.
  intros Hn; pose proof (power_of_two_pos n Hn); assert (Hk : forall i, key_at slot_id (replicate (Z.to_nat n) 0) i = 0).
  { intros i; unfold key_at; destruct (replicate _ _ !! _) as [s|] eqn:E; [|done]; by apply lookup_replicate in E as [-> _]. }
  split; [split; [done|rewrite length_replicate; lia| |]; intros i j _ _; by rewrite !Hk|].
  clear Hk; induction (Z.to_nat n) as [|m IH]; [done|]; cbn [replicate]; rewrite occupied_cons; exact IH.
Qed.

Lemma id_set_create_spec (n : Z) :
  1 <= n <= 2 ^ 58 ->
  exists slots c, sdb_wal_id_set_create n = Ok (slots, c) /\ table_wf slot_id c slots /\ ids slots = [] /\ 2 * n <= c.
Proof.
  intros Hn; destruct (id_capacity_spec (n * 2) ltac:(lia) 65 0) as (c & E & Hp & Hc); [lia..|].
  destruct (replicate_zero_wf c Hp) as [Hw H0]; exists (replicate (Z.to_nat c) 0), c; split; [|split; [done|split; [done|lia]]].
  unfold sdb_wal_id_set_create; change (SIZE_MAX / 2) with (2 ^ 63 - 1); change (SIZE_MAX / 8) with (2 ^ 61 - 1).
  zcmp; change (2 ^ 0) with 1 in E; rewrite E; cbn [check orb mbind result_bind]; zcmp; done.
Qed.

(** An insertion into a set with room tells whether the id is new. *)
Lemma id_set_insert_spec (n : Z) (slots : list Z) (x : Z) :
  table_wf slot_id n slots -> Z.of_nat (length (ids slots)) < n -> x <> 0 ->
  (x ∈ ids slots) /\ sdb_wal_id_set_insert slots n x = Some (false, slots)
  \/ (x ∉ ids slots) /\ (exists slots', sdb_wal_id_set_insert slots n x = Some (true, slots') /\ table_wf slot_id n slots'
       /\ ids slots' ≡ₚ x :: ids slots).
Proof.
  intros Hw Hl Hx; unfold sdb_wal_id_set_insert; rewrite (proj2 (Z.eqb_neq x 0) Hx).
  destruct (probe_home slot_id n slots x) as (q & -> & Hq & Hp & Hk); [done..|]; cbn [mbind option_bind].
  destruct (slot_exists n slots q (tw_length _ _ _ Hw) Hq) as [s Es]; rewrite Es.
  apply (key_at_lookup slot_id) in Es as Ek; rewrite Ek in Hk; unfold slot_id in Hk, Ek; cbn [mbind option_bind].
  destruct (Z.eqb_spec s x) as [->|Hne]; [left|right].
  - split; [|done]; by eapply lookup_occupied.
  - destruct Hk as [?| ->]; [done|].
    split; [|eexists; split; [done|]; split; [by eapply table_fill|]; apply occupied_fill; [rewrite (tw_length _ _ _ Hw)|..]; done].
    intros Hin; apply occupied_key in Hin as (i & Hi & Ei & _); apply (key_at_lookup slot_id) in Ei.
    apply (passed_absent slot_id n slots x q Hw Hq Hx Hp Ek i); [pose proof (tw_length _ _ _ Hw); lia|done].
Qed.

(** ** The check of the pages of a transaction *)

Definition page_logged (sb : sdb_superblock_v1) (txn_id : Z) (p : sdb_wal_page) : Prop :=
  wp_page_id p <> 0 /\ wp_page_id p < sb_next_page_id sb
  /\ exists view, sdb_page_decode (slice (wp_bytes p) 0 (Z.to_nat (sb_page_size sb))) (sb_page_size sb) (wp_page_id p) = Ok view
       /\ view_page_lsn view = txn_id.

Lemma check_pages_spec (sb : sdb_superblock_v1) (txn_id : Z) (pages : list sdb_wal_page) :
  forall slots n, table_wf slot_id n slots -> Z.of_nat (length (ids slots)) + Z.of_nat (length pages) < n ->
  Forall (page_logged sb txn_id) pages /\ NoDup ((wp_page_id <$> pages) ++ ids slots)
  /\ check_pages sb txn_id pages slots n = mem_ret tt
  \/ ~ (Forall (page_logged sb txn_id) pages /\ NoDup ((wp_page_id <$> pages) ++ ids slots))
  /\ check_pages sb txn_id pages slots n = mem_err SDB_E_INVALID_ARGUMENT.
Proof.
  induction pages as [|p pages IH]; intros slots n Hw Hl.
  { left; split; [constructor|]; split; [|done]; cbn [fmap list_fmap app]; rewrite <- (list_fmap_id (ids slots)).
    by apply (occupied_unique slot_id n). }
  cbn [check_pages length fmap list_fmap app] in *.
  destruct (Z.eqb_spec (wp_page_id p) 0) as [E0|H0]; [right; split; [|done]; intros [HF _]; apply Forall_cons_iff in HF as [[? _] _]; done|].
  rewrite Z.geb_leb; destruct (Z.leb_spec (sb_next_page_id sb) (wp_page_id p)); cbn [orb].
  { right; split; [|done]; intros [HF _]; apply Forall_cons_iff in HF as [(_ & ? & _) _]; lia. }
  destruct (id_set_insert_spec n slots (wp_page_id p)) as [[Hin ->]|(Hin & slots' & -> & Hw' & HP)]; [done|lia|done|..].
  { right; split; [|done]; intros [_ HN]; apply list.NoDup_cons in HN as [HN _]; apply HN, elem_of_app; by right. }
  destruct (sdb_page_decode _ _ (wp_page_id p)) as [view|e] eqn:Ed.
  2: { right; split; [|done]; intros [HF _]; apply Forall_cons_iff in HF as [(_ & _ & v & E & _) _]; congruence. }
  destruct (Z.eqb_spec (view_page_lsn view) txn_id) as [El|Hne]; cbn [negb].
  2: { right; split; [|done]; intros [HF _]; apply Forall_cons_iff in HF as [(_ & _ & v & E & ?) _]; congruence. }
  assert (Hp : page_logged sb txn_id p) by (split; [done|split; [done|by exists view]]).
  assert (HNP : NoDup ((wp_page_id <$> pages) ++ ids slots') <-> NoDup (wp_page_id p :: (wp_page_id <$> pages) ++ ids slots))
    by (rewrite HP, <- Permutation_middle; done).
  destruct (IH slots' n Hw') as [(HF & HN & E)|(HF & E)]; [rewrite HP; cbn [length]; lia|left|right].
  - split; [by constructor|]; split; [by apply HNP|done].
  - split; [|done]; intros [HF' HN']; apply HF; apply Forall_cons_iff in HF' as [_ HF']; split; [done|by apply HNP].
Qed.

(** The check is total and accepts exactly well-formed, distinct pages. *)
Lemma check_all_pages_spec (sb : sdb_superblock_v1) (txn_id : Z) (pages : list sdb_wal_page) :
  1 <= Z.of_nat (length pages) <= 2 ^ 58 ->
  Forall (page_logged sb txn_id) pages /\ NoDup (wp_page_id <$> pages) /\ check_all_pages sb txn_id pages = mem_ret tt
  \/ ~ (Forall (page_logged sb txn_id) pages /\ NoDup (wp_page_id <$> pages))
  /\ check_all_pages sb txn_id pages = mem_err SDB_E_INVALID_ARGUMENT.
Proof.
  intros Hl; unfold check_all_pages; destruct (id_set_create_spec _ Hl) as (slots & c & -> & Hw & H0 & Hc).
  pose proof (check_pages_spec sb txn_id pages slots c Hw) as H; rewrite H0, app_nil_r in H; apply H; cbn; lia.
Qed.

(** ** What a transaction looks like in the log *)

Definition txn_commit (sb : sdb_superblock_v1) (txn_id : Z) (pages : list sdb_wal_page) : sdb_wal_commit_rec :=
  {| cr_txn_id := txn_id; cr_frame_count := Z.of_nat (length pages);
     cr_next_page_id := sb_next_page_id sb; cr_freelist_page := sb_freelist_page sb |}.

Definition txn_frames (sb : sdb_superblock_v1) (txn_id : Z) (pages : list sdb_wal_page) : bytes :=
  encode_frames sb txn_id (Z.of_nat (length pages)) 0 pages.

(** Frames and commit record. *)
Definition txn_bytes (sb : sdb_superblock_v1) (txn_id : Z) (pages : list sdb_wal_page) : bytes :=
  txn_frames sb txn_id pages ++ sdb_wal_encode_commit_rec (txn_commit sb txn_id pages) (sdb_crc32 (txn_frames sb txn_id pages)).

(** A transaction the log accepts at an offset. *)
Definition txn_accepted (sb : sdb_superblock_v1) (append_offset txn_id : Z) (pages : list sdb_wal_page) : Prop :=
  txn_id <> 0 /\ 1 <= Z.of_nat (length pages) <= SDB_WAL_MAX_RECORDS
  /\ append_offset + (40 + sb_page_size sb) * Z.of_nat (length pages) + 44 <= SDB_WAL_MAX_BYTES
  /\ Forall (page_logged sb txn_id) pages /\ NoDup (wp_page_id <$> pages).

Lemma encode_txn_spec (sb : sdb_superblock_v1) (append_offset txn_id : Z) (pages : list sdb_wal_page) :
  64 <= append_offset -> 0 <= sb_page_size sb < 2 ^ 32 ->
  txn_accepted sb append_offset txn_id pages
  /\ sdb_wal_encode_txn sb append_offset txn_id pages
     = mem_ret ((if append_offset =? 64 then encode_header SDB_WAL_VERSION_V5 sb txn_id (Z.of_nat (length pages)) else [])
                ++ txn_bytes sb txn_id pages, if append_offset =? 64 then 0 else append_offset,
                append_offset + (40 + sb_page_size sb) * Z.of_nat (length pages) + 44)
  \/ ~ txn_accepted sb append_offset txn_id pages
  /\ (sdb_wal_encode_txn sb append_offset txn_id pages = mem_err SDB_E_INVALID_ARGUMENT
      \/ sdb_wal_encode_txn sb append_offset txn_id pages = mem_err SDB_E_OVERFLOW).
Proof.
  intros Ho Hps; unfold sdb_wal_encode_txn, txn_accepted, SDB_WAL_MAX_RECORDS, UINT32_MAX.
  set (n := Z.of_nat (length pages)); assert (0 <= n) by lia.
  destruct (Z.eqb_spec txn_id 0) as [E|Ht]; [right; split; [tauto|by left]|].
  destruct (Z.eqb_spec n 0) as [E|Hn0]; [right; split; [lia|by left]|].
  rewrite !Z.gtb_ltb; destruct (Z.ltb_spec 1048576 n) as [E|Hn1]; [right; split; [lia|by left]|].
  rewrite (proj2 (Z.ltb_ge 4294967295 n)) by lia; cbn [orb].
  unfold sdb_wal_frame_size_v5, SDB_WAL_RECORD_HEADER_SIZE_V5, SDB_WAL_COMMIT_SIZE, SDB_WAL_HEADER_SIZE, SDB_WAL_MAX_BYTES.
  replace (Z.of_nat (40 + Z.to_nat (sb_page_size sb))) with (40 + sb_page_size sb) by lia.
  change (Z.of_nat 64) with 64; change (Z.of_nat 44) with 44.
  set (fs := (40 + sb_page_size sb) * n); assert (Hfs : 0 <= fs < 2 ^ 60) by (unfold fs; nia).
  assert (Em : sdb_checked_mul_size (40 + sb_page_size sb) n = Some fs).
  { unfold sdb_checked_mul_size; rewrite (proj2 (Z.eqb_neq _ _)) by lia; cbn [negb andb]; rewrite Z.gtb_ltb.
    rewrite (proj2 (Z.ltb_ge _ _)); [done|]; apply Z.div_le_lower_bound; unfold SIZE_MAX, UINT64_MAX; lia. }
  rewrite Em; destruct (Z.ltb_spec 268435456 append_offset) as [E|H1]; [right; split; [lia|by right]|].
  rewrite !Z.gtb_ltb; destruct (Z.ltb_spec (268435456 - append_offset) fs) as [E|H2]; [right; split; [lia|by right]|].
  destruct (Z.ltb_spec (268435456 - append_offset - fs) 44) as [E|H3]; [right; split; [lia|by right]|]; cbn [orb].
  destruct (check_all_pages_spec sb txn_id pages) as [(HF & HN & ->)|(HF & ->)]; [fold n; lia|left|right; split; [tauto|by left]].
  split; [split; [done|split; [lia|split; [lia|done]]]|]; cbn [mbind memM_bind mem_ret].
  set (pre := if append_offset =? 64 then 64 else 0); assert (Hpre : 0 <= pre <= 64) by (unfold pre; destruct (Z.eqb_spec append_offset 64); lia).
  unfold sdb_checked_add_size, SIZE_MAX, UINT64_MAX; zcmp; cbn [mbind option_bind]; zcmp.
  rewrite !(wrap_small 32 n) by lia; done.
Qed.

(** The argument types of a transaction. *)
Definition txn_typed (sb : sdb_superblock_v1) (txn_id : Z) (pages : list sdb_wal_page) : Prop :=
  0 <= txn_id < 2 ^ 64 /\ Forall (fun p => 0 <= wp_page_id p < 2 ^ 64 /\ length (wp_bytes p) = Z.to_nat (sb_page_size sb)) pages.

Section Frame.
Context (sb : sdb_superblock_v1) (txn_id page_count index : Z) (p : sdb_wal_page).
Hypothesis Hfile : length (sb_file_id sb) = 16%nat.
Hypothesis Hid : 0 <= wp_page_id p < 2 ^ 64.
Hypothesis Htxn : 0 <= txn_id < 2 ^ 64.
Hypothesis Hlen : length (wp_bytes p) = Z.to_nat (sb_page_size sb).

Definition frame_head : bytes :=
  le_split 8 (wp_page_id p) ++ le_split 8 txn_id ++ le_split 4 (wrap 32 index) ++ le_split 4 (wrap 32 page_count) ++ sb_file_id sb.

Lemma encode_frame_eq : encode_frame sb txn_id page_count index p = frame_head ++ wp_bytes p.
Proof.
  unfold encode_frame, frame_head, SDB_WAL_RECORD_HEADER_SIZE_V5; cbv zeta; rewrite (slice_all (wp_bytes p)) by done; f_equal.
  codec_unfold; apply drop_0_ext.
  drop_ext 8%nat; [app_simp; done|]; drop_ext 8%nat; [app_simp; done|]; drop_ext 4%nat; [app_simp; done|].
  drop_ext 4%nat; [app_simp; done|]; drop_ext 16%nat; [app_simp; done|]; by rewrite !drop_ge by len_lia.
Qed.

Lemma length_encode_frame : length (encode_frame sb txn_id page_count index p) = (40 + Z.to_nat (sb_page_size sb))%nat.
Proof. rewrite encode_frame_eq; unfold frame_head; len_lia. Qed.

Lemma frame_fields (rest : bytes) :
  let frame := encode_frame sb txn_id page_count index p ++ rest in
  sdb_read_u64_le frame 0 = wp_page_id p /\ sdb_read_u64_le frame 8 = txn_id /\ sdb_read_u32_le frame 16 = wrap 32 index
  /\ sdb_read_u32_le frame 20 = wrap 32 page_count /\ slice frame 24 16 = sb_file_id sb
  /\ slice frame 40 (Z.to_nat (sb_page_size sb)) = wp_bytes p /\ drop (40 + Z.to_nat (sb_page_size sb)) frame = rest.
Proof.
  cbv zeta; rewrite !sdb_read_u64_le_spec, !sdb_read_u32_le_spec; split_and!.
  7: { apply drop_app_length'; symmetry; apply length_encode_frame. }
  all: rewrite encode_frame_eq; unfold frame_head; app_simp; try done.
  all: apply le_combine_split_small; try done; apply wrap_range; lia.
Qed.
End Frame.

(** ** The identity header, read back *)

Lemma length_encode_header (v : Z) (sb : sdb_superblock_v1) (txn count : Z) : length (encode_header v sb txn count) = SDB_WAL_HEADER_SIZE.
Proof. unfold encode_header, header_body, SDB_WAL_HEADER_SIZE; cbv zeta; len_lia. Qed.

Lemma header_fields (v : Z) (sb : sdb_superblock_v1) (txn count : Z) :
  0 <= v < 2 ^ 16 -> 0 <= sb_page_size sb < 2 ^ 32 -> 0 <= count < 2 ^ 32 -> 0 <= txn < 2 ^ 64 -> length (sb_file_id sb) = 16%nat ->
  let b := encode_header v sb txn count in
  slice b 0 4 = sdb_wal_magic /\ sdb_read_u16_le b 4 = v /\ sdb_read_u16_le b 6 = 64 /\ sdb_read_u64_le b 8 = txn
  /\ sdb_read_u32_le b 16 = sb_page_size sb /\ sdb_read_u32_le b 20 = count /\ slice b 24 16 = sb_file_id sb
  /\ sdb_crc32_zeroed_range b 60 4 = sdb_read_u32_le b 60.
Proof.
  intros Hv Hp Hc Ht Hf; assert (length sdb_wal_magic = 4%nat) by reflexivity.
  assert (Hl : length (header_body v sb txn count) = 64%nat) by (unfold header_body, SDB_WAL_HEADER_SIZE; cbv zeta; len_lia).
  assert (Hs : let b := header_body v sb txn count in
    slice b 0 4 = sdb_wal_magic /\ slice b 4 2 = le_split 2 v /\ slice b 6 2 = le_split 2 64 /\ slice b 8 8 = le_split 8 txn
    /\ slice b 16 4 = le_split 4 (sb_page_size sb) /\ slice b 20 4 = le_split 4 count /\ slice b 24 16 = sb_file_id sb
    /\ slice b 60 4 = zeros 4).
  { unfold header_body, SDB_WAL_HEADER_SIZE; cbv zeta; codec_unfold; change (Z.of_nat 64) with 64; split_and!; buf_simp; done. }
  cbv zeta in *; destruct Hs as (S0 & S4 & S6 & S8 & S16 & S20 & S24 & S60).
  destruct (checksum_field (header_body v sb txn count) 60) as [Ew Ec]; [lia|done|].
  unfold encode_header; cbv zeta; rewrite Ec, Ew; clear Ec Ew.
  pose proof (sdb_crc32_range (header_body v sb txn count)) as Hr; unfold u32 in Hr.
  generalize dependent (header_body v sb txn count); intros body; intros.
  assert (Hs : forall off n, (off + n <= 60)%nat -> slice (memcpy_at body 60 (le_split 4 (sdb_crc32 body))) off n = slice body off n).
  { intros off n Hn; apply slice_memcpy_disjoint; len_lia. }
  rewrite !sdb_read_u16_le_spec, !sdb_read_u64_le_spec, !sdb_read_u32_le_spec, !Hs, slice_memcpy_same by len_lia.
  rewrite S0, S4, S6, S8, S16, S20, S24, !le_combine_split_small by lia; done.
Qed.
