(* ===== verification/WalRecover.v ===== *)
(** * The write-ahead log: recovery ([src/wal.c])

    Reading a log back after a crash: the validation of a transaction's frames, their
    replay into the data file, and [sdb_wal_recover_all] for the logs of versions
    3 to 5 ([WalLegacy] has those of versions 1 and 2).  A log is the file
    [sdb_file_open_existing] opens, or its failure; the data file is the state. *)

From S2P Require Import Prelude Status Codec Checksum Page Superblock File Sha256 Chacha Poly1305 Aead EncryptedPage Probe WalFormat.

(** ** Frames *)

(** What [sdb_wal_validate_frames] asks of one frame, its page id aside. *)
Definition frame_meta_bad (frame : bytes) (txn_id index page_count : Z) : bool :=
  negb (sdb_read_u64_le frame 8 =? txn_id) || negb (sdb_read_u32_le frame 16 =? wrap 32 index)
  || negb (sdb_read_u32_le frame 20 =? wrap 32 page_count).

Definition frame_page (frame : bytes) (rec_hdr_size page_size : nat) : bytes := slice frame rec_hdr_size page_size.

Section Validate.
Context (avx2 : bool) (superblock : sdb_superblock_v1) (data_key : option bytes) (page_size rec_hdr_size : nat) (v4_meta : bool).

(** An encrypted database accepts encrypted pages only, and only those its key opens. *)
Definition frame_opens (view : sdb_page_view) : bool :=
  match data_key with
  | None => true
  | Some key =>
      (view_type view =? SDB_PAGE_TYPE_ENCRYPTED)
      && match sdb_encrypted_page_decrypt avx2 superblock key view page_size with Ok _ => true | Err _ => false end
  end.

Fixpoint validate_loop (txn_id next_page_id page_count : Z) (n : nat) (index : Z) (cursor : bytes) (slots : list Z) (capacity : Z)
  : memM unit :=
  match n with
  | O => mem_ret tt
  | S n =>
      let page_id := sdb_read_u64_le cursor 0 in
      if v4_meta && frame_meta_bad cursor txn_id index page_count then mem_err SDB_E_CORRUPT
      else if bool_decide (rec_hdr_size = SDB_WAL_RECORD_HEADER_SIZE_V5)
              && negb (bool_decide (slice cursor 24 SDB_FILE_ID_SIZE = sb_file_id superblock))
      then mem_err SDB_E_CORRUPT
      else if (page_id =? 0) || (page_id >=? next_page_id) then mem_err SDB_E_CORRUPT
      else
        match sdb_wal_id_set_insert slots capacity page_id with
        | None => None
        | Some (false, _) => mem_err SDB_E_CORRUPT
        | Some (true, slots) =>
            match sdb_page_decode (frame_page cursor rec_hdr_size page_size) (Z.of_nat page_size) page_id with
            | Err _ => mem_err SDB_E_CORRUPT
            | Ok view =>
                if negb (view_page_lsn view =? txn_id) then mem_err SDB_E_CORRUPT
                else if negb (frame_opens view) then mem_err SDB_E_CORRUPT
                else validate_loop txn_id next_page_id page_count n (index + 1) (drop (rec_hdr_size + page_size) cursor) slots capacity
            end
        end
  end.

Definition sdb_wal_validate_frames (frames : bytes) (page_count : nat) (txn_id next_page_id : Z) : memM unit :=
  '(slots, capacity) ← (Some (sdb_wal_id_set_create (Z.of_nat page_count)) : memM (list Z * Z));
  validate_loop txn_id next_page_id (Z.of_nat page_count) page_count 0 frames slots capacity.
End Validate.

Definition DATA_OFFSET : Z := Z.of_nat (SDB_SUPERBLOCK_SLOT_SIZE * SDB_SUPERBLOCK_SLOT_COUNT).

Fixpoint apply_loop (page_size : nat) (txn_id next_page_id : Z) (rec_hdr_size : nat) (n : nat) (cursor : bytes) : fileM unit :=
  match n with
  | O => mret tt
  | S n =>
      let page_id := sdb_read_u64_le cursor 0 in
      if (page_id =? 0) || (page_id >=? next_page_id) || (page_id - 1 >? UINT64_MAX / Z.of_nat page_size)
      then fileM_err SDB_E_CORRUPT
      else
        let relative := (page_id - 1) * Z.of_nat page_size in
        if relative >? UINT64_MAX - DATA_OFFSET then fileM_err SDB_E_CORRUPT
        else
          let offset := DATA_OFFSET + relative in
          match sdb_page_decode (frame_page cursor rec_hdr_size page_size) (Z.of_nat page_size) page_id with
          | Err _ => fileM_err SDB_E_CORRUPT
          | Ok view =>
              if negb (view_page_lsn view =? txn_id) then fileM_err SDB_E_CORRUPT
              else
                _ ← sdb_file_write_full offset (frame_page cursor rec_hdr_size page_size);
                apply_loop page_size txn_id next_page_id rec_hdr_size n (drop (rec_hdr_size + page_size) cursor)
          end
  end.

Definition sdb_wal_apply_frames (frames : bytes) (page_size page_count : nat) (txn_id next_page_id : Z) (rec_hdr_size : nat)
    (sync_after : bool) : fileM unit :=
  _ ← apply_loop page_size txn_id next_page_id rec_hdr_size page_count frames;
  if sync_after then sdb_file_sync else mret tt.

(** ** Recovery of the multi-transaction log *)

Record recovery := {
  re_lsn : Z;
  re_next_page_id : Z;
  re_freelist : Z;
  re_replayed : bool
}.

(** Whether the first transaction is intact although the identity header is not. *)
Definition sdb_wal_first_txn_is_self_describing (buffer : bytes) (page_size record_header_size : nat) (expected_file_id : bytes) : bool :=
  let frame_size := (record_header_size + page_size)%nat in
  let cursor := SDB_WAL_HEADER_SIZE in
  if bool_decide (length buffer <= cursor)%nat then false
  else if negb (bool_decide (record_header_size = SDB_WAL_RECORD_HEADER_SIZE_V4))
          && negb (bool_decide (record_header_size = SDB_WAL_RECORD_HEADER_SIZE_V5)) then false
  else
    let remaining := (length buffer - cursor)%nat in
    if bool_decide (remaining < frame_size + SDB_WAL_COMMIT_SIZE)%nat then false
    else if negb (sdb_read_u32_le buffer (cursor + 16) =? 0) then false
    else if bool_decide (record_header_size = SDB_WAL_RECORD_HEADER_SIZE_V5)
            && negb (bool_decide (slice buffer (cursor + 24) SDB_FILE_ID_SIZE = expected_file_id)) then false
    else
      let declared_count := sdb_read_u32_le buffer (cursor + 20) in
      if (declared_count =? 0) || (declared_count >? SDB_WAL_MAX_RECORDS)
         || (declared_count >? Z.of_nat ((remaining - SDB_WAL_COMMIT_SIZE) / frame_size)) then false
      else
        let commit_offset := (cursor + Z.to_nat declared_count * frame_size)%nat in
        let commit := slice buffer commit_offset SDB_WAL_COMMIT_SIZE in
        if negb (bool_decide (slice commit 0 4 = sdb_wal_commit_magic)) then false
        else
          match sdb_wal_decode_commit_rec commit with
          | Err _ => false
          | Ok (rec, stored_running_crc) =>
              (cr_frame_count rec =? declared_count)
              && (sdb_crc32 (slice buffer cursor (Z.to_nat declared_count * frame_size)) =? stored_running_crc)
          end.

(** How the log is to be scanned. *)
Record gate := {
  g_identity_bound : bool;
  g_self_describing : bool;
  g_record_header_size : nat
}.

Definition legacy_gate (bound : bool) : gate :=
  {| g_identity_bound := bound; g_self_describing := false; g_record_header_size := SDB_WAL_RECORD_HEADER_SIZE |}.

Definition header_crc_ok (buffer : bytes) : bool :=
  sdb_crc32_zeroed_range (slice buffer 0 SDB_WAL_HEADER_SIZE) 60 4 =? sdb_read_u32_le buffer 60.

Definition wal_version_known (v : Z) : bool :=
  (v =? SDB_WAL_VERSION_V1) || (v =? SDB_WAL_VERSION) || (v =? SDB_WAL_VERSION_V3) || (v =? SDB_WAL_VERSION_V4)
  || (v =? SDB_WAL_VERSION_V5).

Definition identity_gate (superblock : sdb_superblock_v1) (buffer : bytes) : result gate :=
  if forallb (fun b => bool_decide (b = x00)) (slice buffer 0 SDB_WAL_HEADER_SIZE) then Ok (legacy_gate false)
  else
    let header_version := sdb_read_u16_le buffer 4 in
    let crc_ok := header_crc_ok buffer in
    let page_size := Z.to_nat (sb_page_size superblock) in
    fail_if crc_ok
            && (negb (bool_decide (slice buffer 0 4 = sdb_wal_magic)) || negb (wal_version_known header_version)
                || negb (sdb_read_u16_le buffer 6 =? Z.of_nat SDB_WAL_HEADER_SIZE)
                || negb (sdb_read_u32_le buffer 16 =? sb_page_size superblock)
                || negb (bool_decide (slice buffer 24 SDB_FILE_ID_SIZE = sb_file_id superblock)))
      with SDB_E_CORRUPT ;;
    Ok (if crc_ok && (header_version =? SDB_WAL_VERSION_V4)
        then {| g_identity_bound := crc_ok; g_self_describing := true; g_record_header_size := SDB_WAL_RECORD_HEADER_SIZE_V4 |}
        else if crc_ok && (header_version =? SDB_WAL_VERSION_V5)
        then {| g_identity_bound := crc_ok; g_self_describing := true; g_record_header_size := SDB_WAL_RECORD_HEADER_SIZE_V5 |}
        else if negb crc_ok
                && sdb_wal_first_txn_is_self_describing buffer page_size SDB_WAL_RECORD_HEADER_SIZE_V5 (sb_file_id superblock)
        then {| g_identity_bound := true; g_self_describing := true; g_record_header_size := SDB_WAL_RECORD_HEADER_SIZE_V5 |}
        else if negb crc_ok
                && sdb_wal_first_txn_is_self_describing buffer page_size SDB_WAL_RECORD_HEADER_SIZE_V4 (sb_file_id superblock)
        then {| g_identity_bound := crc_ok; g_self_describing := true; g_record_header_size := SDB_WAL_RECORD_HEADER_SIZE_V4 |}
        else legacy_gate crc_ok).

(** The variables of the scan. *)
Record scan := {
  sc_cursor : nat;
  sc_last_lsn : Z;
  sc_next_page_id : Z;
  sc_freelist : Z;
  sc_expected : Z;
  sc_applied : bool
}.

(** The commit record at a known offset, when it seals the frames before it. *)
Definition sealed_commit (buffer : bytes) (cursor frame_size : nat) (count : Z) : option sdb_wal_commit_rec :=
  let commit := slice buffer (cursor + Z.to_nat count * frame_size) SDB_WAL_COMMIT_SIZE in
  if negb (bool_decide (slice commit 0 4 = sdb_wal_commit_magic)) then None
  else
    match sdb_wal_decode_commit_rec commit with
    | Err _ => None
    | Ok (rec, stored_running_crc) =>
        if negb (cr_frame_count rec =? count)
           || negb (sdb_crc32 (slice buffer cursor (Z.to_nat count * frame_size)) =? stored_running_crc)
        then None else Some rec
    end.

(** The self-describing branch: the first frame tells how many there are. *)
Definition find_declared (buffer : bytes) (frame_size : nat) (sc : scan) : option (sdb_wal_commit_rec * Z) :=
  let remaining := (length buffer - sc_cursor sc)%nat in
  let declared_count := sdb_read_u32_le buffer (sc_cursor sc + 20) in
  if (declared_count =? 0) || (declared_count >? SDB_WAL_MAX_RECORDS)
     || (declared_count >? Z.of_nat ((remaining - SDB_WAL_COMMIT_SIZE) / frame_size)) then None
  else
    rec ← sealed_commit buffer (sc_cursor sc) frame_size declared_count;
    if negb (cr_txn_id rec =? sc_expected sc) || (cr_next_page_id rec <? sc_next_page_id sc)
       || (negb (cr_freelist_page rec =? 0) && (cr_freelist_page rec >=? cr_next_page_id rec))
    then None else Some (rec, declared_count).

(** The legacy branch: probe every possible number of frames for the commit magic.
    The first hit decides. *)
Fixpoint find_probed (n : nat) (k : Z) (page_size : Z) (buffer : bytes) (frame_size : nat) (sc : scan)
  : option (sdb_wal_commit_rec * Z) :=
  match n with
  | O => None
  | S n =>
      let commit := slice buffer (sc_cursor sc + Z.to_nat k * frame_size) SDB_WAL_COMMIT_SIZE in
      if negb (bool_decide (slice commit 0 4 = sdb_wal_commit_magic))
      then find_probed n (k + 1) page_size buffer frame_size sc
      else
        rec ← sealed_commit buffer (sc_cursor sc) frame_size k;
        if negb (cr_txn_id rec =? sc_expected sc) || negb (sdb_page_geometry_valid (cr_next_page_id rec) page_size)
           || (cr_next_page_id rec <? sc_next_page_id sc)
           || (negb (cr_freelist_page rec =? 0) && (cr_freelist_page rec >=? cr_next_page_id rec))
        then None else Some (rec, k)
  end.

Definition find_commit (g : gate) (page_size : nat) (buffer : bytes) (sc : scan) : option (sdb_wal_commit_rec * Z) :=
  let frame_size := (g_record_header_size g + page_size)%nat in
  let remaining := (length buffer - sc_cursor sc)%nat in
  if bool_decide (length buffer <= sc_cursor sc)%nat then None
  else if bool_decide (remaining < frame_size + SDB_WAL_COMMIT_SIZE)%nat then None
  else if g_self_describing g then find_declared buffer frame_size sc
  else
    let max_frames := Z.of_nat ((remaining - SDB_WAL_COMMIT_SIZE) / frame_size) in
    let max_frames := if max_frames >? SDB_WAL_MAX_RECORDS then SDB_WAL_MAX_RECORDS else max_frames in
    find_probed (Z.to_nat max_frames) 1 (Z.of_nat page_size) buffer frame_size sc.

Definition scan_next (sc : scan) (frame_size : nat) (rec : sdb_wal_commit_rec) (count : Z) (applied : bool) : scan :=
  {| sc_cursor := (sc_cursor sc + Z.to_nat count * frame_size + SDB_WAL_COMMIT_SIZE)%nat;
     sc_last_lsn := cr_txn_id rec; sc_next_page_id := cr_next_page_id rec; sc_freelist := cr_freelist_page rec;
     sc_expected := wrap 64 (cr_txn_id rec + 1); sc_applied := sc_applied sc || applied |}.

(** The scan: [None] when a probe of the id table does not end, [SDB_E_INTERNAL]
    when [fuel] is exhausted. *)
Fixpoint recover_loop (fuel : nat) (avx2 : bool) (g : gate) (superblock : sdb_superblock_v1) (data_key : option bytes)
    (buffer : bytes) (sc : scan) (db : sdb_file) : option (result scan * sdb_file) :=
  match fuel with
  | O => Some (Err SDB_E_INTERNAL, db)
  | S fuel =>
      let page_size := Z.to_nat (sb_page_size superblock) in
      let frame_size := (g_record_header_size g + page_size)%nat in
      match find_commit g page_size buffer sc with
      | None => Some (Ok sc, db)
      | Some (rec, count) =>
          let frames := slice buffer (sc_cursor sc) (Z.to_nat count * frame_size) in
          match sdb_wal_validate_frames avx2 superblock data_key page_size (g_record_header_size g) (g_self_describing g)
                  frames (Z.to_nat count) (cr_txn_id rec) (cr_next_page_id rec) with
          | None => None
          | Some (Err e) => Some (Err e, db)
          | Some (Ok _) =>
              let newer := cr_txn_id rec >? sb_checkpoint_lsn superblock in
              let '(status, db) :=
                if newer
                then sdb_wal_apply_frames frames page_size (Z.to_nat count) (cr_txn_id rec) (cr_next_page_id rec)
                       (g_record_header_size g) false db
                else (Ok tt, db) in
              match status with
              | Err e => Some (Err e, db)
              | Ok _ => recover_loop fuel avx2 g superblock data_key buffer (scan_next sc frame_size rec count newer) db
              end
          end
      end
  end.

Definition scan_start (superblock : sdb_superblock_v1) : scan :=
  {| sc_cursor := SDB_WAL_HEADER_SIZE; sc_last_lsn := sb_checkpoint_lsn superblock;
     sc_next_page_id := sb_next_page_id superblock; sc_freelist := sb_freelist_page superblock;
     sc_expected := wrap 64 (sb_checkpoint_lsn superblock + 1); sc_applied := false |}.

(** From the contents of the log on.  Every iteration moves the cursor, so the
    length of the log bounds their number. *)
Definition recover_buffer (avx2 : bool) (superblock : sdb_superblock_v1) (data_key : option bytes) (buffer : bytes) (db : sdb_file)
  : option (result recovery * sdb_file) :=
  match identity_gate superblock buffer with
  | Err e => Some (Err e, db)
  | Ok g =>
      if negb (g_identity_bound g) && negb (g_self_describing g) && negb (bool_decide (is_Some data_key))
      then Some (Err SDB_E_CORRUPT, db)
      else
        '(scanned, db) ← recover_loop (S (length buffer)) avx2 g superblock data_key buffer (scan_start superblock) db;
        Some match scanned with
        | Err e => (Err e, db)
        | Ok sc =>
            let out := {| re_lsn := sc_last_lsn sc; re_next_page_id := sc_next_page_id sc; re_freelist := sc_freelist sc;
                          re_replayed := sc_applied sc |} in
            if sc_applied sc then (_ ← sdb_file_sync; mret out) db else (Ok out, db)
        end
  end.

(** The log as a file: its size, then its contents. *)
Definition read_log (wal : sdb_file) : result (option bytes) :=
  match sdb_file_size wal with
  | (Err e, _) => Err e
  | (Ok size, wal) =>
      if size >? SDB_WAL_MAX_BYTES then Err SDB_E_CORRUPT
      else if size <=? Z.of_nat SDB_WAL_HEADER_SIZE then Ok None
      else match sdb_file_read_full 0 (Z.to_nat size) wal with (Ok buffer, _) => Ok (Some buffer) | (Err e, _) => Err e end
  end.

Definition nothing_recovered (superblock : sdb_superblock_v1) : recovery :=
  {| re_lsn := sb_checkpoint_lsn superblock; re_next_page_id := sb_next_page_id superblock;
     re_freelist := sb_freelist_page superblock; re_replayed := false |}.

Definition sdb_wal_recover_all (avx2 : bool) (wal : result sdb_file) (superblock : sdb_superblock_v1) (data_key : option bytes)
    (db : sdb_file) : option (result recovery * sdb_file) :=
  let page_size := sb_page_size superblock in
  if (page_size <? SDB_MIN_PAGE_SIZE) || (page_size >? SDB_MAX_PAGE_SIZE) || negb (Z.land page_size (page_size - 1) =? 0)
  then Some (Err SDB_E_INVALID_ARGUMENT, db)
  else if negb (sdb_page_geometry_valid (sb_next_page_id superblock) page_size) then Some (Err SDB_E_CORRUPT, db)
  else
    match wal with
    | Err SDB_E_NOT_FOUND => Some (Ok (nothing_recovered superblock), db)
    | Err e => Some (Err e, db)
    | Ok wal =>
        match read_log wal with
        | Err e => Some (Err e, db)
        | Ok None => Some (Ok (nothing_recovered superblock), db)
        | Ok (Some buffer) => recover_buffer avx2 superblock data_key buffer db
        end
    end.

(** ** Validation is total *)

Lemma validate_loop_total (avx2 : bool) (sb : sdb_superblock_v1) (key : option bytes) (ps rh : nat) (v4 : bool) (txn next count : Z) :
  forall n index cursor slots c, table_wf slot_id c slots -> Z.of_nat (length (ids slots)) + Z.of_nat n < c ->
  validate_loop avx2 sb key ps rh v4 txn next count n index cursor slots c = mem_ret tt
  \/ validate_loop avx2 sb key ps rh v4 txn next count n index cursor slots c = mem_err SDB_E_CORRUPT.
Proof.
  induction n as [|n IH]; intros index cursor slots c Hw Hl; [by left|]; cbn [validate_loop].
  case_if; [by right|]; case_if; [by right|].
  destruct (Z.eqb_spec (sdb_read_u64_le cursor 0) 0); [by right|]; cbn [orb]; case_if; [by right|].
  destruct (id_set_insert_spec c slots (sdb_read_u64_le cursor 0)) as [[_ ->]|(_ & slots' & -> & Hw' & HP)]; [done|lia|done|by right|].
  destruct (sdb_page_decode _ _ _) as [view|e]; [|by right]; case_if; [by right|]; case_if; [by right|].
  apply IH; [done|]; rewrite HP; cbn [length]; lia.
Qed.

Lemma validate_total (avx2 : bool) (sb : sdb_superblock_v1) (key : option bytes) (ps rh : nat) (v4 : bool) (frames : bytes) (n : nat) (txn next : Z) :
  1 <= Z.of_nat n <= 2 ^ 58 ->
  sdb_wal_validate_frames avx2 sb key ps rh v4 frames n txn next = mem_ret tt
  \/ sdb_wal_validate_frames avx2 sb key ps rh v4 frames n txn next = mem_err SDB_E_CORRUPT.
Proof.
  intros Hn; unfold sdb_wal_validate_frames; destruct (id_set_create_spec _ Hn) as (slots & c & -> & Hw & H0 & Hc).
  apply validate_loop_total; [done|]; rewrite H0; cbn; lia.
Qed.

Lemma DATA_OFFSET_eq : DATA_OFFSET = 8192.
Proof. by vm_compute. Qed.

#[global] Opaque DATA_OFFSET.

(** ** Replay *)

(** Where a page lives in the data file. *)
Definition page_offset (ps : nat) (id : Z) : nat := Z.to_nat (DATA_OFFSET + (id - 1) * Z.of_nat ps).

Definition replay_page (ps : nat) (data : bytes) (p : sdb_wal_page) : bytes :=
  file_splice data (page_offset ps (wp_page_id p)) (wp_bytes p).

Definition replay (ps : nat) (data : bytes) (pages : list sdb_wal_page) : bytes := foldl (replay_page ps) data pages.

Lemma replay_cons (ps : nat) (data : bytes) (id : Z) (b : bytes) (pages : list sdb_wal_page) :
  replay ps data ({| wp_page_id := id; wp_bytes := b |} :: pages)
  = replay ps (file_splice data (Z.to_nat (DATA_OFFSET + (id - 1) * Z.of_nat ps)) b) pages.
Proof. reflexivity. Qed.

(** The pages a run of frames carries. *)
Fixpoint frame_pages (rh ps n : nat) (cursor : bytes) : list sdb_wal_page :=
  match n with
  | O => []
  | S n => {| wp_page_id := sdb_read_u64_le cursor 0; wp_bytes := frame_page cursor rh ps |}
           :: frame_pages rh ps n (drop (rh + ps) cursor)
  end.

(** A page [sdb_wal_apply_frames] writes. *)
Definition page_applies (ps : nat) (txn next : Z) (p : sdb_wal_page) : Prop :=
  1 <= wp_page_id p < next
  /\ exists view, sdb_page_decode (wp_bytes p) (Z.of_nat ps) (wp_page_id p) = Ok view /\ view_page_lsn view = txn.

Lemma apply_loop_total (ps : nat) (txn next : Z) (rh : nat) :
  (0 < ps)%nat -> DATA_OFFSET + next * Z.of_nat ps <= INT64_MAX ->
  forall n cursor db, (n * (rh + ps) <= length cursor)%nat -> Forall (page_applies ps txn next) (frame_pages rh ps n cursor) -> reliable db ->
  exists db', apply_loop ps txn next rh n cursor db = (Ok tt, db') /\ reliable db'
    /\ f_data db' = replay ps (f_data db) (frame_pages rh ps n cursor) /\ f_durable db' = f_durable db.
Proof.
  intros Hps Hb; induction n as [|n IH]; intros cursor db Hl HF Hr; [by exists db|].
  cbn [frame_pages] in *; apply Forall_cons_iff in HF as [((H1 & H2) & view & Hd & Hv) HF]; cbn [wp_page_id wp_bytes] in *.
  cbn [apply_loop]; set (id := sdb_read_u64_le cursor 0) in *; pose proof DATA_OFFSET_eq; unfold INT64_MAX in *.
  assert (id - 1 <= UINT64_MAX / Z.of_nat ps) by (apply Z.div_le_lower_bound; unfold UINT64_MAX; nia).
  assert ((id - 1) * Z.of_nat ps + DATA_OFFSET + Z.of_nat ps <= 9223372036854775807) by nia.
  rewrite (proj2 (Z.eqb_neq id 0)), Z.geb_leb, (proj2 (Z.leb_gt next id)), !Z.gtb_ltb, (proj2 (Z.ltb_ge (UINT64_MAX / _) _)) by lia; cbn [orb].
  rewrite (proj2 (Z.ltb_ge (UINT64_MAX - _) _)) by (unfold UINT64_MAX; lia).
  rewrite Hd, Hv, Z.eqb_refl; cbn [negb].
  assert (Lp : length (frame_page cursor rh ps) = ps) by (apply length_slice; lia).
  destruct (write_full_spec (DATA_OFFSET + (id - 1) * Z.of_nat ps) (frame_page cursor rh ps) db) as (r & f1 & Ew & We & [[-> Ef]|[_ ?]]);
    [nia|unfold INT64_MAX; lia|intros E; rewrite E in Lp; cbn in Lp; lia| |done].
  unfold mbind, fileM_bind; rewrite Ew.
  destruct (IH (drop (rh + ps) cursor) f1) as (db' & E & Hr' & Ed & Edu); [rewrite length_drop; lia|done|by apply We|].
  exists db'; rewrite replay_cons, Ed, Ef, Edu, (we_durable _ _ _ _ We); auto.
Qed.

(** Frames applied with success are replayed, whatever they hold and whatever the
    kernel does. *)
Lemma apply_loop_ok (ps : nat) (txn next : Z) (rh : nat) :
  (0 < ps)%nat ->
  forall n cursor db db', (n * (rh + ps) <= length cursor)%nat -> apply_loop ps txn next rh n cursor db = (Ok tt, db') ->
  f_data db' = replay ps (f_data db) (frame_pages rh ps n cursor) /\ f_durable db' = f_durable db.
Proof.
  intros Hps; induction n as [|n IH]; intros cursor db db' Hl; cbn [apply_loop frame_pages].
  { by intros [= <-]. }
  pose proof (sdb_read_u64_le_range cursor 0); set (id := sdb_read_u64_le cursor 0) in *.
  destruct (Z.eqb_spec id 0); [done|]; cbn [orb]; case_if; [done|]; case_if; [done|].
  destruct (sdb_page_decode _ _ _) as [view|e]; [|done]; case_if; [done|].
  unfold mbind, fileM_bind; destruct (sdb_file_write_full _ _ db) as [[[]|e] f1] eqn:Ew; [|done]; intros Hrun.
  assert (Lp : length (frame_page cursor rh ps) = ps) by (apply length_slice; lia).
  apply write_full_ok in Ew as [Edu Ed]; [|rewrite DATA_OFFSET_eq; nia|intros E; rewrite E in Lp; cbn in Lp; lia].
  apply IH in Hrun as [Ed' Edu']; [|rewrite length_drop; lia].
  by rewrite replay_cons, Ed', Edu', Ed, Edu.
Qed.

(** ** The scan *)

Lemma sealed_commit_count (buffer : bytes) (cursor fs : nat) (count : Z) (rec : sdb_wal_commit_rec) :
  sealed_commit buffer cursor fs count = Some rec -> cr_frame_count rec = count.
Proof.
  unfold sealed_commit; case_if; [done|]; destruct (sdb_wal_decode_commit_rec _) as [[rec' crc]|e]; [|done].
  case_if; [done|]; intros [= ->]; zbool_hyps; done.
Qed.

(** What the scan has checked about a transaction it accepts. *)
Record found (g : gate) (ps : nat) (buffer : bytes) (sc : scan) (rec : sdb_wal_commit_rec) (count : Z) : Prop := {
  fo_count : 1 <= count <= SDB_WAL_MAX_RECORDS;
  fo_fits : (sc_cursor sc + Z.to_nat count * (g_record_header_size g + ps) + 44 <= length buffer)%nat;
  fo_sealed : sealed_commit buffer (sc_cursor sc) (g_record_header_size g + ps) count = Some rec;
  fo_txn : cr_txn_id rec = sc_expected sc;
  fo_next : sc_next_page_id sc <= cr_next_page_id rec;
  fo_freelist : cr_freelist_page rec = 0 \/ cr_freelist_page rec < cr_next_page_id rec
}.

Lemma frames_fit (count : Z) (remaining fs : nat) :
  (0 < fs)%nat -> 0 <= count -> (44 <= remaining)%nat -> count <= Z.of_nat ((remaining - 44) / fs) ->
  (Z.to_nat count * fs + 44 <= remaining)%nat.
Proof.
  intros Hf Hc Hr H; pose proof (Nat.div_mod (remaining - 44) fs ltac:(lia)); pose proof (Nat.mod_upper_bound (remaining - 44) fs ltac:(lia)); nia.
Qed.

Lemma find_declared_found (g : gate) (ps : nat) (buffer : bytes) (sc : scan) (rec : sdb_wal_commit_rec) (count : Z) :
  (0 < ps)%nat -> (g_record_header_size g + ps + 44 <= length buffer - sc_cursor sc)%nat ->
  find_declared buffer (g_record_header_size g + ps) sc = Some (rec, count) -> found g ps buffer sc rec count.
Proof.
  intros Hps Hr; unfold find_declared, SDB_WAL_COMMIT_SIZE; set (d := sdb_read_u32_le buffer _); case_if; [done|].
  destruct (sealed_commit _ _ _ d) as [rec'|] eqn:Es; [|done]; cbn [mbind option_bind]; case_if; [done|]; intros [= -> <-].
  pose proof (sdb_read_u32_le_range buffer (sc_cursor sc + 20)) as Hd; fold d in Hd; zbool_hyps.
  match goal with H : _ && _ = false |- _ => apply andb_false_iff in H end.
  pose proof (frames_fit d (length buffer - sc_cursor sc) (g_record_header_size g + ps)).
  split; [lia|lia|done|done|lia|]; match goal with H : _ \/ _ |- _ => destruct H; zbool_hyps; lia end.
Qed.

Lemma find_probed_found (g : gate) (ps : nat) (buffer : bytes) (sc : scan) (rec : sdb_wal_commit_rec) (count : Z) :
  forall n k, 1 <= k -> k + Z.of_nat n <= SDB_WAL_MAX_RECORDS + 1 ->
  (Z.to_nat (k + Z.of_nat n - 1) * (g_record_header_size g + ps) + 44 <= length buffer - sc_cursor sc)%nat ->
  find_probed n k (Z.of_nat ps) buffer (g_record_header_size g + ps) sc = Some (rec, count) -> found g ps buffer sc rec count.
Proof.
  induction n as [|n IH]; intros k Hk Hm Hf; cbn [find_probed]; [done|]; case_if.
  { apply IH; [lia|lia|]; replace (k + 1 + Z.of_nat n - 1) with (k + Z.of_nat (S n) - 1) by lia; done. }
  destruct (sealed_commit _ _ _ k) as [rec'|] eqn:Es; [|done]; cbn [mbind option_bind]; case_if; [done|]; intros [= -> <-].
  zbool_hyps; match goal with H : _ && _ = false |- _ => apply andb_false_iff in H end.
  split; [lia|nia|done|done|lia|]; match goal with H : _ \/ _ |- _ => destruct H; zbool_hyps; lia end.
Qed.

Lemma find_commit_found (g : gate) (ps : nat) (buffer : bytes) (sc : scan) (rec : sdb_wal_commit_rec) (count : Z) :
  (0 < ps)%nat -> find_commit g ps buffer sc = Some (rec, count) -> found g ps buffer sc rec count.
Proof.
  intros Hps; unfold find_commit; case_bool_decide; [done|]; case_bool_decide as Hr; [done|].
  destruct (g_self_describing g); [apply find_declared_found; unfold SDB_WAL_COMMIT_SIZE in *; lia|].
  cbv zeta; set (m := Z.of_nat _); set (m' := if m >? _ then _ else m).
  assert (Hm : 0 <= m' <= SDB_WAL_MAX_RECORDS /\ m' <= m).
  { unfold m', SDB_WAL_MAX_RECORDS; destruct (Z.gtb_spec m 1048576); lia. }
  apply find_probed_found; [lia|unfold SDB_WAL_MAX_RECORDS in *; lia|].
  replace (1 + Z.of_nat (Z.to_nat m') - 1) with m' by lia.
  apply frames_fit; unfold SDB_WAL_COMMIT_SIZE in *; lia.
Qed.

(** A transaction the scan accepts: its commit record and its pages. *)
Record sealed_txn := {
  st_rec : sdb_wal_commit_rec;
  st_pages : list sdb_wal_page
}.

Definition log_pages (l : list sealed_txn) : list sdb_wal_page := concat (st_pages <$> l).

Section Scan.
Context (avx2 : bool) (g : gate) (sb : sdb_superblock_v1) (key : option bytes) (buffer : bytes).

Abbreviation ps := (Z.to_nat (sb_page_size sb)).
Abbreviation rh := (g_record_header_size g).
Abbreviation fs := (rh + ps)%nat.

Definition txn_at (sc : scan) (count : Z) : bytes := slice buffer (sc_cursor sc) (Z.to_nat count * fs).

Definition txn_valid (sc : scan) (rec : sdb_wal_commit_rec) (count : Z) : memM unit :=
  sdb_wal_validate_frames avx2 sb key ps rh (g_self_describing g) (txn_at sc count) (Z.to_nat count) (cr_txn_id rec) (cr_next_page_id rec).

Definition txn_apply (sc : scan) (rec : sdb_wal_commit_rec) (count : Z) : fileM unit :=
  sdb_wal_apply_frames (txn_at sc count) ps (Z.to_nat count) (cr_txn_id rec) (cr_next_page_id rec) rh false.

Inductive scan_run : scan -> list sealed_txn -> scan -> Prop :=
  | run_done sc : find_commit g ps buffer sc = None -> scan_run sc [] sc
  | run_txn sc rec count l sc' :
      find_commit g ps buffer sc = Some (rec, count) ->
      txn_valid sc rec count = mem_ret tt ->
      scan_run (scan_next sc fs rec count true) l sc' ->
      scan_run sc ({| st_rec := rec; st_pages := frame_pages rh ps (Z.to_nat count) (txn_at sc count) |} :: l) sc'.

Hypothesis Hps : (0 < ps)%nat.

Lemma recover_loop_step (fuel : nat) (sc : scan) (db : sdb_file) :
  recover_loop (S fuel) avx2 g sb key buffer sc db
  = match find_commit g ps buffer sc with
    | None => Some (Ok sc, db)
    | Some (rec, count) =>
        match txn_valid sc rec count with
        | None => None
        | Some (Err e) => Some (Err e, db)
        | Some (Ok _) =>
            let newer := cr_txn_id rec >? sb_checkpoint_lsn sb in
            let '(status, db) := if newer then txn_apply sc rec count db else (Ok tt, db) in
            match status with
            | Err e => Some (Err e, db)
            | Ok _ => recover_loop fuel avx2 g sb key buffer (scan_next sc fs rec count newer) db
            end
        end
    end.
Proof. reflexivity. Qed.

(** The scan ends on every buffer: enough fuel gives one result. *)
Lemma recover_loop_total (m : nat) :
  forall sc db, (length buffer - sc_cursor sc <= m)%nat ->
  exists out, forall fuel, (m < fuel)%nat -> recover_loop fuel avx2 g sb key buffer sc db = Some out.
Proof.
  induction m as [m IH] using lt_wf_ind; intros sc db Hm.
  destruct (find_commit g ps buffer sc) as [[rec count]|] eqn:Ef.
  2: { exists (Ok sc, db); intros [|fuel] Hf; [lia|]; by rewrite recover_loop_step, Ef. }
  pose proof (find_commit_found g ps buffer sc rec count Hps Ef) as [Hc Hfit _ _ _ _].
  destruct (validate_total avx2 sb key ps rh (g_self_describing g) (txn_at sc count) (Z.to_nat count) (cr_txn_id rec) (cr_next_page_id rec))
    as [Ev|Ev]; [unfold SDB_WAL_MAX_RECORDS in Hc; lia|fold (txn_valid sc rec count) in Ev..].
  2: { exists (Err SDB_E_CORRUPT, db); intros [|fuel] Hf; [lia|]; by rewrite recover_loop_step, Ef, Ev. }
  destruct (if cr_txn_id rec >? sb_checkpoint_lsn sb then txn_apply sc rec count db else (Ok tt, db)) as [[u|e] db1] eqn:Ea.
  2: { exists (Err e, db1); intros [|fuel] Hf; [lia|]; rewrite recover_loop_step, Ef, Ev; cbn [mem_ret]; by rewrite Ea. }
  set (sc1 := scan_next sc fs rec count (cr_txn_id rec >? sb_checkpoint_lsn sb)).
  assert (Hsc1 : (sc_cursor sc < sc_cursor sc1 <= length buffer)%nat) by (unfold sc1; cbn; unfold SDB_WAL_COMMIT_SIZE; lia).
  destruct (IH (m - 1)%nat ltac:(lia) sc1 db1) as [out Hout]; [lia|].
  exists out; intros [|fuel] Hf; [lia|]; rewrite recover_loop_step, Ef, Ev; cbn [mem_ret]; rewrite Ea; apply Hout; lia.
Qed.

Lemma txn_apply_ok (sc : scan) (rec : sdb_wal_commit_rec) (count : Z) (db db' : sdb_file) :
  found g ps buffer sc rec count -> txn_apply sc rec count db = (Ok tt, db') ->
  f_data db' = replay ps (f_data db) (frame_pages rh ps (Z.to_nat count) (txn_at sc count)) /\ f_durable db' = f_durable db.
Proof.
  intros [Hc Hfit _ _ _ _]; unfold txn_apply, sdb_wal_apply_frames, mbind, fileM_bind.
  destruct (apply_loop _ _ _ _ _ _ db) as [[[]|e] db1] eqn:Ea; [|done]; intros [= <-].
  eapply apply_loop_ok; [exact Hps| |exact Ea]; unfold txn_at; rewrite length_slice; lia.
Qed.

Lemma replay_app (data : bytes) (a b : list sdb_wal_page) : replay ps data (a ++ b) = replay ps (replay ps data a) b.
Proof. apply foldl_app. Qed.

(** Every transaction applied was sealed and valid, and whole. *)
Lemma recover_loop_sound (fuel : nat) :
  forall sc db sc' db', 0 <= sb_checkpoint_lsn sb < sc_expected sc ->
  sc_expected sc + Z.of_nat (length buffer - sc_cursor sc) < 2 ^ 64 - 1 ->
  recover_loop fuel avx2 g sb key buffer sc db = Some (Ok sc', db') ->
  exists l, scan_run sc l sc' /\ f_data db' = replay ps (f_data db) (log_pages l) /\ f_durable db' = f_durable db.
Proof.
  induction fuel as [|fuel IH]; intros sc db sc' db' Hx Hw; [done|]; rewrite recover_loop_step.
  destruct (find_commit g ps buffer sc) as [[rec count]|] eqn:Ef.
  2: { intros [= <- <-]; exists []; split; [by constructor|done]. }
  pose proof (find_commit_found g ps buffer sc rec count Hps Ef) as Hfo; pose proof Hfo as [Hc Hfit _ Et _ _].
  destruct (txn_valid sc rec count) as [[u|e]|] eqn:Ev; [|done..]; rewrite Et, Z.gtb_ltb, (proj2 (Z.ltb_lt _ _)) by lia; cbv zeta.
  destruct (txn_apply sc rec count db) as [[[]|e] db1] eqn:Ea; [|done]; intros Hrun.
  apply (txn_apply_ok sc rec count db db1 Hfo) in Ea as [Ed Edu].
  apply IH in Hrun as (l & Hl & Ed' & Edu'); cbn [scan_next sc_expected sc_cursor]; unfold SDB_WAL_COMMIT_SIZE.
  2, 3: rewrite Et, wrap_small by lia; lia.
  eexists; split; [eapply run_txn; [exact Ef|by destruct u|exact Hl]|].
  unfold log_pages; cbn [fmap list_fmap concat st_pages]; rewrite replay_app, <- Ed; by rewrite Edu', Edu.
Qed.
End Scan.
