(* ===== verification/WalLog.v ===== *)
(** * The write-ahead log: durability and atomicity

    The theorems that compose [WalFormat] and [WalRecover].  Recovery ends on every
    log and applies whole sealed transactions only, in order, from the one after the
    checkpoint; a log of appended transactions is replayed completely, and a tail that
    a crash tore off an append is dropped; an append that reported success survives
    every crash, and one that was interrupted never harms the transactions before it. *)

From S2P Require Import Prelude Status Codec Checksum Page Superblock File Sha256 Chacha Poly1305 Aead EncryptedPage Probe WalFormat WalRecover.

(** ** What recovery accepts *)

Section Sealed.
Context (avx2 : bool) (sb : sdb_superblock_v1) (key : option bytes).

Abbreviation ps := (Z.to_nat (sb_page_size sb)).

(** A page that may be replayed for a transaction: in range, well formed, stamped
    with the transaction and, in an encrypted database, opened by the key. *)
Definition page_replayable (txn next : Z) (p : sdb_wal_page) : Prop :=
  0 < wp_page_id p < next
  /\ exists view, sdb_page_decode (wp_bytes p) (Z.of_nat ps) (wp_page_id p) = Ok view
       /\ view_page_lsn view = txn /\ frame_opens avx2 sb key ps view = true.

(** The transactions of a buffer from an offset on, sealed by their commit records and
    numbered without a gap. *)
Fixpoint sealed_log (rh : nat) (buffer : bytes) (off : nat) (lsn next : Z) (l : list sealed_txn) : Prop :=
  match l with
  | [] => True
  | t :: l =>
      let rec := st_rec t in
      let size := (Z.to_nat (cr_frame_count rec) * (rh + ps))%nat in
      cr_txn_id rec = lsn + 1
      /\ sealed_commit buffer off (rh + ps) (cr_frame_count rec) = Some rec
      /\ st_pages t = frame_pages rh ps (Z.to_nat (cr_frame_count rec)) (slice buffer off size)
      /\ Forall (page_replayable (lsn + 1) (cr_next_page_id rec)) (st_pages t)
      /\ NoDup (wp_page_id <$> st_pages t)
      /\ next <= cr_next_page_id rec
      /\ (cr_freelist_page rec = 0 \/ cr_freelist_page rec < cr_next_page_id rec)
      /\ sealed_log rh buffer (off + size + SDB_WAL_COMMIT_SIZE) (lsn + 1) (cr_next_page_id rec) l
  end.

(** What a validated run of frames satisfies. *)
Lemma validate_loop_inv (rh : nat) (v4 : bool) (txn next count : Z) :
  forall n index cursor slots c, table_wf slot_id c slots -> Z.of_nat (length (ids slots)) + Z.of_nat n < c ->
  validate_loop avx2 sb key ps rh v4 txn next count n index cursor slots c = mem_ret tt ->
  Forall (page_replayable txn next) (frame_pages rh ps n cursor)
  /\ NoDup ((wp_page_id <$> frame_pages rh ps n cursor) ++ ids slots).
Proof.
  induction n as [|n IH]; intros index cursor slots c Hw Hl; cbn [validate_loop frame_pages fmap list_fmap app].
  { intros _; split; [constructor|]; rewrite <- (list_fmap_id (ids slots)); by apply (occupied_unique slot_id c). }
  case_if; [done|]; case_if; [done|]; pose proof (sdb_read_u64_le_range cursor 0); set (id := sdb_read_u64_le cursor 0) in *.
  destruct (Z.eqb_spec id 0); [done|]; cbn [orb]; rewrite Z.geb_leb; destruct (Z.leb_spec next id); [done|].
  destruct (id_set_insert_spec c slots id) as [[_ ->]|(_ & slots' & -> & Hw' & HP)]; [done|lia|done|done|].
  destruct (sdb_page_decode _ _ id) as [view|e] eqn:Ed; [|done].
  destruct (Z.eqb_spec (view_page_lsn view) txn) as [El|]; [|done]; cbn [negb].
  destruct (frame_opens _ _ _ _ view) eqn:Eo; [|done]; cbn [negb]; intros Hrun.
  apply IH in Hrun as [HF HN]; [|done|rewrite HP; cbn [length]; lia].
  split; [constructor; [|done]|]; [split; [cbn [wp_page_id]; lia|]; by exists view|].
  rewrite HP, <- Permutation_middle in HN; exact HN.
Qed.

Lemma validate_inv (rh : nat) (v4 : bool) (frames : bytes) (n : nat) (txn next : Z) :
  1 <= Z.of_nat n <= 2 ^ 58 ->
  sdb_wal_validate_frames avx2 sb key ps rh v4 frames n txn next = mem_ret tt ->
  Forall (page_replayable txn next) (frame_pages rh ps n frames) /\ NoDup (wp_page_id <$> frame_pages rh ps n frames).
Proof.
  intros Hn; unfold sdb_wal_validate_frames; destruct (id_set_create_spec _ Hn) as (slots & c & -> & Hw & H0 & Hc).
  intros Hv; apply validate_loop_inv in Hv as [HF HN]; [|done|rewrite H0; cbn; lia]; rewrite H0, app_nil_r in HN; done.
Qed.

Hypothesis Hps : (0 < ps)%nat.

(** The commit record a run of the scan ends with. *)
Definition last_rec (r : sdb_wal_commit_rec) (l : list sealed_txn) : sdb_wal_commit_rec := foldl (fun _ t => st_rec t) r l.

Definition scan_rec (sc : scan) : sdb_wal_commit_rec :=
  {| cr_txn_id := sc_last_lsn sc; cr_frame_count := 0; cr_next_page_id := sc_next_page_id sc; cr_freelist_page := sc_freelist sc |}.

Lemma scan_run_sealed (g : gate) (buffer : bytes) (sc sc' : scan) (l : list sealed_txn) :
  scan_run avx2 g sb key buffer sc l sc' ->
  forall lsn, 0 <= lsn -> sc_expected sc = lsn + 1 -> lsn + Z.of_nat (length buffer - sc_cursor sc) < 2 ^ 64 - 2 ->
  let r := last_rec (scan_rec sc) l in
  sealed_log (g_record_header_size g) buffer (sc_cursor sc) lsn (sc_next_page_id sc) l
  /\ sc_last_lsn sc' = cr_txn_id r /\ sc_next_page_id sc' = cr_next_page_id r /\ sc_freelist sc' = cr_freelist_page r
  /\ sc_applied sc' = sc_applied sc || negb (bool_decide (l = []))
  /\ (l <> [] -> cr_txn_id r = lsn + Z.of_nat (length l)).
Proof.
  induction 1 as [sc _|sc rec count l sc' Hf Hv Hrun IH]; intros lsn Hl0 Hx Hb r.
  { cbn; rewrite orb_false_r; done. }
  destruct (find_commit_found _ _ _ _ _ _ Hps Hf) as [Hc Hfit Hs Ht Hn Hfr].
  pose proof (sealed_commit_count _ _ _ _ _ Hs) as <-.
  assert (Hn58 : 1 <= Z.of_nat (Z.to_nat (cr_frame_count rec)) <= 2 ^ 58) by (unfold SDB_WAL_MAX_RECORDS in Hc; lia).
  destruct (validate_inv _ _ _ _ _ _ Hn58 Hv) as [HF HN].
  destruct (IH (lsn + 1)) as (Hsl & E1 & E2 & E3 & Ha & Hlast); cbn [scan_next sc_expected sc_cursor]; unfold SDB_WAL_COMMIT_SIZE.
  - lia.
  - rewrite Ht, Hx, wrap_small by lia; lia.
  - lia.
  - cbn [scan_next sc_cursor sc_next_page_id] in Hsl; rewrite Ht, Hx in HF.
    split; [cbn [sealed_log st_rec st_pages]; rewrite Ht, Hx; done|].
    assert (Er : cr_txn_id (last_rec (scan_rec (scan_next sc (g_record_header_size g + ps) rec (cr_frame_count rec) true)) l) = cr_txn_id r
      /\ cr_next_page_id (last_rec (scan_rec (scan_next sc (g_record_header_size g + ps) rec (cr_frame_count rec) true)) l) = cr_next_page_id r
      /\ cr_freelist_page (last_rec (scan_rec (scan_next sc (g_record_header_size g + ps) rec (cr_frame_count rec) true)) l) = cr_freelist_page r)
      by (destruct l; done).
    destruct Er as (F1 & F2 & F3); rewrite E1, E2, E3, F1, F2, F3; do 3 (split; [done|]); split.
    + rewrite Ha; cbn [scan_next sc_applied]; by rewrite !orb_true_r.
    + intros _; destruct l as [|t l]; [cbn; rewrite Ht, Hx; lia|]; rewrite <- F1, Hlast by done; cbn [length]; lia.
Qed.
End Sealed.

(** ** Recovery of an arbitrary log *)

Lemma read_log_spec (wal : sdb_file) :
  match read_log wal with
  | Ok (Some buffer) => buffer = f_data wal /\ 64 < Z.of_nat (length (f_data wal)) <= SDB_WAL_MAX_BYTES
  | Ok None => Z.of_nat (length (f_data wal)) <= 64
  | Err _ => True
  end.
Proof.
  unfold read_log; destruct (file_size_spec wal) as (r & f & -> & (Hd & _) & [->| ->]); [|done].
  rewrite Z.gtb_ltb; destruct (Z.ltb_spec SDB_WAL_MAX_BYTES (Z.of_nat (length (f_data wal)))); [done|].
  change (Z.of_nat SDB_WAL_HEADER_SIZE) with 64; destruct (Z.leb_spec (Z.of_nat (length (f_data wal))) 64); [done|].
  unfold SDB_WAL_MAX_BYTES in *; rewrite Nat2Z.id.
  destruct (read_full_spec 0 (length (f_data wal)) f) as (r & f' & -> & _ & [->|[-> _]]); [lia|unfold INT64_MAX; lia| |done].
  unfold read_outcome; rewrite Hd; case_bool_decide; [|done]; split; [|done]; by apply slice_all.
Qed.

Lemma guard_page_size (page_size : Z) :
  (page_size <? SDB_MIN_PAGE_SIZE) || (page_size >? SDB_MAX_PAGE_SIZE) || negb (Z.land page_size (page_size - 1) =? 0) = false ->
  4096 <= page_size <= 65536.
Proof. unfold SDB_MIN_PAGE_SIZE, SDB_MAX_PAGE_SIZE; intros; zbool_hyps; lia. Qed.

(** Recovery of the contents of a log either fails or amounts to a scan. *)
Lemma recover_buffer_inv (avx2 : bool) (sb : sdb_superblock_v1) (key : option bytes) (buffer : bytes) (db : sdb_file) (r : result recovery) (db' : sdb_file) :
  recover_buffer avx2 sb key buffer db = Some (r, db') ->
  (exists e, r = Err e)
  \/ exists g sc db1 out, identity_gate sb buffer = Ok g
       /\ recover_loop (S (length buffer)) avx2 g sb key buffer (scan_start sb) db = Some (Ok sc, db1) /\ r = Ok out
       /\ out = {| re_lsn := sc_last_lsn sc; re_next_page_id := sc_next_page_id sc; re_freelist := sc_freelist sc; re_replayed := sc_applied sc |}
       /\ f_data db' = f_data db1
       /\ (if sc_applied sc then f_durable db' = f_data db' /\ f_dirty db' = [] else db' = db1).
Proof.
  unfold recover_buffer; destruct (identity_gate sb buffer) as [g|e] eqn:Eg; [|intros [= <- <-]; left; eauto].
  case_if; [intros [= <- <-]; left; eauto|].
  destruct (recover_loop _ _ _ _ _ _ _ _) as [[[sc|e] db1]|] eqn:El; cbn [mbind option_bind]; [|intros [= <- <-]; left; eauto|done].
  destruct (sc_applied sc) eqn:Ea.
  - unfold mbind, fileM_bind; destruct (sync_spec db1) as (rs & f & -> & [(-> & Hd & Hdu & Hdi & _)|(-> & _)]).
    + intros [= <- <-]; right; eexists g, sc, db1, _; split; [done|]; split; [done|]; split; [done|]; split; [by rewrite Ea|].
      rewrite Ea, Hdu, Hd; done.
    + intros [= <- <-]; left; eauto.
  - intros [= <- <-]; right; eexists g, sc, db1, _; split; [done|]; split; [done|]; split; [done|]; split; [by rewrite Ea|].
    by rewrite Ea.
Qed.

(** C8: Recovery trusts nothing but sealed transactions.  Whatever the log contains
    and whatever the kernel does, when [sdb_wal_recover_all] succeeds the data file is
    the old one with the pages of a sequence of whole transactions written in order:
    each transaction is sealed by a commit record with the CRC of its frames, they are
    numbered without a gap from the one after the checkpoint, their pages are distinct,
    in range, well formed, stamped with the transaction and, in an encrypted database,
    opened by its key.  What is reported (LSN, page count, free list, whether anything
    was replayed) is that of the last of them, and what was replayed is durable. *)
Theorem wal_recovery_sound (avx2 : bool) (wal db db' : sdb_file) (sb : sdb_superblock_v1) (key : option bytes) (out : recovery) :
  0 <= sb_checkpoint_lsn sb < 2 ^ 63 ->
  sdb_wal_recover_all avx2 (Ok wal) sb key db = Some (Ok out, db') ->
  exists rh l,
    sealed_log avx2 sb key rh (f_data wal) SDB_WAL_HEADER_SIZE (sb_checkpoint_lsn sb) (sb_next_page_id sb) l
    /\ f_data db' = replay (Z.to_nat (sb_page_size sb)) (f_data db) (log_pages l)
    /\ re_lsn out = sb_checkpoint_lsn sb + Z.of_nat (length l)
    /\ re_next_page_id out = cr_next_page_id (last_rec (scan_rec (scan_start sb)) l)
    /\ re_freelist out = cr_freelist_page (last_rec (scan_rec (scan_start sb)) l)
    /\ re_replayed out = negb (bool_decide (l = []))
    /\ (l <> [] -> f_durable db' = f_data db' /\ f_dirty db' = []).
Proof.
  intros Hlsn; unfold sdb_wal_recover_all; case_if; [done|]; apply guard_page_size in Heqb; case_if; [done|].
  pose proof (read_log_spec wal) as Hrl; destruct (read_log wal) as [[buffer|]|e]; [|intros [= <- <-]; exists 8%nat, []; cbn; naive_solver lia|done].
  destruct Hrl as [-> Hsz]; intros H; apply recover_buffer_inv in H as [[e He]|(g & sc & db1 & out' & _ & Hl & [= <-] & -> & Hd & Ha)]; [done|].
  unfold SDB_WAL_MAX_BYTES in Hsz.
  pose proof Hl as Hl'; apply recover_loop_sound in Hl as (l & Hrun & Ed & _); cbn [scan_start sc_expected sc_cursor]; [|lia|rewrite wrap_small by lia; lia|rewrite wrap_small by lia; lia].
  apply scan_run_sealed with (lsn := sb_checkpoint_lsn sb) in Hrun as (Hs & E1 & E2 & E3 & Eap & Hlast); cbn [scan_start sc_expected sc_cursor];
    [|lia|lia|rewrite wrap_small by lia; lia|lia].
  cbn [scan_start sc_applied orb] in Eap; exists (g_record_header_size g), l; cbn [re_lsn re_next_page_id re_freelist re_replayed].
  split; [done|]; split; [by rewrite Hd, Ed|]; split; [|do 3 (split; [done|]); intros Hne].
  - rewrite E1; destruct l as [|t l]; [cbn; lia|by apply Hlast].
  - rewrite Eap, bool_decide_eq_false_2 in Ha by done; done.
Qed.

(** C27: Recovery terminates.  On every log, however damaged, [sdb_wal_recover_all]
    returns: no probe of the table of page ids runs forever, and the scan ends, since
    every transaction it accepts moves its cursor; any number of iterations beyond the
    length of the log gives the same result. *)
Theorem wal_recovery_terminates (avx2 : bool) (wal : result sdb_file) (sb : sdb_superblock_v1) (key : option bytes) (db : sdb_file) :
  (exists r db', sdb_wal_recover_all avx2 wal sb key db = Some (r, db'))
  /\ (4096 <= sb_page_size sb ->
      forall g buffer sc, exists out, forall fuel, (length buffer < fuel)%nat ->
        recover_loop fuel avx2 g sb key buffer sc db = Some out).
Proof.
  assert (H : forall g buffer sc, 4096 <= sb_page_size sb -> exists out, forall fuel, (length buffer < fuel)%nat ->
        recover_loop fuel avx2 g sb key buffer sc db = Some out).
  { intros g buffer sc Hps; apply recover_loop_total; lia. }
  split; [|intros; by apply H]; unfold sdb_wal_recover_all; case_if; [eauto|]; apply guard_page_size in Heqb; case_if; [eauto|].
  destruct wal as [wal|e]; [|destruct e; eauto]; destruct (read_log wal) as [[buffer|]|e]; [|eauto..].
  unfold recover_buffer; destruct (identity_gate sb buffer) as [g|e]; [|eauto]; case_if; [eauto|].
  destruct (H g buffer (scan_start sb)) as [[r db1] E]; [lia|]; rewrite E by lia; cbn [mbind option_bind].
  destruct r as [sc|e]; [|eauto]; destruct (sc_applied sc); [|eauto].
  match goal with |- context [Some ?x] => destruct x as [r2 db2] end; eauto.
Qed.

Lemma wal_recovery_terminates_witness :
  exists out, forall fuel, (5 < fuel)%nat ->
    recover_loop fuel true (legacy_gate true) example_superblock None (zeros 5) (scan_start example_superblock)
      {| f_data := []; f_durable := []; f_dirty := []; f_script := [] |} = Some out.
Proof.
  exact (proj2 (wal_recovery_terminates true (Err SDB_E_NOT_FOUND) example_superblock None
    {| f_data := []; f_durable := []; f_dirty := []; f_script := [] |}) ltac:(by vm_compute) (legacy_gate true) (zeros 5)
    (scan_start example_superblock)).
Defined.

(** ** A log of appended transactions *)

Record wal_txn := {
  wt_sb : sdb_superblock_v1;
  wt_id : Z;
  wt_pages : list sdb_wal_page
}.

Definition wt_bytes (t : wal_txn) : bytes := txn_bytes (wt_sb t) (wt_id t) (wt_pages t).
Definition wt_rec (t : wal_txn) : sdb_wal_commit_rec := txn_commit (wt_sb t) (wt_id t) (wt_pages t).
Definition log_bytes (txns : list wal_txn) : bytes := concat (wt_bytes <$> txns).

Definition v5_gate (bound : bool) : gate :=
  {| g_identity_bound := bound; g_self_describing := true; g_record_header_size := SDB_WAL_RECORD_HEADER_SIZE_V5 |}.

Section Log.
Context (avx2 : bool) (sb : sdb_superblock_v1) (key : option bytes).

Abbreviation ps := (Z.to_nat (sb_page_size sb)).

(** A transaction as the pager appends it: accepted by the encoder, of this database,
    with the next transaction number and a page count that only grows; its pages open
    under the key. *)
Record txn_ok (off lsn next : Z) (t : wal_txn) : Prop := {
  to_size : sb_page_size (wt_sb t) = sb_page_size sb;
  to_file : sb_file_id (wt_sb t) = sb_file_id sb;
  to_id : wt_id t = lsn + 1;
  to_typed : txn_typed (wt_sb t) (wt_id t) (wt_pages t);
  to_accepted : txn_accepted (wt_sb t) off (wt_id t) (wt_pages t);
  to_next : next <= sb_next_page_id (wt_sb t) < 2 ^ 64;
  to_freelist : 0 <= sb_freelist_page (wt_sb t) < 2 ^ 64
    /\ (sb_freelist_page (wt_sb t) = 0 \/ sb_freelist_page (wt_sb t) < sb_next_page_id (wt_sb t));
  to_space : DATA_OFFSET + sb_next_page_id (wt_sb t) * sb_page_size sb <= INT64_MAX;
  to_opens : Forall (fun p => exists view, sdb_page_decode (wp_bytes p) (sb_page_size sb) (wp_page_id p) = Ok view
                                 /\ frame_opens avx2 sb key ps view = true) (wt_pages t)
}.

Definition txn_size (t : wal_txn) : Z := (40 + sb_page_size sb) * Z.of_nat (length (wt_pages t)) + 44.

Fixpoint log_ok (off lsn next : Z) (txns : list wal_txn) : Prop :=
  match txns with
  | [] => True
  | t :: txns => txn_ok off lsn next t /\ log_ok (off + txn_size t) (lsn + 1) (sb_next_page_id (wt_sb t)) txns
  end.

Hypothesis Hsize : 4096 <= sb_page_size sb <= 65536.
Hypothesis Hfile : length (sb_file_id sb) = 16%nat.

Lemma length_frames (s : sdb_superblock_v1) (txn count : Z) (pages : list sdb_wal_page) :
  sb_page_size s = sb_page_size sb -> sb_file_id s = sb_file_id sb -> txn_typed s txn pages ->
  forall index, length (encode_frames s txn count index pages) = (length pages * (40 + ps))%nat.
Proof.
  intros Es Ef [Ht HF]; induction HF as [|p pages [Hid Hl] HF IH]; intros index; cbn [encode_frames length]; [done|].
  rewrite length_app, length_encode_frame, IH, Es by (done || by rewrite Ef); lia.
Qed.

Lemma frame_pages_encoded (s : sdb_superblock_v1) (txn count : Z) (pages : list sdb_wal_page) :
  sb_page_size s = sb_page_size sb -> sb_file_id s = sb_file_id sb -> txn_typed s txn pages ->
  forall index rest, frame_pages 40 ps (length pages) (encode_frames s txn count index pages ++ rest) = pages.
Proof.
  intros Es Ef [Ht HF]; induction HF as [|p pages [Hid Hl] HF IH]; intros index rest; cbn [encode_frames length frame_pages]; [done|].
  rewrite <- app_assoc; set (r := encode_frames _ _ _ _ _ ++ rest).
  destruct (frame_fields s txn count index p) with (rest := r) as (F0 & _ & _ & _ & _ & Fp & Fd); [by rewrite Ef|done..|].
  rewrite Es in Fp, Fd; unfold frame_page; rewrite F0, Fp, Fd; unfold r; rewrite IH; by destruct p.
Qed.

(** ** Reading what was encoded *)

Lemma slice_shift (a b : bytes) (k n : nat) : slice (a ++ b) (length a + k) n = slice b k n.
Proof. unfold slice; by rewrite drop_app_add. Qed.

Lemma slice_head (a b : bytes) (n : nat) : n = length a -> slice (a ++ b) 0 n = a.
Proof. intros ->; unfold slice; by rewrite drop_0, take_app_length. Qed.

Lemma read_u32_shift (a b : bytes) (k : nat) : sdb_read_u32_le (a ++ b) (length a + k) = sdb_read_u32_le b k.
Proof. by rewrite !sdb_read_u32_le_spec, slice_shift. Qed.

(** The validation accepts what the encoder wrote. *)
Lemma validate_encoded (s : sdb_superblock_v1) (txn count : Z) (pages : list sdb_wal_page) :
  sb_page_size s = sb_page_size sb -> sb_file_id s = sb_file_id sb -> txn_typed s txn pages ->
  Forall (page_logged s txn) pages ->
  Forall (fun p => exists view, sdb_page_decode (wp_bytes p) (sb_page_size sb) (wp_page_id p) = Ok view
                     /\ frame_opens avx2 sb key ps view = true) pages ->
  forall index rest slots c, table_wf slot_id c slots -> Z.of_nat (length (ids slots)) + Z.of_nat (length pages) < c ->
  NoDup ((wp_page_id <$> pages) ++ ids slots) ->
  validate_loop avx2 sb key ps 40 true txn (sb_next_page_id s) count (length pages) index
    (encode_frames s txn count index pages ++ rest) slots c = mem_ret tt.
Proof.
  intros Es Ef [Ht HT] HL HO; induction pages as [|p pages IH]; intros index rest slots c Hw Hl HN; [done|].
  apply Forall_cons_iff in HT as [[Hid Hlen] HT]; apply Forall_cons_iff in HL as [(H0 & Hnx & view & Hd & Hv) HL].
  apply Forall_cons_iff in HO as [(view' & Hd' & Ho) HO].
  cbn [length] in *; cbn [encode_frames validate_loop fmap list_fmap app] in *; rewrite <- app_assoc.
  set (r := encode_frames _ _ _ _ _ ++ rest).
  destruct (frame_fields s txn count index p) with (rest := r) as (F0 & F8 & F16 & F20 & F24 & Fp & Fd); [by rewrite Ef|done..|].
  rewrite Es in Fp, Fd; unfold frame_meta_bad, frame_page, SDB_FILE_ID_SIZE; rewrite F0, F8, F16, F20, F24, Fp, Fd, Ef.
  rewrite !Z.eqb_refl, (bool_decide_eq_true_2 (sb_file_id sb = _)), andb_false_r by done; cbn [negb orb andb].
  rewrite (proj2 (Z.eqb_neq _ _)), Z.geb_leb, (proj2 (Z.leb_gt _ _)) by (done || lia); cbn [orb].
  rewrite (slice_all (wp_bytes p)), Es in Hd by done.
  assert (view' = view) as -> by congruence.
  replace (Z.of_nat ps) with (sb_page_size sb) by lia; rewrite Hd.
  destruct (id_set_insert_spec c slots (wp_page_id p)) as [[Hin _]|(_ & slots' & -> & Hw' & HP)]; [done|lia|done|..].
  { apply list.NoDup_cons in HN as [HN _]; exfalso; apply HN, elem_of_app; by right. }
  rewrite Hv, Z.eqb_refl, Ho; cbn [negb]; apply IH; [done|done|done|done|rewrite HP; cbn [length]; lia|].
  by rewrite HP, <- Permutation_middle.
Qed.

Section Txn.
Context (off lsn next : Z) (t : wal_txn).
Hypothesis Ht : txn_ok off lsn next t.

Abbreviation frames := (txn_frames (wt_sb t) (wt_id t) (wt_pages t)).
Abbreviation count := (length (wt_pages t)).

Lemma txn_count : 1 <= Z.of_nat count <= SDB_WAL_MAX_RECORDS.
Proof. apply (to_accepted _ _ _ _ Ht). Qed.

Lemma length_txn_frames : length frames = (count * (40 + ps))%nat.
Proof. apply length_frames; apply Ht. Qed.

Lemma length_wt_bytes : Z.of_nat (length (wt_bytes t)) = txn_size t.
Proof.
  unfold wt_bytes, txn_bytes, txn_size; rewrite length_app, length_encode_commit, length_txn_frames.
  unfold SDB_WAL_COMMIT_SIZE; lia.
Qed.

Lemma txn_rec_typed : commit_typed (wt_rec t).
Proof.
  pose proof (to_typed _ _ _ _ Ht) as [? _]; pose proof txn_count as Hc; unfold SDB_WAL_MAX_RECORDS in Hc.
  pose proof (to_freelist _ _ _ _ Ht) as [? _]; pose proof (to_next _ _ _ _ Ht).
  pose proof (to_accepted _ _ _ _ Ht) as (_ & _ & _ & HF & _).
  assert (0 < sb_next_page_id (wt_sb t)).
  { pose proof (to_typed _ _ _ _ Ht) as [_ HT]; destruct (wt_pages t) as [|p l]; [cbn in Hc; lia|].
    apply Forall_cons_iff in HF as [(? & ? & _) _]; apply Forall_cons_iff in HT as [[? _] _]; lia. }
  unfold commit_typed, wt_rec, txn_commit; cbn [cr_txn_id cr_frame_count cr_next_page_id cr_freelist_page]; lia.
Qed.

Lemma txn_sealed (pre rest : bytes) :
  sealed_commit (pre ++ wt_bytes t ++ rest) (length pre) (40 + ps) (Z.of_nat count) = Some (wt_rec t).
Proof.
  unfold sealed_commit, wt_bytes, txn_bytes; rewrite Nat2Z.id, <- app_assoc.
  set (crec := sdb_wal_encode_commit_rec _ _).
  assert (Ec : slice (pre ++ frames ++ crec ++ rest) (length pre + count * (40 + ps)) SDB_WAL_COMMIT_SIZE = crec).
  { rewrite slice_shift, <- length_txn_frames, <- (Nat.add_0_r (length frames)), slice_shift.
    apply slice_head; unfold crec; by rewrite length_encode_commit. }
  assert (Ef : slice (pre ++ frames ++ crec ++ rest) (length pre) (count * (40 + ps)) = frames).
  { rewrite <- (Nat.add_0_r (length pre)), slice_shift; apply slice_head; by rewrite length_txn_frames. }
  pose proof (sdb_crc32_range frames) as Hr; unfold u32 in Hr.
  destruct (decode_encode_commit (wt_rec t) (sdb_crc32 frames) txn_rec_typed) as [E0 Ed]; [lia|].
  rewrite Ec, Ef; unfold crec; fold (wt_rec t); rewrite E0, Ed, bool_decide_eq_true_2, Z.eqb_refl by done.
  unfold wt_rec, txn_commit; cbn [cr_frame_count]; by rewrite Z.eqb_refl.
Qed.

(** The first frame announces how many there are. *)
Lemma declared_frames (rest : bytes) : sdb_read_u32_le (frames ++ rest) 20 = Z.of_nat count.
Proof.
  pose proof txn_count as Hc; unfold SDB_WAL_MAX_RECORDS in Hc; pose proof (to_typed _ _ _ _ Ht) as [Hid HT].
  unfold txn_frames; destruct (wt_pages t) as [|p l]; [cbn in Hc; lia|]; cbn [encode_frames].
  apply Forall_cons_iff in HT as [[Hp Hlen] _]; rewrite <- app_assoc.
  destruct (frame_fields (wt_sb t) (wt_id t) (Z.of_nat (length (p :: l))) 0 p) with
    (rest := encode_frames (wt_sb t) (wt_id t) (Z.of_nat (length (p :: l))) (0 + 1) l ++ rest) as (_ & _ & _ & F & _).
  - by rewrite (to_file _ _ _ _ Ht).
  - done.
  - done.
  - done.
  - rewrite F; apply wrap_small; lia.
Qed.

Lemma txn_found (pre rest : bytes) (sc : scan) (bound : bool) :
  sc_cursor sc = length pre -> sc_expected sc = lsn + 1 -> sc_next_page_id sc = next ->
  find_commit (v5_gate bound) ps (pre ++ wt_bytes t ++ rest) sc = Some (wt_rec t, Z.of_nat count).
Proof.
  intros Ec Ex En; pose proof txn_count as Hc; pose proof (txn_sealed pre rest) as Hs.
  pose proof (to_freelist _ _ _ _ Ht) as [_ Hf]; pose proof (to_next _ _ _ _ Ht); pose proof (to_id _ _ _ _ Ht) as Hid.
  assert (Hl : length (wt_bytes t) = (count * (40 + ps) + 44)%nat).
  { unfold wt_bytes, txn_bytes; by rewrite length_app, length_encode_commit, length_txn_frames. }
  unfold find_commit; cbn [v5_gate g_record_header_size g_self_describing].
  unfold SDB_WAL_RECORD_HEADER_SIZE_V5, SDB_WAL_COMMIT_SIZE, SDB_WAL_MAX_RECORDS in *; rewrite Ec, !length_app, Hl.
  rewrite !bool_decide_eq_false_2 by nia.
  unfold find_declared, SDB_WAL_COMMIT_SIZE, SDB_WAL_MAX_RECORDS; rewrite Ec, read_u32_shift, !length_app, Hl.
  assert (Ed : sdb_read_u32_le (wt_bytes t ++ rest) 20 = Z.of_nat count).
  { unfold wt_bytes, txn_bytes; rewrite <- app_assoc; apply declared_frames. }
  rewrite Ed.
  set (q := Z.of_nat ((_ - 44) / _)%nat); assert (Hq : Z.of_nat count <= q).
  { unfold q; apply Nat2Z.inj_le, Nat.div_le_lower_bound; lia. }
  rewrite (proj2 (Z.eqb_neq _ _)), !Z.gtb_ltb, !(proj2 (Z.ltb_ge _ _)) by lia; cbn [orb].
  rewrite Hs; cbn [mbind option_bind].
  rewrite Ex, En; unfold wt_rec, txn_commit; cbn [cr_txn_id cr_next_page_id cr_freelist_page]; rewrite Hid, Z.eqb_refl.
  rewrite (proj2 (Z.ltb_ge _ _)) by lia; cbn [negb orb].
  destruct Hf as [->|Hf]; [done|]; rewrite Z.geb_leb, (proj2 (Z.leb_gt _ _)), andb_false_r by lia; done.
Qed.

Lemma txn_frames_at (pre rest : bytes) (sc : scan) (bound : bool) :
  sc_cursor sc = length pre -> txn_at (v5_gate bound) sb (pre ++ wt_bytes t ++ rest) sc (Z.of_nat count) = frames.
Proof.
  intros Ec; unfold txn_at; rewrite Ec, Nat2Z.id, <- (Nat.add_0_r (length pre)), slice_shift.
  unfold wt_bytes, txn_bytes; rewrite <- app_assoc; apply slice_head; by rewrite length_txn_frames.
Qed.

Lemma txn_validates (pre rest : bytes) (sc : scan) (bound : bool) :
  sc_cursor sc = length pre ->
  txn_valid avx2 (v5_gate bound) sb key (pre ++ wt_bytes t ++ rest) sc (wt_rec t) (Z.of_nat count) = mem_ret tt.
Proof.
  intros Ec; unfold txn_valid; rewrite txn_frames_at by done; unfold sdb_wal_validate_frames; rewrite Nat2Z.id.
  pose proof txn_count as Hc; unfold SDB_WAL_MAX_RECORDS in Hc.
  destruct (id_set_create_spec (Z.of_nat count)) as (slots & c & -> & Hw & H0 & Hcap); [lia|].
  destruct (to_accepted _ _ _ _ Ht) as (_ & _ & _ & HF & HN).
  cbn [mbind memM_bind v5_gate g_record_header_size g_self_describing].
  unfold txn_frames; rewrite <- (app_nil_r (encode_frames _ _ _ _ _)).
  apply validate_encoded; try apply Ht; try done; [rewrite H0; cbn; lia|by rewrite H0, app_nil_r].
Qed.

Lemma txn_pages_at (pre rest : bytes) (sc : scan) (bound : bool) :
  sc_cursor sc = length pre ->
  frame_pages SDB_WAL_RECORD_HEADER_SIZE_V5 ps (Z.to_nat (Z.of_nat count)) (txn_at (v5_gate bound) sb (pre ++ wt_bytes t ++ rest) sc (Z.of_nat count))
  = wt_pages t.
Proof.
  intros Ec; rewrite txn_frames_at, Nat2Z.id by done; unfold txn_frames; rewrite <- (app_nil_r (encode_frames _ _ _ _ _)).
  apply frame_pages_encoded; apply Ht.
Qed.

(** Replaying it into a data file the kernel serves. *)
Lemma txn_applies (pre rest : bytes) (sc : scan) (bound : bool) (db : sdb_file) :
  sc_cursor sc = length pre -> reliable db ->
  exists db', txn_apply (v5_gate bound) sb (pre ++ wt_bytes t ++ rest) sc (wt_rec t) (Z.of_nat count) db = (Ok tt, db')
    /\ reliable db' /\ f_data db' = replay ps (f_data db) (wt_pages t) /\ f_durable db' = f_durable db.
Proof.
  intros Ec Hr; unfold txn_apply, sdb_wal_apply_frames.
  pose proof (txn_pages_at pre rest sc bound Ec) as Hp; rewrite Nat2Z.id in *.
  rewrite txn_frames_at in * by done; cbn [v5_gate g_record_header_size].
  destruct (apply_loop_total ps (cr_txn_id (wt_rec t)) (cr_next_page_id (wt_rec t)) SDB_WAL_RECORD_HEADER_SIZE_V5) with
    (n := count) (cursor := frames) (db := db) as (db' & E & Hr' & Ed & Edu).
  - lia.
  - pose proof (to_space _ _ _ _ Ht); unfold wt_rec, txn_commit; cbn [cr_next_page_id]; lia.
  - rewrite length_txn_frames; done.
  - rewrite Hp; destruct (to_accepted _ _ _ _ Ht) as (_ & _ & _ & HF & _); destruct (to_typed _ _ _ _ Ht) as [_ HT].
    apply Forall_forall; intros p Hin; apply List.Forall_forall with (x := p) in HF as (H0 & Hn & view & Hd & Hv); [|done].
    apply List.Forall_forall with (x := p) in HT as [Hi Hl]; [|done].
    split; [cbn; lia|]; exists view; rewrite (slice_all (wp_bytes p)) in Hd by done.
    rewrite (to_size _ _ _ _ Ht) in Hd; replace (Z.of_nat ps) with (sb_page_size sb) by lia; done.
  - done.
  - exists db'; rewrite Hp in Ed; unfold mbind, fileM_bind; rewrite E; done.
Qed.
End Txn.

(** The scan after the transactions of a log. *)
Definition scan_after (sc : scan) (txns : list wal_txn) : scan :=
  foldl (fun sc t => scan_next sc (40 + ps) (wt_rec t) (Z.of_nat (length (wt_pages t))) true) sc txns.

Lemma log_recovered (bound : bool) (tail : bytes) (txns : list wal_txn) :
  forall fuel pre off lsn next sc db, log_ok off lsn next txns -> sc_cursor sc = length pre -> sc_expected sc = lsn + 1 ->
  sc_next_page_id sc = next -> 0 <= sb_checkpoint_lsn sb <= lsn -> lsn + Z.of_nat (length txns) < 2 ^ 64 - 1 -> reliable db ->
  exists db', reliable db' /\ f_data db' = replay ps (f_data db) (concat (wt_pages <$> txns)) /\ f_durable db' = f_durable db
    /\ recover_loop (length txns + fuel) avx2 (v5_gate bound) sb key (pre ++ log_bytes txns ++ tail) sc db
       = recover_loop fuel avx2 (v5_gate bound) sb key (pre ++ log_bytes txns ++ tail) (scan_after sc txns) db'.
Proof.
  induction txns as [|t txns IH]; intros fuel pre off lsn next sc db Hlog Ec Ex En Hl Hb Hr; [by exists db|].
  destruct Hlog as [Ht Hlog]; cbn [length Nat.add] in *; rewrite recover_loop_step.
  assert (Eb : pre ++ log_bytes (t :: txns) ++ tail = pre ++ wt_bytes t ++ log_bytes txns ++ tail)
    by (unfold log_bytes; cbn [fmap list_fmap concat]; by rewrite <- app_assoc).
  rewrite Eb, (txn_found off lsn next t Ht pre _ sc bound Ec Ex En), (txn_validates off lsn next t Ht pre _ sc bound Ec).
  cbn [mem_ret]; replace (cr_txn_id (wt_rec t)) with (lsn + 1) by (symmetry; apply (to_id _ _ _ _ Ht)).
  rewrite Z.gtb_ltb, (proj2 (Z.ltb_lt _ _)) by lia; cbv zeta.
  destruct (txn_applies off lsn next t Ht pre (log_bytes txns ++ tail) sc bound db Ec Hr) as (db1 & E & Hr1 & Ed & Edu); rewrite E.
  set (sc1 := scan_next sc _ (wt_rec t) _ true).
  destruct (IH fuel (pre ++ wt_bytes t) (off + txn_size t) (lsn + 1) (sb_next_page_id (wt_sb t)) sc1 db1) as (db' & Hr' & Ed' & Edu' & E').
  - done.
  - unfold sc1; cbn [scan_next sc_cursor v5_gate g_record_header_size]; rewrite length_app, Ec, Nat2Z.id.
    unfold wt_bytes, txn_bytes; rewrite length_app, length_encode_commit, (length_txn_frames off lsn next t Ht).
    unfold SDB_WAL_RECORD_HEADER_SIZE_V5; lia.
  - unfold sc1; cbn [scan_next sc_expected]; replace (cr_txn_id (wt_rec t)) with (lsn + 1) by (symmetry; apply (to_id _ _ _ _ Ht)).
    apply wrap_small; lia.
  - done.
  - lia.
  - lia.
  - done.
  - exists db'; split; [done|]; cbn [fmap list_fmap concat]; rewrite replay_app, <- Ed; rewrite Edu' , Edu, Ed'.
    do 2 (split; [done|]); rewrite <- app_assoc in E'; exact E'.
Qed.

(** ** The identity header of this database opens the gate *)

Lemma gate_of_header (s : sdb_superblock_v1) (txn count : Z) (rest : bytes) :
  sb_page_size s = sb_page_size sb -> sb_file_id s = sb_file_id sb -> 0 <= count < 2 ^ 32 -> 0 <= txn < 2 ^ 64 ->
  identity_gate sb (encode_header SDB_WAL_VERSION_V5 s txn count ++ rest) = Ok (v5_gate true).
Proof.
  intros Es Ef Hc Ht; pose proof (length_encode_header SDB_WAL_VERSION_V5 s txn count) as Hl; unfold SDB_WAL_HEADER_SIZE in Hl.
  destruct (header_fields SDB_WAL_VERSION_V5 s txn count) as (F0 & F4 & F6 & F8 & F16 & F20 & F24 & F60);
    [done|lia|done|done|by rewrite Ef|].
  set (h := encode_header _ _ _ _) in *.
  assert (Hs : forall off n, (off + n <= 64)%nat -> slice (h ++ rest) off n = slice h off n).
  { intros off n Hn; unfold slice; rewrite drop_app_le, take_app_le by (rewrite ?length_drop; lia); done. }
  unfold identity_gate, header_crc_ok, SDB_WAL_HEADER_SIZE, SDB_FILE_ID_SIZE.
  rewrite !sdb_read_u16_le_spec, !sdb_read_u32_le_spec, !Hs by lia.
  rewrite <- !sdb_read_u16_le_spec, <- !sdb_read_u32_le_spec, (slice_all h) by done.
  rewrite F0, F4, F6, F16, F24, F60, Es, Ef, !Z.eqb_refl, !bool_decide_eq_true_2 by done.
  assert (Hz : forallb (fun b => bool_decide (b = x00)) h = false).
  { apply not_true_is_false; intros H; apply all_zero_zeros in H; rewrite H in F0; by vm_compute in F0. }
  by rewrite Hz.
Qed.

(** ** Where a log ends *)

(** A tail that holds less than the transaction it began is not a transaction. *)
Lemma torn_tail_stops (off lsn next : Z) (t : wal_txn) (pre tail : bytes) (sc : scan) (bound : bool) :
  txn_ok off lsn next t -> sc_cursor sc = length pre -> tail `prefix_of` wt_bytes t -> tail <> wt_bytes t ->
  find_commit (v5_gate bound) ps (pre ++ tail) sc = None.
Proof.
  intros Ht Ec [more Em] Hne; pose proof (length_txn_frames off lsn next t Ht) as Hlf.
  assert (Hl : (length tail < length (wt_pages t) * (40 + ps) + 44)%nat).
  { assert (length (wt_bytes t) = length (wt_pages t) * (40 + ps) + 44)%nat
      by (unfold wt_bytes, txn_bytes; by rewrite length_app, length_encode_commit, Hlf).
    assert (length (wt_bytes t) = length tail + length more)%nat by (by rewrite Em, length_app).
    destruct more; [rewrite app_nil_r in Em; congruence|cbn [length] in *; lia]. }
  unfold find_commit; cbn [v5_gate g_record_header_size g_self_describing].
  unfold SDB_WAL_RECORD_HEADER_SIZE_V5, SDB_WAL_COMMIT_SIZE; rewrite Ec, length_app.
  case_bool_decide; [done|]; case_bool_decide as Hr; [done|].
  unfold find_declared, SDB_WAL_COMMIT_SIZE; rewrite Ec, read_u32_shift, length_app.
  assert (Ed : sdb_read_u32_le tail 20 = Z.of_nat (length (wt_pages t))).
  { rewrite <- (declared_frames off lsn next t Ht (sdb_wal_encode_commit_rec (wt_rec t) (sdb_crc32 (txn_frames (wt_sb t) (wt_id t) (wt_pages t))))).
    change (txn_frames _ _ _ ++ _) with (wt_bytes t); rewrite Em, !sdb_read_u32_le_spec, slice_app_l by lia; done. }
  rewrite Ed; set (q := Z.of_nat ((_ - 44) / _)%nat); assert (Hq : q < Z.of_nat (length (wt_pages t))).
  { unfold q; apply Nat2Z.inj_lt, Nat.Div0.div_lt_upper_bound; lia. }
  rewrite (Z.gtb_ltb _ q), (proj2 (Z.ltb_lt _ _)), !orb_true_r by lia; done.
Qed.

Lemma empty_tail_stops (pre : bytes) (sc : scan) (g : gate) : sc_cursor sc = length pre -> find_commit g ps pre sc = None.
Proof. intros Ec; unfold find_commit; rewrite Ec, bool_decide_eq_true_2 by lia; done. Qed.

Lemma scan_after_fields (txns : list wal_txn) :
  forall off lsn next sc, log_ok off lsn next txns -> sc_last_lsn sc = lsn ->
  sc_cursor (scan_after sc txns) = (sc_cursor sc + length (log_bytes txns))%nat
  /\ sc_last_lsn (scan_after sc txns) = lsn + Z.of_nat (length txns)
  /\ sc_next_page_id (scan_after sc txns) = foldl (fun _ t => sb_next_page_id (wt_sb t)) (sc_next_page_id sc) txns
  /\ sc_freelist (scan_after sc txns) = foldl (fun _ t => sb_freelist_page (wt_sb t)) (sc_freelist sc) txns
  /\ sc_applied (scan_after sc txns) = sc_applied sc || negb (bool_decide (txns = [])).
Proof.
  induction txns as [|t txns IH]; intros off lsn next sc Hlog Hl.
  { cbn; rewrite orb_false_r; split_and!; lia || done. }
  destruct Hlog as [Ht Hlog]; set (sc1 := scan_next sc (40 + ps) (wt_rec t) (Z.of_nat (length (wt_pages t))) true).
  destruct (IH _ _ _ sc1 Hlog) as (E1 & E2 & E3 & E4 & E5); [apply (to_id _ _ _ _ Ht)|].
  change (scan_after sc (t :: txns)) with (scan_after sc1 txns); rewrite E1, E2, E3, E4, E5; cbn [length foldl].
  split; [|split; [lia|do 2 (split; [done|]); cbn; by rewrite !orb_true_r]].
  unfold log_bytes; cbn [fmap list_fmap concat]; rewrite length_app; unfold sc1; cbn [scan_next sc_cursor].
  unfold wt_bytes at 2, txn_bytes; rewrite length_app, length_encode_commit, (length_txn_frames _ _ _ t Ht), Nat2Z.id; unfold log_bytes; lia.
Qed.

(** ** Recovery of the log *)

Definition wal_contents (txns : list wal_txn) : bytes :=
  match txns with
  | [] => []
  | t :: _ => encode_header SDB_WAL_VERSION_V5 (wt_sb t) (wt_id t) (Z.of_nat (length (wt_pages t))) ++ log_bytes txns
  end.

(** Where the next transaction is appended. *)
Definition wal_end (txns : list wal_txn) : Z := 64 + Z.of_nat (length (log_bytes txns)).

(** The page count after the transactions. *)
Definition wal_next (txns : list wal_txn) : Z := foldl (fun _ t => sb_next_page_id (wt_sb t)) (sb_next_page_id sb) txns.

Definition expected_recovery (txns : list wal_txn) : recovery :=
  {| re_lsn := sb_checkpoint_lsn sb + Z.of_nat (length txns); re_next_page_id := wal_next txns;
     re_freelist := foldl (fun _ t => sb_freelist_page (wt_sb t)) (sb_freelist_page sb) txns;
     re_replayed := negb (bool_decide (txns = [])) |}.

(** The log found after a crash: nothing of it is in flight. *)
Definition found_file (c : bytes) : sdb_file := {| f_data := c; f_durable := c; f_dirty := []; f_script := [] |}.

(** Recovery from [c] replays exactly these transactions, durably. *)
Definition recovers (c : bytes) (txns : list wal_txn) : Prop :=
  forall db, reliable db ->
  exists db', sdb_wal_recover_all avx2 (Ok (found_file c)) sb key db = Some (Ok (expected_recovery txns), db')
    /\ f_data db' = replay ps (f_data db) (concat (wt_pages <$> txns))
    /\ (txns <> [] -> f_durable db' = f_data db' /\ f_dirty db' = []).

Lemma log_ok_end (txns : list wal_txn) :
  forall off lsn next, log_ok off lsn next txns -> txns <> [] -> off + Z.of_nat (length (log_bytes txns)) <= SDB_WAL_MAX_BYTES.
Proof.
  induction txns as [|t txns IH]; intros off lsn next Hlog Hne; [done|]; destruct Hlog as [Ht Hlog].
  unfold log_bytes; cbn [fmap list_fmap concat]; rewrite length_app, Nat2Z.inj_add, (length_wt_bytes _ _ _ t Ht).
  destruct txns as [|t' txns]; [|pose proof (IH _ _ _ Hlog ltac:(done)) as H; unfold log_bytes in H; lia].
  destruct (to_accepted _ _ _ _ Ht) as (_ & _ & H & _); rewrite (to_size _ _ _ _ Ht) in H; unfold txn_size; cbn; lia.
Qed.

Lemma log_ok_length (txns : list wal_txn) :
  forall off lsn next, log_ok off lsn next txns -> (length txns <= length (log_bytes txns))%nat.
Proof.
  induction txns as [|t txns IH]; intros off lsn next Hlog; [cbn; lia|]; destruct Hlog as [Ht Hlog].
  unfold log_bytes; cbn [fmap list_fmap concat length]; rewrite length_app; pose proof (IH _ _ _ Hlog) as H; unfold log_bytes in H.
  pose proof (length_wt_bytes _ _ _ t Ht) as Hl; unfold txn_size in Hl; lia.
Qed.

Lemma read_found_file (c : bytes) :
  64 < Z.of_nat (length c) <= SDB_WAL_MAX_BYTES -> read_log (found_file c) = Ok (Some c).
Proof.
  intros Hc; unfold read_log, SDB_WAL_MAX_BYTES in *; change (sdb_file_size (found_file c)) with (@Ok Z (Z.of_nat (length c)), found_file c).
  cbv iota beta; change (Z.of_nat SDB_WAL_HEADER_SIZE) with 64.
  rewrite Z.gtb_ltb, (proj2 (Z.ltb_ge _ _)), (proj2 (Z.leb_gt _ _)), Nat2Z.id by lia.
  destruct (read_full_spec 0 (length c) (found_file c)) as (r & f & -> & _ & [->|[_ H]]); [lia|unfold INT64_MAX; lia| |].
  - unfold read_outcome; cbn [f_data found_file]; rewrite bool_decide_eq_true_2 by (right; cbn; lia); by rewrite slice_all.
  - exfalso; apply H; constructor.
Qed.

Hypothesis Hbad : sdb_page_size_bad (sb_page_size sb) = false.
Hypothesis Hgeo : sdb_page_geometry_valid (sb_next_page_id sb) (sb_page_size sb) = true.
Hypothesis Hckpt : 0 <= sb_checkpoint_lsn sb < 2 ^ 63.

Lemma recover_all_of_buffer (c : bytes) (db : sdb_file) :
  64 < Z.of_nat (length c) <= SDB_WAL_MAX_BYTES ->
  sdb_wal_recover_all avx2 (Ok (found_file c)) sb key db = recover_buffer avx2 sb key c db.
Proof.
  intros Hc; unfold sdb_wal_recover_all; unfold sdb_page_size_bad in Hbad; rewrite Hbad, Hgeo; cbn [negb].
  by rewrite read_found_file.
Qed.

(** A log of committed transactions, followed by anything that does not continue it. *)
Lemma log_recovers (txns : list wal_txn) (tail : bytes) :
  log_ok 64 (sb_checkpoint_lsn sb) (sb_next_page_id sb) txns -> txns <> [] ->
  Z.of_nat (length (wal_contents txns ++ tail)) <= SDB_WAL_MAX_BYTES ->
  (forall sc bound, sc_cursor sc = length (wal_contents txns) -> find_commit (v5_gate bound) ps (wal_contents txns ++ tail) sc = None) ->
  recovers (wal_contents txns ++ tail) txns.
Proof.
  intros Hlog Hne Hmax Hstop db Hr; pose proof (log_ok_length _ _ _ _ Hlog) as Hlen.
  destruct txns as [|t0 txns0] eqn:Et; [done|]; rewrite <- Et in *; set (h := encode_header SDB_WAL_VERSION_V5 (wt_sb t0) (wt_id t0) (Z.of_nat (length (wt_pages t0)))).
  assert (Ew : wal_contents txns = h ++ log_bytes txns) by (by rewrite Et).
  assert (Hh : length h = 64%nat) by apply length_encode_header.
  assert (Ht0 : txn_ok 64 (sb_checkpoint_lsn sb) (sb_next_page_id sb) t0) by (rewrite Et in Hlog; apply Hlog).
  assert (Hl0 : (0 < length txns)%nat) by (rewrite Et; cbn; lia).
  assert (Hc : (length (log_bytes txns) + 64 = length (wal_contents txns))%nat) by (rewrite Ew, length_app; lia).
  rewrite recover_all_of_buffer by (rewrite length_app in *; lia).
  unfold recover_buffer; rewrite Ew, <- app_assoc; unfold h at 1.
  pose proof (txn_count _ _ _ t0 Ht0) as Hcnt; unfold SDB_WAL_MAX_RECORDS, SDB_WAL_MAX_BYTES in *.
  rewrite gate_of_header; [|apply Ht0|apply Ht0|lia|apply Ht0]; cbn [v5_gate g_identity_bound g_self_describing negb andb].
  set (buffer := h ++ log_bytes txns ++ tail).
  assert (Hbl : length buffer = length (wal_contents txns ++ tail)) by (unfold buffer; by rewrite Ew, <- app_assoc).
  rewrite length_app in Hbl, Hmax.
  destruct (log_recovered true tail txns (S (length buffer) - length txns) h 64 (sb_checkpoint_lsn sb) (sb_next_page_id sb) (scan_start sb) db)
    as (db1 & Hr1 & Ed & Edu & Eloop); try done; [cbn; apply wrap_small; lia|lia|lia|].
  destruct (scan_after_fields txns _ _ _ (scan_start sb) Hlog eq_refl) as (F1 & F2 & F3 & F4 & F5).
  replace (length txns + (S (length buffer) - length txns))%nat with (S (length buffer)) in Eloop by lia.
  fold buffer in Eloop; rewrite Eloop; replace (S (length buffer) - length txns)%nat with (S (length buffer - length txns)) by lia.
  assert (Eb : buffer = wal_contents txns ++ tail) by (unfold buffer; by rewrite Ew, <- app_assoc).
  rewrite recover_loop_step, Eb, Hstop.
  2: { rewrite F1; cbn [scan_start sc_cursor]; unfold SDB_WAL_HEADER_SIZE; lia. }
  cbn [mbind option_bind]; rewrite F2, F3, F4, F5; cbn [scan_start sc_applied orb sc_next_page_id sc_freelist].
  rewrite bool_decide_eq_false_2 by done; cbn [negb].
  unfold mbind, fileM_bind; destruct (sync_spec db1) as (rs & f & -> & [(-> & Hd & Hdu & Hdi & _)|(_ & _ & ?)]); [|done].
  exists f; split; [|split; [by rewrite Hd|intros _; split; [by rewrite Hdu, Hd|done]]].
  unfold expected_recovery; rewrite bool_decide_eq_false_2 by done; done.
Qed.

Lemma wal_contents_app (txns : list wal_txn) (t : wal_txn) :
  txns <> [] -> wal_contents (txns ++ [t]) = wal_contents txns ++ wt_bytes t.
Proof.
  intros Hne; destruct txns as [|t0 txns]; [done|]; unfold wal_contents, log_bytes; cbn [app].
  rewrite app_comm_cons, fmap_app, concat_app; cbn [fmap list_fmap concat]; by rewrite app_nil_r, app_assoc.
Qed.

Lemma log_ok_snoc (txns : list wal_txn) (t : wal_txn) :
  forall off lsn next, log_ok off lsn next txns ->
  txn_ok (off + Z.of_nat (length (log_bytes txns))) (lsn + Z.of_nat (length txns))
    (foldl (fun _ t => sb_next_page_id (wt_sb t)) next txns) t ->
  log_ok off lsn next (txns ++ [t]).
Proof.
  induction txns as [|t0 txns IH]; intros off lsn next Hlog Ht.
  { cbn in Ht; rewrite !Z.add_0_r in Ht; done. }
  destruct Hlog as [Ht0 Hlog]; split; [done|]; apply IH; [done|].
  cbn [foldl] in Ht; unfold log_bytes in Ht; cbn [fmap list_fmap concat length] in Ht.
  rewrite length_app, Nat2Z.inj_add, (length_wt_bytes _ _ _ t0 Ht0) in Ht.
  replace (off + txn_size t0 + Z.of_nat (length (log_bytes txns))) with (off + (txn_size t0 + Z.of_nat (length (log_bytes txns)))) by lia.
  replace (lsn + 1 + Z.of_nat (length txns)) with (lsn + Z.of_nat (S (length txns))) by lia; exact Ht.
Qed.

Lemma wal_contents_length (txns : list wal_txn) : txns <> [] -> Z.of_nat (length (wal_contents txns)) = wal_end txns.
Proof.
  destruct txns as [|t txns]; [done|]; intros _; unfold wal_contents, wal_end; rewrite length_app, length_encode_header.
  unfold SDB_WAL_HEADER_SIZE; lia.
Qed.

Section Append.
Context (txns : list wal_txn) (t : wal_txn).
Hypothesis Hlog : log_ok 64 (sb_checkpoint_lsn sb) (sb_next_page_id sb) txns.
Hypothesis Ht : txn_ok (wal_end txns) (sb_checkpoint_lsn sb + Z.of_nat (length txns)) (wal_next txns) t.

Lemma snoc_ok : log_ok 64 (sb_checkpoint_lsn sb) (sb_next_page_id sb) (txns ++ [t]).
Proof. by apply log_ok_snoc. Qed.

Lemma wal_end_snoc : wal_end (txns ++ [t]) = wal_end txns + txn_size t.
Proof.
  unfold wal_end, log_bytes; rewrite fmap_app, concat_app, length_app; cbn [fmap list_fmap concat]; rewrite app_nil_r.
  pose proof (length_wt_bytes _ _ _ t Ht); lia.
Qed.

Lemma snoc_max : wal_end (txns ++ [t]) <= SDB_WAL_MAX_BYTES.
Proof. apply (log_ok_end _ _ _ _ snoc_ok); by destruct txns. Qed.

(** What the encoder hands to the file layer continues the log. *)
Lemma append_buffer :
  exists buffer, sdb_wal_encode_txn (wt_sb t) (wal_end txns) (wt_id t) (wt_pages t)
      = mem_ret (buffer, Z.of_nat (length (wal_contents txns)), wal_end (txns ++ [t]))
    /\ wal_contents txns ++ buffer = wal_contents (txns ++ [t]) /\ buffer <> []
    /\ (txns <> [] -> buffer = wt_bytes t).
Proof.
  destruct (encode_txn_spec (wt_sb t) (wal_end txns) (wt_id t) (wt_pages t)) as [[_ E]|[H _]].
  { unfold wal_end; lia. }
  { rewrite (to_size _ _ _ _ Ht); lia. }
  2: { exfalso; apply H, Ht. }
  rewrite E, wal_end_snoc; unfold txn_size; rewrite (to_size _ _ _ _ Ht), <- Z.add_assoc.
  assert (Hne : wt_bytes t <> []).
  { intros Ee; pose proof (length_wt_bytes _ _ _ t Ht) as Hl; rewrite Ee in Hl; unfold txn_size in Hl; cbn in Hl; lia. }
  eexists; destruct (decide (txns = [])) as [->|Hn].
  - split; [done|]; unfold wal_contents, log_bytes; cbn [app fmap list_fmap concat]; rewrite app_nil_r; split; [done|].
    split; [|done]; intros Ee; apply app_eq_nil in Ee as [_ Ee]; done.
  - rewrite wal_contents_length by done.
    assert (wal_end txns <> 64).
    { destruct txns as [|t0 l]; [done|]; destruct Hlog as [Ht0 _]; unfold wal_end, log_bytes; cbn [fmap list_fmap concat].
      rewrite length_app; pose proof (length_wt_bytes _ _ _ t0 Ht0) as Hl; unfold txn_size in Hl; lia. }
    rewrite (proj2 (Z.eqb_neq _ _)) by done; cbn [app]; split; [done|]; by rewrite wal_contents_app.
Qed.

Lemma committed_recovers : recovers (wal_contents (txns ++ [t])) (txns ++ [t]).
Proof.
  pose proof snoc_max as Hm; rewrite <- (app_nil_r (wal_contents _)); apply log_recovers; [apply snoc_ok|by destruct txns|..].
  - rewrite app_nil_r, wal_contents_length by (by destruct txns); done.
  - intros sc bound Ec; rewrite app_nil_r; by apply empty_tail_stops.
Qed.

Lemma torn_recovers (tail : bytes) :
  txns <> [] -> tail `prefix_of` wt_bytes t -> tail <> wt_bytes t -> recovers (wal_contents txns ++ tail) txns.
Proof.
  intros Hne Hp Ht'; pose proof snoc_max as Hm; rewrite wal_end_snoc in Hm.
  apply log_recovers; [done|done| |intros sc bound Ec; by eapply torn_tail_stops].
  rewrite length_app, Nat2Z.inj_add, wal_contents_length by done.
  pose proof (length_wt_bytes _ _ _ t Ht); apply prefix_length in Hp; lia.
Qed.

Lemma append_outcome (wal : sdb_file) :
  f_data wal = wal_contents txns -> f_durable wal = f_data wal -> f_dirty wal = [] ->
  exists r wal', sdb_wal_append_txn (wal_end txns) (wt_sb t) (wt_id t) (wt_pages t) wal = Some (r, wal')
    /\ (reliable wal -> r = Ok (wal_end (txns ++ [t])))
    /\ (forall new, r = Ok new -> new = wal_end (txns ++ [t]) /\ f_data wal' = wal_contents (txns ++ [t])
          /\ f_durable wal' = f_data wal' /\ f_dirty wal' = [])
    /\ (forall c, crash_contents wal' c -> exists tail, c = wal_contents txns ++ tail).
Proof.
  intros Hd Hdu Hdi; destruct append_buffer as (buffer & Ee & Eb & Hne & _).
  unfold sdb_wal_append_txn; rewrite Ee; cbn [mem_ret].
  pose proof snoc_max as Hm; unfold SDB_WAL_MAX_BYTES in Hm; rewrite <- wal_contents_length, <- Eb, length_app in Hm by (by destruct txns).
  destruct (write_full_spec (Z.of_nat (length (wal_contents txns))) buffer wal) as (r & f1 & Ew & We & Hr);
    [lia|unfold INT64_MAX; lia|done|]; rewrite Nat2Z.id in We, Hr.
  assert (Hcrash : forall f2, (forall i, touched f2 i -> touched f1 i) -> f_durable f2 = f_durable f1 ->
    forall c, crash_contents f2 c -> exists tail, c = wal_contents txns ++ tail).
  { intros f2 Hto Hdur c Hc; exists (drop (length (wal_contents txns)) c).
    rewrite <- (take_drop (length (wal_contents txns)) c) at 1; f_equal; rewrite <- Hd, <- Hdu.
    rewrite <- (firstn_all (f_durable wal)) at 2; rewrite Hdu at 2; apply list_eq; intros i.
    rewrite Hdu, Hd; destruct (decide (i < length (wal_contents txns))%nat); [|by rewrite !lookup_take_ge by lia].
    rewrite !lookup_take_lt by lia; rewrite <- Hd, <- Hdu, <- (we_durable _ _ _ _ We), <- Hdur; apply Hc.
    intros Hti; destruct (we_dirty _ _ _ _ We i (Hto i Hti)) as [H|H]; [unfold touched in H; rewrite Hdi in H; inversion H|].
    rewrite Hd in H; unfold write_dirty in H; rewrite bool_decide_eq_false_2 in H; [cbn in H; lia|].
    destruct buffer; [done|cbn; lia]. }
  unfold mbind, fileM_bind; rewrite Ew; destruct Hr as [[-> Ed]|[-> Hnr]].
  2: { eexists _, _; split; [done|]; split; [done|]; split; [done|]; by apply Hcrash. }
  assert (Ed' : f_data f1 = wal_contents (txns ++ [t])).
  { rewrite Ed, Hd, <- Eb; unfold file_splice; rewrite Nat.sub_diag, app_nil_r, firstn_all, drop_ge, app_nil_r by lia; done. }
  destruct (sync_spec f1) as (rs & f2 & -> & [(-> & Hd2 & Hdu2 & Hdi2 & _)|(-> & (Hd2 & Hdu2 & Hdi2 & _) & Hnr)]).
  - eexists _, _; split; [done|]; split; [done|]; split.
    + intros new [= <-]; rewrite Hdu2, Hd2, Ed'; done.
    + intros c Hc; exists buffer; rewrite Eb, <- Ed', <- Hdu2; by apply crash_synced.
  - eexists _, _; split; [done|]; split; [intros Hre; exfalso; apply Hnr, We, Hre|]; split; [done|].
    apply Hcrash; [|done]; intros i; unfold touched; by rewrite Hdi2.
Qed.
End Append.
End Log.


(** ** A concrete log *)

Definition example_bytes (id lsn : Z) : bytes :=
  match sdb_page_encode 4096 SDB_PAGE_TYPE_DATA id lsn (byte.of_Z <$> [1; 2; 3]) with Ok page => page | Err _ => [] end.

Definition example_page (id lsn : Z) : sdb_wal_page := {| wp_page_id := id; wp_bytes := example_bytes id lsn |}.

Definition log_superblock : sdb_superblock_v1 :=
  {| sb_page_size := 4096; sb_flags := 0; sb_generation := 1; sb_checkpoint_lsn := 0; sb_root_page := 1; sb_freelist_page := 0;
     sb_next_page_id := 3; sb_key_wrap_id := 0; sb_kdf_iterations := 0; sb_salt := zeros 16;
     sb_file_id := byte.of_Z <$> [1; 2; 3; 4; 5; 6; 7; 8; 9; 10; 11; 12; 13; 14; 15; 16]; sb_wrapped_key := zeros 32; sb_key_wrap_tag := zeros 16 |}.

Definition example_txn (lsn : Z) : wal_txn :=
  {| wt_sb := log_superblock; wt_id := lsn; wt_pages := [example_page 1 lsn] |}.

Lemma one_page_txn_ok (off lsn : Z) (page : bytes) (view : sdb_page_view) :
  1 <= lsn <= 1000 -> 64 <= off <= 10000 -> length page = Z.to_nat 4096 -> sdb_page_decode page 4096 1 = Ok view -> view_page_lsn view = lsn ->
  txn_ok true log_superblock None off (lsn - 1) 3
    {| wt_sb := log_superblock; wt_id := lsn; wt_pages := [{| wp_page_id := 1; wp_bytes := page |}] |}.
Proof.
  intros Hl Ho Hlen Hd Hv; split; cbn [wt_sb wt_id wt_pages].
  - done.
  - done.
  - lia.
  - split; [lia|]; constructor; [|constructor]; split; [cbn [wp_page_id]; lia|exact Hlen].
  - split; [lia|]; split; [done|]; split; [cbn [length log_superblock sb_page_size]; unfold SDB_WAL_MAX_BYTES; lia|].
    split; [constructor; [|constructor]|apply NoDup_singleton].
    split; [done|]; split; [done|]; exists view; cbn [wp_bytes wp_page_id log_superblock sb_page_size].
    rewrite slice_all by (by rewrite Hlen); done.
  - cbn; lia.
  - cbn; lia.
  - by vm_compute.
  - constructor; [|constructor]; exists view; done.
Qed.

Lemma example_page_ok (lsn : Z) :
  lsn = 1 \/ lsn = 2 ->
  exists view, length (example_bytes 1 lsn) = Z.to_nat 4096
    /\ sdb_page_decode (example_bytes 1 lsn) 4096 1 = Ok view /\ view_page_lsn view = lsn.
Proof. intros [->| ->]; eexists; (split; [by vm_compute|]); (split; [vm_compute; reflexivity|by vm_compute]). Qed.

#[local] Opaque example_bytes.

Lemma example_txn_ok (off lsn : Z) :
  lsn = 1 \/ lsn = 2 -> 64 <= off <= 10000 -> txn_ok true log_superblock None off (lsn - 1) 3 (example_txn lsn).
Proof.
  intros Hl Ho; destruct (example_page_ok lsn Hl) as (view & H1 & H2 & H3).
  apply (one_page_txn_ok off lsn (example_bytes 1 lsn) view); [lia|done..].
Qed.

Lemma example_end : wal_end [example_txn 1] = 4244.
Proof.
  unfold wal_end, log_bytes; cbn [fmap list_fmap concat]; rewrite app_nil_r.
  by rewrite (length_wt_bytes true log_superblock None ltac:(cbn; lia) eq_refl 64 0 3 (example_txn 1) (example_txn_ok 64 1 ltac:(lia) ltac:(lia))).
Qed.

Lemma example_log_ok : log_ok true log_superblock None 64 0 3 [example_txn 1].
Proof. split; [exact (example_txn_ok 64 1 ltac:(lia) ltac:(lia))|exact I]. Qed.

Lemma example_next_ok : txn_ok true log_superblock None (wal_end [example_txn 1]) 1 3 (example_txn 2).
Proof. rewrite example_end; exact (example_txn_ok 4244 2 ltac:(lia) ltac:(lia)). Qed.


Lemma wal_recovery_sound_witness :
  exists rh l db', sealed_log true log_superblock None rh (wal_contents [example_txn 1]) SDB_WAL_HEADER_SIZE 0 3 l
    /\ length l = 1%nat /\ f_data db' = replay 4096 [] (log_pages l).
Proof.
  destruct (committed_recovers true log_superblock None ltac:(cbn; lia) eq_refl eq_refl eq_refl ltac:(cbn; lia) [] (example_txn 1) I
    (example_txn_ok 64 1 ltac:(lia) ltac:(lia)) (found_file []) (List.Forall_nil _)) as (db' & E & _).
  destruct (wal_recovery_sound true (found_file (wal_contents [example_txn 1])) (found_file []) db' log_superblock None
    (expected_recovery log_superblock [example_txn 1]) ltac:(cbn; lia) E) as (rh & l & Hs & Hd & Hl & _).
  exists rh, l, db'; split; [exact Hs|]; split; [|exact Hd].
  cbn [expected_recovery re_lsn log_superblock sb_checkpoint_lsn length] in Hl; lia.
Defined.

(** ** A torn first append *)

(** A first append whose [fsync] fails. *)
Definition failing_log : sdb_file := {| f_data := []; f_durable := []; f_dirty := []; f_script := [OsFull; OsError] |}.

Lemma failed_first_append :
  exists wal', sdb_wal_append_txn 64 log_superblock 1 [example_page 1 1] failing_log = Some (Err SDB_E_IO, wal') /\ f_dirty wal' = [DFrom 0].
Proof.
  assert (H : (fun '(r, wal') => (r, f_dirty wal')) <$> sdb_wal_append_txn 64 log_superblock 1 [example_page 1 1] failing_log
    = Some (Err SDB_E_IO, [DFrom 0])) by (vm_compute; reflexivity).
  destruct (sdb_wal_append_txn 64 log_superblock 1 [example_page 1 1] failing_log) as [[r wal']|]; [|discriminate H].
  injection H as -> Hd; by exists wal'.
Qed.

(** The log extended by the write, none of whose bytes reached the disk. *)
Definition torn_log : bytes := zeros (Z.to_nat 4244).

Lemma torn_log_size : 64 < Z.of_nat (length torn_log) <= SDB_WAL_MAX_BYTES.
Proof. unfold torn_log; rewrite length_zeros; unfold SDB_WAL_MAX_BYTES; lia. Qed.

Lemma torn_log_gate : identity_gate log_superblock torn_log = Ok (legacy_gate false).
Proof. vm_compute; reflexivity. Qed.

Lemma torn_log_empty :
  find_commit (legacy_gate false) (Z.to_nat (sb_page_size log_superblock)) torn_log (scan_start log_superblock) = None.
Proof. vm_compute; reflexivity. Qed.

#[local] Opaque torn_log.

(** C28: An uncommitted first transaction can make an unencrypted database refuse to
    open.  The very first append into an empty log fails in its [fsync], so nothing was
    committed; a crash may leave the log extended and its bytes unwritten.  The
    identity header is then an all-zero hole, no frame names the database, and
    [sdb_wal_recover_all] answers [SDB_E_CORRUPT] for every data file, where the
    encrypted database with the same log opens with nothing recovered. *)
Theorem torn_first_append_refused :
  exists wal', sdb_wal_append_txn 64 log_superblock 1 [example_page 1 1] failing_log = Some (Err SDB_E_IO, wal')
    /\ crash_contents wal' torn_log
    /\ (forall db, sdb_wal_recover_all true (Ok (found_file torn_log)) log_superblock None db = Some (Err SDB_E_CORRUPT, db))
    /\ (forall db key, sdb_wal_recover_all true (Ok (found_file torn_log)) log_superblock (Some key) db
                       = Some (Ok (nothing_recovered log_superblock), db)).
Proof.
  destruct failed_first_append as (wal' & E & Hd); exists wal'; split; [exact E|].
  pose proof torn_log_size as Hz; pose proof torn_log_gate as Hg; split; [|split].
  - intros i Hi; exfalso; apply Hi; unfold touched; rewrite Hd; constructor; cbn; lia.
  - intros db; rewrite recover_all_of_buffer by done; unfold recover_buffer; by rewrite Hg.
  - intros db key; rewrite recover_all_of_buffer by done; unfold recover_buffer; rewrite Hg; cbn [legacy_gate g_identity_bound g_self_describing].
    rewrite bool_decide_eq_true_2 by done; cbn [negb andb]; by rewrite recover_loop_step, torn_log_empty.
Qed.
