(* ===== verification/WalLegacy.v ===== *)
(** * The write-ahead log of versions 1 and 2 ([src/wal.c])

    Before the log could hold several transactions it held one, written by
    [sdb_wal_write_committed] with one [fsync] for the data and one for the commit
    record, and read by [sdb_wal_recover].  Also [sdb_wal_clear].  What opening the
    path, creating it and syncing its directory answer are arguments. *)

From S2P Require Import Prelude Status Codec Checksum Page Superblock File Sha256 Chacha Poly1305 Aead EncryptedPage Probe WalFormat WalRecover.

Definition sdb_wal_expected_size (page_size page_count : Z) : result Z :=
  match
    record_size ← sdb_checked_add_size (Z.of_nat SDB_WAL_RECORD_HEADER_SIZE) page_size;
    records_size ← sdb_checked_mul_size record_size page_count;
    without_commit ← sdb_checked_add_size (Z.of_nat SDB_WAL_HEADER_SIZE) records_size;
    sdb_checked_add_size without_commit (Z.of_nat SDB_WAL_LEGACY_COMMIT_SIZE)
  with
  | Some size => Ok size
  | None => Err SDB_E_OVERFLOW
  end.

(** The emptied log, from the file that was there or from a new one. *)
Definition sdb_wal_open_reset (existing created : result sdb_file) (parent_sync : sdb_status) : result sdb_file :=
  '(file, created) ← match existing with
                     | Ok file => Ok (file, false)
                     | Err _ => file ← created; Ok (file, true)
                     end;
  match sdb_file_resize 0 file with
  | (Err e, _) => Err e
  | (Ok _, file) =>
      if created && negb (bool_decide (parent_sync = SDB_OK)) then Err parent_sync else Ok file
  end.

(** A frame of the legacy versions: the page id and the image. *)
Definition legacy_frame (page_size : nat) (p : sdb_wal_page) : bytes :=
  le_split 8 (wp_page_id p) ++ slice (wp_bytes p) 0 page_size.

Definition legacy_frames (page_size : nat) (pages : list sdb_wal_page) : bytes := concat (legacy_frame page_size <$> pages).

Definition legacy_commit_body (version txn_id data_crc : Z) : bytes :=
  let out := zeros SDB_WAL_LEGACY_COMMIT_SIZE in
  let out := memcpy_at out 0 sdb_wal_commit_magic in
  let out := sdb_write_u16_le out 4 version in
  let out := sdb_write_u16_le out 6 (Z.of_nat SDB_WAL_LEGACY_COMMIT_SIZE) in
  let out := sdb_write_u64_le out 8 txn_id in
  sdb_write_u32_le out 16 data_crc.

Definition legacy_commit (version txn_id data_crc : Z) : bytes :=
  let out := legacy_commit_body version txn_id data_crc in
  sdb_write_u32_le out 20 (sdb_crc32_zeroed_range out 20 4).

(** The status, and the log if it was opened. *)
Definition sdb_wal_write_committed (existing created : result sdb_file) (parent_sync : sdb_status) (sb : sdb_superblock_v1)
    (txn_id : Z) (pages : list sdb_wal_page) : option (sdb_status * option sdb_file) :=
  let page_count := Z.of_nat (length pages) in
  if (txn_id =? 0) || (page_count =? 0) || (page_count >? SDB_WAL_MAX_RECORDS) || (page_count >? UINT32_MAX)
  then Some (SDB_E_INVALID_ARGUMENT, None)
  else
    match sdb_wal_expected_size (sb_page_size sb) page_count with
    | Err e => Some (e, None)
    | Ok total_size =>
        if total_size >? SDB_WAL_MAX_BYTES then Some (SDB_E_OVERFLOW, None)
        else
          match check_all_pages sb txn_id pages with
          | None => None
          | Some (Err e) => Some (e, None)
          | Some (Ok _) =>
              let data := encode_header SDB_WAL_VERSION sb txn_id (wrap 32 page_count)
                          ++ legacy_frames (Z.to_nat (sb_page_size sb)) pages in
              let commit := legacy_commit SDB_WAL_VERSION txn_id (sdb_crc32 data) in
              match sdb_wal_open_reset existing created parent_sync with
              | Err e => Some (e, None)
              | Ok file =>
                  let '(r, file) := (_ ← sdb_file_write_full 0 data; _ ← sdb_file_sync;
                                     _ ← sdb_file_write_full (Z.of_nat (length data)) commit; sdb_file_sync) file in
                  let '(c, file) := sdb_file_close file in
                  Some (match r with Err e => e | Ok _ => status_of c end, Some file)
              end
          end
    end.

(** ** Reading it back *)

Record legacy_recovery := {
  lr_txn_id : Z;
  lr_next_page_id : Z;
  lr_freelist : Z;
  lr_replayed : bool;
  lr_log_removed : bool
}.

Definition legacy_nothing (sb : sdb_superblock_v1) (removed : bool) : legacy_recovery :=
  {| lr_txn_id := 0; lr_next_page_id := sb_next_page_id sb; lr_freelist := sb_freelist_page sb; lr_replayed := false;
     lr_log_removed := removed |}.

Definition all_zero (b : bytes) : bool := forallb (fun x => bool_decide (x = x00)) b.

(** The target the header of the log names: the page count and the free list after
    the transaction. *)
Definition legacy_target (sb : sdb_superblock_v1) (version : Z) (buffer : bytes) : result (Z * Z) :=
  if version =? SDB_WAL_VERSION_V1
  then
    fail_if negb (all_zero (slice buffer 40 20)) with SDB_E_CORRUPT ;;
    Ok (sb_next_page_id sb, sb_freelist_page sb)
  else
    let target_next_page_id := sdb_read_u64_le buffer 40 in
    let target_freelist_page := sdb_read_u64_le buffer 48 in
    fail_if negb (all_zero (slice buffer 56 4)) with SDB_E_CORRUPT ;;
    fail_if negb (sdb_page_geometry_valid target_next_page_id (sb_page_size sb))
            || (target_next_page_id <? sb_next_page_id sb) || (target_freelist_page >=? target_next_page_id)
      with SDB_E_CORRUPT ;;
    Ok (target_next_page_id, target_freelist_page).

(** Whether the commit record at the end seals the log. *)
Definition legacy_commit_matches (version txn_id : Z) (buffer : bytes) (data_size : nat) : bool :=
  let commit := slice buffer data_size SDB_WAL_LEGACY_COMMIT_SIZE in
  let checksum := sdb_crc32_zeroed_range commit 20 4 in
  bool_decide (slice commit 0 4 = sdb_wal_commit_magic)
  && (sdb_read_u16_le commit 4 =? version)
  && (sdb_read_u16_le commit 6 =? Z.of_nat SDB_WAL_LEGACY_COMMIT_SIZE)
  && (sdb_read_u64_le commit 8 =? txn_id)
  && (sdb_read_u32_le commit 16 =? sdb_crc32 (slice buffer 0 data_size))
  && (sdb_read_u32_le commit 20 =? checksum).

(** The checks of the 64-byte header, and the number of pages when the file has the
    size it announces. *)
Definition legacy_header_bad (header : bytes) : bool :=
  let version := sdb_read_u16_le header 4 in
  (negb (version =? SDB_WAL_VERSION_V1) && negb (version =? SDB_WAL_VERSION))
  || negb (sdb_read_u16_le header 6 =? Z.of_nat SDB_WAL_HEADER_SIZE)
  || negb (header_crc_ok header).

Definition legacy_foreign (sb : sdb_superblock_v1) (header : bytes) : bool :=
  negb (sdb_read_u32_le header 16 =? sb_page_size sb)
  || negb (bool_decide (slice header 24 SDB_FILE_ID_SIZE = sb_file_id sb)).

Definition legacy_count (sb : sdb_superblock_v1) (header : bytes) (file_size : Z) : option Z :=
  let page_count := sdb_read_u32_le header 20 in
  if (page_count =? 0) || (page_count >? SDB_WAL_MAX_RECORDS) then None
  else match sdb_wal_expected_size (sb_page_size sb) page_count with
       | Ok expected_size => if expected_size =? file_size then Some page_count else None
       | Err _ => None
       end.

(** From the contents of the log on. *)
Definition legacy_replay (avx2 : bool) (sb : sdb_superblock_v1) (data_key : option bytes) (buffer : bytes) (db : sdb_file)
  : option (result legacy_recovery * sdb_file) :=
  let file_size := length buffer in
  let nothing := Some (Ok (legacy_nothing sb false), db) in
  if bool_decide (file_size < SDB_WAL_HEADER_SIZE + SDB_WAL_LEGACY_COMMIT_SIZE)%nat
     || negb (bool_decide (slice buffer 0 4 = sdb_wal_magic)) then nothing
  else if legacy_header_bad buffer || legacy_foreign sb buffer then Some (Err SDB_E_CORRUPT, db)
  else
    let version := sdb_read_u16_le buffer 4 in
    match legacy_target sb version buffer with
    | Err e => Some (Err e, db)
    | Ok (target_next_page_id, target_freelist_page) =>
        let txn_id := sdb_read_u64_le buffer 8 in
        match legacy_count sb buffer (Z.of_nat file_size) with
        | None => nothing
        | Some page_count =>
            let data_size := (file_size - SDB_WAL_LEGACY_COMMIT_SIZE)%nat in
            if (txn_id =? 0) || negb (legacy_commit_matches version txn_id buffer data_size) then nothing
            else
              let frames := drop SDB_WAL_HEADER_SIZE buffer in
              let page_size := Z.to_nat (sb_page_size sb) in
              match sdb_wal_validate_frames avx2 sb data_key page_size SDB_WAL_RECORD_HEADER_SIZE false
                      frames (Z.to_nat page_count) txn_id target_next_page_id with
              | None => None
              | Some (Err e) => Some (Err e, db)
              | Some (Ok _) =>
                  let newer := txn_id >? sb_checkpoint_lsn sb in
                  let '(status, db) :=
                    if newer
                    then sdb_wal_apply_frames frames page_size (Z.to_nat page_count) txn_id target_next_page_id
                           SDB_WAL_RECORD_HEADER_SIZE true db
                    else (Ok tt, db) in
                  Some (match status with
                        | Err e => Err e
                        | Ok _ => Ok {| lr_txn_id := txn_id; lr_next_page_id := target_next_page_id;
                                        lr_freelist := target_freelist_page; lr_replayed := newer; lr_log_removed := false |}
                        end, db)
              end
        end
    end.

Definition sdb_wal_recover (avx2 : bool) (wal : result sdb_file) (sb : sdb_superblock_v1) (data_key : option bytes) (db : sdb_file)
  : option (result legacy_recovery * sdb_file) :=
  match wal with
  | Err SDB_E_NOT_FOUND => Some (Ok (legacy_nothing sb false), db)
  | Err e => Some (Err e, db)
  | Ok wal =>
      match sdb_file_size wal with
      | (Err e, _) => Some (Err e, db)
      | (Ok file_size, wal) =>
          if file_size =? 0 then Some (Ok (legacy_nothing sb false), db)
          else if file_size >? SDB_WAL_MAX_BYTES then Some (Err SDB_E_CORRUPT, db)
          else if file_size <? Z.of_nat (SDB_WAL_HEADER_SIZE + SDB_WAL_LEGACY_COMMIT_SIZE)
          then Some (Ok (legacy_nothing sb true), db)
          else
            match sdb_file_read_full 0 SDB_WAL_HEADER_SIZE wal with
            | (Err e, _) => Some (Err e, db)
            | (Ok header, wal) =>
                let version := sdb_read_u16_le header 4 in
                if negb (bool_decide (slice header 0 4 = sdb_wal_magic))
                   || (version =? SDB_WAL_VERSION_V3) || (version =? SDB_WAL_VERSION_V4) || (version =? SDB_WAL_VERSION_V5)
                then Some (Ok (legacy_nothing sb false), db)
                else if legacy_foreign sb header then Some (Ok (legacy_nothing sb true), db)
                else if legacy_header_bad header then Some (Err SDB_E_CORRUPT, db)
                else
                  match legacy_count sb header file_size with
                  | None => Some (Ok (legacy_nothing sb false), db)
                  | Some _ =>
                      match sdb_file_read_full 0 (Z.to_nat file_size) wal with
                      | (Err e, _) => Some (Err e, db)
                      | (Ok buffer, _) => legacy_replay avx2 sb data_key buffer db
                      end
                  end
            end
      end
  end.

(** The log emptied, durably; a log that does not exist is empty. *)
Definition sdb_wal_clear (wal : result sdb_file) (parent_sync : sdb_status) : sdb_status * option sdb_file :=
  match wal with
  | Err SDB_E_NOT_FOUND => (SDB_OK, None)
  | Err e => (e, None)
  | Ok file =>
      let '(r, file) := (_ ← sdb_file_resize 0; sdb_file_sync) file in
      let '(c, file) := sdb_file_close file in
      let status := match r, c with Ok _, Ok _ => parent_sync | _, _ => status_of r end in
      (if bool_decide (status = SDB_OK) then status_of c else status, Some file)
  end.
