(* ===== verification/GroupCommit.v ===== *)
(** * Group commit ([src/pager.c], the R4 coordinator)

    Committers write their transaction to the log without an [fsync], publish it
    under [commit_mutex], and then drive it to disk: the first becomes the leader
    and makes one [fsync] with the mutex released, the others wait on [commit_cond].
    A critical section is one step of the system, the [fsync] another, and the
    steps of the threads interleave in any order, with new commits in between.  The
    log is the file of [File] with its durable contents, so that acknowledged is
    related to what a crash leaves. *)

From S2P Require Import Prelude Status Codec Checksum Page Superblock File Sha256 Chacha Poly1305 Aead EncryptedPage Probe WalFormat WalRecover WalLog.

(** ** The coordinator *)

(** The fields of [sdb_pager] that [commit_mutex] guards, and the ticket of the last
    deferred commit. *)
Record coord := {
  co_written_lsn : Z;
  co_durable_lsn : Z;
  co_commit_error : sdb_status;
  co_leader_active : bool;
  co_commit_failed : bool;
  co_sync_relaxed : bool;
  co_defer_commit : bool;
  co_pending : option Z
}.

Definition set_lsns (c : coord) (written durable : Z) : coord :=
  {| co_written_lsn := written; co_durable_lsn := durable; co_commit_error := co_commit_error c;
     co_leader_active := co_leader_active c; co_commit_failed := co_commit_failed c; co_sync_relaxed := co_sync_relaxed c;
     co_defer_commit := co_defer_commit c; co_pending := co_pending c |}.

Definition set_leader (c : coord) (active : bool) : coord :=
  {| co_written_lsn := co_written_lsn c; co_durable_lsn := co_durable_lsn c; co_commit_error := co_commit_error c;
     co_leader_active := active; co_commit_failed := co_commit_failed c; co_sync_relaxed := co_sync_relaxed c;
     co_defer_commit := co_defer_commit c; co_pending := co_pending c |}.

Definition set_poisoned (c : coord) (e : sdb_status) : coord :=
  {| co_written_lsn := co_written_lsn c; co_durable_lsn := co_durable_lsn c; co_commit_error := e;
     co_leader_active := co_leader_active c; co_commit_failed := true; co_sync_relaxed := co_sync_relaxed c;
     co_defer_commit := co_defer_commit c; co_pending := co_pending c |}.

Definition set_ticket (c : coord) (defer : bool) (pending : option Z) : coord :=
  {| co_written_lsn := co_written_lsn c; co_durable_lsn := co_durable_lsn c; co_commit_error := co_commit_error c;
     co_leader_active := co_leader_active c; co_commit_failed := co_commit_failed c; co_sync_relaxed := co_sync_relaxed c;
     co_defer_commit := defer; co_pending := pending |}.

(** As [sdb_pager_open_internal] leaves it. *)
Definition coord_init (current_lsn : Z) : coord :=
  {| co_written_lsn := current_lsn; co_durable_lsn := current_lsn; co_commit_error := SDB_OK; co_leader_active := false;
     co_commit_failed := false; co_sync_relaxed := false; co_defer_commit := false; co_pending := None |}.

Definition sdb_pager_set_defer_commit (c : coord) (defer : bool) : coord :=
  set_ticket c defer (if defer then None else co_pending c).

Definition sdb_pager_set_sync_relaxed (c : coord) (relaxed : bool) : coord :=
  {| co_written_lsn := co_written_lsn c; co_durable_lsn := co_durable_lsn c; co_commit_error := co_commit_error c;
     co_leader_active := co_leader_active c; co_commit_failed := co_commit_failed c; co_sync_relaxed := relaxed;
     co_defer_commit := co_defer_commit c; co_pending := co_pending c |}.

Definition sdb_pager_take_pending (c : coord) : option Z * coord := (co_pending c, set_ticket c (co_defer_commit c) None).

(** The deferred branch of [sdb_txn_commit]: the bytes are written, not synced. *)
Definition prepare_write (append_offset : Z) (sb : sdb_superblock_v1) (txn_id : Z) (pages : list sdb_wal_page) (wal : sdb_file)
  : option (result Z * sdb_file) :=
  match sdb_wal_encode_txn sb append_offset txn_id pages with
  | None => None
  | Some (Err e) => Some (Err e, wal)
  | Some (Ok (buffer, write_offset, new_offset)) => Some ((_ ← sdb_file_write_full write_offset buffer; mret new_offset) wal)
  end.

(** Its tail: the transaction is published, unless the batch is poisoned. *)
Definition commit_publish (c : coord) (txn_id : Z) : sdb_status * coord :=
  if co_commit_failed c then (co_commit_error c, c)
  else
    let c := if txn_id >? co_written_lsn c then set_lsns c txn_id (co_durable_lsn c) else c in
    (SDB_OK, set_ticket c (co_defer_commit c) (Some txn_id)).

(** [sdb_pager_fsync_locked] up to the release of the mutex; [None] when it goes on
    to the [fsync], for [co_written_lsn c]. *)
Definition fsync_begin (c : coord) : option coord :=
  if co_durable_lsn c >=? co_written_lsn c then Some c
  else if co_sync_relaxed c then Some (set_lsns c (co_written_lsn c) (co_written_lsn c))
  else None.

(** And from the moment the mutex is held again. *)
Definition fsync_end (c : coord) (target : Z) (io_status : sdb_status) : coord :=
  if bool_decide (io_status = SDB_OK)
  then if target >? co_durable_lsn c then set_lsns c (co_written_lsn c) target else c
  else set_poisoned c io_status.

(** ** Threads in [sdb_pager_commit_durable] *)

Inductive thread :=
  | Entering (txn : Z)                              (* before the first lock *)
  | Awake (txn : Z)                                 (* about to test the predicate *)
  | Syncing (txn target : Z)                        (* leader, mutex released *)
  | Synced (txn target : Z) (io_status : sdb_status) (* leader, after [fsync] *)
  | Waiting (txn : Z)                               (* in [sdb_cond_wait] *)
  | Finished (txn : Z) (result : sdb_status).

Definition th_txn (th : thread) : Z :=
  match th with
  | Entering txn | Awake txn | Syncing txn _ | Synced txn _ _ | Waiting txn | Finished txn _ => txn
  end.

(** The body of the loop, up to the next point at which the mutex is not held; the
    flag tells whether [commit_cond] was broadcast.  A leader that needs no [fsync]
    goes round once more. *)
Fixpoint commit_loop (fuel : nat) (txn_id : Z) (c : coord) : thread * coord * bool :=
  if co_durable_lsn c >=? txn_id then (Finished txn_id SDB_OK, c, false)
  else if co_commit_failed c then (Finished txn_id (co_commit_error c), c, false)
  else if negb (co_leader_active c) then
    let c := set_leader c true in
    match fsync_begin c with
    | None => (Syncing txn_id (co_written_lsn c), c, false)
    | Some c =>
        let c := set_leader c false in
        match fuel with
        | O => (Awake txn_id, c, true)
        | S fuel => let '(th, c, _) := commit_loop fuel txn_id c in (th, c, true)
        end
    end
  else (Waiting txn_id, c, false).

(** What a scheduled thread does; [None] when it sleeps or has returned. *)
Definition turn (th : thread) (c : coord) (wal : sdb_file) : option (thread * coord * sdb_file * bool) :=
  match th with
  | Entering txn =>
      if (txn =? 0) || (txn >? co_written_lsn c) then Some (Finished txn SDB_E_INVALID_ARGUMENT, c, wal, false)
      else let '(th, c, woken) := commit_loop 1 txn c in Some (th, c, wal, woken)
  | Awake txn => let '(th, c, woken) := commit_loop 1 txn c in Some (th, c, wal, woken)
  | Syncing txn target => let '(r, wal) := sdb_file_sync wal in Some (Synced txn target (status_of r), c, wal, false)
  | Synced txn target io_status =>
      let '(th, c, _) := commit_loop 1 txn (set_leader (fsync_end c target io_status) false) in Some (th, c, wal, true)
  | Waiting _ | Finished _ _ => None
  end.

(** [sdb_cond_broadcast] *)
Definition wake (th : thread) : thread := match th with Waiting txn => Awake txn | _ => th end.

(** [sdb_pager_group_checkpoint_if_due] waits while this holds. *)
Definition drain_waits (c : coord) : bool :=
  negb (co_commit_failed c) && (co_leader_active c || negb (co_durable_lsn c =? co_written_lsn c)).

(** ** The system *)

(** [sy_log] lists the transactions written to the log; [sy_staged] is the one that
    is written and not yet published; [sy_needs_recovery] stops further commits. *)
Record system := {
  sy_co : coord;
  sy_wal : sdb_file;
  sy_log : list wal_txn;
  sy_staged : option Z;
  sy_needs_recovery : bool;
  sy_threads : list thread
}.

Definition appended (s : system) (t : wal_txn) (wal : sdb_file) (staged : option Z) : system :=
  {| sy_co := sy_co s; sy_wal := wal; sy_log := sy_log s ++ [t]; sy_staged := staged;
     sy_needs_recovery := sy_needs_recovery s; sy_threads := sy_threads s |}.

Definition stopped (s : system) (c : coord) (wal : sdb_file) : system :=
  {| sy_co := c; sy_wal := wal; sy_log := sy_log s; sy_staged := None; sy_needs_recovery := true; sy_threads := sy_threads s |}.

Definition published (s : system) (c : coord) (txn : Z) : system :=
  {| sy_co := c; sy_wal := sy_wal s; sy_log := sy_log s; sy_staged := None; sy_needs_recovery := sy_needs_recovery s;
     sy_threads := sy_threads s ++ [Entering txn] |}.

(** Thread [i] took its turn. *)
Definition scheduled (s : system) (i : nat) (th : thread) (c : coord) (wal : sdb_file) (woken : bool) : system :=
  {| sy_co := c; sy_wal := wal; sy_log := sy_log s; sy_staged := sy_staged s; sy_needs_recovery := sy_needs_recovery s;
     sy_threads := <[i := th]> (if woken then wake <$> sy_threads s else sy_threads s) |}.

Definition spurious (s : system) (i : nat) (txn : Z) : system :=
  {| sy_co := sy_co s; sy_wal := sy_wal s; sy_log := sy_log s; sy_staged := sy_staged s;
     sy_needs_recovery := sy_needs_recovery s; sy_threads := <[i := Awake txn]> (sy_threads s) |}.

Inductive thread_step (s : system) : system -> Prop :=
  | step_turn i th th' c wal woken :
      sy_threads s !! i = Some th -> turn th (sy_co s) (sy_wal s) = Some (th', c, wal, woken) ->
      thread_step s (scheduled s i th' c wal woken).

(** ** What survives a crash *)

(** The file begins durably with [b], outside everything a crash may damage. *)
Definition survives (f : sdb_file) (b : bytes) : Prop :=
  forall i, (i < length b)%nat -> ~ touched f i /\ f_durable f !! i = b !! i.

Lemma prefix_lookup_all (b c : bytes) : (forall i, (i < length b)%nat -> c !! i = b !! i) -> b `prefix_of` c.
Proof.
  intros H; exists (drop (length b) c); rewrite <- (take_drop (length b) c) at 1; f_equal.
  apply list_eq; intros i; destruct (decide (i < length b)%nat).
  - by rewrite lookup_take_lt, H.
  - by rewrite lookup_take_ge, lookup_ge_None_2 by lia.
Qed.

Lemma survives_crash (f : sdb_file) (b c : bytes) : survives f b -> crash_contents f c -> b `prefix_of` c.
Proof. intros Hs Hc; apply prefix_lookup_all; intros i Hi; destruct (Hs i Hi) as [Ht <-]; by apply Hc. Qed.

Lemma survives_same (f f' : sdb_file) (b : bytes) : same_contents f f' -> survives f b -> survives f' b.
Proof. intros (_ & Hdu & Hdi & _) Hs i Hi; unfold touched; rewrite Hdu, Hdi; by apply Hs. Qed.

(** A write at the end of the file keeps what is durable. *)
Lemma survives_write (f f' : sdb_file) (b : bytes) (n : nat) :
  write_effect (length (f_data f)) n f f' -> (0 < n)%nat -> (length b <= length (f_data f))%nat -> survives f b -> survives f' b.
Proof.
  intros [D _ Di _ _ _] Hn Hl Hs i Hi; destruct (Hs i Hi) as [Ht Hv]; rewrite D; split; [|done].
  intros H; destruct (Di i H) as [H'|H']; [done|].
  unfold write_dirty in H'; rewrite bool_decide_eq_false_2 in H' by lia; cbn in H'; lia.
Qed.

Lemma survives_synced (f : sdb_file) (b : bytes) :
  f_durable f = f_data f -> f_dirty f = [] -> b `prefix_of` f_data f -> survives f b.
Proof.
  intros Hdu Hdi [k E] i Hi; unfold touched; rewrite Hdi, Hdu, E, lookup_app_l by done; split; [inversion 1|done].
Qed.

Lemma wal_contents_take (log : list wal_txn) (k : nat) : wal_contents (take k log) `prefix_of` wal_contents log.
Proof.
  destruct k as [|k]; [apply prefix_nil|]; destruct log as [|t log]; [done|]; cbn [take wal_contents].
  apply prefix_app; unfold log_bytes; cbn [fmap list_fmap concat]; apply prefix_app.
  rewrite <- (take_drop k log) at 2; rewrite fmap_app, concat_app; by apply prefix_app_r.
Qed.

Section System.
Context (avx2 : bool) (sb : sdb_superblock_v1) (key : option bytes).

Abbreviation base := (sb_checkpoint_lsn sb).

(** The transaction the pager would commit next. *)
Definition next_txn (s : system) (t : wal_txn) : Prop :=
  txn_ok avx2 sb key (wal_end (sy_log s)) (base + Z.of_nat (length (sy_log s))) (wal_next sb (sy_log s)) t.

(** A committer under the engine's mutex: it writes its transaction, then publishes
    it and joins the threads; or, in an explicit transaction, it appends and syncs. *)
Inductive step (s : system) : system -> Prop :=
  | step_prepare t new wal :
      sy_needs_recovery s = false -> sy_staged s = None -> next_txn s t ->
      prepare_write (wal_end (sy_log s)) (wt_sb t) (wt_id t) (wt_pages t) (sy_wal s) = Some (Ok new, wal) ->
      step s (appended s t wal (Some (wt_id t)))
  | step_prepare_fails t e wal :
      sy_needs_recovery s = false -> sy_staged s = None -> next_txn s t ->
      prepare_write (wal_end (sy_log s)) (wt_sb t) (wt_id t) (wt_pages t) (sy_wal s) = Some (Err e, wal) ->
      step s (stopped s (sy_co s) wal)
  | step_publish txn c :
      sy_staged s = Some txn -> commit_publish (sy_co s) txn = (SDB_OK, c) -> step s (published s c txn)
  | step_publish_fails txn e c :
      sy_staged s = Some txn -> commit_publish (sy_co s) txn = (e, c) -> e <> SDB_OK -> step s (stopped s c (sy_wal s))
  | step_explicit t new wal :
      sy_needs_recovery s = false -> sy_staged s = None -> next_txn s t ->
      sdb_wal_append_txn (wal_end (sy_log s)) (wt_sb t) (wt_id t) (wt_pages t) (sy_wal s) = Some (Ok new, wal) ->
      step s (appended s t wal None)
  | step_explicit_fails t e wal :
      sy_needs_recovery s = false -> sy_staged s = None -> next_txn s t ->
      sdb_wal_append_txn (wal_end (sy_log s)) (wt_sb t) (wt_id t) (wt_pages t) (sy_wal s) = Some (Err e, wal) ->
      step s (stopped s (sy_co s) wal)
  | step_thread s' : thread_step s s' -> step s s'
  | step_spurious i txn : sy_threads s !! i = Some (Waiting txn) -> step s (spurious s i txn).

(** After opening: an empty log, nobody in the coordinator. *)
Definition start (relaxed : bool) (script : list os_reply) : system :=
  {| sy_co := sdb_pager_set_sync_relaxed (coord_init base) relaxed;
     sy_wal := {| f_data := []; f_durable := []; f_dirty := []; f_script := script |};
     sy_log := []; sy_staged := None; sy_needs_recovery := false; sy_threads := [] |}.

Hypothesis Hsize : 4096 <= sb_page_size sb <= 65536.
Hypothesis Hfile : length (sb_file_id sb) = 16%nat.
Hypothesis Hbase : 0 <= base.

(** ** The invariant *)

(** The log up to and including the transaction [lsn]. *)
Definition log_upto (log : list wal_txn) (lsn : Z) : bytes := wal_contents (take (Z.to_nat (lsn - base)) log).

Definition leading (th : thread) : bool := match th with Syncing _ _ | Synced _ _ _ => true | _ => false end.

Definition thread_ok (c : coord) (wal : sdb_file) (log : list wal_txn) (th : thread) : Prop :=
  base < th_txn th <= co_written_lsn c
  /\ match th with
     | Entering _ | Awake _ => True
     | Waiting _ => co_leader_active c = true
     | Syncing txn target => txn <= target <= co_written_lsn c
     | Synced txn target io => txn <= target <= co_written_lsn c /\ (io = SDB_OK -> survives wal (log_upto log target))
     | Finished txn status =>
         (status = SDB_OK -> txn <= co_durable_lsn c)
         /\ (status <> SDB_OK -> co_commit_failed c = true)
     end.

Record system_ok (s : system) : Prop := {
  so_log : log_ok avx2 sb key 64 base (sb_next_page_id sb) (sy_log s);
  so_data : wal_contents (sy_log s) `prefix_of` f_data (sy_wal s);
  so_exact : sy_needs_recovery s = false -> f_data (sy_wal s) = wal_contents (sy_log s);
  so_wf : file_wf (sy_wal s);
  so_lsns : base <= co_durable_lsn (sy_co s) <= co_written_lsn (sy_co s);
  so_written : co_written_lsn (sy_co s) <= base + Z.of_nat (length (sy_log s));
  so_staged : forall txn, sy_staged s = Some txn -> txn = base + Z.of_nat (length (sy_log s)) /\ co_written_lsn (sy_co s) < txn;
  so_durable : co_sync_relaxed (sy_co s) = false -> survives (sy_wal s) (log_upto (sy_log s) (co_durable_lsn (sy_co s)));
  so_failed : co_commit_failed (sy_co s) = true -> co_commit_error (sy_co s) <> SDB_OK;
  so_threads : Forall (thread_ok (sy_co s) (sy_wal s) (sy_log s)) (sy_threads s);
  so_leader : length (filter (fun th => leading th = true) (sy_threads s)) = if co_leader_active (sy_co s) then 1%nat else 0%nat;
  so_driven : co_durable_lsn (sy_co s) < co_written_lsn (sy_co s) ->
    Exists (fun th => th_txn th = co_written_lsn (sy_co s) /\ (forall st, th = Finished (th_txn th) st -> st <> SDB_OK)) (sy_threads s)
}.

Lemma log_upto_app (log l : list wal_txn) (lsn : Z) :
  lsn <= base + Z.of_nat (length log) -> log_upto (log ++ l) lsn = log_upto log lsn.
Proof. intros; unfold log_upto; rewrite take_app_le by lia; done. Qed.

(** ** Threads *)

(** What one turn of the loop does for a published transaction. *)
Definition loop_outcome (txn : Z) (c : coord) (out : thread * coord * bool) : Prop :=
  (txn <= co_durable_lsn c /\ out = (Finished txn SDB_OK, c, false))
  \/ (co_durable_lsn c < txn /\ co_commit_failed c = true /\ out = (Finished txn (co_commit_error c), c, false))
  \/ (co_durable_lsn c < txn /\ co_commit_failed c = false
      /\ (co_leader_active c = true /\ out = (Waiting txn, c, false)
          \/ co_leader_active c = false /\ co_sync_relaxed c = false
             /\ out = (Syncing txn (co_written_lsn c), set_leader c true, false)
          \/ co_leader_active c = false /\ co_sync_relaxed c = true
             /\ out = (Finished txn SDB_OK, set_lsns c (co_written_lsn c) (co_written_lsn c), true))).

Lemma commit_loop_spec (txn : Z) (c : coord) : txn <= co_written_lsn c -> loop_outcome txn c (commit_loop 1 txn c).
Proof.
  intros Hw; unfold loop_outcome; cbn [commit_loop]; rewrite Z.geb_leb; destruct (Z.leb_spec txn (co_durable_lsn c)); [by left|right].
  destruct (co_commit_failed c) eqn:Ef; [left; split_and!; [lia|done|done]|right; split; [lia|split; [done|]]].
  destruct (co_leader_active c) eqn:El; cbn [negb]; [by left|right].
  unfold fsync_begin; cbn [set_leader co_durable_lsn co_written_lsn co_sync_relaxed].
  rewrite Z.geb_leb, (proj2 (Z.leb_gt _ _)) by lia; destruct (co_sync_relaxed c) eqn:Er; [right|by left].
  split_and!; try done; cbn [set_lsns set_leader co_durable_lsn]; rewrite Z.geb_leb, (proj2 (Z.leb_le _ _)) by lia.
  unfold set_leader, set_lsns; cbn; by rewrite El.
Qed.

(** ** Every step keeps the invariant *)

Definition leaders (ths : list thread) : nat := length (filter (fun th => leading th = true) ths).

Lemma leaders_app (a b : list thread) : leaders (a ++ b) = (leaders a + leaders b)%nat.
Proof. unfold leaders; by rewrite list.filter_app, length_app. Qed.

Lemma leaders_cons (th : thread) (ths : list thread) : leaders (th :: ths) = (Nat.b2n (leading th) + leaders ths)%nat.
Proof. unfold leaders; rewrite filter_cons; by destruct (leading th). Qed.

Lemma leaders_wake (ths : list thread) : leaders (wake <$> ths) = leaders ths.
Proof. induction ths as [|th ths IH]; [done|]; rewrite fmap_cons, !leaders_cons, IH; by destruct th. Qed.

Definition woken_list (woken : bool) (ths : list thread) : list thread := if woken then wake <$> ths else ths.

Lemma scheduled_split (s : system) (i : nat) (th th' : thread) (c : coord) (wal : sdb_file) (woken : bool) :
  sy_threads s !! i = Some th ->
  exists a b, sy_threads s = a ++ th :: b
    /\ sy_threads (scheduled s i th' c wal woken) = woken_list woken a ++ th' :: woken_list woken b.
Proof.
  intros H; exists (take i (sy_threads s)), (drop (S i) (sy_threads s)); split; [by rewrite take_drop_middle|].
  apply lookup_lt_Some in H; cbn [scheduled sy_threads]; destruct woken; cbn [woken_list].
  - rewrite insert_take_drop by (by rewrite length_fmap); by rewrite <- fmap_take, <- fmap_drop.
  - by apply insert_take_drop.
Qed.

Lemma leaders_woken (woken : bool) (ths : list thread) : leaders (woken_list woken ths) = leaders ths.
Proof. destruct woken; [apply leaders_wake|done]. Qed.

(** How one turn may change the coordinator and the log. *)
Record moved (log : list wal_txn) (c c' : coord) (wal wal' : sdb_file) : Prop := {
  mv_written : co_written_lsn c' = co_written_lsn c;
  mv_durable : co_durable_lsn c <= co_durable_lsn c' <= co_written_lsn c;
  mv_failed : co_commit_failed c = true -> co_commit_failed c' = true;
  mv_error : co_commit_failed c' = true -> co_commit_error c' <> SDB_OK;
  mv_relaxed : co_sync_relaxed c' = co_sync_relaxed c;
  mv_data : f_data wal' = f_data wal;
  mv_wf : file_wf wal';
  mv_survives : forall b, b `prefix_of` wal_contents log -> survives wal b -> survives wal' b;
  mv_log : co_sync_relaxed c = false -> survives wal' (log_upto log (co_durable_lsn c'))
}.

Lemma thread_ok_moved (log : list wal_txn) (c c' : coord) (wal wal' : sdb_file) (woken : bool) (th : thread) :
  moved log c c' wal wal' -> (woken = false -> co_leader_active c = true -> co_leader_active c' = true) ->
  thread_ok c wal log th -> thread_ok c' wal' log (if woken then wake th else th).
Proof.
  intros [Ew Hd Hf _ _ _ _ Hs _] Hl [Ht Hth]; unfold thread_ok; rewrite Ew.
  assert (Hsv : forall lsn, survives wal (log_upto log lsn) -> survives wal' (log_upto log lsn)).
  { intros lsn; apply Hs, wal_contents_take. }
  destruct woken, th as [txn|txn|txn target|txn target io|txn|txn status]; cbn [wake th_txn] in *; naive_solver lia.
Qed.

Lemma driven_woken (w : Z) (woken : bool) (ths : list thread) :
  let P := fun th => th_txn th = w /\ (forall st, th = Finished (th_txn th) st -> st <> SDB_OK) in
  Exists P ths -> Exists P (woken_list woken ths).
Proof.
  intros P H; destruct woken; [|done]; cbn [woken_list]; rewrite Exists_fmap.
  eapply Exists_impl; [|exact H]; intros th [Ht Hn]; subst P; cbn; destruct th; cbn in *; naive_solver.
Qed.

Lemma Forall_woken (P Q : thread -> Prop) (woken : bool) (ths : list thread) :
  (forall th, P th -> Q (if woken then wake th else th)) -> Forall P ths -> Forall Q (woken_list woken ths).
Proof. intros H HF; destruct woken; cbn [woken_list]; [rewrite Forall_fmap|]; eapply List.Forall_impl; [|done|..|done]; exact H. Qed.

Lemma scheduled_ok (s : system) (i : nat) (th th' : thread) (c : coord) (wal : sdb_file) (woken : bool) :
  system_ok s -> sy_threads s !! i = Some th -> moved (sy_log s) (sy_co s) c (sy_wal s) wal ->
  thread_ok c wal (sy_log s) th' -> th_txn th' = th_txn th ->
  (woken = false -> co_leader_active (sy_co s) = true -> co_leader_active c = true) ->
  (Nat.b2n (co_leader_active c) + Nat.b2n (leading th) = Nat.b2n (co_leader_active (sy_co s)) + Nat.b2n (leading th'))%nat ->
  system_ok (scheduled s i th' c wal woken).
Proof.
  intros [Hlog Hdat Hex Hwf Hlsn Hw Hst Hdu Hfa Hth Hle Hdr] Hi Hmv Hok Htx Hwk Hac.
  destruct (scheduled_split s i th th' c wal woken Hi) as (a & b & E & E').
  pose proof Hmv as [Ew Hd Hf He Er Edat Hwf' _ Hls]; rewrite E in Hth, Hle, Hdr.
  apply Forall_app in Hth as [Ha Hb]; apply Forall_cons_iff in Hb as [Hith Hb].
  split; try (cbn [scheduled sy_co sy_wal sy_log sy_staged sy_needs_recovery]; rewrite ?Ew, ?Edat, ?Er; done || lia).
  - rewrite E'; apply Forall_app; split; [|apply Forall_cons_iff; split; [done|]];
      (eapply Forall_woken; [|done]; intros x; by apply thread_ok_moved).
  - rewrite E'; fold (leaders (woken_list woken a ++ th' :: woken_list woken b)).
    fold (leaders (a ++ th :: b)) in Hle; rewrite leaders_app, leaders_cons in *; rewrite !leaders_woken.
    cbn [scheduled sy_co] in *; destruct (co_leader_active c), (co_leader_active (sy_co s)), (leading th), (leading th'); cbn in *; lia.
  - rewrite E'; cbn [scheduled sy_co]; rewrite Ew; intros Hlt; specialize (Hdr ltac:(lia)).
    rewrite Exists_app, Exists_cons in *; destruct Hdr as [Hx|[[Hx1 Hx2]|Hx]].
    + left; by apply driven_woken.
    + right; left; split; [by rewrite Htx|]; intros st Est ->; destruct Hok as [_ Hok].
      rewrite Est in Hok; cbn in Hok; destruct Hok as [Hok _]; specialize (Hok eq_refl); rewrite Est in Htx; cbn in *; lia.
    + right; right; by apply driven_woken.
Qed.

Lemma moved_lsns (s : system) (c : coord) :
  system_ok s -> co_written_lsn c = co_written_lsn (sy_co s) ->
  co_durable_lsn (sy_co s) <= co_durable_lsn c <= co_written_lsn (sy_co s) ->
  (co_commit_failed (sy_co s) = true -> co_commit_failed c = true) ->
  (co_commit_failed c = true -> co_commit_error c <> SDB_OK) -> co_sync_relaxed c = co_sync_relaxed (sy_co s) ->
  (co_sync_relaxed c = false -> survives (sy_wal s) (log_upto (sy_log s) (co_durable_lsn c))) ->
  moved (sy_log s) (sy_co s) c (sy_wal s) (sy_wal s).
Proof. intros Hok Ew Hd Hf He Er Hs; split; try done; [apply Hok|by rewrite <- Er]. Qed.

(** A turn of the loop, taken by a thread that is not the leader. *)
Lemma loop_turn_ok (s : system) (i : nat) (th : thread) :
  system_ok s -> sy_threads s !! i = Some th -> leading th = false ->
  let '(th', c, woken) := commit_loop 1 (th_txn th) (sy_co s) in system_ok (scheduled s i th' c (sy_wal s) woken).
Proof.
  intros Hok Hi Hnl; pose proof Hok as [_ _ _ _ Hlsn _ _ Hdu Hfa Hth _ _].
  assert (Htx : base < th_txn th <= co_written_lsn (sy_co s)) by (by eapply Forall_lookup_1 in Hth as [Hth _]).
  assert (Hsame : moved (sy_log s) (sy_co s) (sy_co s) (sy_wal s) (sy_wal s)) by (apply moved_lsns; done || lia).
  destruct (commit_loop_spec (th_txn th) (sy_co s)) as [[Hle ->]|[(Hlt & Hf & ->)|(Hlt & Hf & [[Hl ->]|[(Hl & Hr & ->)|(Hl & Hr & ->)]])]]; [lia|..].
  - apply (scheduled_ok s i th); try done; by rewrite Hnl.
  - apply (scheduled_ok s i th); try done; [|by rewrite Hnl]; split; [done|]; split; [|done]; intros E; by apply Hfa in Hf.
  - apply (scheduled_ok s i th); try done; by rewrite Hnl.
  - apply (scheduled_ok s i th); try done; [apply moved_lsns; cbn; done || lia|split; cbn; lia|cbn; by rewrite Hnl, Hl].
  - apply (scheduled_ok s i th); try done; [apply moved_lsns; cbn; done || lia || congruence|split; cbn; [lia|naive_solver lia]|cbn; by rewrite Hnl].
Qed.

(** The leader's [fsync] and what it does once it holds the mutex again. *)
Lemma sync_turn_ok (s : system) (i : nat) (txn target : Z) (wal : sdb_file) (r : result unit) :
  system_ok s -> sy_threads s !! i = Some (Syncing txn target) -> sdb_file_sync (sy_wal s) = (r, wal) ->
  system_ok (scheduled s i (Synced txn target (status_of r)) (sy_co s) wal false).
Proof.
  intros Hok Hi Hr; pose proof Hok as [_ Hdat _ Hwf Hlsn _ _ Hdu Hfa Hth _ _].
  eapply Forall_lookup_1 in Hth as [Htx Htg]; [|done]; cbn in Htx, Htg.
  destruct (sync_spec (sy_wal s)) as (r' & f' & E & Hs); rewrite Hr in E; injection E as <- <-.
  assert (Hk : forall b, b `prefix_of` wal_contents (sy_log s) -> survives (sy_wal s) b -> survives wal b).
  { intros b Hb Hsv; destruct Hs as [(_ & Hd & Hdu' & Hdi & _)|(_ & Hsame & _)]; [|by eapply survives_same].
    apply survives_synced; [by rewrite Hdu', Hd|done|rewrite Hd; by etransitivity]. }
  apply (scheduled_ok s i (Syncing txn target)); try done.
  - split; try done; [lia|by destruct Hs as [(_ & ? & _)|(_ & (? & _) & _)]| |intros; by apply Hk; [apply wal_contents_take|apply Hdu]].
    destruct Hs as [(_ & Hd & Hdu' & Hdi & _)|(_ & Hsame & _)]; [apply synced_wf; [by rewrite Hdu', Hd|done]|by eapply same_contents_wf].
  - split; [done|]; split; [done|]; intros Eio; destruct Hs as [(_ & Hd & Hdu' & Hdi & _)|(-> & _)]; [|done].
    apply survives_synced; [by rewrite Hdu', Hd|done|rewrite Hd; etransitivity; [apply wal_contents_take|done]].
Qed.

Lemma relock_turn_ok (s : system) (i : nat) (txn target : Z) (io : sdb_status) :
  system_ok s -> sy_threads s !! i = Some (Synced txn target io) ->
  let '(th', c, _) := commit_loop 1 txn (set_leader (fsync_end (sy_co s) target io) false) in
  system_ok (scheduled s i th' c (sy_wal s) true).
Proof.
  intros Hok Hi; pose proof Hok as [_ _ _ _ Hlsn _ _ Hdu Hfa Hth Hle _].
  assert (Hact : co_leader_active (sy_co s) = true).
  { destruct (scheduled_split s i _ (Awake 0) (sy_co s) (sy_wal s) false Hi) as (a & b & E & _); rewrite E in Hle.
    fold (leaders (a ++ Synced txn target io :: b)) in Hle; rewrite leaders_app, leaders_cons in Hle; cbn in Hle.
    destruct (co_leader_active (sy_co s)); [done|lia]. }
  destruct (Forall_lookup_1 _ _ _ _ Hth Hi) as [Htx Hsv]; cbn in Htx; destruct Hsv as [Htg Hsv].
  set (c := set_leader (fsync_end (sy_co s) target io) false).
  assert (Hc : co_written_lsn c = co_written_lsn (sy_co s) /\ co_leader_active c = false
    /\ (txn <= co_durable_lsn c \/ co_commit_failed c = true) /\ moved (sy_log s) (sy_co s) c (sy_wal s) (sy_wal s)).
  { unfold c, fsync_end; case_bool_decide as Eio; [rewrite Z.gtb_ltb; destruct (Z.ltb_spec (co_durable_lsn (sy_co s)) target)|];
      (split; [done|]; split; [done|]; split; [cbn; auto with lia|]); apply moved_lsns; cbn; try done || lia; auto. }
  destruct Hc as (Ew & El & Hfin & Hmv); destruct (commit_loop_spec txn c) as [[Hd ->]|[(Hd & Hf & ->)|(Hd & Hf & _)]]; [lia|..].
  - apply (scheduled_ok s i (Synced txn target io)); try done; [split; [cbn [th_txn]; lia|done]|by rewrite El, Hact].
  - apply (scheduled_ok s i (Synced txn target io)); try done; [|by rewrite El, Hact].
    split; [cbn [th_txn]; lia|]; split; [|done]; intros E; by apply (mv_error _ _ _ _ _ Hmv) in Hf.
  - destruct Hfin as [?|?]; [lia|congruence].
Qed.

Lemma thread_step_ok (s s' : system) : system_ok s -> thread_step s s' -> system_ok s'.
Proof.
  intros Hok [i th th' c wal woken Hi Ht]; destruct th as [txn|txn|txn target|txn target io|txn|txn st]; cbn [turn] in Ht; try done.
  - destruct (Forall_lookup_1 _ _ _ _ (so_threads _ Hok) Hi) as [Htx _]; cbn in Htx.
    destruct (_ || _) eqn:Eg.
    { apply orb_true_iff in Eg as [Eg|Eg]; zbool_hyps; lia. }
    pose proof (loop_turn_ok s i _ Hok Hi eq_refl) as H; cbn [th_txn] in H; destruct (commit_loop 1 txn _) as [[t1 c1] w1].
    by injection Ht as <- <- <- <-.
  - pose proof (loop_turn_ok s i _ Hok Hi eq_refl) as H; cbn [th_txn] in H; destruct (commit_loop 1 txn _) as [[t1 c1] w1].
    by injection Ht as <- <- <- <-.
  - destruct (sdb_file_sync _) as [r w] eqn:E; injection Ht as <- <- <- <-; by apply sync_turn_ok.
  - pose proof (relock_turn_ok s i _ _ _ Hok Hi) as H; destruct (commit_loop 1 txn _) as [[t1 c1] w1].
    by injection Ht as <- <- <- <-.
Qed.

(** What the write of a transaction does to the log, complete or not. *)
Record extended (log log' : list wal_txn) (wal wal' : sdb_file) : Prop := {
  ex_wf : file_wf wal';
  ex_data : wal_contents log' `prefix_of` f_data wal';
  ex_survives : forall b, b `prefix_of` wal_contents log -> survives wal b -> survives wal' b
}.

Lemma prepare_outcome (s : system) (t : wal_txn) (r : result Z) (wal : sdb_file) :
  system_ok s -> sy_needs_recovery s = false -> next_txn s t ->
  prepare_write (wal_end (sy_log s)) (wt_sb t) (wt_id t) (wt_pages t) (sy_wal s) = Some (r, wal) ->
  match r with
  | Ok _ => f_data wal = wal_contents (sy_log s ++ [t]) /\ extended (sy_log s) (sy_log s ++ [t]) (sy_wal s) wal
  | Err _ => extended (sy_log s) (sy_log s) (sy_wal s) wal
  end.
Proof.
  intros Hok Hnr Ht; unfold prepare_write; pose proof (so_exact _ Hok Hnr) as Hd.
  destruct (append_buffer avx2 sb key Hsize Hfile _ t (so_log _ Hok) Ht) as (buffer & -> & Eb & Hne & _); cbn [mem_ret].
  pose proof (snoc_max avx2 sb key Hsize Hfile _ t (so_log _ Hok) Ht) as Hm; unfold SDB_WAL_MAX_BYTES in Hm.
  rewrite <- (wal_contents_length sb Hfile), <- Eb, length_app in Hm by (by destruct (sy_log s)).
  destruct (write_full_spec (Z.of_nat (length (wal_contents (sy_log s)))) buffer (sy_wal s)) as (r1 & f1 & Ew & We & Hr);
    [lia|unfold INT64_MAX; lia|done|]; rewrite Nat2Z.id in We, Hr; rewrite <- Hd in We at 1.
  assert (Hb : (0 < length buffer)%nat) by (destruct buffer; [done|cbn; lia]).
  assert (Hsv : forall b, b `prefix_of` wal_contents (sy_log s) -> survives (sy_wal s) b -> survives f1 b).
  { intros b Hp; apply (survives_write _ _ _ _ We Hb); rewrite Hd; by apply prefix_length. }
  pose proof (write_effect_wf _ _ _ _ (so_wf _ Hok) We) as Hwf.
  unfold mbind, fileM_bind; rewrite Ew; destruct Hr as [[-> Ed]|[-> _]]; intros [= <- <-].
  - assert (E : f_data f1 = wal_contents (sy_log s ++ [t])).
    { rewrite Ed, Hd, <- Eb; unfold file_splice; rewrite Nat.sub_diag, app_nil_r, firstn_all, drop_ge, app_nil_r by lia; done. }
    split; [done|]; split; [done|by rewrite E|done].
  - split; [done| |done]; rewrite <- Hd; apply prefix_lookup_all; intros i Hi; apply (we_out _ _ _ _ We).
    unfold write_dirty; rewrite bool_decide_eq_false_2 by lia; cbn; lia.
Qed.

(** An explicit commit is the same write followed by an [fsync]. *)
Lemma append_is_prepare (off : Z) (sb' : sdb_superblock_v1) (txn : Z) (pages : list sdb_wal_page) (wal : sdb_file) :
  sdb_wal_append_txn off sb' txn pages wal
  = match prepare_write off sb' txn pages wal with
    | Some (Ok new, wal) => Some ((_ ← sdb_file_sync; mret new) wal)
    | out => out
    end.
Proof.
  unfold sdb_wal_append_txn, prepare_write; destruct (sdb_wal_encode_txn _ _ _ _) as [[[[b o] n]|e]|]; [|done..].
  unfold mbind, fileM_bind; destruct (sdb_file_write_full o b wal) as [[u|e] f1]; done.
Qed.

Lemma explicit_outcome (s : system) (t : wal_txn) (r : result Z) (wal : sdb_file) :
  system_ok s -> sy_needs_recovery s = false -> next_txn s t ->
  sdb_wal_append_txn (wal_end (sy_log s)) (wt_sb t) (wt_id t) (wt_pages t) (sy_wal s) = Some (r, wal) ->
  match r with
  | Ok _ => f_data wal = wal_contents (sy_log s ++ [t]) /\ extended (sy_log s) (sy_log s ++ [t]) (sy_wal s) wal
  | Err _ => extended (sy_log s) (sy_log s) (sy_wal s) wal
  end.
Proof.
  intros Hok Hnr Ht; rewrite append_is_prepare; destruct (prepare_write _ _ _ _ _) as [[[new|e] w]|] eqn:Ep; [|intros [= <- <-]|done];
    apply (prepare_outcome s t) in Ep; try done; destruct Ep as [Ed [Hwf Hp Hs]].
  assert (Hpre : wal_contents (sy_log s) `prefix_of` wal_contents (sy_log s ++ [t])).
  { rewrite <- (take_app_length (sy_log s) [t]) at 1; apply wal_contents_take. }
  unfold mbind, fileM_bind; destruct (sync_spec w) as (r1 & f1 & -> & [(-> & Hd & Hdu & Hdi & _)|(-> & Hsame & _)]); intros [= <- <-].
  - split; [by rewrite Hd|]; split; [apply synced_wf; [by rewrite Hdu, Hd|done]|by rewrite Hd|].
    intros b Hb _; apply survives_synced; [by rewrite Hdu, Hd|done|rewrite Hd, Ed; by etransitivity].
  - split; [by eapply same_contents_wf| |intros b Hb Hsv; eapply survives_same; [done|by apply Hs]].
    destruct Hsame as (Hd & _); rewrite Hd; by etransitivity.
Qed.

Lemma threads_extended (s : system) (c : coord) (log : list wal_txn) (wal : sdb_file) :
  system_ok s -> extended (sy_log s) log (sy_wal s) wal -> (exists l, log = sy_log s ++ l) ->
  co_written_lsn (sy_co s) <= co_written_lsn c -> co_durable_lsn c = co_durable_lsn (sy_co s) ->
  co_commit_failed c = co_commit_failed (sy_co s) -> co_leader_active c = co_leader_active (sy_co s) ->
  Forall (thread_ok c wal log) (sy_threads s)
  /\ (co_sync_relaxed (sy_co s) = false -> survives wal (log_upto log (co_durable_lsn c))).
Proof.
  intros Hok [_ _ Hs] [l ->] Hw Ed Ef El; pose proof (so_written _ Hok) as Hwl; pose proof (so_lsns _ Hok) as Hls; split.
  - eapply List.Forall_impl; [|apply Hok]; intros th [Htx Hth]; unfold thread_ok; rewrite Ed, Ef, El; split; [lia|].
    destruct th as [txn|txn|txn target|txn target io|txn|txn st]; try naive_solver lia.
    destruct Hth as [Htg Hsv]; split; [lia|]; intros Hio; rewrite log_upto_app by lia.
    apply Hs; [apply wal_contents_take|by apply Hsv].
  - intros Hr; rewrite Ed, log_upto_app by lia; apply Hs; [apply wal_contents_take|by apply Hok].
Qed.

Lemma appended_ok (s : system) (t : wal_txn) (wal : sdb_file) (staged : option Z) :
  system_ok s -> sy_staged s = None -> next_txn s t -> staged = None \/ staged = Some (wt_id t) ->
  f_data wal = wal_contents (sy_log s ++ [t]) -> extended (sy_log s) (sy_log s ++ [t]) (sy_wal s) wal ->
  system_ok (appended s t wal staged).
Proof.
  intros Hok Hns Ht Hst Hd Hex; destruct (threads_extended s (sy_co s) _ wal Hok Hex) as [Hth Hsv]; [by eexists|done..|].
  pose proof Hok as [Hlog _ _ _ Hlsn Hw _ _ Hfa _ Hle Hdr].
  split; cbn [appended sy_co sy_wal sy_log sy_staged sy_needs_recovery sy_threads]; rewrite ?length_app; cbn [length]; try done || lia.
  - by eapply snoc_ok.
  - by rewrite Hd.
  - apply Hex.
  - intros txn Etx; destruct Hst as [->| ->]; [done|]; injection Etx as <-; pose proof (to_id _ _ _ _ _ _ _ Ht); lia.
Qed.

Lemma stopped_ok (s : system) (wal : sdb_file) :
  system_ok s -> extended (sy_log s) (sy_log s) (sy_wal s) wal -> system_ok (stopped s (sy_co s) wal).
Proof.
  intros Hok Hex; destruct (threads_extended s (sy_co s) _ wal Hok Hex) as [Hth Hsv]; [exists []; by rewrite app_nil_r|done..|].
  pose proof Hok as [Hlog _ _ _ Hlsn Hw _ _ Hfa _ Hle Hdr]; pose proof Hex as [? ? _].
  split; cbn [stopped sy_co sy_wal sy_log sy_staged sy_needs_recovery sy_threads]; done.
Qed.

Lemma published_ok (s : system) (txn : Z) (c : coord) :
  system_ok s -> sy_staged s = Some txn -> commit_publish (sy_co s) txn = (SDB_OK, c) -> system_ok (published s c txn).
Proof.
  intros Hok Hst Hp; pose proof Hok as [Hlog Hdat Hex Hwf Hlsn Hw Hs Hdu Hfa Hth Hle Hdr]; destruct (Hs txn Hst) as [Etx Htx].
  unfold commit_publish in Hp; destruct (co_commit_failed (sy_co s)) eqn:Ef.
  { injection Hp as Hp _; by specialize (Hfa eq_refl). }
  rewrite Z.gtb_ltb, (proj2 (Z.ltb_lt _ _)) in Hp by lia; injection Hp as <-.
  destruct (threads_extended s (set_lsns (sy_co s) txn (co_durable_lsn (sy_co s))) (sy_log s) (sy_wal s) Hok) as [Hth' Hsv];
    [by split|exists []; by rewrite app_nil_r|cbn; lia|done..|].
  split; cbn [published set_ticket set_lsns sy_co sy_wal sy_log sy_staged sy_needs_recovery sy_threads co_written_lsn co_durable_lsn co_commit_failed co_leader_active co_sync_relaxed co_commit_error]; try done || lia.
  - by rewrite Ef.
  - apply Forall_app; split; [exact Hth'|]; constructor; [|constructor]; split; [cbn; lia|done].
  - fold (leaders (sy_threads s ++ [Entering txn])); rewrite leaders_app; cbn; rewrite Nat.add_0_r; exact Hle.
  - intros _; rewrite Exists_app, Exists_cons; right; left; done.
Qed.

Lemma spurious_ok (s : system) (i : nat) (txn : Z) :
  system_ok s -> sy_threads s !! i = Some (Waiting txn) -> system_ok (spurious s i txn).
Proof.
  intros Hok Hi; pose proof Hok as [_ _ _ _ Hlsn _ _ Hdu Hfa Hth _ _].
  destruct (Forall_lookup_1 _ _ _ _ Hth Hi) as [Htx _]; cbn in Htx.
  apply (scheduled_ok s i (Waiting txn) (Awake txn) (sy_co s) (sy_wal s) false); try done.
  apply moved_lsns; done || lia.
Qed.

Lemma system_step_ok (s s' : system) : system_ok s -> step s s' -> system_ok s'.
Proof.
  intros Hok [t new wal Hnr Hns Ht Hw|t e wal Hnr Hns Ht Hw|txn c Hst Hp|txn e c Hst Hp He|t new wal Hnr Hns Ht Hw|t e wal Hnr Hns Ht Hw|s1 Hs|i txn Hi].
  - apply (prepare_outcome s t) in Hw as [Hd Hex]; [|done..]; apply appended_ok; auto.
  - apply (prepare_outcome s t) in Hw; [|done..]; by apply stopped_ok.
  - by eapply published_ok.
  - unfold commit_publish in Hp; destruct (co_commit_failed (sy_co s)); [|by injection Hp as <-].
    injection Hp as _ <-; apply stopped_ok; [done|]; split; [apply Hok|apply Hok|done].
  - apply (explicit_outcome s t) in Hw as [Hd Hex]; [|done..]; apply appended_ok; auto.
  - apply (explicit_outcome s t) in Hw; [|done..]; by apply stopped_ok.
  - by eapply thread_step_ok.
  - by apply spurious_ok.
Qed.

Lemma turn_relaxed (th th' : thread) (c c' : coord) (wal wal' : sdb_file) (woken : bool) :
  turn th c wal = Some (th', c', wal', woken) -> co_sync_relaxed c' = co_sync_relaxed c.
Proof.
  assert (Hb : forall c c', fsync_begin c = Some c' -> co_sync_relaxed c' = co_sync_relaxed c).
  { intros c1 c2; unfold fsync_begin; repeat case_match; intros; by simplify_eq. }
  assert (Hl : forall fuel txn c, co_sync_relaxed (commit_loop fuel txn c).1.2 = co_sync_relaxed c).
  { induction fuel as [|fuel IH]; intros txn c1; cbn [commit_loop]; (case_match; [done|]); (case_match; [done|]); (case_match; [|done]);
      (destruct (fsync_begin _) as [c2|] eqn:E; [apply Hb in E|done]); [done|].
    specialize (IH txn (set_leader c2 false)); destruct (commit_loop fuel txn _) as [[? ?] ?]; cbn in *; congruence. }
  destruct th as [txn|txn|txn target|txn target io|txn|txn st]; cbn [turn]; try done.
  - case_match; [intros; by simplify_eq|]; specialize (Hl 1%nat txn c); destruct (commit_loop _ _ _) as [[? ?] ?]; intros; by simplify_eq.
  - specialize (Hl 1%nat txn c); destruct (commit_loop _ _ _) as [[? ?] ?]; intros; by simplify_eq.
  - destruct (sdb_file_sync wal); intros; by simplify_eq.
  - set (c1 := set_leader _ _); specialize (Hl 1%nat txn c1); destruct (commit_loop _ _ _) as [[? ?] ?]; intros; simplify_eq.
    cbn in Hl; rewrite Hl; unfold c1, fsync_end; by repeat case_match.
Qed.

Lemma step_relaxed (s s' : system) : step s s' -> co_sync_relaxed (sy_co s') = co_sync_relaxed (sy_co s).
Proof.
  intros [| |txn c _ Hp|txn e c _ Hp _| | |s1 Hs|]; try done; try (unfold commit_publish in Hp; repeat case_match; by simplify_eq).
  destruct Hs; by eapply turn_relaxed.
Qed.

Lemma start_ok (relaxed : bool) (script : list os_reply) : system_ok (start relaxed script).
Proof.
  split; cbn; try done || lia; intros _ i Hi.
  unfold log_upto in Hi; rewrite take_nil in Hi; cbn in Hi; lia.
Qed.

Lemma reachable_ok (relaxed : bool) (script : list os_reply) (s : system) : rtc step (start relaxed script) s -> system_ok s.
Proof. intros H; eapply (rtc_ind_r system_ok); [apply start_ok| |exact H]; intros s1 s2 _ Hs Hok; by eapply system_step_ok. Qed.

(** ** Termination *)

Definition finished (th : thread) : bool := match th with Finished _ _ => true | _ => false end.

Definition rank (th : thread) : nat :=
  match th with Entering _ | Awake _ => 3 | Syncing _ _ => 2 | Synced _ _ _ => 1 | Waiting _ | Finished _ _ => 0 end.

Definition unfinished (ths : list thread) : nat := sum_list_with (fun th => Nat.b2n (negb (finished th))) ths.

(** A bound on the turns the present threads can still take. *)
Definition weight (ths : list thread) : nat := (unfinished ths * (3 * length ths + 1) + sum_list_with rank ths)%nat.

Lemma sum_app (f : thread -> nat) (a b : list thread) : sum_list_with f (a ++ b) = (sum_list_with f a + sum_list_with f b)%nat.
Proof. induction a as [|x a IH]; cbn; [done|]; rewrite IH; lia. Qed.

Lemma unfinished_woken (woken : bool) (ths : list thread) : unfinished (woken_list woken ths) = unfinished ths.
Proof. destruct woken; [|done]; unfold unfinished; induction ths as [|th ths IH]; [done|]; cbn in *; rewrite IH; by destruct th. Qed.

Lemma ranks_woken (woken : bool) (ths : list thread) : (sum_list_with rank (woken_list woken ths) <= 3 * length ths)%nat.
Proof.
  destruct woken; cbn [woken_list]; induction ths as [|th ths IH]; cbn; try lia;
    [assert (rank (wake th) <= 3)%nat by (destruct th; cbn; lia)|assert (rank th <= 3)%nat by (destruct th; cbn; lia)]; cbn in IH; lia.
Qed.

Lemma length_woken (woken : bool) (ths : list thread) : length (woken_list woken ths) = length ths.
Proof. destruct woken; [apply length_fmap|done]. Qed.

(** A turn ends the thread, or moves it on and wakes nobody. *)
Lemma turn_advances (s : system) (i : nat) (th th' : thread) (c : coord) (wal : sdb_file) (woken : bool) :
  system_ok s -> sy_threads s !! i = Some th -> turn th (sy_co s) (sy_wal s) = Some (th', c, wal, woken) ->
  finished th = false /\ (finished th' = true \/ woken = false /\ (rank th' < rank th)%nat).
Proof.
  intros Hok Hi; destruct (Forall_lookup_1 _ _ _ _ (so_threads _ Hok) Hi) as [Htx Hth]; destruct th as [txn|txn|txn target|txn target io|txn|txn st];
    cbn [turn th_txn] in *; try done.
  - destruct (_ || _); [intros [= <- <- <- <-]; auto|].
    destruct (commit_loop_spec txn (sy_co s)) as [[_ ->]|[(_ & _ & ->)|(_ & _ & [[_ ->]|[(_ & _ & ->)|(_ & _ & ->)]])]]; [lia|..];
      intros [= <- <- <- <-]; cbn; auto with lia.
  - destruct (commit_loop_spec txn (sy_co s)) as [[_ ->]|[(_ & _ & ->)|(_ & _ & [[_ ->]|[(_ & _ & ->)|(_ & _ & ->)]])]]; [lia|..];
      intros [= <- <- <- <-]; cbn; auto with lia.
  - destruct (sdb_file_sync _) as [r w]; intros [= <- <- <- <-]; cbn; auto with lia.
  - set (c1 := set_leader _ _); assert (Hc : txn <= co_durable_lsn c1 \/ co_commit_failed c1 = true).
    { unfold c1, fsync_end; case_bool_decide; [rewrite Z.gtb_ltb; destruct (Z.ltb_spec (co_durable_lsn (sy_co s)) target)|]; cbn; auto with lia. }
    assert (Hw : txn <= co_written_lsn c1) by (unfold c1, fsync_end; repeat case_match; cbn; lia).
    destruct (commit_loop_spec txn c1 Hw) as [[_ ->]|[(_ & _ & ->)|(Hd & Hf & _)]]; [| |destruct Hc; [lia|congruence]];
      intros [= <- <- <- <-]; cbn; auto.
Qed.

Lemma thread_step_weight (s s' : system) :
  system_ok s -> thread_step s s' -> (weight (sy_threads s') < weight (sy_threads s))%nat.
Proof.
  intros Hok [i th th' c wal woken Hi Ht]; destruct (turn_advances s i th th' c wal woken Hok Hi Ht) as [Hf Hadv].
  destruct (scheduled_split s i th th' c wal woken Hi) as (a & b & -> & ->); unfold weight.
  rewrite !length_app; cbn [length]; rewrite !length_woken, !sum_app; cbn [sum_list_with]; unfold unfinished; rewrite !sum_app; cbn [sum_list_with].
  fold (unfinished (woken_list woken a)); fold (unfinished (woken_list woken b)); fold (unfinished a); fold (unfinished b).
  rewrite !unfinished_woken, Hf; pose proof (ranks_woken woken a); pose proof (ranks_woken woken b).
  destruct Hadv as [Hf'|[-> Hr]].
  - rewrite Hf'; cbn [negb Nat.b2n]; assert (rank th' = 0)%nat by (by destruct th'); nia.
  - destruct (finished th') eqn:Hf'; cbn [negb Nat.b2n woken_list] in *; [assert (rank th' = 0)%nat by (by destruct th')|]; nia.
Qed.

Lemma turn_none (th : thread) (c : coord) (wal : sdb_file) :
  turn th c wal = None -> (exists txn, th = Waiting txn) \/ finished th = true.
Proof.
  destruct th as [txn|txn|txn target|txn target io|txn|txn st]; cbn [turn]; intros H; [..|by left; exists txn|by right]; exfalso.
  - case_match; [done|]; by destruct (commit_loop _ _ _) as [[? ?] ?].
  - by destruct (commit_loop _ _ _) as [[? ?] ?].
  - by destruct (sdb_file_sync _).
  - by destruct (commit_loop _ _ _) as [[? ?] ?].
Qed.

Lemma no_leaders (ths : list thread) : Forall (fun th => leading th = false) ths -> leaders ths = 0%nat.
Proof. intros HF; induction HF as [|th ths Hth _ IH]; [done|]; by rewrite leaders_cons, Hth, IH. Qed.

(** When no thread can move, all have returned. *)
Lemma stuck_finished (s : system) :
  system_ok s -> (forall s', ~ thread_step s s') -> Forall (fun th => finished th = true) (sy_threads s).
Proof.
  intros Hok Hst; assert (Hmoves : forall i th, sy_threads s !! i = Some th -> turn th (sy_co s) (sy_wal s) = None).
  { intros i th Hi; destruct (turn th _ _) as [[[[th' c] wal] woken]|] eqn:E; [|done].
    exfalso; eapply Hst; by econstructor. }
  assert (Hnl : leaders (sy_threads s) = 0%nat).
  { apply no_leaders, Forall_lookup_2; intros i th Hi; specialize (Hmoves i th Hi).
    apply turn_none in Hmoves as [[txn ->]|]; [done|]; by destruct th. }
  pose proof (so_leader _ Hok) as Hl; fold (leaders (sy_threads s)) in Hl; rewrite Hnl in Hl.
  apply Forall_lookup_2; intros i th Hi; specialize (Hmoves i th Hi); apply turn_none in Hmoves as [[txn ->]|]; [|done].
  destruct (Forall_lookup_1 _ _ _ _ (so_threads _ Hok) Hi) as [_ Hth]; rewrite Hth in Hl; done.
Qed.

Lemma run_weight (s s' : system) (n : nat) :
  system_ok s -> nsteps thread_step n s s' -> system_ok s' /\ (n + weight (sy_threads s') <= weight (sy_threads s))%nat.
Proof.
  intros Hok Hn; induction Hn as [s|n s s1 s' Hs _ IH]; [split; [done|lia]|].
  destruct (IH (thread_step_ok s s1 Hok Hs)) as [Hok' Hw]; pose proof (thread_step_weight s s1 Hok Hs); split; [done|lia].
Qed.

(** When all have returned, the coordinator is drained or poisoned. *)
Lemma finished_drained (s : system) :
  system_ok s -> Forall (fun th => finished th = true) (sy_threads s) -> drain_waits (sy_co s) = false.
Proof.
  intros Hok HF; unfold drain_waits; destruct (co_commit_failed (sy_co s)) eqn:Ef; [done|]; cbn [negb andb].
  assert (Hl : co_leader_active (sy_co s) = false).
  { pose proof (so_leader _ Hok) as Hl; fold (leaders (sy_threads s)) in Hl.
    assert (leaders (sy_threads s) = 0%nat) as E by (apply no_leaders; eapply List.Forall_impl; [|done]; by intros []).
    rewrite E in Hl; by destruct (co_leader_active (sy_co s)). }
  rewrite Hl; cbn [orb]; pose proof (so_lsns _ Hok) as Hls.
  destruct (Z.eqb_spec (co_durable_lsn (sy_co s)) (co_written_lsn (sy_co s))); [done|exfalso].
  pose proof (so_driven _ Hok ltac:(lia)) as Hx; apply Exists_exists in Hx as (th & Hin & Etx & Hst).
  rewrite Forall_forall in HF; specialize (HF th Hin); destruct th as [| | | | |txn st]; try done.
  apply list_elem_of_In, list_elem_of_lookup in Hin as [i Hi]; destruct (Forall_lookup_1 _ _ _ _ (so_threads _ Hok) Hi) as [_ [_ Hth]].
  specialize (Hst st eq_refl); specialize (Hth Hst); congruence.
Qed.

(** ** A run *)

Lemma prepare_reliable (s : system) (t : wal_txn) :
  system_ok s -> sy_needs_recovery s = false -> next_txn s t -> reliable (sy_wal s) ->
  exists new wal, prepare_write (wal_end (sy_log s)) (wt_sb t) (wt_id t) (wt_pages t) (sy_wal s) = Some (Ok new, wal) /\ reliable wal.
Proof.
  intros Hok Hnr Ht Hr; unfold prepare_write.
  destruct (append_buffer avx2 sb key Hsize Hfile _ t (so_log _ Hok) Ht) as (buffer & -> & Eb & Hne & _); cbn [mem_ret].
  pose proof (snoc_max avx2 sb key Hsize Hfile _ t (so_log _ Hok) Ht) as Hm; unfold SDB_WAL_MAX_BYTES in Hm.
  rewrite <- (wal_contents_length sb Hfile), <- Eb, length_app in Hm by (by destruct (sy_log s)).
  destruct (write_full_spec (Z.of_nat (length (wal_contents (sy_log s)))) buffer (sy_wal s)) as (r1 & f1 & Ew & We & Hw);
    [lia|unfold INT64_MAX; lia|done|].
  unfold mbind, fileM_bind; rewrite Ew; destruct Hw as [[-> _]|[_ ?]]; [|done].
  eexists _, f1; split; [done|by apply (we_reliable _ _ _ _ We)].
Qed.

(** One committer, alone, with a kernel that never fails. *)
Lemma one_commit (t : wal_txn) :
  next_txn (start false []) t ->
  exists s, rtc step (start false []) s /\ sy_threads s = [Finished (wt_id t) SDB_OK].
Proof.
  intros Ht; pose proof (start_ok false []) as Hok; pose proof (to_id _ _ _ _ _ _ _ Ht) as Hid; cbn in Hid.
  destruct (prepare_reliable _ t Hok eq_refl Ht) as (new & wal & Ep & Hr); [constructor|].
  set (s1 := appended (start false []) t wal (Some (wt_id t))).
  assert (Epub : exists c, commit_publish (sy_co s1) (wt_id t) = (SDB_OK, c) /\ co_written_lsn c = wt_id t
            /\ co_durable_lsn c = base /\ co_leader_active c = false /\ co_commit_failed c = false /\ co_sync_relaxed c = false).
  { unfold commit_publish; cbn; rewrite Z.gtb_ltb, (proj2 (Z.ltb_lt _ _)) by lia; by eexists. }
  destruct Epub as (c & Epub & Hw & Hd & Hl & Hf & Hrel).
  set (s2 := published s1 c (wt_id t)); set (s3 := scheduled s2 0 (Syncing (wt_id t) (wt_id t)) (set_leader c true) wal false).
  destruct (sync_spec wal) as (r & wal' & Es & [(-> & _)|(_ & _ & ?)]); [|done].
  set (s4 := scheduled s3 0 (Synced (wt_id t) (wt_id t) SDB_OK) (set_leader c true) wal' false).
  set (c5 := set_leader (fsync_end (set_leader c true) (wt_id t) SDB_OK) false).
  assert (Hc5 : co_durable_lsn c5 = wt_id t).
  { unfold c5, fsync_end; rewrite bool_decide_eq_true_2 by done; cbn; rewrite Hd, Z.gtb_ltb, (proj2 (Z.ltb_lt _ _)) by lia; done. }
  exists (scheduled s4 0 (Finished (wt_id t) SDB_OK) c5 wal' true); split; [|done].
  eapply rtc_l; [by apply (step_prepare _ t new wal)|fold s1]; eapply rtc_l; [by apply (step_publish s1 (wt_id t) c)|fold s2].
  eapply rtc_l; [apply (step_thread s2 s3), (step_turn s2 0 (Entering (wt_id t))); [done|]|].
  { cbn [turn s2 published sy_co sy_wal s1 appended]; rewrite Hw, (proj2 (Z.eqb_neq _ _)), Z.gtb_ltb, Z.ltb_irrefl by lia; cbn [orb].
    cbn [commit_loop]; rewrite Hd, Z.geb_leb, (proj2 (Z.leb_gt _ _)), Hf, Hl by lia; cbn [negb].
    unfold fsync_begin; cbn [set_leader co_durable_lsn co_written_lsn co_sync_relaxed].
    rewrite Hd, Hw, Z.geb_leb, (proj2 (Z.leb_gt _ _)), Hrel by lia; done. }
  eapply rtc_l; [apply (step_thread s3 s4), (step_turn s3 0 (Syncing (wt_id t) (wt_id t))); [done|]|].
  { cbn [turn s3 scheduled sy_wal sy_co]; by rewrite Es. }
  eapply rtc_l; [|apply rtc_refl]; apply step_thread, (step_turn s4 0 (Synced (wt_id t) (wt_id t) SDB_OK)); [done|].
  cbn [turn s4 scheduled sy_co sy_wal]; fold c5; cbn [commit_loop]; by rewrite Hc5, Z.geb_leb, Z.leb_refl.
Qed.
End System.


(** C14: The group commit neither deadlocks nor loses a wake-up.  From any reachable
    state the threads can take only finitely many turns (at most the weight of the
    state), and as long as one of them has not returned some thread can move; when all
    have returned, nothing is left undurable unless the coordinator is poisoned, so the
    wait of [sdb_pager_group_checkpoint_if_due] ends. *)
Theorem group_commit_terminates (avx2 : bool) (sb : sdb_superblock_v1) (key : option bytes) (relaxed : bool)
    (script : list os_reply) (s s' : system) (n : nat) :
  4096 <= sb_page_size sb <= 65536 -> length (sb_file_id sb) = 16%nat -> 0 <= sb_checkpoint_lsn sb ->
  rtc (step avx2 sb key) (start sb relaxed script) s -> nsteps thread_step n s s' ->
  (n <= weight (sy_threads s))%nat
  /\ ((exists s'', thread_step s' s'')
      \/ Forall (fun th => finished th = true) (sy_threads s') /\ drain_waits (sy_co s') = false).
Proof.
  intros Hsz Hfile Hb Hr Hn; pose proof (reachable_ok avx2 sb key Hsz Hfile Hb relaxed script s Hr) as Hok.
  destruct (run_weight avx2 sb key Hsz Hfile Hb s s' n Hok Hn) as [Hok' Hw]; split; [lia|].
  destruct (decide (Exists (fun th => is_Some (turn th (sy_co s') (sy_wal s'))) (sy_threads s'))) as [Hx|Hx].
  - left; apply Exists_exists in Hx as (th & Hin & [[[[th' c] wal] woken] Ht]); apply list_elem_of_In, list_elem_of_lookup in Hin as [i Hi].
    eexists; by econstructor.
  - right; assert (Hst : forall s'', ~ thread_step s' s'').
    { intros s'' [i th th' c wal woken Hi Ht]; apply Hx, Exists_exists; exists th; split; [by eapply list_elem_of_In, list_elem_of_lookup_2|by rewrite Ht]. }
    pose proof (stuck_finished avx2 sb key s' Hok' Hst) as HF; split; [done|]; by eapply finished_drained.
Qed.

(** ** Examples *)

Lemma first_txn_next : next_txn true log_superblock None (start log_superblock false []) (example_txn 1).
Proof. exact (example_txn_ok 64 1 ltac:(lia) ltac:(lia)). Qed.


Lemma group_commit_terminates_witness :
  exists s, sy_threads s = [Finished 1 SDB_OK] /\ drain_waits (sy_co s) = false.
Proof.
  destruct (one_commit true log_superblock None ltac:(cbn; lia) eq_refl ltac:(cbn; lia) _ first_txn_next) as (s & Hr & Hth).
  exists s; split; [exact Hth|].
  destruct (group_commit_terminates true log_superblock None false [] s s 0 ltac:(cbn; lia) eq_refl ltac:(cbn; lia) Hr (nsteps_O _ s)) as [_ [[s' Hs]|[_ Hd]]]; [|exact Hd].
  exfalso; destruct Hs as [i th th' c wal woken Hi Ht]; rewrite Hth in Hi; destruct i; [|done]; injection Hi as <-; done.
Defined.
