(* ===== verification/BtreePage.v ===== *)
(** * B-tree node codec ([src/btree_page.h], [src/btree_page.c])

    A node is a 20-byte header followed by variable-length entries: key and
    value for a leaf, key and right child for an internal node.  The decoder is
    modelled with its byte offsets in the memory monad, the encoder as its
    sequence of stores.  The theorems: decoding never reads outside the payload,
    encoding then decoding returns the node, an accepted payload is exactly what
    the encoder would write, and decoded nodes are well formed (non-empty keys
    in strictly increasing order, no zero child). *)

From S2P Require Import Prelude Status Codec Keys.

Definition SDB_BTREE_NODE_HEADER_SIZE : nat := 20.
#[export] Hint Unfold SDB_BTREE_NODE_HEADER_SIZE : sizes.

Inductive sdb_btree_node_kind := SDB_BTREE_LEAF | SDB_BTREE_INTERNAL.

#[global] Instance sdb_btree_node_kind_eq_dec : EqDecision sdb_btree_node_kind.
Proof. solve_decision. Defined.

Definition node_kind_code (k : sdb_btree_node_kind) : Z :=
  match k with SDB_BTREE_LEAF => 1 | SDB_BTREE_INTERNAL => 2 end.

Record sdb_btree_entry := {
  e_key : bytes;
  e_value : bytes;
  e_right_child : Z
}.

Record sdb_btree_node := {
  n_kind : sdb_btree_node_kind;
  n_right_sibling : Z;
  n_first_child : Z;
  n_entries : list sdb_btree_entry
}.

#[global] Instance sdb_btree_entry_eq_dec : EqDecision sdb_btree_entry.
Proof. solve_decision. Defined.
#[global] Instance sdb_btree_node_eq_dec : EqDecision sdb_btree_node.
Proof. solve_decision. Defined.

(** ["SBT1"] *)
Definition sdb_btree_magic : bytes := byte.of_Z <$> [83; 66; 84; 49].

(** ** Decoding *)

Definition entry_fixed_size (k : sdb_btree_node_kind) : nat :=
  match k with SDB_BTREE_LEAF => 6 | SDB_BTREE_INTERNAL => 12 end.

Definition entry_minimum_size (k : sdb_btree_node_kind) : Z :=
  match k with SDB_BTREE_LEAF => 7 | SDB_BTREE_INTERNAL => 13 end.

(** The loop body: one entry at [cursor] with [remaining] bytes left; returns
    the entry and its size. *)
Definition decode_entry (kind : sdb_btree_node_kind) (payload : bytes) (cursor : nat) (remaining : Z)
  : memM (sdb_btree_entry * nat) :=
  let fixed_size := Z.of_nat (entry_fixed_size kind) in
  if remaining <? fixed_size then mem_err SDB_E_CORRUPT else
  key_size ← load_u16 payload cursor;
  if key_size =? 0 then mem_err SDB_E_CORRUPT else
  value_size ←
    match kind with
    | SDB_BTREE_LEAF => load_u32 payload (cursor + 2)
    | SDB_BTREE_INTERNAL =>
        reserved ← load_u16 payload (cursor + 2);
        if negb (reserved =? 0) then mem_err SDB_E_CORRUPT else mem_ret 0
    end;
  if (key_size >? remaining - fixed_size) || (value_size >? remaining - fixed_size - key_size)
  then mem_err SDB_E_CORRUPT else
  key ← load_bytes payload (cursor + entry_fixed_size kind) (Z.to_nat key_size);
  value ←
    match kind with
    | SDB_BTREE_LEAF =>
        load_bytes payload (cursor + entry_fixed_size kind + Z.to_nat key_size) (Z.to_nat value_size)
    | SDB_BTREE_INTERNAL => mem_ret []
    end;
  right_child ←
    match kind with
    | SDB_BTREE_LEAF => mem_ret 0
    | SDB_BTREE_INTERNAL =>
        child ← load_u64 payload (cursor + 4);
        if child =? 0 then mem_err SDB_E_CORRUPT else mem_ret child
    end;
  mem_ret ({| e_key := key; e_value := value; e_right_child := right_child |},
           (entry_fixed_size kind + Z.to_nat key_size + Z.to_nat value_size)%nat).

Fixpoint decode_entries (count : nat) (kind : sdb_btree_node_kind) (payload : bytes)
    (cursor : nat) (remaining : Z) : memM (list sdb_btree_entry) :=
  match count with
  | O => if negb (remaining =? 0) then mem_err SDB_E_CORRUPT else mem_ret []
  | S count =>
      '(entry, size) ← decode_entry kind payload cursor remaining;
      rest ← decode_entries count kind payload (cursor + size) (remaining - Z.of_nat size);
      mem_ret (entry :: rest)
  end.

(** The order check over adjacent entries. *)
Fixpoint entries_ordered (entries : list sdb_btree_entry) : bool :=
  match entries with
  | a :: (b :: _) as rest =>
      negb (sdb_btree_page_compare_keys (e_key a) (e_key b) >=? 0) && entries_ordered rest
  | _ => true
  end.

Definition node_decode_mem (payload : bytes) : memM sdb_btree_node :=
  let payload_size := Z.of_nat (length payload) in
  if payload_size <? Z.of_nat SDB_BTREE_NODE_HEADER_SIZE then mem_err SDB_E_INVALID_ARGUMENT else
  magic ← load_bytes payload 0 4;
  if negb (bool_decide (magic = sdb_btree_magic)) then mem_err SDB_E_BAD_MAGIC else
  kind ← load_u16 payload 4;
  count ← load_u16 payload 6;
  reserved ← load_u32 payload 8;
  if (negb (kind =? node_kind_code SDB_BTREE_LEAF) && negb (kind =? node_kind_code SDB_BTREE_INTERNAL))
     || negb (reserved =? 0)
  then mem_err SDB_E_CORRUPT else
  let kind := if kind =? node_kind_code SDB_BTREE_LEAF then SDB_BTREE_LEAF else SDB_BTREE_INTERNAL in
  link ← load_u64 payload 12;
  if bool_decide (kind = SDB_BTREE_INTERNAL) && (link =? 0) then mem_err SDB_E_CORRUPT else
  if count >? (payload_size - Z.of_nat SDB_BTREE_NODE_HEADER_SIZE) / entry_minimum_size kind
  then mem_err SDB_E_CORRUPT else
  entries ← decode_entries (Z.to_nat count) kind payload SDB_BTREE_NODE_HEADER_SIZE
              (payload_size - Z.of_nat SDB_BTREE_NODE_HEADER_SIZE);
  if negb (entries_ordered entries) then mem_err SDB_E_CORRUPT else
  mem_ret (match kind with
           | SDB_BTREE_LEAF =>
               {| n_kind := kind; n_right_sibling := link; n_first_child := 0; n_entries := entries |}
           | SDB_BTREE_INTERNAL =>
               {| n_kind := kind; n_right_sibling := 0; n_first_child := link; n_entries := entries |}
           end).

(** The decoder as its callers see it. *)
Definition sdb_btree_node_decode (payload : bytes) : result sdb_btree_node :=
  default (Err SDB_E_INTERNAL) (node_decode_mem payload).

(** ** Encoding *)

Definition entry_value_size (kind : sdb_btree_node_kind) (e : sdb_btree_entry) : Z :=
  match kind with SDB_BTREE_LEAF => Z.of_nat (length (e_value e)) | SDB_BTREE_INTERNAL => 0 end.

(** The argument checks on one entry. *)
Definition entry_invalid (kind : sdb_btree_node_kind) (e : sdb_btree_entry) : bool :=
  let key_size := Z.of_nat (length (e_key e)) in
  (key_size =? 0) || (key_size >? UINT16_MAX)
  || match kind with
     | SDB_BTREE_LEAF =>
         negb (e_right_child e =? 0) || (Z.of_nat (length (e_value e)) >? UINT32_MAX)
     | SDB_BTREE_INTERNAL =>
         (e_right_child e =? 0) || negb (bool_decide (e_value e = []))
     end.

Fixpoint encoded_size_loop (kind : sdb_btree_node_kind) (previous : option bytes)
    (entries : list sdb_btree_entry) (total : Z) : result Z :=
  match entries with
  | [] => Ok total
  | e :: rest =>
      fail_if entry_invalid kind e with SDB_E_INVALID_ARGUMENT ;;
      fail_if match previous with
              | Some p => sdb_btree_page_compare_keys p (e_key e) >=? 0
              | None => false
              end with SDB_E_INVALID_ARGUMENT ;;
      match sdb_checked_add_size (Z.of_nat (entry_fixed_size kind)) (Z.of_nat (length (e_key e))) with
      | None => Err SDB_E_INVALID_ARGUMENT
      | Some entry_size =>
        match sdb_checked_add_size entry_size (entry_value_size kind e) with
        | None => Err SDB_E_INVALID_ARGUMENT
        | Some entry_size =>
          match sdb_checked_add_size total entry_size with
          | None => Err SDB_E_INVALID_ARGUMENT
          | Some total => encoded_size_loop kind (Some (e_key e)) rest total
          end
        end
      end
  end.

Definition sdb_btree_node_encoded_size (node : sdb_btree_node) : result Z :=
  fail_if (Z.of_nat (length (n_entries node)) >? UINT16_MAX)
          || (bool_decide (n_kind node = SDB_BTREE_LEAF) && negb (n_first_child node =? 0))
          || (bool_decide (n_kind node = SDB_BTREE_INTERNAL)
              && ((n_first_child node =? 0) || negb (n_right_sibling node =? 0)))
    with SDB_E_INVALID_ARGUMENT ;;
  encoded_size_loop (n_kind node) None (n_entries node) (Z.of_nat SDB_BTREE_NODE_HEADER_SIZE).

(** The stores for one entry; returns the buffer and the advanced cursor. *)
Definition encode_entry (kind : sdb_btree_node_kind) (st : bytes * nat) (e : sdb_btree_entry)
  : bytes * nat :=
  let '(output, cursor) := st in
  let output := sdb_write_u16_le output cursor (wrap 16 (Z.of_nat (length (e_key e)))) in
  match kind with
  | SDB_BTREE_LEAF =>
      let output := sdb_write_u32_le output (cursor + 2) (wrap 32 (Z.of_nat (length (e_value e)))) in
      let output := memcpy_at output (cursor + 6) (e_key e) in
      let output := memcpy_at output (cursor + 6 + length (e_key e)) (e_value e) in
      (output, cursor + (6 + length (e_key e) + length (e_value e)))%nat
  | SDB_BTREE_INTERNAL =>
      let output := sdb_write_u64_le output (cursor + 4) (e_right_child e) in
      let output := memcpy_at output (cursor + 12) (e_key e) in
      (output, cursor + (12 + length (e_key e)))%nat
  end.

(** The bytes written into a buffer of [output_size] bytes; the written length
    is the length of the result. *)
Definition sdb_btree_node_encode (node : sdb_btree_node) (output_size : Z) : result bytes :=
  required ← sdb_btree_node_encoded_size node;
  fail_if output_size <? required with SDB_E_BUFFER_TOO_SMALL ;;
  let output := zeros (Z.to_nat required) in
  let output := memcpy_at output 0 sdb_btree_magic in
  let output := sdb_write_u16_le output 4 (wrap 16 (node_kind_code (n_kind node))) in
  let output := sdb_write_u16_le output 6 (wrap 16 (Z.of_nat (length (n_entries node)))) in
  let output := sdb_write_u64_le output 12
    (match n_kind node with
     | SDB_BTREE_LEAF => n_right_sibling node
     | SDB_BTREE_INTERNAL => n_first_child node
     end) in
  Ok (fst (foldl (encode_entry (n_kind node)) (output, SDB_BTREE_NODE_HEADER_SIZE) (n_entries node))).

(** ** The byte format *)

Definition entry_bytes (kind : sdb_btree_node_kind) (e : sdb_btree_entry) : bytes :=
  match kind with
  | SDB_BTREE_LEAF =>
      le_split 2 (Z.of_nat (length (e_key e))) ++ le_split 4 (Z.of_nat (length (e_value e)))
        ++ e_key e ++ e_value e
  | SDB_BTREE_INTERNAL =>
      le_split 2 (Z.of_nat (length (e_key e))) ++ le_split 2 0 ++ le_split 8 (e_right_child e)
        ++ e_key e
  end.

Definition entry_wf (kind : sdb_btree_node_kind) (e : sdb_btree_entry) : Prop :=
  1 <= Z.of_nat (length (e_key e)) <= UINT16_MAX
  /\ match kind with
     | SDB_BTREE_LEAF => e_right_child e = 0 /\ Z.of_nat (length (e_value e)) <= UINT32_MAX
     | SDB_BTREE_INTERNAL => 0 < e_right_child e < 2 ^ 64 /\ e_value e = []
     end.

Definition node_link (node : sdb_btree_node) : Z :=
  match n_kind node with
  | SDB_BTREE_LEAF => n_right_sibling node
  | SDB_BTREE_INTERNAL => n_first_child node
  end.

Definition node_header (node : sdb_btree_node) : bytes :=
  sdb_btree_magic ++ le_split 2 (node_kind_code (n_kind node))
    ++ le_split 2 (Z.of_nat (length (n_entries node))) ++ le_split 4 0 ++ le_split 8 (node_link node).

Definition node_bytes (node : sdb_btree_node) : bytes :=
  node_header node ++ mjoin (entry_bytes (n_kind node) <$> n_entries node).

(** Adjacent keys strictly increasing. *)
Definition keys_sorted (entries : list sdb_btree_entry) : Prop :=
  StronglySorted key_lt (e_key <$> entries).

Record node_wf (node : sdb_btree_node) : Prop := {
  nw_count : Z.of_nat (length (n_entries node)) <= UINT16_MAX;
  nw_entries : Forall (entry_wf (n_kind node)) (n_entries node);
  nw_sorted : keys_sorted (n_entries node);
  nw_link : 0 <= node_link node < 2 ^ 64;
  nw_kind : match n_kind node with
            | SDB_BTREE_LEAF => n_first_child node = 0
            | SDB_BTREE_INTERNAL => n_right_sibling node = 0 /\ n_first_child node <> 0
            end
}.

Lemma length_entry_bytes (kind : sdb_btree_node_kind) (e : sdb_btree_entry) :
  length (entry_bytes kind e) =
    (entry_fixed_size kind + length (e_key e)
     + match kind with SDB_BTREE_LEAF => length (e_value e) | SDB_BTREE_INTERNAL => 0 end)%nat.
Proof. destruct kind; cbn [entry_bytes entry_fixed_size]; len_lia. Qed.

Lemma length_node_header (node : sdb_btree_node) : length (node_header node) = 20%nat.
Proof. unfold node_header; autorewrite with len; reflexivity. Qed.

(** ** Ordering check *)

Lemma entries_ordered_spec (entries : list sdb_btree_entry) :
  entries_ordered entries = true <-> keys_sorted entries.
Proof.
  unfold keys_sorted; induction entries as [|a rest IH].
  { split; [constructor | done]. }
  destruct rest as [|b rest]; cbn [entries_ordered].
  { split; [|done]; intros _; cbn; repeat constructor. }
  rewrite page_compare_keys_eq, compare_ge_0, negb_involutive, andb_true_iff, bool_decide_eq_true, IH.
  cbn [fmap list_fmap]; split.
  - intros [Hab Hs]; constructor; [done|]; constructor; [done|].
    apply StronglySorted_inv in Hs as [_ Hb]; eapply Forall_impl; [|exact Hb].
    intros k Hk; by eapply key_lt_trans.
  - intros Hs; apply StronglySorted_inv in Hs as [Hs Hf]; split; [by inversion Hf | done].
Qed.

(** ** Decoding an entry *)

Lemma mem_bind_inv {A B} (m : memM A) (k : A -> memM B) (b : B) :
  m ≫= k = Some (Ok b) -> exists a, m = Some (Ok a) /\ k a = Some (Ok b).
Proof. destruct m as [[a|e]|]; cbn; [eauto | discriminate | discriminate]. Qed.

Ltac inv_mem H :=
  repeat match type of H with
  | (_ ≫= _) = Some (Ok _) =>
      let a := fresh "a" in let Ha := fresh "Hload" in
      apply mem_bind_inv in H; destruct H as (a & Ha & H)
  | (if ?b then mem_err _ else _) = Some (Ok _) =>
      let Hb := fresh "Hchk" in destruct b eqn:Hb; [discriminate H|]
  end.

Lemma load_u16_inv (buf : bytes) (off : nat) (v : Z) :
  load_u16 buf off = Some (Ok v) -> v = sdb_read_u16_le buf off /\ (off + 2 <= length buf)%nat.
Proof. unfold load_u16, in_bounds; case_bool_decide; [intros [= <-]|]; done. Qed.
Lemma load_u32_inv (buf : bytes) (off : nat) (v : Z) :
  load_u32 buf off = Some (Ok v) -> v = sdb_read_u32_le buf off /\ (off + 4 <= length buf)%nat.
Proof. unfold load_u32, in_bounds; case_bool_decide; [intros [= <-]|]; done. Qed.
Lemma load_u64_inv (buf : bytes) (off : nat) (v : Z) :
  load_u64 buf off = Some (Ok v) -> v = sdb_read_u64_le buf off /\ (off + 8 <= length buf)%nat.
Proof. unfold load_u64, in_bounds; case_bool_decide; [intros [= <-]|]; done. Qed.
Lemma load_bytes_inv (buf : bytes) (off n : nat) (v : bytes) :
  load_bytes buf off n = Some (Ok v) -> v = slice buf off n /\ (off + n <= length buf)%nat.
Proof. unfold load_bytes, in_bounds; case_bool_decide; [intros [= <-]|]; done. Qed.

Lemma load_u16_ok (buf : bytes) (off : nat) :
  (off + 2 <= length buf)%nat -> load_u16 buf off = Some (Ok (sdb_read_u16_le buf off)).
Proof. intros; unfold load_u16, in_bounds; by rewrite bool_decide_eq_true_2. Qed.
Lemma load_u32_ok (buf : bytes) (off : nat) :
  (off + 4 <= length buf)%nat -> load_u32 buf off = Some (Ok (sdb_read_u32_le buf off)).
Proof. intros; unfold load_u32, in_bounds; by rewrite bool_decide_eq_true_2. Qed.
Lemma load_u64_ok (buf : bytes) (off : nat) :
  (off + 8 <= length buf)%nat -> load_u64 buf off = Some (Ok (sdb_read_u64_le buf off)).
Proof. intros; unfold load_u64, in_bounds; by rewrite bool_decide_eq_true_2. Qed.
Lemma load_bytes_ok (buf : bytes) (off n : nat) :
  (off + n <= length buf)%nat -> load_bytes buf off n = Some (Ok (slice buf off n)).
Proof. intros; unfold load_bytes, in_bounds; by rewrite bool_decide_eq_true_2. Qed.

Ltac inv_loads :=
  repeat match goal with
  | H : load_u16 _ _ = Some (Ok _) |- _ => apply load_u16_inv in H as [-> ?]
  | H : load_u32 _ _ = Some (Ok _) |- _ => apply load_u32_inv in H as [-> ?]
  | H : load_u64 _ _ = Some (Ok _) |- _ => apply load_u64_inv in H as [-> ?]
  | H : load_bytes _ _ _ = Some (Ok _) |- _ => apply load_bytes_inv in H as [-> ?]
  end.

Lemma decode_entry_sound (kind : sdb_btree_node_kind) (payload : bytes) (cursor : nat)
    (remaining : Z) (e : sdb_btree_entry) (size : nat) :
  decode_entry kind payload cursor remaining = Some (Ok (e, size)) ->
  entry_wf kind e /\ size = length (entry_bytes kind e) /\ Z.of_nat size <= remaining
  /\ slice payload cursor size = entry_bytes kind e.
Proof.
  unfold decode_entry; intros H; destruct kind; inv_mem H; injection H as <- <-.
  - injection Hload3 as <-; cbn [entry_fixed_size] in *; zbool_hyps.
    inv_loads.
    pose proof (sdb_read_u16_le_range payload cursor).
    pose proof (sdb_read_u32_le_range payload (cursor + 2)).
    zconst; unfold entry_wf, UINT16_MAX, UINT32_MAX; rewrite length_entry_bytes.
    cbn [e_key e_value e_right_child entry_bytes entry_fixed_size].
    rewrite !length_slice, !Z2Nat.id by lia.
    split_and!; [lia | lia | done | lia | lia | lia |].
    rewrite sdb_read_u16_le_spec, sdb_read_u32_le_spec, !le_split_combine_slice by lia.
    rewrite <- sdb_read_u16_le_spec, <- sdb_read_u32_le_spec.
    set (k := Z.to_nat _); set (v := Z.to_nat (sdb_read_u32_le _ _)).
    replace (S _) with (2 + (4 + (k + v)))%nat by lia; rewrite !slice_add.
    rewrite <- (Nat.add_assoc cursor 2 4); done.
  - injection Hload2 as <-; cbn [entry_fixed_size] in *; inv_mem Hload0; inv_mem Hload3.
    injection Hload0 as <-; injection Hload3 as <-; zbool_hyps.
    inv_loads.
    pose proof (sdb_read_u16_le_range payload cursor).
    pose proof (sdb_read_u64_le_range payload (cursor + 4)).
    zconst; unfold entry_wf, UINT16_MAX; rewrite length_entry_bytes.
    cbn [e_key e_value e_right_child entry_bytes entry_fixed_size].
    rewrite !length_slice, !Z2Nat.id by lia.
    split_and!; [lia | lia | lia | lia | done | lia | lia |].
    change (Z.to_nat 0) with 0%nat; rewrite Nat.add_0_r, <- Hchk2.
    rewrite !sdb_read_u16_le_spec, sdb_read_u64_le_spec, !le_split_combine_slice by lia.
    rewrite <- sdb_read_u16_le_spec; set (k := Z.to_nat _).
    replace (S _) with (2 + (2 + (8 + k)))%nat by lia; rewrite !slice_add.
    rewrite <- (Nat.add_assoc cursor 2 2), <- (Nat.add_assoc cursor (2 + 2) 8); done.
Qed.

Ltac mem_simp := cbn [mbind memM_bind mem_ret mem_err].

Lemma decode_entry_safe (kind : sdb_btree_node_kind) (payload : bytes) (cursor : nat) (remaining : Z) :
  Z.of_nat cursor + remaining = Z.of_nat (length payload) ->
  decode_entry kind payload cursor remaining <> None.
Proof.
  intros Hr; unfold decode_entry; cbv zeta.
  destruct (Z.ltb_spec remaining (Z.of_nat (entry_fixed_size kind))); [discriminate|].
  assert (6 <= entry_fixed_size kind)%nat by (destruct kind; cbn; lia).
  rewrite (load_u16_ok payload cursor) by lia; mem_simp.
  pose proof (sdb_read_u16_le_range payload cursor).
  destruct (Z.eqb_spec (sdb_read_u16_le payload cursor) 0); [discriminate|].
  destruct kind; cbn [entry_fixed_size] in *.
  - rewrite load_u32_ok by lia; mem_simp.
    pose proof (sdb_read_u32_le_range payload (cursor + 2)).
    case_if; [discriminate|]; zbool_hyps; zconst; rewrite !load_bytes_ok by lia; discriminate.
  - rewrite load_u16_ok by lia; mem_simp.
    case_if; [discriminate|]; mem_simp; case_if; [discriminate|]; zbool_hyps; zconst.
    rewrite load_bytes_ok, load_u64_ok by lia; mem_simp; case_if; discriminate.
Qed.

Lemma decode_entry_complete (kind : sdb_btree_node_kind) (payload : bytes) (cursor : nat)
    (remaining : Z) (e : sdb_btree_entry) :
  entry_wf kind e -> Z.of_nat cursor + remaining = Z.of_nat (length payload) ->
  Z.of_nat (length (entry_bytes kind e)) <= remaining ->
  slice payload cursor (length (entry_bytes kind e)) = entry_bytes kind e ->
  decode_entry kind payload cursor remaining = Some (Ok (e, length (entry_bytes kind e))).
Proof.
  intros [Hk Hv] Hr Hl Hs.
  assert (Hsub : forall o n, (o + n <= length (entry_bytes kind e))%nat ->
            slice payload (cursor + o) n = slice (entry_bytes kind e) o n).
  { intros o n ?; rewrite <- Hs, slice_slice by lia; done. }
  pose proof (Hsub 0%nat 2%nat) as H0; rewrite Nat.add_0_r in H0.
  rewrite length_entry_bytes in *; unfold decode_entry, UINT16_MAX, UINT32_MAX in *.
  destruct kind; cbn [entry_fixed_size entry_bytes] in *; zconst; zcmp.
  - destruct Hv as [Hc Hv].
    rewrite (load_u16_ok payload cursor), sdb_read_u16_le_spec, H0 by lia; app_simp.
    rewrite le_combine_split_small by lia; mem_simp; zcmp.
    rewrite load_u32_ok, sdb_read_u32_le_spec, (Hsub 2%nat) by lia; app_simp.
    rewrite le_combine_split_small by lia; mem_simp; zcmp; cbn [orb].
    rewrite !Nat2Z.id, !load_bytes_ok by lia; mem_simp.
    rewrite (Hsub 6%nat), <- Nat.add_assoc, (Hsub (6 + length (e_key e))%nat) by lia; app_simp.
    destruct e; cbn [e_key e_value e_right_child] in *; by subst.
  - destruct Hv as [Hc Hv].
    rewrite (load_u16_ok payload cursor), sdb_read_u16_le_spec, H0 by lia; app_simp.
    rewrite le_combine_split_small by lia; mem_simp; zcmp.
    rewrite load_u16_ok, sdb_read_u16_le_spec, (Hsub 2%nat) by lia; app_simp.
    rewrite le_combine_split_small by lia; mem_simp; cbn [Z.eqb negb]; zcmp; cbn [orb].
    rewrite !Nat2Z.id, load_bytes_ok, load_u64_ok, sdb_read_u64_le_spec by lia; mem_simp.
    rewrite (Hsub 4%nat), (Hsub 12%nat) by lia; app_simp.
    rewrite le_combine_split_small by lia; zcmp; mem_simp.
    destruct e; cbn [e_key e_value e_right_child] in *; subst; mem_simp; by rewrite ?Nat.add_0_r.
Qed.

(** ** Decoding a node *)

Lemma entry_bytes_pos (kind : sdb_btree_node_kind) (e : sdb_btree_entry) :
  (0 < length (entry_bytes kind e))%nat.
Proof. rewrite length_entry_bytes; destruct kind; cbn; lia. Qed.

Lemma decode_entries_sound (count : nat) (kind : sdb_btree_node_kind) (payload : bytes)
    (cursor : nat) (remaining : Z) (entries : list sdb_btree_entry) :
  Z.of_nat cursor + remaining = Z.of_nat (length payload) ->
  decode_entries count kind payload cursor remaining = Some (Ok entries) ->
  length entries = count /\ Forall (entry_wf kind) entries
  /\ drop cursor payload = mjoin (entry_bytes kind <$> entries).
Proof.
  revert cursor remaining entries; induction count as [|count IH]; intros cursor remaining entries Hr;
    cbn [decode_entries]; intros H.
  - inv_mem H; injection H as <-; zbool_hyps.
    split_and!; [done | constructor |]; apply drop_ge; lia.
  - inv_mem H; destruct a as [e size]; inv_mem H; injection H as <-.
    apply decode_entry_sound in Hload as (Hwf & -> & Hle & Hs).
    apply IH in Hload0 as (Hl & HF & Hd); [|lia].
    split_and!; [cbn; congruence | by constructor |].
    cbn [fmap list_fmap]; change (mjoin (entry_bytes kind e :: (entry_bytes kind <$> a)))
      with (entry_bytes kind e ++ mjoin (entry_bytes kind <$> a)).
    rewrite <- Hd, <- Hs, <- drop_drop; unfold slice; rewrite length_take, length_drop.
    rewrite Nat.min_l by lia; symmetry; apply take_drop.
Qed.

Lemma decode_entries_safe (count : nat) (kind : sdb_btree_node_kind) (payload : bytes)
    (cursor : nat) (remaining : Z) :
  Z.of_nat cursor + remaining = Z.of_nat (length payload) ->
  decode_entries count kind payload cursor remaining <> None.
Proof.
  revert cursor remaining; induction count as [|count IH]; intros cursor remaining Hr;
    cbn [decode_entries].
  - case_if; discriminate.
  - destruct (decode_entry kind payload cursor remaining) as [[[e size]|]|] eqn:E; mem_simp.
    + apply decode_entry_sound in E as (_ & -> & Hle & _).
      destruct (decode_entries _ _ _ _ _) as [[]|] eqn:E'; mem_simp; try discriminate.
      by apply IH in E'; [|lia].
    + discriminate.
    + by apply decode_entry_safe in E.
Qed.

Lemma decode_entries_complete (kind : sdb_btree_node_kind) (entries : list sdb_btree_entry)
    (payload : bytes) (cursor : nat) (remaining : Z) :
  Forall (entry_wf kind) entries -> Z.of_nat cursor + remaining = Z.of_nat (length payload) ->
  0 <= remaining -> drop cursor payload = mjoin (entry_bytes kind <$> entries) ->
  decode_entries (length entries) kind payload cursor remaining = Some (Ok entries).
Proof.
  intros HF; revert cursor remaining; induction HF as [|e entries He HF IH];
    intros cursor remaining Hr Hpos Hd; cbn [decode_entries length].
  - apply (f_equal length) in Hd; rewrite length_drop in Hd; cbn in Hd; zcmp; done.
  - cbn [fmap list_fmap] in Hd; change (mjoin (entry_bytes kind e :: (entry_bytes kind <$> entries)))
      with (entry_bytes kind e ++ mjoin (entry_bytes kind <$> entries)) in Hd.
    assert (Hle : Z.of_nat (length (entry_bytes kind e)) <= remaining).
    { apply (f_equal length) in Hd; rewrite length_app, length_drop in Hd; lia. }
    rewrite (decode_entry_complete kind payload cursor remaining e); [|done|done|done|].
    + mem_simp; rewrite IH; [done | lia | lia |].
      rewrite <- drop_drop, Hd; apply drop_app_length.
    + unfold slice; rewrite Hd; apply take_app_length.
Qed.

(** C36: memory safety of the node decoder.  Whatever bytes a page holds,
    [sdb_btree_node_decode] performs no access outside the payload it is given. *)
Theorem node_decode_memory_safe (payload : bytes) : node_decode_mem payload <> None.
Proof.
  unfold node_decode_mem; autounfold with sizes; zconst; cbv zeta.
  destruct (Z.ltb_spec (Z.of_nat (length payload)) 20); [discriminate|].
  rewrite load_bytes_ok, (load_u16_ok payload 4), (load_u16_ok payload 6), load_u32_ok, load_u64_ok by lia.
  mem_simp; do 2 (case_if; [discriminate|]); set (kind := if _ =? _ then _ else _).
  do 2 (case_if; [discriminate|]).
  destruct (decode_entries _ _ _ _ _) as [[]|] eqn:E; mem_simp; [case_if; discriminate | discriminate |].
  by apply decode_entries_safe in E; [|zconst; lia].
Qed.

Lemma node_decode_sound (payload : bytes) (node : sdb_btree_node) :
  node_decode_mem payload = Some (Ok node) -> node_wf node /\ payload = node_bytes node.
Proof.
  unfold node_decode_mem; autounfold with sizes; zconst; cbv zeta; intros H; inv_mem H.
  inv_loads.
  set (kind := if sdb_read_u16_le payload 4 =? _ then _ else _) in *.
  assert (Hkind : node_kind_code kind = sdb_read_u16_le payload 4).
  { apply orb_false_iff in Hchk1 as [Hk _]; unfold kind, node_kind_code in *.
    destruct (Z.eqb_spec (sdb_read_u16_le payload 4) 1); [done|].
    destruct (Z.eqb_spec (sdb_read_u16_le payload 4) 2); [done | discriminate]. }
  apply orb_false_iff in Hchk1 as [_ Hres]; clearbody kind.
  zbool_hyps; apply entries_ordered_spec in Hchk4.
  apply decode_entries_sound in Hload4 as (Hl & HF & Hd); [|zconst; lia].
  pose proof (sdb_read_u16_le_range payload 6); pose proof (sdb_read_u64_le_range payload 12).
  assert (Hn : n_kind node = kind /\ n_entries node = a4
               /\ node_link node = sdb_read_u64_le payload 12).
  { destruct kind; injection H as <-; done. }
  destruct Hn as (Hnk & Hne & Hnl); split.
  - split; rewrite ?Hne, ?Hnl, ?Hnk; try done; [unfold UINT16_MAX; lia|].
    destruct kind; injection H as <-; cbn in *; [done|].
    apply andb_false_iff in Hchk2 as [?|?]; [done | zbool_hyps; done].
  - unfold node_bytes, node_header; rewrite Hne, Hnl, Hnk, Hkind, Hl, <- Hd, <- Hchk0, <- Hres.
    rewrite Z2Nat.id by lia.
    rewrite !sdb_read_u16_le_spec, sdb_read_u32_le_spec, sdb_read_u64_le_spec.
    rewrite !le_split_combine_slice by lia.
    rewrite <- (take_drop 20 payload) at 1; f_equal.
    change (take 20 payload) with (slice payload 0 (4 + (2 + (2 + (4 + 8))))); by rewrite !slice_add.
Qed.

Lemma entries_bytes_min (kind : sdb_btree_node_kind) (entries : list sdb_btree_entry) :
  Forall (entry_wf kind) entries ->
  entry_minimum_size kind * Z.of_nat (length entries)
    <= Z.of_nat (length (mjoin (entry_bytes kind <$> entries))).
Proof.
  induction 1 as [|e entries [Hk _] _ IH]; [destruct kind; done|].
  cbn [fmap list_fmap length]; change (mjoin (entry_bytes kind e :: (entry_bytes kind <$> entries)))
    with (entry_bytes kind e ++ mjoin (entry_bytes kind <$> entries)).
  rewrite length_app, length_entry_bytes; destruct kind; cbn [entry_fixed_size entry_minimum_size] in *; lia.
Qed.

Lemma node_decode_complete (node : sdb_btree_node) :
  node_wf node -> node_decode_mem (node_bytes node) = Some (Ok node).
Proof.
  intros [Hc HF Hs Hl Hk]; unfold node_bytes.
  assert (Hhl := length_node_header node); set (body := mjoin _).
  set (payload := node_header node ++ body).
  assert (Hlen : length payload = (20 + length body)%nat) by (unfold payload; rewrite length_app; lia).
  assert (Hsub : forall o n, (o + n <= 20)%nat -> slice payload o n = slice (node_header node) o n).
  { intros; unfold payload; apply slice_app_l; lia. }
  unfold node_decode_mem; autounfold with sizes; zconst; cbv zeta; zcmp.
  rewrite load_bytes_ok, (load_u16_ok payload 4), (load_u16_ok payload 6), load_u32_ok, load_u64_ok by lia.
  rewrite !sdb_read_u16_le_spec, sdb_read_u32_le_spec, sdb_read_u64_le_spec, !Hsub by lia.
  assert (length sdb_btree_magic = 4%nat) by reflexivity.
  unfold node_header; mem_simp; app_simp; unfold UINT16_MAX in *.
  rewrite !le_combine_split_small by (destruct (n_kind node); cbn; lia).
  rewrite bool_decide_eq_true_2 by done; cbn [negb Z.eqb].
  assert (Hkk : (if node_kind_code (n_kind node) =? node_kind_code SDB_BTREE_LEAF
                 then SDB_BTREE_LEAF else SDB_BTREE_INTERNAL) = n_kind node)
    by (by destruct (n_kind node)).
  assert (Hkc : negb (node_kind_code (n_kind node) =? node_kind_code SDB_BTREE_LEAF)
    && negb (node_kind_code (n_kind node) =? node_kind_code SDB_BTREE_INTERNAL) = false)
    by (by destruct (n_kind node)).
  pose proof (entries_bytes_min _ _ HF) as Hmin; fold body in Hmin.
  rewrite Hkk, Hkc; cbn [orb].
  assert (Hz : bool_decide (n_kind node = SDB_BTREE_INTERNAL) && (node_link node =? 0) = false).
  { unfold node_link; destruct (n_kind node); [done|]; destruct Hk as [_ Hk]; by apply Z.eqb_neq. }
  assert (Hdiv : (Z.of_nat (length (n_entries node)) >?
      (Z.of_nat (length payload) - 20) / entry_minimum_size (n_kind node)) = false).
  { rewrite Z.gtb_ltb; apply Z.ltb_ge, Z.div_le_lower_bound; [destruct (n_kind node); cbn; lia|].
    rewrite Hlen; lia. }
  rewrite Hz, Hdiv, Nat2Z.id, decode_entries_complete; [| done | zconst; lia | lia |].
  - mem_simp; rewrite (proj2 (entries_ordered_spec _)) by done; cbn [negb]; unfold node_link.
    destruct node as [[] ? ? ?]; cbn in *; [by subst | by destruct Hk as [-> _]].
  - unfold payload; rewrite drop_app_length' by done; done.
Qed.

(** ** Encoding *)

Lemma zeros_add (n m : nat) : zeros (n + m) = zeros n ++ zeros m.
Proof. apply replicate_add. Qed.

Lemma drop_zeros (n k : nat) : drop n (zeros k) = zeros (k - n).
Proof. apply drop_replicate. Qed.

(** A store at the end of the written prefix extends the prefix. *)
Lemma memcpy_append (pre src : bytes) (k off : nat) :
  off = length pre -> (length src <= k)%nat ->
  memcpy_at (pre ++ zeros k) off src = (pre ++ src) ++ zeros (k - length src).
Proof. intros -> ?; rewrite memcpy_at_app by len_lia; by rewrite drop_zeros. Qed.

Lemma encode_entry_spec (kind : sdb_btree_node_kind) (pre : bytes) (k : nat) (e : sdb_btree_entry) :
  entry_wf kind e -> (length (entry_bytes kind e) <= k)%nat ->
  encode_entry kind (pre ++ zeros k, length pre) e =
    ((pre ++ entry_bytes kind e) ++ zeros (k - length (entry_bytes kind e)),
     length (pre ++ entry_bytes kind e)).
Proof.
  intros [Hk Hv] Hl; rewrite length_entry_bytes in *; unfold encode_entry, UINT16_MAX, UINT32_MAX in *.
  destruct kind; cbn [entry_fixed_size entry_bytes] in *.
  - rewrite !wrap_small by lia.
    rewrite sdb_write_u16_le_spec, memcpy_append by len_lia.
    rewrite sdb_write_u32_le_spec, memcpy_append by len_lia.
    rewrite memcpy_append by len_lia; rewrite memcpy_append by len_lia.
    f_equal; [rewrite <- !app_assoc; do 6 f_equal|]; len_lia.
  - rewrite !wrap_small by lia.
    rewrite sdb_write_u16_le_spec, memcpy_append by len_lia.
    assert (Hz : zeros (k - length (le_split 2 (Z.of_nat (length (e_key e)))))
                 = le_split 2 0 ++ zeros (k - 4)).
    { change (le_split 2 0) with (zeros 2); rewrite <- zeros_add; f_equal; len_lia. }
    rewrite Hz, (app_assoc (pre ++ _)), sdb_write_u64_le_spec, memcpy_append by len_lia.
    rewrite memcpy_append by len_lia.
    f_equal; [rewrite <- !app_assoc; do 6 f_equal|]; len_lia.
Qed.

Lemma encode_entries_spec (kind : sdb_btree_node_kind) (entries : list sdb_btree_entry)
    (pre : bytes) (k : nat) :
  Forall (entry_wf kind) entries -> (length (mjoin (entry_bytes kind <$> entries)) <= k)%nat ->
  fst (foldl (encode_entry kind) (pre ++ zeros k, length pre) entries) =
    (pre ++ mjoin (entry_bytes kind <$> entries))
      ++ zeros (k - length (mjoin (entry_bytes kind <$> entries))).
Proof.
  intros HF; revert pre k; induction HF as [|e entries He HF IH]; intros pre k Hk.
  - cbn; by rewrite app_nil_r, Nat.sub_0_r.
  - cbn [foldl fmap list_fmap] in *.
    change (mjoin (entry_bytes kind e :: (entry_bytes kind <$> entries)))
      with (entry_bytes kind e ++ mjoin (entry_bytes kind <$> entries)) in *.
    rewrite length_app in *; rewrite encode_entry_spec, IH by (done || lia).
    f_equal; [by rewrite <- app_assoc | f_equal; lia].
Qed.

(** The ranges of the C types of the links. *)
Definition node_typed (node : sdb_btree_node) : Prop :=
  0 <= n_right_sibling node < 2 ^ 64 /\ 0 <= n_first_child node < 2 ^ 64
  /\ Forall (fun e => 0 <= e_right_child e < 2 ^ 64) (n_entries node).

Lemma checked_add_inv (a b c : Z) : sdb_checked_add_size a b = Some c -> c = a + b /\ b <= SIZE_MAX - a.
Proof. unfold sdb_checked_add_size; case_if; [discriminate|]; intros [= <-]; zbool_hyps; done. Qed.

Lemma checked_add_ok (a b : Z) : a + b <= SIZE_MAX -> sdb_checked_add_size a b = Some (a + b).
Proof. intros; unfold sdb_checked_add_size; zcmp; done. Qed.

Lemma entry_size_Z (kind : sdb_btree_node_kind) (e : sdb_btree_entry) :
  Z.of_nat (length (entry_bytes kind e))
    = Z.of_nat (entry_fixed_size kind) + Z.of_nat (length (e_key e)) + entry_value_size kind e.
Proof. rewrite length_entry_bytes; destruct kind; cbn [entry_value_size]; lia. Qed.

Lemma entry_invalid_spec (kind : sdb_btree_node_kind) (e : sdb_btree_entry) :
  0 <= e_right_child e < 2 ^ 64 -> entry_invalid kind e = false <-> entry_wf kind e.
Proof.
  intros Hc; unfold entry_invalid, entry_wf, UINT16_MAX, UINT32_MAX.
  rewrite !Z.gtb_ltb, !orb_false_iff, Z.eqb_neq, Z.ltb_ge.
  destruct kind; rewrite orb_false_iff, ?negb_false_iff, ?Z.eqb_eq, ?Z.ltb_ge, ?Z.eqb_neq,
    ?bool_decide_eq_true; [lia|].
  split; [intros ([? ?] & ? & ?) | intros (? & ? & ?)]; split_and!; done || lia.
Qed.

Lemma mjoin_cons (kind : sdb_btree_node_kind) (e : sdb_btree_entry) (entries : list sdb_btree_entry) :
  mjoin (entry_bytes kind <$> e :: entries)
    = entry_bytes kind e ++ mjoin (entry_bytes kind <$> entries).
Proof. reflexivity. Qed.

(** The separator condition against the previous key. *)
Definition above (previous : option bytes) (entries : list sdb_btree_entry) : Prop :=
  match previous, entries with
  | Some p, e :: _ => key_lt p (e_key e)
  | _, _ => True
  end.

Lemma keys_sorted_cons (e : sdb_btree_entry) (entries : list sdb_btree_entry) :
  keys_sorted (e :: entries) <-> above (Some (e_key e)) entries /\ keys_sorted entries.
Proof.
  rewrite <- !entries_ordered_spec; destruct entries as [|b rest]; cbn [entries_ordered above]; [naive_solver|].
  rewrite page_compare_keys_eq, compare_ge_0, negb_involutive, andb_true_iff, bool_decide_eq_true; done.
Qed.

Lemma encoded_size_loop_inv (kind : sdb_btree_node_kind) (entries : list sdb_btree_entry)
    (previous : option bytes) (total required : Z) :
  Forall (fun e => 0 <= e_right_child e < 2 ^ 64) entries ->
  encoded_size_loop kind previous entries total = Ok required ->
  Forall (entry_wf kind) entries /\ above previous entries /\ keys_sorted entries
  /\ required = total + Z.of_nat (length (mjoin (entry_bytes kind <$> entries))).
Proof.
  intros HF; revert previous total; induction HF as [|e entries Hc HF IH];
    intros previous total; cbn [encoded_size_loop]; intros H.
  - injection H as <-; split_and!; [constructor | by destruct previous | constructor | cbn; lia].
  - inv_ok H; apply (entry_invalid_spec _ _ Hc) in Hchk as He.
    destruct (sdb_checked_add_size _ _) as [s1|] eqn:E1; [|discriminate].
    destruct (sdb_checked_add_size s1 _) as [s2|] eqn:E2; [|discriminate].
    destruct (sdb_checked_add_size total s2) as [s3|] eqn:E3; [|discriminate].
    apply checked_add_inv in E1 as [-> _], E2 as [-> _], E3 as [-> _].
    apply IH in H as (HF' & Hab & Hs & ->).
    split_and!; [by constructor | | by apply keys_sorted_cons |].
    + destruct previous as [p|]; [|done]; cbn in *.
      rewrite page_compare_keys_eq, compare_ge_0 in Hchk0; bool_hyps; done.
    + rewrite mjoin_cons, length_app, Nat2Z.inj_add, entry_size_Z; lia.
Qed.

Lemma encoded_size_loop_ok (kind : sdb_btree_node_kind) (entries : list sdb_btree_entry)
    (previous : option bytes) (total : Z) :
  Forall (entry_wf kind) entries -> above previous entries -> keys_sorted entries -> 0 <= total ->
  total + Z.of_nat (length (mjoin (entry_bytes kind <$> entries))) <= SIZE_MAX ->
  encoded_size_loop kind previous entries total
    = Ok (total + Z.of_nat (length (mjoin (entry_bytes kind <$> entries)))).
Proof.
  intros HF; revert previous total; induction HF as [|e entries He HF IH];
    intros previous total Hab Hs Ht Hmax; cbn [encoded_size_loop].
  - f_equal; cbn; lia.
  - apply keys_sorted_cons in Hs as [Hab' Hs].
    rewrite mjoin_cons, length_app, Nat2Z.inj_add, entry_size_Z in *.
    assert (Hc : 0 <= e_right_child e < 2 ^ 64) by (destruct He as [_ He]; destruct kind; lia).
    assert (0 <= entry_value_size kind e) by (destruct kind; cbn; lia).
    rewrite (proj2 (entry_invalid_spec _ _ Hc)), check_false by done.
    assert (Hp : match previous with
                 | Some p => sdb_btree_page_compare_keys p (e_key e) >=? 0 | None => false end = false).
    { destruct previous as [p|]; [|done]; rewrite page_compare_keys_eq, compare_ge_0.
      by rewrite bool_decide_eq_true_2. }
    rewrite Hp, check_false, !checked_add_ok, IH by (done || lia); f_equal; lia.
Qed.

(** The stores of the header. *)
Lemma encode_header_spec (node : sdb_btree_node) (k : nat) :
  Z.of_nat (length (n_entries node)) <= UINT16_MAX -> (20 <= k)%nat ->
  sdb_write_u64_le
    (sdb_write_u16_le
       (sdb_write_u16_le (memcpy_at (zeros k) 0 sdb_btree_magic) 4
          (wrap 16 (node_kind_code (n_kind node)))) 6
       (wrap 16 (Z.of_nat (length (n_entries node))))) 12 (node_link node)
  = node_header node ++ zeros (k - 20).
Proof.
  intros Hc Hk; unfold UINT16_MAX in *; assert (length sdb_btree_magic = 4%nat) by reflexivity.
  rewrite !wrap_small by (destruct (n_kind node); cbn; lia).
  rewrite <- (app_nil_l (zeros k)), memcpy_append by (cbn; lia); rewrite app_nil_l.
  rewrite !sdb_write_u16_le_spec by len_lia.
  do 2 rewrite memcpy_append by len_lia.
  match goal with |- context [_ ++ zeros ?n] =>
    assert (Hz : zeros n = le_split 4 0 ++ zeros (k - 12)) end.
  { change (le_split 4 0) with (zeros 4); rewrite <- zeros_add; f_equal; len_lia. }
  rewrite Hz, app_assoc, sdb_write_u64_le_spec, memcpy_append by len_lia.
  unfold node_header; rewrite <- !app_assoc; do 6 f_equal; len_lia.
Qed.

Lemma node_encode_inv (node : sdb_btree_node) (size : Z) (out : bytes) :
  node_typed node -> sdb_btree_node_encode node size = Ok out ->
  node_wf node /\ out = node_bytes node /\ Z.of_nat (length out) <= size.
Proof.
  intros (Hrs & Hfc & Hrc) H; unfold sdb_btree_node_encode in H; inv_ok H; injection H as <-.
  unfold sdb_btree_node_encoded_size in Hbind; inv_ok Hbind; autounfold with sizes in *; zconst.
  apply encoded_size_loop_inv in Hbind as (HF & _ & Hs & ->); [|done]; zbool_hyps.
  assert (Hcnt : Z.of_nat (length (n_entries node)) <= UINT16_MAX) by done.
  fold (node_link node); rewrite encode_header_spec by (done || lia).
  rewrite <- (length_node_header node), encode_entries_spec by (done || rewrite length_node_header; lia).
  rewrite length_node_header; replace (Z.to_nat _ - 20 - _)%nat with 0%nat by lia.
  rewrite app_nil_r; split_and!; [|done|].
  - split; try done.
    + unfold node_link; by destruct (n_kind node).
    + revert H0 H1; clear; destruct (n_kind node); intros H0 H1.
      * rewrite bool_decide_eq_true_2 in H1 by done; cbn [andb] in H1; zbool_hyps; done.
      * rewrite bool_decide_eq_true_2 in H0 by done; cbn [andb] in H0; zbool_hyps; done.
  - fold (node_bytes node); unfold node_bytes; rewrite length_app, length_node_header; lia.
Qed.

Lemma node_encoded_size_ok (node : sdb_btree_node) :
  node_wf node -> Z.of_nat (length (node_bytes node)) <= SIZE_MAX ->
  sdb_btree_node_encoded_size node = Ok (Z.of_nat (length (node_bytes node))).
Proof.
  intros [Hcnt HF Hs Hl Hk] Hmax; unfold node_bytes in *.
  rewrite length_app, length_node_header in *.
  unfold sdb_btree_node_encoded_size; autounfold with sizes; zconst.
  assert (Hg : (Z.of_nat (length (n_entries node)) >? UINT16_MAX)
          || (bool_decide (n_kind node = SDB_BTREE_LEAF) && negb (n_first_child node =? 0))
          || (bool_decide (n_kind node = SDB_BTREE_INTERNAL)
              && ((n_first_child node =? 0) || negb (n_right_sibling node =? 0))) = false).
  { zcmp; clear -Hk; destruct (n_kind node).
    - rewrite (bool_decide_eq_false_2 (_ = SDB_BTREE_INTERNAL)), Hk by done; by rewrite andb_false_r.
    - destruct Hk as [-> Hk]; rewrite (proj2 (Z.eqb_neq _ _) Hk).
      rewrite (bool_decide_eq_false_2 (_ = SDB_BTREE_LEAF)), andb_false_r by done; done. }
  rewrite Hg, check_false, encoded_size_loop_ok by (done || lia); f_equal; lia.
Qed.

Lemma node_encode_ok (node : sdb_btree_node) (size : Z) :
  node_wf node -> Z.of_nat (length (node_bytes node)) <= size ->
  Z.of_nat (length (node_bytes node)) <= SIZE_MAX ->
  sdb_btree_node_encode node size = Ok (node_bytes node).
Proof.
  intros Hwf Hsz Hmax; unfold sdb_btree_node_encode; rewrite node_encoded_size_ok by done.
  cbn [mbind result_bind]; zcmp; rewrite check_false; f_equal; fold (node_link node).
  destruct Hwf as [Hcnt HF Hs Hl Hk]; unfold node_bytes in *.
  rewrite length_app, length_node_header, Nat2Z.id in *; autounfold with sizes; zconst.
  rewrite encode_header_spec by (done || lia).
  rewrite <- (length_node_header node) at 3; rewrite encode_entries_spec by (done || lia).
  replace (20 + _ - 20 - _)%nat with 0%nat by lia; by rewrite app_nil_r.
Qed.

Lemma node_wf_typed (node : sdb_btree_node) : node_wf node -> node_typed node.
Proof.
  intros [_ HF _ Hl Hk]; unfold node_typed, node_link in *.
  split_and!; try (destruct (n_kind node); lia).
  eapply Forall_impl; [|exact HF]; intros e [_ He]; destruct (n_kind node); lia.
Qed.

Lemma node_decode_mem_result (payload : bytes) (node : sdb_btree_node) :
  sdb_btree_node_decode payload = Ok node <-> node_decode_mem payload = Some (Ok node).
Proof.
  unfold sdb_btree_node_decode; destruct (node_decode_mem payload) as [[n|e]|]; cbn; naive_solver.
Qed.

(** The codec as the tree uses it. *)
Lemma node_decode_iff (payload : bytes) (node : sdb_btree_node) :
  sdb_btree_node_decode payload = Ok node <-> node_wf node /\ payload = node_bytes node.
Proof.
  rewrite node_decode_mem_result; split; [apply node_decode_sound|].
  intros [Hwf ->]; by apply node_decode_complete.
Qed.

(** C37: round trip of B-tree nodes: whatever [sdb_btree_node_encode] writes,
    [sdb_btree_node_decode] reads back as the same node, for every mix of key and
    value lengths that fits the buffer. *)
Theorem btree_node_decode_encode (node : sdb_btree_node) (size : Z) (out : bytes) :
  node_typed node -> sdb_btree_node_encode node size = Ok out ->
  sdb_btree_node_decode out = Ok node.
Proof.
  intros Ht He; apply node_encode_inv in He as (Hwf & -> & _); [|done].
  by apply node_decode_iff.
Qed.

(** The node format is canonical and its decoder total in its checks: an
    accepted payload is well formed (keys non-empty and strictly increasing, links
    non-zero where required) and is byte for byte what the encoder writes for it. *)
Theorem btree_node_decode_canonical (payload : bytes) (node : sdb_btree_node) :
  Z.of_nat (length payload) <= SIZE_MAX -> sdb_btree_node_decode payload = Ok node ->
  node_wf node /\ sdb_btree_node_encode node (Z.of_nat (length payload)) = Ok payload.
Proof.
  intros Hl Hd; apply node_decode_iff in Hd as [Hwf ->]; split; [done|].
  by apply node_encode_ok.
Qed.

Definition example_leaf : sdb_btree_node :=
  {| n_kind := SDB_BTREE_LEAF; n_right_sibling := 9; n_first_child := 0;
     n_entries := [ {| e_key := byte.of_Z <$> [1]; e_value := byte.of_Z <$> [7; 8]; e_right_child := 0 |};
                    {| e_key := byte.of_Z <$> [1; 0]; e_value := []; e_right_child := 0 |} ] |}.

Lemma btree_node_decode_encode_witness :
  exists out, sdb_btree_node_encode example_leaf 4064 = Ok out
    /\ sdb_btree_node_decode out = Ok example_leaf.
Proof.
  eexists; split; [vm_compute; reflexivity|].
  apply (btree_node_decode_encode example_leaf 4064); [|vm_compute; reflexivity].
  unfold node_typed; cbn [example_leaf n_right_sibling n_first_child n_entries e_right_child].
  rewrite !Forall_cons_iff; cbn [e_right_child]; split_and!; lia || apply List.Forall_nil.
Defined.

Lemma btree_node_decode_canonical_witness :
  sdb_btree_node_decode (node_bytes example_leaf) = Ok example_leaf /\ node_wf example_leaf.
Proof.
  assert (sdb_btree_node_decode (node_bytes example_leaf) = Ok example_leaf) as Hd
    by (vm_compute; reflexivity).
  split; [done|]; apply (btree_node_decode_canonical (node_bytes example_leaf)); [|done].
  vm_compute; discriminate.
Defined.
