(* ===== verification/OrderedMap.v ===== *)
(** * The abstract contents of a tree: ordered key/value lists

    The specification of the B-tree is a finite map from keys to values listed
    in key order.  This file has the sorted-list operations the tree is shown to
    refine, their locality lemmas (an operation on a middle segment leaves the
    rest alone), and their meaning as operations on stdpp's [gmap]. *)

From stdpp Require Import gmap.
From S2P Require Import Prelude Keys.

#[global] Instance byte_eq_dec : EqDecision byte.
Proof. intros x y; destruct (Byte.byte_eq_dec x y); [left|right]; done. Defined.

#[global] Program Instance byte_countable : Countable byte :=
  inj_countable Byte.to_N Byte.of_N _.
Next Obligation. apply Byte.of_to_N. Qed.

Abbreviation kv := (bytes * bytes)%type.

Definition key_sorted (l : list kv) : Prop := StronglySorted key_lt l.*1.

Fixpoint al_insert (k v : bytes) (l : list kv) : list kv :=
  match l with
  | [] => [(k, v)]
  | (k', v') :: l' =>
      match key_cmp k k' with
      | Lt => (k, v) :: l
      | Eq => (k, v) :: l'
      | Gt => (k', v') :: al_insert k v l'
      end
  end.

Definition al_delete (k : bytes) (l : list kv) : list kv := filter (fun e => e.1 <> k) l.

Fixpoint al_lookup (k : bytes) (l : list kv) : option bytes :=
  match l with
  | [] => None
  | (k', v') :: l' => if bool_decide (k' = k) then Some v' else al_lookup k l'
  end.

Definition contents (l : list kv) : gmap bytes bytes := list_to_map l.

(** ** Order lemmas *)

Lemma StronglySorted_app_iff {A} (R : A -> A -> Prop) (l1 l2 : list A) :
  StronglySorted R (l1 ++ l2)
    <-> StronglySorted R l1 /\ StronglySorted R l2 /\ Forall (fun x => Forall (R x) l2) l1.
Proof.
  induction l1 as [|x l1 IH]; cbn [app].
  - split; [intros; split_and!; [constructor|done|constructor] | tauto].
  - split.
    + intros H; apply StronglySorted_inv in H as [H HF]; apply IH in H as (H1 & H2 & H3).
      apply Forall_app in HF as [HF1 HF2]; split_and!; [by constructor|done|by constructor].
    + intros (H1 & H2 & H3); apply StronglySorted_inv in H1 as [H1 HF].
      apply Forall_cons_iff in H3 as [Hx H3]; constructor; [by apply IH|by apply Forall_app].
Qed.

Lemma key_cmp_lt (a b : bytes) : key_lt a b -> key_cmp a b = Lt.
Proof. done. Qed.

Lemma key_cmp_gt (a b : bytes) : key_lt b a -> key_cmp a b = Gt.
Proof. intros H; rewrite key_cmp_antisym; unfold key_lt in H; by rewrite H. Qed.

Lemma key_cmp_refl (a : bytes) : key_cmp a a = Eq.
Proof. by apply key_cmp_eq. Qed.

Lemma key_lt_ne (a b : bytes) : key_lt a b -> a <> b.
Proof. intros H ->; by apply key_lt_irrefl in H. Qed.

Lemma key_sorted_app (l1 l2 : list kv) :
  key_sorted (l1 ++ l2)
    <-> key_sorted l1 /\ key_sorted l2 /\ Forall (fun x => Forall (key_lt x) l2.*1) l1.*1.
Proof. unfold key_sorted; rewrite fmap_app; apply StronglySorted_app_iff. Qed.

(** ** Locality *)

Lemma al_insert_app_l (k v : bytes) (l1 l2 : list kv) :
  Forall (fun x => key_lt x k) l1.*1 -> al_insert k v (l1 ++ l2) = l1 ++ al_insert k v l2.
Proof.
  induction l1 as [|[k' v'] l1 IH]; [done|]; cbn [fmap list_fmap fst app al_insert]; intros H.
  apply Forall_cons_iff in H as [H HF]; rewrite key_cmp_gt by done; by rewrite IH.
Qed.

Lemma al_insert_app_r (k v : bytes) (l1 l2 : list kv) :
  Forall (key_lt k) l2.*1 -> al_insert k v (l1 ++ l2) = al_insert k v l1 ++ l2.
Proof.
  intros HF; induction l1 as [|[k' v'] l1 IH]; cbn [app al_insert].
  - destruct l2 as [|[k' v'] l2]; [done|]; apply Forall_cons_iff in HF as [HF _].
    cbn [al_insert]; cbn [fst] in HF; by rewrite key_cmp_lt.
  - by destruct (key_cmp k k'); cbn [app]; rewrite ?IH.
Qed.

Lemma al_delete_app (k : bytes) (l1 l2 : list kv) :
  al_delete k (l1 ++ l2) = al_delete k l1 ++ al_delete k l2.
Proof. apply list.filter_app. Qed.

Lemma al_delete_notin (k : bytes) (l : list kv) : k ∉ l.*1 -> al_delete k l = l.
Proof.
  induction l as [|[k' v'] l IH]; [done|]; cbn [fmap list_fmap fst]; intros Hn.
  unfold al_delete in *; rewrite filter_cons_True by (cbn [fst]; intros ->; set_solver).
  f_equal; apply IH; set_solver.
Qed.

Lemma lt_notin (k : bytes) (l : list bytes) : Forall (fun x => key_lt x k) l -> k ∉ l.
Proof.
  intros HF Hin; rewrite List.Forall_forall in HF; apply list_elem_of_In in Hin.
  by apply HF, key_lt_irrefl in Hin.
Qed.

Lemma gt_notin (k : bytes) (l : list bytes) : Forall (key_lt k) l -> k ∉ l.
Proof.
  intros HF Hin; rewrite List.Forall_forall in HF; apply list_elem_of_In in Hin.
  by apply HF, key_lt_irrefl in Hin.
Qed.

Lemma al_lookup_notin (k : bytes) (l : list kv) : k ∉ l.*1 -> al_lookup k l = None.
Proof.
  induction l as [|[k' v'] l IH]; [done|]; cbn [fmap list_fmap fst al_lookup]; intros Hn.
  rewrite bool_decide_eq_false_2 by set_solver; apply IH; set_solver.
Qed.

Lemma al_lookup_app (k : bytes) (l1 l2 : list kv) :
  k ∉ l1.*1 -> al_lookup k (l1 ++ l2) = al_lookup k l2.
Proof.
  induction l1 as [|[k' v'] l IH]; [done|]; cbn [fmap list_fmap fst al_lookup app]; intros Hn.
  rewrite bool_decide_eq_false_2 by set_solver; apply IH; set_solver.
Qed.

Lemma al_lookup_app_l (k : bytes) (l1 l2 : list kv) :
  k ∉ l2.*1 -> al_lookup k (l1 ++ l2) = al_lookup k l1.
Proof.
  intros Hn; induction l1 as [|[k' v'] l IH]; cbn [app al_lookup]; [by apply al_lookup_notin|].
  by rewrite IH.
Qed.

(** ** Keys of the results *)

Lemma al_insert_keys (k v : bytes) (l : list kv) (x : bytes) :
  x ∈ (al_insert k v l).*1 <-> x = k \/ x ∈ l.*1.
Proof.
  induction l as [|[k' v'] l IH]; cbn [al_insert].
  - cbn; set_solver.
  - destruct (key_cmp k k') eqn:E; cbn [fmap list_fmap fst].
    + apply key_cmp_eq in E as ->; set_solver.
    + set_solver.
    + rewrite !elem_of_cons; unfold fmap in IH; rewrite IH; tauto.
Qed.

Lemma al_insert_Forall (P : bytes -> Prop) (k v : bytes) (l : list kv) :
  P k -> Forall P l.*1 -> Forall P (al_insert k v l).*1.
Proof.
  intros Hk HF; rewrite List.Forall_forall in *; intros x Hx; apply list_elem_of_In in Hx.
  apply al_insert_keys in Hx as [->|Hx]; [done|]; apply HF; by apply list_elem_of_In.
Qed.

Lemma al_insert_sorted (k v : bytes) (l : list kv) : key_sorted l -> key_sorted (al_insert k v l).
Proof.
  unfold key_sorted; induction l as [|[k' v'] l IH]; cbn [al_insert]; [repeat constructor|].
  cbn [fmap list_fmap fst]; intros Hs; pose proof Hs as Hs0.
  apply StronglySorted_inv in Hs as [Hs HF].
  destruct (key_cmp k k') eqn:E; cbn [fmap list_fmap fst].
  - apply key_cmp_eq in E as ->; by constructor.
  - constructor; [done|]; constructor; [done|].
    eapply Forall_impl; [|exact HF]; intros x; by apply key_lt_trans.
  - constructor; [by apply IH|]; apply al_insert_Forall; [|done].
    unfold key_lt; by rewrite key_cmp_antisym, E.
Qed.

Lemma al_delete_keys (k : bytes) (l : list kv) (x : bytes) :
  x ∈ (al_delete k l).*1 <-> x <> k /\ x ∈ l.*1.
Proof.
  rewrite !list_elem_of_fmap; split.
  - intros ([k' v'] & -> & H); apply list_elem_of_filter in H as [H1 H2].
    split; [done|]; by eexists.
  - intros (Hne & [k' v'] & -> & H); eexists; split; [done|].
    by apply list_elem_of_filter.
Qed.

Lemma al_delete_Forall (P : bytes -> Prop) (k : bytes) (l : list kv) :
  Forall P l.*1 -> Forall P (al_delete k l).*1.
Proof.
  intros HF; rewrite List.Forall_forall in *; intros x Hx; apply list_elem_of_In in Hx.
  apply al_delete_keys in Hx as [_ Hx]; apply HF; by apply list_elem_of_In.
Qed.

Lemma al_delete_sorted (k : bytes) (l : list kv) : key_sorted l -> key_sorted (al_delete k l).
Proof.
  unfold key_sorted; induction l as [|[k' v'] l IH]; [done|].
  cbn [fmap list_fmap fst]; intros Hs; apply StronglySorted_inv in Hs as [Hs HF].
  unfold al_delete in *; destruct (decide (k' = k)) as [->|Hne].
  - rewrite filter_cons_False by (cbn; tauto); by apply IH.
  - rewrite filter_cons_True by done; cbn [fmap list_fmap fst]; constructor; [by apply IH|].
    by apply al_delete_Forall.
Qed.

(** ** Meaning as finite maps *)

Lemma key_sorted_NoDup (l : list kv) : key_sorted l -> NoDup l.*1.
Proof.
  unfold key_sorted; generalize l.*1; clear l; induction 1 as [|k l Hs IH HF]; constructor; [|done].
  by apply gt_notin.
Qed.

Lemma al_lookup_contents (k : bytes) (l : list kv) : al_lookup k l = contents l !! k.
Proof.
  induction l as [|[k' v'] l IH]; cbn [al_lookup]; [done|].
  unfold contents in *; cbn [list_to_map foldr uncurry fst snd].
  case_bool_decide as E; [subst; by rewrite lookup_insert_eq | by rewrite lookup_insert_ne].
Qed.

Lemma al_insert_contents (k v : bytes) (l : list kv) :
  contents (al_insert k v l) = <[k := v]> (contents l).
Proof.
  unfold contents; induction l as [|[k' v'] l IH]; cbn [al_insert]; [done|].
  destruct (key_cmp k k') eqn:E; cbn [list_to_map foldr uncurry fst snd].
  - apply key_cmp_eq in E as ->; by rewrite insert_insert_eq.
  - done.
  - cbn in IH; rewrite IH, insert_insert_ne; [done|].
    intros ->; by rewrite key_cmp_refl in E.
Qed.

Lemma al_delete_contents (k : bytes) (l : list kv) :
  contents (al_delete k l) = delete k (contents l).
Proof.
  apply map_eq; intros x; rewrite <- al_lookup_contents.
  destruct (decide (x = k)) as [->|Hne].
  - rewrite lookup_delete_eq; apply al_lookup_notin; rewrite al_delete_keys; tauto.
  - rewrite lookup_delete_ne, <- al_lookup_contents by done; unfold al_delete.
    induction l as [|[k' v'] l IH]; [done|]; destruct (decide (k' = k)) as [->|Hk].
    + rewrite filter_cons_False by (cbn; tauto); rewrite IH; cbn [al_lookup].
      by rewrite bool_decide_eq_false_2.
    + rewrite filter_cons_True by done; cbn [al_lookup]; by rewrite IH.
Qed.

Lemma al_lookup_in (k : bytes) (l : list kv) : k ∈ l.*1 -> is_Some (al_lookup k l).
Proof.
  induction l as [|[k' v'] l IH]; cbn [fmap list_fmap fst al_lookup]; [set_solver|].
  intros Hin; case_bool_decide; [by eexists|]; apply IH; set_solver.
Qed.
