(* ===== verification/PagerInterface.v ===== *)
(** * What the B-tree asks of the pager ([src/pager.h])

    [src/btree.c] reaches storage only through a handful of pager and
    transaction calls.  [PagerOps] names them, over a type of pagers and a type
    of open transactions; [PagerLaws] states what the tree relies on.  The tree's
    theorems are proved against these classes. *)

From S2P Require Import Prelude Status Page.

Class PagerOps (P T : Type) := {
  (** [sdb_pager_read]: the decoded view of a page of the committed state. *)
  pager_read : P -> Z -> result sdb_page_view;
  (** [sdb_pager_payload_capacity] *)
  pager_payload_capacity : P -> Z;
  (** [pager->superblock.next_page_id] and [pager->superblock.root_page] *)
  pager_next_page_id : P -> Z;
  pager_root_page : P -> Z;
  (** [pager->open && !pager->needs_recovery] *)
  pager_usable : P -> bool;
  (** [sdb_txn_begin] and [txn->pager] *)
  txn_begin : P -> result T;
  txn_pager : T -> P;
  (** [txn->allocated_pages] *)
  txn_allocated_pages : T -> list Z;
  (** [sdb_txn_allocate], [sdb_txn_free], [sdb_txn_put] *)
  txn_allocate : T -> result Z * T;
  txn_free : T -> Z -> result unit * T;
  txn_put : T -> Z -> Z -> bytes -> result unit * T;
  (** [sdb_txn_commit] and [sdb_txn_abort], which leave the pager *)
  txn_commit : T -> result unit * P;
  txn_abort : T -> P
}.

(** The laws.  [pager_eqv] relates pagers that answer every call alike (they may
    differ in what they cache); [pager_in_use p q] says that page [q] belongs to
    the client: neither free nor beyond the end of the file, and [txn_in_use] is
    the same for the state an open transaction would commit; [txn_staged] is what
    the transaction was given for a page.  A pager that reports success but needs
    recovery afterwards is not [pager_usable]; nothing is promised about it. *)
Class PagerLaws (P T : Type) `{!PagerOps P T} := {
  pager_ok : P -> Prop;
  pager_in_use : P -> Z -> Prop;
  pager_eqv : relation P;
  txn_ok : T -> Prop;
  txn_in_use : T -> Z -> Prop;
  txn_staged : T -> Z -> option bytes;

  pager_eqv_equivalence :: Equivalence pager_eqv;
  pager_read_proper :: Proper (pager_eqv ==> eq ==> eq) pager_read;
  pager_capacity_proper :: Proper (pager_eqv ==> eq) pager_payload_capacity;
  pager_root_proper :: Proper (pager_eqv ==> eq) pager_root_page;
  pager_usable_proper :: Proper (pager_eqv ==> eq) pager_usable;
  pager_ok_proper :: Proper (pager_eqv ==> iff) pager_ok;
  pager_in_use_proper :: Proper (pager_eqv ==> eq ==> iff) pager_in_use;

  pager_range (pager : P) (p : Z) : pager_ok pager -> pager_in_use pager p -> 0 < p < 2 ^ 52;
  pager_end (pager : P) (p : Z) : pager_ok pager -> pager_in_use pager p -> p < pager_next_page_id pager;
  in_use_range (t : T) (p : Z) : txn_ok t -> txn_in_use t p -> 0 < p < 2 ^ 52;
  begin_law (pager : P) (t : T) :
    pager_ok pager -> txn_begin pager = Ok t ->
    txn_ok t /\ pager_eqv (txn_pager t) pager
    /\ (forall q, txn_in_use t q <-> pager_in_use pager q)
    /\ txn_allocated_pages t = [] /\ (forall q, txn_staged t q = None);
  allocate_law (t t' : T) (p : Z) :
    txn_ok t -> txn_allocate t = (Ok p, t') ->
    txn_ok t' /\ ~ txn_in_use t p
    /\ (forall q, txn_in_use t' q <-> txn_in_use t q \/ q = p)
    /\ (forall q, q ∈ txn_allocated_pages t' <-> q ∈ txn_allocated_pages t \/ q = p)
    /\ txn_staged t' p = None /\ (forall q, q <> p -> txn_staged t' q = txn_staged t q);
  free_law (t t' : T) (p : Z) :
    txn_ok t -> txn_in_use t p -> txn_free t p = (Ok tt, t') ->
    txn_ok t'
    /\ (forall q, txn_in_use t' q <-> txn_in_use t q /\ q <> p)
    /\ (forall q, q ∈ txn_allocated_pages t' <-> q ∈ txn_allocated_pages t /\ q <> p)
    /\ (forall q, q <> p -> txn_staged t' q = txn_staged t q);
  put_law (t t' : T) (p : Z) (payload : bytes) :
    txn_ok t -> txn_in_use t p -> txn_put t p SDB_PAGE_TYPE_DATA payload = (Ok tt, t') ->
    txn_ok t'
    /\ (forall q, txn_in_use t' q <-> txn_in_use t q)
    /\ txn_staged t' p = Some payload /\ (forall q, q <> p -> txn_staged t' q = txn_staged t q);
  commit_law (t : T) (pager : P) :
    txn_ok t -> txn_commit t = (Ok tt, pager) -> pager_usable pager = true ->
    pager_ok pager
    /\ (forall q, pager_in_use pager q <-> txn_in_use t q)
    /\ pager_payload_capacity pager = pager_payload_capacity (txn_pager t)
    /\ pager_root_page pager = pager_root_page (txn_pager t)
    /\ (forall q, txn_in_use t q ->
          match txn_staged t q with
          | Some payload => exists view, pager_read pager q = Ok view
                              /\ view_type view = SDB_PAGE_TYPE_DATA /\ view_payload view = payload
          | None => pager_read pager q = pager_read (txn_pager t) q
          end);
  (** No call but a commit changes the committed state, whatever it returns. *)
  allocate_pager (t : T) : pager_eqv (txn_pager (txn_allocate t).2) (txn_pager t);
  free_pager (t : T) (p : Z) : pager_eqv (txn_pager (txn_free t p).2) (txn_pager t);
  put_pager (t : T) (p type : Z) (payload : bytes) :
    pager_eqv (txn_pager (txn_put t p type payload).2) (txn_pager t);
  abort_pager (t : T) : pager_eqv (txn_abort t) (txn_pager t);
  (** No call fails with the status of success. *)
  begin_honest (pager : P) : honest (txn_begin pager);
  read_honest (pager : P) (p : Z) : honest (pager_read pager p);
  allocate_honest (t : T) : honest (txn_allocate t).1;
  free_honest (t : T) (p : Z) : honest (txn_free t p).1;
  put_honest (t : T) (p type : Z) (payload : bytes) : honest (txn_put t p type payload).1;
  commit_honest (t : T) : honest (txn_commit t).1
}.
