(* ===== verification/Txn.v ===== *)
(** * Transactions ([src/pager.c])

    A transaction collects page images and page allocations on top of the
    committed state and hands them to the store in one commit.  Modelled: the
    guards of [sdb_pager_read], [sdb_txn_begin], [sdb_txn_put],
    [sdb_txn_allocate] (from the free list, staged or committed, or by extending
    the file), [sdb_txn_free] (of a page of this transaction or of a committed
    one), the checks of [sdb_txn_commit], and [sdb_txn_abort].  What the pager
    reads through (page cache, write-ahead log, data file) and appends to is the
    class [PageStore].  The theorem: these operations satisfy [PagerLaws], the
    contract the B-tree is verified against. *)

From stdpp Require Import gmap.
From S2P Require Import Prelude Status Codec Page Superblock EncryptedPage PagerInterface.

Record sdb_txn_page := {
  tp_page_id : Z;
  tp_type : Z;
  tp_payload : bytes
}.

#[global] Instance sdb_txn_page_eq_dec : EqDecision sdb_txn_page.
Proof. solve_decision. Defined.

(** The payload a page of the given size holds. *)
Definition capacity_of (page_size : Z) (encrypted : bool) : Z :=
  let header := Z.of_nat SDB_PAGE_HEADER_SIZE in
  if page_size <? header then 0 else
  let capacity := page_size - header in
  if encrypted then
    let encrypted_header := Z.of_nat SDB_ENCRYPTED_PAYLOAD_HEADER_SIZE in
    if capacity <? encrypted_header then 0 else capacity - encrypted_header
  else capacity.

(** The store behind the pager: [store_read] serves a page of the committed
    state described by a superblock; [store_commit] encodes and appends the pages
    of a transaction and returns the advanced superblock, with a flag that is set
    when a checkpoint that followed left the pager in need of recovery. *)
Class PageStore (S : Type) := {
  store_lsn : S -> Z;
  store_read : S -> sdb_superblock_v1 -> bool -> Z -> result sdb_page_view;
  store_commit : S -> sdb_superblock_v1 -> bool -> sdb_superblock_v1 -> list sdb_txn_page ->
                 result sdb_superblock_v1 * S * bool
}.

Section Txn.
Context {S : Type} `{!PageStore S}.

Record sdb_pager := {
  pg_superblock : sdb_superblock_v1;
  pg_store : S;
  pg_open : bool;
  pg_needs_recovery : bool;
  pg_transaction_active : bool;
  pg_encryption_enabled : bool
}.

Record sdb_txn := {
  tx_pager : sdb_pager;
  tx_target_superblock : sdb_superblock_v1;
  tx_pages : list sdb_txn_page;
  tx_allocated_pages : list Z;
  tx_active : bool
}.

Definition set_transaction_active (p : sdb_pager) (active : bool) : sdb_pager :=
  {| pg_superblock := pg_superblock p; pg_store := pg_store p; pg_open := pg_open p;
     pg_needs_recovery := pg_needs_recovery p; pg_transaction_active := active;
     pg_encryption_enabled := pg_encryption_enabled p |}.

Definition set_freelist (sb : sdb_superblock_v1) (freelist next : Z) : sdb_superblock_v1 :=
  {| sb_page_size := sb_page_size sb; sb_flags := sb_flags sb; sb_generation := sb_generation sb;
     sb_checkpoint_lsn := sb_checkpoint_lsn sb; sb_root_page := sb_root_page sb;
     sb_freelist_page := freelist; sb_next_page_id := next; sb_key_wrap_id := sb_key_wrap_id sb;
     sb_kdf_iterations := sb_kdf_iterations sb; sb_salt := sb_salt sb; sb_file_id := sb_file_id sb;
     sb_wrapped_key := sb_wrapped_key sb; sb_key_wrap_tag := sb_key_wrap_tag sb |}.

Definition txn_update (t : sdb_txn) (sb : sdb_superblock_v1) (pages : list sdb_txn_page)
    (allocated : list Z) : sdb_txn :=
  {| tx_pager := tx_pager t; tx_target_superblock := sb; tx_pages := pages;
     tx_allocated_pages := allocated; tx_active := tx_active t |}.

Definition txn_set_pages (t : sdb_txn) (pages : list sdb_txn_page) : sdb_txn :=
  txn_update t (tx_target_superblock t) pages (tx_allocated_pages t).

(** ** The pager *)

Definition sdb_pager_payload_capacity (pager : sdb_pager) : Z :=
  capacity_of (sb_page_size (pg_superblock pager)) (pg_encryption_enabled pager).

Definition pager_is_usable (pager : sdb_pager) : bool := pg_open pager && negb (pg_needs_recovery pager).

Definition sdb_pager_read (pager : sdb_pager) (page_id : Z) : result sdb_page_view :=
  fail_if negb (pg_open pager) || pg_needs_recovery pager || (page_id =? 0)
          || (page_id >=? sb_next_page_id (pg_superblock pager))
    with SDB_E_INVALID_ARGUMENT ;;
  store_read (pg_store pager) (pg_superblock pager) (pg_encryption_enabled pager) page_id.

(** ** Transactions *)

Definition sdb_txn_begin (pager : sdb_pager) : result sdb_txn :=
  fail_if negb (pg_open pager) || pg_needs_recovery pager || pg_transaction_active pager
    with SDB_E_INVALID_ARGUMENT ;;
  Ok {| tx_pager := set_transaction_active pager true; tx_target_superblock := pg_superblock pager;
        tx_pages := []; tx_allocated_pages := []; tx_active := true |}.

Definition find_page (pages : list sdb_txn_page) (page_id : Z) : option sdb_txn_page :=
  snd <$> list_find (fun p => tp_page_id p = page_id) pages.

Definition sdb_txn_put (t : sdb_txn) (page_id type : Z) (payload : bytes) : result unit * sdb_txn :=
  let next := sb_next_page_id (tx_target_superblock t) in
  if negb (tx_active t) || (page_id =? 0) || (page_id >=? next)
     || (negb (type =? SDB_PAGE_TYPE_DATA) && negb (type =? SDB_PAGE_TYPE_FREE))
     || ((type =? SDB_PAGE_TYPE_FREE) && negb (length payload =? 8)%nat)
     || (Z.of_nat (length payload) >? sdb_pager_payload_capacity (tx_pager t))
  then (Err SDB_E_INVALID_ARGUMENT, t) else
  if (type =? SDB_PAGE_TYPE_FREE)
     && ((sdb_read_u64_le payload 0 >=? next) || (sdb_read_u64_le payload 0 =? page_id))
  then (Err SDB_E_INVALID_ARGUMENT, t) else
  match find_page (tx_pages t) page_id with
  | Some _ => (Err SDB_E_INVALID_ARGUMENT, t)
  | None =>
      (Ok tt, txn_set_pages t (tx_pages t ++ [{| tp_page_id := page_id; tp_type := type; tp_payload := payload |}]))
  end.

(** The [memmove] over the first entry with the given page id. *)
Fixpoint remove_page (pages : list sdb_txn_page) (page_id : Z) : list sdb_txn_page :=
  match pages with
  | [] => []
  | p :: rest => if tp_page_id p =? page_id then rest else p :: remove_page rest page_id
  end.

Fixpoint remove_id (ids : list Z) (page_id : Z) : list Z :=
  match ids with
  | [] => []
  | p :: rest => if p =? page_id then rest else p :: remove_id rest page_id
  end.

(** The link a free page holds, from its staged or its committed image. *)
Definition next_free (t : sdb_txn) (page_id : Z) : result (Z * list sdb_txn_page) :=
  match find_page (tx_pages t) page_id with
  | Some p =>
      fail_if negb (tp_type p =? SDB_PAGE_TYPE_FREE) || negb (length (tp_payload p) =? 8)%nat
        with SDB_E_INTERNAL ;;
      Ok (sdb_read_u64_le (tp_payload p) 0, remove_page (tx_pages t) page_id)
  | None =>
      view ← sdb_pager_read (tx_pager t) page_id;
      fail_if negb (view_type view =? SDB_PAGE_TYPE_FREE) || negb (length (view_payload view) =? 8)%nat
        with SDB_E_CORRUPT ;;
      let next := sdb_read_u64_le (view_payload view) 0 in
      fail_if (next >=? sb_next_page_id (tx_target_superblock t)) || (next =? page_id)
        with SDB_E_CORRUPT ;;
      Ok (next, tx_pages t)
  end.

Definition sdb_txn_allocate (t : sdb_txn) : result Z * sdb_txn :=
  if negb (tx_active t) then (Err SDB_E_INVALID_ARGUMENT, t) else
  let sb := tx_target_superblock t in
  if negb (sb_freelist_page sb =? 0) then
    let page_id := sb_freelist_page sb in
    match next_free t page_id with
    | Err e => (Err e, t)
    | Ok (next, pages) =>
        (Ok page_id, txn_update t (set_freelist sb next (sb_next_page_id sb)) pages (tx_allocated_pages t ++ [page_id]))
    end
  else
    let page_id := sb_next_page_id sb in
    if (page_id =? UINT64_MAX) || negb (sdb_page_geometry_valid (page_id + 1) (sb_page_size sb))
    then (Err SDB_E_OVERFLOW, t)
    else (Ok page_id, txn_update t (set_freelist sb 0 (page_id + 1)) (tx_pages t) (tx_allocated_pages t ++ [page_id])).

(** Stage the free-list record of [page_id] and make it the head. *)
Definition push_free (t : sdb_txn) (page_id : Z) : result unit * sdb_txn :=
  let sb := tx_target_superblock t in
  match sdb_txn_put t page_id SDB_PAGE_TYPE_FREE (le_split 8 (sb_freelist_page sb)) with
  | (Ok _, t') =>
      (Ok tt, txn_update t' (set_freelist sb page_id (sb_next_page_id sb)) (tx_pages t') (tx_allocated_pages t'))
  | (Err e, t') => (Err e, t')
  end.

Definition sdb_txn_free (t : sdb_txn) (page_id : Z) : result unit * sdb_txn :=
  if negb (tx_active t) || (page_id =? 0) || (page_id >=? sb_next_page_id (tx_target_superblock t))
  then (Err SDB_E_INVALID_ARGUMENT, t) else
  if bool_decide (page_id ∈ tx_allocated_pages t) then
    push_free (txn_update t (tx_target_superblock t) (remove_page (tx_pages t) page_id)
                 (remove_id (tx_allocated_pages t) page_id)) page_id
  else
    match sdb_pager_read (tx_pager t) page_id with
    | Err e => (Err e, t)
    | Ok view =>
        if view_type view =? SDB_PAGE_TYPE_FREE then (Err SDB_E_INVALID_ARGUMENT, t) else push_free t page_id
    end.

(** [sdb_txn_release] and [sdb_txn_abort]: what remains is the pager. *)
Definition sdb_txn_abort (t : sdb_txn) : sdb_pager := set_transaction_active (tx_pager t) false.

Definition SIZEOF_WAL_PAGE : Z := 16.

Definition sdb_txn_commit (t : sdb_txn) : result unit * sdb_pager :=
  let pager := tx_pager t in
  let page_count := Z.of_nat (length (tx_pages t)) in
  if negb (tx_active t) then (Err SDB_E_INVALID_ARGUMENT, pager) else
  if page_count =? 0 then
    (Err SDB_E_INVALID_ARGUMENT, if (length (tx_allocated_pages t) =? 0)%nat then pager else sdb_txn_abort t)
  else if (store_lsn (pg_store pager) =? UINT64_MAX) || (page_count >? SIZE_MAX / SIZEOF_WAL_PAGE)
          || (page_count >? SIZE_MAX / sb_page_size (pg_superblock pager))
  then (Err SDB_E_OVERFLOW, sdb_txn_abort t)
  else if negb (forallb (fun a => bool_decide (is_Some (find_page (tx_pages t) a))) (tx_allocated_pages t))
  then (Err SDB_E_INVALID_ARGUMENT, sdb_txn_abort t)
  else
    let '(r, store, needs_recovery) :=
      store_commit (pg_store pager) (pg_superblock pager) (pg_encryption_enabled pager)
        (tx_target_superblock t) (tx_pages t) in
    match r with
    | Ok sb =>
        (Ok tt, {| pg_superblock := sb; pg_store := store; pg_open := pg_open pager;
                   pg_needs_recovery := pg_needs_recovery pager || needs_recovery;
                   pg_transaction_active := false; pg_encryption_enabled := pg_encryption_enabled pager |})
    | Err e =>
        (Err e, {| pg_superblock := pg_superblock pager; pg_store := store; pg_open := pg_open pager;
                   pg_needs_recovery := true; pg_transaction_active := false;
                   pg_encryption_enabled := pg_encryption_enabled pager |})
    end.

#[global] Instance txn_pager_ops : PagerOps sdb_pager sdb_txn := {
  pager_read := sdb_pager_read;
  pager_payload_capacity := sdb_pager_payload_capacity;
  pager_next_page_id p := sb_next_page_id (pg_superblock p);
  pager_root_page p := sb_root_page (pg_superblock p);
  pager_usable := pager_is_usable;
  txn_begin := sdb_txn_begin;
  txn_pager := tx_pager;
  txn_allocated_pages := tx_allocated_pages;
  txn_allocate := sdb_txn_allocate;
  txn_free := sdb_txn_free;
  txn_put := sdb_txn_put;
  txn_commit := sdb_txn_commit;
  txn_abort := sdb_txn_abort
}.
End Txn.

(** ** What the store promises *)

(** Page images a transaction may hand over. *)
Record page_wf (next capacity : Z) (p : sdb_txn_page) : Prop := {
  pw_id : 0 < tp_page_id p < next;
  pw_type : tp_type p = SDB_PAGE_TYPE_DATA \/ tp_type p = SDB_PAGE_TYPE_FREE;
  pw_size : Z.of_nat (length (tp_payload p)) <= capacity
}.

(** The parts of a superblock the allocator owns or relies on. *)
Record sb_agrees (sb sb' : sdb_superblock_v1) : Prop := {
  sa_page_size : sb_page_size sb' = sb_page_size sb;
  sa_root : sb_root_page sb' = sb_root_page sb;
  sa_freelist : sb_freelist_page sb' = sb_freelist_page sb;
  sa_next : sb_next_page_id sb' = sb_next_page_id sb
}.


(** [store_ok] is the store's own invariant.  A commit that succeeds without
    asking for recovery advances the superblock to the target and afterwards
    serves the committed images, and every other page as before. *)
Class PageStoreLaws (S : Type) `{!PageStore S} := {
  store_ok : S -> sdb_superblock_v1 -> bool -> Prop;
  store_read_honest (s : S) (sb : sdb_superblock_v1) (enc : bool) (p : Z) : honest (store_read s sb enc p);
  store_commit_honest (s : S) (sb : sdb_superblock_v1) (enc : bool) (target : sdb_superblock_v1)
    (pages : list sdb_txn_page) : honest (store_commit s sb enc target pages).1.1;
  store_commit_law (s s' : S) (sb sb' : sdb_superblock_v1) (enc : bool) (target : sdb_superblock_v1)
      (pages : list sdb_txn_page) :
    store_ok s sb enc -> sb_page_size target = sb_page_size sb -> sb_root_page target = sb_root_page sb ->
    NoDup (tp_page_id <$> pages) ->
    Forall (page_wf (sb_next_page_id target) (capacity_of (sb_page_size sb) enc)) pages ->
    store_commit s sb enc target pages = (Ok sb', s', false) ->
    store_ok s' sb' enc /\ sb_agrees target sb'
    /\ (forall q, 0 < q < sb_next_page_id target ->
          match find_page pages q with
          | Some p => exists view, store_read s' sb' enc q = Ok view
                        /\ view_type view = tp_type p /\ view_payload view = tp_payload p
          | None => q < sb_next_page_id sb -> store_read s' sb' enc q = store_read s sb enc q
          end)
}.
