(* ===== verification/MemoryStore.v ===== *)
(** * A page store kept in memory

    The smallest store that satisfies [PageStoreLaws]: a finite map of page
    images.  It shows that the hypotheses of the transaction and tree theorems
    can be met, and runs their examples. *)

From stdpp Require Import gmap.
From S2P Require Import Prelude Status Page Superblock Txn.

Record memory_store := {
  ms_pages : gmap Z (Z * bytes);
  ms_lsn : Z
}.

Definition memory_read (s : memory_store) (sb : sdb_superblock_v1) (encrypted : bool) (q : Z)
  : result sdb_page_view :=
  match ms_pages s !! q with
  | Some (type, payload) =>
      Ok {| view_type := type; view_flags := 0; view_page_id := q; view_page_lsn := 0; view_payload := payload |}
  | None => Err SDB_E_IO
  end.

Definition memory_commit (s : memory_store) (sb : sdb_superblock_v1) (encrypted : bool)
    (target : sdb_superblock_v1) (pages : list sdb_txn_page) : result sdb_superblock_v1 * memory_store * bool :=
  (Ok target,
   {| ms_pages := foldr (fun p m => <[tp_page_id p := (tp_type p, tp_payload p)]> m) (ms_pages s) pages;
      ms_lsn := ms_lsn s + 1 |}, false).

#[global] Instance memory_page_store : PageStore memory_store := {
  store_lsn := ms_lsn;
  store_read := memory_read;
  store_commit := memory_commit
}.

Lemma memory_lookup (m : gmap Z (Z * bytes)) (pages : list sdb_txn_page) (q : Z) :
  foldr (fun p m => <[tp_page_id p := (tp_type p, tp_payload p)]> m) m pages !! q
    = match find_page pages q with
      | Some p => Some (tp_type p, tp_payload p)
      | None => m !! q
      end.
Proof.
  induction pages as [|p pages IH]; [done|]; cbn [foldr]; unfold find_page in *; cbn [list_find].
  destruct (decide (tp_page_id p = q)) as [<-|Hne]; [by rewrite lookup_insert_eq|].
  rewrite lookup_insert_ne, IH by done; by destruct (list_find _ pages) as [[]|].
Qed.

#[global] Instance memory_store_laws : PageStoreLaws memory_store.
Proof.
  refine {| store_ok := fun _ _ _ => True |}.
  - intros s sb enc q; cbn; unfold memory_read; by destruct (ms_pages s !! q) as [[]|].
  - done.
  - intros s s' sb sb' enc target pages _ _ _ _ _ H; cbn in H; unfold memory_commit in H; injection H as <- <-.
    split_and!; [done|by split|]; intros q _; cbn; unfold memory_read; cbn [ms_pages]; rewrite memory_lookup.
    destruct (find_page pages q) as [p|]; [by eexists|done].
Defined.

(** An empty database: one page, the root of the tree, holding [root]. *)
Definition example_superblock : sdb_superblock_v1 :=
  {| sb_page_size := 4096; sb_flags := 0; sb_generation := 1; sb_checkpoint_lsn := 0; sb_root_page := 1;
     sb_freelist_page := 0; sb_next_page_id := 2; sb_key_wrap_id := 0; sb_kdf_iterations := 0;
     sb_salt := repeat x00 16; sb_file_id := repeat (byte.of_Z 1) 16; sb_wrapped_key := repeat x00 32;
     sb_key_wrap_tag := repeat x00 16 |}.

Definition example_pager (root : bytes) : sdb_pager :=
  {| pg_superblock := example_superblock;
     pg_store := {| ms_pages := {[ 1 := (SDB_PAGE_TYPE_DATA, root) ]}; ms_lsn := 0 |};
     pg_open := true; pg_needs_recovery := false; pg_transaction_active := false; pg_encryption_enabled := false |}.
