(* ===== verification/TxnLaws.v ===== *)
(** * The transaction layer satisfies the pager contract

    Over a store that keeps its promises ([PageStoreLaws]) the transactions of
    [src/pager.c] satisfy [PagerLaws].  The heart is the free list: a chain of
    page images, some staged in the transaction and some committed, that
    allocation pops and release pushes, disjoint from the pages in use. *)

From stdpp Require Import gmap.
From S2P Require Import Prelude Status Codec Page Superblock EncryptedPage PagerInterface Txn MemoryStore.

#[local] Arguments find_page : simpl never.

Section TxnLaws.
Context {S : Type} `{!PageStore S} `{!PageStoreLaws S}.

(** ** The free list *)

Inductive free_chain (link : Z -> option Z) : Z -> list Z -> Prop :=
  | free_chain_nil : free_chain link 0 []
  | free_chain_cons p next fl :
      p <> 0 -> link p = Some next -> free_chain link next fl -> free_chain link p (p :: fl).

Lemma free_chain_fun (link : Z -> option Z) (p : Z) (fl fl' : list Z) :
  free_chain link p fl -> free_chain link p fl' -> fl = fl'.
Proof.
  intros H; revert fl'; induction H as [|p next fl Hp Hl H IH]; intros fl' H'; inversion H'; subst; try done.
  f_equal; apply IH; congruence.
Qed.

Lemma free_chain_ext (link link' : Z -> option Z) (p : Z) (fl : list Z) :
  (forall q, q ∈ fl -> link' q = link q) -> free_chain link p fl -> free_chain link' p fl.
Proof.
  intros Hq H; induction H as [|p next fl Hp Hl H IH]; [constructor|].
  econstructor; [done|rewrite Hq; [done|left]|]; apply IH; intros q Hin; apply Hq; by right.
Qed.

(** The link of a free page image. *)
Definition free_link (type : Z) (payload : bytes) : option Z :=
  if (type =? SDB_PAGE_TYPE_FREE) && (length payload =? 8)%nat then Some (sdb_read_u64_le payload 0) else None.

Definition committed_link (pager : sdb_pager (S := S)) (p : Z) : option Z :=
  match sdb_pager_read pager p with
  | Ok view => free_link (view_type view) (view_payload view)
  | Err _ => None
  end.

Definition txn_link (t : sdb_txn (S := S)) (p : Z) : option Z :=
  match find_page (tx_pages t) p with
  | Some pg => free_link (tp_type pg) (tp_payload pg)
  | None => committed_link (tx_pager t) p
  end.

(** ** Staged pages *)

Lemma find_page_app (pages : list sdb_txn_page) (pg : sdb_txn_page) (q : Z) :
  find_page (pages ++ [pg]) q
    = match find_page pages q with
      | Some x => Some x
      | None => if decide (tp_page_id pg = q) then Some pg else None
      end.
Proof.
  induction pages as [|p pages IH]; unfold find_page in *; cbn [app list_find].
  - by destruct (decide _).
  - destruct (decide (tp_page_id p = q)); [done|].
    destruct (list_find _ (pages ++ [pg])) as [[]|], (list_find _ pages) as [[]|]; cbn in *; congruence.
Qed.

Lemma find_page_Some (pages : list sdb_txn_page) (q : Z) (pg : sdb_txn_page) :
  find_page pages q = Some pg -> pg ∈ pages /\ tp_page_id pg = q.
Proof.
  unfold find_page; destruct (list_find _ pages) as [[i x]|] eqn:E; [|done]; intros H; injection H as ->.
  apply list_find_Some in E as (Hi & Hx & _); split; [by eapply list_elem_of_lookup_2|done].
Qed.

Lemma find_page_None (pages : list sdb_txn_page) (q : Z) :
  find_page pages q = None <-> q ∉ tp_page_id <$> pages.
Proof.
  unfold find_page; destruct (list_find _ pages) as [[i x]|] eqn:E; cbn.
  - split; [done|]; intros Hn; exfalso; apply Hn; apply list_find_Some in E as (Hi & Hx & _).
    apply list_elem_of_fmap; exists x; split; [done|]; by eapply list_elem_of_lookup_2.
  - split; [|done]; intros _ Hin; apply list_elem_of_fmap in Hin as (x & -> & Hx).
    apply list_find_None in E; rewrite List.Forall_forall in E; apply list_elem_of_In in Hx; by apply (E x Hx).
Qed.

Lemma find_page_in (pages : list sdb_txn_page) (pg : sdb_txn_page) :
  NoDup (tp_page_id <$> pages) -> pg ∈ pages -> find_page pages (tp_page_id pg) = Some pg.
Proof.
  induction pages as [|p pages IH]; [by intros _ H; apply elem_of_nil in H|].
  rewrite fmap_cons; intros Hn Hin; apply list.NoDup_cons in Hn as [Hp Hn]; unfold find_page in *; cbn [list_find].
  apply elem_of_cons in Hin as [->|Hin]; [by rewrite decide_True|].
  rewrite decide_False; [|intros E; apply Hp; rewrite E; by apply list_elem_of_fmap_2].
  specialize (IH Hn Hin); by destruct (list_find _ pages) as [[]|].
Qed.

Lemma find_page_remove (pages : list sdb_txn_page) (p q : Z) :
  NoDup (tp_page_id <$> pages) ->
  find_page (remove_page pages p) q = if decide (q = p) then None else find_page pages q.
Proof.
  induction pages as [|x pages IH]; cbn [remove_page]; [by destruct (decide _)|].
  rewrite fmap_cons; intros Hn; apply list.NoDup_cons in Hn as [Hx Hn].
  destruct (Z.eqb_spec (tp_page_id x) p) as [E|E].
  - destruct (decide (q = p)) as [->|Hq]; [subst; by apply find_page_None|].
    unfold find_page; cbn [list_find]; rewrite decide_False by congruence; by destruct (list_find _ pages) as [[]|].
  - unfold find_page in *; cbn [list_find]; destruct (decide (tp_page_id x = q)) as [Hx'|Hx'].
    + rewrite decide_False by congruence; done.
    + specialize (IH Hn); destruct (decide (q = p)), (list_find _ (remove_page pages p)) as [[]|];
        try destruct (list_find _ pages) as [[]|]; cbn in *; congruence.
Qed.

Lemma remove_page_sub (pages : list sdb_txn_page) (p : Z) (x : sdb_txn_page) :
  x ∈ remove_page pages p -> x ∈ pages.
Proof.
  induction pages as [|y pages IH]; cbn [remove_page]; [done|]; destruct (_ =? _); [by right|].
  intros H; apply elem_of_cons in H as [->|H]; [left|right; by apply IH].
Qed.

Lemma remove_page_nodup (pages : list sdb_txn_page) (p : Z) :
  NoDup (tp_page_id <$> pages) -> NoDup (tp_page_id <$> remove_page pages p).
Proof.
  induction pages as [|y pages IH]; cbn [remove_page]; [done|]; rewrite fmap_cons; intros Hn.
  apply list.NoDup_cons in Hn as [Hy Hn]; destruct (_ =? _); [done|]; rewrite fmap_cons; apply list.NoDup_cons.
  split; [|by apply IH]; intros Hin; apply Hy; apply list_elem_of_fmap in Hin as (x & E & Hx).
  rewrite E; by apply list_elem_of_fmap_2, (remove_page_sub _ p).
Qed.

Lemma remove_id_in (ids : list Z) (p q : Z) :
  NoDup ids -> q ∈ remove_id ids p <-> q ∈ ids /\ q <> p.
Proof.
  induction ids as [|y ids IH]; cbn [remove_id]; [intros _; rewrite elem_of_nil; tauto|].
  intros Hn; apply list.NoDup_cons in Hn as [Hy Hn]; destruct (Z.eqb_spec y p) as [->|E]; rewrite ?elem_of_cons.
  - split; [intros Hq; split; [by right|]; intros ->; done|]; tauto.
  - rewrite IH by done; naive_solver.
Qed.

Lemma remove_id_nodup (ids : list Z) (p : Z) : NoDup ids -> NoDup (remove_id ids p).
Proof.
  induction ids as [|y ids IH]; cbn [remove_id]; [done|]; intros Hn; pose proof Hn as Hn0.
  apply list.NoDup_cons in Hn as [Hy Hn]; destruct (_ =? _); [done|]; apply list.NoDup_cons; split; [|by apply IH].
  intros Hin; apply remove_id_in in Hin as [Hin _]; done.
Qed.

(** ** Invariants *)

(** The page space described by a superblock, [fl] being its free pages. *)
Record space_ok (sb : sdb_superblock_v1) (fl : list Z) : Prop := {
  so_page_size : 4096 <= sb_page_size sb < 2 ^ 32;
  so_next : 0 < sb_next_page_id sb;
  so_geometry : 8192 + (sb_next_page_id sb - 1) * sb_page_size sb <= UINT64_MAX;
  so_nodup : NoDup fl;
  so_range : forall q, q ∈ fl -> 0 < q < sb_next_page_id sb
}.

Lemma space_bound (sb : sdb_superblock_v1) (fl : list Z) (q : Z) :
  space_ok sb fl -> 0 < q < sb_next_page_id sb -> 0 < q < 2 ^ 52.
Proof. intros [Hp Hn Hg _ _] Hq; unfold UINT64_MAX in Hg; nia. Qed.

Lemma space_next_bound (sb : sdb_superblock_v1) (fl : list Z) : space_ok sb fl -> sb_next_page_id sb < 2 ^ 64.
Proof.
  intros Hs; destruct (Z.le_gt_cases (sb_next_page_id sb) 1) as [Hn|Hn]; [lia|].
  pose proof (space_bound sb fl (sb_next_page_id sb - 1) Hs ltac:(lia)); lia.
Qed.

Record pager_inv (p : sdb_pager (S := S)) (fl : list Z) : Prop := {
  pv_usable : pager_is_usable p = true;
  pv_store : store_ok (pg_store p) (pg_superblock p) (pg_encryption_enabled p);
  pv_space : space_ok (pg_superblock p) fl;
  pv_chain : free_chain (committed_link p) (sb_freelist_page (pg_superblock p)) fl
}.

(** [pend] lists pages taken back from the transaction and not yet free. *)
Record txn_inv (t : sdb_txn (S := S)) (fl pend : list Z) : Prop := {
  tv_active : tx_active t = true;
  tv_usable : pager_is_usable (tx_pager t) = true;
  tv_store : store_ok (pg_store (tx_pager t)) (pg_superblock (tx_pager t)) (pg_encryption_enabled (tx_pager t));
  tv_page_size : sb_page_size (tx_target_superblock t) = sb_page_size (pg_superblock (tx_pager t));
  tv_root : sb_root_page (tx_target_superblock t) = sb_root_page (pg_superblock (tx_pager t));
  tv_space : space_ok (tx_target_superblock t) fl;
  tv_chain : free_chain (txn_link t) (sb_freelist_page (tx_target_superblock t)) fl;
  tv_pages : NoDup (tp_page_id <$> tx_pages t);
  tv_wf : Forall (page_wf (sb_next_page_id (tx_target_superblock t)) (sdb_pager_payload_capacity (tx_pager t)))
            (tx_pages t);
  tv_free : forall pg, pg ∈ tx_pages t -> tp_type pg = SDB_PAGE_TYPE_FREE -> tp_page_id pg ∈ fl;
  tv_data : forall pg, pg ∈ tx_pages t -> tp_type pg = SDB_PAGE_TYPE_DATA -> tp_page_id pg ∉ fl;
  tv_alloc : NoDup (tx_allocated_pages t);
  tv_alloc_use : forall q, q ∈ tx_allocated_pages t -> 0 < q < sb_next_page_id (tx_target_superblock t) /\ q ∉ fl;
  tv_new : forall q, 0 < q < sb_next_page_id (tx_target_superblock t) ->
             q < sb_next_page_id (pg_superblock (tx_pager t)) \/ q ∈ fl \/ q ∈ tx_allocated_pages t \/ q ∈ pend
}.

Definition in_space (sb : sdb_superblock_v1) (link : Z -> option Z) (q : Z) : Prop :=
  0 < q < sb_next_page_id sb /\ forall fl, free_chain link (sb_freelist_page sb) fl -> q ∉ fl.

Lemma in_space_iff (sb : sdb_superblock_v1) (link : Z -> option Z) (fl : list Z) (q : Z) :
  free_chain link (sb_freelist_page sb) fl -> in_space sb link q <-> 0 < q < sb_next_page_id sb /\ q ∉ fl.
Proof.
  intros Hc; unfold in_space; split; intros [Hr Hn]; split; try done; [by apply Hn|].
  intros fl' Hc'; by rewrite (free_chain_fun _ _ _ _ Hc' Hc).
Qed.

Definition pager_same (p p' : sdb_pager (S := S)) : Prop :=
  set_transaction_active p false = set_transaction_active p' false.

#[global] Instance pager_same_equiv : Equivalence pager_same.
Proof. split; unfold pager_same; repeat intro; congruence. Qed.

Lemma pager_same_inv (p p' : sdb_pager (S := S)) :
  pager_same p p' ->
  pg_superblock p = pg_superblock p' /\ pg_store p = pg_store p' /\ pg_open p = pg_open p'
  /\ pg_needs_recovery p = pg_needs_recovery p' /\ pg_encryption_enabled p = pg_encryption_enabled p'.
Proof. destruct p, p'; unfold pager_same, set_transaction_active; cbn; intros H; by injection H as -> -> -> -> ->. Qed.

Lemma pager_same_active (p : sdb_pager (S := S)) (a : bool) : pager_same (set_transaction_active p a) p.
Proof. done. Qed.

Lemma read_same (p p' : sdb_pager (S := S)) (q : Z) : pager_same p p' -> sdb_pager_read p q = sdb_pager_read p' q.
Proof. intros (E1 & E2 & E3 & E4 & E5)%pager_same_inv; unfold sdb_pager_read; by rewrite E1, E2, E3, E4, E5. Qed.

Definition txn_data (t : sdb_txn (S := S)) (q : Z) : option bytes :=
  match find_page (tx_pages t) q with
  | Some pg => if tp_type pg =? SDB_PAGE_TYPE_DATA then Some (tp_payload pg) else None
  | None => None
  end.

(** ** Begin *)

Lemma begin_inv (p : sdb_pager (S := S)) (t : sdb_txn) (fl : list Z) :
  pager_inv p fl -> sdb_txn_begin p = Ok t ->
  txn_inv t fl [] /\ pager_same (tx_pager t) p /\ tx_pages t = [] /\ tx_allocated_pages t = []
  /\ tx_target_superblock t = pg_superblock p.
Proof.
  intros [Hu Hs Hsp Hc] H; unfold sdb_txn_begin in H; inv_ok H; injection H as <-; split_and!; try done.
  split; cbn; try done; try (by constructor); try (by intros q Hq; apply elem_of_nil in Hq).
  intros q Hq; left; lia.
Qed.

(** ** Put *)

Lemma put_ok_inv (t t' : sdb_txn (S := S)) (p type : Z) (payload : bytes) :
  0 <= p -> sdb_txn_put t p type payload = (Ok tt, t') ->
  let next := sb_next_page_id (tx_target_superblock t) in
  0 < p /\ p < next /\ (type = SDB_PAGE_TYPE_DATA \/ type = SDB_PAGE_TYPE_FREE)
  /\ Z.of_nat (length payload) <= sdb_pager_payload_capacity (tx_pager t)
  /\ (type = SDB_PAGE_TYPE_FREE -> sdb_read_u64_le payload 0 < next /\ sdb_read_u64_le payload 0 <> p)
  /\ find_page (tx_pages t) p = None
  /\ t' = txn_set_pages t (tx_pages t ++ [{| tp_page_id := p; tp_type := type; tp_payload := payload |}]).
Proof.
  intros Hp0; unfold sdb_txn_put; cbv zeta; intros H; destruct (_ || _) eqn:E1 in H; [done|].
  destruct (_ && _) eqn:E2 in H; [done|]; destruct (find_page _ _) eqn:E3; [done|]; injection H as <-.
  zbool_hyps; split_and!; try done; try lia.
Qed.

Lemma txn_link_app (t : sdb_txn (S := S)) (pg : sdb_txn_page) (q : Z) :
  tp_page_id pg <> q -> txn_link (txn_set_pages t (tx_pages t ++ [pg])) q = txn_link t q.
Proof.
  intros Hq; unfold txn_link; cbn; rewrite find_page_app; destruct (find_page _ q); [done|].
  by rewrite decide_False.
Qed.

Lemma put_data_inv (t t' : sdb_txn (S := S)) (fl : list Z) (p : Z) (payload : bytes) :
  txn_inv t fl [] -> 0 <= p -> p ∉ fl -> sdb_txn_put t p SDB_PAGE_TYPE_DATA payload = (Ok tt, t') ->
  txn_inv t' fl [] /\ tx_target_superblock t' = tx_target_superblock t
  /\ (forall q, txn_data t' q = if decide (q = p) then Some payload else txn_data t q).
Proof.
  intros [Ha Hu Hst Hps Hro Hsp Hc Hp Hw Hf Hd Hal Hau Hn] Hp0 Hpf H.
  apply put_ok_inv in H as (H0 & Hlt & _ & Hcap & _ & Hnone & ->); [|done]; cbv zeta in *.
  set (pg := {| tp_page_id := p; tp_type := SDB_PAGE_TYPE_DATA; tp_payload := payload |}).
  split_and!; [split; try done; cbn|done|].
  - eapply free_chain_ext; [|exact Hc]; intros q Hq; apply txn_link_app; cbn; by intros ->.
  - rewrite fmap_app; apply list.NoDup_app; split_and!; [done| |by apply NoDup_singleton].
    intros x Hx Hx'; apply list_elem_of_singleton in Hx' as ->; by apply find_page_None in Hnone.
  - apply Forall_app; split; [done|]; constructor; [|constructor]; split; cbn; [|by left|done].
    lia.
  - intros x Hx Ht; apply elem_of_app in Hx as [Hx|Hx]; [by apply Hf|]; apply list_elem_of_singleton in Hx as ->; done.
  - intros x Hx Ht; apply elem_of_app in Hx as [Hx|Hx]; [by apply Hd|]; by apply list_elem_of_singleton in Hx as ->.
  - intros q; unfold txn_data; cbn; rewrite find_page_app; cbn.
    destruct (decide (q = p)) as [->|Hq]; [by rewrite Hnone, decide_True|].
    destruct (find_page _ q); [done|]; by rewrite decide_False.
Qed.

(** ** Release *)

Lemma read_link (v : Z) : 0 <= v < 2 ^ 64 -> free_link SDB_PAGE_TYPE_FREE (le_split 8 v) = Some v.
Proof.
  intros Hv; unfold free_link; rewrite Z.eqb_refl, length_le_split; cbn [andb Nat.eqb].
  rewrite sdb_read_u64_le_spec; unfold slice; rewrite drop_0, firstn_all2 by (rewrite length_le_split; lia).
  by rewrite le_combine_split_small.
Qed.

Lemma chain_head (link : Z -> option Z) (p : Z) (fl : list Z) (n : Z) :
  free_chain link p fl -> 0 < n -> (forall q, q ∈ fl -> 0 < q < n) -> 0 <= p < n.
Proof.
  intros Hc Hn Hr; destruct Hc as [|p next fl]; [lia|]; specialize (Hr p ltac:(left)); lia.
Qed.

Lemma push_free_inv (t t' : sdb_txn (S := S)) (fl : list Z) (p : Z) :
  txn_inv t fl [p] -> 0 < p -> p ∉ fl -> p ∉ tx_allocated_pages t -> push_free t p = (Ok tt, t') ->
  txn_inv t' (p :: fl) [] /\ tx_pager t' = tx_pager t /\ tx_allocated_pages t' = tx_allocated_pages t
  /\ sb_next_page_id (tx_target_superblock t') = sb_next_page_id (tx_target_superblock t)
  /\ (forall q, txn_data t' q = txn_data t q).
Proof.
  intros [Ha Hu Hst Hps Hro Hsp Hc Hp Hw Hf Hd Hal Hau Hn] Hp0 Hpf Hpa H; unfold push_free in H.
  destruct (sdb_txn_put _ _ _ _) as [[[]|e] t1] eqn:E; [|done]; injection H as <-.
  apply put_ok_inv in E as (_ & Hlt & _ & Hcap & _ & Hnone & ->); [|lia]; cbv zeta in *.
  set (pg := {| tp_page_id := p; tp_type := SDB_PAGE_TYPE_FREE; tp_payload := _ |}).
  pose proof Hsp as [Sp Sn Sg Snd Sr]; pose proof (chain_head _ _ _ _ Hc Sn Sr) as Hhead.
  assert (Hbig : sb_next_page_id (tx_target_superblock t) < 2 ^ 64) by (by eapply space_next_bound).
  split_and!; [split; try done; cbn|done..|].
  - split; try done; [by apply list.NoDup_cons|]; intros q Hq; apply elem_of_cons in Hq as [->|Hq]; [cbn; lia|by apply Sr].
  - apply (free_chain_cons _ _ (sb_freelist_page (tx_target_superblock t))); [lia| |].
    + unfold txn_link; cbn; rewrite find_page_app, Hnone; cbn; rewrite decide_True by done; cbn.
      apply read_link; lia.
    + eapply free_chain_ext; [|exact Hc]; intros q Hq; apply (txn_link_app t pg); cbn; by intros ->.
  - rewrite fmap_app; apply list.NoDup_app; split_and!; [done| |by apply NoDup_singleton].
    intros x Hx Hx'; apply list_elem_of_singleton in Hx' as ->; by apply find_page_None in Hnone.
  - apply Forall_app; split; [done|]; constructor; [|constructor]; split; cbn; [lia|by right|done].
  - intros x Hx Ht; apply elem_of_app in Hx as [Hx|Hx]; [right; by apply Hf|]; apply list_elem_of_singleton in Hx as ->; left.
  - intros x Hx Ht; apply elem_of_app in Hx as [Hx|Hx]; [|apply list_elem_of_singleton in Hx as ->; done].
    intros Hin; apply elem_of_cons in Hin as [E|Hin]; [|by apply (Hd x)].
    apply find_page_None in Hnone; apply Hnone; rewrite <- E; by apply list_elem_of_fmap_2.
  - intros q Hq; destruct (Hau q Hq) as [Hr Hqf]; split; [done|]; intros Hin; apply elem_of_cons in Hin as [->|Hin]; done.
  - intros q Hq; destruct (Hn q Hq) as [H1|[H1|[H1|H1]]]; [tauto| |tauto|].
    + right; left; by right.
    + apply list_elem_of_singleton in H1 as ->; right; left; left.
  - intros q; unfold txn_data; cbn; rewrite find_page_app; cbn; destruct (find_page _ q); [done|].
    by destruct (decide (p = q)).
Qed.

Lemma txn_link_remove (t : sdb_txn (S := S)) (sb : sdb_superblock_v1) (ids : list Z) (p q : Z) :
  NoDup (tp_page_id <$> tx_pages t) -> q <> p ->
  txn_link (txn_update t sb (remove_page (tx_pages t) p) ids) q = txn_link t q.
Proof. intros Hn Hq; unfold txn_link; cbn; rewrite find_page_remove by done; by rewrite decide_False. Qed.

Lemma take_back_inv (t : sdb_txn (S := S)) (fl : list Z) (p : Z) :
  txn_inv t fl [] -> p ∈ tx_allocated_pages t ->
  txn_inv (txn_update t (tx_target_superblock t) (remove_page (tx_pages t) p) (remove_id (tx_allocated_pages t) p)) fl [p].
Proof.
  intros [Ha Hu Hst Hps Hro Hsp Hc Hp Hw Hf Hd Hal Hau Hn] Hin; destruct (Hau p Hin) as [_ Hpf].
  split; try done; cbn.
  - eapply free_chain_ext; [|exact Hc]; intros q Hq; apply txn_link_remove; [done|]; by intros ->.
  - by apply remove_page_nodup.
  - rewrite List.Forall_forall in *; intros x Hx; apply Hw, list_elem_of_In, (remove_page_sub _ p); by apply list_elem_of_In.
  - intros x Hx; apply remove_page_sub in Hx; by apply Hf.
  - intros x Hx; apply remove_page_sub in Hx; by apply Hd.
  - by apply remove_id_nodup.
  - intros q Hq; apply remove_id_in in Hq as [Hq _]; [by apply Hau|done].
  - intros q Hq; destruct (decide (q = p)) as [->|Hne]; [right; right; right; left|].
    rewrite remove_id_in by done; destruct (Hn q Hq) as [?|[?|[?|Hx]]]; try tauto; by apply elem_of_nil in Hx.
Qed.

Lemma free_inv (t t' : sdb_txn (S := S)) (fl : list Z) (p : Z) :
  txn_inv t fl [] -> 0 < p -> p ∉ fl -> sdb_txn_free t p = (Ok tt, t') ->
  txn_inv t' (p :: fl) [] /\ tx_pager t' = tx_pager t
  /\ (forall q, q ∈ tx_allocated_pages t' <-> q ∈ tx_allocated_pages t /\ q <> p)
  /\ sb_next_page_id (tx_target_superblock t') = sb_next_page_id (tx_target_superblock t)
  /\ (forall q, q <> p -> txn_data t' q = txn_data t q).
Proof.
  intros Hi Hp Hpf H; unfold sdb_txn_free in H; destruct (_ || _); [done|]; case_bool_decide as Hal.
  - apply (push_free_inv _ _ fl) in H as (Hi' & E1 & E2 & E3 & E4); try done; [|by apply take_back_inv|].
    + rewrite E1, E2, E3; cbn; split_and!; try done.
      * intros q; apply remove_id_in, Hi.
      * intros q Hq; rewrite E4; unfold txn_data; cbn; rewrite find_page_remove by apply Hi; by rewrite decide_False.
    + cbn; intros Hin; apply remove_id_in in Hin as [_ Hin]; [done|apply Hi].
  - destruct (sdb_pager_read _ _) as [view|e]; [|done]; destruct (_ =? _); [done|].
    apply (push_free_inv _ _ fl) in H as (Hi' & E1 & E2 & E3 & E4); try done.
    + rewrite E1, E2, E3; split_and!; try done.
      intros q; split; [|tauto]; intros Hq; split; [done|]; by intros ->.
    + destruct Hi; split; try done; intros q Hq.
      destruct (tv_new0 q Hq) as [?|[?|[?|Hx]]]; try tauto; by apply elem_of_nil in Hx.
Qed.

(** ** Allocation *)

Lemma chain_pop (link : Z -> option Z) (p : Z) (fl : list Z) :
  free_chain link p fl -> p <> 0 ->
  exists next fl', fl = p :: fl' /\ link p = Some next /\ free_chain link next fl'.
Proof. intros Hc Hp; destruct Hc as [|p next fl]; [done|]; eauto. Qed.

Lemma next_free_inv (t : sdb_txn (S := S)) (fl : list Z) (p next : Z) (pages : list sdb_txn_page) :
  txn_inv t fl [] -> next_free t p = Ok (next, pages) ->
  txn_link t p = Some next /\ (pages = tx_pages t /\ find_page (tx_pages t) p = None \/ pages = remove_page (tx_pages t) p).
Proof.
  intros Hi H; unfold next_free in H; unfold txn_link, committed_link, free_link.
  destruct (find_page (tx_pages t) p) as [pg|] eqn:E.
  - inv_ok H; injection H as <- <-; bool_hyps; split; [|by right].
    by repeat match goal with Hb : _ = true |- _ => rewrite Hb end.
  - inv_ok H; injection H as <- <-; bool_hyps; split; [|by left]; rewrite Hbind.
    by repeat match goal with Hb : _ = true |- _ => rewrite Hb end.
Qed.

Lemma allocate_free_inv (t : sdb_txn (S := S)) (fl : list Z) (p next : Z) (pages : list sdb_txn_page) :
  let t' := txn_update t (set_freelist (tx_target_superblock t) next (sb_next_page_id (tx_target_superblock t)))
              pages (tx_allocated_pages t ++ [p]) in
  txn_inv t (p :: fl) [] -> free_chain (txn_link t) next fl ->
  pages = tx_pages t /\ find_page (tx_pages t) p = None \/ pages = remove_page (tx_pages t) p ->
  txn_inv t' fl [] /\ txn_data t' p = None /\ (forall q, q <> p -> txn_data t' q = txn_data t q).
Proof.
  intros t' [Ha Hu Hst Hps Hro Hsp Hc Hp Hw Hf Hd Hal Hau Hn] Hnext Hpages.
  pose proof Hsp as [Sp Sn Sg Snd Sr]; apply list.NoDup_cons in Snd as [Hpf Snd].
  assert (Hsub : forall x, x ∈ pages -> x ∈ tx_pages t /\ tp_page_id x <> p).
  { intros x Hx; destruct Hpages as [[-> Hnone]| ->].
    - split; [done|]; intros <-; apply find_page_None in Hnone; apply Hnone; by apply list_elem_of_fmap_2.
    - split; [by eapply remove_page_sub|]; intros E.
      assert (Hf' : find_page (remove_page (tx_pages t) p) p = None) by (rewrite find_page_remove by done; by rewrite decide_True).
      apply find_page_None in Hf'; apply Hf', list_elem_of_fmap; by exists x. }
  assert (Hfind : forall q, find_page pages q = if decide (q = p) then None else find_page (tx_pages t) q).
  { intros q; destruct Hpages as [[-> Hnone]| ->]; [|by apply find_page_remove]; destruct (decide (q = p)); by subst. }
  split; [|split; unfold txn_data; cbn; [by rewrite Hfind, decide_True|intros q Hq; by rewrite Hfind, decide_False]].
  split; try done; cbn.
  - split; try done; intros q Hq; apply Sr; by right.
  - eapply free_chain_ext; [|exact Hnext]; intros q Hq; unfold txn_link; cbn; rewrite Hfind.
    rewrite decide_False; [done|]; by intros ->.
  - destruct Hpages as [[-> _]| ->]; [done|by apply remove_page_nodup].
  - rewrite List.Forall_forall in *; intros x Hx; apply Hw, list_elem_of_In, Hsub; by apply list_elem_of_In.
  - intros x Hx Ht; destruct (Hsub x Hx) as [Hx' Hne]; specialize (Hf x Hx' Ht); apply elem_of_cons in Hf as [Hf|Hf]; done.
  - intros x Hx Ht Hin; destruct (Hsub x Hx) as [Hx' Hne]; apply (Hd x Hx' Ht); by right.
  - apply list.NoDup_app; split_and!; [done| |by apply NoDup_singleton].
    intros x Hx Hx'; apply list_elem_of_singleton in Hx' as ->; destruct (Hau p Hx) as [_ Hx']; apply Hx'; left.
  - intros q Hq; apply elem_of_app in Hq as [Hq|Hq].
    + destruct (Hau q Hq) as [Hr Hqf]; split; [done|]; intros Hin; apply Hqf; by right.
    + apply list_elem_of_singleton in Hq as ->; split; [|done]; apply Sr; left.
  - intros q Hq; rewrite elem_of_app, list_elem_of_singleton; destruct (Hn q Hq) as [?|[Hx|[?|?]]]; [tauto| |tauto|tauto].
    apply elem_of_cons in Hx; tauto.
Qed.

Lemma allocate_extend_inv (t : sdb_txn (S := S)) :
  let sb := tx_target_superblock t in
  let p := sb_next_page_id sb in
  let t' := txn_update t (set_freelist sb 0 (p + 1)) (tx_pages t) (tx_allocated_pages t ++ [p]) in
  txn_inv t [] [] -> sdb_page_geometry_valid (p + 1) (sb_page_size sb) = true ->
  txn_inv t' [] [] /\ txn_data t' p = None /\ (forall q, q <> p -> txn_data t' q = txn_data t q).
Proof.
  intros sb p t' [Ha Hu Hst Hps Hro Hsp Hc Hp Hw Hf Hd Hal Hau Hn] Hg; pose proof Hsp as [Sp Sn Sg Snd Sr].
  apply page_geometry_spec in Hg as (_ & _ & Hg); [|subst p sb; lia|subst sb; lia].
  assert (Hfp : find_page (tx_pages t) p = None).
  { apply find_page_None; intros Hin; apply list_elem_of_fmap in Hin as (x & E & Hx).
    rewrite List.Forall_forall in Hw; apply list_elem_of_In, Hw in Hx as [Hid _ _]; subst p sb; lia. }
  split; [|split; unfold txn_data; cbn; [by rewrite Hfp|done]].
  split; try done; cbn.
  - split; try done; cbn; [subst p sb; lia|]; intros q Hq; by apply elem_of_nil in Hq.
  - constructor.
  - eapply Forall_impl; [|exact Hw]; intros x [H1 H2 H3]; split; try done; subst p sb; lia.
  - apply list.NoDup_app; split_and!; [done| |by apply NoDup_singleton].
    intros x Hx Hx'; apply list_elem_of_singleton in Hx' as ->; destruct (Hau p Hx) as [Hx' _]; subst p sb; lia.
  - intros q Hq; apply elem_of_app in Hq as [Hq|Hq]; [destruct (Hau q Hq) as [Hr Hqf]; split; [subst p sb; lia|done]|].
    apply list_elem_of_singleton in Hq as ->; split; [subst p sb; lia|apply not_elem_of_nil].
  - intros q Hq; rewrite elem_of_app, list_elem_of_singleton; destruct (decide (q = p)) as [->|Hne]; [tauto|].
    destruct (Hn q) as [?|[?|[?|?]]]; try tauto; subst p sb; lia.
Qed.

Lemma allocate_inv (t t' : sdb_txn (S := S)) (fl : list Z) (p : Z) :
  txn_inv t fl [] -> sdb_txn_allocate t = (Ok p, t') ->
  tx_pager t' = tx_pager t /\ tx_allocated_pages t' = tx_allocated_pages t ++ [p]
  /\ txn_data t' p = None /\ (forall q, q <> p -> txn_data t' q = txn_data t q)
  /\ exists fl', txn_inv t' fl' []
     /\ (fl = p :: fl' /\ sb_next_page_id (tx_target_superblock t') = sb_next_page_id (tx_target_superblock t)
         \/ fl = [] /\ fl' = [] /\ p = sb_next_page_id (tx_target_superblock t)
            /\ sb_next_page_id (tx_target_superblock t') = p + 1).
Proof.
  intros Hi H; unfold sdb_txn_allocate in H; destruct (negb (tx_active t)); [done|].
  destruct (Z.eqb_spec (sb_freelist_page (tx_target_superblock t)) 0) as [E0|E0]; cbn [negb] in H.
  - destruct (_ || _) eqn:Eg; [done|]; injection H as <- <-; bool_hyps.
    assert (fl = []) as -> by (pose proof (tv_chain _ _ _ Hi) as Hc; rewrite E0 in Hc; inversion Hc; by subst).
    destruct (allocate_extend_inv t Hi) as (Hi' & H1 & H2); [done|]; cbv zeta in *.
    split_and!; try done; exists []; split; [done|]; by right.
  - destruct (next_free _ _) as [[next pages]|e] eqn:En; [|done]; injection H as <- <-.
    destruct (chain_pop _ _ _ (tv_chain _ _ _ Hi) E0) as (nx & fl' & -> & Hl & Hc).
    destruct (next_free_inv _ _ _ _ _ Hi En) as [Hl' Hpages]; assert (nx = next) as -> by congruence.
    destruct (allocate_free_inv _ _ _ _ _ Hi Hc Hpages) as (Hi' & H1 & H2); split_and!; try done.
    exists fl'; split; [done|]; by left.
Qed.

(** ** Commit *)

Lemma chain_linked (link : Z -> option Z) (p : Z) (fl : list Z) (q : Z) :
  free_chain link p fl -> q ∈ fl -> is_Some (link q).
Proof.
  intros Hc; induction Hc as [|p next fl Hp Hl Hc IH]; intros Hq; [by apply elem_of_nil in Hq|].
  apply elem_of_cons in Hq as [->|Hq]; [by eexists|by apply IH].
Qed.

Lemma read_in_range (p : sdb_pager (S := S)) (q : Z) (view : sdb_page_view) :
  sdb_pager_read p q = Ok view -> q < sb_next_page_id (pg_superblock p).
Proof. intros H; unfold sdb_pager_read in H; inv_ok H; zbool_hyps; done. Qed.

Lemma read_usable (p : sdb_pager (S := S)) (q : Z) :
  pager_is_usable p = true -> 0 < q < sb_next_page_id (pg_superblock p) ->
  sdb_pager_read p q = store_read (pg_store p) (pg_superblock p) (pg_encryption_enabled p) q.
Proof.
  unfold pager_is_usable, sdb_pager_read, check; intros Hu Hq; bool_hyps; rewrite H, H0; cbn [negb orb]; zcmp; done.
Qed.

Lemma space_agrees (sb sb' : sdb_superblock_v1) (fl : list Z) :
  sb_agrees sb sb' -> space_ok sb fl -> space_ok sb' fl.
Proof. intros [E1 E2 E3 E4] [Hp Hn Hg Hd Hr]; split; rewrite ?E1, ?E4; try done. Qed.

Lemma commit_ok_inv (t : sdb_txn (S := S)) (p' : sdb_pager) :
  sdb_txn_commit t = (Ok tt, p') -> pager_is_usable p' = true ->
  (forall a, a ∈ tx_allocated_pages t -> is_Some (find_page (tx_pages t) a))
  /\ exists sb s, p' = {| pg_superblock := sb; pg_store := s; pg_open := true; pg_needs_recovery := false;
                         pg_transaction_active := false; pg_encryption_enabled := pg_encryption_enabled (tx_pager t) |}
     /\ store_commit (pg_store (tx_pager t)) (pg_superblock (tx_pager t)) (pg_encryption_enabled (tx_pager t))
          (tx_target_superblock t) (tx_pages t) = (Ok sb, s, false).
Proof.
  intros H Hu; unfold sdb_txn_commit in H; destruct (negb (tx_active t)); [done|].
  destruct (_ =? 0); [done|]; destruct (_ || _) in H; [done|]; destruct (forallb _ _) eqn:Ef; [|done]; cbn [negb] in H.
  destruct (store_commit _ _ _ _ _) as [[[sb|e] s] nr] eqn:Ec; [|done]; injection H as <-.
  unfold pager_is_usable in Hu; cbn in Hu; bool_hyps; rewrite H1 in *; split.
  - intros a Ha; apply forallb_forall with (x := a) in Ef; [by apply bool_decide_eq_true in Ef|by apply list_elem_of_In].
  - exists sb, s; split; [by rewrite H, H0|done].
Qed.

Lemma commit_inv (t : sdb_txn (S := S)) (p' : sdb_pager) (fl : list Z) :
  txn_inv t fl [] -> sdb_txn_commit t = (Ok tt, p') -> pager_is_usable p' = true ->
  pager_inv p' fl /\ sb_agrees (tx_target_superblock t) (pg_superblock p')
  /\ pg_encryption_enabled p' = pg_encryption_enabled (tx_pager t)
  /\ (forall q, 0 < q < sb_next_page_id (tx_target_superblock t) -> q ∉ fl ->
        match txn_data t q with
        | Some payload => exists view, sdb_pager_read p' q = Ok view
                            /\ view_type view = SDB_PAGE_TYPE_DATA /\ view_payload view = payload
        | None => sdb_pager_read p' q = sdb_pager_read (tx_pager t) q
        end).
Proof.
  intros [Ha Hu Hst Hps Hro Hsp Hc Hp Hw Hf Hd Hal Hau Hn] H Hus.
  destruct (commit_ok_inv t p' H Hus) as (Hsta & sb & s & -> & Ec).
  destruct (store_commit_law _ _ _ _ _ _ _ Hst Hps Hro Hp Hw Ec) as (Hst' & Hag & Hrd).
  assert (Hnext : sb_next_page_id sb = sb_next_page_id (tx_target_superblock t)) by apply Hag.
  set (p' := {| pg_superblock := sb; pg_store := s |}) in *.
  assert (Hr' : forall q, 0 < q < sb_next_page_id (tx_target_superblock t) ->
            sdb_pager_read p' q = store_read s sb (pg_encryption_enabled (tx_pager t)) q).
  { intros q Hq; rewrite read_usable; [done|done|]; cbn; by rewrite Hnext. }
  assert (Hold : forall q, 0 < q < sb_next_page_id (tx_target_superblock t) -> find_page (tx_pages t) q = None ->
            q < sb_next_page_id (pg_superblock (tx_pager t)) -> sdb_pager_read p' q = sdb_pager_read (tx_pager t) q).
  { intros q Hq Hfp Hlt; specialize (Hrd q Hq); rewrite Hfp in Hrd; rewrite Hr', Hrd by done.
    by rewrite read_usable by (done || lia). }
  split_and!; try done.
  - split; try done; [by eapply space_agrees|]; replace (sb_freelist_page _) with (sb_freelist_page (tx_target_superblock t))
      by (symmetry; apply Hag).
    eapply free_chain_ext; [|exact Hc]; intros q Hq; pose proof (so_range _ _ Hsp q Hq) as Hqr.
    pose proof (chain_linked _ _ _ _ Hc Hq) as Hs; unfold txn_link, committed_link in *; specialize (Hrd q Hqr).
    destruct (find_page (tx_pages t) q) as [pg|] eqn:Efp.
    + destruct Hrd as (view & Hv & E1 & E2); rewrite Hr' by done; by rewrite Hv, E1, E2.
    + rewrite Hold; try done; destruct (sdb_pager_read (tx_pager t) q) as [view|e] eqn:Er; [|by destruct Hs].
      by eapply read_in_range.
  - intros q Hq Hqf; unfold txn_data; pose proof (Hrd q Hq) as Hq'; destruct (find_page (tx_pages t) q) as [pg|] eqn:Efp.
    + apply find_page_Some in Efp as [Hin Eid]; rewrite List.Forall_forall in Hw.
      destruct (Hw pg (proj1 (list_elem_of_In _ _) Hin)) as [_ [Ht|Ht] _]; [|exfalso; apply Hqf; rewrite <- Eid; by apply Hf].
      rewrite Ht, Z.eqb_refl; destruct Hq' as (view & Hv & E1 & E2); exists view; rewrite Hr', E1 by done; done.
    + apply Hold; try done; destruct (Hn q Hq) as [?|[?|[Hx|Hx]]]; try done; [|by apply elem_of_nil in Hx].
      apply Hsta in Hx; rewrite Efp in Hx; by destruct Hx.
Qed.

(** ** The contract *)

Lemma put_same (t : sdb_txn (S := S)) (p type : Z) (payload : bytes) :
  tx_pager (sdb_txn_put t p type payload).2 = tx_pager t /\ honest (sdb_txn_put t p type payload).1.
Proof.
  unfold sdb_txn_put; cbv zeta; destruct (_ || _); [done|]; destruct (_ && _); [done|]; by destruct (find_page _ _).
Qed.

Lemma push_same (t : sdb_txn (S := S)) (p : Z) :
  tx_pager (push_free t p).2 = tx_pager t /\ honest (push_free t p).1.
Proof.
  unfold push_free; destruct (put_same t p SDB_PAGE_TYPE_FREE (le_split 8 (sb_freelist_page (tx_target_superblock t)))) as [H1 H2].
  by destruct (sdb_txn_put _ _ _ _) as [[[]|e] t'].
Qed.

Lemma pager_read_honest (p : sdb_pager (S := S)) (q : Z) : honest (sdb_pager_read p q).
Proof. unfold sdb_pager_read; pose proof (store_read_honest (pg_store p)); honest_tac. Qed.

Lemma allocate_same (t : sdb_txn (S := S)) :
  tx_pager (sdb_txn_allocate t).2 = tx_pager t /\ honest (sdb_txn_allocate t).1.
Proof.
  unfold sdb_txn_allocate; cbv zeta; destruct (negb _); [done|]; destruct (negb _); cycle 1.
  { by destruct (_ || _). }
  assert (Hh : honest (next_free t (sb_freelist_page (tx_target_superblock t)))).
  { unfold next_free; pose proof (pager_read_honest (tx_pager t)); honest_tac. }
  destruct (next_free _ _) as [[next pages]|e]; [done|]; split; [done|]; cbn; intros E; injection E as ->; by apply Hh.
Qed.

Lemma free_same (t : sdb_txn (S := S)) (p : Z) :
  tx_pager (sdb_txn_free t p).2 = tx_pager t /\ honest (sdb_txn_free t p).1.
Proof.
  unfold sdb_txn_free; destruct (_ || _); [done|]; case_bool_decide.
  - match goal with |- context [push_free ?t' p] => apply (push_same t' p) end.
  - pose proof (pager_read_honest (tx_pager t) p) as Hh; destruct (sdb_pager_read _ _) as [view|e].
    + destruct (_ =? _); [done|apply push_same].
    + split; [done|]; cbn; intros E; injection E as ->; by apply Hh.
Qed.

Lemma commit_honest' (t : sdb_txn (S := S)) : honest (sdb_txn_commit t).1.
Proof.
  unfold sdb_txn_commit; cbv zeta; destruct (negb _); [done|]; destruct (_ =? _); [done|]; destruct (_ || _); [done|].
  destruct (negb _); [done|]; match goal with |- context [store_commit ?a ?b ?c ?d ?e] =>
    pose proof (store_commit_honest a b c d e) as Hh; destruct (store_commit a b c d e) as [[[sb|er] s] nr] end; [done|].
  cbn in *; intros E; injection E as ->; by apply Hh.
Qed.

Definition pager_good (p : sdb_pager (S := S)) : Prop := exists fl, pager_inv p fl.
Definition txn_good (t : sdb_txn (S := S)) : Prop := exists fl, txn_inv t fl [].
Definition pager_uses (p : sdb_pager (S := S)) (q : Z) : Prop := in_space (pg_superblock p) (committed_link p) q.
Definition txn_uses (t : sdb_txn (S := S)) (q : Z) : Prop := in_space (tx_target_superblock t) (txn_link t) q.

Lemma txn_uses_iff (t : sdb_txn (S := S)) (fl pend : list Z) (q : Z) :
  txn_inv t fl pend -> txn_uses t q <-> 0 < q < sb_next_page_id (tx_target_superblock t) /\ q ∉ fl.
Proof. intros Hi; apply in_space_iff, Hi. Qed.

Lemma begin_contract (p : sdb_pager (S := S)) (t : sdb_txn) :
  pager_good p -> sdb_txn_begin p = Ok t ->
  txn_good t /\ pager_same (tx_pager t) p /\ (forall q, txn_uses t q <-> pager_uses p q)
  /\ tx_allocated_pages t = [] /\ (forall q, txn_data t q = None).
Proof.
  intros [fl Hp] H; destruct (begin_inv p t fl Hp H) as (Hi & Hs & Epg & Eal & Esb); split_and!; try done.
  - by exists fl.
  - intros q; rewrite (txn_uses_iff t fl [] q Hi); unfold pager_uses; rewrite in_space_iff by apply Hp; by rewrite Esb.
  - intros q; unfold txn_data; by rewrite Epg.
Qed.

Lemma allocate_contract (t t' : sdb_txn (S := S)) (p : Z) :
  txn_good t -> sdb_txn_allocate t = (Ok p, t') ->
  txn_good t' /\ ~ txn_uses t p /\ (forall q, txn_uses t' q <-> txn_uses t q \/ q = p)
  /\ (forall q, q ∈ tx_allocated_pages t' <-> q ∈ tx_allocated_pages t \/ q = p)
  /\ txn_data t' p = None /\ (forall q, q <> p -> txn_data t' q = txn_data t q).
Proof.
  intros [fl Hi] H; destruct (allocate_inv t t' fl p Hi H) as (_ & Eal & Hd & Hd' & fl' & Hi' & Hor).
  pose proof (tv_space _ _ _ Hi) as [_ Sn _ Snd Sr]; split_and!; try done.
  - by exists fl'.
  - rewrite (txn_uses_iff t fl [] p Hi); intros [Hr Hn]; destruct Hor as [(-> & _)|(_ & _ & -> & _)]; [|lia].
    apply Hn; left.
  - intros q; rewrite (txn_uses_iff t fl [] q Hi), (txn_uses_iff t' fl' [] q Hi').
    destruct Hor as [(-> & ->)|(-> & -> & -> & ->)]; rewrite ?elem_of_cons.
    + specialize (Sr p ltac:(left)); apply list.NoDup_cons in Snd as [Hpf _].
      destruct (decide (q = p)) as [->|]; [|tauto]; split; [tauto|]; intros _; split; [lia|done].
    + rewrite elem_of_nil; destruct (decide (q = sb_next_page_id (tx_target_superblock t))); [|lia]; lia.
  - intros q; rewrite Eal, elem_of_app, list_elem_of_singleton; done.
Qed.

Lemma free_contract (t t' : sdb_txn (S := S)) (p : Z) :
  txn_good t -> txn_uses t p -> sdb_txn_free t p = (Ok tt, t') ->
  txn_good t' /\ (forall q, txn_uses t' q <-> txn_uses t q /\ q <> p)
  /\ (forall q, q ∈ tx_allocated_pages t' <-> q ∈ tx_allocated_pages t /\ q <> p)
  /\ (forall q, q <> p -> txn_data t' q = txn_data t q).
Proof.
  intros [fl Hi] Hu H; apply (txn_uses_iff t fl [] p Hi) in Hu as [Hr Hpf].
  destruct (free_inv t t' fl p Hi (proj1 Hr) Hpf H) as (Hi' & _ & Hal & En & Hd); split_and!; try done.
  - by exists (p :: fl).
  - intros q; rewrite (txn_uses_iff t fl [] q Hi), (txn_uses_iff t' _ [] q Hi'), En, elem_of_cons; tauto.
Qed.

Lemma put_contract (t t' : sdb_txn (S := S)) (p : Z) (payload : bytes) :
  txn_good t -> txn_uses t p -> sdb_txn_put t p SDB_PAGE_TYPE_DATA payload = (Ok tt, t') ->
  txn_good t' /\ (forall q, txn_uses t' q <-> txn_uses t q)
  /\ txn_data t' p = Some payload /\ (forall q, q <> p -> txn_data t' q = txn_data t q).
Proof.
  intros [fl Hi] Hu H; apply (txn_uses_iff t fl [] p Hi) in Hu as [Hr Hpf].
  destruct (put_data_inv t t' fl p payload Hi ltac:(lia) Hpf H) as (Hi' & Esb & Hd); split_and!.
  - by exists fl.
  - intros q; by rewrite (txn_uses_iff t fl [] q Hi), (txn_uses_iff t' fl [] q Hi'), Esb.
  - by rewrite Hd, decide_True.
  - intros q Hq; by rewrite Hd, decide_False.
Qed.

Lemma commit_contract (t : sdb_txn (S := S)) (p : sdb_pager) :
  txn_good t -> sdb_txn_commit t = (Ok tt, p) -> pager_is_usable p = true ->
  pager_good p /\ (forall q, pager_uses p q <-> txn_uses t q)
  /\ sdb_pager_payload_capacity p = sdb_pager_payload_capacity (tx_pager t)
  /\ sb_root_page (pg_superblock p) = sb_root_page (pg_superblock (tx_pager t))
  /\ (forall q, txn_uses t q ->
        match txn_data t q with
        | Some payload => exists view, sdb_pager_read p q = Ok view
                            /\ view_type view = SDB_PAGE_TYPE_DATA /\ view_payload view = payload
        | None => sdb_pager_read p q = sdb_pager_read (tx_pager t) q
        end).
Proof.
  intros [fl Hi] H Hu; destruct (commit_inv t p fl Hi H Hu) as (Hp & [A1 A2 A3 A4] & He & Hr); split_and!.
  - by exists fl.
  - intros q; rewrite (txn_uses_iff t fl [] q Hi); unfold pager_uses; rewrite in_space_iff by apply Hp; by rewrite A4.
  - unfold sdb_pager_payload_capacity; by rewrite A1, He, (tv_page_size _ _ _ Hi).
  - by rewrite A2, (tv_root _ _ _ Hi).
  - intros q Hq; apply (txn_uses_iff t fl [] q Hi) in Hq as [Hq Hqf]; by apply Hr.
Qed.

Lemma same_proper (p p' : sdb_pager (S := S)) :
  pager_same p p' ->
  (forall q, sdb_pager_read p q = sdb_pager_read p' q)
  /\ sdb_pager_payload_capacity p = sdb_pager_payload_capacity p'
  /\ (forall q, pager_uses p q <-> pager_uses p' q) /\ (pager_good p -> pager_good p').
Proof.
  intros E; assert (Hr : forall q, sdb_pager_read p q = sdb_pager_read p' q) by (intros q; by apply read_same).
  destruct (pager_same_inv _ _ E) as (E1 & E2 & E3 & E4 & E5).
  assert (Hl : forall q, committed_link p q = committed_link p' q) by (intros q; unfold committed_link; by rewrite Hr).
  assert (Hc : forall x fl, free_chain (committed_link p) x fl <-> free_chain (committed_link p') x fl).
  { intros x fl; split; apply free_chain_ext; intros q _; by rewrite Hl. }
  split_and!; try done.
  - unfold sdb_pager_payload_capacity; by rewrite E1, E5.
  - intros q; unfold pager_uses, in_space; rewrite E1; by setoid_rewrite Hc.
  - intros [fl [H1 H2 H3 H4]]; exists fl; split; rewrite <- ?E1, <- ?E2, <- ?E5; try done; [|by apply Hc].
    unfold pager_is_usable in *; by rewrite <- E3, <- E4.
Qed.

#[global] Instance txn_pager_laws : PagerLaws sdb_pager sdb_txn.
Proof.
  refine {| pager_ok := pager_good; pager_in_use := pager_uses; pager_eqv := pager_same;
            txn_ok := txn_good; txn_in_use := txn_uses; txn_staged := txn_data |}.
  - intros p p' E q q' <-; by apply same_proper.
  - intros p p' E; by apply same_proper.
  - intros p p' E; destruct (pager_same_inv _ _ E) as (E1 & _); cbn; by rewrite E1.
  - intros p p' E; destruct (pager_same_inv _ _ E) as (_ & _ & E3 & E4 & _); cbn; unfold pager_is_usable; by rewrite E3, E4.
  - intros p p' E; split; apply same_proper; [done|by symmetry].
  - intros p p' E q q' <-; by apply same_proper.
  - intros p q [fl Hp] [Hq _]; eapply space_bound; [apply Hp|done].
  - intros p q _ [Hq _]; cbn; lia.
  - intros t q [fl Ht] [Hq _]; eapply space_bound; [apply Ht|done].
  - exact begin_contract.
  - exact allocate_contract.
  - exact free_contract.
  - exact put_contract.
  - exact commit_contract.
  - intros t; cbn; by rewrite (proj1 (allocate_same t)).
  - intros t p; cbn; by rewrite (proj1 (free_same t p)).
  - intros t p type payload; cbn; by rewrite (proj1 (put_same t p type payload)).
  - intros t; done.
  - intros p; cbn; unfold sdb_txn_begin; honest_tac.
  - intros p q; apply pager_read_honest.
  - intros t; apply allocate_same.
  - intros t p; apply free_same.
  - intros t p type payload; apply put_same.
  - intros t; apply commit_honest'.
Defined.

(** ** Any sequence of calls *)

(** The calls of a client that puts only pages it owns; frees are unrestricted. *)
Inductive txn_step : sdb_txn (S := S) -> sdb_txn (S := S) -> Prop :=
  | step_allocate t : txn_step t (sdb_txn_allocate t).2
  | step_free t p : 0 <= p -> txn_step t (sdb_txn_free t p).2
  | step_put t p payload : txn_uses t p -> txn_step t (sdb_txn_put t p SDB_PAGE_TYPE_DATA payload).2.

Lemma free_listed (t : sdb_txn (S := S)) (fl : list Z) (p : Z) :
  txn_inv t fl [] -> p ∈ fl -> exists e, sdb_txn_free t p = (Err e, t).
Proof.
  intros Hi Hin; unfold sdb_txn_free; destruct (_ || _); [by eexists|]; case_bool_decide as Ha.
  { by destruct (tv_alloc_use _ _ _ Hi p Ha). }
  pose proof (chain_linked _ _ _ _ (tv_chain _ _ _ Hi) Hin) as Hl; unfold txn_link, committed_link in Hl.
  destruct (find_page (tx_pages t) p) as [pg|] eqn:Ef.
  - destruct (sdb_pager_read _ _) as [view|e]; [|by eexists]; destruct (_ =? _); [by eexists|].
    unfold push_free, sdb_txn_put; rewrite Ef; cbv zeta; destruct (_ || _); [by eexists|]; destruct (_ && _); by eexists.
  - destruct (sdb_pager_read _ _) as [view|e]; [|by eexists]; unfold free_link in Hl.
    destruct (_ =? _); [by eexists|]; by destruct Hl.
Qed.

Lemma put_fails (t t' : sdb_txn (S := S)) (p type : Z) (payload : bytes) (e : sdb_status) :
  sdb_txn_put t p type payload = (Err e, t') -> t' = t.
Proof. unfold sdb_txn_put; cbv zeta; intros H; repeat case_match; by simplify_eq. Qed.

Lemma free_fails (t t' : sdb_txn (S := S)) (fl : list Z) (p : Z) (e : sdb_status) :
  txn_inv t fl [] -> sdb_txn_free t p = (Err e, t') -> t' = t.
Proof.
  intros Hi H; unfold sdb_txn_free in H; destruct (_ || _) eqn:Eg; [by simplify_eq|].
  assert (Hput : forall t1 : sdb_txn (S := S), (push_free t1 p).1 = Err e -> (push_free t1 p).2 = t1).
  { intros t1; unfold push_free; destruct (sdb_txn_put t1 _ _ _) as [[[]|e1] t2] eqn:Ep; [done|]; intros _.
    by apply put_fails in Ep. }
  case_bool_decide as Ha; cycle 1.
  { destruct (sdb_pager_read _ _) as [view|e0]; [|by simplify_eq]; destruct (view_type view =? _); [by simplify_eq|].
    specialize (Hput t); rewrite H in Hput; by apply Hput. }
  exfalso; destruct (tv_alloc_use _ _ _ Hi p Ha) as [Hr Hpf]; pose proof (take_back_inv t fl p Hi Ha) as Hi1.
  pose proof (tv_space _ _ _ Hi) as Hs; pose proof (so_next _ _ Hs) as Hn.
  pose proof (chain_head _ _ _ _ (tv_chain _ _ _ Hi) Hn (so_range _ _ Hs)) as Hh.
  assert (Hhp : sb_freelist_page (tx_target_superblock t) <> p).
  { intros <-; destruct (tv_chain _ _ _ Hi); [lia|]; apply Hpf; left. }
  assert (Hcap : 8 <= sdb_pager_payload_capacity (tx_pager t)).
  { unfold sdb_pager_payload_capacity; rewrite <- (tv_page_size _ _ _ Hi); pose proof (so_page_size _ _ Hs) as Hps.
    unfold capacity_of; change (Z.of_nat SDB_ENCRYPTED_PAYLOAD_HEADER_SIZE) with 52; change (Z.of_nat SDB_PAGE_HEADER_SIZE) with 32; zcmp.
    destruct (pg_encryption_enabled _); zcmp; lia. }
  revert H; unfold push_free, sdb_txn_put; cbn [txn_update tx_target_superblock tx_pager tx_active tx_pages].
  cbv zeta; rewrite (tv_active _ _ _ Hi), length_le_split; cbn [negb orb]; change (SDB_PAGE_TYPE_FREE =? SDB_PAGE_TYPE_FREE) with true.
  pose proof (space_next_bound _ _ Hs) as Hb.
  rewrite sdb_read_u64_le_spec; unfold slice; rewrite drop_0, firstn_all2 by (rewrite length_le_split; lia).
  rewrite le_combine_split_small by lia; rewrite find_page_remove by apply Hi; rewrite decide_True by done.
  zcmp; cbn; done.
Qed.

End TxnLaws.

(** ** Examples *)

Lemma example_pager_good (root : bytes) : pager_good (example_pager root).
Proof.
  exists []; split; cbn; try done; [|constructor].
  split; cbn; try done; [constructor|]; intros q Hq; by apply elem_of_nil in Hq.
Qed.

Definition example_txn : sdb_txn :=
  default {| tx_pager := example_pager []; tx_target_superblock := example_superblock; tx_pages := [];
             tx_allocated_pages := []; tx_active := false |}
    (match sdb_txn_begin (example_pager []) with Ok t => Some t | Err _ => None end).

Lemma example_txn_good : txn_good example_txn.
Proof.
  destruct (begin_contract (example_pager []) example_txn) as (Hg & _); [apply example_pager_good|reflexivity|exact Hg].
Qed.

