(* ===== verification/BtreeNode.v ===== *)
(** * Operations on one B-tree node ([src/btree.c])

    The binary search, the choice of a child, insertion into and removal from a
    node's entry array, and the choice of the split point.  Each is shown to do
    what its name says for any sorted node: [sdb_btree_lower_bound] is the number
    of smaller keys, the split loops return the best feasible split and find one
    whenever there is one. *)

From S2P Require Import Prelude Status Codec Keys BtreePage OrderedMap.

#[global] Instance sdb_btree_entry_inhabited : Inhabited sdb_btree_entry :=
  populate {| e_key := []; e_value := []; e_right_child := 0 |}.

Definition n_count (node : sdb_btree_node) : nat := length (n_entries node).

Definition set_entries (node : sdb_btree_node) (es : list sdb_btree_entry) : sdb_btree_node :=
  {| n_kind := n_kind node; n_right_sibling := n_right_sibling node;
     n_first_child := n_first_child node; n_entries := es |}.

Definition set_right_sibling (node : sdb_btree_node) (p : Z) : sdb_btree_node :=
  {| n_kind := n_kind node; n_right_sibling := p;
     n_first_child := n_first_child node; n_entries := n_entries node |}.

(** The while loop; [fuel] bounds its iterations by the width of the range. *)
Fixpoint lower_bound_loop (fuel : nat) (entries : list sdb_btree_entry) (key : bytes)
    (low high : nat) : nat :=
  match fuel with
  | O => low
  | S fuel =>
      if (low <? high)%nat then
        let middle := (low + (high - low) / 2)%nat in
        if sdb_btree_compare (e_key (entries !!! middle)) key <? 0
        then lower_bound_loop fuel entries key (middle + 1) high
        else lower_bound_loop fuel entries key low middle
      else low
  end.

Definition sdb_btree_lower_bound (node : sdb_btree_node) (key : bytes) : nat :=
  lower_bound_loop (n_count node) (n_entries node) key 0 (n_count node).

(** [position < node.count && sdb_btree_compare(entries[position], key) == 0] *)
Definition key_at_position (node : sdb_btree_node) (position : nat) (key : bytes) : bool :=
  (position <? n_count node)%nat
  && (sdb_btree_compare (e_key (n_entries node !!! position)) key =? 0).

(** The child a descent for [key] takes: an equal separator sends it right. *)
Definition descend_index (node : sdb_btree_node) (key : bytes) : nat :=
  let position := sdb_btree_lower_bound node key in
  if key_at_position node position key then S position else position.

Definition sdb_btree_child_at (node : sdb_btree_node) (child_index : nat) : Z :=
  match child_index with
  | O => n_first_child node
  | S i => e_right_child (n_entries node !!! i)
  end.

Definition sdb_btree_remove_child (node : sdb_btree_node) (child_index : nat) : sdb_btree_node :=
  if (n_count node =? 0)%nat || (n_count node <? child_index)%nat then node else
  let entry_index := (child_index - 1)%nat in
  {| n_kind := n_kind node; n_right_sibling := n_right_sibling node;
     n_first_child := (if (child_index =? 0)%nat then e_right_child (n_entries node !!! 0%nat)
                       else n_first_child node);
     n_entries := delete entry_index (n_entries node) |}.

Definition insert_at {A} (i : nat) (x : A) (l : list A) : list A := take i l ++ x :: drop i l.

Definition sdb_btree_leaf_put (node : sdb_btree_node) (key value : bytes) : sdb_btree_node :=
  let position := sdb_btree_lower_bound node key in
  if key_at_position node position key then
    let e := n_entries node !!! position in
    set_entries node (<[position := {| e_key := e_key e; e_value := value;
                                       e_right_child := e_right_child e |}]> (n_entries node))
  else
    set_entries node
      (insert_at position {| e_key := key; e_value := value; e_right_child := 0 |} (n_entries node)).

Definition sdb_btree_internal_insert (node : sdb_btree_node) (position : nat)
    (separator : bytes) (right_child : Z) : sdb_btree_node :=
  set_entries node
    (insert_at position {| e_key := separator; e_value := []; e_right_child := right_child |}
       (n_entries node)).

(** ** Choosing where to split *)

Definition leaf_entry_size (e : sdb_btree_entry) : Z :=
  6 + Z.of_nat (length (e_key e)) + Z.of_nat (length (e_value e)).

Definition internal_entry_size (e : sdb_btree_entry) : Z := 12 + Z.of_nat (length (e_key e)).

(** The summing loop, with its overflow check. *)
Fixpoint total_entries_loop (size : sdb_btree_entry -> Z) (entries : list sdb_btree_entry) (total : Z)
  : result Z :=
  match entries with
  | [] => Ok total
  | e :: rest =>
      fail_if (size e >? SIZE_MAX) || (size e >? SIZE_MAX - total) with SDB_E_OVERFLOW ;;
      total_entries_loop size rest (total + size e)
  end.

Definition largest_half (left_size right_size : Z) : Z :=
  if left_size >? right_size then left_size else right_size.

Definition split_better (capacity left_size right_size best_largest : Z) : bool :=
  (left_size <=? capacity) && (right_size <=? capacity)
  && (largest_half left_size right_size <? best_largest).

(** [for (candidate = 1; candidate < count; ++candidate)]: [rest] is the array
    from index [candidate - 1]. *)
Fixpoint split_leaf_loop (capacity total_entries_size : Z) (rest : list sdb_btree_entry)
    (candidate : nat) (left_entries_size : Z) (middle : nat) (best_largest : Z) : nat :=
  match rest with
  | previous :: ((_ :: _) as rest') =>
      let left_entries_size := left_entries_size + leaf_entry_size previous in
      let left_size := Z.of_nat SDB_BTREE_NODE_HEADER_SIZE + left_entries_size in
      let right_size :=
        Z.of_nat SDB_BTREE_NODE_HEADER_SIZE + total_entries_size - left_entries_size in
      if split_better capacity left_size right_size best_largest
      then split_leaf_loop capacity total_entries_size rest' (S candidate) left_entries_size
             candidate (largest_half left_size right_size)
      else split_leaf_loop capacity total_entries_size rest' (S candidate) left_entries_size
             middle best_largest
  | _ => middle
  end.

(** [for (candidate = 1; candidate + 1 < count; ++candidate)]: [rest] is the
    array from index [candidate]; [None] is [middle == SIZE_MAX]. *)
Fixpoint split_internal_loop (capacity total_entries_size : Z) (rest : list sdb_btree_entry)
    (candidate : nat) (left_entries_size : Z) (middle : option nat) (best_largest : Z) : option nat :=
  match rest with
  | promoted :: ((_ :: _) as rest') =>
      let promoted_entry_size := internal_entry_size promoted in
      let left_size := Z.of_nat SDB_BTREE_NODE_HEADER_SIZE + left_entries_size in
      let right_size := Z.of_nat SDB_BTREE_NODE_HEADER_SIZE
        + total_entries_size - left_entries_size - promoted_entry_size in
      if split_better capacity left_size right_size best_largest
      then split_internal_loop capacity total_entries_size rest' (S candidate)
             (left_entries_size + promoted_entry_size) (Some candidate)
             (largest_half left_size right_size)
      else split_internal_loop capacity total_entries_size rest' (S candidate)
             (left_entries_size + promoted_entry_size) middle best_largest
  | _ => middle
  end.

(** ** The binary search *)

(** [cut p keys key]: position [p] separates the keys below [key] from the rest. *)
Definition cut (p : nat) (keys : list bytes) (key : bytes) : Prop :=
  (p <= length keys)%nat
  /\ Forall (fun k => key_lt k key) (take p keys)
  /\ Forall (fun k => key_le key k) (drop p keys).

Lemma sorted_take_le (keys : list bytes) (m : nat) (k key : bytes) :
  StronglySorted key_lt keys -> keys !! m = Some k -> key_lt k key ->
  Forall (fun x => key_lt x key) (take (S m) keys).
Proof.
  intros Hs Hm Hk; rewrite (take_S_r _ _ _ Hm).
  rewrite <- (take_drop_middle _ _ _ Hm) in Hs; apply StronglySorted_app_iff in Hs as (_ & _ & HF).
  apply Forall_app; split; [|by repeat constructor].
  eapply Forall_impl; [|exact HF]; intros x Hx; apply Forall_cons_iff in Hx as [Hx _].
  by eapply key_lt_trans.
Qed.

Lemma sorted_drop_ge (keys : list bytes) (m : nat) (k key : bytes) :
  StronglySorted key_lt keys -> keys !! m = Some k -> key_le key k ->
  Forall (fun x => key_le key x) (drop m keys).
Proof.
  intros Hs Hm Hk; rewrite (drop_S _ _ _ Hm).
  rewrite <- (take_drop_middle _ _ _ Hm) in Hs; apply StronglySorted_app_iff in Hs as (_ & Hs & _).
  apply StronglySorted_inv in Hs as [_ HF]; constructor; [done|].
  eapply Forall_impl; [|exact HF]; intros x Hx; apply key_lt_le; by eapply key_le_lt_trans.
Qed.

Lemma lower_bound_loop_spec (fuel : nat) (entries : list sdb_btree_entry) (key : bytes) (low high : nat) :
  keys_sorted entries -> (high - low <= fuel)%nat -> (low <= high <= length entries)%nat ->
  Forall (fun k => key_lt k key) (take low (e_key <$> entries)) ->
  Forall (fun k => key_le key k) (drop high (e_key <$> entries)) ->
  cut (lower_bound_loop fuel entries key low high) (e_key <$> entries) key.
Proof.
  intros Hs; revert low high; induction fuel as [|fuel IH]; intros low high Hf Hb Hl Hh; cbn [lower_bound_loop].
  - replace high with low in * by lia; split_and!; [rewrite length_fmap; lia|done|done].
  - destruct (Nat.ltb_spec low high) as [Hlt|Hge].
    2: { replace high with low in * by lia; split_and!; [rewrite length_fmap; lia|done|done]. }
    cbv zeta; set (m := (low + (high - low) / 2)%nat).
    assert (Hm : (low <= m < high)%nat).
    { subst m; pose proof (Nat.div_lt (high - low) 2 ltac:(lia) ltac:(lia)); lia. }
    destruct (lookup_lt_is_Some_2 entries m ltac:(lia)) as [e He].
    assert (Hk : (e_key <$> entries) !! m = Some (e_key e)) by by rewrite list_lookup_fmap, He.
    rewrite (list_lookup_total_correct _ _ _ He), compare_lt_0.
    case_bool_decide as Hc.
    + apply IH; [lia|lia| |done].
      replace (m + 1)%nat with (S m) by lia; by eapply sorted_take_le.
    + apply IH; [lia|lia|done|].
      apply key_not_lt in Hc; by eapply sorted_drop_ge.
Qed.

Lemma lower_bound_cut (node : sdb_btree_node) (key : bytes) :
  keys_sorted (n_entries node) ->
  cut (sdb_btree_lower_bound node key) (e_key <$> n_entries node) key.
Proof.
  intros Hs; apply lower_bound_loop_spec; [done|unfold n_count; lia|unfold n_count; lia|constructor|].
  unfold n_count; rewrite drop_ge; [constructor|by rewrite length_fmap].
Qed.

(** The key, when the node has it, is at the lower bound. *)
Lemma key_at_position_spec (node : sdb_btree_node) (key : bytes) :
  keys_sorted (n_entries node) ->
  key_at_position node (sdb_btree_lower_bound node key) key
    = bool_decide (key ∈ e_key <$> n_entries node).
Proof.
  intros Hs; pose proof (lower_bound_cut node key Hs) as (Hp & Ht & Hd).
  set (p := sdb_btree_lower_bound node key) in *; unfold key_at_position, n_count.
  rewrite length_fmap in Hp; rewrite compare_eq_0.
  destruct (Nat.ltb_spec p (length (n_entries node))) as [Hlt|Hge]; cbn [andb].
  - destruct (lookup_lt_is_Some_2 _ _ Hlt) as [e He].
    rewrite (list_lookup_total_correct _ _ _ He).
    assert (Hk : (e_key <$> n_entries node) !! p = Some (e_key e)) by by rewrite list_lookup_fmap, He.
    apply bool_decide_ext; split; [intros <-; by eapply list_elem_of_lookup_2|].
    rewrite <- (take_drop p (e_key <$> _)), elem_of_app; intros [Hin|Hin].
    + rewrite List.Forall_forall in Ht; apply list_elem_of_In in Hin.
      destruct (key_lt_irrefl key (Ht _ Hin)).
    + rewrite (drop_S _ _ _ Hk) in Hin, Hd; apply elem_of_cons in Hin as [->|Hin]; [done|].
      unfold keys_sorted in Hs; rewrite <- (take_drop_middle _ _ _ Hk) in Hs.
      apply StronglySorted_app_iff in Hs as (_ & Hs & _); apply StronglySorted_inv in Hs as [_ HF].
      rewrite List.Forall_forall in HF; apply list_elem_of_In in Hin; apply HF in Hin.
      apply Forall_cons_iff in Hd as [Hd _]; destruct (key_lt_irrefl key).
      by eapply key_le_lt_trans.
  - symmetry; apply bool_decide_eq_false; intros Hin.
    rewrite take_ge in Ht by (rewrite length_fmap; lia).
    rewrite List.Forall_forall in Ht; apply list_elem_of_In in Hin.
    destruct (key_lt_irrefl key (Ht _ Hin)).
Qed.

Lemma descend_index_spec (node : sdb_btree_node) (key : bytes) :
  keys_sorted (n_entries node) ->
  (descend_index node key <= n_count node)%nat
  /\ Forall (fun k => key_le k key) (take (descend_index node key) (e_key <$> n_entries node))
  /\ Forall (fun k => key_lt key k) (drop (descend_index node key) (e_key <$> n_entries node)).
Proof.
  intros Hs; pose proof (lower_bound_cut node key Hs) as (Hp & Ht & Hd).
  pose proof (key_at_position_spec node key Hs) as Hk; unfold descend_index.
  set (p := sdb_btree_lower_bound node key) in *; unfold keys_sorted in Hs.
  rewrite length_fmap in Hp; unfold key_at_position, n_count in *; rewrite compare_eq_0 in *.
  assert (Ht' : Forall (fun k => key_le k key) (take p (e_key <$> n_entries node))).
  { eapply Forall_impl; [|exact Ht]; intros x; apply key_lt_le. }
  destruct (Nat.ltb_spec p (length (n_entries node))) as [Hlt|Hge]; cbn [andb] in *.
  2: { split_and!; [done|done|]; rewrite drop_ge by (rewrite length_fmap; lia); constructor. }
  destruct (lookup_lt_is_Some_2 _ _ Hlt) as [e He].
  rewrite (list_lookup_total_correct _ _ _ He) in *.
  assert (Hek : (e_key <$> n_entries node) !! p = Some (e_key e)) by by rewrite list_lookup_fmap, He.
  rewrite <- (take_drop_middle _ _ _ Hek) in Hs.
  apply StronglySorted_app_iff in Hs as (_ & Hs & _); apply StronglySorted_inv in Hs as [_ HF].
  rewrite (drop_S _ _ _ Hek) in Hd; apply Forall_cons_iff in Hd as [Hd1 Hd2].
  case_bool_decide as E; split_and!; try lia; try done.
  - rewrite (take_S_r _ _ _ Hek); apply Forall_app; split; [done|].
    rewrite E; repeat constructor; apply key_le_refl.
  - by rewrite E in HF.
  - assert (Hlt' : key_lt key (e_key e)) by (apply key_le_lt_eq in Hd1 as [?|?]; [done|congruence]).
    rewrite (drop_S _ _ _ Hek); constructor; [done|].
    eapply Forall_impl; [|exact HF]; intros x; by apply key_lt_trans.
Qed.

(** ** Leaves as key/value lists, internal nodes as separator/child lists *)

Definition leaf_entry (e : kv) : sdb_btree_entry :=
  {| e_key := e.1; e_value := e.2; e_right_child := 0 |}.

Definition leaf_node (sibling : Z) (l : list kv) : sdb_btree_node :=
  {| n_kind := SDB_BTREE_LEAF; n_right_sibling := sibling; n_first_child := 0;
     n_entries := leaf_entry <$> l |}.

(** An internal node with separators [ks] and children [ids], one more than the
    separators. *)
Definition internal_entry (k : bytes) (child : Z) : sdb_btree_entry :=
  {| e_key := k; e_value := []; e_right_child := child |}.

Definition internal_node (ids : list Z) (ks : list bytes) : sdb_btree_node :=
  {| n_kind := SDB_BTREE_INTERNAL; n_right_sibling := 0; n_first_child := hd 0 ids;
     n_entries := zip_with internal_entry ks (tail ids) |}.

Lemma leaf_entry_keys (l : list kv) : e_key <$> (leaf_entry <$> l) = l.*1.
Proof. by rewrite <- list_fmap_compose. Qed.

Lemma cut_split (p : nat) (l : list kv) (key : bytes) :
  cut p l.*1 key ->
  Forall (fun k => key_lt k key) (take p l).*1 /\ Forall (fun k => key_le key k) (drop p l).*1.
Proof. intros (_ & H1 & H2); by rewrite fmap_take, fmap_drop. Qed.

Lemma leaf_put_spec (sibling : Z) (l : list kv) (k v : bytes) :
  key_sorted l ->
  sdb_btree_leaf_put (leaf_node sibling l) k v = leaf_node sibling (al_insert k v l).
Proof.
  intros Hs; unfold sdb_btree_leaf_put.
  assert (Hs' : keys_sorted (n_entries (leaf_node sibling l)))
    by (unfold keys_sorted; cbn [leaf_node n_entries]; by rewrite leaf_entry_keys).
  pose proof (lower_bound_cut _ k Hs') as Hc; cbn [leaf_node n_entries] in Hc.
  rewrite leaf_entry_keys in Hc; pose proof Hc as (Hp & _ & _); apply cut_split in Hc as [Ht Hd].
  rewrite key_at_position_spec by done; cbn [leaf_node n_entries]; rewrite leaf_entry_keys.
  fold (leaf_node sibling l); set (p := sdb_btree_lower_bound _ k) in *.
  replace (al_insert k v l) with (take p l ++ al_insert k v (drop p l))
    by (by rewrite <- al_insert_app_l, take_drop).
  unfold set_entries, leaf_node at 1; cbn [n_kind n_right_sibling n_first_child n_entries].
  destruct (drop p l) as [|[k' v'] l'] eqn:Ed.
  - assert (Hn : k ∉ l.*1).
    { apply lt_notin; rewrite <- (take_drop p l), Ed, app_nil_r; done. }
    rewrite bool_decide_eq_false_2 by done; unfold leaf_node, insert_at.
    cbn [al_insert n_entries]; by rewrite fmap_app, fmap_take, <- fmap_drop, Ed.
  - assert (Hl : l !! p = Some (k', v')) by by rewrite <- (Nat.add_0_r p), <- lookup_drop, Ed.
    cbn [fmap list_fmap fst] in Hd; apply Forall_cons_iff in Hd as [Hk Hd]; cbn [al_insert].
    rewrite <- (take_drop_middle _ _ _ Hl) in Hs; apply key_sorted_app in Hs as (_ & Hs & _).
    unfold key_sorted in Hs; cbn [fmap list_fmap fst] in Hs; apply StronglySorted_inv in Hs as [_ HF].
    assert (El : drop (S p) l = l') by (rewrite (drop_S _ _ _ Hl) in Ed; congruence).
    rewrite El in HF.
    destruct (key_cmp k k') eqn:E.
    + apply key_cmp_eq in E as <-; rewrite bool_decide_eq_true_2.
      2: { apply list_elem_of_fmap; exists (k, v'); split; [done|]; by eapply list_elem_of_lookup_2. }
      unfold leaf_node; cbn [n_entries]; f_equal.
      rewrite (list_lookup_total_correct _ p (leaf_entry (k, v'))) by by rewrite list_lookup_fmap, Hl.
      change {| e_key := _; e_value := v; e_right_child := _ |} with (leaf_entry (k, v)).
      rewrite <- list_fmap_insert, insert_take_drop by (by eapply lookup_lt_Some).
      by rewrite El.
    + rewrite bool_decide_eq_false_2.
      2: { rewrite <- (take_drop p l), Ed, fmap_app, not_elem_of_app; cbn [fmap list_fmap fst].
           split; [by apply lt_notin|]; apply gt_notin; constructor; [done|].
           eapply Forall_impl; [|exact HF]; intros x; by apply key_lt_trans. }
      unfold leaf_node, insert_at; cbn [n_entries]; rewrite fmap_app, fmap_take, <- fmap_drop.
      by rewrite Ed.
    + rewrite (key_cmp_antisym k' k) in E; destruct (key_cmp k' k) eqn:E'; try done.
      by destruct (key_lt_irrefl k'); eapply key_lt_le_trans.
Qed.

Lemma leaf_node_sorted (sibling : Z) (l : list kv) :
  keys_sorted (n_entries (leaf_node sibling l)) <-> key_sorted l.
Proof. unfold keys_sorted, key_sorted; cbn [leaf_node n_entries]; by rewrite leaf_entry_keys. Qed.

Lemma leaf_key_split (sibling : Z) (l : list kv) (k : bytes) :
  key_sorted l ->
  let p := sdb_btree_lower_bound (leaf_node sibling l) k in
  if key_at_position (leaf_node sibling l) p k
  then exists v, l = take p l ++ (k, v) :: drop (S p) l
         /\ (k ∉ (take p l).*1) /\ (k ∉ (drop (S p) l).*1)
         /\ n_entries (leaf_node sibling l) !!! p = leaf_entry (k, v)
  else k ∉ l.*1.
Proof.
  intros Hs; cbv zeta; apply (leaf_node_sorted sibling) in Hs as Hs'.
  pose proof (key_at_position_spec _ k Hs') as Hk; revert Hk; unfold key_at_position at 1 2.
  rewrite compare_eq_0; unfold n_count; cbn [leaf_node n_entries]; fold (leaf_node sibling l).
  rewrite leaf_entry_keys, length_fmap; set (p := sdb_btree_lower_bound _ k) in *.
  destruct (Nat.ltb_spec p (length l)) as [Hlt|Hge]; cbn [andb].
  2: { intros E; by apply symmetry, bool_decide_eq_false in E. }
  destruct (lookup_lt_is_Some_2 _ _ Hlt) as [[k' v] He].
  rewrite (list_lookup_total_correct _ p (leaf_entry (k', v))) by by rewrite list_lookup_fmap, He.
  cbn [leaf_entry e_key fst]; case_bool_decide as E; intros E'.
  2: by apply symmetry, bool_decide_eq_false in E'.
  subst k'; exists v; rewrite take_drop_middle by done; split; [done|].
  rewrite <- (take_drop_middle _ _ _ He) in Hs; apply key_sorted_NoDup in Hs.
  rewrite fmap_app in Hs; cbn [fmap list_fmap fst] in Hs; apply list.NoDup_app in Hs as (_ & Hd & Hs).
  apply list.NoDup_cons in Hs as [Hs _]; split_and!; [|done|done]; intros Hin; apply (Hd _ Hin); by left.
Qed.

Lemma leaf_lookup_spec (sibling : Z) (l : list kv) (k : bytes) :
  key_sorted l ->
  let p := sdb_btree_lower_bound (leaf_node sibling l) k in
  al_lookup k l = if key_at_position (leaf_node sibling l) p k
                  then Some (e_value (n_entries (leaf_node sibling l) !!! p)) else None.
Proof.
  intros Hs; cbv zeta; pose proof (leaf_key_split sibling l k Hs) as H; cbv zeta in H; revert H.
  destruct (key_at_position _ _ _); [|intros; by apply al_lookup_notin].
  intros (v & El & H1 & H2 & ->); rewrite El at 1; rewrite al_lookup_app by done.
  cbn [al_lookup leaf_entry e_value snd]; by rewrite bool_decide_eq_true_2.
Qed.

Lemma leaf_delete_spec (sibling : Z) (l : list kv) (k : bytes) :
  key_sorted l ->
  let p := sdb_btree_lower_bound (leaf_node sibling l) k in
  key_at_position (leaf_node sibling l) p k = true ->
  set_entries (leaf_node sibling l) (delete p (n_entries (leaf_node sibling l)))
    = leaf_node sibling (al_delete k l).
Proof.
  intros Hs; cbv zeta; pose proof (leaf_key_split sibling l k Hs) as H; cbv zeta in H; revert H.
  intros H Hk; rewrite Hk in H; clear Hk; revert H; set (p := sdb_btree_lower_bound _ k).
  intros (v & El & H1 & H2 & _); unfold set_entries, leaf_node; cbn [n_kind n_right_sibling n_first_child n_entries].
  f_equal; rewrite delete_take_drop, <- fmap_take, <- fmap_drop, <- fmap_app; f_equal.
  rewrite El at 3; rewrite al_delete_app, al_delete_notin by done; f_equal.
  unfold al_delete; rewrite filter_cons_False by (cbn; tauto); symmetry; by apply al_delete_notin.
Qed.

(** ** The split loops *)

Definition sumZ {A} (f : A -> Z) (l : list A) : Z := foldr (fun x acc => f x + acc) 0 l.

Lemma sumZ_app {A} (f : A -> Z) (l1 l2 : list A) : sumZ f (l1 ++ l2) = sumZ f l1 + sumZ f l2.
Proof. induction l1 as [|x l1 IH]; cbn in *; [done|]; unfold sumZ in *; lia. Qed.

Lemma sumZ_cons {A} (f : A -> Z) (x : A) (l : list A) : sumZ f (x :: l) = f x + sumZ f l.
Proof. done. Qed.

Lemma sumZ_nonneg {A} (f : A -> Z) (l : list A) : (forall x, 0 <= f x) -> 0 <= sumZ f l.
Proof. intros Hf; induction l as [|x l IH]; cbn; [lia|]; specialize (Hf x); unfold sumZ in IH; lia. Qed.

Lemma total_entries_loop_inv (size : sdb_btree_entry -> Z) (es : list sdb_btree_entry) (t0 t : Z) :
  total_entries_loop size es t0 = Ok t -> t = t0 + sumZ size es.
Proof.
  revert t0; induction es as [|e es IH]; cbn [total_entries_loop]; intros t0 H.
  - injection H as <-; cbn; lia.
  - inv_ok H; apply IH in H; rewrite sumZ_cons; lia.
Qed.

Lemma total_entries_loop_ok (size : sdb_btree_entry -> Z) (es : list sdb_btree_entry) (t0 : Z) :
  (forall e, 0 <= size e) -> 0 <= t0 -> t0 + sumZ size es <= SIZE_MAX ->
  total_entries_loop size es t0 = Ok (t0 + sumZ size es).
Proof.
  intros Hf; revert t0; induction es as [|e es IH]; cbn [total_entries_loop]; intros t0 H0 H.
  - cbn; f_equal; lia.
  - rewrite sumZ_cons in H; pose proof (Hf e); pose proof (sumZ_nonneg size es Hf).
    zcmp; rewrite check_false, IH by lia; rewrite sumZ_cons; f_equal; lia.
Qed.

(** What a split loop knows after trying the candidates in [[1, upto)]: the best
    feasible one, [best] being the size of its larger half. *)
Definition feasible (L R : nat -> Z) (capacity : Z) (c : nat) : Prop :=
  L c <= capacity /\ R c <= capacity.

Definition split_inv (L R : nat -> Z) (capacity : Z) (upto : nat) (middle : option nat) (best : Z) : Prop :=
  (forall c, (1 <= c < upto)%nat -> feasible L R capacity c -> best <= largest_half (L c) (R c))
  /\ match middle with
     | None => best = SIZE_MAX
     | Some m => (1 <= m < upto)%nat /\ feasible L R capacity m /\ best = largest_half (L m) (R m)
     end.

Lemma split_inv_step (L R : nat -> Z) (capacity : Z) (c : nat) (middle : option nat) (best : Z) :
  (1 <= c)%nat -> split_inv L R capacity c middle best ->
  if split_better capacity (L c) (R c) best
  then split_inv L R capacity (S c) (Some c) (largest_half (L c) (R c))
  else split_inv L R capacity (S c) middle best.
Proof.
  intros Hc [Hb Hm]; unfold split_better, feasible in *.
  destruct (_ && _) eqn:E; zbool_hyps.
  - split; [|split_and!; (done || lia)].
    intros d Hd Hf; destruct (decide (d = c)) as [->|Hne]; [lia|].
    specialize (Hb d ltac:(lia) Hf); lia.
  - split; [|destruct middle as [m|]; [destruct Hm as (? & ? & ?); split_and!; (done || lia) | done]].
    intros d Hd Hf; destruct (decide (d = c)) as [->|Hne]; [|apply Hb; [lia|done]].
    unfold feasible in Hf; destruct (Z.leb_spec (L c) capacity), (Z.leb_spec (R c) capacity); cbn [andb] in E; lia.
Qed.

Definition some_nonzero (m : nat) : option nat := match m with O => None | S _ => Some m end.

(** Sizes of the two halves of a leaf split before index [c], and of an internal
    split that promotes entry [c]. *)
Definition leaf_left (es : list sdb_btree_entry) (c : nat) : Z := 20 + sumZ leaf_entry_size (take c es).
Definition leaf_right (es : list sdb_btree_entry) (c : nat) : Z := 20 + sumZ leaf_entry_size (drop c es).
Definition internal_left (es : list sdb_btree_entry) (c : nat) : Z :=
  20 + sumZ internal_entry_size (take c es).
Definition internal_right (es : list sdb_btree_entry) (c : nat) : Z :=
  20 + sumZ internal_entry_size (drop (S c) es).

Lemma split_leaf_loop_cons (capacity total : Z) (e : sdb_btree_entry) (r : list sdb_btree_entry)
    (c : nat) (l : Z) (m : nat) (best : Z) :
  r <> [] ->
  split_leaf_loop capacity total (e :: r) c l m best
    = let l := l + leaf_entry_size e in
      if split_better capacity (20 + l) (20 + total - l) best
      then split_leaf_loop capacity total r (S c) l c (largest_half (20 + l) (20 + total - l))
      else split_leaf_loop capacity total r (S c) l m best.
Proof. by destruct r. Qed.

Lemma split_internal_loop_cons (capacity total : Z) (e : sdb_btree_entry) (r : list sdb_btree_entry)
    (c : nat) (l : Z) (m : option nat) (best : Z) :
  r <> [] ->
  split_internal_loop capacity total (e :: r) c l m best
    = let right_size := 20 + total - l - internal_entry_size e in
      if split_better capacity (20 + l) right_size best
      then split_internal_loop capacity total r (S c) (l + internal_entry_size e) (Some c)
             (largest_half (20 + l) right_size)
      else split_internal_loop capacity total r (S c) (l + internal_entry_size e) m best.
Proof. by destruct r. Qed.

Lemma leaf_halves (pre r : list sdb_btree_entry) (e : sdb_btree_entry) :
  let es := pre ++ e :: r in
  leaf_left es (S (length pre)) = 20 + (sumZ leaf_entry_size pre + leaf_entry_size e)
  /\ leaf_right es (S (length pre))
     = 20 + sumZ leaf_entry_size es - (sumZ leaf_entry_size pre + leaf_entry_size e).
Proof.
  cbv zeta; unfold leaf_left, leaf_right; rewrite (cons_middle e pre), app_assoc.
  replace (S (length pre)) with (length (pre ++ [e])) by (rewrite length_app; cbn [length]; lia).
  rewrite take_app_length, drop_app_length, !sumZ_app, sumZ_cons; change (sumZ _ []) with 0; lia.
Qed.

Lemma internal_halves (pre r : list sdb_btree_entry) (e : sdb_btree_entry) :
  let es := pre ++ e :: r in
  internal_left es (length pre) = 20 + sumZ internal_entry_size pre
  /\ internal_right es (length pre)
     = 20 + sumZ internal_entry_size es - sumZ internal_entry_size pre - internal_entry_size e.
Proof.
  cbv zeta; unfold internal_left, internal_right; rewrite take_app_length.
  rewrite (cons_middle e pre), app_assoc.
  replace (S (length pre)) with (length (pre ++ [e])) by (rewrite length_app; cbn [length]; lia).
  rewrite drop_app_length, !sumZ_app, sumZ_cons; change (sumZ _ []) with 0; lia.
Qed.

Lemma split_leaf_loop_inv (capacity : Z) (rest pre : list sdb_btree_entry) (middle : nat) (best : Z) :
  let es := pre ++ rest in
  split_inv (leaf_left es) (leaf_right es) capacity (S (length pre)) (some_nonzero middle) best ->
  exists best', split_inv (leaf_left es) (leaf_right es) capacity (Nat.max (S (length pre)) (length es))
    (some_nonzero (split_leaf_loop capacity (sumZ leaf_entry_size es) rest (S (length pre))
       (sumZ leaf_entry_size pre) middle best)) best'.
Proof.
  cbv zeta; revert pre middle best; induction rest as [|e r IH]; intros pre middle best Hi.
  { cbn [split_leaf_loop]; exists best; rewrite length_app; cbn [length].
    by replace (Nat.max _ _) with (S (length pre)) by lia. }
  destruct (decide (r = [])) as [->|Hr].
  { cbn [split_leaf_loop]; exists best; rewrite length_app; cbn [length].
    by replace (Nat.max _ _) with (S (length pre)) by lia. }
  rewrite split_leaf_loop_cons by done; cbv zeta.
  destruct (leaf_halves pre r e) as [<- <-].
  replace (sumZ leaf_entry_size pre + leaf_entry_size e) with (sumZ leaf_entry_size (pre ++ [e]))
    by (rewrite sumZ_app, sumZ_cons; cbn; lia).
  assert (Hlr : (0 < length r)%nat) by (destruct r; [done|cbn; lia]).
  specialize (IH (pre ++ [e])); rewrite <- app_assoc, length_app in IH; cbn [app length] in IH.
  rewrite Nat.add_1_r in IH; apply split_inv_step in Hi; [|lia].
  replace (Nat.max (S (length pre)) (length (pre ++ e :: r)))
    with (Nat.max (S (S (length pre))) (length (pre ++ e :: r)))
    by (rewrite length_app; cbn [length]; lia).
  destruct (split_better _ _ _ _); by apply IH.
Qed.

Lemma split_internal_loop_inv (capacity : Z) (rest pre : list sdb_btree_entry)
    (middle : option nat) (best : Z) :
  (1 <= length pre)%nat -> let es := pre ++ rest in
  split_inv (internal_left es) (internal_right es) capacity (length pre) middle best ->
  exists best', split_inv (internal_left es) (internal_right es) capacity
    (Nat.max (length pre) (length es - 1))
    (split_internal_loop capacity (sumZ internal_entry_size es) rest (length pre)
       (sumZ internal_entry_size pre) middle best) best'.
Proof.
  cbv zeta; revert pre middle best; induction rest as [|e r IH]; intros pre middle best Hp Hi.
  { cbn [split_internal_loop]; exists best; rewrite length_app; cbn [length].
    by replace (Nat.max _ _) with (length pre) by lia. }
  destruct (decide (r = [])) as [->|Hr].
  { cbn [split_internal_loop]; exists best; rewrite length_app; cbn [length].
    by replace (Nat.max _ _) with (length pre) by lia. }
  rewrite split_internal_loop_cons by done; cbv zeta.
  destruct (internal_halves pre r e) as [<- <-].
  replace (sumZ internal_entry_size pre + internal_entry_size e)
    with (sumZ internal_entry_size (pre ++ [e])) by (rewrite sumZ_app, sumZ_cons; cbn; lia).
  assert (Hlr : (0 < length r)%nat) by (destruct r; [done|cbn; lia]).
  specialize (IH (pre ++ [e])); rewrite <- app_assoc, length_app in IH; cbn [app length] in IH.
  rewrite Nat.add_1_r in IH; apply split_inv_step in Hi; [|lia].
  replace (Nat.max (length pre) (length (pre ++ e :: r) - 1))
    with (Nat.max (S (length pre)) (length (pre ++ e :: r) - 1))
    by (rewrite length_app; cbn [length]; lia).
  destruct (split_better _ _ _ _); apply IH; (done || lia).
Qed.

(** ** Internal nodes as lists of separators and children *)

Section internal_nodes.
Context (ids : list Z) (ks : list bytes) (Hlen : length ids = S (length ks)).

Lemma internal_node_keys : e_key <$> n_entries (internal_node ids ks) = ks.
Proof.
  cbn [internal_node n_entries]; apply fmap_zip_with_l; [done|].
  destruct ids as [|c ids']; [done|]; injection Hlen as Hl; cbn [tl]; lia.
Qed.

Lemma internal_node_count : n_count (internal_node ids ks) = length ks.
Proof. unfold n_count; rewrite <- internal_node_keys at 2; by rewrite length_fmap. Qed.

Lemma internal_node_entry (i : nat) (k : bytes) :
  ks !! i = Some k ->
  n_entries (internal_node ids ks) !!! i = internal_entry k (ids !!! S i).
Proof.
  intros Hk; apply list_lookup_total_correct; cbn [internal_node n_entries].
  destruct ids as [|c ids']; [done|]; injection Hlen as Hl; cbn [tl].
  destruct (lookup_lt_is_Some_2 ids' i ltac:(rewrite Hl; by eapply lookup_lt_Some)) as [d Hd].
  rewrite lookup_zip_with, Hk; cbn [mbind option_bind]; rewrite Hd; cbn [option_bind].
  by rewrite (list_lookup_total_correct (c :: ids') (S i) d Hd).
Qed.

Lemma internal_node_child (i : nat) :
  (i <= length ks)%nat -> sdb_btree_child_at (internal_node ids ks) i = ids !!! i.
Proof.
  intros Hi; destruct i as [|i]; cbn [sdb_btree_child_at].
  - by destruct ids.
  - destruct (lookup_lt_is_Some_2 ks i ltac:(lia)) as [k Hk].
    by rewrite (internal_node_entry i k Hk).
Qed.

Lemma internal_node_sorted :
  keys_sorted (n_entries (internal_node ids ks)) <-> StronglySorted key_lt ks.
Proof. unfold keys_sorted; by rewrite internal_node_keys. Qed.

End internal_nodes.

Lemma zip_with_insert_at {A B C} (f : A -> B -> C) (i : nat) (x : A) (y : B) (l1 : list A) (l2 : list B) :
  length l1 = length l2 -> (i <= length l1)%nat ->
  zip_with f (insert_at i x l1) (insert_at i y l2) = insert_at i (f x y) (zip_with f l1 l2).
Proof.
  intros Hl Hi; unfold insert_at; rewrite zip_with_app by (rewrite !length_take; lia).
  cbn [zip_with]; by rewrite zip_with_take, zip_with_drop.
Qed.

Lemma internal_insert_spec (ids : list Z) (ks : list bytes) (i : nat) (k : bytes) (c : Z) :
  length ids = S (length ks) -> (i <= length ks)%nat ->
  sdb_btree_internal_insert (internal_node ids ks) i k c
    = internal_node (insert_at (S i) c ids) (insert_at i k ks).
Proof.
  intros Hl Hi; destruct ids as [|c0 ids]; [done|]; injection Hl as Hl.
  unfold sdb_btree_internal_insert, set_entries, internal_node.
  cbn [n_kind n_right_sibling n_first_child n_entries hd tl].
  f_equal; unfold insert_at at 1 3; cbn [take drop app tl].
  change (take i ids ++ c :: drop i ids) with (insert_at i c ids).
  by rewrite zip_with_insert_at.
Qed.

Lemma zip_with_delete {A B C} (f : A -> B -> C) (i : nat) (l1 : list A) (l2 : list B) :
  length l1 = length l2 ->
  zip_with f (delete i l1) (delete i l2) = delete i (zip_with f l1 l2).
Proof.
  intros Hl; rewrite !delete_take_drop, zip_with_app by (rewrite !length_take; lia).
  by rewrite zip_with_take, zip_with_drop.
Qed.

Lemma remove_child_spec (ids : list Z) (ks : list bytes) (i : nat) :
  length ids = S (length ks) -> (i <= length ks)%nat -> (0 < length ks)%nat ->
  sdb_btree_remove_child (internal_node ids ks) i
    = internal_node (delete i ids) (delete (i - 1)%nat ks).
Proof.
  intros Hl Hi H0; unfold sdb_btree_remove_child; rewrite !internal_node_count by done.
  rewrite (proj2 (Nat.eqb_neq _ _)) by lia; rewrite (proj2 (Nat.ltb_ge _ _)) by lia; cbn [orb].
  destruct ids as [|c0 ids]; [done|]; injection Hl as Hl.
  unfold internal_node; cbn [n_kind n_right_sibling n_first_child n_entries hd tl].
  destruct i as [|i]; cbn [Nat.eqb Nat.sub].
  - destruct ids as [|c1 ids], ks as [|k ks]; try done; cbn; done.
  - rewrite Nat.sub_0_r; cbn [delete list_delete hd tl].
    f_equal; symmetry; by apply (zip_with_delete internal_entry).
Qed.

Lemma internal_take_spec (ids : list Z) (ks : list bytes) (m : nat) :
  length ids = S (length ks) ->
  set_entries (internal_node ids ks) (take m (n_entries (internal_node ids ks)))
    = internal_node (take (S m) ids) (take m ks).
Proof.
  intros Hl; destruct ids as [|c0 ids]; [done|]; unfold set_entries, internal_node.
  cbn [n_kind n_right_sibling n_first_child n_entries hd tl take]; by rewrite zip_with_take.
Qed.

Lemma internal_drop_spec (ids : list Z) (ks : list bytes) (m : nat) :
  length ids = S (length ks) -> (m < length ks)%nat ->
  {| n_kind := SDB_BTREE_INTERNAL; n_right_sibling := 0;
     n_first_child := e_right_child (n_entries (internal_node ids ks) !!! m);
     n_entries := drop (S m) (n_entries (internal_node ids ks)) |}
    = internal_node (drop (S m) ids) (drop (S m) ks).
Proof.
  intros Hl Hm; destruct (lookup_lt_is_Some_2 ks m Hm) as [k Hk].
  rewrite (internal_node_entry ids ks Hl m k Hk); cbn [internal_entry e_right_child].
  destruct ids as [|c0 ids]; [done|]; injection Hl as Hl; unfold internal_node.
  cbn [hd tl n_entries drop].
  destruct (lookup_lt_is_Some_2 ids m ltac:(lia)) as [d Hd].
  rewrite (list_lookup_total_correct (c0 :: ids) (S m) d Hd), zip_with_drop.
  by rewrite (drop_S _ _ _ Hd).
Qed.
