(* ===== verification/BtreeTree.v ===== *)
(** * Abstract page trees

    The specification-level view of the pages of a B-tree: a tree whose leaves
    carry key/value lists and whose internal nodes carry separators and one more
    child than separators, each with the page that stores it.  [wf_tree] is the
    invariant of [src/btree.c]: uniform height, separators sorted and bounding
    the subtrees on both sides.  [flatten] lists the contents in key order;
    [repr] says that a page store holds a given tree; [sib_chain] that the leaves
    are linked from left to right. *)

From S2P Require Import Prelude Status Keys BtreePage OrderedMap BtreeNode.

#[local] Set Warnings "-register-all".

Inductive ptree :=
  | PLeaf (pid sibling : Z) (l : list kv)
  | PNode (pid : Z) (ks : list bytes) (cs : list ptree).

Definition pid_of (t : ptree) : Z :=
  match t with PLeaf p _ _ => p | PNode p _ _ => p end.

(** The node stored in the page of [t]. *)
Definition node_of (t : ptree) : sdb_btree_node :=
  match t with
  | PLeaf _ s l => leaf_node s l
  | PNode _ ks cs => internal_node (pid_of <$> cs) ks
  end.

Fixpoint subtrees (t : ptree) : list ptree :=
  t :: match t with
       | PLeaf _ _ _ => []
       | PNode _ _ cs => flat_map subtrees cs
       end.

Definition pids (t : ptree) : list Z := pid_of <$> subtrees t.

(** The leaves from left to right. *)
Fixpoint leaves (t : ptree) : list (Z * Z * list kv) :=
  match t with
  | PLeaf p s l => [(p, s, l)]
  | PNode _ _ cs => flat_map leaves cs
  end.

Fixpoint flatten (t : ptree) : list kv :=
  match t with
  | PLeaf _ _ l => l
  | PNode _ _ cs => flat_map flatten cs
  end.

(** ** Bounds *)

Definition at_or_above (lo : option bytes) (k : bytes) : Prop :=
  match lo with None => True | Some l => key_le l k end.
Definition below (hi : option bytes) (k : bytes) : Prop :=
  match hi with None => True | Some h => key_lt k h end.
Definition within (lo hi : option bytes) (k : bytes) : Prop := at_or_above lo k /\ below hi k.

(** Separators lie strictly above the lower bound. *)
Definition over (lo : option bytes) (k : bytes) : Prop :=
  match lo with None => True | Some l => key_lt l k end.
Definition inside (lo hi : option bytes) (k : bytes) : Prop := over lo k /\ below hi k.

(** The children between the separators: child [i] lies between separators
    [i - 1] and [i]. *)
Fixpoint kids_ok (Q : option bytes -> option bytes -> ptree -> Prop) (lo hi : option bytes)
    (ks : list bytes) (cs : list ptree) : Prop :=
  match ks, cs with
  | [], [c] => Q lo hi c
  | k :: ks, c :: cs => Q lo (Some k) c /\ kids_ok Q (Some k) hi ks cs
  | _, _ => False
  end.

Fixpoint wf_tree (h : nat) (lo hi : option bytes) (t : ptree) : Prop :=
  match h, t with
  | O, PLeaf _ _ l => key_sorted l /\ Forall (within lo hi) l.*1
  | S h, PNode _ ks cs =>
      ks <> [] /\ StronglySorted key_lt ks /\ Forall (inside lo hi) ks
      /\ kids_ok (wf_tree h) lo hi ks cs
  | _, _ => False
  end.

(** ** Representation *)

Definition repr (read : Z -> result sdb_btree_node) (t : ptree) : Prop :=
  Forall (fun s => read (pid_of s) = Ok (node_of s)) (subtrees t).

(** ** The sibling chain *)

Definition leaf_pid (l : Z * Z * list kv) : Z := l.1.1.
Definition leaf_sib (l : Z * Z * list kv) : Z := l.1.2.

(** The page of the first leaf of a list, or [next] if there is none. *)
Definition first_pid (ls : list (Z * Z * list kv)) (next : Z) : Z :=
  match ls with [] => next | l :: _ => leaf_pid l end.

Fixpoint sib_chain (ls : list (Z * Z * list kv)) (next : Z) : Prop :=
  match ls with
  | [] => True
  | l :: ls => leaf_sib l = first_pid ls next /\ sib_chain ls next
  end.

(** ** Induction *)

Fixpoint ptree_ind' (Q : ptree -> Prop)
    (Hl : forall p s l, Q (PLeaf p s l))
    (Hn : forall p ks cs, Forall Q cs -> Q (PNode p ks cs)) (t : ptree) : Q t :=
  match t with
  | PLeaf p s l => Hl p s l
  | PNode p ks cs =>
      Hn p ks cs ((fix go (cs : list ptree) : Forall Q cs :=
        match cs with
        | [] => @List.Forall_nil _ Q
        | c :: cs => @List.Forall_cons _ Q c cs (ptree_ind' Q Hl Hn c) (go cs)
        end) cs)
  end.

(** ** Children lists *)

Lemma kids_length Q (lo hi : option bytes) (ks : list bytes) (cs : list ptree) :
  kids_ok Q lo hi ks cs -> length cs = S (length ks).
Proof.
  revert lo cs; induction ks as [|k ks IH]; intros lo [|c [|c' cs]]; cbn; try done.
  - intros [_ H]; destruct ks; done.
  - intros [_ H]; f_equal; by apply IH in H.
Qed.

Fixpoint last_or (lo : option bytes) (ks : list bytes) : option bytes :=
  match ks with k :: ks => last_or (Some k) ks | [] => lo end.

Definition head_or (hi : option bytes) (ks : list bytes) : option bytes :=
  match ks with k :: _ => Some k | [] => hi end.

(** The children to the left of a position: one per separator. *)
Fixpoint kids_left (Q : option bytes -> option bytes -> ptree -> Prop) (lo : option bytes)
    (ks : list bytes) (cs : list ptree) : Prop :=
  match ks, cs with
  | [], [] => True
  | k :: ks, c :: cs => Q lo (Some k) c /\ kids_left Q (Some k) ks cs
  | _, _ => False
  end.

Definition kids_right (Q : option bytes -> option bytes -> ptree -> Prop) (hi : option bytes)
    (ks : list bytes) (cs : list ptree) : Prop :=
  match ks with
  | [] => cs = []
  | k :: ks => kids_ok Q (Some k) hi ks cs
  end.

Lemma kids_zip Q (lo hi : option bytes) (ks1 ks2 : list bytes) (cs1 : list ptree) (c : ptree)
    (cs2 : list ptree) :
  length ks1 = length cs1 ->
  kids_ok Q lo hi (ks1 ++ ks2) (cs1 ++ c :: cs2)
    <-> kids_left Q lo ks1 cs1 /\ Q (last_or lo ks1) (head_or hi ks2) c /\ kids_right Q hi ks2 cs2.
Proof.
  revert lo cs1; induction ks1 as [|k ks1 IH]; intros lo [|c1 cs1] Hl; try done.
  - cbn [app kids_left last_or]; destruct ks2 as [|k2 ks2]; cbn [kids_ok kids_right head_or].
    + destruct cs2; naive_solver.
    + tauto.
  - cbn [app kids_left kids_ok]; rewrite IH by (by injection Hl); cbn [last_or]; tauto.
Qed.

(** Separators and children around child [i]. *)
Lemma kids_focus (ks : list bytes) (cs : list ptree) (i : nat) :
  length cs = S (length ks) -> (i <= length ks)%nat ->
  exists ks1 ks2 cs1 c cs2,
    ks = ks1 ++ ks2 /\ cs = cs1 ++ c :: cs2 /\ length ks1 = i /\ length cs1 = i
    /\ ks1 = take i ks /\ ks2 = drop i ks.
Proof.
  intros Hl Hi; destruct (lookup_lt_is_Some_2 cs i ltac:(lia)) as [c Hc].
  exists (take i ks), (drop i ks), (take i cs), c, (drop (S i) cs).
  rewrite take_drop, take_drop_middle by done.
  rewrite !length_take; split_and!; (done || lia).
Qed.

(** ** Bounds lemmas *)

Definition lo_le (lo lo' : option bytes) : Prop :=
  match lo, lo' with
  | None, _ => True
  | Some l, Some l' => key_le l l'
  | Some _, None => False
  end.

Definition hi_le (hi hi' : option bytes) : Prop :=
  match hi', hi with
  | None, _ => True
  | Some h', Some h => key_le h h'
  | Some _, None => False
  end.

Lemma within_widen (lo lo' hi hi' : option bytes) (k : bytes) :
  lo_le lo' lo -> hi_le hi hi' -> within lo hi k -> within lo' hi' k.
Proof.
  unfold within, lo_le, hi_le, at_or_above, below; intros Hl Hh [H1 H2]; split.
  - destruct lo', lo; try done; by eapply key_le_trans.
  - destruct hi', hi; try done; by eapply key_lt_le_trans.
Qed.

Lemma inside_widen (lo lo' hi hi' : option bytes) (k : bytes) :
  lo_le lo' lo -> hi_le hi hi' -> inside lo hi k -> inside lo' hi' k.
Proof.
  unfold inside, lo_le, hi_le, over, below; intros Hl Hh [H1 H2]; split.
  - destruct lo', lo; try done; by eapply key_le_lt_trans.
  - destruct hi', hi; try done; by eapply key_lt_le_trans.
Qed.

Lemma inside_within (lo hi : option bytes) (k : bytes) : inside lo hi k -> within lo hi k.
Proof. intros [H1 H2]; split; [|done]; destruct lo; [by apply key_lt_le|done]. Qed.

Lemma seps_within (lo hi : option bytes) (ks : list bytes) :
  Forall (inside lo hi) ks -> Forall (within lo hi) ks.
Proof. intros H; eapply Forall_impl; [|exact H]; intros k; apply inside_within. Qed.

Lemma lo_le_refl (lo : option bytes) : lo_le lo lo.
Proof. destruct lo; cbn; [apply key_le_refl|done]. Qed.
Lemma hi_le_refl (hi : option bytes) : hi_le hi hi.
Proof. destruct hi; cbn; [apply key_le_refl|done]. Qed.
Lemma lo_le_trans (a b c : option bytes) : lo_le a b -> lo_le b c -> lo_le a c.
Proof. destruct a, b, c; cbn; try done; apply key_le_trans. Qed.
Lemma hi_le_trans (a b c : option bytes) : hi_le a b -> hi_le b c -> hi_le a c.
Proof. destruct a, b, c; cbn; try done; intros; by eapply key_le_trans. Qed.
Lemma within_lo_le (lo hi : option bytes) (k : bytes) : within lo hi k -> lo_le lo (Some k).
Proof. intros [H _]; by destruct lo. Qed.
Lemma within_hi_le (lo hi : option bytes) (k : bytes) : within lo hi k -> hi_le (Some k) hi.
Proof. intros [_ H]; destruct hi; cbn in *; [by apply key_lt_le|done]. Qed.

Create HintDb bounds.
#[export] Hint Resolve lo_le_refl hi_le_refl within_lo_le within_hi_le inside_within : bounds.

Lemma kids_impl (Q Q' : option bytes -> option bytes -> ptree -> Prop) (lo hi : option bytes)
    (ks : list bytes) (cs : list ptree) :
  (forall lo hi c, Q lo hi c -> Q' lo hi c) -> kids_ok Q lo hi ks cs -> kids_ok Q' lo hi ks cs.
Proof.
  intros HQ; revert lo cs; induction ks as [|k ks IH]; intros lo [|c [|c' cs]]; cbn; try done.
  - apply HQ.
  - intros [H1 H2]; split; [by apply HQ|by apply IH].
  - intros [H1 H2]; split; [by apply HQ|by apply IH].
Qed.

Lemma kids_widen Q (lo lo' hi hi' : option bytes) (ks : list bytes) (cs : list ptree) :
  (forall lo lo' hi hi' c, lo_le lo' lo -> hi_le hi hi' -> Q lo hi c -> Q lo' hi' c) ->
  lo_le lo' lo -> hi_le hi hi' -> kids_ok Q lo hi ks cs -> kids_ok Q lo' hi' ks cs.
Proof.
  intros HQ Hlo Hhi; revert lo lo' Hlo cs.
  induction ks as [|k ks IH]; intros lo lo' Hlo [|c [|c' cs]]; cbn [kids_ok]; try done.
  - by apply HQ.
  - intros [H1 H2]; split; [eapply HQ; [exact Hlo| |exact H1]; apply hi_le_refl|].
    eapply IH; [|exact H2]; apply lo_le_refl.
  - intros [H1 H2]; split; [eapply HQ; [exact Hlo| |exact H1]; apply hi_le_refl|].
    eapply IH; [|exact H2]; apply lo_le_refl.
Qed.

Lemma wf_widen (h : nat) (lo lo' hi hi' : option bytes) (t : ptree) :
  lo_le lo' lo -> hi_le hi hi' -> wf_tree h lo hi t -> wf_tree h lo' hi' t.
Proof.
  revert lo lo' hi hi' t; induction h as [|h IH]; intros lo lo' hi hi' [p s l|p ks cs] Hlo Hhi; cbn [wf_tree]; try done.
  - intros [Hs HF]; split; [done|]; eapply Forall_impl; [|exact HF]; intros k; by apply within_widen.
  - intros (H0 & Hs & HF & Hk); split_and!; [done|done| |].
    + eapply Forall_impl; [|exact HF]; intros k; by apply inside_widen.
    + eapply kids_widen; [|exact Hlo|exact Hhi|exact Hk]; exact IH.
Qed.

(** ** Contents of well-formed trees *)

Lemma within_tail (lo hi : option bytes) (k : bytes) (ks : list bytes) :
  StronglySorted key_lt (k :: ks) -> Forall (within lo hi) (k :: ks) -> Forall (within (Some k) hi) ks.
Proof.
  intros Hs HF; apply StronglySorted_inv in Hs as [_ Hs]; apply Forall_cons_iff in HF as [_ HF].
  rewrite List.Forall_forall in *; intros x Hx; split; [by apply key_lt_le, Hs|by apply HF].
Qed.

Lemma kids_flatten Q (lo hi : option bytes) (ks : list bytes) (cs : list ptree) :
  (forall lo hi c, Q lo hi c -> key_sorted (flatten c) /\ Forall (within lo hi) (flatten c).*1) ->
  StronglySorted key_lt ks -> Forall (within lo hi) ks -> kids_ok Q lo hi ks cs ->
  key_sorted (flat_map flatten cs) /\ Forall (within lo hi) (flat_map flatten cs).*1.
Proof.
  intros HQ; revert lo cs; induction ks as [|k ks IH]; intros lo cs Hs HF Hk.
  { destruct cs as [|c [|? ?]]; try done; cbn [flat_map]; rewrite app_nil_r; by apply HQ. }
  destruct cs as [|c cs]; [done|]; cbn [kids_ok] in Hk; destruct Hk as [Hc Hk].
  pose proof (within_tail _ _ _ _ Hs HF) as HF'; apply StronglySorted_inv in Hs as [Hs _].
  apply Forall_cons_iff in HF as [Hkw _]; destruct (HQ _ _ _ Hc) as [Hcs Hcw].
  destruct (IH (Some k) cs Hs HF' Hk) as [Hrs Hrw]; cbn [flat_map]; split.
  - apply key_sorted_app; split_and!; [done|done|].
    eapply Forall_impl; [|exact Hcw]; intros x [_ Hx].
    eapply Forall_impl; [|exact Hrw]; intros y [Hy _]; by eapply key_lt_le_trans.
  - rewrite fmap_app; apply Forall_app; split.
    + eapply Forall_impl; [|exact Hcw]; intros x; apply within_widen; eauto with bounds.
    + eapply Forall_impl; [|exact Hrw]; intros x; apply within_widen; eauto with bounds.
Qed.

Lemma wf_flatten (h : nat) (lo hi : option bytes) (t : ptree) :
  wf_tree h lo hi t -> key_sorted (flatten t) /\ Forall (within lo hi) (flatten t).*1.
Proof.
  revert lo hi t; induction h as [|h IH]; intros lo hi [p s l|p ks cs]; cbn [wf_tree flatten]; try done.
  intros (_ & Hs & HF & Hk); eapply kids_flatten; [exact IH|done|by apply seps_within|done].
Qed.

Lemma kids_left_below (h : nat) (lo : option bytes) (ks : list bytes) (cs : list ptree) (k : bytes) :
  kids_left (wf_tree h) lo ks cs -> Forall (fun x => key_le x k) ks ->
  Forall (fun x => key_lt x k) (flat_map flatten cs).*1.
Proof.
  revert lo cs; induction ks as [|k1 ks IH]; intros lo [|c cs]; cbn [kids_left]; try done.
  intros [Hc Hk] HF; apply Forall_cons_iff in HF as [Hk1 HF].
  cbn [flat_map]; rewrite fmap_app; apply Forall_app; split; [|by eapply IH].
  apply wf_flatten in Hc as [_ Hc]; eapply Forall_impl; [|exact Hc].
  intros x [_ Hx]; by eapply key_lt_le_trans.
Qed.

Lemma kids_above (h : nat) (l : bytes) (hi : option bytes) (ks : list bytes) (cs : list ptree) (k : bytes) :
  kids_ok (wf_tree h) (Some l) hi ks cs -> key_lt k l -> Forall (fun x => key_lt k x) ks ->
  Forall (key_lt k) (flat_map flatten cs).*1.
Proof.
  assert (Hc : forall l hi c, wf_tree h (Some l) hi c -> key_lt k l -> Forall (key_lt k) (flatten c).*1).
  { intros l' hi' c Hc Hl; apply wf_flatten in Hc as [_ Hc]; eapply Forall_impl; [|exact Hc].
    intros x [Hx _]; by eapply key_lt_le_trans. }
  revert l cs; induction ks as [|k1 ks IH]; intros l cs Hk Hl HF.
  - destruct cs as [|c [|? ?]]; try done; cbn [flat_map]; rewrite app_nil_r; by eapply Hc.
  - destruct cs as [|c cs]; [done|]; destruct Hk as [Hk1 Hk]; apply Forall_cons_iff in HF as [H1 HF].
    cbn [flat_map]; rewrite fmap_app; apply Forall_app; split; [by eapply Hc|by eapply IH].
Qed.

Lemma kids_right_above (h : nat) (hi : option bytes) (ks : list bytes) (cs : list ptree) (k : bytes) :
  kids_right (wf_tree h) hi ks cs -> Forall (fun x => key_lt k x) ks ->
  Forall (key_lt k) (flat_map flatten cs).*1.
Proof.
  destruct ks as [|k1 ks]; cbn [kids_right]; [intros -> _; constructor|].
  intros Hk HF; apply Forall_cons_iff in HF as [H1 HF]; by eapply kids_above.
Qed.

Lemma within_focus (lo hi : option bytes) (ks1 ks2 : list bytes) (k : bytes) :
  within lo hi k -> Forall (fun x => key_le x k) ks1 -> Forall (fun x => key_lt k x) ks2 ->
  within (last_or lo ks1) (head_or hi ks2) k.
Proof.
  intros Hk H1 H2; split.
  - destruct Hk as [Hk _]; revert lo Hk; induction ks1 as [|k1 ks1 IH]; intros lo Hk; [done|].
    apply Forall_cons_iff in H1 as [H H1]; cbn [last_or]; by apply IH.
  - destruct ks2; [apply Hk|]; apply Forall_cons_iff in H2 as [H _]; done.
Qed.

(** ** Pages and representation *)

Lemma flat_map_fmap {A B C} (f : A -> list B) (g : B -> C) (l : list A) :
  g <$> flat_map f l = flat_map (fun x => g <$> f x) l.
Proof. induction l as [|x l IH]; cbn [flat_map]; [done|]; by rewrite fmap_app, IH. Qed.

Lemma pids_node (p : Z) (ks : list bytes) (cs : list ptree) :
  pids (PNode p ks cs) = p :: flat_map pids cs.
Proof. unfold pids; cbn [subtrees fmap list_fmap pid_of]; f_equal; apply flat_map_fmap. Qed.

Lemma pid_in_pids (t : ptree) : pid_of t ∈ pids t.
Proof. destruct t; cbn; left. Qed.

Lemma Forall_flat_map {A B} (Q : B -> Prop) (f : A -> list B) (l : list A) :
  Forall Q (flat_map f l) <-> Forall (fun x => Forall Q (f x)) l.
Proof.
  induction l as [|x l IH]; cbn [flat_map]; [split; constructor|].
  by rewrite Forall_app, IH, Forall_cons_iff.
Qed.

Lemma repr_node (read : Z -> result sdb_btree_node) (p : Z) (ks : list bytes) (cs : list ptree) :
  repr read (PNode p ks cs)
    <-> read p = Ok (internal_node (pid_of <$> cs) ks) /\ Forall (repr read) cs.
Proof. unfold repr at 1; cbn [subtrees]; by rewrite Forall_cons_iff, Forall_flat_map. Qed.

Lemma repr_root (read : Z -> result sdb_btree_node) (t : ptree) :
  repr read t -> read (pid_of t) = Ok (node_of t).
Proof. unfold repr; destruct t; cbn [subtrees]; intros H; by apply Forall_cons_iff in H as [H _]. Qed.

Lemma repr_frame (read read' : Z -> result sdb_btree_node) (t : ptree) :
  (forall p, p ∈ pids t -> read' p = read p) -> repr read t -> repr read' t.
Proof.
  unfold repr, pids; rewrite !List.Forall_forall; intros Hf H s Hs; rewrite Hf; [by apply H|].
  apply list_elem_of_fmap_2; by apply list_elem_of_In.
Qed.

Lemma flatten_leaves (t : ptree) : flatten t = concat (snd <$> leaves t).
Proof.
  induction t as [p s l|p ks cs IH] using ptree_ind'; cbn [flatten leaves fmap list_fmap concat]; [by rewrite app_nil_r|].
  induction IH as [|c cs Hc _ IH]; cbn [flat_map]; [done|]; by rewrite fmap_app, concat_app, Hc, IH.
Qed.

(** ** Descending towards a key *)

(** The position of [k] in a node: the separators and children on either side of
    the child that may hold [k]. *)
Record focus (h : nat) (lo hi : option bytes) (ks : list bytes) (cs : list ptree) (k : bytes)
    (ks1 ks2 : list bytes) (cs1 : list ptree) (c : ptree) (cs2 : list ptree) : Prop := {
  fo_ks : ks = ks1 ++ ks2;
  fo_cs : cs = cs1 ++ c :: cs2;
  fo_len : length ks1 = length cs1;
  fo_left : kids_left (wf_tree h) lo ks1 cs1;
  fo_child : wf_tree h (last_or lo ks1) (head_or hi ks2) c;
  fo_right : kids_right (wf_tree h) hi ks2 cs2;
  fo_within : within (last_or lo ks1) (head_or hi ks2) k;
  fo_le : Forall (fun x => key_le x k) ks1;
  fo_gt : Forall (fun x => key_lt k x) ks2;
  fo_below : Forall (fun x => key_lt x k) (flat_map flatten cs1).*1;
  fo_above : Forall (key_lt k) (flat_map flatten cs2).*1
}.

Lemma descend_focus (h : nat) (lo hi : option bytes) (p : Z) (ks : list bytes) (cs : list ptree) (k : bytes) :
  wf_tree (S h) lo hi (PNode p ks cs) -> within lo hi k ->
  exists ks1 ks2 cs1 c cs2,
    focus h lo hi ks cs k ks1 ks2 cs1 c cs2
    /\ descend_index (internal_node (pid_of <$> cs) ks) k = length cs1
    /\ sdb_btree_child_at (internal_node (pid_of <$> cs) ks) (length cs1) = pid_of c.
Proof.
  cbn [wf_tree]; intros (_ & Hs & HF & Hk) Hw; pose proof (kids_length _ _ _ _ _ Hk) as Hl.
  assert (Hl' : length (pid_of <$> cs) = S (length ks)) by by rewrite length_fmap.
  destruct (descend_index_spec (internal_node (pid_of <$> cs) ks) k) as (Hi & Hle & Hgt).
  { by apply internal_node_sorted. }
  rewrite internal_node_keys in Hle, Hgt by done; rewrite internal_node_count in Hi by done.
  destruct (kids_focus ks cs _ Hl Hi) as (ks1 & ks2 & cs1 & c & cs2 & Hks & Hcs & H1 & H2 & E1 & E2).
  rewrite <- E1 in Hle; rewrite <- E2 in Hgt; clear E1 E2.
  exists ks1, ks2, cs1, c, cs2; split_and!.
  - rewrite Hks, Hcs in Hk; apply kids_zip in Hk as (Hk1 & Hkc & Hk2); [|lia].
    split; try done; [lia|by apply within_focus|by eapply kids_left_below|by eapply kids_right_above].
  - lia.
  - rewrite internal_node_child, Hcs, fmap_app by (done || lia); cbn [fmap list_fmap].
    apply list_lookup_total_correct; rewrite lookup_app_r by (rewrite length_fmap; lia).
    by rewrite length_fmap, Nat.sub_diag.
Qed.

Lemma focus_flatten (h : nat) lo hi ks cs k ks1 ks2 cs1 c cs2 (p : Z) :
  focus h lo hi ks cs k ks1 ks2 cs1 c cs2 ->
  flatten (PNode p ks cs) = flat_map flatten cs1 ++ flatten c ++ flat_map flatten cs2.
Proof. intros [-> -> *]; cbn [flatten]; rewrite flat_map_app; done. Qed.

Lemma focus_lookup (h : nat) lo hi ks cs k ks1 ks2 cs1 c cs2 (p : Z) :
  focus h lo hi ks cs k ks1 ks2 cs1 c cs2 ->
  al_lookup k (flatten (PNode p ks cs)) = al_lookup k (flatten c).
Proof.
  intros Hf; rewrite (focus_flatten _ _ _ _ _ _ _ _ _ _ _ p Hf); destruct Hf.
  rewrite al_lookup_app by by apply lt_notin.
  apply al_lookup_app_l; by apply gt_notin.
Qed.

Lemma focus_insert (h : nat) lo hi ks cs k ks1 ks2 cs1 c cs2 (p : Z) (v : bytes) :
  focus h lo hi ks cs k ks1 ks2 cs1 c cs2 ->
  al_insert k v (flatten (PNode p ks cs))
    = flat_map flatten cs1 ++ al_insert k v (flatten c) ++ flat_map flatten cs2.
Proof.
  intros Hf; rewrite (focus_flatten _ _ _ _ _ _ _ _ _ _ _ p Hf); destruct Hf.
  by rewrite al_insert_app_l, al_insert_app_r.
Qed.

Lemma focus_delete (h : nat) lo hi ks cs k ks1 ks2 cs1 c cs2 (p : Z) :
  focus h lo hi ks cs k ks1 ks2 cs1 c cs2 ->
  al_delete k (flatten (PNode p ks cs))
    = flat_map flatten cs1 ++ al_delete k (flatten c) ++ flat_map flatten cs2.
Proof.
  intros Hf; rewrite (focus_flatten _ _ _ _ _ _ _ _ _ _ _ p Hf); destruct Hf.
  rewrite !al_delete_app, (al_delete_notin _ (flat_map flatten cs1)), (al_delete_notin _ (flat_map flatten cs2));
    [done|by apply gt_notin|by apply lt_notin].
Qed.

Lemma last_or_in (lo : option bytes) (ks : list bytes) :
  last_or lo ks = lo \/ exists k, k ∈ ks /\ last_or lo ks = Some k.
Proof.
  revert lo; induction ks as [|k ks IH]; intros lo; [by left|]; right; cbn [last_or].
  destruct (IH (Some k)) as [->|(x & Hx & ->)]; [exists k|exists x]; set_solver.
Qed.

Lemma inside_focus (lo hi : option bytes) (ks1 ks2 : list bytes) (k : bytes) :
  inside lo hi k -> Forall (fun x => key_lt x k) ks1 -> Forall (fun x => key_lt k x) ks2 ->
  inside (last_or lo ks1) (head_or hi ks2) k.
Proof.
  intros [Hl Hh] H1 H2; split.
  - destruct (last_or_in lo ks1) as [->|(x & Hx & ->)]; [done|].
    rewrite List.Forall_forall in H1; by apply H1, list_elem_of_In.
  - destruct ks2; cbn; [done|]; by apply Forall_cons_iff in H2 as [H2 _].
Qed.

Lemma last_or_lo_le (lo hi : option bytes) (ks : list bytes) :
  Forall (inside lo hi) ks -> lo_le lo (last_or lo ks).
Proof.
  intros HF; destruct (last_or_in lo ks) as [->|(x & Hx & ->)]; [apply lo_le_refl|].
  rewrite List.Forall_forall in HF; eapply within_lo_le, inside_within, HF; by apply list_elem_of_In.
Qed.

Lemma head_or_hi_le (lo hi : option bytes) (ks : list bytes) :
  Forall (inside lo hi) ks -> hi_le (head_or hi ks) hi.
Proof.
  destruct ks as [|k ks]; [intros; apply hi_le_refl|]; intros HF; apply Forall_cons_iff in HF as [HF _].
  cbn [head_or]; by eapply within_hi_le, inside_within.
Qed.
