(* ===== verification/Btree.v ===== *)
(** * The B-tree ([src/btree.h], [src/btree.c])

    The tree operations over the pager interface: point lookup, the batch (the
    staged nodes of one transaction), insertion with leaf and internal splits,
    deletion with reclamation of empty leaves and collapse of internal levels,
    and the commit of a batch.  A batch operation is a function on the batch in
    the state-and-error monad [batchM]; an error leaves the batch as the code
    leaves it, with the staging done so far. *)

From S2P Require Import Prelude Status Codec Keys Page BtreePage OrderedMap PagerInterface BtreeNode.

Definition SDB_BTREE_MAX_DEPTH : nat := 64.

Section Btree.
Context {P T : Type} `{!PagerOps P T}.

Record sdb_btree := {
  t_pager : P;
  t_root_page : Z;
  t_open : bool
}.

(** [sdb_btree_mutation]: a page and its staged payload. *)
Record sdb_btree_mutation := {
  m_page_id : Z;
  m_payload : bytes
}.

Record sdb_btree_batch := {
  b_root_page : Z;
  b_items : list sdb_btree_mutation;
  b_txn : T;
  b_failure : sdb_status;
  b_active : bool
}.

Definition b_pager (b : sdb_btree_batch) : P := txn_pager (b_txn b).
Definition b_capacity (b : sdb_btree_batch) : Z := pager_payload_capacity (b_pager b).

Definition set_items (b : sdb_btree_batch) (items : list sdb_btree_mutation) : sdb_btree_batch :=
  {| b_root_page := b_root_page b; b_items := items; b_txn := b_txn b;
     b_failure := b_failure b; b_active := b_active b |}.
Definition set_txn (b : sdb_btree_batch) (t : T) : sdb_btree_batch :=
  {| b_root_page := b_root_page b; b_items := b_items b; b_txn := t;
     b_failure := b_failure b; b_active := b_active b |}.
Definition set_failure (b : sdb_btree_batch) (s : sdb_status) : sdb_btree_batch :=
  {| b_root_page := b_root_page b; b_items := b_items b; b_txn := b_txn b;
     b_failure := s; b_active := b_active b |}.

(** ** The batch monad *)

Definition batchM (A : Type) : Type := sdb_btree_batch -> result A * sdb_btree_batch.

#[global] Instance batchM_ret : MRet batchM := fun A a b => (Ok a, b).
#[global] Instance batchM_bind : MBind batchM := fun A B k m b =>
  match m b with
  | (Ok a, b') => k a b'
  | (Err e, b') => (Err e, b')
  end.

Definition batch_fail {A} (e : sdb_status) : batchM A := fun b => (Err e, b).
Definition batch_lift {A} (r : result A) : batchM A := fun b => (r, b).
Definition batch_get {A} (f : sdb_btree_batch -> A) : batchM A := fun b => (Ok (f b), b).
Definition batch_modify (f : sdb_btree_batch -> sdb_btree_batch) : batchM unit := fun b => (Ok tt, f b).

(** ** Reading nodes *)

Definition sdb_btree_read_node (pager : P) (page_id : Z) : result sdb_btree_node :=
  view ← pager_read pager page_id;
  fail_if negb (view_type view =? SDB_PAGE_TYPE_DATA) with SDB_E_CORRUPT ;;
  sdb_btree_node_decode (view_payload view).

Definition sdb_btree_find_staged (b : sdb_btree_batch) (page_id : Z) : option sdb_btree_mutation :=
  snd <$> list_find (fun m => m_page_id m = page_id) (b_items b).

Definition sdb_btree_batch_read_node (b : sdb_btree_batch) (page_id : Z) : result sdb_btree_node :=
  match sdb_btree_find_staged b page_id with
  | Some m => sdb_btree_node_decode (m_payload m)
  | None => sdb_btree_read_node (b_pager b) page_id
  end.

Definition read_node (page_id : Z) : batchM sdb_btree_node :=
  fun b => (sdb_btree_batch_read_node b page_id, b).

(** ** Staging *)

Fixpoint stage_item (items : list sdb_btree_mutation) (page_id : Z) (payload : bytes)
  : list sdb_btree_mutation :=
  match items with
  | [] => [{| m_page_id := page_id; m_payload := payload |}]
  | m :: rest =>
      if m_page_id m =? page_id then {| m_page_id := m_page_id m; m_payload := payload |} :: rest
      else m :: stage_item rest page_id payload
  end.

Definition sdb_btree_stage (page_id : Z) (node : sdb_btree_node) : batchM unit := fun b =>
  match
    (payload_size ← sdb_btree_node_encoded_size node;
     fail_if payload_size >? b_capacity b with SDB_E_BUFFER_TOO_SMALL ;;
     sdb_btree_node_encode node payload_size)
  with
  | Err e => (Err e, b)
  | Ok payload => (Ok tt, set_items b (stage_item (b_items b) page_id payload))
  end.

Fixpoint unstage_item (items : list sdb_btree_mutation) (page_id : Z) : list sdb_btree_mutation :=
  match items with
  | [] => []
  | m :: rest => if m_page_id m =? page_id then rest else m :: unstage_item rest page_id
  end.

Definition sdb_btree_unstage (page_id : Z) : batchM unit :=
  batch_modify (fun b => set_items b (unstage_item (b_items b) page_id)).

Definition sdb_btree_txn_allocated (b : sdb_btree_batch) (page_id : Z) : bool :=
  existsb (fun p => p =? page_id) (txn_allocated_pages (b_txn b)).

Definition batch_allocate : batchM Z := fun b =>
  let '(r, t) := txn_allocate (b_txn b) in (r, set_txn b t).

Definition batch_free (page_id : Z) : batchM unit := fun b =>
  let '(r, t) := txn_free (b_txn b) page_id in (r, set_txn b t).

(** ** Point lookup

    [fuel] is [64 - depth]: the loop gives up with [SDB_E_CORRUPT] at depth 64.
    The result is the value found; copying it into a buffer of
    [value_capacity] bytes is the last step. *)

Fixpoint get_loop (fuel : nat) (read : Z -> result sdb_btree_node) (key : bytes)
    (value_capacity : Z) (page_id : Z) : result bytes :=
  match fuel with
  | O => Err SDB_E_CORRUPT
  | S fuel =>
      node ← read page_id;
      let position := sdb_btree_lower_bound node key in
      match n_kind node with
      | SDB_BTREE_LEAF =>
          fail_if negb (key_at_position node position key) with SDB_E_NOT_FOUND ;;
          let value := e_value (n_entries node !!! position) in
          fail_if value_capacity <? Z.of_nat (length value) with SDB_E_BUFFER_TOO_SMALL ;;
          Ok value
      | SDB_BTREE_INTERNAL =>
          get_loop fuel read key value_capacity (sdb_btree_child_at node (descend_index node key))
      end
  end.

Definition bad_key (key : bytes) : bool :=
  (Z.of_nat (length key) =? 0) || (Z.of_nat (length key) >? UINT16_MAX).

Definition sdb_btree_get (tree : sdb_btree) (key : bytes) (value_capacity : Z) : result bytes :=
  fail_if negb (t_open tree) || bad_key key with SDB_E_INVALID_ARGUMENT ;;
  get_loop SDB_BTREE_MAX_DEPTH (sdb_btree_read_node (t_pager tree)) key value_capacity (t_root_page tree).

Definition sdb_btree_batch_get (b : sdb_btree_batch) (key : bytes) (value_capacity : Z) : result bytes :=
  fail_if negb (b_active b) || negb (bool_decide (b_failure b = SDB_OK)) || bad_key key
    with SDB_E_INVALID_ARGUMENT ;;
  get_loop SDB_BTREE_MAX_DEPTH (sdb_btree_batch_read_node b) key value_capacity (b_root_page b).

(** ** Insertion *)

(** [sdb_btree_split]: [None] when the node was not split. *)
Definition sdb_btree_split : Type := option (bytes * Z).

Definition sdb_btree_split_leaf (page_id : Z) (left : sdb_btree_node) : batchM sdb_btree_split :=
  total ← batch_lift (total_entries_loop leaf_entry_size (n_entries left) 0);
  capacity ← batch_get b_capacity;
  let middle := split_leaf_loop capacity total (n_entries left) 1 0 0 SIZE_MAX in
  if (middle =? 0)%nat then batch_fail SDB_E_BUFFER_TOO_SMALL else
  let right := {| n_kind := SDB_BTREE_LEAF; n_right_sibling := n_right_sibling left;
                  n_first_child := 0; n_entries := drop middle (n_entries left) |} in
  right_page ← batch_allocate;
  let left := set_right_sibling (set_entries left (take middle (n_entries left))) right_page in
  _ ← sdb_btree_stage page_id left;
  _ ← sdb_btree_stage right_page right;
  mret (Some (e_key (n_entries right !!! 0%nat), right_page)).

Definition sdb_btree_split_internal (page_id : Z) (left : sdb_btree_node) : batchM sdb_btree_split :=
  total ← batch_lift (total_entries_loop internal_entry_size (n_entries left) 0);
  if (n_count left <? 3)%nat then batch_fail SDB_E_BUFFER_TOO_SMALL else
  capacity ← batch_get b_capacity;
  match split_internal_loop capacity total (drop 1 (n_entries left)) 1
          (internal_entry_size (n_entries left !!! 0%nat)) None SIZE_MAX with
  | None => batch_fail SDB_E_BUFFER_TOO_SMALL
  | Some middle =>
      let promoted := n_entries left !!! middle in
      let right := {| n_kind := SDB_BTREE_INTERNAL; n_right_sibling := 0;
                      n_first_child := e_right_child promoted;
                      n_entries := drop (S middle) (n_entries left) |} in
      right_page ← batch_allocate;
      _ ← sdb_btree_stage page_id (set_entries left (take middle (n_entries left)));
      _ ← sdb_btree_stage right_page right;
      mret (Some (e_key promoted, right_page))
  end.

(** The part of [sdb_btree_insert_recursive] after the node was changed. *)
Definition store_or_split (page_id : Z) (node : sdb_btree_node) : batchM sdb_btree_split :=
  encoded_size ← batch_lift (sdb_btree_node_encoded_size node);
  capacity ← batch_get b_capacity;
  if encoded_size <=? capacity then _ ← sdb_btree_stage page_id node; mret None
  else if (n_count node <? 2)%nat then batch_fail SDB_E_BUFFER_TOO_SMALL
  else match n_kind node with
       | SDB_BTREE_LEAF => sdb_btree_split_leaf page_id node
       | SDB_BTREE_INTERNAL => sdb_btree_split_internal page_id node
       end.

Fixpoint sdb_btree_insert_recursive (fuel : nat) (page_id : Z) (key value : bytes)
  : batchM sdb_btree_split :=
  match fuel with
  | O => batch_fail SDB_E_CORRUPT
  | S fuel =>
      node ← read_node page_id;
      match n_kind node with
      | SDB_BTREE_LEAF => store_or_split page_id (sdb_btree_leaf_put node key value)
      | SDB_BTREE_INTERNAL =>
          let child_index := descend_index node key in
          child_split ← sdb_btree_insert_recursive fuel (sdb_btree_child_at node child_index) key value;
          store_or_split page_id
            match child_split with
            | Some (separator, right_page) =>
                sdb_btree_internal_insert node child_index separator right_page
            | None => node
            end
      end
  end.

(** The growth of the tree by one level: the left half, staged at the root page,
    moves to a new page. *)
Definition grow_root (separator : bytes) (right_page : Z) : batchM unit :=
  root_page ← batch_get b_root_page;
  left_at_root ← batch_get (fun b => sdb_btree_find_staged b root_page);
  match left_at_root with
  | None => batch_fail SDB_E_INTERNAL
  | Some m =>
      left ← batch_lift (sdb_btree_node_decode (m_payload m));
      left_page ← batch_allocate;
      _ ← sdb_btree_stage left_page left;
      sdb_btree_stage root_page
        {| n_kind := SDB_BTREE_INTERNAL; n_right_sibling := 0; n_first_child := left_page;
           n_entries := [{| e_key := separator; e_value := []; e_right_child := right_page |}] |}
  end.

(** A failing mutation leaves its status in [b_failure]. *)
Definition sticky {A} (m : batchM A) : batchM A := fun b =>
  match m b with
  | (Ok a, b') => (Ok a, b')
  | (Err e, b') => (Err e, set_failure b' e)
  end.

Definition sdb_btree_batch_put (key value : bytes) : batchM unit := fun b =>
  if negb (b_active b) || negb (bool_decide (b_failure b = SDB_OK)) || bad_key key
     || (Z.of_nat (length value) >? UINT32_MAX)
  then (Err SDB_E_INVALID_ARGUMENT, b)
  else sticky
    (root_split ← sdb_btree_insert_recursive SDB_BTREE_MAX_DEPTH (b_root_page b) key value;
     match root_split with
     | None => mret tt
     | Some (separator, right_page) => grow_root separator right_page
     end) b.

(** ** Deletion *)

(** One level of a descent: the internal page and the child taken. *)
Definition path_entry : Type := Z * nat.

(** The node that holds the sibling's entries, the separator and the survivor. *)
Definition combine_nodes (sibling_is_left : bool) (sibling : sdb_btree_node) (separator : bytes)
    (survivor_page : Z) : sdb_btree_node :=
  if sibling_is_left then
    {| n_kind := SDB_BTREE_INTERNAL; n_right_sibling := 0; n_first_child := n_first_child sibling;
       n_entries := n_entries sibling
         ++ [{| e_key := separator; e_value := []; e_right_child := survivor_page |}] |}
  else
    {| n_kind := SDB_BTREE_INTERNAL; n_right_sibling := 0; n_first_child := survivor_page;
       n_entries := {| e_key := separator; e_value := []; e_right_child := n_first_child sibling |}
         :: n_entries sibling |}.

(** The combined node does not fit: split it over the two pages and replace the
    separator in the parent. *)
Definition redistribute (parent_page left_page right_page : Z) (parent : sdb_btree_node)
    (sep_slot : nat) (combined : sdb_btree_node) : batchM unit :=
  capacity ← batch_get b_capacity;
  let total := foldl (fun t e => t + internal_entry_size e) 0 (n_entries combined) in
  match split_internal_loop capacity total (drop 1 (n_entries combined)) 1
          (internal_entry_size (n_entries combined !!! 0%nat)) None SIZE_MAX with
  | None => batch_fail SDB_E_BUFFER_TOO_SMALL
  | Some middle =>
      let promoted := n_entries combined !!! middle in
      let left_half := {| n_kind := SDB_BTREE_INTERNAL; n_right_sibling := 0;
                          n_first_child := n_first_child combined;
                          n_entries := take middle (n_entries combined) |} in
      let right_half := {| n_kind := SDB_BTREE_INTERNAL; n_right_sibling := 0;
                           n_first_child := e_right_child promoted;
                           n_entries := drop (S middle) (n_entries combined) |} in
      _ ← sdb_btree_stage left_page left_half;
      _ ← sdb_btree_stage right_page right_half;
      let old := n_entries parent !!! sep_slot in
      sdb_btree_stage parent_page
        (set_entries parent
           (<[sep_slot := {| e_key := e_key promoted; e_value := e_value old;
                             e_right_child := e_right_child old |}]> (n_entries parent)))
  end.

(** The parent, the neighbour and the combined node are known: merge if it fits,
    else redistribute.  [climb] is the recursive call one level up. *)
Definition merge_or_refill (climb : Z -> Z -> batchM unit) (node_page parent_page : Z) (node_slot : nat)
    (parent : sdb_btree_node) (sibling_is_left : bool) (sibling_page : Z) (sep_slot : nat)
    (combined : sdb_btree_node) : batchM unit :=
  let left_page := if sibling_is_left then sibling_page else node_page in
  let right_page := if sibling_is_left then node_page else sibling_page in
  combined_size ← batch_lift (sdb_btree_node_encoded_size combined);
  capacity ← batch_get b_capacity;
  root_page ← batch_get b_root_page;
  if combined_size <=? capacity then
    let root_collapse := (parent_page =? root_page) && (n_count parent =? 1)%nat in
    _ ← sdb_btree_stage (if root_collapse then root_page else sibling_page) combined;
    let parent := sdb_btree_remove_child parent node_slot in
    _ ← sdb_btree_unstage node_page;
    _ ← batch_free node_page;
    if root_collapse then
      _ ← sdb_btree_unstage sibling_page;
      batch_free sibling_page
    else if (0 <? n_count parent)%nat then sdb_btree_stage parent_page parent
    else climb parent_page (n_first_child parent)
  else redistribute parent_page left_page right_page parent sep_slot combined.

(** The internal node at [path !!! (node_depth - 1)]'s child has lost all but one
    child, [survivor_page]: merge it with a neighbour. *)
Fixpoint sdb_btree_reclaim_internal_up (path : list path_entry) (node_depth_in_path : nat)
    (node_page survivor_page : Z) : batchM unit :=
  match node_depth_in_path with
  | O => batch_fail SDB_E_CORRUPT
  | S up =>
      if (node_page =? 0) || (survivor_page =? 0) then batch_fail SDB_E_CORRUPT else
      let '(parent_page, node_slot) := path !!! up in
      if (parent_page =? 0) || (parent_page =? node_page) then batch_fail SDB_E_CORRUPT else
      parent ← read_node parent_page;
      if negb (bool_decide (n_kind parent = SDB_BTREE_INTERNAL))
         || (n_count parent <? node_slot)%nat || (n_count parent =? 0)%nat
      then batch_fail SDB_E_CORRUPT else
      let sep_slot := (node_slot - 1)%nat in
      let sibling_is_left := (1 <=? node_slot)%nat in
      let sibling_page :=
        sdb_btree_child_at parent (if sibling_is_left then node_slot - 1 else 1)%nat in
      if (sibling_page =? node_page) || (sibling_page =? 0) || (sibling_page =? parent_page)
         || (survivor_page =? parent_page) || (survivor_page =? sibling_page)
      then batch_fail SDB_E_CORRUPT else
      sibling ← read_node sibling_page;
      if negb (bool_decide (n_kind sibling = SDB_BTREE_INTERNAL)) then batch_fail SDB_E_CORRUPT else
      merge_or_refill (sdb_btree_reclaim_internal_up path up) node_page parent_page node_slot parent
        sibling_is_left sibling_page sep_slot
        (combine_nodes sibling_is_left sibling (e_key (n_entries parent !!! sep_slot)) survivor_page)
  end.

(** The descent to the rightmost leaf of the predecessor subtree; [fuel] is
    [64 - hops]. *)
Fixpoint relink_predecessor (fuel : nat) (predecessor_page leaf_right_sibling : Z) : batchM unit :=
  predecessor ← read_node predecessor_page;
  match n_kind predecessor, fuel with
  | SDB_BTREE_LEAF, _ =>
      sdb_btree_stage predecessor_page (set_right_sibling predecessor leaf_right_sibling)
  | SDB_BTREE_INTERNAL, O => batch_fail SDB_E_CORRUPT
  | SDB_BTREE_INTERNAL, S fuel =>
      relink_predecessor fuel (sdb_btree_child_at predecessor (n_count predecessor)) leaf_right_sibling
  end.

(** [for (level = depth; level > 0; --level)] *)
Fixpoint unlink_leaf (path : list path_entry) (level : nat) (leaf_right_sibling : Z) : batchM unit :=
  match level with
  | O => mret tt
  | S l =>
      let '(page, child_index) := path !!! l in
      match child_index with
      | O => unlink_leaf path l leaf_right_sibling
      | S i =>
          ancestor ← read_node page;
          relink_predecessor SDB_BTREE_MAX_DEPTH (sdb_btree_child_at ancestor i) leaf_right_sibling
      end
  end.

(** The root has one child left: its content moves into the root page. *)
Definition collapse_root (child_page : Z) : batchM unit :=
  root_page ← batch_get b_root_page;
  child ← read_node child_page;
  let child := match n_kind child with
               | SDB_BTREE_LEAF => set_right_sibling child 0
               | SDB_BTREE_INTERNAL => child
               end in
  _ ← sdb_btree_unstage child_page;
  _ ← batch_free child_page;
  sdb_btree_stage root_page child.

Definition sdb_btree_reclaim_empty_leaf (leaf_page leaf_right_sibling : Z)
    (path : list path_entry) (depth : nat) : batchM unit :=
  let '(parent_page, parent_child) := path !!! (depth - 1)%nat in
  _ ← unlink_leaf path depth leaf_right_sibling;
  parent ← read_node parent_page;
  if negb (bool_decide (n_kind parent = SDB_BTREE_INTERNAL)) || (n_count parent =? 0)%nat
     || (n_count parent <? parent_child)%nat
  then batch_fail SDB_E_CORRUPT else
  let parent := sdb_btree_remove_child parent parent_child in
  _ ← sdb_btree_unstage leaf_page;
  _ ← batch_free leaf_page;
  root_page ← batch_get b_root_page;
  if negb (n_count parent =? 0)%nat then sdb_btree_stage parent_page parent
  else if parent_page =? root_page then collapse_root (n_first_child parent)
  else if (2 <=? depth)%nat then
    sdb_btree_reclaim_internal_up path (depth - 1) parent_page (n_first_child parent)
  else batch_fail SDB_E_CORRUPT.

(** The leaf reached: [false] when it has no such key. *)
Definition delete_at_leaf (page_id : Z) (node : sdb_btree_node) (key : bytes)
    (path : list path_entry) : batchM bool :=
  let position := sdb_btree_lower_bound node key in
  if negb (key_at_position node position key) then mret false else
  _ ← sdb_btree_stage page_id (set_entries node (delete position (n_entries node)));
  root_page ← batch_get b_root_page;
  allocated ← batch_get (fun b => sdb_btree_txn_allocated b page_id);
  if (0 <? length path)%nat && negb (page_id =? root_page) && negb allocated then
    check ← read_node page_id;
    if (n_count check =? 0)%nat then
      _ ← sdb_btree_reclaim_empty_leaf page_id (n_right_sibling node) path (length path);
      mret true
    else mret true
  else mret true.

(** [fuel] is [64 - depth]; the depth check comes after the leaf case. *)
Fixpoint delete_loop (fuel : nat) (page_id : Z) (key : bytes) (path : list path_entry) : batchM bool :=
  node ← read_node page_id;
  match n_kind node, fuel with
  | SDB_BTREE_LEAF, _ => delete_at_leaf page_id node key path
  | SDB_BTREE_INTERNAL, O => batch_fail SDB_E_CORRUPT
  | SDB_BTREE_INTERNAL, S fuel =>
      let position := descend_index node key in
      delete_loop fuel (sdb_btree_child_at node position) key (path ++ [(page_id, position)])
  end.

Definition sdb_btree_batch_delete (key : bytes) : batchM unit := fun b =>
  if negb (b_active b) || negb (bool_decide (b_failure b = SDB_OK)) || bad_key key
  then (Err SDB_E_INVALID_ARGUMENT, b)
  else match sticky (delete_loop SDB_BTREE_MAX_DEPTH (b_root_page b) key []) b with
       | (Ok true, b') => (Ok tt, b')
       | (Ok false, b') => (Err SDB_E_NOT_FOUND, b')
       | (Err e, b') => (Err e, b')
       end.

(** ** Begin, commit, and the one-operation batches *)

Definition sdb_btree_batch_begin (tree : sdb_btree) : result sdb_btree_batch :=
  fail_if negb (t_open tree) with SDB_E_INVALID_ARGUMENT ;;
  txn ← txn_begin (t_pager tree);
  Ok {| b_root_page := t_root_page tree; b_items := []; b_txn := txn;
        b_failure := SDB_OK; b_active := true |}.

Fixpoint put_items (items : list sdb_btree_mutation) (txn : T) : result unit * T :=
  match items with
  | [] => (Ok tt, txn)
  | m :: rest =>
      match txn_put txn (m_page_id m) SDB_PAGE_TYPE_DATA (m_payload m) with
      | (Ok _, txn) => put_items rest txn
      | (Err e, txn) => (Err e, txn)
      end
  end.

(** The status and the pager afterwards; the batch is gone. *)
Definition sdb_btree_batch_commit (b : sdb_btree_batch) : sdb_status * P :=
  if negb (b_active b) then (SDB_E_INVALID_ARGUMENT, b_pager b) else
  if negb (bool_decide (b_failure b = SDB_OK)) then (b_failure b, txn_abort (b_txn b)) else
  if (length (b_items b) =? 0)%nat then (SDB_OK, txn_abort (b_txn b)) else
  match put_items (b_items b) (b_txn b) with
  | (Ok _, txn) => let '(r, pager) := txn_commit txn in (status_of r, pager)
  | (Err e, txn) => (e, txn_abort txn)
  end.

Definition sdb_btree_batch_abort (b : sdb_btree_batch) : P := txn_abort (b_txn b).

Definition one_operation (tree : sdb_btree) (op : batchM unit) : sdb_status * P :=
  match sdb_btree_batch_begin tree with
  | Err e => (e, t_pager tree)
  | Ok batch =>
      match op batch with
      | (Ok _, batch) => sdb_btree_batch_commit batch
      | (Err e, batch) => (e, sdb_btree_batch_abort batch)
      end
  end.

Definition sdb_btree_put (tree : sdb_btree) (key value : bytes) : sdb_status * P :=
  one_operation tree (sdb_btree_batch_put key value).

Definition sdb_btree_delete (tree : sdb_btree) (key : bytes) : sdb_status * P :=
  one_operation tree (sdb_btree_batch_delete key).

(** [sdb_btree_open] *)
Definition sdb_btree_open (pager : P) : result sdb_btree :=
  fail_if negb (pager_usable pager) || (pager_root_page pager =? 0) with SDB_E_INVALID_ARGUMENT ;;
  let tree := {| t_pager := pager; t_root_page := pager_root_page pager; t_open := true |} in
  _ ← sdb_btree_read_node pager (t_root_page tree);
  Ok tree.

End Btree.
