(* ===== verification/BtreeGet.v ===== *)
(** * Point lookup is map lookup

    [sdb_btree_get] and [sdb_btree_batch_get] on pages that represent a
    well-formed tree return the value the tree's contents bind to the key. *)

From stdpp Require Import gmap.
From S2P Require Import Prelude Status Keys Page BtreePage OrderedMap PagerInterface BtreeNode BtreeTree Btree.

(** What a lookup with an output buffer of [capacity] bytes returns for the
    looked-up binding. *)
Definition lookup_result (v : option bytes) (capacity : Z) : result bytes :=
  match v with
  | None => Err SDB_E_NOT_FOUND
  | Some v => if capacity <? Z.of_nat (length v) then Err SDB_E_BUFFER_TOO_SMALL else Ok v
  end.

Lemma get_loop_spec (read : Z -> result sdb_btree_node) (capacity : Z) (k : bytes)
    (h fuel : nat) (lo hi : option bytes) (t : ptree) :
  wf_tree h lo hi t -> repr read t -> within lo hi k -> (h < fuel)%nat ->
  get_loop fuel read k capacity (pid_of t) = lookup_result (al_lookup k (flatten t)) capacity.
Proof.
  revert fuel lo hi t; induction h as [|h IH]; intros [|fuel] lo hi [p s l|p ks cs] Hwf Hr Hw Hf;
    try done; try lia.
  - destruct Hwf as [Hs _]; cbn [get_loop pid_of]; apply repr_root in Hr as Hn; cbn [pid_of] in Hn.
    rewrite Hn; cbn [mbind result_bind node_of flatten].
    rewrite (leaf_lookup_spec s l k Hs); change (n_kind (leaf_node s l)) with SDB_BTREE_LEAF; cbn match.
    destruct (key_at_position _ _ _); cbn [negb check]; [|done].
    unfold check, lookup_result; done.
  - destruct (descend_focus _ _ _ _ _ _ _ Hwf Hw) as (ks1 & ks2 & cs1 & c & cs2 & Hfo & Hi & Hc).
    rewrite (focus_lookup _ _ _ _ _ _ _ _ _ _ _ _ Hfo).
    apply repr_node in Hr as [Hn Hr]; cbn [get_loop pid_of]; rewrite Hn; cbn [mbind result_bind].
    change (n_kind (internal_node _ _)) with SDB_BTREE_INTERNAL; cbn match; rewrite Hi, Hc.
    destruct Hfo; eapply IH; [done| |done|lia].
    subst cs; apply Forall_app in Hr as [_ Hr]; by apply Forall_cons_iff in Hr as [Hr _].
Qed.
