(* ===== verification/BtreeBatch.v ===== *)
(** * The staging area of a batch

    What one staging, unstaging, allocation or release does to the nodes a batch
    reads.  [extends b b' X] is the frame every mutation of the tree is proved
    with: it changed only pages of [X]. *)

From S2P Require Import Prelude Status Codec Keys Page BtreePage OrderedMap PagerInterface BtreeNode BtreeTree Btree.

Section Batch.
Context {P T : Type} `{!PagerOps P T} `{!PagerLaws P T}.

Implicit Types b : sdb_btree_batch (T := T).

Abbreviation rd := sdb_btree_batch_read_node.

Definition staged b : list Z := m_page_id <$> b_items b.

(** The invariant of the batch itself. *)
Record batch_ok b : Prop := {
  bo_txn : txn_ok (b_txn b);
  bo_items : NoDup (staged b);
  bo_clean : forall q, txn_in_use (b_txn b) q -> txn_staged (b_txn b) q = None;
  bo_origin : forall q, txn_in_use (b_txn b) q -> pager_in_use (b_pager b) q \/ q ∈ txn_allocated_pages (b_txn b)
}.

Record extends b b' (X : list Z) : Prop := {
  ex_ok : batch_ok b';
  ex_read : forall q, q ∉ X -> rd b' q = rd b q;
  ex_use : forall q, txn_in_use (b_txn b') q -> txn_in_use (b_txn b) q \/ q ∈ X;
  ex_use' : forall q, txn_in_use (b_txn b) q -> txn_in_use (b_txn b') q;
  ex_alloc : forall q, q ∈ txn_allocated_pages (b_txn b') -> q ∈ txn_allocated_pages (b_txn b) \/ q ∈ X;
  ex_staged : forall q, q ∈ staged b' -> q ∈ staged b \/ q ∈ X;
  ex_staged' : forall q, q ∈ staged b -> q ∈ staged b';
  ex_pager : pager_eqv (b_pager b') (b_pager b);
  ex_root : b_root_page b' = b_root_page b;
  ex_active : b_active b' = b_active b;
  ex_failure : b_failure b' = b_failure b
}.

Lemma extends_refl b : batch_ok b -> extends b b [].
Proof. by split; auto. Qed.

Lemma extends_trans b1 b2 b3 (X Y : list Z) :
  extends b1 b2 X -> extends b2 b3 Y -> extends b1 b3 (X ++ Y).
Proof.
  intros [? R1 U1 U1' A1 S1 S1' C1 O1 V1 F1] [? R2 U2 U2' A2 S2 S2' C2 O2 V2 F2].
  split; try done; try congruence; try (by etrans); intros q; rewrite ?not_elem_of_app, ?elem_of_app.
  - intros [Hx Hy]; by rewrite R2, R1.
  - intros Hq; apply U2 in Hq as [Hq|Hq]; [apply U1 in Hq as [Hq|Hq]|]; tauto.
  - auto.
  - intros Hq; apply A2 in Hq as [Hq|Hq]; [apply A1 in Hq as [Hq|Hq]|]; tauto.
  - intros Hq; apply S2 in Hq as [Hq|Hq]; [apply S1 in Hq as [Hq|Hq]|]; tauto.
  - auto.
Qed.

(** What no operation on the tree changes. *)
Record same_env b b' : Prop := {
  se_pager : pager_eqv (b_pager b') (b_pager b);
  se_root : b_root_page b' = b_root_page b;
  se_active : b_active b' = b_active b;
  se_failure : b_failure b' = b_failure b
}.

Lemma same_env_refl b : same_env b b.
Proof. by split. Qed.

Lemma same_env_trans b1 b2 b3 : same_env b1 b2 -> same_env b2 b3 -> same_env b1 b3.
Proof. intros [] []; split; try congruence; by etrans. Qed.

Lemma extends_env b b' (X : list Z) : extends b b' X -> same_env b b'.
Proof. intros []; by split. Qed.

(** ** The monad *)

Lemma bind_inv {A B} (m : batchM (T := T) A) (k : A -> batchM B) b (x : B) b' :
  (m ≫= k) b = (Ok x, b') -> exists a b1, m b = (Ok a, b1) /\ k a b1 = (Ok x, b').
Proof.
  unfold mbind, batchM_bind; destruct (m b) as [[a|e] b1]; [|done]; intros H; by exists a, b1.
Qed.

Lemma lift_inv {A} (r : result A) b (x : A) b' :
  batch_lift r b = (Ok x, b') -> r = Ok x /\ b' = b.
Proof. unfold batch_lift; intros H; injection H as -> ->; done. Qed.

Lemma get_inv {A} (f : sdb_btree_batch -> A) b (x : A) b' :
  batch_get f b = (Ok x, b') -> x = f b /\ b' = b.
Proof. unfold batch_get; intros H; injection H as <- ->; done. Qed.

Lemma read_inv (p : Z) b (n : sdb_btree_node) b' :
  read_node p b = (Ok n, b') -> rd b p = Ok n /\ b' = b.
Proof. unfold read_node; intros H; injection H as H ->; done. Qed.

Lemma ret_inv {A} (a : A) b (x : A) b' :
  (mret a : batchM A) b = (Ok x, b') -> x = a /\ b' = b.
Proof. intros H; injection H as <- ->; done. Qed.

(** ** Decoded nodes *)

Lemma read_node_wf b (p : Z) (n : sdb_btree_node) : rd b p = Ok n -> node_wf n.
Proof.
  unfold sdb_btree_batch_read_node, sdb_btree_read_node; destruct (sdb_btree_find_staged b p).
  - intros H; by apply node_decode_iff in H as [H _].
  - intros H; apply bind_Ok in H as (v & _ & H); apply check_Ok in H as [_ H].
    by apply node_decode_iff in H as [H _].
Qed.

(** ** Staged items *)

Lemma find_staged_None b (p : Z) : sdb_btree_find_staged b p = None <-> p ∉ staged b.
Proof.
  unfold sdb_btree_find_staged, staged; rewrite fmap_None, list_find_None, List.Forall_forall.
  setoid_rewrite <- list_elem_of_In; rewrite list_elem_of_fmap; naive_solver.
Qed.

Lemma find_item_stage (items : list sdb_btree_mutation) (p q : Z) (payload : bytes) :
  snd <$> list_find (fun m => m_page_id m = q) (stage_item items p payload)
    = if bool_decide (q = p) then Some {| m_page_id := p; m_payload := payload |}
      else snd <$> list_find (fun m => m_page_id m = q) items.
Proof.
  induction items as [|m items IH]; cbn [stage_item].
  - cbn [list_find]; case_bool_decide as E; [subst; by rewrite decide_True|].
    by rewrite decide_False by (cbn [m_page_id]; congruence).
  - destruct (Z.eqb_spec (m_page_id m) p) as [E|E]; cbn [list_find m_page_id].
    + case_bool_decide as Eq; [subst q; by rewrite decide_True by done; rewrite <- E|].
      by rewrite !decide_False by congruence.
    + destruct (decide (m_page_id m = q)) as [<-|Hq]; [by rewrite bool_decide_eq_false_2|].
      revert IH; rewrite <- !option_fmap_compose; cbn.
      destruct (list_find _ (stage_item _ _ _)) as [[]|], (list_find _ items) as [[]|]; done.
Qed.

Lemma staged_stage (items : list sdb_btree_mutation) (p : Z) (payload : bytes) :
  m_page_id <$> stage_item items p payload
    = if bool_decide (p ∈ m_page_id <$> items) then m_page_id <$> items
      else (m_page_id <$> items) ++ [p].
Proof.
  induction items as [|m items IH]; cbn [stage_item].
  - by rewrite bool_decide_eq_false_2 by set_solver.
  - destruct (Z.eqb_spec (m_page_id m) p) as [E|E]; rewrite !fmap_cons; cbn [m_page_id].
    + by rewrite bool_decide_eq_true_2 by (rewrite E; left).
    + rewrite IH; repeat case_bool_decide; try done; set_solver.
Qed.

Lemma staged_set_items b (items : list sdb_btree_mutation) :
  staged (set_items b items) = m_page_id <$> items.
Proof. done. Qed.

Lemma stage_extends b (p : Z) (payload : bytes) :
  batch_ok b -> extends b (set_items b (stage_item (b_items b) p payload)) [p].
Proof.
  intros [Ht Hn Hcl Hor]; unfold staged in Hn; split; try done; auto.
  - split; [done| |done|done]; unfold staged; cbn [set_items b_items]; rewrite staged_stage.
    case_bool_decide as E; [done|]; apply list.NoDup_app; split_and!; [done| |by apply NoDup_singleton].
    intros x Hx Hx'; apply list_elem_of_singleton in Hx' as ->; done.
  - intros q Hq; rewrite list_elem_of_singleton in Hq.
    unfold sdb_btree_batch_read_node, sdb_btree_find_staged; cbn [set_items b_items].
    by rewrite find_item_stage, bool_decide_eq_false_2.
  - intros q; unfold staged; cbn [set_items b_items]; rewrite staged_stage.
    case_bool_decide; rewrite ?elem_of_app; tauto.
  - intros q; unfold staged; cbn [set_items b_items]; rewrite staged_stage.
    case_bool_decide; rewrite ?elem_of_app; tauto.
Qed.

Lemma stage_spec b (p : Z) (node : sdb_btree_node) b' :
  batch_ok b -> node_typed node -> sdb_btree_stage p node b = (Ok tt, b') ->
  extends b b' [p] /\ p ∈ staged b' /\ rd b' p = Ok node /\ node_wf node.
Proof.
  intros Hb Ht H; unfold sdb_btree_stage in H.
  destruct (_ ≫= _) as [payload|e] eqn:E; [|done]; injection H as <-.
  inv_ok E; apply node_encode_inv in E as (Hwf & -> & _); [|done].
  split_and!; [by apply stage_extends| | |done].
  - unfold staged; cbn [set_items b_items]; rewrite staged_stage; case_bool_decide; [done|].
    apply elem_of_app; right; left.
  - unfold sdb_btree_batch_read_node, sdb_btree_find_staged; cbn [set_items b_items].
    rewrite find_item_stage, bool_decide_eq_true_2 by done; cbn [m_payload].
    by apply node_decode_iff.
Qed.

(** ** Allocation *)

Lemma rd_set_txn b (t : T) :
  pager_eqv (txn_pager t) (txn_pager (b_txn b)) ->
  forall q, rd (set_txn b t) q = rd b q.
Proof.
  intros Hr q; unfold sdb_btree_batch_read_node, sdb_btree_find_staged, sdb_btree_read_node, b_pager.
  cbn [set_txn b_items b_txn]; by rewrite (pager_read_proper _ _ Hr q q eq_refl).
Qed.

Lemma allocate_spec b (p : Z) b' :
  batch_ok b -> batch_allocate b = (Ok p, b') ->
  extends b b' [p] /\ ~ txn_in_use (b_txn b) p /\ txn_in_use (b_txn b') p /\ 0 < p < 2 ^ 64
  /\ (forall q, rd b' q = rd b q).
Proof.
  intros [Ht Hn Hcl Hor] H; unfold batch_allocate in H.
  destruct (txn_allocate (b_txn b)) as [r t] eqn:E; injection H as -> <-.
  destruct (allocate_law _ _ _ Ht E) as (Ht' & Hf & Hu & Ha & Hsp & Hso).
  pose proof (allocate_pager (b_txn b)) as Hr; rewrite E in Hr; cbn [snd] in Hr.
  assert (Hup : txn_in_use t p) by (apply Hu; by right).
  pose proof (in_use_range _ _ Ht' Hup); split_and!; try done; try lia; [|by apply rd_set_txn].
  split; try done; auto; cbn [set_txn b_txn].
  - split; [done|done| |]; cbn [set_txn b_txn]; intros q Hq; apply Hu in Hq.
    + destruct (decide (q = p)) as [->|Hne]; [done|]; rewrite Hso by done; apply Hcl; tauto.
    + unfold b_pager; cbn [set_txn b_txn]; rewrite Ha, Hr; destruct Hq as [Hq|Hq]; [|tauto].
      apply Hor in Hq; unfold b_pager in Hq; tauto.
  - intros q _; by apply rd_set_txn.
  - intros q Hq; apply Hu in Hq as [Hq| ->]; [by left|by right; left].
  - intros q Hq; apply Hu; by left.
  - intros q Hq; apply Ha in Hq as [Hq| ->]; [by left|by right; left].
Qed.
End Batch.

(** Decompose a successful run. *)
Ltac inv_batch H :=
  repeat match type of H with
  | (_ ≫= _) _ = (Ok _, _) =>
      let a := fresh "a" in let b1 := fresh "b" in let H1 := fresh "Hb" in
      apply bind_inv in H as (a & b1 & H1 & H)
  | batch_fail _ _ = (Ok _, _) => discriminate H
  end.
