(* ===== verification/BtreeInsert.v ===== *)
(** * Insertion refines map insertion

    [sdb_btree_insert_recursive] on a represented well-formed subtree returns a
    forest of one or two well-formed trees over the same key range that holds the
    old contents with the new binding, keeps the leaf chain, touches only pages of
    the subtree and freshly allocated ones.  [sdb_btree_batch_put] adds the growth
    of the root. *)

From S2P Require Import Prelude Status Codec Keys Page BtreePage OrderedMap PagerInterface BtreeNode BtreeTree Btree BtreeBatch.

(** ** Lists of pages and leaves *)

Lemma elem_of_flat_map {A B} (f : A -> list B) (l : list A) (y : B) :
  y ∈ flat_map f l <-> exists x, x ∈ l /\ y ∈ f x.
Proof.
  rewrite list_elem_of_In, in_flat_map; setoid_rewrite <- list_elem_of_In; done.
Qed.

Lemma first_pid_app (l1 l2 : list (Z * Z * list kv)) (n : Z) :
  first_pid (l1 ++ l2) n = first_pid l1 (first_pid l2 n).
Proof. by destruct l1. Qed.

Lemma sib_chain_app (l1 l2 : list (Z * Z * list kv)) (n : Z) :
  sib_chain (l1 ++ l2) n <-> sib_chain l1 (first_pid l2 n) /\ sib_chain l2 n.
Proof.
  induction l1 as [|l l1 IH]; cbn [app sib_chain]; [tauto|].
  rewrite IH, first_pid_app; tauto.
Qed.

Lemma kids_left_snoc Q (lo : option bytes) (ks : list bytes) (k : bytes) (cs : list ptree) (c : ptree) :
  length ks = length cs ->
  kids_left Q lo (ks ++ [k]) (cs ++ [c]) <-> kids_left Q lo ks cs /\ Q (last_or lo ks) (Some k) c.
Proof.
  revert lo cs; induction ks as [|k1 ks IH]; intros lo [|c1 cs] Hl; try done; cbn [app kids_left last_or].
  - tauto.
  - rewrite IH by (by injection Hl); tauto.
Qed.

Lemma kids_left_ok Q (lo : option bytes) (k : bytes) (ks : list bytes) (cs : list ptree) (c : ptree) :
  length ks = length cs ->
  kids_left Q lo ks cs -> Q (last_or lo ks) (Some k) c -> kids_ok Q lo (Some k) ks (cs ++ [c]).
Proof.
  intros Hl H1 H2; rewrite <- (app_nil_r ks); by apply kids_zip.
Qed.

(** Splitting a children list at a separator. *)
Lemma kids_split Q (lo hi : option bytes) (ks1 : list bytes) (k : bytes) (ks2 : list bytes)
    (cs1 cs2 : list ptree) :
  length cs1 = S (length ks1) ->
  kids_ok Q lo hi (ks1 ++ k :: ks2) (cs1 ++ cs2)
    <-> kids_ok Q lo (Some k) ks1 cs1 /\ kids_ok Q (Some k) hi ks2 cs2.
Proof.
  revert lo cs1; induction ks1 as [|k1 ks1 IH]; intros lo [|c1 cs1] Hl; try done.
  - destruct cs1; [|done]; cbn [app kids_ok]; done.
  - cbn [app kids_ok]; rewrite IH by (by injection Hl); tauto.
Qed.

(** Putting a forest where one child was. *)
Lemma kids_replace Q (lo hi : option bytes) (ks1 seps ks2 : list bytes) (cs1 trees cs2 : list ptree) :
  length ks1 = length cs1 ->
  kids_left Q lo ks1 cs1 -> kids_ok Q (last_or lo ks1) (head_or hi ks2) seps trees ->
  kids_right Q hi ks2 cs2 ->
  kids_ok Q lo hi (ks1 ++ seps ++ ks2) (cs1 ++ trees ++ cs2).
Proof.
  intros Hl H1 H2 H3; revert lo cs1 Hl H1 H2; induction ks1 as [|k1 ks1 IH]; intros lo [|c1 cs1] Hl H1 H2; try done.
  - cbn [app]; cbn [last_or] in H2; pose proof (kids_length _ _ _ _ _ H2) as Ht.
    destruct ks2 as [|k2 ks2]; cbn [head_or kids_right] in *.
    + subst cs2; by rewrite !app_nil_r.
    + by apply kids_split.
  - cbn [app kids_ok kids_left] in *; destruct H1 as [H1 H1']; split; [done|].
    apply IH; [by injection Hl|done|done].
Qed.

(** Strictly inside the range: what a separator that splits a subtree is. *)
Lemma inside_intro (lo hi : option bytes) (x k : bytes) :
  within lo hi x -> key_lt x k -> within lo hi k -> inside lo hi k.
Proof.
  intros [Hx _] Hlt [_ Hk]; split; [|done]; destruct lo; [|done]; by eapply key_le_lt_trans.
Qed.

Lemma last_or_upper (lo : option bytes) (ks : list bytes) (k : bytes) :
  StronglySorted key_lt ks -> over (last_or lo ks) k ->
  Forall (fun x => key_lt x k) ks.
Proof.
  revert lo; induction ks as [|k1 ks IH]; intros lo Hs Hk; [constructor|].
  apply StronglySorted_inv in Hs as [Hs HF]; cbn [last_or] in Hk.
  pose proof (IH _ Hs Hk) as H; constructor; [|done]; clear IH.
  destruct ks as [|k2 ks]; [done|]; apply Forall_cons_iff in H as [H _].
  apply Forall_cons_iff in HF as [HF _]; by eapply key_lt_trans.
Qed.

Lemma head_or_lower (hi : option bytes) (ks : list bytes) (k : bytes) :
  StronglySorted key_lt ks -> below (head_or hi ks) k -> Forall (key_lt k) ks.
Proof.
  destruct ks as [|k1 ks]; cbn; [constructor|]; intros Hs Hk; apply StronglySorted_inv in Hs as [_ HF].
  constructor; [done|]; eapply Forall_impl; [|exact HF]; intros x; by apply key_lt_trans.
Qed.

(** A separator strictly between its neighbours keeps the separators sorted. *)
Lemma sorted_insert_seps (lo hi : option bytes) (ks1 ks2 seps : list bytes) :
  (length seps <= 1)%nat -> StronglySorted key_lt (ks1 ++ ks2) ->
  Forall (inside (last_or lo ks1) (head_or hi ks2)) seps ->
  StronglySorted key_lt (ks1 ++ seps ++ ks2).
Proof.
  intros Hl Hs HF; destruct seps as [|k [|? ?]]; [done| |cbn in Hl; lia].
  apply Forall_cons_iff in HF as [[H1 H2] _]; apply StronglySorted_app_iff in Hs as (Hs1 & Hs2 & H12).
  pose proof (last_or_upper _ _ _ Hs1 H1) as Hu; pose proof (head_or_lower _ _ _ Hs2 H2) as Hd.
  cbn [app]; apply StronglySorted_app_iff; split_and!; [done|by constructor|].
  rewrite List.Forall_forall in *; intros x Hx; constructor; [by apply Hu|by apply H12].
Qed.

(** ** Types of the nodes written *)

Lemma leaf_node_typed (s : Z) (l : list kv) : 0 <= s < 2 ^ 64 -> node_typed (leaf_node s l).
Proof.
  intros Hs; unfold node_typed, leaf_node; cbn [n_right_sibling n_first_child n_entries].
  split_and!; try lia; apply List.Forall_map, Forall_true; intros e; cbn; lia.
Qed.

Lemma internal_node_typed (ids : list Z) (ks : list bytes) :
  Forall (fun p => 0 < p < 2 ^ 64) ids -> node_typed (internal_node ids ks).
Proof.
  intros HF; unfold node_typed, internal_node; cbn [n_right_sibling n_first_child n_entries].
  split; [lia|split; [destruct HF; cbn; lia|]].
  destruct HF as [|p ids Hp HF]; cbn [tl]; [destruct ks; constructor|].
  apply List.Forall_forall; intros e Hin; apply list_elem_of_In, elem_of_lookup_zip_with in Hin
    as (i & k & c & -> & _ & Hc).
  apply (Forall_lookup_1 _ _ _ _ HF) in Hc; cbn; lia.
Qed.

(** ** Storing a node, split if it does not fit *)

Section Insert.
Context {P T : Type} `{!PagerOps P T} `{!PagerLaws P T}.

Implicit Types b : sdb_btree_batch (T := T).

Definition split_seps (r : sdb_btree_split) : list bytes :=
  match r with None => [] | Some (s, _) => [s] end.

Definition split_ids (p : Z) (r : sdb_btree_split) : list Z :=
  p :: match r with None => [] | Some (_, q) => [q] end.

(** The forest that replaces tree [t] after an operation that went from [b] to
    [b'] and touched the pages [X]; [l] is its contents. *)
Record stored b b' (t : ptree) (h : nat) (lo hi : option bytes) (l : list kv)
    (r : sdb_btree_split) (trees : list ptree) (X : list Z) : Prop := {
  st_ext : extends b b' X;
  st_staged : forall q, q ∈ X -> q ∈ staged b';
  st_in : forall q, q ∈ X -> q ∈ flat_map pids trees;
  st_fresh : forall q, q ∈ X -> q ∈ pids t \/ ~ txn_in_use (b_txn b) q;
  st_ids : pid_of <$> trees = split_ids (pid_of t) r;
  st_repr : Forall (repr (sdb_btree_batch_read_node b')) trees;
  st_wf : kids_ok (wf_tree h) lo hi (split_seps r) trees;
  st_inside : Forall (inside lo hi) (split_seps r);
  st_flatten : flat_map flatten trees = l;
  st_nodup : NoDup (flat_map pids trees);
  st_pids : forall q, q ∈ flat_map pids trees -> q ∈ pids t \/ q ∈ X;
  st_old : forall q, q ∈ pids t -> q ∈ flat_map pids trees;
  st_use : forall q, q ∈ flat_map pids trees -> txn_in_use (b_txn b') q;
  st_first : forall n, first_pid (flat_map leaves trees) n = first_pid (leaves t) n;
  st_chain : forall n, sib_chain (leaves t) n -> sib_chain (flat_map leaves trees) n
}.

(** A tree whose root page may still hold an older version of the root node. *)
Definition kids_repr (read : Z -> result sdb_btree_node) (t : ptree) : Prop :=
  match t with
  | PLeaf _ s _ => 0 <= s < 2 ^ 64
  | PNode _ _ cs => Forall (repr read) cs
  end.

Definition tree_pages b (t : ptree) : Prop :=
  NoDup (pids t) /\ Forall (txn_in_use (b_txn b)) (pids t).

Lemma in_use_typed b (ids : list Z) :
  batch_ok b -> Forall (txn_in_use (b_txn b)) ids -> Forall (fun p => 0 < p < 2 ^ 64) ids.
Proof.
  intros Hb HF; eapply Forall_impl; [|exact HF]; intros p Hp.
  pose proof (in_use_range _ _ (bo_txn _ Hb) Hp); lia.
Qed.

Lemma kids_pids (cs : list ptree) (Q : Z -> Prop) :
  Forall Q (flat_map pids cs) -> Forall Q (pid_of <$> cs).
Proof.
  rewrite Forall_flat_map; intros HF; apply List.Forall_map; eapply Forall_impl; [|exact HF].
  intros t Ht; rewrite List.Forall_forall in Ht; apply Ht; apply list_elem_of_In, pid_in_pids.
Qed.

Lemma node_of_typed b (t : ptree) (read : Z -> result sdb_btree_node) :
  batch_ok b -> tree_pages b t -> kids_repr read t -> node_typed (node_of t).
Proof.
  intros Hb [_ Hu] Hk; destruct t as [p s l|p ks cs]; cbn [node_of].
  - by apply leaf_node_typed.
  - apply internal_node_typed; rewrite pids_node in Hu; apply Forall_cons_iff in Hu as [_ Hu].
    eapply in_use_typed; [done|]; by apply kids_pids.
Qed.

Lemma repr_kids (read : Z -> result sdb_btree_node) (t : ptree) :
  read (pid_of t) = Ok (node_of t) ->
  match t with PLeaf _ _ _ => True | PNode _ _ cs => Forall (repr read) cs end ->
  repr read t.
Proof.
  destruct t as [p s l|p ks cs]; cbn [pid_of node_of]; intros H Hk.
  - constructor; [done|constructor].
  - by apply repr_node.
Qed.

(** The children's pages are not the root's. *)
Lemma kids_frame b b' (X : list Z) (cs : list ptree) :
  extends b b' X -> (forall q, q ∈ X -> q ∉ flat_map pids cs) ->
  Forall (repr (sdb_btree_batch_read_node b)) cs -> Forall (repr (sdb_btree_batch_read_node b')) cs.
Proof.
  intros He Hd HF; rewrite List.Forall_forall in *; intros t Ht; specialize (HF t Ht).
  eapply repr_frame; [|exact HF]; intros q Hq; apply (ex_read _ _ _ He); intros Hx.
  apply (Hd q Hx), elem_of_flat_map; exists t; split; [by apply list_elem_of_In|done].
Qed.

Lemma store_whole b b' (t : ptree) (h : nat) (lo hi : option bytes) :
  batch_ok b -> wf_tree h lo hi t -> tree_pages b t -> kids_repr (sdb_btree_batch_read_node b) t ->
  sdb_btree_stage (pid_of t) (node_of t) b = (Ok tt, b') ->
  stored b b' t h lo hi (flatten t) None [t] [pid_of t].
Proof.
  intros Hb Hwf Hp Hk H; apply stage_spec in H as (He & Hs & Hr & _); [|done|by eapply node_of_typed].
  destruct Hp as [Hnd Hu].
  split; cbn [flat_map split_seps split_ids fmap list_fmap]; rewrite ?app_nil_r; try done.
  - intros q Hq; apply list_elem_of_singleton in Hq as ->; done.
  - intros q Hq; apply list_elem_of_singleton in Hq as ->; apply pid_in_pids.
  - intros q Hq; apply list_elem_of_singleton in Hq as ->; left; apply pid_in_pids.
  - constructor; [|constructor]; apply repr_kids; [done|]; destruct t as [p s l|p ks cs]; [done|].
    eapply kids_frame; [exact He| |exact Hk]; intros q Hq; apply list_elem_of_singleton in Hq as ->.
    rewrite pids_node in Hnd; by apply list.NoDup_cons in Hnd as [Hnd _].
  - tauto.
  - rewrite List.Forall_forall in Hu; intros q Hq; apply (ex_use' _ _ _ He), Hu; by apply list_elem_of_In.
Qed.

Lemma split_leaf_middle (capacity : Z) (es : list sdb_btree_entry) :
  let m := split_leaf_loop capacity (sumZ leaf_entry_size es) es 1 0 0 SIZE_MAX in
  m <> 0%nat -> (1 <= m < length es)%nat.
Proof.
  cbv zeta; intros Hm; destruct (split_leaf_loop_inv capacity es [] 0 SIZE_MAX) as (best & _ & H).
  { split; [intros c Hc; cbn in Hc; lia|done]. }
  cbn [app length sumZ foldr] in H; change (sumZ leaf_entry_size []) with 0 in H.
  destruct (split_leaf_loop _ _ _ _ _ _ _) as [|m]; [done|]; cbn [some_nonzero] in H.
  destruct es; cbn in *; lia.
Qed.

Lemma split_internal_middle (capacity : Z) (e : sdb_btree_entry) (es : list sdb_btree_entry) (m : nat) :
  split_internal_loop capacity (sumZ internal_entry_size (e :: es)) es 1
    (internal_entry_size e) None SIZE_MAX = Some m ->
  (1 <= m)%nat /\ (S m < length (e :: es))%nat.
Proof.
  intros Hm; destruct (split_internal_loop_inv capacity es [e] None SIZE_MAX) as (best & _ & H).
  { cbn; lia. }
  { split; [intros c Hc; cbn in Hc; lia|done]. }
  cbn [app length] in H; rewrite sumZ_cons, (sumZ_cons _ e []) in H; rewrite sumZ_cons in Hm.
  change (sumZ internal_entry_size []) with 0 in H; rewrite Z.add_0_r, Hm in H; cbn [length]; lia.
Qed.

Lemma split_leaf_inv b b' (p s : Z) (l : list kv) (r : sdb_btree_split) :
  sdb_btree_split_leaf p (leaf_node s l) b = (Ok r, b') ->
  exists l1 k v l2 q b1 b2, l = l1 ++ (k, v) :: l2 /\ l1 <> [] /\ r = Some (k, q)
    /\ batch_allocate b = (Ok q, b1)
    /\ sdb_btree_stage p (leaf_node q l1) b1 = (Ok tt, b2)
    /\ sdb_btree_stage q (leaf_node s ((k, v) :: l2)) b2 = (Ok tt, b').
Proof.
  intros H; unfold sdb_btree_split_leaf in H; inv_batch H.
  apply lift_inv in Hb as [Hb ->]; apply get_inv in Hb0 as [-> ->].
  apply total_entries_loop_inv in Hb as ->; cbn [leaf_node n_entries] in H.
  set (es := leaf_entry <$> l) in *; cbn [Z.add] in H; cbv zeta in H.
  pose proof (split_leaf_middle (b_capacity b) es) as Hm; cbv zeta in Hm.
  destruct (split_leaf_loop _ _ _ _ _ _ _) as [|m] eqn:E; [done|]; cbn [Nat.eqb] in H.
  specialize (Hm ltac:(done)); inv_batch H; apply ret_inv in H as [-> ->].
  subst es; rewrite length_fmap in Hm.
  destruct (lookup_lt_is_Some_2 l (S m) ltac:(lia)) as [[k v] Hkv].
  exists (take (S m) l), k, v, (drop (S (S m)) l), a, b0, b1; split_and!.
  - symmetry; by apply take_drop_middle.
  - intros Hn; apply (f_equal length) in Hn; rewrite length_take in Hn; change (length []) with 0%nat in Hn; lia.
  - cbn [n_entries]; rewrite <- fmap_drop, (drop_S _ _ _ Hkv); done.
  - done.
  - destruct a0; rewrite <- Hb0; f_equal; unfold set_right_sibling, set_entries, leaf_node.
    cbn [n_kind n_first_child n_entries]; by rewrite fmap_take.
  - destruct a1; rewrite <- Hb1; f_equal; unfold leaf_node; rewrite <- (drop_S _ _ _ Hkv).
    by rewrite fmap_drop.
Qed.

Lemma split_internal_inv b b' (p : Z) (ids : list Z) (ks : list bytes) (r : sdb_btree_split) :
  length ids = S (length ks) ->
  sdb_btree_split_internal p (internal_node ids ks) b = (Ok r, b') ->
  exists m k q b1 b2, ks !! m = Some k /\ (1 <= m)%nat /\ (S m < length ks)%nat /\ r = Some (k, q)
    /\ batch_allocate b = (Ok q, b1)
    /\ sdb_btree_stage p (internal_node (take (S m) ids) (take m ks)) b1 = (Ok tt, b2)
    /\ sdb_btree_stage q (internal_node (drop (S m) ids) (drop (S m) ks)) b2 = (Ok tt, b').
Proof.
  intros Hl H; unfold sdb_btree_split_internal in H; inv_batch H.
  apply lift_inv in Hb as [Hb ->]; apply total_entries_loop_inv in Hb as ->.
  pose proof (internal_node_keys ids ks Hl) as Hkeys; unfold n_count in H.
  assert (Hle : length (n_entries (internal_node ids ks)) = length ks)
    by (rewrite <- Hkeys at 2; by rewrite length_fmap).
  set (es := n_entries (internal_node ids ks)) in *.
  destruct (Nat.ltb_spec (length es) 3) as [H3|H3]; [done|]; inv_batch H.
  apply get_inv in Hb as [-> ->]; cbn [Z.add] in H.
  destruct es as [|e0 es0] eqn:Ees; [cbn in H3; lia|].
  destruct (split_internal_loop _ _ _ _ _ _ _) as [m|] eqn:E; [|done].
  apply split_internal_middle in E as [Hm1 Hm2]; cbv zeta in H; inv_batch H.
  apply ret_inv in H as [-> ->]; rewrite <- Ees in *; clear Ees; subst es.
  cbn [length] in Hm2; rewrite length_drop, Hle in Hm2.
  destruct (lookup_lt_is_Some_2 ks m ltac:(lia)) as [k Hk]; exists m, k, a, b0, b1; split_and!; try done; try lia.
  - by rewrite (internal_node_entry ids ks Hl m k Hk).
  - destruct a0; rewrite <- Hb0; f_equal; by rewrite internal_take_spec.
  - destruct a1; rewrite <- Hb1; f_equal; rewrite <- internal_drop_spec by (done || lia); done.
Qed.

Definition kid_pids (t : ptree) : list Z :=
  match t with PLeaf _ _ _ => [] | PNode _ _ cs => flat_map pids cs end.

Lemma pids_kids (t : ptree) : pids t = pid_of t :: kid_pids t.
Proof. destruct t; [done|apply pids_node]. Qed.

Lemma kids_repr_frame b b' (X : list Z) (t : ptree) :
  extends b b' X -> (forall q, q ∈ X -> q ∉ kid_pids t) ->
  kids_repr (sdb_btree_batch_read_node b) t -> kids_repr (sdb_btree_batch_read_node b') t.
Proof. destruct t as [p s l|p ks cs]; cbn [kids_repr kid_pids]; [done|]; apply kids_frame. Qed.

Lemma repr_intro (read : Z -> result sdb_btree_node) (t : ptree) :
  read (pid_of t) = Ok (node_of t) -> kids_repr read t -> repr read t.
Proof. intros H Hk; apply repr_kids; [done|]; by destruct t. Qed.

Lemma store_two b b1 b2 b' (t t1 t2 : ptree) (h : nat) (lo hi : option bytes) (k : bytes) (q : Z) :
  batch_ok b -> tree_pages b t ->
  batch_allocate b = (Ok q, b1) ->
  sdb_btree_stage (pid_of t) (node_of t1) b1 = (Ok tt, b2) ->
  sdb_btree_stage q (node_of t2) b2 = (Ok tt, b') ->
  node_typed (node_of t1) -> node_typed (node_of t2) ->
  kids_repr (sdb_btree_batch_read_node b) t1 -> kids_repr (sdb_btree_batch_read_node b) t2 ->
  pid_of t1 = pid_of t -> pid_of t2 = q -> kid_pids t = kid_pids t1 ++ kid_pids t2 ->
  kids_ok (wf_tree h) lo hi [k] [t1; t2] -> inside lo hi k ->
  flatten t1 ++ flatten t2 = flatten t ->
  (forall n, first_pid (leaves t1 ++ leaves t2) n = first_pid (leaves t) n) ->
  (forall n, sib_chain (leaves t) n -> sib_chain (leaves t1 ++ leaves t2) n) ->
  stored b b' t h lo hi (flatten t) (Some (k, q)) [t1; t2] ([q] ++ [pid_of t] ++ [q]).
Proof.
  intros Hb [Hnd Hu] Ha Hs1 Hs2 Ht1 Ht2 Hr1 Hr2 Hp1 Hp2 Hkp Hwf Hw Hfl Hfi Hch.
  apply allocate_spec in Ha as (He1 & Hfr & Hq & Hqr & Hrd1); [|done].
  apply stage_spec in Hs1 as (He2 & Hst2 & Hn2 & _); [|apply He1|done].
  apply stage_spec in Hs2 as (He3 & Hst3 & Hn3 & _); [|apply He2|done].
  pose proof (extends_trans _ _ _ _ _ He1 (extends_trans _ _ _ _ _ He2 He3)) as He.
  rewrite pids_kids, Hkp in Hnd, Hu; apply list.NoDup_cons in Hnd as [Hpn Hnd].
  apply Forall_cons_iff in Hu as [Hup Hu]; pose proof Hu as Hu'; rewrite List.Forall_forall in Hu'.
  assert (Hqk : q ∉ kid_pids t1 ++ kid_pids t2) by (intros Hin; apply Hfr, Hu'; by apply list_elem_of_In).
  assert (Hqp : q <> pid_of t) by (intros ->; by apply Hfr).
  assert (HX : forall x, x ∈ [q] ++ [pid_of t] ++ [q] <-> x = q \/ x = pid_of t) by set_solver.
  rewrite not_elem_of_app in Hpn, Hqk.
  assert (Hk1 : kids_repr (sdb_btree_batch_read_node b') t1).
  { eapply kids_repr_frame; [exact He| |done]; intros x Hx; apply HX in Hx as [->| ->]; tauto. }
  assert (Hk2 : kids_repr (sdb_btree_batch_read_node b') t2).
  { eapply kids_repr_frame; [exact He| |done]; intros x Hx; apply HX in Hx as [->| ->]; tauto. }
  split; cbn [flat_map]; rewrite ?app_nil_r; try done.
  - intros x Hx; apply HX in Hx as [->| ->]; [done|]; by apply (ex_staged' _ _ _ He3).
  - intros x Hx; apply elem_of_app; apply HX in Hx as [->| ->]; [right|left].
    + rewrite <- Hp2; apply pid_in_pids.
    + rewrite <- Hp1; apply pid_in_pids.
  - intros x Hx; apply HX in Hx as [->| ->]; [by right|left; apply pid_in_pids].
  - cbn; by rewrite Hp1, Hp2.
  - constructor; [|constructor; [|constructor]]; apply repr_intro; try done.
    + rewrite Hp1, (ex_read _ _ _ He3); [done|]; by rewrite list_elem_of_singleton.
    + by rewrite Hp2.
  - constructor; [done|constructor].
  - rewrite !pids_kids, Hp1, Hp2; apply list.NoDup_app in Hnd as (Hn1 & Hd & Hn4).
    cbn [app]; apply list.NoDup_cons; split; [set_solver|]; apply list.NoDup_app; split_and!; [done| |].
    + set_solver.
    + apply list.NoDup_cons; split; [tauto|done].
  - intros x; rewrite !pids_kids, Hp1, Hp2, Hkp, HX; set_solver.
  - intros x; rewrite !pids_kids, Hp1, Hp2, Hkp; set_solver.
  - intros x Hx; destruct (decide (x = q)) as [->|Hne].
    + by apply (ex_use' _ _ _ He3), (ex_use' _ _ _ He2).
    + apply (ex_use' _ _ _ He); rewrite !pids_kids, Hp1, Hp2 in Hx.
      assert (x = pid_of t \/ x ∈ kid_pids t1 ++ kid_pids t2) as [->|Hin] by set_solver; [done|].
      apply Hu'; by apply list_elem_of_In.
Qed.

Lemma leaf_split_wf (lo hi : option bytes) (p s q s' : Z) (l1 : list kv) (k v : bytes) (l2 : list kv) :
  l1 <> [] -> wf_tree 0 lo hi (PLeaf p s (l1 ++ (k, v) :: l2)) ->
  kids_ok (wf_tree 0) lo hi [k] [PLeaf p q l1; PLeaf q s' ((k, v) :: l2)] /\ inside lo hi k.
Proof.
  intros Hn; cbn [wf_tree kids_ok]; rewrite fmap_app, fmap_cons, Forall_app, Forall_cons_iff; cbn [fst].
  intros (Hs & Hw1 & Hk & Hw2); apply key_sorted_app in Hs as (Hs1 & Hs2 & Hlt).
  rewrite fmap_cons in Hlt; cbn [fst] in Hlt; split_and!; try done.
  - rewrite List.Forall_forall in *; intros x Hx; specialize (Hlt x Hx).
    apply Forall_cons_iff in Hlt as [Hlt _]; split; [by apply Hw1|done].
  - constructor; [split; [apply key_le_refl|apply Hk]|].
    unfold key_sorted in Hs2; rewrite fmap_cons in Hs2; apply StronglySorted_inv in Hs2 as [_ Hs2].
    rewrite List.Forall_forall in *; intros x Hx; split; [by apply key_lt_le, Hs2|by apply Hw2].
  - destruct l1 as [|[k1 v1] l1]; [done|]; rewrite fmap_cons in *.
    apply Forall_cons_iff in Hw1 as [Hw1 _]; apply Forall_cons_iff in Hlt as [Hlt _].
    apply Forall_cons_iff in Hlt as [Hlt _]; exact (inside_intro _ _ _ _ Hw1 Hlt Hk).
Qed.

Lemma internal_split_wf (h : nat) (lo hi : option bytes) (p q : Z) (ks1 : list bytes) (k : bytes)
    (ks2 : list bytes) (cs1 cs2 : list ptree) :
  length cs1 = S (length ks1) -> ks1 <> [] -> ks2 <> [] ->
  wf_tree (S h) lo hi (PNode p (ks1 ++ k :: ks2) (cs1 ++ cs2)) ->
  kids_ok (wf_tree (S h)) lo hi [k] [PNode p ks1 cs1; PNode q ks2 cs2] /\ inside lo hi k.
Proof.
  intros Hl Hn1 Hn2; cbn [wf_tree kids_ok]; rewrite kids_split, Forall_app, Forall_cons_iff by done.
  intros (_ & Hs & (Hw1 & Hk & Hw2) & Hc1 & Hc2).
  apply StronglySorted_app_iff in Hs as (Hs1 & Hs2 & Hlt); apply StronglySorted_inv in Hs2 as [Hs2 Hgt].
  split_and!; try done.
  - rewrite List.Forall_forall in *; intros x Hx; specialize (Hlt x Hx).
    apply Forall_cons_iff in Hlt as [Hlt _]; split; [by apply Hw1|done].
  - rewrite List.Forall_forall in *; intros x Hx; split; [by apply Hgt|by apply Hw2].
Qed.

Lemma store_split_leaf b b' (p s : Z) (l : list kv) (lo hi : option bytes) (r : sdb_btree_split) :
  batch_ok b -> wf_tree 0 lo hi (PLeaf p s l) -> tree_pages b (PLeaf p s l) -> 0 <= s < 2 ^ 64 ->
  sdb_btree_split_leaf p (leaf_node s l) b = (Ok r, b') ->
  exists trees X, stored b b' (PLeaf p s l) 0 lo hi (flatten (PLeaf p s l)) r trees X.
Proof.
  intros Hb Hwf Hp Hs H.
  apply split_leaf_inv in H as (l1 & k & v & l2 & q & b1 & b2 & -> & Hn & -> & Ha & H1 & H2).
  pose proof (allocate_spec _ _ _ Hb Ha) as (_ & _ & _ & Hq & _).
  destruct (leaf_split_wf lo hi p s q s _ _ _ _ Hn Hwf) as [Hk Hw].
  eexists _, _; eapply (store_two b b1 b2 b' _ (PLeaf p q l1) (PLeaf q s ((k, v) :: l2))); try done.
  - by apply leaf_node_typed; lia.
  - by apply leaf_node_typed.
  - cbn [kids_repr]; lia.
Qed.

Lemma store_split_internal b b' (p : Z) (ks : list bytes) (cs : list ptree) (h : nat)
    (lo hi : option bytes) (r : sdb_btree_split) :
  batch_ok b -> wf_tree (S h) lo hi (PNode p ks cs) -> tree_pages b (PNode p ks cs) ->
  Forall (repr (sdb_btree_batch_read_node b)) cs ->
  sdb_btree_split_internal p (internal_node (pid_of <$> cs) ks) b = (Ok r, b') ->
  exists trees X, stored b b' (PNode p ks cs) (S h) lo hi (flatten (PNode p ks cs)) r trees X.
Proof.
  intros Hb Hwf Hp Hr H; pose proof Hwf as (_ & _ & _ & Hk); apply kids_length in Hk as Hl.
  apply split_internal_inv in H as (m & k & q & b1 & b2 & Hm & Hm1 & Hm2 & -> & Ha & H1 & H2);
    [|by rewrite length_fmap].
  rewrite <- fmap_take in H1; rewrite <- fmap_drop in H2.
  assert (Hc : cs = take (S m) cs ++ drop (S m) cs) by by rewrite take_drop.
  assert (Hks : ks = take m ks ++ k :: drop (S m) ks) by by rewrite take_drop_middle.
  assert (Hlt : length (take (S m) cs) = S (length (take m ks))) by (rewrite !length_take; lia).
  revert Hlt Hc Hks H1 H2; generalize (take (S m) cs) as cs1, (drop (S m) cs) as cs2.
  assert (Hn1 : take m ks <> []) by (destruct ks, m; try done; lia).
  assert (Hn2 : drop (S m) ks <> []).
  { intros E; apply (f_equal length) in E; rewrite length_drop in E; cbn in E; lia. }
  revert Hn1 Hn2; generalize (take m ks) as ks1, (drop (S m) ks) as ks2.
  intros ks1 ks2 Hn1 Hn2 cs1 cs2 Hlt -> -> H1 H2; clear Hm Hm1 Hm2 Hk Hl.
  destruct (internal_split_wf h lo hi p q _ _ _ _ _ Hlt Hn1 Hn2 Hwf) as [Hk Hw].
  destruct Hp as [Hnd Hu]; pose proof Hu as Hu'; rewrite pids_node in Hu'.
  apply Forall_cons_iff in Hu' as [_ Hu']; apply kids_pids, in_use_typed in Hu'; [|done].
  rewrite fmap_app in Hu'; apply Forall_app in Hu' as [Ht1 Ht2]; apply Forall_app in Hr as [Hr1 Hr2].
  eexists _, _; eapply (store_two b b1 b2 b' _ (PNode p ks1 cs1) (PNode q ks2 cs2)); try done.
  - by apply internal_node_typed.
  - by apply internal_node_typed.
  - cbn [kid_pids]; by rewrite flat_map_app.
  - cbn [flatten]; by rewrite flat_map_app.
  - intros n; cbn [leaves]; by rewrite flat_map_app.
  - intros n; cbn [leaves]; by rewrite flat_map_app.
Qed.

Lemma store_or_split_spec b b' (t : ptree) (h : nat) (lo hi : option bytes) (r : sdb_btree_split) :
  batch_ok b -> wf_tree h lo hi t -> tree_pages b t -> kids_repr (sdb_btree_batch_read_node b) t ->
  store_or_split (pid_of t) (node_of t) b = (Ok r, b') ->
  exists trees X, stored b b' t h lo hi (flatten t) r trees X.
Proof.
  intros Hb Hwf Hp Hk H; unfold store_or_split in H; inv_batch H.
  apply lift_inv in Hb0 as [_ ->]; apply get_inv in Hb1 as [-> ->].
  destruct (_ <=? _).
  { inv_batch H; apply ret_inv in H as [-> ->]; destruct a0.
    eexists _, _; by apply store_whole. }
  destruct (_ <? _)%nat; [done|]; destruct t as [p s l|p ks cs]; cbn [node_of leaf_node internal_node n_kind] in H.
  - destruct h; [|done]; by eapply store_split_leaf.
  - destruct h; [done|]; by eapply store_split_internal.
Qed.

(** ** Composing steps *)

Lemma stored_compose b b1 b' (t t1 : ptree) (h : nat) (lo hi : option bytes) (l : list kv)
    (r : sdb_btree_split) (trees : list ptree) (X1 X2 : list Z) :
  extends b b1 X1 -> (forall q, q ∈ X1 -> q ∈ staged b1) -> (forall q, q ∈ X1 -> q ∈ pids t1) ->
  (forall q, q ∈ X1 -> q ∈ pids t \/ ~ txn_in_use (b_txn b) q) ->
  pid_of t1 = pid_of t ->
  (forall q, q ∈ pids t1 -> q ∈ pids t \/ q ∈ X1) -> (forall q, q ∈ pids t -> q ∈ pids t1) ->
  (forall n, first_pid (leaves t1) n = first_pid (leaves t) n) ->
  (forall n, sib_chain (leaves t) n -> sib_chain (leaves t1) n) ->
  stored b1 b' t1 h lo hi l r trees X2 -> stored b b' t h lo hi l r trees (X1 ++ X2).
Proof.
  intros He Hst Hin Hfr Hp Hp1 Hp2 Hf Hc [E S SI F I R W IN FL ND PI OL US FI CH].
  split; try done.
  - by eapply extends_trans.
  - intros q Hq; apply elem_of_app in Hq as [Hq|Hq]; [|by apply S].
    by apply (ex_staged' _ _ _ E), Hst.
  - intros q Hq; apply elem_of_app in Hq as [Hq|Hq]; [by apply OL, Hin|by apply SI].
  - intros q Hq; apply elem_of_app in Hq as [Hq|Hq]; [by apply Hfr|].
    apply F in Hq as [Hq|Hq]; [apply Hp1 in Hq as [Hq|Hq]; [by left|by apply Hfr]|].
    right; intros Hu; by apply Hq, (ex_use' _ _ _ He).
  - by rewrite I, Hp.
  - intros q Hq; rewrite elem_of_app; apply PI in Hq as [Hq|Hq]; [apply Hp1 in Hq|]; tauto.
  - auto.
  - intros n; by rewrite FI.
  - auto.
Qed.

(** The node with the child's forest in place of the child. *)
Lemma node_with_forest (h : nat) (lo hi : option bytes) (ks : list bytes) (cs : list ptree) (k : bytes)
    (ks1 ks2 : list bytes) (cs1 : list ptree) (c : ptree) (cs2 trees : list ptree) (r : sdb_btree_split) :
  focus h lo hi ks cs k ks1 ks2 cs1 c cs2 -> pid_of <$> trees = split_ids (pid_of c) r ->
  match r with
  | Some (sep, q) => sdb_btree_internal_insert (internal_node (pid_of <$> cs) ks) (length cs1) sep q
  | None => internal_node (pid_of <$> cs) ks
  end = internal_node (pid_of <$> (cs1 ++ trees ++ cs2)) (ks1 ++ split_seps r ++ ks2).
Proof.
  intros [-> -> Hl * ] Hids; rewrite !fmap_app, fmap_cons, Hids; destruct r as [[sep q]|]; [|done].
  assert (Hl2 : length (pid_of <$> cs1 ++ c :: cs2) = S (length (ks1 ++ ks2))).
  { assert (H : kids_ok (wf_tree h) lo hi (ks1 ++ ks2) (cs1 ++ c :: cs2)) by by apply kids_zip.
    rewrite length_fmap; by eapply kids_length. }
  rewrite <- fmap_cons, <- fmap_app, internal_insert_spec; [|done|rewrite length_app; lia].
  cbn [split_ids split_seps]; unfold insert_at; f_equal.
  - rewrite fmap_app, fmap_cons, (cons_middle (pid_of c)), app_assoc.
    replace (S (length cs1)) with (length ((pid_of <$> cs1) ++ [pid_of c]))
      by (rewrite length_app, length_fmap; cbn; lia).
    rewrite take_app_length, drop_app_length, <- app_assoc; done.
  - rewrite <- Hl, take_app_length, drop_app_length; done.
Qed.

Section node_step.
Context (b b1 : sdb_btree_batch (T := T)) (p : Z) (h : nat) (lo hi : option bytes) (ks : list bytes)
  (cs : list ptree) (k : bytes) (ks1 ks2 : list bytes) (cs1 : list ptree) (c : ptree)
  (cs2 trees : list ptree) (l : list kv) (r : sdb_btree_split) (X : list Z).
Context (Hfo : focus h lo hi ks cs k ks1 ks2 cs1 c cs2).
Context (Hwf : wf_tree (S h) lo hi (PNode p ks cs)).
Context (Hp : tree_pages b (PNode p ks cs)).
Context (Hst : stored b b1 c h (last_or lo ks1) (head_or hi ks2) l r trees X).

Let t1 := PNode p (ks1 ++ split_seps r ++ ks2) (cs1 ++ trees ++ cs2).

Lemma step_pids :
  NoDup (p :: flat_map pids cs1 ++ pids c ++ flat_map pids cs2)
  /\ Forall (txn_in_use (b_txn b)) (p :: flat_map pids cs1 ++ pids c ++ flat_map pids cs2).
Proof.
  destruct Hp as [Hn Hu]; rewrite pids_node, (fo_cs _ _ _ _ _ _ _ _ _ _ _ Hfo), flat_map_app in Hn, Hu.
  done.
Qed.

Lemma step_outside (q : Z) :
  q ∈ X -> q <> p /\ (q ∉ flat_map pids cs1) /\ (q ∉ flat_map pids cs2).
Proof.
  intros Hq; destruct step_pids as [Hn Hu]; rewrite List.Forall_forall in Hu.
  setoid_rewrite <- list_elem_of_In in Hu.
  apply list.NoDup_cons in Hn as [Hpn Hn]; apply list.NoDup_app in Hn as (_ & H1 & Hn).
  apply list.NoDup_app in Hn as (_ & H2 & _).
  apply (st_fresh _ _ _ _ _ _ _ _ _ _ Hst) in Hq as [Hq|Hq].
  - set_solver.
  - split_and!; intros Hin; apply Hq, Hu; rewrite elem_of_cons, !elem_of_app; tauto.
Qed.

Lemma step_wf : wf_tree (S h) lo hi t1.
Proof.
  destruct Hst as [_ _ _ _ _ _ W IN _ _ _ _ _ _ _], Hfo as [-> -> Hl Hkl Hkc Hkr Hw Hle Hgt _ _].
  cbn [wf_tree] in Hwf |- *; destruct Hwf as (Hne & Hs & HF & _).
  assert (Hsl : (length (split_seps r) <= 1)%nat) by (destruct r as [[]|]; cbn; lia).
  split_and!.
  - destruct ks1, ks2, (split_seps r); done.
  - by eapply sorted_insert_seps.
  - apply Forall_app in HF as [HF1 HF2]; rewrite !Forall_app; split_and!; [done| |done].
    eapply Forall_impl; [|exact IN]; intros x Hx.
    refine (inside_widen _ _ _ _ _ _ _ Hx); [by eapply last_or_lo_le|by eapply head_or_hi_le].
  - by apply kids_replace.
Qed.

Lemma step_pages : tree_pages b1 t1.
Proof.
  destruct step_pids as [Hn Hu]; destruct Hst as [E _ _ F _ _ _ _ _ ND PI OL US _ _].
  unfold tree_pages, t1; rewrite pids_node, !flat_map_app.
  rewrite List.Forall_forall in *; setoid_rewrite <- list_elem_of_In in Hu.
  setoid_rewrite <- list_elem_of_In.
  assert (HU : forall q, q ∈ p :: flat_map pids cs1 ++ flat_map pids trees ++ flat_map pids cs2 ->
               txn_in_use (b_txn b1) q).
  { intros q Hq; destruct (decide (q ∈ flat_map pids trees)) as [Hin|Hnin]; [by apply US|].
    apply (ex_use' _ _ _ E), Hu; rewrite !elem_of_cons, !elem_of_app in *; tauto. }
  split; [|exact HU]; clear HU US OL.
  apply list.NoDup_cons in Hn as [Hpn Hn]; apply list.NoDup_app in Hn as (Hn1 & H1 & Hn).
  apply list.NoDup_app in Hn as (Hnc & H2 & Hn2).
  assert (HT : forall q, q ∈ flat_map pids trees -> q ∈ pids c \/ q ∈ X) by done.
  pose proof step_outside as HO; apply list.NoDup_cons; split.
  - rewrite !not_elem_of_app in *; split_and!; [tauto| |tauto].
    intros Hin; apply HT in Hin as [Hin|Hin]; [tauto|]; by destruct (HO _ Hin) as [? _].
  - apply list.NoDup_app; split_and!; [done| |].
    + intros q Hq; rewrite not_elem_of_app; specialize (H1 q Hq); rewrite not_elem_of_app in H1.
      split; [|tauto]; intros Hin; apply HT in Hin as [Hin|Hin]; [tauto|]; apply HO in Hin; tauto.
    + apply list.NoDup_app; split_and!; [done| |done].
      intros q Hq; apply HT in Hq as [Hq|Hq]; [by apply H2|]; apply HO in Hq; tauto.
Qed.

Lemma step_repr :
  Forall (repr (sdb_btree_batch_read_node b)) cs -> kids_repr (sdb_btree_batch_read_node b1) t1.
Proof.
  intros Hr; rewrite (fo_cs _ _ _ _ _ _ _ _ _ _ _ Hfo) in Hr.
  destruct Hst as [E _ _ _ _ R _ _ _ _ _ _ _ _ _]; apply Forall_app in Hr as [Hr1 Hr]; apply Forall_cons_iff in Hr as [_ Hr2].
  unfold t1; cbn [kids_repr]; rewrite !Forall_app; split_and!; [|done|].
  - eapply kids_frame; [exact E| |done]; intros q Hq; apply step_outside in Hq; tauto.
  - eapply kids_frame; [exact E| |done]; intros q Hq; apply step_outside in Hq; tauto.
Qed.

Lemma step_pids_1 (q : Z) : q ∈ pids t1 -> q ∈ pids (PNode p ks cs) \/ q ∈ X.
Proof.
  destruct Hst as [_ _ _ _ _ _ _ _ _ _ PI _ _ _ _]; destruct Hfo as [_ -> _ _ _ _ _ _ _ _ _].
  unfold t1; rewrite !pids_node, !flat_map_app; cbn [flat_map]; specialize (PI q); set_solver.
Qed.

Lemma step_pids_2 (q : Z) : q ∈ pids (PNode p ks cs) -> q ∈ pids t1.
Proof.
  destruct Hst as [_ _ _ _ _ _ _ _ _ _ _ OL _ _ _]; destruct Hfo as [_ -> _ _ _ _ _ _ _ _ _].
  unfold t1; rewrite !pids_node, !flat_map_app; cbn [flat_map]; specialize (OL q); set_solver.
Qed.

Lemma step_first (n : Z) : first_pid (leaves t1) n = first_pid (leaves (PNode p ks cs)) n.
Proof.
  destruct Hst as [_ _ _ _ _ _ _ _ _ _ _ _ _ FI _]; destruct Hfo as [_ -> _ _ _ _ _ _ _ _ _].
  unfold t1; cbn [leaves]; rewrite !flat_map_app; cbn [flat_map]; by rewrite !first_pid_app, FI.
Qed.

Lemma step_chain (n : Z) : sib_chain (leaves (PNode p ks cs)) n -> sib_chain (leaves t1) n.
Proof.
  destruct Hst as [_ _ _ _ _ _ _ _ _ _ _ _ _ FI CH]; destruct Hfo as [_ -> _ _ _ _ _ _ _ _ _].
  unfold t1; cbn [leaves]; rewrite !flat_map_app; cbn [flat_map].
  rewrite !sib_chain_app, !first_pid_app, FI; intros (H1 & H2 & H3); auto.
Qed.
End node_step.

Lemma insert_spec (k v : bytes) (h fuel : nat) (lo hi : option bytes) (t : ptree) b b' (r : sdb_btree_split) :
  batch_ok b -> wf_tree h lo hi t -> repr (sdb_btree_batch_read_node b) t -> tree_pages b t ->
  within lo hi k ->
  sdb_btree_insert_recursive fuel (pid_of t) k v b = (Ok r, b') ->
  exists trees X, stored b b' t h lo hi (al_insert k v (flatten t)) r trees X.
Proof.
  revert fuel lo hi t b b' r; induction h as [|h IH];
    intros [|fuel] lo hi [p s l|p ks cs] b b' r Hb Hwf Hr Hp Hw H; try done;
    cbn [sdb_btree_insert_recursive] in H; inv_batch H; apply read_inv in Hb0 as [Hn ->];
    pose proof (repr_root _ _ Hr) as Hn'; rewrite Hn in Hn'; injection Hn' as ->.
  - cbn [node_of] in Hn, H; change (n_kind (leaf_node s l)) with SDB_BTREE_LEAF in H; cbn match in H.
    destruct Hwf as [Hs HF]; rewrite leaf_put_spec in H by done.
    apply read_node_wf in Hn; destruct Hn as [_ _ _ Hlink _]; cbn in Hlink.
    destruct (store_or_split_spec b b' (PLeaf p s (al_insert k v l)) 0 lo hi r) as (trees & X & Hst);
      try done.
    { split; [by apply al_insert_sorted|by apply al_insert_Forall]. }
    exists trees, ([] ++ X); eapply stored_compose; [by apply extends_refl| | | | | | | | |exact Hst];
      try done; try (intros q Hq; by left); intros q Hq; by apply elem_of_nil in Hq.
  - cbn [node_of] in Hn, H; change (n_kind (internal_node _ ks)) with SDB_BTREE_INTERNAL in H; cbn match in H.
    destruct (descend_focus _ _ _ _ _ _ _ Hwf Hw) as (ks1 & ks2 & cs1 & c & cs2 & Hfo & Hi & Hc).
    cbn [pid_of] in H; rewrite Hi, Hc in H; inv_batch H.
    apply repr_node in Hr as [_ Hr]; pose proof Hfo as [Hks Hcs _ _ Hcw _ Hcin _ _ _ _].
    destruct (IH fuel (last_or lo ks1) (head_or hi ks2) c b b0 a) as (trees1 & X1 & Hst1); try done.
    { subst cs; apply Forall_app in Hr as [_ Hr]; by apply Forall_cons_iff in Hr as [Hr _]. }
    { destruct (step_pids b p _ _ _ _ _ _ _ _ _ _ _ Hfo Hp) as [Hnd Hu]; split.
      - apply list.NoDup_cons in Hnd as [_ Hnd]; apply list.NoDup_app in Hnd as (_ & _ & Hnd).
        by apply list.NoDup_app in Hnd as (Hnd & _ & _).
      - apply Forall_cons_iff in Hu as [_ Hu]; rewrite !Forall_app in Hu; tauto. }
    rewrite (node_with_forest _ _ _ _ _ _ _ _ _ _ _ _ _ Hfo (st_ids _ _ _ _ _ _ _ _ _ _ Hst1)) in H.
    destruct (store_or_split_spec b0 b' (PNode p (ks1 ++ split_seps a ++ ks2) (cs1 ++ trees1 ++ cs2))
                (S h) lo hi r) as (trees & X2 & Hst2); try done.
    { apply Hst1. }
    { by eapply step_wf. }
    { by eapply step_pages. }
    { by eapply step_repr. }
    exists trees, (X1 ++ X2); rewrite (focus_insert _ _ _ _ _ _ _ _ _ _ _ p v Hfo).
    cbn [flatten] in Hst2; rewrite !flat_map_app, (st_flatten _ _ _ _ _ _ _ _ _ _ Hst1) in Hst2.
    eapply (stored_compose b b0 b' _ (PNode p (ks1 ++ split_seps a ++ ks2) (cs1 ++ trees1 ++ cs2)));
      [apply Hst1|apply Hst1| | |done| | | | |exact Hst2].
    + intros q Hq; apply (st_in _ _ _ _ _ _ _ _ _ _ Hst1) in Hq.
      rewrite pids_node, !flat_map_app, elem_of_cons, !elem_of_app; tauto.
    + intros q Hq; apply (st_fresh _ _ _ _ _ _ _ _ _ _ Hst1) in Hq as [Hq|Hq]; [left|by right].
      rewrite pids_node, Hcs, flat_map_app; cbn [flat_map]; set_solver.
    + intros q; by eapply step_pids_1.
    + intros q; by eapply step_pids_2.
    + intros n; by eapply step_first.
    + intros n; by eapply step_chain.
Qed.
End Insert.
