(* ===== verification/BtreePut.v ===== *)
(** * Batches refine finite maps: lookup and insertion

    [batch_holds b t h] is the invariant of an open batch: the nodes it reads
    form the well-formed tree [t] of height [h] rooted at the root page, its
    leaves are linked in key order, its pages are in use and distinct, everything
    staged belongs to the tree and every page allocated by the transaction is
    staged.  The height is bounded by the number of pages, so the depth limit of
    [src/btree.c] is never what stops an operation on such a tree. *)

From stdpp Require Import gmap.
From S2P Require Import Prelude Status Codec Keys Page BtreePage OrderedMap PagerInterface BtreeNode BtreeTree Btree BtreeGet BtreeBatch BtreeInsert.

(** ** Heights *)

Lemma kids_leaves (Q : option bytes -> option bytes -> ptree -> Prop) (m : nat) (lo hi : option bytes)
    (ks : list bytes) (cs : list ptree) :
  (forall lo hi c, Q lo hi c -> (m <= length (leaves c))%nat) -> kids_ok Q lo hi ks cs ->
  (length cs * m <= length (flat_map leaves cs))%nat.
Proof.
  intros HQ; revert lo cs; induction ks as [|k ks IH]; intros lo cs Hk.
  - destruct cs as [|c [|? ?]]; try done; cbn [length flat_map]; rewrite app_nil_r.
    apply HQ in Hk; lia.
  - destruct cs as [|c cs]; [done|]; destruct Hk as [Hc Hk]; apply HQ in Hc; apply IH in Hk.
    cbn [length flat_map]; rewrite length_app; lia.
Qed.

Lemma wf_leaves (h : nat) (lo hi : option bytes) (t : ptree) :
  wf_tree h lo hi t -> (2 ^ h <= length (leaves t))%nat.
Proof.
  revert lo hi t; induction h as [|h IH]; intros lo hi [p s l|p ks cs]; cbn [wf_tree leaves]; try done.
  intros (Hne & _ & _ & Hk); pose proof (kids_length _ _ _ _ _ Hk) as Hl.
  apply (kids_leaves _ (2 ^ h)) in Hk; [|exact IH].
  assert (2 <= length cs)%nat by (destruct ks; [done|cbn in Hl; lia]).
  rewrite Nat.pow_succ_r'; nia.
Qed.

Lemma leaves_pids (t : ptree) : (length (leaves t) <= length (pids t))%nat.
Proof.
  induction t as [p s l|p ks cs IH] using ptree_ind'; [done|].
  rewrite pids_node; cbn [leaves length]; apply le_S.
  induction IH as [|c cs Hc _ IH]; cbn [flat_map length]; rewrite ?length_app; lia.
Qed.

Lemma NoDup_range_length (l : list Z) (n : Z) :
  0 <= n -> NoDup l -> Forall (fun x => 0 <= x < n) l -> Z.of_nat (length l) <= n.
Proof.
  intros Hn Hnd HF; assert (H : l ⊆+ seqZ 0 n).
  { apply NoDup_submseteq; [done|]; intros x Hx; apply elem_of_seqZ.
    rewrite List.Forall_forall in HF; specialize (HF x (proj1 (list_elem_of_In _ _) Hx)); lia. }
  apply submseteq_length in H; rewrite length_seqZ in H; lia.
Qed.

Lemma height_range (t : ptree) (h : nat) :
  wf_tree h None None t -> NoDup (pids t) -> Forall (fun p => 0 < p < 2 ^ 52) (pids t) -> (h <= 52)%nat.
Proof.
  intros Hwf Hn Hu; apply wf_leaves in Hwf; pose proof (leaves_pids t) as Hl.
  pose proof (NoDup_range_length (pids t) (2 ^ 52) ltac:(lia) Hn) as H.
  assert (Hle : Z.of_nat (length (pids t)) <= 2 ^ 52).
  { apply H; eapply Forall_impl; [|exact Hu]; cbn; lia. }
  assert (Hpow : 2 ^ Z.of_nat h <= 2 ^ 52).
  { change 2 with (Z.of_nat 2) at 1; rewrite <- Nat2Z.inj_pow; lia. }
  apply Z.pow_le_mono_r_iff in Hpow; lia.
Qed.

Section Put.
Context {P T : Type} `{!PagerOps P T} `{!PagerLaws P T}.

Implicit Types b : sdb_btree_batch (T := T).

Record batch_holds b (t : ptree) (h : nat) : Prop := {
  bh_ok : batch_ok b;
  bh_root : pid_of t = b_root_page b;
  bh_repr : repr (sdb_btree_batch_read_node b) t;
  bh_wf : wf_tree h None None t;
  bh_pages : tree_pages b t;
  bh_chain : sib_chain (leaves t) 0;
  bh_staged : forall q, q ∈ staged b -> q ∈ pids t;
  bh_alloc : forall q, q ∈ txn_allocated_pages (b_txn b) -> q ∈ staged b
}.

(** The map a batch holds. *)
Definition tree_contents (t : ptree) : gmap bytes bytes := contents (flatten t).

Lemma height_bound b (t : ptree) (h : nat) :
  batch_ok b -> wf_tree h None None t -> tree_pages b t -> (h <= 52)%nat.
Proof.
  intros Hb Hwf [Hn Hu]; eapply height_range; [exact Hwf|exact Hn|].
  eapply Forall_impl; [|exact Hu]; intros p; apply in_use_range, Hb.
Qed.

Lemma within_all (k : bytes) : within None None k.
Proof. done. Qed.

(** ** The root grows *)

Definition set_pid (t : ptree) (p : Z) : ptree :=
  match t with
  | PLeaf _ s l => PLeaf p s l
  | PNode _ ks cs => PNode p ks cs
  end.

Lemma set_pid_wf (h : nat) (lo hi : option bytes) (t : ptree) (p : Z) :
  wf_tree h lo hi t -> wf_tree h lo hi (set_pid t p).
Proof. by destruct h, t. Qed.

Lemma set_pid_facts (t : ptree) (p : Z) :
  pid_of (set_pid t p) = p /\ node_of (set_pid t p) = node_of t
  /\ flatten (set_pid t p) = flatten t /\ kid_pids (set_pid t p) = kid_pids t.
Proof. by destruct t. Qed.

Lemma set_pid_chain (t : ptree) (p n : Z) (ls : list (Z * Z * list kv)) :
  sib_chain (leaves t ++ ls) n -> sib_chain (leaves (set_pid t p) ++ ls) n.
Proof. by destruct t. Qed.

Lemma kids_repr_set_pid (read : Z -> result sdb_btree_node) (t : ptree) (p : Z) :
  kids_repr read t -> kids_repr read (set_pid t p).
Proof. by destruct t. Qed.

Lemma repr_kids_repr b (t : ptree) :
  repr (sdb_btree_batch_read_node b) t -> kids_repr (sdb_btree_batch_read_node b) t.
Proof.
  intros Hr; destruct t as [p s l|p ks cs]; cbn [kids_repr].
  - apply repr_root, read_node_wf in Hr; destruct Hr as [_ _ _ Hl _]; exact Hl.
  - by apply repr_node in Hr as [_ Hr].
Qed.

Lemma grow_root_inv b b' (sep : bytes) (q : Z) :
  grow_root sep q b = (Ok tt, b') ->
  exists left lp b2 b3, sdb_btree_batch_read_node b (b_root_page b) = Ok left
    /\ batch_allocate b = (Ok lp, b2) /\ sdb_btree_stage lp left b2 = (Ok tt, b3)
    /\ sdb_btree_stage (b_root_page b) (internal_node [lp; q] [sep]) b3 = (Ok tt, b').
Proof.
  intros H; unfold grow_root in H; inv_batch H.
  apply get_inv in Hb as [-> ->]; apply get_inv in Hb0 as [-> ->].
  destruct (sdb_btree_find_staged b (b_root_page b)) as [m|] eqn:E; [|done]; inv_batch H.
  apply lift_inv in Hb as [Hd ->]; destruct a1.
  exists a, a0, b1, b2; split_and!; [|done|done|exact H].
  unfold sdb_btree_batch_read_node; by rewrite E.
Qed.

(** An operation that leaves one tree at the root page. *)
Lemma put_one b b' (t t' : ptree) (h : nat) (l : list kv) (X : list Z) :
  batch_holds b t h -> stored b b' t h None None l None [t'] X -> batch_holds b' t' h.
Proof.
  intros [Ho Hr Hre Hw Hp Hc Hs Ha] [E S SI F I R W IN FL ND PI OL US FI CH].
  cbn [split_ids split_seps flat_map kids_ok] in *; rewrite app_nil_r in *; injection I as I.
  apply Forall_cons_iff in R as [R _]; split; try done.
  - apply E.
  - by rewrite I, (ex_root _ _ _ E).
  - split; [done|]; apply List.Forall_forall; intros q Hq; apply US; by apply list_elem_of_In.
  - by apply CH.
  - intros q Hq; apply (ex_staged _ _ _ E) in Hq as [Hq|Hq]; auto.
  - intros q Hq; apply (ex_alloc _ _ _ E) in Hq as [Hq|Hq]; [|auto].
    apply (ex_staged' _ _ _ E); auto.
Qed.

(** The root was split: the left half moves to the new page [lp]. *)
Lemma put_two b b1 b' (t tl tr : ptree) (h : nat) (l : list kv) (X : list Z) (sep : bytes) (q : Z) :
  batch_holds b t h -> stored b b1 t h None None l (Some (sep, q)) [tl; tr] X ->
  grow_root sep q b1 = (Ok tt, b') ->
  exists t', batch_holds b' t' (S h) /\ flatten t' = l /\ same_env b b'.
Proof.
  intros [Ho Hr Hre Hw Hp Hc Hs Ha] [E S SI F I R W IN FL ND PI OL US FI CH] Hg.
  apply grow_root_inv in Hg as (left & lp & b2 & b3 & Hleft & Hal & H1 & H2).
  cbn [split_ids split_seps flat_map] in *; rewrite app_nil_r in *.
  cbn [fmap list_fmap] in I; injection I as Ipl Ipr.
  apply Forall_cons_iff in R as [Rl R]; apply Forall_cons_iff in R as [Rr _].
  assert (Hroot : b_root_page b1 = pid_of tl) by by rewrite Ipl, Hr, (ex_root _ _ _ E).
  rewrite Hroot in *; rewrite (repr_root _ _ Rl) in Hleft; injection Hleft as <-.
  destruct W as [Wl Wr]; destruct (set_pid_facts tl lp) as (Sp & Sn & Sf & Sk).
  apply allocate_spec in Hal as (E2 & Hfr & Hlp & Hlr & _); [|apply E].
  assert (Htl : node_typed (node_of tl)) by (eapply node_wf_typed, read_node_wf, repr_root; exact Rl).
  apply stage_spec in H1 as (E3 & S3 & N3 & _); [|apply E2|done].
  assert (Hq : 0 < q < 2 ^ 64).
  { assert (Hu : txn_in_use (b_txn b1) (pid_of tr)) by (apply US, elem_of_app; right; apply pid_in_pids).
    pose proof (in_use_range _ _ (bo_txn _ (ex_ok _ _ _ E)) Hu); lia. }
  apply stage_spec in H2 as (E4 & S4 & N4 & _); [|apply E3|by apply internal_node_typed; repeat constructor; lia].
  pose proof (extends_trans _ _ _ _ _ E2 (extends_trans _ _ _ _ _ E3 E4)) as E5.
  assert (HX : forall x, x ∈ [lp] ++ [lp] ++ [pid_of tl] <-> x = lp \/ x = pid_of tl) by set_solver.
  assert (Hlpn : lp ∉ pids tl ++ pids tr) by (intros Hin; by apply Hfr, US).
  pose proof ND as ND'; rewrite (pids_kids tl) in ND, Hlpn; cbn [app] in ND, Hlpn.
  apply list.NoDup_cons in ND as [NDp ND]; rewrite not_elem_of_cons in Hlpn; destruct Hlpn as [Hlp1 Hlp2].
  set (t' := PNode (pid_of tl) [sep] [set_pid tl lp; tr]).
  assert (Hpids : pids t' = pid_of tl :: lp :: kid_pids tl ++ pids tr).
  { unfold t'; rewrite pids_node; cbn [flat_map]; rewrite (pids_kids (set_pid tl lp)), Sp, Sk, app_nil_r; done. }
  assert (Hin : forall x, x ∈ pids tl ++ pids tr -> x ∈ pids t').
  { intros x; rewrite Hpids, (pids_kids tl); set_solver. }
  exists t'; split_and!; [split| |].
  - apply E4.
  - unfold t'; cbn [pid_of]; by rewrite <- Hroot, (ex_root _ _ _ E5).
  - unfold t'; apply repr_node; cbn [fmap list_fmap]; rewrite Sp; cbn [split_ids] in *; rewrite Ipr.
    split; [done|]; constructor; [|constructor; [|constructor]].
    + apply repr_intro; [rewrite Sp, Sn, (ex_read _ _ _ E4); [done|by rewrite list_elem_of_singleton]|].
      apply kids_repr_set_pid; eapply kids_repr_frame; [exact E5| |by apply repr_kids_repr].
      intros x Hx; apply HX in Hx as [->| ->]; set_solver.
    + eapply repr_frame; [|exact Rr]; intros x Hx; apply (ex_read _ _ _ E5); rewrite HX; set_solver.
  - unfold t'; cbn [wf_tree kids_ok]; split_and!; [done|by repeat constructor|by repeat constructor| |done].
    by apply set_pid_wf.
  - split; [rewrite Hpids; apply list.NoDup_cons; split; [set_solver|apply list.NoDup_cons; done]|].
    apply List.Forall_forall; intros x Hx; apply list_elem_of_In in Hx; rewrite Hpids in Hx.
    destruct (decide (x = lp)) as [->|Hne]; [by apply (ex_use' _ _ _ E4), (ex_use' _ _ _ E3)|].
    apply (ex_use' _ _ _ E5), US; rewrite (pids_kids tl); set_solver.
  - unfold t'; cbn [leaves flat_map]; rewrite app_nil_r; by apply set_pid_chain, CH.
  - intros x Hx; apply (ex_staged _ _ _ E5) in Hx as [Hx|Hx].
    + apply Hin; apply (ex_staged _ _ _ E) in Hx as [Hx|Hx]; auto.
    + apply HX in Hx; rewrite Hpids; set_solver.
  - intros x Hx; apply (ex_alloc _ _ _ E5) in Hx as [Hx|Hx].
    + apply (ex_staged' _ _ _ E5); apply (ex_alloc _ _ _ E) in Hx as [Hx|Hx]; [|auto].
      apply (ex_staged' _ _ _ E); auto.
    + apply HX in Hx as [->| ->]; [by apply (ex_staged' _ _ _ E4)|done].
  - unfold t'; cbn [flatten flat_map]; by rewrite Sf, app_nil_r.
  - by eapply same_env_trans; eapply extends_env.
Qed.

Lemma forest_shape b b' (t : ptree) (h : nat) lo hi l r trees X :
  stored b b' t h lo hi l r trees X ->
  match r with None => exists t', trees = [t'] | Some _ => exists tl tr, trees = [tl; tr] end.
Proof.
  intros Hst; pose proof (st_ids _ _ _ _ _ _ _ _ _ _ Hst) as I; unfold split_ids in I.
  destruct r as [[sep q]|], trees as [|t1 [|t2 [|? ?]]]; try done; eauto.
Qed.

Lemma batch_put_holds b b' (t : ptree) (h : nat) (k v : bytes) :
  batch_holds b t h -> sdb_btree_batch_put k v b = (Ok tt, b') ->
  exists t' h', batch_holds b' t' h' /\ flatten t' = al_insert k v (flatten t)
    /\ (h <= h' <= S h)%nat /\ same_env b b' /\ b_failure b' = SDB_OK.
Proof.
  intros Hh H; pose proof Hh as [Ho Hr Hre Hw Hp Hc Hs Ha].
  unfold sdb_btree_batch_put in H; destruct (_ || _) eqn:Eg; [done|].
  assert (Hf : b_failure b = SDB_OK).
  { apply orb_false_iff in Eg as [Eg _]; apply orb_false_iff in Eg as [Eg _].
    apply orb_false_iff in Eg as [_ Eg]; apply negb_false_iff, bool_decide_eq_true in Eg; done. }
  clear Eg; unfold sticky in H; rewrite <- Hr in H.
  match type of H with (match ?m with _ => _ end) = _ => destruct m as [[u|e] b2] eqn:Em; [|done] end.
  injection H as -> ->; apply bind_inv in Em as (r & b1 & Hi & Hg).
  destruct (insert_spec k v h _ None None t b b1 r Ho Hw Hre Hp (within_all k) Hi) as (trees & X & Hst).
  pose proof (forest_shape _ _ _ _ _ _ _ _ _ _ Hst) as Hsh; pose proof (st_ext _ _ _ _ _ _ _ _ _ _ Hst) as E.
  destruct r as [[sep q]|].
  - destruct Hsh as (tl & tr & ->); destruct (put_two b b1 b' t tl tr h _ X sep q Hh Hst Hg) 
      as (t' & Ht' & Hfl & Hse).
    exists t', (S h); rewrite (se_failure _ _ Hse); split_and!; try done; lia.
  - destruct Hsh as (t' & ->); injection Hg as ->; exists t', h; split_and!; try done; try lia.
    + by eapply put_one.
    + pose proof (st_flatten _ _ _ _ _ _ _ _ _ _ Hst) as Hfl; cbn [flat_map] in Hfl; by rewrite app_nil_r in Hfl.
    + by eapply extends_env.
    + by rewrite (ex_failure _ _ _ E).
Qed.
End Put.
