(* ===== verification/BtreeContext.v ===== *)
(** * Root-to-node contexts

    A descent of [src/btree.c] remembers, for each internal page it passes, the
    child it took.  A [frame] is such a page with the separators and subtrees on
    both sides of the hole; a list of frames from the root down is a tree with
    one subtree cut out.  Deletion is verified with these contexts. *)

From S2P Require Import Prelude Status Keys BtreePage OrderedMap BtreeNode BtreeTree Btree BtreeInsert.

Record frame := {
  fr_pid : Z;
  fr_ks1 : list bytes;
  fr_ks2 : list bytes;
  fr_cs1 : list ptree;
  fr_cs2 : list ptree
}.

Definition plug1 (f : frame) (t : ptree) : ptree :=
  PNode (fr_pid f) (fr_ks1 f ++ fr_ks2 f) (fr_cs1 f ++ t :: fr_cs2 f).

Definition plug (fs : list frame) (t : ptree) : ptree := foldr plug1 t fs.

(** What the context contributes around the contents of the hole. *)
Definition ctx_flatten (fs : list frame) (l : list kv) : list kv :=
  foldr (fun f l => flat_map flatten (fr_cs1 f) ++ l ++ flat_map flatten (fr_cs2 f)) l fs.

Definition left_leaves (fs : list frame) : list (Z * Z * list kv) :=
  flat_map (fun f => flat_map leaves (fr_cs1 f)) fs.

Definition right_leaves (fs : list frame) : list (Z * Z * list kv) :=
  flat_map (fun f => flat_map leaves (fr_cs2 f)) (rev fs).

Definition frame_pids (f : frame) : list Z :=
  fr_pid f :: flat_map pids (fr_cs1 f) ++ flat_map pids (fr_cs2 f).

Definition ctx_pids (fs : list frame) : list Z := flat_map frame_pids fs.

(** The page at the top of the context. *)
Definition ctx_root (fs : list frame) (p : Z) : Z :=
  match fs with [] => p | f :: _ => fr_pid f end.

(** The path recorded by the descent. *)
Definition frame_path (f : frame) : path_entry := (fr_pid f, length (fr_cs1 f)).

(** A frame of height [S h] in the range [lo, hi). *)
Record frame_ok (h : nat) (lo hi : option bytes) (f : frame) : Prop := {
  fw_sorted : StronglySorted key_lt (fr_ks1 f ++ fr_ks2 f);
  fw_inside : Forall (inside lo hi) (fr_ks1 f ++ fr_ks2 f);
  fw_len : length (fr_ks1 f) = length (fr_cs1 f);
  fw_left : kids_left (wf_tree h) lo (fr_ks1 f) (fr_cs1 f);
  fw_right : kids_right (wf_tree h) hi (fr_ks2 f) (fr_cs2 f)
}.

Definition frame_wf (h : nat) (lo hi : option bytes) (f : frame) : Prop :=
  fr_ks1 f ++ fr_ks2 f <> [] /\ frame_ok h lo hi f.

(** [ctx_wf H lo hi fs h lo' hi']: the context has height [H] and range
    [lo, hi), its hole height [h] and range [lo', hi'). *)
Fixpoint ctx_wf (H : nat) (lo hi : option bytes) (fs : list frame)
    (h : nat) (lo' hi' : option bytes) {struct fs} : Prop :=
  match fs with
  | [] => H = h /\ lo = lo' /\ hi = hi'
  | f :: fs =>
      match H with
      | O => False
      | S H =>
          frame_wf H lo hi f
          /\ ctx_wf H (last_or lo (fr_ks1 f)) (head_or hi (fr_ks2 f)) fs h lo' hi'
      end
  end.

Definition frame_node (f : frame) (hole : Z) : sdb_btree_node :=
  internal_node ((pid_of <$> fr_cs1 f) ++ hole :: (pid_of <$> fr_cs2 f)) (fr_ks1 f ++ fr_ks2 f).

(** The pages hold the context, [hole] being the page of the hole. *)
Fixpoint ctx_repr (read : Z -> result sdb_btree_node) (fs : list frame) (hole : Z) : Prop :=
  match fs with
  | [] => True
  | f :: fs =>
      read (fr_pid f) = Ok (frame_node f (ctx_root fs hole))
      /\ Forall (repr read) (fr_cs1 f) /\ Forall (repr read) (fr_cs2 f)
      /\ ctx_repr read fs hole
  end.

(** ** Plugging *)

Lemma plug_app (fs gs : list frame) (t : ptree) : plug (fs ++ gs) t = plug fs (plug gs t).
Proof. apply foldr_app. Qed.

Lemma plug_pid (fs : list frame) (t : ptree) : pid_of (plug fs t) = ctx_root fs (pid_of t).
Proof. by destruct fs. Qed.

Lemma plug_flatten (fs : list frame) (t : ptree) : flatten (plug fs t) = ctx_flatten fs (flatten t).
Proof.
  induction fs as [|f fs IH]; [done|]; cbn [plug foldr plug1 flatten ctx_flatten].
  rewrite flat_map_app; cbn [flat_map]; unfold plug in IH; by rewrite IH.
Qed.

Lemma left_leaves_app (fs gs : list frame) : left_leaves (fs ++ gs) = left_leaves fs ++ left_leaves gs.
Proof. apply flat_map_app. Qed.

Lemma right_leaves_app (fs gs : list frame) : right_leaves (fs ++ gs) = right_leaves gs ++ right_leaves fs.
Proof. unfold right_leaves; by rewrite rev_app_distr, flat_map_app. Qed.

Lemma right_leaves_cons (f : frame) (fs : list frame) :
  right_leaves (f :: fs) = right_leaves fs ++ flat_map leaves (fr_cs2 f).
Proof.
  change (f :: fs) with ([f] ++ fs); rewrite right_leaves_app; f_equal.
  unfold right_leaves; cbn [rev app flat_map]; by rewrite app_nil_r.
Qed.

Lemma plug_leaves (fs : list frame) (t : ptree) :
  leaves (plug fs t) = left_leaves fs ++ leaves t ++ right_leaves fs.
Proof.
  induction fs as [|f fs IH]; cbn [plug foldr]; [by rewrite app_nil_r|].
  cbn [plug1 leaves]; rewrite flat_map_app; cbn [flat_map]; unfold plug in IH; rewrite IH.
  rewrite right_leaves_cons, <- !app_assoc; unfold left_leaves at 2; cbn [flat_map]; by rewrite <- !app_assoc.
Qed.

Lemma plug_pids (fs : list frame) (t : ptree) : pids (plug fs t) ≡ₚ ctx_pids fs ++ pids t.
Proof.
  induction fs as [|f fs IH]; [done|]; change (plug (f :: fs) t) with (plug1 f (plug fs t)).
  unfold plug1; rewrite pids_node, flat_map_app; cbn [flat_map]; rewrite IH.
  unfold ctx_pids; cbn [flat_map]; fold (ctx_pids fs); unfold frame_pids; cbn [app].
  apply perm_skip; rewrite <- !app_assoc; apply Permutation_app_head.
  rewrite (app_assoc (ctx_pids fs)); apply Permutation_app_comm.
Qed.

Lemma ctx_pids_app (fs gs : list frame) : ctx_pids (fs ++ gs) = ctx_pids fs ++ ctx_pids gs.
Proof. apply flat_map_app. Qed.

Lemma plug_wf (H : nat) (lo hi : option bytes) (fs : list frame) (h : nat) (lo' hi' : option bytes) (t : ptree) :
  ctx_wf H lo hi fs h lo' hi' -> wf_tree h lo' hi' t -> wf_tree H lo hi (plug fs t).
Proof.
  revert H lo hi; induction fs as [|f fs IH]; intros H lo hi Hc Ht.
  - cbn [ctx_wf] in Hc; by destruct Hc as (-> & -> & ->).
  - destruct H as [|H]; [done|]; cbn [ctx_wf] in Hc; destruct Hc as [[Hne [Hs Hw Hl H1 H2]] Hc].
    cbn [plug foldr plug1 wf_tree]; split_and!; try done; apply kids_zip; [done|]; split_and!; try done.
    by apply IH.
Qed.

Lemma ctx_wf_snoc (H : nat) (lo hi : option bytes) (fs : list frame) (f : frame) (h : nat)
    (lo' hi' : option bytes) :
  ctx_wf H lo hi (fs ++ [f]) h lo' hi' <->
  exists lo1 hi1, ctx_wf H lo hi fs (S h) lo1 hi1 /\ frame_wf h lo1 hi1 f
    /\ lo' = last_or lo1 (fr_ks1 f) /\ hi' = head_or hi1 (fr_ks2 f).
Proof.
  revert H lo hi; induction fs as [|g fs IH]; intros H lo hi; cbn [app ctx_wf].
  - destruct H as [|H]; [naive_solver|]; split.
    + intros (Hf & -> & <- & <-); by exists lo, hi.
    + intros (lo1 & hi1 & (E & -> & ->) & Hf & -> & ->); injection E as ->; done.
  - destruct H as [|H]; [naive_solver|]; rewrite IH; naive_solver.
Qed.

Lemma ctx_wf_height (H : nat) (lo hi : option bytes) (fs : list frame) (h : nat) (lo' hi' : option bytes) :
  ctx_wf H lo hi fs h lo' hi' -> H = (length fs + h)%nat.
Proof.
  revert H lo hi; induction fs as [|f fs IH]; intros H lo hi; cbn [ctx_wf length]; [by intros (-> & _)|].
  destruct H as [|H]; [done|]; intros [_ Hc]; by rewrite (IH _ _ _ Hc).
Qed.

Lemma ctx_root_app (fs gs : list frame) (p : Z) : ctx_root (fs ++ gs) p = ctx_root fs (ctx_root gs p).
Proof. by destruct fs. Qed.

Lemma ctx_repr_snoc (read : Z -> result sdb_btree_node) (fs : list frame) (f : frame) (p : Z) :
  ctx_repr read (fs ++ [f]) p <->
  ctx_repr read fs (fr_pid f) /\ read (fr_pid f) = Ok (frame_node f p)
  /\ Forall (repr read) (fr_cs1 f) /\ Forall (repr read) (fr_cs2 f).
Proof.
  induction fs as [|g fs IH]; cbn [app ctx_repr]; [cbn [ctx_root]; tauto|].
  rewrite IH, ctx_root_app; cbn [ctx_root]; tauto.
Qed.

Lemma plug_repr (read : Z -> result sdb_btree_node) (fs : list frame) (t : ptree) :
  repr read (plug fs t) <-> ctx_repr read fs (pid_of t) /\ repr read t.
Proof.
  induction fs as [|f fs IH]; cbn [plug foldr ctx_repr]; [tauto|].
  fold (plug fs t); unfold plug1; rewrite repr_node, Forall_app, Forall_cons_iff, IH.
  unfold frame_node; rewrite fmap_app, fmap_cons, plug_pid; tauto.
Qed.

(** The context is unaffected by changes to pages outside it. *)
Lemma ctx_repr_frame (read read' : Z -> result sdb_btree_node) (fs : list frame) (p : Z) :
  (forall q, q ∈ ctx_pids fs -> read' q = read q) -> ctx_repr read fs p -> ctx_repr read' fs p.
Proof.
  induction fs as [|f fs IH]; intros Hf; cbn [ctx_repr]; [done|].
  intros (Hn & H1 & H2 & H3); unfold ctx_pids in Hf; cbn [flat_map frame_pids app] in Hf.
  assert (Hk : forall cs, (forall q, q ∈ flat_map pids cs -> read' q = read q) ->
               Forall (repr read) cs -> Forall (repr read') cs).
  { intros cs Hc HF; rewrite List.Forall_forall in *; intros t Ht; eapply repr_frame; [|by apply HF].
    intros q Hq; apply Hc, elem_of_flat_map; exists t; split; [by apply list_elem_of_In|done]. }
  split_and!.
  - rewrite Hf; [done|left].
  - apply Hk; [|done]; intros q Hq; apply Hf; rewrite elem_of_cons, !elem_of_app; tauto.
  - apply Hk; [|done]; intros q Hq; apply Hf; rewrite elem_of_cons, !elem_of_app; tauto.
  - apply IH; [|done]; intros q Hq; apply Hf; rewrite elem_of_cons, !elem_of_app; unfold ctx_pids in Hq; tauto.
Qed.

(** The frame's node as the code reads it. *)
Lemma frame_node_len (h : nat) (lo hi : option bytes) (f : frame) (p : Z) :
  frame_ok h lo hi f ->
  length ((pid_of <$> fr_cs1 f) ++ p :: (pid_of <$> fr_cs2 f)) = S (length (fr_ks1 f ++ fr_ks2 f)).
Proof.
  intros [_ _ Hl _ Hr]; rewrite !length_app, length_cons, !length_fmap.
  destruct (fr_ks2 f) as [|k ks2]; cbn [kids_right] in Hr.
  - rewrite Hr; cbn; lia.
  - apply kids_length in Hr; cbn [length]; lia.
Qed.

(** A filled frame is a well-formed node. *)
Lemma plug1_wf (h : nat) (lo hi : option bytes) (f : frame) (t : ptree) :
  frame_wf h lo hi f -> wf_tree h (last_or lo (fr_ks1 f)) (head_or hi (fr_ks2 f)) t ->
  wf_tree (S h) lo hi (plug1 f t).
Proof.
  intros [Hne [Hs Hw Hl H1 H2]] Ht; cbn [plug1 wf_tree]; split_and!; try done; by apply kids_zip.
Qed.

(** ** The neighbour of the hole

    [neighbour f left sib sep f']: [sib] is the child next to the hole of [f], on
    the left if [left], [sep] the separator between them, and [f'] the frame
    without the hole and [sep], with [sib] as its hole. *)
Inductive neighbour : frame -> bool -> ptree -> bytes -> frame -> Prop :=
  | neighbour_left p ks1 ks2 cs1 cs2 sib sep :
      neighbour {| fr_pid := p; fr_ks1 := ks1 ++ [sep]; fr_ks2 := ks2;
                   fr_cs1 := cs1 ++ [sib]; fr_cs2 := cs2 |} true sib sep
                {| fr_pid := p; fr_ks1 := ks1; fr_ks2 := ks2; fr_cs1 := cs1; fr_cs2 := cs2 |}
  | neighbour_right p ks2 cs2 sib sep :
      neighbour {| fr_pid := p; fr_ks1 := []; fr_ks2 := sep :: ks2;
                   fr_cs1 := []; fr_cs2 := sib :: cs2 |} false sib sep
                {| fr_pid := p; fr_ks1 := []; fr_ks2 := ks2; fr_cs1 := []; fr_cs2 := cs2 |}.

Lemma neighbour_pid (f : frame) (left : bool) (sib : ptree) (sep : bytes) (f' : frame) :
  neighbour f left sib sep f' -> fr_pid f' = fr_pid f.
Proof. by intros []. Qed.

Lemma neighbour_exists (h : nat) (lo hi : option bytes) (f : frame) :
  frame_wf h lo hi f -> exists left sib sep f', neighbour f left sib sep f'.
Proof.
  intros [Hne [_ _ Hl H1 H2]]; destruct f as [p ks1 ks2 cs1 cs2]; cbn in *.
  destruct cs1 as [|sib cs1 _] using rev_ind.
  - destruct ks1; [|done]; destruct ks2 as [|sep ks2]; [done|]; cbn [kids_right] in H2.
    apply kids_length in H2; destruct cs2 as [|sib cs2]; [done|].
    exists false, sib, sep; eexists; constructor.
  - destruct ks1 as [|sep ks1 _] using rev_ind; [rewrite length_app in Hl; cbn in Hl; lia|].
    exists true, sib, sep; eexists; constructor.
Qed.

Lemma last_or_snoc (lo : option bytes) (ks : list bytes) (k : bytes) : last_or lo (ks ++ [k]) = Some k.
Proof. revert lo; induction ks as [|k' ks IH]; intros lo; cbn [app last_or]; [done|apply IH]. Qed.

(** Bounds around the separator. *)
Record between (h : nat) (lo hi : option bytes) (f : frame) (left : bool) (sib : ptree) (sep : bytes)
    (f' : frame) : Prop := {
  bt_ok : frame_ok h lo hi f';
  bt_sib : if left
           then wf_tree h (last_or lo (fr_ks1 f')) (Some sep) sib
           else wf_tree h (Some sep) (head_or hi (fr_ks2 f')) sib;
  bt_lo : last_or lo (fr_ks1 f) = if left then Some sep else last_or lo (fr_ks1 f');
  bt_hi : head_or hi (fr_ks2 f) = if left then head_or hi (fr_ks2 f') else Some sep;
  bt_sep : inside (last_or lo (fr_ks1 f')) (head_or hi (fr_ks2 f')) sep;
  bt_outer : inside lo hi sep
}.

Lemma neighbour_between (h : nat) (lo hi : option bytes) (f : frame) (left : bool) (sib : ptree)
    (sep : bytes) (f' : frame) :
  neighbour f left sib sep f' -> frame_wf h lo hi f -> between h lo hi f left sib sep f'.
Proof.
  intros [p ks1 ks2 cs1 cs2 sib' sep'|p ks2 cs2 sib' sep'] [_ [Hs Hw Hl H1 H2]]; cbn in Hs, Hw, Hl, H1, H2.
  - rewrite !length_app in Hl; cbn [length] in Hl.
    apply kids_left_snoc in H1 as [H1 Hsib]; [|lia].
    rewrite <- app_assoc in Hs, Hw; cbn [app] in Hs, Hw; pose proof Hs as Hs0.
    apply Forall_app in Hw as [Hw1 Hw2]; apply Forall_cons_iff in Hw2 as [Hsep Hw2].
    apply StronglySorted_app_iff in Hs as (Hs1 & Hs2 & Hs12); apply StronglySorted_inv in Hs2 as [Hs2 Hgt].
    split; cbn.
    + split; cbn; [|by apply Forall_app|lia|done|done].
      apply StronglySorted_app_iff; split_and!; try done.
      eapply Forall_impl; [|exact Hs12]; intros x Hx; by apply Forall_cons_iff in Hx as [_ Hx].
    + done.
    + apply last_or_snoc.
    + done.
    + apply inside_focus; [done| |done]; eapply Forall_impl; [|exact Hs12].
      intros x Hx; by apply Forall_cons_iff in Hx as [Hx _].
    + done.
  - apply Forall_cons_iff in Hw as [Hsep Hw]; apply StronglySorted_inv in Hs as [Hs Hgt].
    split; cbn [fr_ks1 fr_ks2 last_or head_or]; try done.
    + split; cbn; try done; destruct ks2 as [|k ks2], cs2 as [|c cs2]; cbn in H2 |- *; try done; apply H2.
    + destruct ks2 as [|k ks2], cs2 as [|c cs2]; cbn in H2 |- *; try done; apply H2.
    + split; [apply Hsep|]; destruct ks2; cbn; [apply Hsep|]; by apply Forall_cons_iff in Hgt as [Hgt _].
Qed.

(** The frame as seen through its neighbour. *)
Lemma neighbour_node (h : nat) (lo hi : option bytes) (f : frame) (left : bool) (sib : ptree)
    (sep : bytes) (f' : frame) (p : Z) :
  neighbour f left sib sep f' -> frame_ok h lo hi f ->
  fr_pid f' = fr_pid f
  /\ (1 <=? length (fr_cs1 f))%nat = left
  /\ n_count (frame_node f p) = S (length (fr_ks1 f' ++ fr_ks2 f'))
  /\ (length (fr_cs1 f) <= n_count (frame_node f p))%nat
  /\ sdb_btree_child_at (frame_node f p) (if left then length (fr_cs1 f) - 1 else 1)%nat = pid_of sib
  /\ e_key (n_entries (frame_node f p) !!! (length (fr_cs1 f) - 1)%nat) = sep
  /\ sdb_btree_remove_child (frame_node f p) (length (fr_cs1 f)) = frame_node f' (pid_of sib).
Proof.
  intros Hn Hf; pose proof (frame_node_len h lo hi f p Hf) as Hlen; pose proof Hf as [_ _ Hl _ Hr].
  unfold frame_node; rewrite (internal_node_count _ _ Hlen).
  destruct Hn as [q ks1 ks2 cs1 cs2 sib sep|q ks2 cs2 sib sep];
    cbn [fr_pid fr_ks1 fr_ks2 fr_cs1 fr_cs2] in *.
  - rewrite !length_app in Hl; cbn [length] in Hl; rewrite !length_app; cbn [length].
    assert (Hsk : ((ks1 ++ [sep]) ++ ks2) !! length ks1 = Some sep).
    { rewrite <- app_assoc; cbn [app]; by apply list_lookup_middle. }
    rewrite Nat.add_1_r; cbn [Nat.sub]; rewrite Nat.sub_0_r.
    replace (length cs1) with (length ks1) by lia; split_and!; try done; try lia.
    + rewrite internal_node_child by (done || rewrite !length_app; cbn; lia).
      apply list_lookup_total_correct; rewrite fmap_app, <- !app_assoc; cbn [fmap list_fmap app].
      apply list_lookup_middle; rewrite length_fmap; lia.
    + by rewrite (internal_node_entry _ _ Hlen _ _ Hsk).
    + rewrite remove_child_spec by (done || rewrite !length_app; cbn; lia).
      cbn [Nat.sub]; rewrite Nat.sub_0_r, <- !app_assoc, fmap_app, <- app_assoc; cbn [fmap list_fmap app]; f_equal.
      * rewrite (cons_middle (pid_of sib)), app_assoc.
        replace (S (length ks1)) with (length ((pid_of <$> cs1) ++ [pid_of sib]))
          by (rewrite length_app, length_fmap; cbn; lia).
        rewrite delete_middle, <- app_assoc; done.
      * by rewrite delete_middle.
  - split_and!; try reflexivity; cbn; lia.
Qed.

(** ** Merging the neighbour with a survivor *)

Definition combined_tree (p : Z) (left : bool) (sib : ptree) (sep : bytes) (s : ptree) : ptree :=
  match sib with
  | PLeaf _ _ _ => sib
  | PNode _ ks cs => if left then PNode p (ks ++ [sep]) (cs ++ [s]) else PNode p (sep :: ks) (s :: cs)
  end.

Section combined.
Context (p : Z) (left : bool) (q : Z) (ks : list bytes) (cs : list ptree) (sep : bytes) (s : ptree).
Let sib := PNode q ks cs.
Let t := combined_tree p left sib sep s.

Lemma combined_pid : pid_of t = p.
Proof. unfold t, sib; by destruct left. Qed.

Lemma combined_node :
  length cs = S (length ks) -> combine_nodes left (node_of sib) sep (pid_of s) = node_of t.
Proof.
  intros Hl; unfold t, sib, combine_nodes; destruct left; cbn [combined_tree node_of internal_node n_first_child n_entries].
  - destruct cs as [|c cs']; [done|]; injection Hl as Hl; unfold internal_node.
    rewrite fmap_app; cbn [fmap list_fmap app hd tl]; f_equal.
    rewrite zip_with_app by (rewrite length_fmap; lia); done.
  - unfold internal_node; cbn [fmap list_fmap hd tl]; destruct cs as [|c cs']; [done|]; done.
Qed.

Lemma combined_flatten :
  flatten t = if left then flatten sib ++ flatten s else flatten s ++ flatten sib.
Proof.
  unfold t, sib; destruct left; cbn [combined_tree flatten]; [|done].
  rewrite flat_map_app; cbn [flat_map]; by rewrite app_nil_r.
Qed.

Lemma combined_leaves :
  leaves t = if left then leaves sib ++ leaves s else leaves s ++ leaves sib.
Proof.
  unfold t, sib; destruct left; cbn [combined_tree leaves]; [|done].
  rewrite flat_map_app; cbn [flat_map]; by rewrite app_nil_r.
Qed.

Lemma combined_pids : pids t ≡ₚ p :: flat_map pids cs ++ pids s.
Proof.
  unfold t, sib; destruct left; cbn [combined_tree]; rewrite pids_node; apply perm_skip.
  - rewrite flat_map_app; cbn [flat_map]; by rewrite app_nil_r.
  - cbn [flat_map]; apply Permutation_app_comm.
Qed.

Lemma combined_wf (h : nat) (lo hi : option bytes) :
  (if left then wf_tree (S h) lo (Some sep) sib else wf_tree (S h) (Some sep) hi sib) ->
  (if left then wf_tree h (Some sep) hi s else wf_tree h lo (Some sep) s) ->
  inside lo hi sep -> keys_sorted (n_entries (node_of t)) -> wf_tree (S h) lo hi t.
Proof.
  intros Hsib Hs Hw Hso; unfold t, sib in *; destruct left; cbn [combined_tree wf_tree node_of] in *.
  - destruct Hsib as (_ & _ & HF & Hk); pose proof (kids_length _ _ _ _ _ Hk) as Hl.
    apply internal_node_sorted in Hso; [|rewrite length_fmap, !length_app; cbn; lia].
    split_and!; [by destruct ks|done| |].
    + apply Forall_app; split; [|by constructor].
      eapply Forall_impl; [|exact HF]; intros x; apply inside_widen; eauto with bounds.
    + by apply kids_split.
  - destruct Hsib as (_ & _ & HF & Hk); pose proof (kids_length _ _ _ _ _ Hk) as Hl.
    apply internal_node_sorted in Hso; [|rewrite length_fmap; cbn [length]; lia].
    split_and!; [done|done| |done].
    constructor; [done|]; eapply Forall_impl; [|exact HF]; intros x; apply inside_widen; eauto with bounds.
Qed.
End combined.

(** ** The frame through its neighbour: pages, contents, representation *)

Section through.
Context (f : frame) (left : bool) (sib : ptree) (sep : bytes) (f' : frame).
Context (Hn : neighbour f left sib sep f').

Lemma through_pids : frame_pids f ≡ₚ frame_pids f' ++ pids sib.
Proof.
  unfold frame_pids; destruct Hn as [p ks1 ks2 cs1 cs2 sib sep|p ks2 cs2 sib sep]; cbn.
  - apply perm_skip; rewrite flat_map_app; cbn [flat_map]; rewrite app_nil_r, <- !app_assoc.
    apply Permutation_app_head, Permutation_app_comm.
  - apply perm_skip, Permutation_app_comm.
Qed.

Lemma through_flatten (l : list kv) :
  flat_map flatten (fr_cs1 f) ++ l ++ flat_map flatten (fr_cs2 f)
    = flat_map flatten (fr_cs1 f') ++ (if left then flatten sib ++ l else l ++ flatten sib)
        ++ flat_map flatten (fr_cs2 f').
Proof.
  destruct Hn as [p ks1 ks2 cs1 cs2 sib sep|p ks2 cs2 sib sep]; cbn.
  - rewrite flat_map_app; cbn [flat_map]; by rewrite app_nil_r, <- !app_assoc.
  - by rewrite <- app_assoc.
Qed.

Lemma through_leaves (l : list (Z * Z * list kv)) :
  flat_map leaves (fr_cs1 f) ++ l ++ flat_map leaves (fr_cs2 f)
    = flat_map leaves (fr_cs1 f') ++ (if left then leaves sib ++ l else l ++ leaves sib)
        ++ flat_map leaves (fr_cs2 f').
Proof.
  destruct Hn as [p ks1 ks2 cs1 cs2 sib sep|p ks2 cs2 sib sep]; cbn.
  - rewrite flat_map_app; cbn [flat_map]; by rewrite app_nil_r, <- !app_assoc.
  - by rewrite <- app_assoc.
Qed.

Lemma through_repr (read : Z -> result sdb_btree_node) :
  Forall (repr read) (fr_cs1 f) /\ Forall (repr read) (fr_cs2 f)
    <-> (Forall (repr read) (fr_cs1 f') /\ Forall (repr read) (fr_cs2 f')) /\ repr read sib.
Proof.
  destruct Hn as [p ks1 ks2 cs1 cs2 sib sep|p ks2 cs2 sib sep]; cbn.
  - rewrite Forall_app, Forall_cons_iff; assert (Forall (repr read) []) by constructor; tauto.
  - rewrite Forall_cons_iff; tauto.
Qed.
End through.

Lemma ctx_flatten_snoc (fs : list frame) (f : frame) (l : list kv) :
  ctx_flatten (fs ++ [f]) l
    = ctx_flatten fs (flat_map flatten (fr_cs1 f) ++ l ++ flat_map flatten (fr_cs2 f)).
Proof. unfold ctx_flatten; by rewrite foldr_app. Qed.

Lemma ctx_leaves_snoc (fs : list frame) (f : frame) (l : list (Z * Z * list kv)) :
  left_leaves (fs ++ [f]) ++ l ++ right_leaves (fs ++ [f])
    = left_leaves fs ++ (flat_map leaves (fr_cs1 f) ++ l ++ flat_map leaves (fr_cs2 f)) ++ right_leaves fs.
Proof.
  rewrite left_leaves_app, right_leaves_app; unfold left_leaves at 2, right_leaves at 1.
  cbn [rev app flat_map]; by rewrite !app_nil_r, <- !app_assoc.
Qed.

Lemma frame_empty (h : nat) (lo hi : option bytes) (f : frame) :
  frame_ok h lo hi f -> fr_ks1 f ++ fr_ks2 f = [] ->
  fr_ks1 f = [] /\ fr_ks2 f = [] /\ fr_cs1 f = [] /\ fr_cs2 f = [].
Proof.
  intros [_ _ Hl _ Hr] E; apply app_eq_nil in E as [E1 E2]; rewrite E1 in Hl; rewrite E2 in Hr.
  cbn [kids_right] in Hr; by destruct (fr_cs1 f).
Qed.

(** Replacing a separator in place, as the code does. *)
Lemma replace_key_spec (ids : list Z) (ks : list bytes) (i : nat) (k : bytes) :
  length ids = S (length ks) -> (i < length ks)%nat ->
  let node := internal_node ids ks in
  let old := n_entries node !!! i in
  set_entries node (<[i := {| e_key := k; e_value := e_value old; e_right_child := e_right_child old |}]>
                     (n_entries node))
    = internal_node ids (<[i := k]> ks).
Proof.
  intros Hl Hi node old; destruct (lookup_lt_is_Some_2 ks i Hi) as [k0 Hk0].
  unfold old, node; rewrite (internal_node_entry _ _ Hl _ _ Hk0).
  destruct ids as [|c ids]; [done|]; injection Hl as Hl; unfold set_entries, internal_node.
  cbn [n_kind n_right_sibling n_first_child n_entries hd tl internal_entry e_value e_right_child]; f_equal.
  replace ((c :: ids) !!! S i) with (ids !!! i) by done.
  destruct (lookup_lt_is_Some_2 ids i ltac:(lia)) as [c0 Hc0].
  rewrite (list_lookup_total_correct _ _ _ Hc0).
  change {| e_key := k; e_value := []; e_right_child := c0 |} with (internal_entry k c0).
  by rewrite insert_zip_with, (list_insert_id ids i c0 Hc0).
Qed.

Lemma neighbour_replace (h : nat) (lo hi : option bytes) (f : frame) (left : bool) (sib : ptree)
    (sep : bytes) (f' : frame) (p : Z) (k : bytes) :
  neighbour f left sib sep f' -> frame_ok h lo hi f ->
  let node := frame_node f p in
  let slot := (length (fr_cs1 f) - 1)%nat in
  let old := n_entries node !!! slot in
  set_entries node (<[slot := {| e_key := k; e_value := e_value old; e_right_child := e_right_child old |}]>
                     (n_entries node))
    = internal_node ((pid_of <$> fr_cs1 f') ++ (if left then [pid_of sib; p] else [p; pid_of sib])
                       ++ (pid_of <$> fr_cs2 f')) (fr_ks1 f' ++ k :: fr_ks2 f').
Proof.
  intros Hn Hf; pose proof (frame_node_len h lo hi f p Hf) as Hlen; pose proof Hf as [_ _ Hl _ Hr].
  destruct Hn as [q ks1 ks2 cs1 cs2 sib sep|q ks2 cs2 sib sep];
    cbn [fr_pid fr_ks1 fr_ks2 fr_cs1 fr_cs2] in *; cbv zeta; unfold frame_node; cbn [fr_ks1 fr_ks2 fr_cs1 fr_cs2].
  - rewrite !length_app in Hl; cbn [length] in Hl; rewrite replace_key_spec by (done || rewrite !length_app; cbn; lia).
    f_equal; [rewrite fmap_app, <- !app_assoc; done|].
    rewrite length_app, <- app_assoc; cbn [length app].
    replace (length cs1 + 1 - 1)%nat with (length ks1 + 0)%nat by lia; by rewrite insert_app_r.
  - rewrite replace_key_spec by (done || cbn; lia); done.
Qed.
