(* ===== verification/BtreeReclaim.v ===== *)
(** * Merging and refilling internal pages

    When deletion leaves an internal page with a single child,
    [sdb_btree_reclaim_internal_up] merges it with a neighbour, or refills both
    from the merged node, level by level up to the root, which is replaced by its
    only child.  Every path is shown to produce a well-formed tree with the same
    bindings and leaves, and to release exactly the pages that left the tree. *)

From S2P Require Import Prelude Status Codec Keys Page BtreePage OrderedMap PagerInterface BtreeNode BtreeTree Btree BtreeGet BtreeBatch BtreeInsert BtreePut BtreeContext.

Lemma perm_extract {A} (x y : A) (l1 l2 l3 l4 : list A) :
  l1 ++ l2 ++ y :: l3 ++ x :: l4 ≡ₚ x :: l1 ++ l2 ++ y :: l3 ++ l4.
Proof.
  replace (l1 ++ l2 ++ y :: l3 ++ x :: l4) with ((l1 ++ l2 ++ y :: l3) ++ x :: l4) by (by rewrite <- !app_assoc).
  rewrite <- Permutation_middle, <- !app_assoc; done.
Qed.

Lemma perm_two_pages {A} (x y : A) (l1 l2 l3 l4 m1 m2 : list A) :
  m1 ++ m2 ≡ₚ l3 ++ l4 ->
  (l1 ++ l2) ++ x :: l3 ++ y :: l4 ≡ₚ l1 ++ (x :: m1) ++ (y :: m2) ++ l2.
Proof.
  intros Hm; rewrite <- app_assoc; apply Permutation_app_head; rewrite (Permutation_app_comm l2).
  cbn [app]; apply perm_skip; rewrite <- !Permutation_middle; cbn [app].
  apply perm_skip; by rewrite !app_assoc, Hm.
Qed.

Lemma pids_of_kids (cs : list ptree) (x : Z) : x ∈ pid_of <$> cs -> x ∈ flat_map pids cs.
Proof.
  intros Hx; apply list_elem_of_fmap in Hx as (c & -> & Hc); apply elem_of_flat_map.
  exists c; split; [done|apply pid_in_pids].
Qed.

(** Split [NoDup] of concatenations into its parts. *)
Ltac split_nodup :=
  repeat match goal with
  | H : NoDup (_ :: _) |- _ => apply list.NoDup_cons in H as [? H]
  | H : NoDup (_ ++ _) |- _ => apply list.NoDup_app in H as (? & ? & H)
  end.

(** Membership in concatenations, by propositional reasoning. *)
Ltac mem := repeat first [rewrite elem_of_app in * | rewrite elem_of_cons in * | rewrite elem_of_nil in *].

(** No element [x] of one part of a duplicate-free list is in another. *)
Ltac disjoint x :=
  repeat match goal with H : x ∈ _ :: _ |- _ => apply elem_of_cons in H as [H|H] end; mem; subst; try tauto;
  match goal with Hx : ?z ∈ _ |- _ =>
    split_nodup;
    repeat match goal with
    | H : forall y, y ∈ ?A -> _ |- _ =>
        first [ let Hm := fresh in assert (Hm : z ∈ A) by (clear H; mem; tauto); specialize (H z Hm) | clear H ]
    end;
    mem; tauto
  end.

Lemma foldl_sumZ {A} (f : A -> Z) (l : list A) (z : Z) : foldl (fun t x => t + f x) z l = z + sumZ f l.
Proof.
  revert z; induction l as [|x l IH]; intros z; cbn [foldl]; [cbn; lia|]; rewrite IH, sumZ_cons; lia.
Qed.

Section Reclaim.
Context {P T : Type} `{!PagerOps P T} `{!PagerLaws P T}.

Implicit Types b : sdb_btree_batch (T := T).

Abbreviation rd := sdb_btree_batch_read_node.

(** ** Page bookkeeping *)

(** The pages [U] are the ones the tree under construction owns. *)
Record pages_inv b (U : list Z) : Prop := {
  pi_ok : batch_ok b;
  pi_nodup : NoDup U;
  pi_use : Forall (txn_in_use (b_txn b)) U;
  pi_staged : forall q, q ∈ staged b -> q ∈ U;
  pi_alloc : forall q, q ∈ txn_allocated_pages (b_txn b) -> q ∈ staged b
}.

#[global] Instance pages_inv_proper b : Proper ((≡ₚ) ==> iff) (pages_inv b).
Proof.
  assert (H : forall U V, U ≡ₚ V -> pages_inv b U -> pages_inv b V).
  { intros U V HUV [Ho Hn Hu Hs Ha]; split; try done.
    - by rewrite <- HUV.
    - rewrite List.Forall_forall in *; intros q Hq; apply Hu, list_elem_of_In.
      rewrite HUV; by apply list_elem_of_In.
    - intros q Hq; rewrite <- HUV; by apply Hs. }
  intros U V HUV; split; apply H; done.
Qed.

Lemma stage_pages b b' (U : list Z) (p : Z) (node : sdb_btree_node) :
  pages_inv b U -> p ∈ U -> node_typed node -> sdb_btree_stage p node b = (Ok tt, b') ->
  pages_inv b' U /\ rd b' p = Ok node /\ (forall q, q <> p -> rd b' q = rd b q)
  /\ same_env b b' /\ node_wf node.
Proof.
  intros [Ho Hn Hu Hs Ha] Hp Ht H; apply stage_spec in H as (E & Hst & Hr & Hwf); [|done|done].
  destruct E as [Eo Er _ Eu Ea Es Es' Ec Eroot Eact Ef]; split_and!; try done.
  - split; try done.
    + eapply Forall_impl; [|exact Hu]; exact Eu.
    + intros q Hq; apply Es in Hq as [Hq|Hq]; [by apply Hs|].
      by apply list_elem_of_singleton in Hq as ->.
    + intros q Hq; apply Ea in Hq as [Hq|Hq]; [by apply Es', Ha|].
      by apply list_elem_of_singleton in Hq as ->.
  - intros q Hq; apply Er; by rewrite list_elem_of_singleton.
Qed.

Lemma find_item_unstage (items : list sdb_btree_mutation) (p q : Z) :
  q <> p ->
  snd <$> list_find (fun m => m_page_id m = q) (unstage_item items p)
    = snd <$> list_find (fun m => m_page_id m = q) items.
Proof.
  intros Hq; induction items as [|m items IH]; cbn [unstage_item]; [done|].
  destruct (Z.eqb_spec (m_page_id m) p) as [E|E]; cbn [list_find].
  - rewrite decide_False by congruence; by destruct (list_find _ items) as [[]|].
  - destruct (decide (m_page_id m = q)); [done|].
    destruct (list_find _ (unstage_item _ _)) as [[]|], (list_find _ items) as [[]|]; done.
Qed.

Lemma staged_unstage (items : list sdb_btree_mutation) (p q : Z) :
  NoDup (m_page_id <$> items) ->
  q ∈ m_page_id <$> unstage_item items p <-> q ∈ m_page_id <$> items /\ q <> p.
Proof.
  induction items as [|m items IH]; cbn [unstage_item]; [set_solver|].
  rewrite fmap_cons; intros Hn; apply list.NoDup_cons in Hn as [Hm Hn].
  destruct (Z.eqb_spec (m_page_id m) p) as [E|E].
  - subst p; split; [intros Hq; split; [by right|]; intros ->; done|].
    intros [Hq Hne]; apply elem_of_cons in Hq as [Hq|Hq]; done.
  - rewrite fmap_cons, !elem_of_cons, IH by done; naive_solver.
Qed.

Lemma NoDup_unstage (items : list sdb_btree_mutation) (p : Z) :
  NoDup (m_page_id <$> items) -> NoDup (m_page_id <$> unstage_item items p).
Proof.
  induction items as [|m items IH]; cbn [unstage_item]; [done|].
  rewrite fmap_cons; intros Hn; pose proof Hn as Hn'; apply list.NoDup_cons in Hn as [Hm Hn].
  destruct (Z.eqb_spec (m_page_id m) p) as [E|E]; [done|].
  rewrite fmap_cons; apply list.NoDup_cons; split; [|by apply IH].
  intros Hin; apply staged_unstage in Hin as [Hin _]; done.
Qed.

(** Releasing a page: unstage it and hand it to the transaction. *)
Lemma release_pages b b1 b' (U : list Z) (p : Z) :
  pages_inv b (p :: U) -> sdb_btree_unstage p b = (Ok tt, b1) -> batch_free p b1 = (Ok tt, b') ->
  pages_inv b' U /\ (forall q, q <> p -> rd b' q = rd b q) /\ same_env b b'.
Proof.
  intros [[Ht Hn Hcl Hor] HU Hu Hs Ha] H1 H2; injection H1 as <-; unfold batch_free in H2.
  destruct (txn_free _ _) as [r t] eqn:E; injection H2 as -> <-.
  cbn [set_items b_txn] in E; apply Forall_cons_iff in Hu as [Hup Hu].
  apply list.NoDup_cons in HU as [HpU HU].
  destruct (free_law _ _ _ Ht Hup E) as (Ht' & Huse & Hal & Hso).
  pose proof (free_pager (b_txn b) p) as Hread; rewrite E in Hread; cbn [snd] in Hread.
  unfold staged in *; split_and!.
  - split; [split; [done| | |]|done| | |]; unfold staged; cbn [set_txn set_items b_items b_txn].
    + by apply NoDup_unstage.
    + intros q Hq; apply Huse in Hq as [Hq Hne]; rewrite Hso by done; by apply Hcl.
    + intros q Hq; apply Huse in Hq as [Hq Hne]; unfold b_pager in *; cbn [set_txn set_items b_txn].
      rewrite Hread, Hal; apply Hor in Hq; tauto.
    + rewrite List.Forall_forall in *; intros q Hq; apply Huse; split; [by apply Hu|].
      intros ->; by apply HpU, list_elem_of_In.
    + intros q Hq; apply staged_unstage in Hq as [Hq Hne]; [|done].
      apply Hs in Hq; apply elem_of_cons in Hq as [Hq|Hq]; done.
    + intros q Hq; apply Hal in Hq as [Hq Hne]; apply staged_unstage; [done|]; split; [by apply Ha|done].
  - intros q Hq; unfold sdb_btree_batch_read_node, sdb_btree_find_staged, sdb_btree_read_node, b_pager.
    cbn [set_txn set_items b_items b_txn]; rewrite find_item_unstage by done; by rewrite (pager_read_proper _ _ Hread q q eq_refl).
  - by split.
Qed.

Lemma pages_typed b (U ids : list Z) :
  pages_inv b U -> (forall q, q ∈ ids -> q ∈ U) -> Forall (fun p => 0 < p < 2 ^ 64) ids.
Proof.
  intros [Ho _ Hu _ _] Hi; apply (in_use_typed b); [done|]; rewrite List.Forall_forall in *.
  intros q Hq; apply Hu, list_elem_of_In, Hi; by apply list_elem_of_In.
Qed.

Lemma internal_typed b (U : list Z) (p : Z) (ks : list bytes) (cs : list ptree) :
  pages_inv b U -> (forall x, x ∈ flat_map pids cs -> x ∈ U) -> node_typed (node_of (PNode p ks cs)).
Proof.
  intros Hp Hs; apply internal_node_typed, (pages_typed _ _ _ Hp); intros x Hx; by apply Hs, pids_of_kids.
Qed.

(** Pages outside [X] read the same. *)
Definition keeps b b' (X : list Z) : Prop := forall q, q ∉ X -> rd b' q = rd b q.

Lemma keeps_trans b1 b2 b3 (X Y : list Z) : keeps b1 b2 X -> keeps b2 b3 Y -> keeps b1 b3 (X ++ Y).
Proof. intros H1 H2 q Hq; rewrite elem_of_app in Hq; rewrite H2, H1 by tauto; done. Qed.

Lemma keeps_one b b' (p : Z) : (forall q, q <> p -> rd b' q = rd b q) -> keeps b b' [p].
Proof. intros H q Hq; apply H; by rewrite list_elem_of_singleton in Hq. Qed.

Lemma keeps_repr b b' (X : list Z) (t : ptree) :
  keeps b b' X -> (forall q, q ∈ pids t -> q ∉ X) -> repr (rd b) t -> repr (rd b') t.
Proof. intros Hk Hd; apply repr_frame; intros q Hq; apply Hk; by apply Hd. Qed.

Lemma keeps_kids b b' (X : list Z) (cs : list ptree) :
  keeps b b' X -> (forall q, q ∈ flat_map pids cs -> q ∉ X) ->
  Forall (repr (rd b)) cs -> Forall (repr (rd b')) cs.
Proof.
  intros Hk Hd HF; rewrite List.Forall_forall in *; intros t Ht; specialize (HF t Ht).
  eapply keeps_repr; [done| |exact HF]; intros q Hq; apply Hd, elem_of_flat_map.
  exists t; split; [by apply list_elem_of_In|done].
Qed.

Lemma keeps_ctx b b' (X : list Z) (fs : list frame) (p : Z) :
  keeps b b' X -> (forall q, q ∈ ctx_pids fs -> q ∉ X) -> ctx_repr (rd b) fs p -> ctx_repr (rd b') fs p.
Proof. intros Hk Hd; apply ctx_repr_frame; intros q Hq; apply Hk; by apply Hd. Qed.

Lemma encoded_size_sorted (node : sdb_btree_node) (size : Z) :
  node_typed node -> sdb_btree_node_encoded_size node = Ok size -> keys_sorted (n_entries node).
Proof.
  intros (_ & _ & Ht) H; unfold sdb_btree_node_encoded_size in H; inv_ok H.
  by apply encoded_size_loop_inv in H as (_ & _ & Hs & _).
Qed.

(** ** A node that is down to one child

    [deficit b fs p s hs lo hi H]: the internal page [p] in the context [fs] has
    only the subtree [s] left. *)
Record deficit b (fs : list frame) (p : Z) (s : ptree) (hs : nat) (lo hi : option bytes) (H : nat) : Prop := {
  df_ctx : ctx_wf H None None fs (S hs) lo hi;
  df_wf : wf_tree hs lo hi s;
  df_crepr : ctx_repr (rd b) fs p;
  df_repr : repr (rd b) s;
  df_pages : pages_inv b (ctx_pids fs ++ p :: pids s);
  df_root : ctx_root fs p = b_root_page b
}.

(** The outcome: a well-formed tree [t] of height [H] with the bindings [l] and
    the leaves [ls]. *)
Record rebuilt b b' (l : list kv) (ls : list (Z * Z * list kv)) (t : ptree) (H : nat) : Prop := {
  rb_pages : pages_inv b' (pids t);
  rb_repr : repr (rd b') t;
  rb_root : pid_of t = b_root_page b';
  rb_wf : wf_tree H None None t;
  rb_flatten : flatten t = l;
  rb_leaves : leaves t = ls;
  rb_env : same_env b b'
}.

(** The parent [f] is about to be written: its hole holds [t]. *)
Record opened b (fs : list frame) (f : frame) (t : ptree) (h : nat) (lo hi : option bytes) (H : nat) : Prop := {
  op_ctx : ctx_wf H None None fs (S h) lo hi;
  op_frame : frame_ok h lo hi f;
  op_wf : wf_tree h (last_or lo (fr_ks1 f)) (head_or hi (fr_ks2 f)) t;
  op_crepr : ctx_repr (rd b) fs (fr_pid f);
  op_left : Forall (repr (rd b)) (fr_cs1 f);
  op_right : Forall (repr (rd b)) (fr_cs2 f);
  op_repr : repr (rd b) t;
  op_pages : pages_inv b (ctx_pids fs ++ frame_pids f ++ pids t);
  op_root : ctx_root fs (fr_pid f) = b_root_page b
}.

(** It still has separators: write it. *)
Lemma store_parent b b' (fs : list frame) (f : frame) (t : ptree) (h : nat) (lo hi : option bytes) (H : nat) :
  opened b fs f t h lo hi H -> fr_ks1 f ++ fr_ks2 f <> [] ->
  sdb_btree_stage (fr_pid f) (frame_node f (pid_of t)) b = (Ok tt, b') ->
  rebuilt b b' (ctx_flatten fs (flat_map flatten (fr_cs1 f) ++ flatten t ++ flat_map flatten (fr_cs2 f)))
    (left_leaves fs ++ (flat_map leaves (fr_cs1 f) ++ leaves t ++ flat_map leaves (fr_cs2 f)) ++ right_leaves fs)
    (plug fs (plug1 f t)) H.
Proof.
  intros [Hc Hf Hw Hcr H1 H2 Hr Hp Hro] Hne Hst; pose proof (pi_nodup _ _ Hp) as Hnd.
  assert (En : node_of (plug1 f t) = frame_node f (pid_of t))
    by (unfold plug1, frame_node; cbn [node_of]; by rewrite fmap_app, fmap_cons).
  assert (Hps : pids (plug1 f t) ≡ₚ frame_pids f ++ pids t).
  { pose proof (plug_pids [f] t) as E; unfold ctx_pids in E; cbn [flat_map] in E; by rewrite app_nil_r in E. }
  rewrite <- En in Hst; apply (stage_pages _ _ _ _ _ Hp) in Hst as (Hp' & Hr' & Hk & Ee & _).
  2: { unfold frame_pids; mem; tauto. }
  2: { eapply internal_typed; [exact Hp|]; intros x Hx; unfold frame_pids.
       rewrite flat_map_app in Hx; cbn [flat_map] in Hx; mem; tauto. }
  assert (Hke : keeps b b' [fr_pid f]) by (by apply keeps_one); unfold frame_pids in Hnd; split; try done.
  - by rewrite plug_pids, Hps.
  - apply plug_repr; split; [eapply keeps_ctx; [done| |done]; intros x Hx Hin; clear - Hnd Hx Hin; disjoint x|].
    apply repr_kids; [done|]; cbn [plug1]; rewrite Forall_app, Forall_cons_iff; split_and!.
    + eapply keeps_kids; [done| |done]; intros x Hx Hin; clear - Hnd Hx Hin; disjoint x.
    + eapply keeps_repr; [done| |done]; intros x Hx Hin; clear - Hnd Hx Hin; disjoint x.
    + eapply keeps_kids; [done| |done]; intros x Hx Hin; clear - Hnd Hx Hin; disjoint x.
  - by rewrite plug_pid, (se_root _ _ Ee).
  - eapply plug_wf; [exact Hc|]; by apply plug1_wf.
  - rewrite plug_flatten; cbn [plug1 flatten]; by rewrite flat_map_app.
  - rewrite plug_leaves; cbn [plug1 leaves]; by rewrite flat_map_app.
Qed.

(** It has none: it is down to one child. *)
Lemma opened_deficit b (fs : list frame) (f : frame) (t : ptree) (h : nat) (lo hi : option bytes) (H : nat) :
  opened b fs f t h lo hi H -> fr_ks1 f ++ fr_ks2 f = [] ->
  deficit b fs (fr_pid f) t h lo hi H /\ fr_cs1 f = [] /\ fr_cs2 f = [].
Proof.
  intros [Hc Hf Hw Hcr H1 H2 Hr Hp Hro] Hne; destruct (frame_empty _ _ _ _ Hf Hne) as (E1 & E2 & E3 & E4).
  unfold frame_pids in Hp; rewrite E3, E4 in Hp; rewrite E1, E2 in Hw; split; [|done]; by split.
Qed.

(** ** Splitting the combined node *)

Lemma redistribute_eq b (pp lp rp : Z) (parent : sdb_btree_node) (slot : nat) (ids : list Z) (ks : list bytes)
    (m : nat) (k : bytes) :
  let es := n_entries (internal_node ids ks) in
  length ids = S (length ks) -> ks !! m = Some k ->
  split_internal_loop (b_capacity b) (sumZ internal_entry_size es) (drop 1 es) 1
    (internal_entry_size (es !!! 0%nat)) None SIZE_MAX = Some m ->
  redistribute pp lp rp parent slot (internal_node ids ks) b
    = (_ ← sdb_btree_stage lp (internal_node (take (S m) ids) (take m ks));
       _ ← sdb_btree_stage rp (internal_node (drop (S m) ids) (drop (S m) ks));
       let old := n_entries parent !!! slot in
       sdb_btree_stage pp
         (set_entries parent (<[slot := {| e_key := k; e_value := e_value old;
                                           e_right_child := e_right_child old |}]> (n_entries parent)))) b.
Proof.
  cbv zeta; intros Hl Hk E; apply lookup_lt_Some in Hk as Hm; unfold redistribute.
  unfold mbind at 1, batchM_bind at 1, batch_get; rewrite foldl_sumZ, Z.add_0_l, E; cbv zeta.
  rewrite <- internal_take_spec, <- internal_drop_spec by done.
  by rewrite (internal_node_entry ids ks Hl m k Hk).
Qed.

Lemma redistribute_inv b b' (pp lp rp : Z) (parent : sdb_btree_node) (slot : nat) (ids : list Z) (ks : list bytes) :
  length ids = S (length ks) ->
  redistribute pp lp rp parent slot (internal_node ids ks) b = (Ok tt, b') ->
  exists m k b1 b2, ks !! m = Some k /\ (1 <= m)%nat /\ (S m < length ks)%nat
    /\ sdb_btree_stage lp (internal_node (take (S m) ids) (take m ks)) b = (Ok tt, b1)
    /\ sdb_btree_stage rp (internal_node (drop (S m) ids) (drop (S m) ks)) b1 = (Ok tt, b2)
    /\ sdb_btree_stage pp
         (let old := n_entries parent !!! slot in
          set_entries parent (<[slot := {| e_key := k; e_value := e_value old;
                                           e_right_child := e_right_child old |}]> (n_entries parent))) b2
       = (Ok tt, b').
Proof.
  intros Hl H; pose proof (internal_node_count ids ks Hl) as Hle; unfold n_count in Hle.
  destruct (split_internal_loop (b_capacity b) (sumZ internal_entry_size (n_entries (internal_node ids ks)))
    (drop 1 (n_entries (internal_node ids ks))) 1 (internal_entry_size (n_entries (internal_node ids ks) !!! 0%nat))
    None SIZE_MAX) as [m|] eqn:E.
  - assert (Hm : (1 <= m)%nat /\ (S m < length ks)%nat).
    { rewrite <- Hle; destruct (n_entries (internal_node ids ks)) as [|e0 es0]; [done|]; by apply split_internal_middle in E. }
    destruct (lookup_lt_is_Some_2 ks m ltac:(lia)) as [k Hk]; rewrite (redistribute_eq _ _ _ _ _ _ _ _ _ _ Hl Hk E) in H.
    inv_batch H; destruct a, a0; exists m, k, b0, b1; split_and!; try done; lia.
  - unfold redistribute in H; inv_batch H; apply get_inv in Hb as [-> ->].
    rewrite foldl_sumZ in H; rewrite Z.add_0_l, E in H; done.
Qed.

(** ** Merging with the neighbour *)

Section Merge.
Context b (fs : list frame) (f : frame) (p : Z) (s : ptree) (hs : nat) (lo hi : option bytes) (H : nat).
Context (left : bool) (q : Z) (ks : list bytes) (cs : list ptree) (sep : bytes) (f' : frame).
Context (Hdf : deficit b (fs ++ [f]) p s hs lo hi H) (Hnb : neighbour f left (PNode q ks cs) sep f').

Abbreviation comb r := (combined_tree r left (PNode q ks cs) sep s).

Lemma merge_pid : fr_pid f' = fr_pid f.
Proof. apply (neighbour_pid _ _ _ _ _ Hnb). Qed.

Lemma merge_pages : pages_inv b (ctx_pids fs ++ frame_pids f' ++ q :: flat_map pids cs ++ p :: pids s).
Proof.
  pose proof (df_pages _ _ _ _ _ _ _ _ Hdf) as Hp; rewrite ctx_pids_app, <- app_assoc in Hp.
  unfold ctx_pids at 2 in Hp; cbn [flat_map] in Hp; rewrite app_nil_r in Hp.
  rewrite (through_pids _ _ _ _ _ Hnb), pids_node, <- app_assoc in Hp; exact Hp.
Qed.

Lemma merge_read :
  ctx_repr (rd b) fs (fr_pid f) /\ rd b (fr_pid f) = Ok (frame_node f p)
  /\ rd b q = Ok (node_of (PNode q ks cs))
  /\ Forall (repr (rd b)) (fr_cs1 f') /\ Forall (repr (rd b)) (fr_cs2 f')
  /\ Forall (repr (rd b)) cs /\ repr (rd b) s.
Proof.
  pose proof (df_crepr _ _ _ _ _ _ _ _ Hdf) as Hc; apply ctx_repr_snoc in Hc as (Hc & Hr & H12).
  apply (through_repr _ _ _ _ _ Hnb) in H12 as [[H1 H2] Hs].
  pose proof (repr_root _ _ Hs) as Hq; apply repr_node in Hs as [_ Hs].
  split_and!; try done; apply (df_repr _ _ _ _ _ _ _ _ Hdf).
Qed.

Lemma merge_bounds : exists lo1 hi1,
  ctx_wf H None None fs (S (S hs)) lo1 hi1 /\ frame_wf (S hs) lo1 hi1 f
  /\ between (S hs) lo1 hi1 f left (PNode q ks cs) sep f'
  /\ forall r, keys_sorted (n_entries (node_of (comb r))) ->
       wf_tree (S hs) (last_or lo1 (fr_ks1 f')) (head_or hi1 (fr_ks2 f')) (comb r).
Proof.
  pose proof (df_ctx _ _ _ _ _ _ _ _ Hdf) as Hc; apply ctx_wf_snoc in Hc as (lo1 & hi1 & Hc & Hf & El & Eh).
  pose proof (neighbour_between _ _ _ _ _ _ _ _ Hnb Hf) as Hb; pose proof Hb as [Hok Hsib Hl Hh Hsep _].
  pose proof (df_wf _ _ _ _ _ _ _ _ Hdf) as Hs; rewrite El, Eh, Hl, Hh in Hs.
  exists lo1, hi1; split_and!; try done; intros r Hso.
  apply combined_wf; try done; by destruct left.
Qed.

Lemma merge_typed (r : Z) : node_typed (node_of (comb r)).
Proof.
  assert (Hsub : forall x, x ∈ (pid_of <$> cs) ++ [pid_of s] ->
            x ∈ ctx_pids fs ++ frame_pids f' ++ q :: flat_map pids cs ++ p :: pids s).
  { intros x Hx; apply elem_of_app in Hx as [Hx|Hx].
    - apply pids_of_kids in Hx; rewrite !elem_of_app, elem_of_cons, elem_of_app; tauto.
    - apply list_elem_of_singleton in Hx as ->; pose proof (pid_in_pids s).
      rewrite !elem_of_app, elem_of_cons, elem_of_app, elem_of_cons; tauto. }
  pose proof (pages_typed _ _ _ merge_pages Hsub) as HF; apply Forall_app in HF as [HF1 HF2].
  apply Forall_cons_iff in HF2 as [HF2 _].
  destruct left; cbn [combined_tree node_of]; apply internal_node_typed.
  - rewrite fmap_app; apply Forall_app; split; [done|]; by constructor.
  - rewrite fmap_cons; by constructor.
Qed.

Lemma merge_into_neighbour b1 b2 b3 :
  sdb_btree_stage q (node_of (comb q)) b = (Ok tt, b1) ->
  sdb_btree_unstage p b1 = (Ok tt, b2) -> batch_free p b2 = (Ok tt, b3) ->
  pages_inv b3 (ctx_pids fs ++ frame_pids f' ++ pids (comb q)) /\ keeps b b3 [q; p]
  /\ repr (rd b3) (comb q) /\ same_env b b3.
Proof.
  intros H1 H2 H3; pose proof merge_pages as Hp; pose proof (pi_nodup _ _ Hp) as Hnd.
  destruct merge_read as (_ & _ & _ & _ & _ & Hcs & Hs).
  apply (stage_pages _ _ _ _ _ Hp) in H1 as (Hp1 & Hr1 & Hk1 & Ee1 & _);
    [|rewrite !elem_of_app, elem_of_cons; tauto|apply merge_typed].
  assert (HP : ctx_pids fs ++ frame_pids f' ++ q :: flat_map pids cs ++ p :: pids s
          ≡ₚ p :: ctx_pids fs ++ frame_pids f' ++ pids (comb q)).
  { rewrite combined_pids; apply perm_extract. }
  rewrite HP in Hp1; destruct (release_pages _ _ _ _ _ Hp1 H2 H3) as (Hp3 & Hk3 & Ee3).
  assert (Hk : keeps b b3 [q; p]) by (apply (keeps_trans _ b1 _ [q] [p]); by apply keeps_one).
  assert (Hdis : (q <> p) /\ forall x, x ∈ flat_map pids cs ++ pids s -> x ∉ [q; p]).
  { split_nodup; mem; set_solver. }
  destruct Hdis as [Hqp Hdis]; split_and!; try done; [|by eapply same_env_trans].
  apply repr_kids; [rewrite combined_pid, Hk3 by done; exact Hr1|].
  assert (Forall (repr (rd b3)) cs /\ repr (rd b3) s) as [Hcs3 Hs3].
  { split; [eapply keeps_kids|eapply keeps_repr]; try done; intros x Hx; apply Hdis; rewrite elem_of_app; tauto. }
  destruct left; cbn [combined_tree]; [|by constructor].
  apply Forall_app; split; [done|]; by constructor.
Qed.

Lemma merge_contents (r : Z) :
  ctx_flatten (fs ++ [f]) (flatten s)
    = ctx_flatten fs (flat_map flatten (fr_cs1 f') ++ flatten (comb r) ++ flat_map flatten (fr_cs2 f'))
  /\ left_leaves (fs ++ [f]) ++ leaves s ++ right_leaves (fs ++ [f])
    = left_leaves fs ++ (flat_map leaves (fr_cs1 f') ++ leaves (comb r) ++ flat_map leaves (fr_cs2 f'))
        ++ right_leaves fs.
Proof.
  rewrite ctx_flatten_snoc, ctx_leaves_snoc, (through_flatten _ _ _ _ _ Hnb), (through_leaves _ _ _ _ _ Hnb).
  by rewrite combined_flatten, combined_leaves.
Qed.

(** The parent without the freed child. *)
Lemma merge_opened b1 b2 b3 :
  keys_sorted (n_entries (node_of (comb q))) ->
  sdb_btree_stage q (node_of (comb q)) b = (Ok tt, b1) ->
  sdb_btree_unstage p b1 = (Ok tt, b2) -> batch_free p b2 = (Ok tt, b3) ->
  exists lo1 hi1, opened b3 fs f' (comb q) (S hs) lo1 hi1 H /\ same_env b b3.
Proof.
  intros Hso H1 H2 H3; destruct (merge_into_neighbour _ _ _ H1 H2 H3) as (Hp & Hk & Hr & Ee).
  destruct merge_read as (Hc & _ & _ & Hc1 & Hc2 & _ & _).
  destruct merge_bounds as (lo1 & hi1 & Hcw & _ & [Hok _ _ _ _ _] & Hwf).
  pose proof (pi_nodup _ _ merge_pages) as Hnd; unfold frame_pids in Hnd.
  exists lo1, hi1; split; [|done]; split; try done; rewrite ?merge_pid.
  - by apply Hwf.
  - eapply keeps_ctx; [done| |exact Hc]; intros x Hx Hin; clear - Hnd Hx Hin; disjoint x.
  - eapply keeps_kids; [done| |exact Hc1]; intros x Hx Hin; clear - Hnd Hx Hin; disjoint x.
  - eapply keeps_kids; [done| |exact Hc2]; intros x Hx Hin; clear - Hnd Hx Hin; disjoint x.
  - rewrite (se_root _ _ Ee), <- (df_root _ _ _ _ _ _ _ _ Hdf), ctx_root_app; done.
Qed.

(** The keys and children of the combined node. *)
Definition merged_keys : list bytes := if left then ks ++ [sep] else sep :: ks.
Definition merged_kids : list ptree := if left then cs ++ [s] else s :: cs.

Lemma merged_tree (r : Z) : comb r = PNode r merged_keys merged_kids.
Proof. unfold merged_keys, merged_kids; by destruct left. Qed.

Lemma merged_pids : flat_map pids merged_kids ≡ₚ flat_map pids cs ++ pids s.
Proof.
  pose proof (combined_pids 0 left q ks cs sep s) as E; rewrite merged_tree, pids_node in E.
  by apply Permutation_cons_inv in E.
Qed.

(** The two pages after redistribution. *)
Definition left_half (m : nat) : ptree :=
  PNode (if left then q else p) (take m merged_keys) (take (S m) merged_kids).
Definition right_half (m : nat) : ptree :=
  PNode (if left then p else q) (drop (S m) merged_keys) (drop (S m) merged_kids).
Definition refilled (m : nat) (k : bytes) : ptree :=
  PNode (fr_pid f) (fr_ks1 f' ++ k :: fr_ks2 f') (fr_cs1 f' ++ [left_half m; right_half m] ++ fr_cs2 f').

Lemma refilled_pids (m : nat) (k : bytes) :
  pids (refilled m k) ≡ₚ frame_pids f' ++ q :: flat_map pids cs ++ p :: pids s.
Proof.
  unfold refilled, frame_pids; rewrite pids_node, merge_pid; cbn [app]; apply perm_skip.
  assert (Hm : flat_map pids (take (S m) merged_kids) ++ flat_map pids (drop (S m) merged_kids)
          ≡ₚ flat_map pids cs ++ pids s) by (rewrite <- flat_map_app, take_drop; apply merged_pids).
  rewrite flat_map_app; cbn [flat_map]; unfold left_half, right_half; rewrite !pids_node; symmetry.
  rewrite (perm_two_pages _ _ _ _ _ _ _ _ Hm); apply Permutation_app_head.
  destruct left; cbn [app]; [done|]; rewrite <- !Permutation_middle; cbn [app]; apply perm_swap.
Qed.

Lemma refilled_contents (m : nat) (k : bytes) :
  flatten (refilled m k)
    = flat_map flatten (fr_cs1 f') ++ flatten (comb q) ++ flat_map flatten (fr_cs2 f')
  /\ leaves (refilled m k)
    = flat_map leaves (fr_cs1 f') ++ leaves (comb q) ++ flat_map leaves (fr_cs2 f').
Proof.
  rewrite merged_tree; unfold refilled, left_half, right_half; cbn [flatten leaves].
  rewrite !flat_map_app; cbn [flat_map flatten leaves]; rewrite !app_nil_r, <- !flat_map_app, take_drop; done.
Qed.

Lemma refilled_wf (m : nat) (k : bytes) (lo1 hi1 : option bytes) :
  frame_ok (S hs) lo1 hi1 f' ->
  wf_tree (S hs) (last_or lo1 (fr_ks1 f')) (head_or hi1 (fr_ks2 f')) (comb q) ->
  merged_keys !! m = Some k -> (1 <= m)%nat -> (S m < length merged_keys)%nat ->
  StronglySorted key_lt (fr_ks1 f' ++ k :: fr_ks2 f') ->
  wf_tree (S (S hs)) lo1 hi1 (refilled m k).
Proof.
  intros [_ Hw Hl H1 H2] Hc Hk Hm1 Hm2 Hso; rewrite merged_tree in Hc; pose proof Hc as (_ & _ & HF & Hkids).
  apply kids_length in Hkids.
  rewrite <- (take_drop (S m) merged_kids), <- (take_drop_middle merged_keys m k Hk) in Hc.
  apply (internal_split_wf _ _ _ (if left then q else p) (if left then p else q)) in Hc as [Hc _];
    [| rewrite !length_take; lia | |].
  - change (fr_ks1 f' ++ k :: fr_ks2 f') with (fr_ks1 f' ++ [k] ++ fr_ks2 f') in *.
    cbn [refilled wf_tree]; split_and!; [by destruct (fr_ks1 f')|done| |
      exact (kids_replace (wf_tree (S hs)) _ _ _ [k] _ _ _ _ Hl H1 Hc H2)].
    rewrite Forall_app in Hw; destruct Hw as [Hw1 Hw2]; apply Forall_app; split; [done|]; constructor; [|done].
    rewrite List.Forall_forall in HF; specialize (HF k (proj1 (list_elem_of_In _ _) (list_elem_of_lookup_2 _ _ _ Hk))).
    eapply inside_widen; [exact (last_or_lo_le _ _ _ Hw1)|exact (head_or_hi_le _ _ _ Hw2)|done].
  - intros E; apply (f_equal length) in E; rewrite length_take in E; cbn in E; lia.
  - intros E; apply (f_equal length) in E; rewrite length_drop in E; cbn in E; lia.
Qed.

Lemma refill_stages (m : nat) (k : bytes) b1 b2 b' :
  sdb_btree_stage (if left then q else p) (node_of (left_half m)) b = (Ok tt, b1) ->
  sdb_btree_stage (if left then p else q) (node_of (right_half m)) b1 = (Ok tt, b2) ->
  sdb_btree_stage (fr_pid f) (node_of (refilled m k)) b2 = (Ok tt, b') ->
  pages_inv b' (ctx_pids fs ++ pids (refilled m k)) /\ keeps b b' [q; p; fr_pid f]
  /\ rd b' (pid_of (left_half m)) = Ok (node_of (left_half m))
  /\ rd b' (pid_of (right_half m)) = Ok (node_of (right_half m))
  /\ rd b' (fr_pid f) = Ok (node_of (refilled m k))
  /\ same_env b b' /\ keys_sorted (n_entries (node_of (refilled m k))).
Proof.
  intros H1 H2 H3; pose proof merge_pages as Hp; pose proof (pi_nodup _ _ Hp) as Hnd.
  rewrite <- (refilled_pids m k) in Hp.
  assert (Hsub : forall x, x ∈ pids (left_half m) ++ pids (right_half m) -> x ∈ ctx_pids fs ++ pids (refilled m k)).
  { intros x Hx; unfold refilled; rewrite pids_node, !flat_map_app; cbn [flat_map]; rewrite app_nil_r; mem; tauto. }
  assert (Hk : forall x, x ∈ flat_map pids (take (S m) merged_kids) -> x ∈ ctx_pids fs ++ pids (refilled m k)).
  { intros x Hx; apply Hsub; unfold left_half; rewrite pids_node; mem; tauto. }
  assert (Hk' : forall x, x ∈ flat_map pids (drop (S m) merged_kids) -> x ∈ ctx_pids fs ++ pids (refilled m k)).
  { intros x Hx; apply Hsub; unfold right_half; rewrite !pids_node; mem; tauto. }
  apply (stage_pages _ _ _ _ _ Hp) in H1 as (Hp1 & Hr1 & Hk1 & Ee1 & _);
    [|apply Hsub; rewrite elem_of_app; left; apply (pid_in_pids (left_half m))|by eapply internal_typed].
  apply (stage_pages _ _ _ _ _ Hp1) in H2 as (Hp2 & Hr2 & Hk2 & Ee2 & _);
    [|apply Hsub; rewrite elem_of_app; right; apply (pid_in_pids (right_half m))|by eapply internal_typed].
  apply (stage_pages _ _ _ _ _ Hp2) in H3 as (Hp3 & Hr3 & Hk3 & Ee3 & Hw3);
    [|rewrite elem_of_app; right; apply (pid_in_pids (refilled m k))|].
  2: { eapply internal_typed; [exact Hp|]; intros x Hx; unfold refilled; rewrite pids_node; mem; tauto. }
  assert (Hne : q <> p /\ q <> fr_pid f /\ p <> fr_pid f).
  { rewrite <- merge_pid; unfold frame_pids in Hnd; clear - Hnd; split_nodup; mem.
    match goal with H : forall x, x ∈ fr_pid f' :: _ -> _ |- _ => pose proof (H (fr_pid f') ltac:(left)) end.
    mem; intuition congruence. }
  destruct Hne as (Hqp & Hqf & Hpf); split_and!; try done.
  - intros x Hx; mem; rewrite Hk3, Hk2, Hk1 by (destruct left; tauto); done.
  - cbn [left_half pid_of]; rewrite Hk3, Hk2; [done| |]; destruct left; done.
  - cbn [right_half pid_of]; rewrite Hk3; [done|]; destruct left; done.
  - eapply same_env_trans; [exact Ee1|]; by eapply same_env_trans.
  - apply Hw3.
Qed.

Lemma merge_redistributed b' :
  keys_sorted (n_entries (node_of (comb q))) ->
  redistribute (fr_pid f) (if left then q else p) (if left then p else q) (frame_node f p)
    (length (fr_cs1 f) - 1) (node_of (comb q)) b = (Ok tt, b') ->
  exists t', rebuilt b b' (ctx_flatten (fs ++ [f]) (flatten s))
    (left_leaves (fs ++ [f]) ++ leaves s ++ right_leaves (fs ++ [f])) t' H.
Proof.
  intros Hso Hrd; destruct merge_bounds as (lo1 & hi1 & Hcw & [_ Hfok] & [Hok _ _ _ _ _] & Hwf).
  specialize (Hwf q Hso); pose proof Hwf as Hlen; rewrite merged_tree in Hrd, Hlen.
  destruct Hlen as (_ & _ & _ & Hlen); apply kids_length in Hlen.
  apply redistribute_inv in Hrd as (m & k & b1 & b2 & Hk & Hm1 & Hm2 & H1 & H2 & H3);
    [|by rewrite length_fmap].
  cbv zeta in H3; rewrite (neighbour_replace _ _ _ _ _ _ _ _ p k Hnb Hfok) in H3; cbn [pid_of] in H3.
  rewrite <- fmap_take in H1; rewrite <- fmap_drop in H2.
  change (internal_node _ _) with (node_of (left_half m)) in H1.
  change (internal_node _ _) with (node_of (right_half m)) in H2.
  assert (En : internal_node ((pid_of <$> fr_cs1 f') ++ (if left then [q; p] else [p; q]) ++ (pid_of <$> fr_cs2 f'))
                 (fr_ks1 f' ++ k :: fr_ks2 f') = node_of (refilled m k)).
  { unfold refilled, left_half, right_half; cbn [node_of]; rewrite !fmap_app; cbn; by destruct left. }
  rewrite En in H3; destruct merge_read as (Hc & _ & _ & Hc1 & Hc2 & Hcs & Hs).
  destruct (refill_stages _ _ _ _ _ H1 H2 H3) as (Hp & Hke & Hr1 & Hr2 & Hr3 & Ee & Hks).
  exists (plug fs (refilled m k)); pose proof (pi_nodup _ _ merge_pages) as Hnd.
  unfold frame_pids in Hnd; rewrite merge_pid in Hnd.
  destruct (refilled_contents m k) as [Ef El]; destruct (merge_contents q) as [Ef' El']; split.
  - by rewrite plug_pids.
  - apply plug_repr; split; [eapply keeps_ctx; [done| |exact Hc]; intros x Hx Hin; clear - Hnd Hx Hin; disjoint x|].
    assert (Hm : Forall (repr (rd b')) merged_kids).
    { assert (Forall (repr (rd b')) cs /\ repr (rd b') s) as [Hcs' Hs'].
      { split; [eapply keeps_kids|eapply keeps_repr]; try done; intros x Hx Hin; clear - Hnd Hx Hin; disjoint x. }
      unfold merged_kids; destruct left; [|by constructor]; apply Forall_app; split; [done|]; by constructor. }
    rewrite <- (take_drop (S m) merged_kids) in Hm; apply Forall_app in Hm as [Hm1' Hm2'].
    apply repr_kids; [done|]; cbn [refilled]; rewrite !Forall_app, !Forall_cons_iff; split_and!; try done.
    + eapply keeps_kids; [done| |exact Hc1]; intros x Hx Hin; clear - Hnd Hx Hin; disjoint x.
    + by apply repr_kids.
    + by apply repr_kids.
    + eapply keeps_kids; [done| |exact Hc2]; intros x Hx Hin; clear - Hnd Hx Hin; disjoint x.
  - rewrite plug_pid, (se_root _ _ Ee), <- (df_root _ _ _ _ _ _ _ _ Hdf), ctx_root_app; done.
  - eapply plug_wf; [exact Hcw|]; apply refilled_wf; try done.
    apply internal_node_sorted in Hks; [done|]; rewrite length_fmap, !length_app; cbn [length].
    pose proof (frame_node_len _ _ _ _ 0 Hok) as Hfl; rewrite !length_app, !length_cons, !length_fmap in Hfl; lia.
  - by rewrite plug_flatten, Ef, Ef'.
  - by rewrite plug_leaves, El, El'.
  - done.
Qed.
End Merge.

(** The parent is the root and the merged node its only child: it moves there. *)
Lemma merge_root b b1 b2 b3 b4 b' (f : frame) (p : Z) (s : ptree) (hs : nat) (lo hi : option bytes) (H : nat)
    (left : bool) (q : Z) (ks : list bytes) (cs : list ptree) (sep : bytes) (f' : frame) :
  let comb := combined_tree (fr_pid f) left (PNode q ks cs) sep s in
  deficit b [f] p s hs lo hi H -> neighbour f left (PNode q ks cs) sep f' ->
  fr_ks1 f' ++ fr_ks2 f' = [] -> keys_sorted (n_entries (node_of comb)) ->
  sdb_btree_stage (fr_pid f) (node_of comb) b = (Ok tt, b1) ->
  sdb_btree_unstage p b1 = (Ok tt, b2) -> batch_free p b2 = (Ok tt, b3) ->
  sdb_btree_unstage q b3 = (Ok tt, b4) -> batch_free q b4 = (Ok tt, b') ->
  rebuilt b b' (ctx_flatten [f] (flatten s)) (left_leaves [f] ++ leaves s ++ right_leaves [f]) comb (S hs).
Proof.
  cbv zeta; intros Hdf Hnb Hne Hso H1 H2 H3 H4 H5; change [f] with ([] ++ [f]) in Hdf |- *.
  pose proof (merge_pages _ _ _ _ _ _ _ _ _ _ _ _ _ _ _ Hdf Hnb) as Hp.
  destruct (merge_read _ _ _ _ _ _ _ _ _ _ _ _ _ _ _ Hdf Hnb) as (_ & _ & _ & _ & _ & Hcs & Hs).
  destruct (merge_bounds _ _ _ _ _ _ _ _ _ _ _ _ _ _ _ Hdf Hnb) as (lo1 & hi1 & (-> & <- & <-) & _ & [Hok _ _ _ _ _] & Hwf).
  destruct (frame_empty _ _ _ _ Hok Hne) as (E1 & E2 & E3 & E4).
  destruct (merge_contents [] _ s _ _ _ _ _ _ Hnb (fr_pid f)) as [Ef El].
  specialize (Hwf (fr_pid f) Hso); unfold frame_pids in Hp.
  rewrite (neighbour_pid _ _ _ _ _ Hnb), E3, E4 in Hp; rewrite E3, E4 in Ef, El; rewrite E1, E2 in Hwf.
  cbn [flat_map app ctx_pids] in Hp.
  pose proof (pi_nodup _ _ Hp) as Hnd.
  apply (stage_pages _ _ _ _ _ Hp) in H1 as (Hp1 & Hr1 & Hk1 & Ee1 & _);
    [|left|by eapply merge_typed].
  change (fr_pid f :: q :: flat_map pids cs ++ p :: pids s)
    with ([fr_pid f] ++ [] ++ q :: flat_map pids cs ++ p :: pids s) in Hp1; rewrite perm_extract in Hp1.
  destruct (release_pages _ _ _ _ _ Hp1 H2 H3) as (Hp3 & Hk3 & Ee3); cbn [app] in Hp3.
  rewrite (Permutation_swap q (fr_pid f)) in Hp3.
  destruct (release_pages _ _ _ _ _ Hp3 H4 H5) as (Hp5 & Hk5 & Ee5).
  assert (Hk : keeps b b' [fr_pid f; p; q]).
  { apply (keeps_trans _ b3 _ [fr_pid f; p] [q]); [|by apply keeps_one].
    apply (keeps_trans _ b1 _ [fr_pid f] [p]); by apply keeps_one. }
  assert (Ee : same_env b b') by (eapply same_env_trans; [exact Ee1|]; by eapply same_env_trans).
  split; try done.
  - by rewrite combined_pids.
  - apply repr_kids.
    + rewrite combined_pid, Hk5, Hk3; [exact Hr1| |]; clear - Hnd; split_nodup; mem; intuition congruence.
    + assert (Forall (repr (rd b')) cs /\ repr (rd b') s) as [Hcs3 Hs3].
      { split; [eapply keeps_kids|eapply keeps_repr]; try done; intros x Hx Hin; clear - Hnd Hx Hin; disjoint x. }
      destruct left; cbn [combined_tree]; [|by constructor].
      apply Forall_app; split; [done|]; by constructor.
  - rewrite combined_pid, (se_root _ _ Ee), <- (df_root _ _ _ _ _ _ _ _ Hdf); done.
  - rewrite Ef; cbn [flat_map app ctx_flatten foldr]; by rewrite app_nil_r.
  - rewrite El; cbn [flat_map app left_leaves right_leaves rev]; by rewrite !app_nil_r.
Qed.

(** ** The climb *)

Lemma wf_node_inv (h : nat) (lo hi : option bytes) (t : ptree) :
  wf_tree (S h) lo hi t -> exists q ks cs, t = PNode q ks cs.
Proof. destruct t as [|q ks cs]; [done|]; by exists q, ks, cs. Qed.

Lemma rebuilt_trans b b1 b' (l : list kv) (ls : list (Z * Z * list kv)) (t : ptree) (H : nat) :
  same_env b b1 -> rebuilt b1 b' l ls t H -> rebuilt b b' l ls t H.
Proof. intros Ee []; split; try done; by eapply same_env_trans. Qed.

Lemma top_of_context b (fs : list frame) (f : frame) (p : Z) (s : ptree) (hs : nat) (lo hi : option bytes) (H : nat) :
  deficit b (fs ++ [f]) p s hs lo hi H -> fr_pid f = b_root_page b -> fs = [].
Proof.
  intros [_ _ _ _ Hp Hr] E; destruct fs as [|g fs]; [done|]; exfalso; cbn in Hr.
  apply pi_nodup in Hp; rewrite ctx_pids_app in Hp; unfold ctx_pids in Hp; cbn [flat_map frame_pids app] in Hp.
  apply list.NoDup_cons in Hp as [Hn _]; apply Hn; rewrite Hr, <- E; unfold frame_pids; mem; tauto.
Qed.

Lemma deficit_root b (fs : list frame) (p : Z) (s : ptree) (hs : nat) (lo hi : option bytes) (H : nat) :
  deficit b fs p s hs lo hi H -> p = b_root_page b -> fs = [].
Proof.
  intros [_ _ _ _ Hp Hr] E; destruct fs as [|g fs]; [done|]; exfalso; cbn in Hr.
  apply pi_nodup in Hp; unfold ctx_pids, frame_pids in Hp; cbn [flat_map app] in Hp.
  apply list.NoDup_cons in Hp as [Hn _]; apply Hn; rewrite Hr, <- E; mem; tauto.
Qed.

(** What the recursive call does in the context [fs]. *)
Definition climb_ok (fs : list frame) (climb : Z -> Z -> batchM unit) : Prop :=
  forall b b' (p : Z) (s : ptree) (hs : nat) (lo hi : option bytes) (H : nat),
  deficit b fs p s hs lo hi H -> climb p (pid_of s) b = (Ok tt, b') ->
  exists t' H', rebuilt b b' (ctx_flatten fs (flatten s)) (left_leaves fs ++ leaves s ++ right_leaves fs) t' H'.

(** One level of the climb, once the parent and the neighbour are read. *)
Lemma reclaim_step (climb : Z -> Z -> batchM unit) b b' (fs : list frame) (f : frame) (p : Z) (s : ptree) (hs : nat)
    (lo hi : option bytes) (H : nat) (left : bool) (q : Z) (ks : list bytes) (cs : list ptree) (sep : bytes)
    (f' : frame) (lo1 hi1 : option bytes) (combined : sdb_btree_node) :
  deficit b (fs ++ [f]) p s hs lo hi H -> neighbour f left (PNode q ks cs) sep f' ->
  frame_ok (S hs) lo1 hi1 f' ->
  (forall r, combined = node_of (combined_tree r left (PNode q ks cs) sep s)) ->
  n_count (frame_node f p) = S (length (fr_ks1 f' ++ fr_ks2 f')) ->
  sdb_btree_remove_child (frame_node f p) (length (fr_cs1 f)) = frame_node f' q ->
  climb_ok fs climb ->
  merge_or_refill climb p (fr_pid f) (length (fr_cs1 f)) (frame_node f p) left q (length (fr_cs1 f) - 1)
    combined b = (Ok tt, b') ->
  exists t' H', rebuilt b b' (ctx_flatten (fs ++ [f]) (flatten s))
    (left_leaves (fs ++ [f]) ++ leaves s ++ right_leaves (fs ++ [f])) t' H'.
Proof.
  intros Hdf Hnb Hok Hcomb Ecnt Erem Hclimb Hrun; unfold merge_or_refill in Hrun; inv_batch Hrun.
  apply lift_inv in Hb as [Hsz ->]; apply get_inv in Hb0 as [-> ->]; apply get_inv in Hb1 as [-> ->].
  assert (Hso : forall r, keys_sorted (n_entries (node_of (combined_tree r left (PNode q ks cs) sep s)))).
  { intros r; rewrite (Hcomb r) in Hsz; eapply encoded_size_sorted; [|exact Hsz]; by eapply merge_typed. }
  assert (Hcnt : n_count (frame_node f' q) = length (fr_ks1 f' ++ fr_ks2 f'))
    by (apply internal_node_count; by eapply frame_node_len).
  destruct (_ <=? _) eqn:Efit.
  2: { rewrite (Hcomb q) in Hrun; destruct (merge_redistributed _ _ _ _ _ _ _ _ _ _ _ _ _ _ _ Hdf Hnb _ (Hso q) Hrun)
         as [t' Ht]; by exists t', H. }
  rewrite Erem, Ecnt in Hrun; cbv zeta in Hrun; destruct ((_ =? _) && _) eqn:Etop; inv_batch Hrun.
  - apply andb_true_iff in Etop as [Etop E1]; apply Z.eqb_eq in Etop; apply Nat.eqb_eq in E1.
    pose proof (top_of_context _ _ _ _ _ _ _ _ _ Hdf Etop) as ->; cbn [app] in *.
    assert (Hne : fr_ks1 f' ++ fr_ks2 f' = []) by (apply length_zero_iff_nil; lia).
    rewrite <- Etop, (Hcomb (fr_pid f)) in Hb; repeat match goal with x : unit |- _ => destruct x end.
    eexists _, _; eapply (merge_root b b0 b1 b2 b3 b' f p s hs lo hi H left q ks cs sep f'); done.
  - rewrite (Hcomb q) in Hb; rewrite Hcnt in Hrun; repeat match goal with x : unit |- _ => destruct x end.
    destruct (merge_opened _ _ _ _ _ _ _ _ _ _ _ _ _ _ _ Hdf Hnb _ _ _ (Hso q) Hb Hb0 Hb1) as (lo2 & hi2 & Hop & Ee).
    destruct (merge_contents fs f s left q ks cs sep f' Hnb q) as [-> ->].
    destruct (Nat.ltb_spec 0 (length (fr_ks1 f' ++ fr_ks2 f'))) as [Hpos|Hzero].
    + eexists _, _; eapply rebuilt_trans; [done|]; eapply store_parent; [exact Hop| |].
      * intros E; rewrite E in Hpos; cbn in Hpos; lia.
      * by rewrite combined_pid, (neighbour_pid _ _ _ _ _ Hnb).
    + assert (Hne : fr_ks1 f' ++ fr_ks2 f' = []) by (apply length_zero_iff_nil; lia).
      destruct (opened_deficit _ _ _ _ _ _ _ _ Hop Hne) as (Hdf' & E3 & E4).
      unfold frame_node in Hrun; rewrite E3 in Hrun; cbn [fmap list_fmap app internal_node n_first_child hd] in Hrun.
      rewrite E3, E4; cbn [flat_map app]; rewrite !app_nil_r.
      destruct (Hclimb b2 b' (fr_pid f') (combined_tree q left (PNode q ks cs) sep s) _ _ _ _ Hdf') as (t' & H' & Ht).
      { by rewrite combined_pid, (neighbour_pid _ _ _ _ _ Hnb). }
      exists t', H'; by eapply rebuilt_trans.
Qed.

Lemma reclaim_up_spec (path : list path_entry) (fs : list frame) :
  (forall i f, fs !! i = Some f -> path !!! i = frame_path f) ->
  climb_ok fs (sdb_btree_reclaim_internal_up path (length fs)).
Proof.
  induction fs as [|f fs IH] using rev_ind; intros Hpath b b' p s hs lo hi H Hdf Hrun; [done|].
  rewrite length_app, Nat.add_1_r in Hrun; cbn [sdb_btree_reclaim_internal_up] in Hrun.
  destruct ((_ =? _) || _) eqn:Ez; [done|]; clear Ez.
  pose proof (Hpath (length fs) f ltac:(by apply list_lookup_middle)) as Hpe; unfold path_entry in *.
  rewrite Hpe in Hrun; cbn [frame_path] in Hrun; destruct ((_ =? _) || _) eqn:Ez; [done|]; clear Ez; inv_batch Hrun.
  apply read_inv in Hb as [Hpar ->].
  pose proof (df_ctx _ _ _ _ _ _ _ _ Hdf) as Hc; apply ctx_wf_snoc in Hc as (lo1 & hi1 & _ & Hfw & _).
  destruct (neighbour_exists _ _ _ _ Hfw) as (left & sib & sep & f' & Hnb); pose proof Hfw as [_ Hfok].
  pose proof (neighbour_between _ _ _ _ _ _ _ _ Hnb Hfw) as [Hok Hsib _ _ _ _].
  assert (exists q ks cs, sib = PNode q ks cs) as (q & ks & cs & ->) by (destruct left; by eapply wf_node_inv).
  destruct (merge_read _ _ _ _ _ _ _ _ _ _ _ _ _ _ _ Hdf Hnb) as (_ & Hpar' & Hsibr & _).
  rewrite Hpar' in Hpar; injection Hpar as <-.
  destruct (neighbour_node _ _ _ _ _ _ _ _ p Hnb Hfok) as (Epid & El & Ecnt & _ & Ech & Ekey & Erem).
  rewrite El, Ech, Ekey in Hrun; cbn [pid_of] in Hrun.
  destruct (negb _ || _ || _) eqn:Ez; [done|]; clear Ez; destruct (_ || (pid_of s =? q)) eqn:Ez; [done|]; clear Ez.
  inv_batch Hrun; apply read_inv in Hb as [Hsr ->]; rewrite Hsibr in Hsr; injection Hsr as <-.
  destruct (negb _) eqn:Ez; [done|]; clear Ez.
  assert (Hlen : length cs = S (length ks)) by (destruct left, Hsib as (_ & _ & _ & Hk); by apply kids_length in Hk).
  assert (Hcomb : forall r, combine_nodes left (internal_node (pid_of <$> cs) ks) sep (pid_of s)
            = node_of (combined_tree r left (PNode q ks cs) sep s)) by (intros r; by apply (combined_node r left q)).
  eapply (reclaim_step _ _ _ _ _ _ _ _ _ _ _ _ _ _ _ _ _ _ _ _ Hdf Hnb Hok Hcomb Ecnt Erem); [|exact Hrun].
  apply IH; intros i g Hi; apply Hpath; by apply lookup_app_l_Some.
Qed.
End Reclaim.
