(* ===== verification/BtreeDelete.v ===== *)
(** * Deletion refines map deletion

    [sdb_btree_batch_delete] removes the binding; an emptied leaf is unlinked
    from the chain and from its parent, whose page is then reclaimed
    ([BtreeReclaim]) or, at the root, replaced by its last child. *)

From S2P Require Import Prelude Status Codec Keys Page BtreePage OrderedMap PagerInterface BtreeNode BtreeTree Btree BtreeGet BtreeBatch BtreeInsert BtreePut BtreeContext BtreeReclaim.

Section Delete.
Context {P T : Type} `{!PagerOps P T} `{!PagerLaws P T}.

Implicit Types b : sdb_btree_batch (T := T).

Abbreviation rd := sdb_btree_batch_read_node.

(** ** The leaf chain *)

(** The last leaf gets the link [s]. *)
Definition relink_list (s : Z) (ls ls' : list (Z * Z * list kv)) : Prop :=
  exists pre p0 s0 l, ls = pre ++ [(p0, s0, l)] /\ ls' = pre ++ [(p0, s, l)].

Lemma relink_list_app (s : Z) (ls1 ls ls' : list (Z * Z * list kv)) :
  relink_list s ls ls' -> relink_list s (ls1 ++ ls) (ls1 ++ ls').
Proof.
  intros (pre & p0 & s0 & l & -> & ->); exists (ls1 ++ pre), p0, s0, l; by rewrite !app_assoc.
Qed.

(** Dropping a leaf after handing its link to its predecessor keeps the chain. *)
Lemma unlink_chain (p s n : Z) (ls ls' rs : list (Z * Z * list kv)) :
  sib_chain (ls ++ (p, s, []) :: rs) n -> relink_list s ls ls' -> sib_chain (ls' ++ rs) n.
Proof.
  intros Hc (pre & p0 & s0 & l & -> & ->); rewrite <- app_assoc in *; cbn [app] in *.
  rewrite sib_chain_app in *; cbn [sib_chain first_pid] in *.
  destruct Hc as (Hpre & _ & Hs & Hrs); done.
Qed.

Lemma last_child (h : nat) (lo hi : option bytes) (p : Z) (ks : list bytes) (cs : list ptree) :
  wf_tree (S h) lo hi (PNode p ks cs) ->
  exists f c, PNode p ks cs = plug1 f c /\ fr_cs2 f = [] /\ frame_wf h lo hi f
    /\ wf_tree h (last_or lo (fr_ks1 f)) (head_or hi (fr_ks2 f)) c
    /\ sdb_btree_child_at (node_of (PNode p ks cs)) (n_count (node_of (PNode p ks cs))) = pid_of c.
Proof.
  intros (Hne & Hs & HF & Hk); pose proof (kids_length _ _ _ _ _ Hk) as Hl.
  destruct cs as [|c cs _] using rev_ind; [done|]; rewrite length_app in Hl; cbn in Hl.
  exists {| fr_pid := p; fr_ks1 := ks; fr_ks2 := []; fr_cs1 := cs; fr_cs2 := [] |}, c.
  rewrite <- (app_nil_r ks), kids_zip in Hk by lia; destruct Hk as (H1 & H2 & H3).
  assert (Hl' : length (pid_of <$> cs ++ [c]) = S (length ks)) by (rewrite length_fmap, length_app; cbn; lia).
  unfold plug1; cbn [fr_pid fr_ks1 fr_ks2 fr_cs1 fr_cs2 node_of]; split_and!; try done; rewrite ?app_nil_r; try done.
  - split; cbn; rewrite ?app_nil_r; [done|]; split; cbn; rewrite ?app_nil_r; try done; lia.
  - rewrite internal_node_count by done; rewrite internal_node_child by (done || lia).
    apply list_lookup_total_correct; rewrite fmap_app; apply list_lookup_middle; rewrite length_fmap; lia.
Qed.

Lemma plug1_same (f : frame) (c c' : ptree) :
  pid_of c' = pid_of c -> pids c' = pids c -> flatten c' = flatten c ->
  node_of (plug1 f c') = node_of (plug1 f c) /\ pids (plug1 f c') = pids (plug1 f c)
  /\ flatten (plug1 f c') = flatten (plug1 f c).
Proof.
  intros E1 E2 E3; unfold plug1; rewrite !pids_node; cbn [node_of flatten].
  rewrite !fmap_app, !fmap_cons, !flat_map_app; cbn [flat_map]; by rewrite E1, E2, E3.
Qed.

(** Tree [t'] is [t] with the last leaf linked to [s]. *)
Record relinked b b' (h : nat) (lo hi : option bytes) (s : Z) (t t' : ptree) : Prop := {
  rl_wf : wf_tree h lo hi t';
  rl_repr : repr (rd b') t';
  rl_pid : pid_of t' = pid_of t;
  rl_pids : pids t' = pids t;
  rl_flatten : flatten t' = flatten t;
  rl_leaves : relink_list s (leaves t) (leaves t');
  rl_keeps : keeps b b' (pids t);
  rl_env : same_env b b'
}.

Lemma relink_spec (U : list Z) (s : Z) (h : nat) :
  0 <= s < 2 ^ 64 ->
  forall fuel b b' (t : ptree) (lo hi : option bytes),
  wf_tree h lo hi t -> repr (rd b) t -> pages_inv b U -> NoDup (pids t) -> (forall x, x ∈ pids t -> x ∈ U) ->
  relink_predecessor fuel (pid_of t) s b = (Ok tt, b') ->
  pages_inv b' U /\ exists t', relinked b b' h lo hi s t t'.
Proof.
  intros Hs; induction h as [|h IH]; intros fuel b b' t lo hi Hwf Hr Hp Hnd Hsub Hrun;
    destruct t as [p s0 l|p ks cs]; try done; destruct fuel as [|fuel]; cbn [relink_predecessor pid_of] in Hrun;
    inv_batch Hrun; apply read_inv in Hb as [Hb ->]; apply repr_root in Hr as Hn; cbn [pid_of] in Hn;
    rewrite Hn in Hb; injection Hb as <-; cbn [node_of leaf_node internal_node n_kind] in Hrun; try done.
  1, 2: change (set_right_sibling _ s) with (leaf_node s l) in Hrun;
    apply (stage_pages _ _ _ _ _ Hp) in Hrun as (Hp' & Hr' & Hk' & Ee' & _);
      [|apply Hsub; left|by apply leaf_node_typed]; split; [done|]; exists (PLeaf p s l); split; try done;
      [by apply repr_kids | by exists [], p, s0, l | by apply keeps_one].
  destruct (last_child _ _ _ _ _ _ Hwf) as (f & c & E & E2 & Hfw & Hwc & Hch); cbn [node_of] in Hch.
  rewrite Hch in Hrun; rewrite E in *; pose proof Hr as Hr0; change (plug1 f c) with (plug [f] c) in Hr.
  apply plug_repr in Hr as [(Hfr & Hc1 & Hc2 & _) Hrc]; cbn [ctx_root] in Hfr.
  pose proof (plug_pids [f] c) as HP; change (plug [f] c) with (plug1 f c) in HP.
  unfold ctx_pids in HP; cbn [flat_map] in HP; rewrite app_nil_r in HP; pose proof Hnd as Hnd'; rewrite HP in Hnd'.
  apply (IH _ _ _ _ (last_or lo (fr_ks1 f)) (head_or hi (fr_ks2 f))) in Hrun as [Hp' [c' Hc]]; try done.
  2: { apply list.NoDup_app in Hnd'; apply Hnd'. }
  2: { intros x Hx; apply Hsub; rewrite HP; mem; tauto. }
  split; [done|]; exists (plug1 f c'); destruct Hc as [Hw' Hr' Hpid Hpids Hfl Hle Hke Hee].
  destruct (plug1_same f c c' Hpid Hpids Hfl) as (En & Ep & Ef); unfold frame_pids in *.
  split; try done.
  - by apply plug1_wf.
  - change (plug1 f c') with (plug [f] c'); apply plug_repr; split; [|done]; rewrite Hpid.
    eapply keeps_ctx; [exact Hke| |by split_and!].
    unfold ctx_pids, frame_pids; cbn [flat_map]; rewrite app_nil_r; by apply list.NoDup_app in Hnd' as (_ & Hd & _).
  - cbn [plug1 leaves]; rewrite E2, !flat_map_app; cbn [flat_map]; rewrite !app_nil_r; by apply relink_list_app.
  - intros x Hx; apply Hke; intros Hin; apply Hx; rewrite HP; mem; tauto.
Qed.

(** Context [fs'] is [fs] with the leaf left of the hole linked to [s]. *)
Record unlinked b b' (H h : nat) (lo hi : option bytes) (s hole : Z) (fs fs' : list frame) : Prop := {
  ul_wf : ctx_wf H None None fs' h lo hi;
  ul_repr : ctx_repr (rd b') fs' hole;
  ul_path : frame_path <$> fs' = frame_path <$> fs;
  ul_root : forall q, ctx_root fs' q = ctx_root fs q;
  ul_pids : ctx_pids fs' = ctx_pids fs;
  ul_flatten : forall l, ctx_flatten fs' l = ctx_flatten fs l;
  ul_right : right_leaves fs' = right_leaves fs;
  ul_left : left_leaves fs = [] /\ left_leaves fs' = [] \/ relink_list s (left_leaves fs) (left_leaves fs');
  ul_keeps : keeps b b' (ctx_pids fs);
  ul_env : same_env b b'
}.

(** No leaf to the left below this level. *)
Lemma unlinked_snoc b b' (H h : nat) (lo hi lo1 hi1 : option bytes) (s hole : Z) (fs fs' : list frame) (f : frame) :
  fr_cs1 f = [] -> frame_wf h lo1 hi1 f -> lo = last_or lo1 (fr_ks1 f) -> hi = head_or hi1 (fr_ks2 f) ->
  ctx_repr (rd b) (fs ++ [f]) hole -> NoDup (ctx_pids (fs ++ [f])) ->
  unlinked b b' H (S h) lo1 hi1 s (fr_pid f) fs fs' ->
  unlinked b b' H h lo hi s hole (fs ++ [f]) (fs' ++ [f]).
Proof.
  intros E Hf El Eh Hr Hnd [Uw Ur Upa Uro Up Uf Uri Ul Uk Ue]; apply ctx_repr_snoc in Hr as (_ & Hn & H1 & H2).
  rewrite ctx_pids_app in Hnd; apply list.NoDup_app in Hnd as (_ & Hd & _).
  assert (Hd' : forall x, x ∈ frame_pids f -> x ∉ ctx_pids fs).
  { intros x Hx Hin; apply (Hd x Hin); unfold ctx_pids; cbn [flat_map]; by rewrite app_nil_r. }
  unfold frame_pids in Hd'; split; try done.
  - apply ctx_wf_snoc; by exists lo1, hi1.
  - apply ctx_repr_snoc; split_and!; [done| | |].
    + rewrite Uk; [done|]; apply Hd'; left.
    + eapply keeps_kids; [exact Uk| |done]; intros x Hx; apply Hd'; mem; tauto.
    + eapply keeps_kids; [exact Uk| |done]; intros x Hx; apply Hd'; mem; tauto.
  - by rewrite !fmap_app, Upa.
  - intros q; by rewrite !ctx_root_app, Uro.
  - by rewrite !ctx_pids_app, Up.
  - intros l; by rewrite !ctx_flatten_snoc, Uf.
  - by rewrite !right_leaves_app, Uri.
  - rewrite !left_leaves_app; unfold left_leaves at 2 4 6 8; cbn [flat_map]; rewrite E; cbn [flat_map app].
    by rewrite !app_nil_r.
  - rewrite ctx_pids_app; intros x Hx; apply Uk; mem; tauto.
Qed.

(** The predecessor hangs off this level. *)
Lemma unlinked_here b b' (H h : nat) (lo hi lo1 hi1 : option bytes) (s hole : Z) (fs : list frame)
    (p : Z) (ks1 : list bytes) (k : bytes) (ks2 : list bytes) (cs1 : list ptree) (c c' : ptree) (cs2 : list ptree) :
  let f := {| fr_pid := p; fr_ks1 := ks1 ++ [k]; fr_ks2 := ks2; fr_cs1 := cs1 ++ [c]; fr_cs2 := cs2 |} in
  let f' := {| fr_pid := p; fr_ks1 := ks1 ++ [k]; fr_ks2 := ks2; fr_cs1 := cs1 ++ [c']; fr_cs2 := cs2 |} in
  ctx_wf H None None fs (S h) lo1 hi1 -> frame_wf h lo1 hi1 f ->
  lo = last_or lo1 (fr_ks1 f) -> hi = head_or hi1 (fr_ks2 f) ->
  ctx_repr (rd b) (fs ++ [f]) hole -> NoDup (ctx_pids (fs ++ [f])) ->
  relinked b b' h (last_or lo1 ks1) (Some k) s c c' ->
  unlinked b b' H h lo hi s hole (fs ++ [f]) (fs ++ [f']).
Proof.
  intros f f' Hc [Hne Hf] El Eh Hr Hnd [Rw Rr Rp Rps Rf Rl Rk Re].
  apply ctx_repr_snoc in Hr as (Hcr & Hn & H1 & H2); cbn [f fr_pid fr_cs1 fr_cs2] in Hn, H1, H2.
  assert (Ep : ctx_pids (fs ++ [f']) = ctx_pids (fs ++ [f])).
  { rewrite !ctx_pids_app; f_equal; unfold ctx_pids; cbn [flat_map]; f_equal; unfold frame_pids; cbn.
    rewrite !flat_map_app; cbn [flat_map]; by rewrite Rps. }
  rewrite ctx_pids_app in Hnd; unfold ctx_pids at 2 in Hnd; cbn [flat_map] in Hnd; rewrite app_nil_r in Hnd.
  unfold frame_pids in Hnd; cbn [f fr_pid fr_cs1 fr_cs2] in Hnd; rewrite flat_map_app in Hnd; cbn [flat_map] in Hnd.
  rewrite app_nil_r in Hnd; apply Forall_app in H1 as [H1 _]; split; try done.
  - apply ctx_wf_snoc; exists lo1, hi1; split_and!; try done; split; [done|].
    destruct Hf as [Fs Fw Fl F1 F2]; cbn [f fr_ks1 fr_ks2 fr_cs1 fr_cs2] in *; rewrite !length_app in Fl; cbn in Fl.
    apply kids_left_snoc in F1 as [F1 _]; [|lia]; split; try done; cbn [f' fr_ks1 fr_cs1].
    + rewrite !length_app; cbn; lia.
    + apply kids_left_snoc; [lia|done].
  - apply ctx_repr_snoc; split_and!.
    + eapply keeps_ctx; [exact Rk| |done]; intros x Hx Hin; clear - Hnd Hx Hin; split_nodup.
      match goal with H : forall x, x ∈ ctx_pids fs -> _ |- _ => apply (H x Hx) end; mem; tauto.
    + cbn [f' fr_pid]; rewrite Rk; [|clear - Hnd; split_nodup; mem; tauto].
      unfold frame_node; cbn; rewrite Hn; unfold frame_node; cbn; by rewrite !fmap_app, !fmap_cons, Rp.
    + cbn [f' fr_cs1]; apply Forall_app; split; [|by constructor].
      eapply keeps_kids; [exact Rk| |done]; intros x Hx Hin; clear - Hnd Hx Hin; split_nodup.
      match goal with H : forall x, x ∈ flat_map pids cs1 -> _ |- _ => by apply (H x Hx) end.
    + eapply keeps_kids; [exact Rk| |done]; intros x Hx Hin; clear - Hnd Hx Hin; split_nodup.
      match goal with H : forall x, x ∈ flat_map pids cs1 ++ _ -> _ |- _ => apply (H x); [mem; tauto|done] end.
  - rewrite !fmap_app; cbn; unfold frame_path; cbn; by rewrite !length_app.
  - intros q; by rewrite !ctx_root_app.
  - intros l; rewrite !ctx_flatten_snoc; cbn [f f' fr_cs1 fr_cs2]; rewrite !flat_map_app; cbn [flat_map]; by rewrite Rf.
  - by rewrite !right_leaves_app.
  - right; rewrite !left_leaves_app; apply relink_list_app; unfold left_leaves; cbn [flat_map f f' fr_cs1].
    rewrite !app_nil_r, !flat_map_app; apply relink_list_app; cbn [flat_map]; by rewrite !app_nil_r.
  - rewrite ctx_pids_app; intros x Hx; apply Rk; intros Hin; apply Hx; unfold ctx_pids at 2; cbn [flat_map].
    rewrite app_nil_r; unfold frame_pids; cbn [f fr_cs1]; rewrite flat_map_app; cbn [flat_map]; mem; tauto.
Qed.

Lemma unlinked_nil b (H h : nat) (lo hi : option bytes) (s hole : Z) :
  ctx_wf H None None [] h lo hi -> unlinked b b H h lo hi s hole [] [].
Proof. intros Hc; split; try done; by left. Qed.

(** The frame with its last left child split off. *)
Lemma frame_left_view (h : nat) (lo hi : option bytes) (f : frame) (i : nat) (hole : Z) :
  frame_wf h lo hi f -> length (fr_cs1 f) = S i ->
  exists ks1 k cs1 c, fr_ks1 f = ks1 ++ [k] /\ fr_cs1 f = cs1 ++ [c] /\ length ks1 = length cs1
    /\ wf_tree h (last_or lo ks1) (Some k) c
    /\ sdb_btree_child_at (frame_node f hole) i = pid_of c.
Proof.
  intros [_ Hf] Hi; pose proof (frame_node_len _ _ _ _ hole Hf) as Hlen; pose proof Hf as [_ _ Hl H1 _].
  destruct (fr_cs1 f) as [|c cs1 _] eqn:Ec using rev_ind; [done|]; rewrite length_app in *; cbn [length] in *.
  destruct (fr_ks1 f) as [|k ks1 _] eqn:Ek using rev_ind; [cbn in Hl; lia|]; rewrite length_app in *; cbn [length] in *.
  exists ks1, k, cs1, c; apply kids_left_snoc in H1 as [_ H1]; [|lia]; split_and!; try done; [lia|].
  unfold frame_node; rewrite Ec, Ek in *; rewrite internal_node_child; [| |rewrite !length_app; cbn; lia].
  - apply list_lookup_total_correct; rewrite fmap_app, <- app_assoc; cbn [fmap list_fmap app].
    apply list_lookup_middle; rewrite length_fmap; lia.
  - repeat progress (rewrite ?length_app, ?length_cons, ?length_fmap in *; cbn [length] in * ); lia.
Qed.

Lemma unlink_spec (path : list path_entry) (U : list Z) (s : Z) (H : nat) (fs : list frame) :
  0 <= s < 2 ^ 64 -> forall b b' (hole : Z) (h : nat) (lo hi : option bytes),
  (forall i f, fs !! i = Some f -> path !!! i = frame_path f) ->
  ctx_wf H None None fs h lo hi -> ctx_repr (rd b) fs hole ->
  pages_inv b U -> NoDup (ctx_pids fs) -> (forall x, x ∈ ctx_pids fs -> x ∈ U) ->
  unlink_leaf path (length fs) s b = (Ok tt, b') ->
  pages_inv b' U /\ exists fs', unlinked b b' H h lo hi s hole fs fs'.
Proof.
  intros Hs; induction fs as [|f fs IH] using rev_ind; intros b b' hole h lo hi Hpath Hc Hr Hp Hnd Hsub Hrun.
  { apply ret_inv in Hrun as [_ ->]; split; [done|]; exists []; by apply unlinked_nil. }
  rewrite length_app, Nat.add_1_r in Hrun; cbn [unlink_leaf] in Hrun.
  pose proof (Hpath (length fs) f ltac:(by apply list_lookup_middle)) as Hpe; unfold path_entry in *.
  rewrite Hpe in Hrun; cbn [frame_path] in Hrun.
  apply ctx_wf_snoc in Hc as (lo1 & hi1 & Hc & Hf & El & Eh); pose proof Hr as Hr0.
  apply ctx_repr_snoc in Hr as (Hr & Hn & H1 & H2); pose proof Hnd as Hnd0; rewrite ctx_pids_app in Hnd, Hsub.
  destruct (length (fr_cs1 f)) as [|i] eqn:Ei.
  - apply (IH b b' (fr_pid f) (S h) lo1 hi1) in Hrun as [Hp' [fs' Hu]]; try done.
    + split; [done|]; exists (fs' ++ [f]); eapply unlinked_snoc; try done; by apply length_zero_iff_nil.
    + intros j g Hj; apply Hpath; by apply lookup_app_l_Some.
    + apply list.NoDup_app in Hnd; apply Hnd.
    + intros x Hx; apply Hsub; mem; tauto.
  - inv_batch Hrun; apply read_inv in Hb as [Hb ->]; rewrite Hn in Hb; injection Hb as <-.
    destruct (frame_left_view _ _ _ _ _ hole Hf Ei) as (ks1 & k & cs1 & c & Ek & Ec & Hl & Hwc & Hch).
    rewrite Hch in Hrun; destruct f as [p fks1 ks2 fcs1 cs2]; cbn [fr_ks1 fr_cs1 fr_cs2 fr_pid] in *; subst fks1 fcs1.
    apply Forall_app in H1 as [_ H1]; apply Forall_cons_iff in H1 as [H1 _].
    unfold ctx_pids at 2 in Hnd; unfold ctx_pids at 2 in Hsub; unfold frame_pids in Hnd, Hsub; cbn [flat_map fr_pid fr_cs1 fr_cs2 app] in Hnd, Hsub.
    rewrite flat_map_app in Hnd, Hsub; cbn [flat_map] in Hnd, Hsub; rewrite !app_nil_r in Hnd, Hsub.
    apply (relink_spec U s h Hs _ b b' c (last_or lo1 ks1) (Some k)) in Hrun as [Hp' [c' Hrl]]; try done.
    + split; [done|]; eexists; by eapply unlinked_here.
    + clear - Hnd; split_nodup; assumption.
    + intros x Hx; apply Hsub; mem; tauto.
Qed.

(** ** Removing an emptied leaf *)

(** The tree after the operation. *)
Record tree_after b b' (l : list kv) (t : ptree) (H : nat) : Prop := {
  ta_pages : pages_inv b' (pids t);
  ta_repr : repr (rd b') t;
  ta_root : pid_of t = b_root_page b';
  ta_wf : wf_tree H None None t;
  ta_flatten : flatten t = l;
  ta_chain : sib_chain (leaves t) 0;
  ta_env : same_env b b'
}.

Lemma rebuilt_after b b' (l : list kv) (ls : list (Z * Z * list kv)) (t : ptree) (H : nat) :
  rebuilt b b' l ls t H -> sib_chain ls 0 -> tree_after b b' l t H.
Proof. intros [] Hc; split; try done; by subst. Qed.

Lemma tree_after_trans b b1 b' (l : list kv) (t : ptree) (H : nat) :
  same_env b b1 -> tree_after b1 b' l t H -> tree_after b b' l t H.
Proof. intros Ee []; split; try done; by eapply same_env_trans. Qed.

(** The last leaf moves into the root page. *)
Lemma collapse_leaf b b' (f : frame) (q s : Z) (l : list kv) (lo hi : option bytes) (H : nat) :
  deficit b [] (fr_pid f) (PLeaf q s l) 0 lo hi H -> collapse_root q b = (Ok tt, b') ->
  tree_after b b' l (PLeaf (fr_pid f) 0 l) 0.
Proof.
  intros [(-> & <- & <-) Hw _ Hr Hp Hro] Hrun; cbn in Hro; unfold collapse_root in Hrun; inv_batch Hrun.
  apply get_inv in Hb as [-> ->]; apply read_inv in Hb0 as [Hb0 ->]; apply repr_root in Hr; cbn [pid_of] in Hr.
  rewrite Hr in Hb0; injection Hb0 as <-; destruct a1, a2; cbn [app ctx_pids flat_map] in Hp.
  change (pids (PLeaf q s l)) with [q] in Hp; rewrite (Permutation_swap q (fr_pid f)) in Hp.
  destruct (release_pages _ _ _ _ _ Hp Hb1 Hb2) as (Hp2 & _ & Ee2).
  change (sdb_btree_stage (b_root_page b) (leaf_node 0 l) b3 = (Ok tt, b')) in Hrun; rewrite <- Hro in Hrun.
  apply (stage_pages _ _ _ _ _ Hp2) in Hrun as (Hp' & Hr' & _ & Ee' & _); [|left|by apply leaf_node_typed].
  split; try done; [by apply repr_kids| |by eapply same_env_trans].
  cbn [pid_of]; by rewrite (se_root _ _ Ee'), (se_root _ _ Ee2).
Qed.

(** The parent once the emptied leaf [p] is gone. *)
Lemma leaf_removed b b1 b' (fs : list frame) (f : frame) (p : Z) (H : nat) (lo hi : option bytes)
    (left : bool) (sib : ptree) (sep : bytes) (f' : frame) :
  ctx_wf H None None (fs ++ [f]) 0 lo hi -> ctx_repr (rd b) (fs ++ [f]) p ->
  pages_inv b (ctx_pids (fs ++ [f]) ++ [p]) -> ctx_root fs (fr_pid f) = b_root_page b ->
  neighbour f left sib sep f' ->
  sdb_btree_unstage p b = (Ok tt, b1) -> batch_free p b1 = (Ok tt, b') ->
  exists lo1 hi1, opened b' fs f' sib 0 lo1 hi1 H /\ same_env b b'.
Proof.
  intros Hc Hr Hp Hro Hnb H1 H2; apply ctx_wf_snoc in Hc as (lo1 & hi1 & Hc & Hf & _ & _); exists lo1, hi1.
  pose proof (neighbour_between _ _ _ _ _ _ _ _ Hnb Hf) as [Hok Hsib _ _ Hsep _].
  apply ctx_repr_snoc in Hr as (Hcr & _ & Hk); apply (through_repr _ _ _ _ _ Hnb) in Hk as [[Hk1 Hk2] Hks].
  pose proof (pi_nodup _ _ Hp) as Hnd; rewrite Permutation_app_comm in Hp; cbn [app] in Hp.
  destruct (release_pages _ _ _ _ _ Hp H1 H2) as (Hp' & Hke & Ee); apply keeps_one in Hke.
  pose proof (through_pids _ _ _ _ _ Hnb) as Hth.
  rewrite ctx_pids_app in Hp', Hnd; unfold ctx_pids at 2 in Hp'; unfold ctx_pids at 2 in Hnd.
  cbn [flat_map] in Hp', Hnd; rewrite app_nil_r, Hth in Hp'; rewrite app_nil_r, Hth in Hnd.
  pose proof (neighbour_pid _ _ _ _ _ Hnb) as Epid; unfold frame_pids in Hnd.
  split; [|done]; split; try done; rewrite ?Epid.
  - destruct left; (eapply wf_widen; [| |exact Hsib]); eauto with bounds.
  - eapply keeps_ctx; [done| |done]; intros x Hx Hin; clear - Hnd Hx Hin; disjoint x.
  - eapply keeps_kids; [done| |done]; intros x Hx Hin; clear - Hnd Hx Hin; disjoint x.
  - eapply keeps_kids; [done| |done]; intros x Hx Hin; clear - Hnd Hx Hin; disjoint x.
  - eapply keeps_repr; [done| |done]; intros x Hx Hin; clear - Hnd Hx Hin; disjoint x.
  - by rewrite (se_root _ _ Ee).
Qed.

Lemma frames_snoc (fs fs' : list frame) (f : frame) :
  frame_path <$> fs' = frame_path <$> (fs ++ [f]) ->
  exists fs1 f1, fs' = fs1 ++ [f1] /\ length fs1 = length fs
    /\ fr_pid f1 = fr_pid f /\ length (fr_cs1 f1) = length (fr_cs1 f).
Proof.
  intros E; destruct fs' as [|f1 fs1 _] using rev_ind.
  - rewrite fmap_app in E; by destruct (frame_path <$> fs).
  - exists fs1, f1; rewrite !fmap_app in E; apply app_inj_tail in E as [E1 E2]; injection E2 as E2 E3.
    apply (f_equal length) in E1; by rewrite !length_fmap in E1.
Qed.

(** What happens to the parent that lost the leaf. *)
Lemma parent_after (path : list path_entry) b b' (fs : list frame) (f : frame) (t : ptree)
    (lo hi : option bytes) (H : nat) :
  (forall i g, fs !! i = Some g -> path !!! i = frame_path g) ->
  opened b fs f t 0 lo hi H ->
  sib_chain (left_leaves fs ++ (flat_map leaves (fr_cs1 f) ++ leaves t ++ flat_map leaves (fr_cs2 f))
               ++ right_leaves fs) 0 ->
  (if negb (n_count (frame_node f (pid_of t)) =? 0)%nat
   then sdb_btree_stage (fr_pid f) (frame_node f (pid_of t))
   else if fr_pid f =? b_root_page b then collapse_root (n_first_child (frame_node f (pid_of t)))
   else if (2 <=? S (length fs))%nat then
     sdb_btree_reclaim_internal_up path (length fs) (fr_pid f) (n_first_child (frame_node f (pid_of t)))
   else batch_fail SDB_E_CORRUPT) b = (Ok tt, b') ->
  exists t' H', tree_after b b'
    (ctx_flatten fs (flat_map flatten (fr_cs1 f) ++ flatten t ++ flat_map flatten (fr_cs2 f))) t' H'.
Proof.
  intros Hpath Hop Hch Hrun; pose proof (op_frame _ _ _ _ _ _ _ _ Hop) as Hfok.
  assert (Hcnt : n_count (frame_node f (pid_of t)) = length (fr_ks1 f ++ fr_ks2 f))
    by (apply internal_node_count; by eapply frame_node_len).
  rewrite Hcnt in Hrun; destruct (Nat.eqb_spec (length (fr_ks1 f ++ fr_ks2 f)) 0) as [E0|E0]; cbn [negb] in Hrun.
  2: { eexists _, _; eapply rebuilt_after; [|exact Hch]; eapply store_parent; [exact Hop| |done].
       intros E; rewrite E in E0; done. }
  apply length_zero_iff_nil in E0; destruct (opened_deficit _ _ _ _ _ _ _ _ Hop E0) as (Hdf & E3 & E4).
  assert (Efc : n_first_child (frame_node f (pid_of t)) = pid_of t) by (unfold frame_node; rewrite E3; done).
  rewrite Efc in Hrun; rewrite E3, E4 in *; cbn [flat_map app] in *; rewrite !app_nil_r in *.
  destruct (Z.eqb_spec (fr_pid f) (b_root_page b)) as [Er|Er].
  - pose proof (deficit_root _ _ _ _ _ _ _ _ Hdf Er) as ->.
    pose proof (df_wf _ _ _ _ _ _ _ _ Hdf) as Hw; destruct t as [q s l|]; [|done].
    eexists _, _; by eapply collapse_leaf.
  - destruct (Nat.leb_spec 2 (S (length fs))) as [Hl|Hl]; [|done].
    destruct (reclaim_up_spec path fs Hpath _ _ _ _ _ _ _ _ Hdf Hrun) as (t' & H' & Ht).
    exists t', H'; by eapply rebuilt_after.
Qed.

Lemma reclaim_empty_leaf_spec (path : list path_entry) b b' (fs : list frame) (p s : Z) (H : nat) (lo hi : option bytes) :
  fs <> [] -> (forall i g, fs !! i = Some g -> path !!! i = frame_path g) ->
  ctx_wf H None None fs 0 lo hi -> ctx_repr (rd b) fs p ->
  pages_inv b (ctx_pids fs ++ [p]) -> ctx_root fs p = b_root_page b ->
  sib_chain (left_leaves fs ++ (p, s, []) :: right_leaves fs) 0 -> 0 <= s < 2 ^ 64 ->
  sdb_btree_reclaim_empty_leaf p s path (length fs) b = (Ok tt, b') ->
  exists t' H', tree_after b b' (ctx_flatten fs []) t' H'.
Proof.
  intros Hfs Hpath Hc Hr Hp Hro Hch Hs Hrun; destruct fs as [|f fs _] using rev_ind; [done|]; clear Hfs.
  rewrite length_app, Nat.add_1_r in Hrun; unfold sdb_btree_reclaim_empty_leaf in Hrun.
  rewrite Nat.sub_succ, Nat.sub_0_r in Hrun.
  pose proof (Hpath (length fs) f ltac:(by apply list_lookup_middle)) as Hpe; unfold path_entry in *.
  rewrite Hpe in Hrun; cbn [frame_path] in Hrun; inv_batch Hrun; destruct a.
  rewrite <- Nat.add_1_r in Hb; change 1%nat with (length [f]) in Hb at 1; rewrite <- length_app in Hb.
  pose proof (pi_nodup _ _ Hp) as Hnd; apply list.NoDup_app in Hnd as (Hnd & Hd & _).
  apply (unlink_spec path _ s H _ Hs _ _ p 0 lo hi Hpath Hc Hr Hp Hnd) in Hb as [Hp1 [fs' Hu]];
    [|intros x Hx; mem; tauto].
  destruct Hu as [Uw Ur Upa Uro Up Uf Uri Ul Uk Ue].
  destruct (frames_snoc _ _ _ Upa) as (fs1 & f1 & -> & Hl1 & Epid & Elen); rewrite <- Epid, <- Elen in Hrun.
  pose proof Uw as Uw0; apply ctx_wf_snoc in Uw0 as (lo1 & hi1 & _ & Hfw & _ & _).
  destruct (neighbour_exists _ _ _ _ Hfw) as (left & sib & sep & f' & Hnb); pose proof Hfw as [_ Hfok].
  destruct (neighbour_node _ _ _ _ _ _ _ _ p Hnb Hfok) as (Epid' & _ & _ & _ & _ & _ & Erem).
  pose proof Ur as Ur0; apply ctx_repr_snoc in Ur0 as (_ & Hn & _); apply read_inv in Hb0 as [Hb0 ->].
  rewrite <- Epid, Hn in Hb0; injection Hb0 as <-; rewrite Erem in Hrun.
  destruct (negb _ || _ || _) eqn:Ez; [done|]; clear Ez; inv_batch Hrun; destruct a, a0.
  rewrite <- Up in Hp1; assert (Hro1 : ctx_root fs1 (fr_pid f1) = b_root_page b0).
  { by rewrite (se_root _ _ Ue), <- Hro, <- Uro, ctx_root_app. }
  destruct (leaf_removed _ _ _ _ _ _ _ _ _ _ _ _ _ Uw Ur Hp1 Hro1 Hnb Hb Hb0) as (lo2 & hi2 & Hop & Ee).
  apply get_inv in Hb1 as [-> ->]; rewrite <- Hl1, <- Epid' in Hrun.
  assert (Hpath1 : forall i g, fs1 !! i = Some g -> path !!! i = frame_path g).
  { intros i g Hi; assert (Hg : (frame_path <$> (fs ++ [f])) !! i = Some (frame_path g))
      by (rewrite <- Upa, list_lookup_fmap, (lookup_app_l_Some _ _ _ _ Hi); done).
    rewrite list_lookup_fmap in Hg; destruct ((fs ++ [f]) !! i) as [g'|] eqn:Eg; [|done].
    transitivity (frame_path g'); [exact (Hpath _ _ Eg)|]; cbn in Hg; congruence. }
  destruct (parent_after path _ b' _ _ _ _ _ _ Hpath1 Hop) as (t' & H' & Ht); [|done|].
  - rewrite <- (app_nil_r (leaves sib)) at 1.
    pose proof (ctx_leaves_snoc fs1 f1 []) as E; rewrite (through_leaves _ _ _ _ _ Hnb) in E.
    replace (if left then leaves sib ++ [] else [] ++ leaves sib) with (leaves sib ++ []) in E
      by (destruct left; by rewrite ?app_nil_r).
    rewrite <- E, Uri; cbn [app]; destruct Ul as [[El El']|Ul]; [|by eapply unlink_chain].
    rewrite El in Hch; rewrite El'; apply Hch.
  - exists t', H'; rewrite <- Uf, ctx_flatten_snoc, (through_flatten _ _ _ _ _ Hnb).
    replace (if left then flatten sib ++ [] else [] ++ flatten sib) with (flatten sib)
      by (destruct left; by rewrite ?app_nil_r).
    eapply tree_after_trans; [|exact Ht]; by eapply same_env_trans.
Qed.

(** ** The descent *)

Lemma frame_path_lookup (fs : list frame) (i : nat) (f : frame) :
  fs !! i = Some f -> (frame_path <$> fs) !!! i = frame_path f.
Proof. intros Hi; apply list_lookup_total_correct; by rewrite list_lookup_fmap, Hi. Qed.

(** The leaf [t] of the context is replaced by [t'] on the same page. *)
Lemma store_leaf b b' (fs : list frame) (p s : Z) (l l' : list kv) (H : nat) (lo hi : option bytes) :
  ctx_wf H None None fs 0 lo hi -> wf_tree 0 lo hi (PLeaf p s l') ->
  ctx_repr (rd b) fs p -> pages_inv b (ctx_pids fs ++ [p]) -> ctx_root fs p = b_root_page b ->
  sib_chain (left_leaves fs ++ (p, s, l) :: right_leaves fs) 0 -> 0 <= s < 2 ^ 64 ->
  sdb_btree_stage p (leaf_node s l') b = (Ok tt, b') ->
  tree_after b b' (ctx_flatten fs l') (plug fs (PLeaf p s l')) H
  /\ ctx_repr (rd b') fs p /\ rd b' p = Ok (leaf_node s l').
Proof.
  intros Hc Hw Hcr Hp Hro Hch Hs Hst; pose proof (pi_nodup _ _ Hp) as Hnd.
  apply (stage_pages _ _ _ _ _ Hp) in Hst as (Hp' & Hr' & Hk & Ee & _); [|mem; tauto|by apply leaf_node_typed].
  apply keeps_one in Hk.
  assert (Hcr' : ctx_repr (rd b') fs p).
  { eapply keeps_ctx; [done| |done]; by apply list.NoDup_app in Hnd as (_ & Hd & _). }
  split; [|done]; split; try done.
  - by rewrite plug_pids.
  - apply plug_repr; split; [done|]; by apply repr_kids.
  - by rewrite plug_pid, (se_root _ _ Ee).
  - by eapply plug_wf.
  - by rewrite plug_flatten.
  - rewrite plug_leaves; cbn [leaves app]; rewrite sib_chain_app in *; cbn [sib_chain first_pid] in *; done.
Qed.

Lemma delete_at_leaf_spec b b' (fs : list frame) (p s : Z) (l : list kv) (key : bytes) (H : nat)
    (lo hi : option bytes) (found : bool) :
  ctx_wf H None None fs 0 lo hi -> wf_tree 0 lo hi (PLeaf p s l) ->
  ctx_repr (rd b) fs p -> rd b p = Ok (leaf_node s l) -> pages_inv b (ctx_pids fs ++ [p]) ->
  ctx_root fs p = b_root_page b -> sib_chain (left_leaves fs ++ (p, s, l) :: right_leaves fs) 0 ->
  delete_at_leaf p (leaf_node s l) key (frame_path <$> fs) b = (Ok found, b') ->
  if found then (key ∈ l.*1) /\ exists t' H', tree_after b b' (ctx_flatten fs (al_delete key l)) t' H'
  else (key ∉ l.*1) /\ b' = b.
Proof.
  intros Hc Hw Hcr Hrd Hp Hro Hch Hrun; pose proof Hw as [Hso HF].
  assert (Hs : 0 <= s < 2 ^ 64) by (apply read_node_wf in Hrd as [_ _ _ Hl _]; exact Hl).
  unfold delete_at_leaf in Hrun; pose proof (leaf_key_split s l key Hso) as Hks; cbv zeta in Hks.
  pose proof (leaf_delete_spec s l key Hso) as Hds; cbv zeta in Hds.
  destruct (key_at_position _ _ _); cbn [negb] in Hrun; [|by apply ret_inv in Hrun as [-> ->]].
  destruct Hks as (v & El & _); rewrite Hds in Hrun by done; clear Hds.
  assert (Hin : key ∈ l.*1) by (rewrite El, fmap_app, fmap_cons; mem; tauto); clear El v.
  assert (Hw' : wf_tree 0 lo hi (PLeaf p s (al_delete key l))) by (split; [by apply al_delete_sorted|by apply al_delete_Forall]).
  inv_batch Hrun; destruct a; destruct (store_leaf _ _ _ _ _ _ _ _ _ _ Hc Hw' Hcr Hp Hro Hch Hs Hb) as (Hta & Hcr1 & Hr1).
  apply get_inv in Hb0 as [-> ->]; apply get_inv in Hb1 as [-> ->].
  destruct (_ && negb (p =? _) && _) eqn:Eg; cycle 1.
  { apply ret_inv in Hrun as [-> ->]; eauto. }
  apply andb_true_iff in Eg as [Eg _]; apply andb_true_iff in Eg as [Eg _]; apply Nat.ltb_lt in Eg.
  inv_batch Hrun; apply read_inv in Hb0 as [Hb0 ->]; rewrite Hr1 in Hb0; injection Hb0 as <-.
  destruct (Nat.eqb_spec (n_count (leaf_node s (al_delete key l))) 0) as [E0|E0]; cycle 1.
  { apply ret_inv in Hrun as [-> ->]; eauto. }
  unfold n_count, leaf_node in E0; cbn [n_entries] in E0; rewrite length_fmap in E0; apply length_zero_iff_nil in E0.
  inv_batch Hrun; apply ret_inv in Hrun as [-> ->]; destruct a; rewrite length_fmap in *; rewrite E0 in *.
  split; [done|]; destruct Hta as [Tp Tr Tro Tw Tf Tc Te]; rewrite plug_pids in Tp.
  destruct (reclaim_empty_leaf_spec (frame_path <$> fs) b0 b1 fs p s H lo hi) as (t' & H' & Ht); try done.
  - by destruct fs; [cbn in Eg; lia|].
  - apply frame_path_lookup.
  - by rewrite (se_root _ _ Te).
  - by rewrite plug_leaves in Tc.
  - exists t', H'; by eapply tree_after_trans.
Qed.

Lemma delete_loop_spec (key : bytes) (H h : nat) :
  forall fuel b b' (fs : list frame) (t : ptree) (lo hi : option bytes) (found : bool),
  ctx_wf H None None fs h lo hi -> wf_tree h lo hi t -> within lo hi key ->
  ctx_repr (rd b) fs (pid_of t) -> repr (rd b) t -> pages_inv b (ctx_pids fs ++ pids t) ->
  ctx_root fs (pid_of t) = b_root_page b -> sib_chain (left_leaves fs ++ leaves t ++ right_leaves fs) 0 ->
  delete_loop fuel (pid_of t) key (frame_path <$> fs) b = (Ok found, b') ->
  if found then is_Some (al_lookup key (flatten t))
                /\ exists t' H', tree_after b b' (ctx_flatten fs (al_delete key (flatten t))) t' H'
  else al_lookup key (flatten t) = None /\ b' = b.
Proof.
  induction h as [|h IH]; intros fuel b b' fs t lo hi found Hc Hw Hk Hcr Hr Hp Hro Hch Hrun;
    destruct t as [p s l|p ks cs]; try done; destruct fuel as [|fuel]; cbn [delete_loop pid_of] in Hrun;
    inv_batch Hrun; apply read_inv in Hb as [Hb ->]; apply repr_root in Hr as Hn; cbn [pid_of node_of] in Hn;
    rewrite Hn in Hb; injection Hb as <-; cbn [leaf_node internal_node n_kind] in Hrun; try done.
  1, 2: fold (leaf_node s l) in Hrun; eapply delete_at_leaf_spec in Hrun; [|done..];
    destruct found; [|by destruct Hrun as [Hn' ->]; split; [apply al_lookup_notin|]];
    destruct Hrun as [Hin Ht]; split; [by apply al_lookup_in|done].
  destruct (descend_focus _ _ _ _ _ _ _ Hw Hk) as (ks1 & ks2 & cs1 & c & cs2 & Hfo & Hi & Hch').
  fold (internal_node (pid_of <$> cs) ks) in Hrun; rewrite Hi, Hch' in Hrun.
  rewrite (focus_lookup _ _ _ _ _ _ _ _ _ _ _ p Hfo), (focus_delete _ _ _ _ _ _ _ _ _ _ _ p Hfo).
  set (f := {| fr_pid := p; fr_ks1 := ks1; fr_ks2 := ks2; fr_cs1 := cs1; fr_cs2 := cs2 |}).
  assert (Et : PNode p ks cs = plug [f] c) by (rewrite (fo_ks _ _ _ _ _ _ _ _ _ _ _ Hfo), (fo_cs _ _ _ _ _ _ _ _ _ _ _ Hfo); done).
  change [(p, length cs1)] with (frame_path <$> [f]) in Hrun; rewrite <- fmap_app in Hrun.
  assert (Hfw : frame_wf h lo hi f).
  { unfold f; destruct Hw as (Hne & Hso & HF & _), Hfo; subst ks cs; split; cbn; [done|]; by split. }
  rewrite Et in Hr, Hp, Hch; apply plug_repr in Hr as [(Hf & Hc1 & Hc2 & _) Hrc]; cbn [ctx_root] in Hf.
  rewrite plug_pids, app_assoc in Hp; rewrite <- ctx_pids_app in Hp.
  eapply (IH fuel b b' (fs ++ [f]) c (last_or lo ks1) (head_or hi ks2)) in Hrun; try done.
  - destruct found; [|done]; destruct Hrun as [Hs (t' & H' & Ht)]; rewrite ctx_flatten_snoc in Ht; eauto.
  - apply ctx_wf_snoc; by exists lo, hi.
  - apply Hfo.
  - apply Hfo.
  - by apply ctx_repr_snoc.
  - by rewrite ctx_root_app.
  - rewrite plug_leaves in Hch; rewrite ctx_leaves_snoc; cbn [left_leaves right_leaves flat_map rev app] in Hch.
    by rewrite !app_nil_r in Hch.
Qed.

(** An absent key is reported without touching the batch. *)
Lemma delete_loop_absent b (key : bytes) (h : nat) :
  forall fuel (path : list path_entry) (t : ptree) (lo hi : option bytes),
  wf_tree h lo hi t -> repr (rd b) t -> within lo hi key -> (h <= fuel)%nat ->
  al_lookup key (flatten t) = None ->
  delete_loop fuel (pid_of t) key path b = (Ok false, b).
Proof.
  induction h as [|h IH]; intros fuel path t lo hi Hw Hr Hk Hf Hl; destruct t as [p s l|p ks cs]; try done.
  - apply repr_root in Hr; cbn [pid_of node_of flatten] in *; destruct Hw as [Hso _].
    assert (E : delete_at_leaf p (leaf_node s l) key path b = (Ok false, b)).
    { unfold delete_at_leaf; rewrite (leaf_lookup_spec s l key Hso) in Hl.
      by destruct (key_at_position _ _ _). }
    destruct fuel; cbn [delete_loop]; unfold mbind, batchM_bind, read_node; by rewrite Hr.
  - destruct fuel as [|fuel]; [lia|].
    destruct (descend_focus _ _ _ _ _ _ _ Hw Hk) as (ks1 & ks2 & cs1 & c & cs2 & Hfo & Hi & Hch).
    rewrite (focus_lookup _ _ _ _ _ _ _ _ _ _ _ p Hfo) in Hl; apply repr_node in Hr as [Hn Hr].
    cbn [delete_loop pid_of]; unfold mbind, batchM_bind, read_node; rewrite Hn; cbn [internal_node n_kind].
    fold (internal_node (pid_of <$> cs) ks); rewrite Hi, Hch.
    rewrite (fo_cs _ _ _ _ _ _ _ _ _ _ _ Hfo) in Hr; apply Forall_app in Hr as [_ Hr].
    apply Forall_cons_iff in Hr as [Hr _].
    apply (IH _ _ _ (last_or lo ks1) (head_or hi ks2)); [apply Hfo|done|apply Hfo|lia|done].
Qed.

(** ** Deletion on a batch *)

Lemma holds_context b (t : ptree) (h : nat) :
  batch_holds b t h -> pages_inv b (pids t).
Proof. intros [Ho Hr Hre Hw [Hn Hu] Hc Hs Ha]; by split. Qed.

Lemma tree_after_holds b b' (l : list kv) (t : ptree) (h : nat) : tree_after b b' l t h -> batch_holds b' t h.
Proof. intros [[Po Pn Pu Ps Pa] Tr Tro Tw Tf Tc Te]; split; try done; by split. Qed.

(** A key the tree holds is found. *)
Lemma delete_loop_found b b' (t : ptree) (h fuel : nat) (k : bytes) :
  batch_holds b t h -> is_Some (al_lookup k (flatten t)) ->
  delete_loop fuel (pid_of t) k [] b <> (Ok false, b').
Proof.
  intros Hh Hl Hd; pose proof Hh as [_ Hr Hre Hw _ Hc _ _]; apply holds_context in Hh.
  apply (delete_loop_spec k h h _ _ _ [] t None None false) in Hd; try done.
  - destruct Hd as [Hn _]; rewrite Hn in Hl; by destruct Hl.
  - cbn [left_leaves right_leaves flat_map rev app]; by rewrite app_nil_r.
Qed.

Lemma batch_delete_holds b b' (t : ptree) (h : nat) (k : bytes) :
  batch_holds b t h -> sdb_btree_batch_delete k b = (Ok tt, b') ->
  is_Some (al_lookup k (flatten t))
  /\ exists t' h', batch_holds b' t' h' /\ flatten t' = al_delete k (flatten t)
       /\ same_env b b' /\ b_failure b' = SDB_OK.
Proof.
  intros Hh H; pose proof Hh as [Ho Hr Hre Hw Hp Hc Hs Ha]; apply holds_context in Hh.
  unfold sdb_btree_batch_delete in H; destruct (_ || _) eqn:Eg; [done|].
  assert (Hf : b_failure b = SDB_OK).
  { apply orb_false_iff in Eg as [Eg _]; apply orb_false_iff in Eg as [_ Eg].
    apply negb_false_iff, bool_decide_eq_true in Eg; done. }
  clear Eg; unfold sticky in H; rewrite <- Hr in H.
  destruct (delete_loop _ _ _ _ _) as [[[]|e] b1] eqn:Em; try done; injection H as ->.
  apply (delete_loop_spec k h h _ _ _ [] t None None true) in Em; try done.
  2: { cbn [left_leaves right_leaves flat_map rev app]; by rewrite app_nil_r. }
  destruct Em as [Hl (t' & h' & Ht)]; split; [done|]; exists t', h'; split_and!.
  - by eapply tree_after_holds.
  - apply Ht.
  - apply Ht.
  - by rewrite (se_failure _ _ (ta_env _ _ _ _ _ Ht)).
Qed.
End Delete.
