(* ===== verification/BtreeFit.v ===== *)
(** * Page capacity

    When no entry is larger than half the room of a page, a node that overflows
    by one entry can always be split ([split_leaf_feasible],
    [split_internal_feasible]).  [fits] says that a batch reads only such nodes;
    [progress] that an operation either succeeds or was refused a page by the
    transaction.  The lemmas of this file are the rules for one staging, one
    allocation and one split; [BtreeProgress] composes them. *)

From S2P Require Import Prelude Status Codec Keys Page BtreePage OrderedMap PagerInterface BtreeNode BtreeTree Btree BtreeBatch BtreeInsert.

(** ** Sizes *)

Definition entry_size (kind : sdb_btree_node_kind) : sdb_btree_entry -> Z :=
  match kind with SDB_BTREE_LEAF => leaf_entry_size | SDB_BTREE_INTERNAL => internal_entry_size end.

Definition node_size (n : sdb_btree_node) : Z := 20 + sumZ (entry_size (n_kind n)) (n_entries n).

Lemma node_bytes_size (n : sdb_btree_node) : Z.of_nat (length (node_bytes n)) = node_size n.
Proof.
  unfold node_bytes, node_size; rewrite length_app, length_node_header, Nat2Z.inj_add; f_equal.
  induction (n_entries n) as [|e es IH]; [done|].
  rewrite mjoin_cons, length_app, Nat2Z.inj_add, entry_size_Z, sumZ_cons, IH; f_equal.
  destruct (n_kind n); cbn; unfold leaf_entry_size, internal_entry_size; lia.
Qed.

(** A key, an entry, of at most half the room of a page. *)
Definition key_small (capacity : Z) (k : bytes) : Prop :=
  1 <= Z.of_nat (length k) /\ 2 * (12 + Z.of_nat (length k)) <= capacity - 20.

Definition entry_small (capacity : Z) (e : sdb_btree_entry) : Prop :=
  key_small capacity (e_key e) /\ 2 * leaf_entry_size e <= capacity - 20.

Lemma entry_small_size (capacity : Z) (kind : sdb_btree_node_kind) (e : sdb_btree_entry) :
  entry_small capacity e -> 6 <= entry_size kind e /\ 2 * entry_size kind e <= capacity - 20.
Proof.
  intros [H1 H2]; unfold key_small in H1; destruct kind; cbn; unfold internal_entry_size, leaf_entry_size in *; lia.
Qed.

Lemma sumZ_nil {A} (f : A -> Z) : sumZ f [] = 0.
Proof. done. Qed.

Lemma sumZ_take_drop {A} (f : A -> Z) (c : nat) (l : list A) :
  sumZ f (take c l) + sumZ f (drop c l) = sumZ f l.
Proof. by rewrite <- sumZ_app, take_drop. Qed.

(** The longest prefix that is not larger than [C]. *)
Lemma prefix_cut {A} (f : A -> Z) (C : Z) (l : list A) :
  0 <= C < sumZ f l ->
  exists c x, l !! c = Some x /\ sumZ f (take c l) <= C < sumZ f (take c l) + f x.
Proof.
  revert C; induction l as [|x l IH]; intros C HC; [cbn in HC; lia|]; rewrite sumZ_cons in HC.
  destruct (Z.lt_ge_cases C (f x)) as [Hx|Hx].
  - exists 0%nat, x; cbn; split; [done|lia].
  - destruct (IH (C - f x)) as (c & y & Hy & Hc); [lia|].
    exists (S c), y; cbn [take lookup list_lookup]; rewrite sumZ_cons; split; [done|lia].
Qed.

Lemma sumZ_take_S {A} (f : A -> Z) (c : nat) (l : list A) (x : A) :
  l !! c = Some x -> sumZ f (take (S c) l) = sumZ f (take c l) + f x.
Proof.
  intros Hx; rewrite (take_S_r _ _ _ Hx), sumZ_app, sumZ_cons, sumZ_nil; lia.
Qed.

Section feasible_splits.
Context (capacity : Z) (es : list sdb_btree_entry).
Context (Hmax : 20 <= capacity <= 65536) (Hsm : Forall (entry_small capacity) es).

Lemma small_at (kind : sdb_btree_node_kind) (c : nat) (x : sdb_btree_entry) :
  es !! c = Some x -> 6 <= entry_size kind x /\ 2 * entry_size kind x <= capacity - 20.
Proof. intros Hx; apply entry_small_size, (Forall_lookup_1 _ _ _ _ Hsm Hx). Qed.

Lemma split_leaf_feasible :
  capacity - 20 < sumZ leaf_entry_size es -> 2 * sumZ leaf_entry_size es <= 3 * (capacity - 20) ->
  let m := split_leaf_loop capacity (sumZ leaf_entry_size es) es 1 0 0 SIZE_MAX in
  (1 <= m < length es)%nat /\ leaf_left es m <= capacity /\ leaf_right es m <= capacity.
Proof.
  intros Hover Hmost m; destruct (split_leaf_loop_inv capacity es [] 0 SIZE_MAX) as (best & Hb & Hm).
  { split; [intros c Hc; cbn in Hc; lia|done]. }
  cbn [app length] in Hb, Hm; rewrite sumZ_nil in Hm; fold m in Hm.
  destruct (prefix_cut leaf_entry_size (capacity - 20) es) as (c & x & Hx & Hc); [lia|].
  pose proof (small_at SDB_BTREE_LEAF _ _ Hx) as Hsx; cbn in Hsx.
  pose proof (lookup_lt_Some _ _ _ Hx); pose proof (sumZ_take_drop leaf_entry_size c es).
  assert (Hc1 : (1 <= c)%nat) by (destruct c; [rewrite take_0, sumZ_nil in Hc; lia|lia]).
  destruct (some_nonzero m) as [m'|] eqn:E.
  - destruct m; [done|]; injection E as <-; destruct Hm as (? & [? ?] & _); split_and!; lia.
  - exfalso; subst best; assert (Hf : feasible (leaf_left es) (leaf_right es) capacity c)
      by (unfold feasible, leaf_left, leaf_right; lia).
    specialize (Hb c ltac:(lia) Hf); unfold feasible, largest_half in *.
    assert (SIZE_MAX > 65536) by (by vm_compute); destruct (_ >? _) in Hb; lia.
Qed.

Lemma split_internal_feasible :
  capacity - 20 < sumZ internal_entry_size es -> 2 * sumZ internal_entry_size es <= 3 * (capacity - 20) ->
  (3 <= length es)%nat /\ exists m,
    split_internal_loop capacity (sumZ internal_entry_size es) (drop 1 es) 1
      (internal_entry_size (es !!! 0%nat)) None SIZE_MAX = Some m
    /\ (1 <= m)%nat /\ (S m < length es)%nat /\ internal_left es m <= capacity /\ internal_right es m <= capacity.
Proof.
  intros Hover Hmost.
  destruct (prefix_cut internal_entry_size (capacity - 20) es) as (c & x & Hx & Hc); [lia|].
  pose proof (small_at SDB_BTREE_INTERNAL _ _ Hx) as Hsx; cbn in Hsx; pose proof (lookup_lt_Some _ _ _ Hx).
  assert (Hc2 : (2 <= c)%nat).
  { destruct c as [|[|c]]; [rewrite take_0, sumZ_nil in Hc; lia| |lia].
    destruct (lookup_lt_is_Some_2 es 0 ltac:(lia)) as [e0 He0].
    pose proof (small_at SDB_BTREE_INTERNAL _ _ He0) as H0; cbn in H0.
    rewrite (sumZ_take_S _ _ _ _ He0), take_0, sumZ_nil in Hc; lia. }
  assert (Hf : exists d, (1 <= d)%nat /\ (S d < length es)%nat /\ internal_left es d <= capacity /\ internal_right es d <= capacity).
  { unfold internal_left, internal_right; exists (c - 1)%nat.
    destruct (lookup_lt_is_Some_2 es (c - 1)%nat ltac:(lia)) as [y Hy].
    pose proof (small_at SDB_BTREE_INTERNAL _ _ Hy) as Hsy; cbn in Hsy.
    pose proof (sumZ_take_S internal_entry_size _ _ _ Hy) as Hty.
    replace (S (c - 1)) with c in * by lia; pose proof (sumZ_take_drop internal_entry_size c es); split_and!; lia. }
  split; [lia|]; destruct Hf as (d & Hd1 & Hd2 & Hdl & Hdr); destruct es as [|e0 es0] eqn:Ees; [cbn in Hd2; lia|].
  destruct (split_internal_loop_inv capacity es0 [e0] None SIZE_MAX) as (best & Hb & Hm); [cbn; lia| |].
  { split; [intros k Hk; cbn in Hk; lia|done]. }
  cbn [app length drop lookup_total list_lookup_total] in *; rewrite (sumZ_cons _ e0 []), sumZ_nil, Z.add_0_r in Hm.
  destruct (split_internal_loop _ _ _ _ _ _ _) as [m|]; [exists m; destruct Hm as (? & [? ?] & _); split_and!; (done || lia)|].
  exfalso; subst best; specialize (Hb d ltac:(lia) (conj Hdl Hdr)); unfold largest_half in Hb.
  assert (SIZE_MAX > 65536) by (by vm_compute); destruct (_ >? _) in Hb; lia.
Qed.
End feasible_splits.

(** ** Well-formed pieces of nodes *)

Lemma node_wf_piece (n n' : sdb_btree_node) :
  node_wf n -> n_kind n' = n_kind n ->
  (exists c, n_entries n' = take c (n_entries n)) \/ (exists c, n_entries n' = drop c (n_entries n)) ->
  0 <= node_link n' < 2 ^ 64 ->
  match n_kind n with
  | SDB_BTREE_LEAF => n_first_child n' = 0
  | SDB_BTREE_INTERNAL => n_right_sibling n' = 0 /\ n_first_child n' <> 0
  end -> node_wf n'.
Proof.
  intros [Hc HF Hs _ _] Hk Hp Hl Hm; unfold keys_sorted in Hs.
  assert (H : exists es, (n_entries n = n_entries n' ++ es) \/ (n_entries n = es ++ n_entries n')).
  { destruct Hp as [[c ->]|[c ->]]; eexists; [left|right]; by rewrite take_drop. }
  destruct H as [es [E|E]]; rewrite E in Hc, HF, Hs; rewrite length_app in Hc; rewrite fmap_app in Hs;
    apply Forall_app in HF as [HF1 HF2]; apply StronglySorted_app_iff in Hs as (Hs1 & Hs2 & _);
    (split; rewrite ?Hk; [lia|done|done|done|done]).
Qed.

Definition node_small (capacity : Z) (n : sdb_btree_node) : Prop :=
  node_size n <= capacity /\ Forall (entry_small capacity) (n_entries n).

Lemma small_count (capacity : Z) (kind : sdb_btree_node_kind) (es : list sdb_btree_entry) :
  Forall (entry_small capacity) es -> 6 * Z.of_nat (length es) <= sumZ (entry_size kind) es.
Proof.
  induction 1 as [|e es He _ IH]; [done|]; cbn [length]; rewrite sumZ_cons.
  apply (entry_small_size _ kind) in He; lia.
Qed.

Lemma sumZ_fmap {A B} (f : B -> Z) (g : A -> B) (l : list A) : sumZ f (g <$> l) = sumZ (fun x => f (g x)) l.
Proof. induction l as [|x l IH]; [done|]; by rewrite fmap_cons, !sumZ_cons, IH. Qed.

(** Leaves. *)

Lemma al_insert_all (Q : kv -> Prop) (k v : bytes) (l : list kv) :
  Q (k, v) -> Forall Q l -> Forall Q (al_insert k v l).
Proof.
  intros Hk; induction 1 as [|[k' v'] l Hx HF IH]; cbn [al_insert]; [by constructor|].
  destruct (key_cmp k k'); by repeat constructor.
Qed.

Lemma al_insert_sum (f : kv -> Z) (k v : bytes) (l : list kv) :
  (forall x, 0 <= f x) -> sumZ f (al_insert k v l) <= sumZ f l + f (k, v).
Proof.
  intros Hf; induction l as [|[k' v'] l IH]; cbn [al_insert]; [rewrite sumZ_cons, sumZ_nil; lia|].
  pose proof (Hf (k', v')); destruct (key_cmp k k'); rewrite ?sumZ_cons in *; lia.
Qed.

Lemma leaf_insert_small (capacity s : Z) (k v : bytes) (l : list kv) :
  capacity <= 65536 -> node_wf (leaf_node s l) -> node_small capacity (leaf_node s l) -> key_sorted l ->
  entry_small capacity (leaf_entry (k, v)) ->
  let n := leaf_node s (al_insert k v l) in
  node_wf n /\ Forall (entry_small capacity) (n_entries n) /\ 2 * (node_size n - 20) <= 3 * (capacity - 20).
Proof.
  cbv zeta; intros Hc Hw [Hs1 Hs2] Hso He; unfold node_size in *; cbn [leaf_node n_kind entry_size n_entries] in *.
  assert (HF : Forall (entry_small capacity) (leaf_entry <$> al_insert k v l)).
  { apply List.Forall_map, al_insert_all; [done|]; exact (proj1 (Forall_fmap _ _ _) Hs2). }
  pose proof (al_insert_sum (fun x => leaf_entry_size (leaf_entry x)) k v l) as Hsum.
  cbv beta in Hsum; rewrite !sumZ_fmap in *; destruct He as [Hk1 He]; unfold key_small in Hk1.
  assert (Hpos : forall x : kv, 0 <= leaf_entry_size (leaf_entry x)) by (intros x; unfold leaf_entry_size; lia).
  specialize (Hsum Hpos); pose proof (small_count _ SDB_BTREE_LEAF _ HF) as Hcnt; cbn [entry_size] in Hcnt; rewrite sumZ_fmap in Hcnt.
  split_and!; [|done|lia]; destruct Hw as [_ Hew _ Hl Hkd]; split; cbn [leaf_node n_kind n_entries] in *.
  - unfold UINT16_MAX; lia.
  - apply List.Forall_map, al_insert_all; [|exact (proj1 (Forall_fmap _ _ _) Hew)].
    unfold entry_wf, UINT16_MAX, UINT32_MAX, leaf_entry_size in *; cbn in *; lia.
  - unfold keys_sorted; rewrite leaf_entry_keys; by apply al_insert_sorted.
  - done.
  - done.
Qed.

(** Internal nodes. *)

Definition keys_size (ks : list bytes) : Z := sumZ (fun k => 12 + Z.of_nat (length k)) ks.

Lemma internal_node_size (ids : list Z) (ks : list bytes) :
  length ids = S (length ks) -> node_size (internal_node ids ks) = 20 + keys_size ks.
Proof.
  intros Hl; unfold node_size, keys_size; cbn [internal_node n_kind entry_size]; f_equal.
  rewrite <- (internal_node_keys ids ks Hl) at 2; by rewrite sumZ_fmap.
Qed.

Lemma internal_node_entries (Q : sdb_btree_entry -> Prop) (ids : list Z) (ks : list bytes) :
  length ids = S (length ks) ->
  (forall k p, k ∈ ks -> p ∈ ids -> Q {| e_key := k; e_value := []; e_right_child := p |}) ->
  Forall Q (n_entries (internal_node ids ks)).
Proof.
  intros Hl HQ; apply List.Forall_forall; intros e He; apply list_elem_of_In in He; cbn [internal_node n_entries] in He.
  apply elem_of_lookup_zip_with in He as (i & k & c & -> & Hk & Hc); apply HQ; [by eapply list_elem_of_lookup_2|].
  apply list_elem_of_lookup_2 in Hc; destruct ids as [|p ids]; [done|]; by right.
Qed.

Lemma internal_node_small (capacity : Z) (ids : list Z) (ks : list bytes) :
  capacity <= 65536 -> length ids = S (length ks) -> Forall (fun p => 0 < p < 2 ^ 64) ids -> StronglySorted key_lt ks ->
  Forall (key_small capacity) ks -> 2 * keys_size ks <= 3 * (capacity - 20) ->
  let n := internal_node ids ks in
  node_wf n /\ Forall (entry_small capacity) (n_entries n) /\ 2 * (node_size n - 20) <= 3 * (capacity - 20).
Proof.
  cbv zeta; intros Hc Hl Hids Hs Hk Hsz; rewrite (internal_node_size _ _ Hl).
  rewrite !List.Forall_forall in *; setoid_rewrite <- list_elem_of_In in Hids; setoid_rewrite <- list_elem_of_In in Hk.
  assert (HF : Forall (entry_small capacity) (n_entries (internal_node ids ks))).
  { apply internal_node_entries; [done|]; intros k p Hkin _; specialize (Hk k Hkin); split; [done|].
    unfold key_small, leaf_entry_size in *; cbn [e_key e_value length]; lia. }
  split_and!; [|by apply List.Forall_forall|lia].
  pose proof (small_count _ SDB_BTREE_INTERNAL _ HF) as Hcnt; cbn [entry_size] in Hcnt.
  pose proof (internal_node_size _ _ Hl) as Hsize; unfold node_size in Hsize; cbn [internal_node n_kind entry_size] in Hsize.
  split; cbn [internal_node n_kind].
  - cbn [internal_node n_entries] in *; unfold UINT16_MAX; lia.
  - apply internal_node_entries; [done|]; intros k p Hkin Hp; specialize (Hk k Hkin); specialize (Hids p Hp).
    unfold entry_wf, key_small, UINT16_MAX in *; cbn [e_key e_value e_right_child]; split_and!; (done || lia).
  - by apply internal_node_sorted.
  - destruct ids as [|p ids]; [done|]; specialize (Hids p ltac:(left)); unfold node_link; cbn; lia.
  - destruct ids as [|p ids]; [done|]; specialize (Hids p ltac:(left)); cbn; split; [done|lia].
Qed.

(** ** Batches whose nodes are small *)

Section Progress.
Context {P T : Type} `{!PagerOps P T} `{!PagerLaws P T}.

Implicit Types b : sdb_btree_batch (T := T).

Abbreviation rd := sdb_btree_batch_read_node.

(** The committed state the batch started from. *)
Context (origin : P).

Record fits (capacity : Z) b : Prop := {
  ft_origin : pager_eqv (b_pager b) origin;
  ft_capacity : b_capacity b = capacity;
  ft_max : 20 <= capacity <= 65536;
  ft_pager : forall p n, sdb_btree_read_node (b_pager b) p = Ok n -> node_small capacity n;
  ft_items : forall m n, m ∈ b_items b -> sdb_btree_node_decode (m_payload m) = Ok n -> node_small capacity n
}.

Lemma fits_read (capacity : Z) b (p : Z) (n : sdb_btree_node) :
  fits capacity b -> rd b p = Ok n -> node_small capacity n /\ node_wf n.
Proof.
  intros Hf Hr; split; [|by eapply read_node_wf]; unfold sdb_btree_batch_read_node in Hr.
  destruct (sdb_btree_find_staged b p) as [m|] eqn:E; [|by eapply (ft_pager _ _ Hf)].
  unfold sdb_btree_find_staged in E; apply fmap_Some in E as ([i m'] & E & ->).
  apply list_find_Some in E as (E & _); eapply (ft_items _ _ Hf); [|exact Hr].
  by eapply list_elem_of_lookup_2.
Qed.

(** A transaction on this committed state refused a page, or refused to take one
    back. *)
Inductive storage_failed (e : sdb_status) : Prop :=
  | allocate_failed (t t' : T) :
      txn_ok t -> pager_eqv (txn_pager t) origin -> txn_allocate t = (Err e, t') -> storage_failed e
  | free_failed (t t' : T) (p : Z) :
      txn_ok t -> pager_eqv (txn_pager t) origin -> txn_in_use t p -> txn_free t p = (Err e, t') ->
      storage_failed e.

(** A run succeeds with [Phi], or fails with one of the statuses [F]. *)
Definition progress {A} (F : sdb_status -> Prop) (run : result A * sdb_btree_batch (T := T)) (Phi : A -> sdb_btree_batch (T := T) -> Prop) : Prop :=
  match run with
  | (Ok a, b') => Phi a b'
  | (Err e, _) => F e
  end.

Section rules.
Context (F : sdb_status -> Prop).

Lemma progress_bind {A B} (m : batchM (T := T) A) (k : A -> batchM B) b (Phi : A -> sdb_btree_batch (T := T) -> Prop)
    (Psi : B -> sdb_btree_batch (T := T) -> Prop) :
  progress F (m b) Phi -> (forall a b', m b = (Ok a, b') -> Phi a b' -> progress F (k a b') Psi) ->
  progress F ((m ≫= k) b) Psi.
Proof.
  unfold progress at 1, mbind, batchM_bind; intros H Hk; destruct (m b) as [[a|e] b1]; [by apply Hk|done].
Qed.

Lemma progress_impl {A} (run : result A * sdb_btree_batch (T := T)) (Phi Psi : A -> sdb_btree_batch (T := T) -> Prop) :
  progress F run Phi -> (forall a b', run = (Ok a, b') -> Phi a b' -> Psi a b') -> progress F run Psi.
Proof. unfold progress; destruct run as [[a|e] b1]; auto. Qed.

Lemma progress_get {A B} (f : sdb_btree_batch (T := T) -> A) (k : A -> batchM B) b (Psi : B -> sdb_btree_batch (T := T) -> Prop) :
  progress F (k (f b) b) Psi -> progress F ((batch_get f ≫= k) b) Psi.
Proof. done. Qed.

Lemma progress_read {B} (p : Z) (k : sdb_btree_node -> batchM B) b (n : sdb_btree_node)
    (Psi : B -> sdb_btree_batch (T := T) -> Prop) :
  rd b p = Ok n -> progress F (k n b) Psi -> progress F ((read_node p ≫= k) b) Psi.
Proof. intros Hr Hk; unfold mbind, batchM_bind, read_node; by rewrite Hr. Qed.

Lemma encoded_size_progress {B} (capacity : Z) (n : sdb_btree_node) (k : Z -> batchM B) b
    (Psi : B -> sdb_btree_batch (T := T) -> Prop) :
  node_wf n -> capacity <= 65536 -> node_size n <= 2 * capacity -> progress F (k (node_size n) b) Psi ->
  progress F ((batch_lift (sdb_btree_node_encoded_size n) ≫= k) b) Psi.
Proof.
  intros Hw Hc Hs Hk; unfold mbind, batchM_bind, batch_lift.
  rewrite node_encoded_size_ok, node_bytes_size; [done|done|].
  rewrite node_bytes_size; assert (SIZE_MAX > 2 * 65536) by (by vm_compute); lia.
Qed.

Lemma stage_progress (capacity : Z) (p : Z) (n : sdb_btree_node) b :
  fits capacity b -> node_wf n -> node_small capacity n ->
  progress F (sdb_btree_stage p n b) (fun _ b' => fits capacity b').
Proof.
  intros [Ho Hc Hm Hp Hi] Hw Hs; unfold sdb_btree_stage; destruct Hs as [Hs1 Hs2].
  assert (SIZE_MAX > 65536) by (by vm_compute).
  rewrite node_encoded_size_ok by (rewrite ?node_bytes_size; (done || lia)); cbn [mbind result_bind].
  rewrite Hc, node_bytes_size; zcmp; rewrite check_false, node_encode_ok by (rewrite ?node_bytes_size; (done || lia)).
  cbn [progress]; split; try done; cbn [set_items b_items].
  intros m n' Hin Hd; assert (m ∈ b_items b \/ m_payload m = node_bytes n) as [H1|H1].
  { clear -Hin; induction (b_items b) as [|i items IH]; cbn [stage_item] in Hin.
    - apply list_elem_of_singleton in Hin as ->; by right.
    - destruct (_ =? _); apply elem_of_cons in Hin as [->|Hin]; [by right|left; by right|left; by left|].
      destruct (IH Hin) as [?|?]; [left; by right|by right]. }
  - by eapply Hi.
  - rewrite H1 in Hd; apply node_decode_iff in Hd as [Hw' E].
    assert (n' = n) as ->; [|done].
    assert (sdb_btree_node_decode (node_bytes n) = Ok n) as E1 by (by apply node_decode_iff).
    assert (sdb_btree_node_decode (node_bytes n) = Ok n') as E2 by (by apply node_decode_iff); congruence.
Qed.

Lemma set_txn_fits (capacity : Z) b (t : T) :
  pager_eqv (txn_pager t) (txn_pager (b_txn b)) -> fits capacity b -> fits capacity (set_txn b t).
Proof.
  intros He [Ho Hc Hm Hp Hi]; unfold b_capacity, b_pager in *; split; cbn [set_txn b_txn b_items]; try done.
  - unfold b_pager; cbn [set_txn b_txn]; by rewrite He.
  - unfold b_capacity, b_pager; cbn [set_txn b_txn]; by rewrite He.
  - unfold b_pager; cbn [set_txn b_txn]; intros p n; unfold sdb_btree_read_node.
    rewrite (pager_read_proper _ _ He p p eq_refl); apply Hp.
Qed.

Lemma allocate_progress (capacity : Z) b :
  (forall e, storage_failed e -> F e) -> fits capacity b -> batch_ok b ->
  progress F (batch_allocate b) (fun _ b' => fits capacity b').
Proof.
  intros HF Hf Hb; unfold batch_allocate; pose proof (allocate_pager (b_txn b)) as He.
  destruct (txn_allocate (b_txn b)) as [[p|e] t] eqn:E; cbn [snd] in He.
  - by apply set_txn_fits.
  - eapply HF, allocate_failed; [apply Hb|apply (ft_origin _ _ Hf)|exact E].
Qed.
End rules.
End Progress.
