(* ===== verification/BtreeProgress.v ===== *)
(** * Insertions and deletions succeed unless the storage fails

    On a batch whose nodes are small ([BtreeFit.fits]), a put of a small entry
    and a delete never fail on their own: every error they report is one the
    transaction reported for an allocation or a release.  In particular no
    split, merge or redistribution gets stuck, no depth limit is reached and no
    corruption check fires on a well-formed tree. *)

From S2P Require Import Prelude Status Codec Keys Page BtreePage OrderedMap PagerInterface BtreeNode BtreeTree Btree BtreeBatch BtreeInsert BtreePut BtreeContext BtreeReclaim BtreeDelete BtreeFit.

Section Progress.
Context {P T : Type} `{!PagerOps P T} `{!PagerLaws P T}.

Implicit Types b : sdb_btree_batch (T := T).

Abbreviation rd := sdb_btree_batch_read_node.

Context (origin : P) (F : sdb_status -> Prop) (Hrefuse : forall e, storage_failed origin e -> F e).

(** ** Splits *)

(** What an insertion leaves: small nodes, small separators, its page staged. *)
Definition inserted (capacity : Z) (p : Z) (r : sdb_btree_split) b : Prop :=
  fits origin capacity b /\ Forall (key_small capacity) (split_seps r) /\ p ∈ staged b.

Lemma total_progress {B} (kind : sdb_btree_node_kind) (es : list sdb_btree_entry) (k : Z -> batchM (T := T) B) b
    (Psi : B -> sdb_btree_batch (T := T) -> Prop) :
  sumZ (entry_size kind) es <= 2 * 65536 -> progress F (k (sumZ (entry_size kind) es) b) Psi ->
  progress F ((batch_lift (total_entries_loop (entry_size kind) es 0) ≫= k) b) Psi.
Proof.
  intros Hs Hk; unfold mbind, batchM_bind, batch_lift; rewrite total_entries_loop_ok; [done| |lia|].
  - intros e; destruct kind; cbn; unfold leaf_entry_size, internal_entry_size; lia.
  - assert (SIZE_MAX > 2 * 65536) by (by vm_compute); lia.
Qed.

(** Staging the two halves. *)
Lemma halves_progress (capacity p q : Z) (n1 n2 : sdb_btree_node) (r : sdb_btree_split) b :
  fits origin capacity b -> batch_ok b -> node_wf n1 -> node_wf n2 -> node_small capacity n1 -> node_small capacity n2 ->
  Forall (key_small capacity) (split_seps r) ->
  progress F ((_ ← sdb_btree_stage p n1; _ ← sdb_btree_stage q n2; mret r) b) (inserted capacity p).
Proof.
  intros Hf Hb W1 W2 S1 S2 Hr; eapply progress_bind; [by apply stage_progress|]; intros [] b1 E1 Hf1.
  apply stage_spec in E1 as (X1 & Hp & _); [|done|by apply node_wf_typed].
  eapply progress_bind; [by apply stage_progress|]; intros [] b2 E2 Hf2.
  apply stage_spec in E2 as (X2 & _ & _); [|apply X1|by apply node_wf_typed].
  split_and!; [done|done|by apply X2].
Qed.

Lemma split_leaf_progress (capacity p : Z) (n : sdb_btree_node) b :
  fits origin capacity b -> batch_ok b -> node_wf n -> n_kind n = SDB_BTREE_LEAF -> Forall (entry_small capacity) (n_entries n) ->
  capacity < node_size n -> 2 * (node_size n - 20) <= 3 * (capacity - 20) ->
  progress F (sdb_btree_split_leaf p n b) (inserted capacity p).
Proof.
  intros Hf Hb Hw Hk Hs Hover Hmost; unfold node_size in Hover, Hmost; rewrite Hk in Hover, Hmost; cbn [entry_size] in Hover, Hmost.
  pose proof (ft_max _ _ _ Hf) as Hm; unfold sdb_btree_split_leaf; apply (total_progress SDB_BTREE_LEAF); [cbn; lia|].
  cbn [entry_size]; apply progress_get; rewrite (ft_capacity _ _ _ Hf).
  destruct (split_leaf_feasible capacity (n_entries n)) as (Hr & Hl1 & Hl2); [lia|done|lia|lia|].
  set (m := split_leaf_loop _ _ _ _ _ _ _) in *; rewrite (proj2 (Nat.eqb_neq m 0)) by lia; cbv zeta.
  eapply progress_bind; [by apply allocate_progress|]; intros q b1 Ea Hf1.
  apply allocate_spec in Ea as (X1 & _ & _ & Hq & _); [|done].
  destruct (lookup_lt_is_Some_2 (n_entries n) m ltac:(lia)) as [e He].
  assert (Ed : drop m (n_entries n) !!! 0%nat = e)
    by (apply list_lookup_total_correct; by rewrite lookup_drop, Nat.add_0_r).
  rewrite <- (take_drop m) in Hs; apply Forall_app in Hs as [Hs1 Hs2].
  pose proof Hw as [_ _ _ Hlk Hfc]; rewrite Hk in Hfc; unfold node_link in Hlk; rewrite Hk in Hlk.
  apply halves_progress; [done|apply X1| | | | |].
  - eapply node_wf_piece; [exact Hw|done|left; by exists m| |rewrite Hk]; cbn; [unfold node_link; cbn; rewrite Hk; lia|done].
  - eapply node_wf_piece; [exact Hw|cbn; done|right; by exists m| |rewrite Hk]; cbn; done.
  - split; [unfold node_size; cbn; rewrite Hk; exact Hl1|done].
  - split; [exact Hl2|done].
  - cbn [split_seps n_entries]; rewrite Ed; constructor; [|constructor].
    rewrite (drop_S _ _ _ He) in Hs2; apply Forall_cons_iff in Hs2 as [[H _] _]; exact H.
Qed.

Lemma split_internal_progress (capacity p : Z) (n : sdb_btree_node) b :
  fits origin capacity b -> batch_ok b -> node_wf n -> n_kind n = SDB_BTREE_INTERNAL -> Forall (entry_small capacity) (n_entries n) ->
  capacity < node_size n -> 2 * (node_size n - 20) <= 3 * (capacity - 20) ->
  progress F (sdb_btree_split_internal p n b) (inserted capacity p).
Proof.
  intros Hf Hb Hw Hk Hs Hover Hmost; unfold node_size in Hover, Hmost; rewrite Hk in Hover, Hmost; cbn [entry_size] in Hover, Hmost.
  pose proof (ft_max _ _ _ Hf) as Hm; unfold sdb_btree_split_internal; apply (total_progress SDB_BTREE_INTERNAL); [cbn; lia|].
  cbn [entry_size]; destruct (split_internal_feasible capacity (n_entries n)) as (Hc & m & E & Hm1 & Hm2 & Hl1 & Hl2); [lia|done|lia|lia|].
  unfold n_count; rewrite (proj2 (Nat.ltb_ge _ 3)) by lia; apply progress_get; rewrite (ft_capacity _ _ _ Hf), E; cbv zeta.
  destruct (lookup_lt_is_Some_2 (n_entries n) m ltac:(lia)) as [e He].
  rewrite (list_lookup_total_correct _ _ _ He); pose proof (Forall_lookup_1 _ _ _ _ Hs He) as [Hek _].
  pose proof Hw as [_ HF _ Hlk Hfc]; pose proof (Forall_lookup_1 _ _ _ _ HF He) as Hec.
  rewrite Hk in Hfc, Hec; unfold node_link in Hlk; rewrite Hk in Hlk; destruct Hec as [_ [Hec _]].
  eapply progress_bind; [by apply allocate_progress|]; intros q b1 Ea Hf1.
  apply allocate_spec in Ea as (X1 & _ & _ & Hq & _); [|done].
  assert (Hs2 : Forall (entry_small capacity) (drop (S m) (n_entries n))) by (by apply Forall_drop).
  apply halves_progress; [done|apply X1| | | | |].
  - eapply node_wf_piece; [exact Hw|done|left; by exists m| |rewrite Hk]; cbn; [unfold node_link; cbn; rewrite Hk; lia|done].
  - eapply node_wf_piece; [exact Hw|cbn; done|right; by exists (S m)| |rewrite Hk]; cbn; [unfold node_link; cbn; lia|].
    split; [done|lia].
  - split; [unfold node_size; cbn; rewrite Hk; exact Hl1|by apply Forall_take].
  - split; [exact Hl2|done].
  - by constructor.
Qed.

Lemma store_or_split_progress (capacity p : Z) (n : sdb_btree_node) b :
  fits origin capacity b -> batch_ok b -> node_wf n -> Forall (entry_small capacity) (n_entries n) ->
  2 * (node_size n - 20) <= 3 * (capacity - 20) ->
  progress F (store_or_split p n b) (inserted capacity p).
Proof.
  intros Hf Hb Hw Hs Hmost; pose proof (ft_max _ _ _ Hf) as Hm; unfold store_or_split.
  eapply (encoded_size_progress F capacity); [done|lia|lia|]; apply progress_get; rewrite (ft_capacity _ _ _ Hf).
  destruct (Z.leb_spec (node_size n) capacity) as [Hfit|Hover].
  - eapply progress_bind; [by apply stage_progress|]; intros [] b1 E1 Hf1.
    apply stage_spec in E1 as (_ & Hp & _); [|done|by apply node_wf_typed]; by split_and!.
  - destruct (Nat.ltb_spec (n_count n) 2) as [Hc|Hc].
    + exfalso; unfold n_count, node_size in *; destruct (n_entries n) as [|e [|? ?]]; cbn in Hc; try lia; cbn in Hover; [lia|].
      apply Forall_cons_iff in Hs as [Hs _]; apply (entry_small_size _ (n_kind n)) in Hs; lia.
    + destruct (n_kind n) eqn:Ek; [by apply split_leaf_progress|by apply split_internal_progress].
Qed.


(** ** Insertion *)

Lemma small_keys (capacity : Z) (ids : list Z) (ks : list bytes) :
  length ids = S (length ks) -> node_small capacity (internal_node ids ks) ->
  Forall (key_small capacity) ks /\ keys_size ks <= capacity - 20.
Proof.
  intros Hl [Hs HF]; rewrite (internal_node_size _ _ Hl) in Hs; split; [|lia].
  rewrite <- (internal_node_keys ids ks Hl); apply List.Forall_map; eapply Forall_impl; [|exact HF]; by intros e [He _].
Qed.

Lemma keys_size_sep (capacity : Z) (ks1 seps ks2 : list bytes) :
  (length seps <= 1)%nat -> 20 <= capacity -> Forall (key_small capacity) seps -> keys_size (ks1 ++ ks2) <= capacity - 20 ->
  2 * keys_size (ks1 ++ seps ++ ks2) <= 3 * (capacity - 20).
Proof.
  intros Hl Hc HF; unfold keys_size; rewrite !sumZ_app; destruct seps as [|k [|? ?]]; cbn in Hl; try lia.
  - rewrite sumZ_nil; lia.
  - apply Forall_cons_iff in HF as [[_ HF] _]; rewrite sumZ_cons, sumZ_nil; lia.
Qed.

Lemma insert_progress (capacity : Z) (k v : bytes) (h fuel : nat) (lo hi : option bytes) (t : ptree) b :
  fits origin capacity b -> batch_ok b -> wf_tree h lo hi t -> repr (rd b) t -> tree_pages b t -> within lo hi k ->
  entry_small capacity (leaf_entry (k, v)) -> (h < fuel)%nat ->
  progress F (sdb_btree_insert_recursive fuel (pid_of t) k v b) (inserted capacity (pid_of t)).
Proof.
  revert fuel lo hi t b; induction h as [|h IH];
    intros [|fuel] lo hi [p s l|p ks cs] b Hf Hb Hwf Hr Hp Hw He Hlt; try done; try lia;
    cbn [sdb_btree_insert_recursive pid_of]; pose proof (repr_root _ _ Hr) as Hn;
    (eapply progress_read; [exact Hn|]); destruct (fits_read _ _ _ _ _ Hf Hn) as [Hsm Hnw]; pose proof (ft_max _ _ _ Hf) as Hm.
  - destruct Hwf as [Hs HF]; cbn [node_of] in *; change (n_kind (leaf_node s l)) with SDB_BTREE_LEAF; cbn match.
    rewrite leaf_put_spec by done; destruct (leaf_insert_small capacity s k v l) as (H1 & H2 & H3); try done; [lia|].
    by apply store_or_split_progress.
  - cbn [node_of] in *; change (n_kind (internal_node _ ks)) with SDB_BTREE_INTERNAL; cbn match.
    destruct (descend_focus _ _ _ _ _ _ _ Hwf Hw) as (ks1 & ks2 & cs1 & c & cs2 & Hfo & Hi & Hc).
    rewrite Hi, Hc; apply repr_node in Hr as [_ Hr]; pose proof Hfo as [Hks Hcs _ _ Hcw _ Hcin _ _ _ _].
    assert (Hrc : repr (rd b) c) by (subst cs; apply Forall_app in Hr as [_ Hr]; by apply Forall_cons_iff in Hr as [Hr _]).
    assert (Hpc : tree_pages b c).
    { destruct (step_pids b p _ _ _ _ _ _ _ _ _ _ _ Hfo Hp) as [Hnd Hu]; split.
      - apply list.NoDup_cons in Hnd as [_ Hnd]; apply list.NoDup_app in Hnd as (_ & _ & Hnd).
        by apply list.NoDup_app in Hnd as (Hnd & _ & _).
      - apply Forall_cons_iff in Hu as [_ Hu]; rewrite !Forall_app in Hu; tauto. }
    eapply progress_bind; [by eapply IH; [..|lia]|]; intros r b1 E1 (Hf1 & Hseps & _).
    destruct (insert_spec k v h fuel _ _ c b b1 r Hb Hcw Hrc Hpc Hcin E1) as (trees & X & Hst).
    rewrite (node_with_forest _ _ _ _ _ _ _ _ _ _ _ _ _ Hfo (st_ids _ _ _ _ _ _ _ _ _ _ Hst)).
    assert (Hwf1 : wf_tree (S h) lo hi (PNode p (ks1 ++ split_seps r ++ ks2) (cs1 ++ trees ++ cs2)))
      by (by eapply step_wf).
    assert (Hp1 : tree_pages b1 (PNode p (ks1 ++ split_seps r ++ ks2) (cs1 ++ trees ++ cs2)))
      by (by eapply step_pages).
    destruct Hwf as (_ & _ & _ & Hlen), Hwf1 as (_ & Hs1 & _ & Hlen1), Hp1 as [_ Hu1].
    apply kids_length in Hlen, Hlen1; rewrite pids_node in Hu1; apply Forall_cons_iff in Hu1 as [_ Hu1].
    destruct (small_keys capacity (pid_of <$> cs) ks) as [Hks1 Hks2]; [by rewrite length_fmap|done|]; rewrite Hks, Forall_app in Hks1; rewrite Hks in Hks2.
    pose proof (st_ext _ _ _ _ _ _ _ _ _ _ Hst) as Hx.
    destruct (internal_node_small capacity (pid_of <$> (cs1 ++ trees ++ cs2)) (ks1 ++ split_seps r ++ ks2)) as (H1 & H2 & H3); try done.
    + lia.
    + by rewrite length_fmap.
    + eapply in_use_typed; [apply Hx|]; by apply kids_pids.
    + rewrite !Forall_app; tauto.
    + apply keys_size_sep; try done; [destruct r as [[]|]; cbn; lia|lia].
    + apply store_or_split_progress; [done|apply Hx|done..].
Qed.


Lemma grow_root_progress (capacity : Z) (sep : bytes) (q : Z) b (n : sdb_btree_node) :
  fits origin capacity b -> batch_ok b -> b_root_page b ∈ staged b -> rd b (b_root_page b) = Ok n ->
  key_small capacity sep -> 0 < q < 2 ^ 64 ->
  progress F (grow_root sep q b) (fun _ b' => fits origin capacity b').
Proof.
  intros Hf Hb Hst Hr Hk Hq; unfold grow_root; apply progress_get, progress_get; pose proof (ft_max _ _ _ Hf) as Hm.
  destruct (sdb_btree_find_staged b (b_root_page b)) as [m|] eqn:E; [|by apply find_staged_None in E].
  destruct (fits_read _ _ _ _ _ Hf Hr) as [Hsm Hw]; unfold sdb_btree_batch_read_node in Hr; rewrite E in Hr; rewrite Hr.
  change (progress F ((left_page ← batch_allocate; _ ← sdb_btree_stage left_page n;
    sdb_btree_stage (b_root_page b) (internal_node [left_page; q] [sep])) b) (fun _ b' => fits origin capacity b')).
  eapply progress_bind; [by apply allocate_progress|]; intros lp b1 Ea Hf1.
  apply allocate_spec in Ea as (X1 & _ & _ & Hlp & _); [|done].
  eapply progress_bind; [by apply (stage_progress origin F capacity)|]; intros [] b2 _ Hf2; destruct Hk as [Hk1 Hk2].
  destruct (internal_node_small capacity [lp; q] [sep]) as (H1 & H2 & _); try done; [lia|repeat constructor; lia..| |].
  - unfold keys_size; rewrite sumZ_cons, sumZ_nil; lia.
  - apply stage_progress; [done|done|split; [|done]].
    rewrite internal_node_size by done; unfold keys_size; rewrite sumZ_cons, sumZ_nil; lia.
Qed.

Lemma progress_sticky {A} (m : batchM (T := T) A) b (Phi : A -> sdb_btree_batch (T := T) -> Prop) :
  progress F (m b) Phi -> progress F (sticky m b) Phi.
Proof. unfold sticky; by destruct (m b) as [[a|e] b']. Qed.

Lemma height_fuel b (t : ptree) (h : nat) : batch_holds b t h -> (h < SDB_BTREE_MAX_DEPTH)%nat.
Proof.
  intros Hh; pose proof (height_bound b t h (bh_ok _ _ _ Hh) (bh_wf _ _ _ Hh) (bh_pages _ _ _ Hh)).
  unfold SDB_BTREE_MAX_DEPTH; lia.
Qed.

Lemma put_progress (capacity : Z) (k v : bytes) (t : ptree) (h : nat) b :
  batch_holds b t h -> fits origin capacity b -> b_active b = true -> b_failure b = SDB_OK ->
  bad_key k || (Z.of_nat (length v) >? UINT32_MAX) = false -> entry_small capacity (leaf_entry (k, v)) ->
  progress F (sdb_btree_batch_put k v b) (fun _ b' => fits origin capacity b').
Proof.
  intros Hh Hf Ha Hfl Hk He; unfold sdb_btree_batch_put; rewrite <- orb_assoc, Hk, Ha, Hfl.
  rewrite bool_decide_eq_true_2 by done; cbn [negb orb]; apply progress_sticky; rewrite <- (bh_root _ _ _ Hh).
  eapply progress_bind; [eapply insert_progress; try apply Hh; try done; by eapply height_fuel|].
  intros r b1 E1 (Hf1 & Hs & Hst).
  destruct (insert_spec k v h SDB_BTREE_MAX_DEPTH None None t b b1 r) as (trees & X & Hsto); try done; try apply Hh.
  pose proof (forest_shape _ _ _ _ _ _ _ _ _ _ Hsto) as Hsh; destruct r as [[sep q]|]; [|done].
  destruct Hsh as (tl & tr & ->); cbn [split_seps] in Hs; apply Forall_cons_iff in Hs as [Hs _].
  destruct Hsto as [E _ _ _ I R _ _ _ _ _ _ US _ _]; cbn [split_ids] in I; injection I as Itl Itr.
  apply Forall_cons_iff in R as [Rl _]; apply repr_root in Rl; rewrite Itl in Rl.
  assert (Hroot : b_root_page b1 = pid_of t) by (by rewrite (ex_root _ _ _ E), (bh_root _ _ _ Hh)).
  eapply grow_root_progress; rewrite ?Hroot; try done; [apply E|]; rewrite <- Itr.
  assert (Hu : txn_in_use (b_txn b1) (pid_of tr)).
  { apply US; cbn [flat_map]; rewrite !elem_of_app; right; left; apply pid_in_pids. }
  pose proof (in_use_range _ _ (bo_txn _ (ex_ok _ _ _ E)) Hu); lia.
Qed.
End Progress.
