(* ===== verification/BtreeDeleteProgress.v ===== *)
(** * Deletions succeed unless the storage fails

    The counterpart of [BtreeProgress] for [sdb_btree_batch_delete]: on a
    well-formed tree with small entries no check for corruption fires in the
    descent, in the unlinking of an emptied leaf, in the merging of internal
    nodes and in the collapse of the root.  One failure of the code's own is left
    besides those of the storage: a redistribution replaces a separator in the
    parent, and when the new one is longer the parent may overflow its page
    ([SDB_E_BUFFER_TOO_SMALL]). *)

From S2P Require Import Prelude Status Codec Keys Page BtreePage OrderedMap PagerInterface BtreeNode BtreeTree Btree BtreeBatch BtreeInsert BtreePut BtreeContext BtreeReclaim BtreeDelete BtreeFit BtreeProgress.

#[global] Instance keys_size_perm : Proper ((≡ₚ) ==> eq) keys_size.
Proof.
  unfold keys_size; induction 1 as [|k ks ks' _ IH|k k' ks|ks1 ks2 ks3 _ IH1 _ IH2]; rewrite ?sumZ_cons in *; lia.
Qed.

Section DeleteProgress.
Context {P T : Type} `{!PagerOps P T} `{!PagerLaws P T}.

Implicit Types b : sdb_btree_batch (T := T).

Abbreviation rd := sdb_btree_batch_read_node.

Context (origin : P) (F : sdb_status -> Prop) (Hrefuse : forall e, storage_failed origin e -> F e).
Context (Hfull : F SDB_E_BUFFER_TOO_SMALL).
Context (capacity : Z).

Abbreviation fitting := (fun (_ : unit) b' => fits origin capacity b').

(** ** One page *)

Lemma unstage_sub (items : list sdb_btree_mutation) (p : Z) (m : sdb_btree_mutation) :
  m ∈ unstage_item items p -> m ∈ items.
Proof.
  induction items as [|i items IH]; cbn [unstage_item]; [done|].
  destruct (_ =? _); rewrite ?elem_of_cons; [by right|]; intros [->|H]; [by left|right; by apply IH].
Qed.

Lemma unstage_fits b (p : Z) : fits origin capacity b -> fits origin capacity (set_items b (unstage_item (b_items b) p)).
Proof.
  intros [Ho Hc Hm Hp Hi]; split; try done; cbn [set_items b_items]; intros m n Hin; by eapply Hi, unstage_sub.
Qed.

Lemma free_progress b (U : list Z) (p : Z) :
  pages_inv b (p :: U) -> fits origin capacity b ->
  progress F (batch_free p (set_items b (unstage_item (b_items b) p))) fitting.
Proof.
  intros [[Ht _ _ _] _ Hu _ _] Hf; apply Forall_cons_iff in Hu as [Hu _]; unfold batch_free.
  pose proof (free_pager (b_txn b) p) as He; cbn [set_items b_txn].
  destruct (txn_free (b_txn b) p) as [[[]|e] t] eqn:E; cbn [snd] in He; [|by eapply Hrefuse, free_failed; [..|exact E]; try done; apply (ft_origin _ _ _ Hf)].
  apply (set_txn_fits _ _ (set_items b _)); [done|by apply unstage_fits].
Qed.

Lemma release_progress {B} b (U : list Z) (p : Z) (k : batchM (T := T) B) (Psi : B -> sdb_btree_batch (T := T) -> Prop) :
  pages_inv b (p :: U) -> fits origin capacity b ->
  (forall b1 b', sdb_btree_unstage p b = (Ok tt, b1) -> batch_free p b1 = (Ok tt, b') -> fits origin capacity b' ->
     progress F (k b') Psi) ->
  progress F ((_ ← sdb_btree_unstage p; _ ← batch_free p; k) b) Psi.
Proof.
  intros Hp Hf Hk; eapply (progress_bind _ _ _ _ (fun _ b1 => b1 = set_items b (unstage_item (b_items b) p))); [done|].
  intros [] b1 E1 ->; eapply progress_bind; [by eapply free_progress|]; intros [] b2 E2 Hf2; by eapply Hk.
Qed.

Lemma release_last b (U : list Z) (p : Z) :
  pages_inv b (p :: U) -> fits origin capacity b -> progress F ((_ ← sdb_btree_unstage p; batch_free p) b) fitting.
Proof.
  intros Hp Hf; eapply (progress_bind _ _ _ _ (fun _ b1 => b1 = set_items b (unstage_item (b_items b) p))); [done|].
  intros [] b1 E1 ->; by eapply free_progress.
Qed.

(** Staging a node that may not fit. *)
Lemma stage_or_full b (p : Z) (n : sdb_btree_node) :
  fits origin capacity b -> node_wf n -> Forall (entry_small capacity) (n_entries n) ->
  2 * (node_size n - 20) <= 3 * (capacity - 20) -> progress F (sdb_btree_stage p n b) fitting.
Proof.
  intros Hf Hw Hs Hmost; pose proof (ft_max _ _ _ Hf) as Hm.
  destruct (Z.le_gt_cases (node_size n) capacity) as [Hfit|Hover]; [by apply stage_progress|].
  unfold sdb_btree_stage; rewrite node_encoded_size_ok, node_bytes_size; cbn [mbind result_bind].
  - rewrite (ft_capacity _ _ _ Hf); zcmp; cbn [check progress]; exact Hfull.
  - done.
  - rewrite node_bytes_size; assert (SIZE_MAX > 2 * 65536) by (by vm_compute); lia.
Qed.


(** ** Sizes around the merge *)

Lemma keys_size_cons (k : bytes) (ks : list bytes) : keys_size (k :: ks) = 12 + Z.of_nat (length k) + keys_size ks.
Proof. done. Qed.

Lemma neighbour_keys (f : frame) (left : bool) (sib : ptree) (sep : bytes) (f' : frame) :
  neighbour f left sib sep f' -> fr_ks1 f ++ fr_ks2 f ≡ₚ sep :: fr_ks1 f' ++ fr_ks2 f'.
Proof.
  intros [p ks1 ks2 cs1 cs2 sib' sep'|p ks2 cs2 sib' sep']; cbn [fr_ks1 fr_ks2]; [|done].
  rewrite <- app_assoc; cbn [app]; by rewrite <- Permutation_middle.
Qed.

(** The node at the top of a frame. *)
Lemma frame_small b (f : frame) (p : Z) (h : nat) (lo hi : option bytes) :
  fits origin capacity b -> frame_ok h lo hi f -> rd b (fr_pid f) = Ok (frame_node f p) ->
  Forall (key_small capacity) (fr_ks1 f ++ fr_ks2 f) /\ keys_size (fr_ks1 f ++ fr_ks2 f) <= capacity - 20.
Proof.
  intros Hf Hok Hr; destruct (fits_read _ _ _ _ _ Hf Hr) as [Hs _]; apply small_keys in Hs; [done|].
  by eapply frame_node_len.
Qed.

(** Writing a node of the tree whose separators are small. *)
Lemma node_progress b (p q : Z) (ks : list bytes) (cs : list ptree) :
  fits origin capacity b -> Forall (fun x => 0 < x < 2 ^ 64) (pid_of <$> cs) -> length cs = S (length ks) -> StronglySorted key_lt ks -> Forall (key_small capacity) ks ->
  keys_size ks <= capacity - 20 -> progress F (sdb_btree_stage q (node_of (PNode p ks cs)) b) fitting.
Proof.
  intros Hf Hids Hl Hs Hk Hsz; pose proof (ft_max _ _ _ Hf) as Hm; cbn [node_of].
  destruct (internal_node_small capacity (pid_of <$> cs) ks) as (H1 & H2 & _); try done; try lia.
  - by rewrite length_fmap.
  - apply stage_progress; [done|done|split; [|done]]; rewrite internal_node_size; [lia|by rewrite length_fmap].
Qed.


(** ** Merging with the neighbour *)

Section Merge.
Context b (fs : list frame) (f : frame) (p : Z) (s : ptree) (hs : nat) (lo hi : option bytes) (H : nat).
Context (left : bool) (q : Z) (ks : list bytes) (cs : list ptree) (sep : bytes) (f' : frame).
Context (Hdf : deficit b (fs ++ [f]) p s hs lo hi H) (Hnb : neighbour f left (PNode q ks cs) sep f').
Context (Hft : fits origin capacity b).

Abbreviation comb r := (combined_tree r left (PNode q ks cs) sep s).
Abbreviation mkeys := (merged_keys left ks sep).
Abbreviation mkids := (merged_kids s left cs).

Lemma parent_small :
  Forall (key_small capacity) (sep :: fr_ks1 f' ++ fr_ks2 f')
  /\ keys_size (sep :: fr_ks1 f' ++ fr_ks2 f') <= capacity - 20.
Proof.
  destruct (merge_read _ _ _ _ _ _ _ _ _ _ _ _ _ _ _ Hdf Hnb) as (_ & Hr & _).
  destruct (merge_bounds _ _ _ _ _ _ _ _ _ _ _ _ _ _ _ Hdf Hnb) as (lo1 & hi1 & _ & [_ Hfok] & _).
  destruct (frame_small _ _ _ _ _ _ Hft Hfok Hr) as [Hk Hsz]; pose proof (neighbour_keys _ _ _ _ _ Hnb) as HP.
  split; [by eapply Permutation_Forall|by rewrite <- (keys_size_perm _ _ HP)].
Qed.

Lemma sibling_sorted :
  length cs = S (length ks) /\ StronglySorted key_lt mkeys.
Proof.
  destruct (merge_bounds _ _ _ _ _ _ _ _ _ _ _ _ _ _ _ Hdf Hnb) as (lo1 & hi1 & _ & _ & [_ Hsib _ _ _ _] & _).
  unfold merged_keys; destruct left; destruct Hsib as (_ & Hs & Hin & Hk); apply kids_length in Hk; (split; [done|]).
  - apply StronglySorted_app_iff; split_and!; [done|by repeat constructor|].
    eapply Forall_impl; [|exact Hin]; intros x [_ Hx]; by repeat constructor.
  - constructor; [done|]; eapply Forall_impl; [|exact Hin]; by intros x [Hx _].
Qed.

Lemma merged_length : length mkids = S (length mkeys).
Proof.
  destruct sibling_sorted as [Hl _]; unfold merged_keys, merged_kids; destruct left; rewrite ?length_app; cbn [length]; lia.
Qed.

Lemma merged_small :
  Forall (key_small capacity) mkeys /\ 2 * keys_size mkeys <= 3 * (capacity - 20).
Proof.
  destruct parent_small as [Hps Hpz]; apply Forall_cons_iff in Hps as [Hsep _]; pose proof (ft_max _ _ _ Hft) as Hm.
  destruct (merge_read _ _ _ _ _ _ _ _ _ _ _ _ _ _ _ Hdf Hnb) as (_ & _ & Hr & _).
  destruct (fits_read _ _ _ _ _ Hft Hr) as [Hs _]; destruct sibling_sorted as [Hl _].
  apply small_keys in Hs as [Hk Hsz]; [|by rewrite length_fmap].
  assert (HP : mkeys ≡ₚ sep :: ks) by (unfold merged_keys; destruct left; [apply Permutation_app_comm|done]).
  split; [eapply Permutation_Forall; [symmetry; exact HP|by constructor]|].
  rewrite (keys_size_perm _ _ HP), keys_size_cons; destruct Hsep; lia.
Qed.

Lemma merged_typed : Forall (fun x => 0 < x < 2 ^ 64) (pid_of <$> mkids).
Proof.
  apply (pages_typed _ _ _ (merge_pages _ _ _ _ _ _ _ _ _ _ _ _ _ _ _ Hdf Hnb)).
  intros x Hx; apply pids_of_kids in Hx; rewrite merged_pids in Hx; [|exact Hnb].
  rewrite !elem_of_app, elem_of_cons, elem_of_app, elem_of_cons; apply elem_of_app in Hx; tauto.
Qed.

Lemma merged_node (r : Z) :
  node_wf (node_of (comb r)) /\ Forall (entry_small capacity) (n_entries (node_of (comb r)))
  /\ 2 * (node_size (node_of (comb r)) - 20) <= 3 * (capacity - 20).
Proof.
  destruct merged_small as [Hk Hsz]; pose proof (ft_max _ _ _ Hft) as Hm; rewrite (merged_tree _ _ _ _ _ _ _ _ Hnb); cbn [node_of].
  apply internal_node_small; try done; try lia.
  - rewrite length_fmap; apply merged_length.
  - apply merged_typed.
  - apply sibling_sorted.
Qed.

(** The parent with the separator replaced. *)
Lemma replaced_small (k : bytes) (lo1 hi1 : option bytes) :
  frame_ok (S hs) lo1 hi1 f' -> key_small capacity k -> inside (last_or lo1 (fr_ks1 f')) (head_or hi1 (fr_ks2 f')) k ->
  let n := internal_node ((pid_of <$> fr_cs1 f') ++ (if left then [q; p] else [p; q]) ++ (pid_of <$> fr_cs2 f'))
             (fr_ks1 f' ++ k :: fr_ks2 f') in
  node_wf n /\ Forall (entry_small capacity) (n_entries n) /\ 2 * (node_size n - 20) <= 3 * (capacity - 20).
Proof.
  intros Hok Hk Hin; pose proof (ft_max _ _ _ Hft) as Hm; destruct parent_small as [Hps Hpz].
  apply Forall_cons_iff in Hps as [_ Hps]; rewrite keys_size_cons in Hpz; apply Forall_app in Hps as [Hps1 Hps2].
  change (fr_ks1 f' ++ k :: fr_ks2 f') with (fr_ks1 f' ++ [k] ++ fr_ks2 f').
  apply internal_node_small; try lia.
  - pose proof (frame_node_len _ _ _ _ 0 Hok) as Hfl; rewrite !length_app in *; destruct left; cbn [length] in *; lia.
  - apply (pages_typed _ _ _ (merge_pages _ _ _ _ _ _ _ _ _ _ _ _ _ _ _ Hdf Hnb)); unfold frame_pids.
    intros x Hx; rewrite !elem_of_app in Hx; rewrite !elem_of_app, !elem_of_cons, !elem_of_app, elem_of_cons.
    destruct Hx as [Hx|[Hx|Hx]]; [apply pids_of_kids in Hx; tauto| |apply pids_of_kids in Hx; tauto].
    destruct left; rewrite !elem_of_cons, elem_of_nil in Hx; tauto.
  - apply (sorted_insert_seps lo1 hi1); [done|apply Hok|by constructor].
  - rewrite !Forall_app; split_and!; [done|by constructor|done].
  - apply keys_size_sep; [done|lia|by constructor|lia].
Qed.

Lemma redistribute_progress :
  capacity < node_size (node_of (comb q)) ->
  progress F (redistribute (fr_pid f) (if left then q else p) (if left then p else q) (frame_node f p)
                (length (fr_cs1 f) - 1) (node_of (comb q)) b) fitting.
Proof.
  intros Hover; destruct merged_node with (r := q) as (Hw & Hsm & Hmost); pose proof (ft_max _ _ _ Hft) as Hm.
  destruct merged_small as [Hks _]; pose proof merged_length as Hlen; destruct sibling_sorted as [_ Hso].
  destruct (merge_bounds _ _ _ _ _ _ _ _ _ _ _ _ _ _ _ Hdf Hnb) as (lo1 & hi1 & _ & [_ Hfok] & [Hok _ _ _ _ _] & Hcw).
  specialize (Hcw q (nw_sorted _ Hw)); rewrite (merged_tree _ _ _ _ _ _ _ _ Hnb) in Hover, Hw, Hsm, Hmost, Hcw |- *; cbn [node_of] in *.
  pose proof (merge_pages _ _ _ _ _ _ _ _ _ _ _ _ _ _ _ Hdf Hnb) as Hp.
  destruct (split_internal_feasible capacity (n_entries (internal_node (pid_of <$> mkids) mkeys))) as (_ & m & E & Hm1 & Hm2 & Hl1 & Hl2);
    [lia|done|unfold node_size in Hover; cbn [internal_node n_kind entry_size n_entries] in *; lia
    |unfold node_size in Hmost; cbn [internal_node n_kind entry_size n_entries] in *; lia|].
  assert (Hl' : length (pid_of <$> mkids) = S (length mkeys)) by (by rewrite length_fmap).
  pose proof (internal_node_count _ _ Hl') as Hcnt; unfold n_count in Hcnt; rewrite Hcnt in Hm2.
  pose proof (internal_node_keys _ _ Hl') as Ekeys; destruct (lookup_lt_is_Some_2 mkeys m ltac:(lia)) as [k Hk].
  rewrite <- (ft_capacity _ _ _ Hft) in E; rewrite (redistribute_eq _ _ _ _ _ _ _ _ _ _ Hl' Hk E); cbv zeta.
  rewrite <- fmap_take, <- fmap_drop.
  change (internal_node (pid_of <$> take (S m) mkids) (take m mkeys)) with (node_of (left_half p s left q ks cs sep m)).
  change (internal_node (pid_of <$> drop (S m) mkids) (drop (S m) mkeys)) with (node_of (right_half p s left q ks cs sep m)).
  rewrite (neighbour_replace _ _ _ _ _ _ _ _ p k Hnb Hfok).
  assert (Hsz1 : keys_size (take m mkeys) <= capacity - 20 /\ keys_size (drop (S m) mkeys) <= capacity - 20).
  { unfold keys_size, internal_left, internal_right in *; rewrite <- Ekeys, <- fmap_take, <- fmap_drop, !sumZ_fmap.
    unfold internal_entry_size in Hl1, Hl2; lia. }
  destruct Hsz1 as [Hz1 Hz2]; pose proof merged_typed as Hty; rewrite <- (take_drop (S m) mkids), fmap_app, Forall_app in Hty.
  assert (Hso' := Hso); rewrite <- (take_drop_middle mkeys m k Hk) in Hso'.
  apply StronglySorted_app_iff in Hso' as (Hso1 & Hso2 & _); apply StronglySorted_inv in Hso2 as [Hso2 _].
  eapply progress_bind; [apply node_progress; try done; [apply Hty|rewrite !length_take; lia|by apply Forall_take]|].
  intros [] b1 _ Hf1.
  eapply progress_bind; [apply node_progress; try done; [apply Hty|rewrite !length_drop; lia|by apply Forall_drop]|].
  intros [] b2 _ Hf2; destruct Hcw as (_ & _ & Hin & _).
  destruct (replaced_small k lo1 hi1) as (H1 & H2 & H3); [done|by eapply Forall_lookup_1..|by apply stage_or_full].
Qed.
End Merge.


(** ** The climb *)

Definition climb_goes (fs : list frame) (climb : Z -> Z -> batchM (T := T) unit) : Prop :=
  forall b (p : Z) (s : ptree) (hs : nat) (lo hi : option bytes) (H : nat),
  deficit b fs p s hs lo hi H -> fits origin capacity b -> fs <> [] -> progress F (climb p (pid_of s) b) fitting.

(** The parent after the merge, while it still has separators. *)
Lemma parent_progress b (f' : frame) (q : Z) (ks : list bytes) (cs : list ptree) (h : nat) (lo hi : option bytes) (U : list Z) :
  fits origin capacity b -> pages_inv b U -> (forall x, x ∈ frame_pids f' ++ [q] -> x ∈ U) -> frame_ok h lo hi f' ->
  Forall (key_small capacity) (fr_ks1 f' ++ fr_ks2 f') -> keys_size (fr_ks1 f' ++ fr_ks2 f') <= capacity - 20 ->
  progress F (sdb_btree_stage (fr_pid f') (frame_node f' q) b) fitting.
Proof.
  intros Hf Hp Hsub Hok Hk Hsz.
  assert (En : frame_node f' q = node_of (PNode 0 (fr_ks1 f' ++ fr_ks2 f') (fr_cs1 f' ++ PNode q ks cs :: fr_cs2 f')))
    by (unfold frame_node; cbn [node_of]; by rewrite fmap_app, fmap_cons).
  pose proof (frame_node_len _ _ _ _ q Hok) as Hl; rewrite length_app, length_cons, !length_fmap in Hl.
  rewrite En; apply node_progress; try done.
  - apply (pages_typed _ _ _ Hp); intros x Hx; apply Hsub; rewrite fmap_app, fmap_cons in Hx; unfold frame_pids.
    rewrite elem_of_app, elem_of_cons in Hx; rewrite elem_of_app, elem_of_cons, elem_of_app, list_elem_of_singleton.
    destruct Hx as [Hx|[->|Hx]]; [apply pids_of_kids in Hx; tauto|tauto|apply pids_of_kids in Hx; tauto].
  - by rewrite length_app, length_cons.
  - apply Hok.
Qed.

Lemma reclaim_step_progress (climb : Z -> Z -> batchM (T := T) unit) b (fs : list frame) (f : frame) (p : Z) (s : ptree)
    (hs : nat) (lo hi : option bytes) (H : nat) (left : bool) (q : Z) (ks : list bytes) (cs : list ptree) (sep : bytes)
    (f' : frame) (lo1 hi1 : option bytes) (combined : sdb_btree_node) :
  deficit b (fs ++ [f]) p s hs lo hi H -> neighbour f left (PNode q ks cs) sep f' ->
  frame_ok (S hs) lo1 hi1 f' ->
  (forall r, combined = node_of (combined_tree r left (PNode q ks cs) sep s)) ->
  n_count (frame_node f p) = S (length (fr_ks1 f' ++ fr_ks2 f')) ->
  sdb_btree_remove_child (frame_node f p) (length (fr_cs1 f)) = frame_node f' q ->
  climb_goes fs climb -> fits origin capacity b ->
  progress F (merge_or_refill climb p (fr_pid f) (length (fr_cs1 f)) (frame_node f p) left q (length (fr_cs1 f) - 1)
    combined b) fitting.
Proof.
  intros Hdf Hnb Hok Hcomb Ecnt Erem Hclimb Hft; pose proof (ft_max _ _ _ Hft) as Hm.
  destruct (merged_node _ _ _ _ _ _ _ _ _ _ _ _ _ _ _ Hdf Hnb Hft q) as (Hw & Hsm & Hmost); rewrite <- Hcomb in Hw, Hsm, Hmost.
  unfold merge_or_refill; eapply (encoded_size_progress F capacity); [done|lia|lia|].
  apply progress_get, progress_get; rewrite (ft_capacity _ _ _ Hft); destruct (Z.leb_spec (node_size combined) capacity) as [Hfit|Hover].
  2: { rewrite (Hcomb q); eapply redistribute_progress; try done; by rewrite <- Hcomb. }
  rewrite Erem, Ecnt; cbv zeta; pose proof (merge_pages _ _ _ _ _ _ _ _ _ _ _ _ _ _ _ Hdf Hnb) as Hp.
  pose proof (neighbour_pid _ _ _ _ _ Hnb) as Epid.
  assert (Hfin : forall x, x ∈ frame_pids f' ++ [q] -> x ∈ ctx_pids fs ++ frame_pids f' ++ q :: flat_map pids cs ++ pids s).
  { intros x; rewrite !elem_of_app, !elem_of_cons, elem_of_nil; tauto. }
  set (root_collapse := (_ =? _) && _).
  eapply progress_bind; [apply stage_progress; [done|done|by split]|]; intros [] b1 E1 Hf1; pose proof E1 as E1'.
  apply (stage_pages _ _ _ _ _ Hp) in E1' as (Hp1 & _ & _ & Ee1 & _); [| |by apply node_wf_typed].
  2: { destruct root_collapse eqn:Ec; [|rewrite !elem_of_app, elem_of_cons; tauto].
       apply andb_true_iff in Ec as [Ec _]; apply Z.eqb_eq in Ec; rewrite <- Ec, <- Epid.
       unfold frame_pids; rewrite elem_of_app, elem_of_app, elem_of_cons; tauto. }
  rewrite perm_extract in Hp1; eapply release_progress; [done|done|]; intros b2 b3 E2 E3 Hf3.
  destruct (release_pages _ _ _ _ _ Hp1 E2 E3) as (Hp3 & _ & _).
  destruct root_collapse eqn:Ec.
  - eapply (release_last _ (ctx_pids fs ++ frame_pids f' ++ flat_map pids cs ++ pids s)); [|done].
    eapply pages_inv_proper; [|exact Hp3]; rewrite (app_assoc _ _ (_ :: _)), <- Permutation_middle, <- app_assoc; done.
  - assert (Hcnt : n_count (frame_node f' q) = length (fr_ks1 f' ++ fr_ks2 f'))
      by (apply internal_node_count; by eapply frame_node_len).
    rewrite Hcnt; destruct (parent_small _ _ _ _ _ _ _ _ _ _ _ _ _ _ _ Hdf Hnb Hft) as [Hps Hpz].
    apply Forall_cons_iff in Hps as [_ Hps]; rewrite keys_size_cons in Hpz.
    destruct (Nat.ltb_spec 0 (length (fr_ks1 f' ++ fr_ks2 f'))) as [Hpos|Hzero].
    { rewrite <- Epid; eapply parent_progress; try done; lia. }
    assert (Hne : fr_ks1 f' ++ fr_ks2 f' = []) by (apply length_zero_iff_nil; lia).
    rewrite (Hcomb q) in E1, Hw.
    destruct (merge_opened _ _ _ _ _ _ _ _ _ _ _ _ _ _ _ Hdf Hnb _ _ _ (nw_sorted _ Hw) E1 E2 E3) as (lo2 & hi2 & Hop & Ee).
    destruct (opened_deficit _ _ _ _ _ _ _ _ Hop Hne) as (Hdf' & E5 & E6).
    unfold frame_node; rewrite E5; cbn [fmap list_fmap app internal_node n_first_child hd].
    rewrite <- Epid, <- (combined_pid q left q ks cs sep s); eapply Hclimb; [exact Hdf'|done|].
    intros ->; cbn [app] in *; pose proof (df_root _ _ _ _ _ _ _ _ Hdf) as Hro; cbn in Hro.
    unfold root_collapse in Ec; rewrite Hro, Z.eqb_refl, Hne in Ec; done.
Qed.


(** The pages the code compares are distinct and not the null page. *)
Lemma merge_distinct b (fs : list frame) (f : frame) (p : Z) (s : ptree) (hs : nat) (lo hi : option bytes) (H : nat)
    (left : bool) (q : Z) (ks : list bytes) (cs : list ptree) (sep : bytes) (f' : frame) :
  deficit b (fs ++ [f]) p s hs lo hi H -> neighbour f left (PNode q ks cs) sep f' ->
  (p =? 0) || (pid_of s =? 0) = false /\ (fr_pid f =? 0) || (fr_pid f =? p) = false
  /\ (q =? p) || (q =? 0) || (q =? fr_pid f) || (pid_of s =? fr_pid f) || (pid_of s =? q) = false.
Proof.
  intros Hdf Hnb; pose proof (merge_pages _ _ _ _ _ _ _ _ _ _ _ _ _ _ _ Hdf Hnb) as Hp; rewrite pids_kids in Hp.
  pose proof (pi_nodup _ _ Hp) as Hnd; rewrite <- (neighbour_pid _ _ _ _ _ Hnb).
  assert (HF : Forall (fun x => 0 < x < 2 ^ 64) [fr_pid f'; q; p; pid_of s]).
  { apply (pages_typed _ _ _ Hp); unfold frame_pids; intros x; rewrite !elem_of_app, !elem_of_cons, !elem_of_app, !elem_of_cons, elem_of_nil; tauto. }
  repeat match goal with H : Forall _ (_ :: _) |- _ => apply Forall_cons_iff in H as [? H] end; clear HF.
  assert (Hd : NoDup [fr_pid f'; q; p; pid_of s]).
  { unfold frame_pids in Hnd; revert Hnd; generalize (ctx_pids fs), (flat_map pids (fr_cs1 f') ++ flat_map pids (fr_cs2 f')), (flat_map pids cs), (kid_pids s).
    intros l1 l2 l3 l4 Hnd; eapply sublist_NoDup; [exact Hnd|].
    apply sublist_inserts_l; cbn [app]; apply sublist_skip, sublist_inserts_l, sublist_skip, sublist_inserts_l.
    apply sublist_skip, sublist_skip, sublist_nil_l. }
  repeat match goal with H : NoDup (_ :: _) |- _ => apply list.NoDup_cons in H as [? H] end.
  rewrite !not_elem_of_cons in *; rewrite !orb_false_iff, !Z.eqb_neq; lia.
Qed.

Lemma reclaim_up_progress (path : list path_entry) (fs : list frame) :
  (forall i f, fs !! i = Some f -> path !!! i = frame_path f) ->
  climb_goes fs (sdb_btree_reclaim_internal_up path (length fs)).
Proof.
  induction fs as [|f fs IH] using rev_ind; intros Hpath b p s hs lo hi H Hdf Hft Hne; [done|].
  rewrite length_app, Nat.add_1_r; cbn [sdb_btree_reclaim_internal_up].
  pose proof (Hpath (length fs) f ltac:(by apply list_lookup_middle)) as Hpe; unfold path_entry in *.
  rewrite Hpe; cbn [frame_path].
  pose proof (df_ctx _ _ _ _ _ _ _ _ Hdf) as Hc; apply ctx_wf_snoc in Hc as (lo1 & hi1 & _ & Hfw & _).
  destruct (neighbour_exists _ _ _ _ Hfw) as (left & sib & sep & f' & Hnb); pose proof Hfw as [_ Hfok].
  pose proof (neighbour_between _ _ _ _ _ _ _ _ Hnb Hfw) as [Hok Hsib _ _ _ _].
  assert (exists q ks cs, sib = PNode q ks cs) as (q & ks & cs & ->) by (destruct left; by eapply wf_node_inv).
  destruct (merge_distinct _ _ _ _ _ _ _ _ _ _ _ _ _ _ _ Hdf Hnb) as (E1 & E2 & E3).
  destruct (merge_read _ _ _ _ _ _ _ _ _ _ _ _ _ _ _ Hdf Hnb) as (_ & Hpar & Hsibr & _).
  rewrite E1, E2; eapply progress_read; [exact Hpar|].
  destruct (neighbour_node _ _ _ _ _ _ _ _ p Hnb Hfok) as (Epid & El & Ecnt & Hslot & Ech & Ekey & Erem).
  rewrite El, Ech, Ekey; cbn [pid_of]; rewrite bool_decide_eq_true_2 by done; cbn [negb orb].
  rewrite (proj2 (Nat.ltb_ge _ _) Hslot), Ecnt; cbn [orb Nat.eqb]; rewrite E3.
  eapply progress_read; [exact Hsibr|]; rewrite bool_decide_eq_true_2 by done; cbn [negb].
  assert (Hlen : length cs = S (length ks)) by (destruct left, Hsib as (_ & _ & _ & Hk); by apply kids_length in Hk).
  assert (Hcomb : forall r, combine_nodes left (internal_node (pid_of <$> cs) ks) sep (pid_of s)
            = node_of (combined_tree r left (PNode q ks cs) sep s)) by (intros r; by apply (combined_node r left q)).
  eapply (reclaim_step_progress _ _ _ _ _ _ _ _ _ _ _ _ _ _ _ _ _ _ _ Hdf Hnb Hok Hcomb Ecnt Erem); [|done].
  apply IH; intros i g Hi; apply Hpath; by apply lookup_app_l_Some.
Qed.


(** ** The leaf chain *)

(** A leaf with some of its entries and any link fits where it was. *)
Lemma leaf_progress b b0 (p q s s' : Z) (l l' : list kv) :
  fits origin capacity b -> fits origin capacity b0 -> rd b0 p = Ok (leaf_node s l) -> 0 <= s' < 2 ^ 64 -> key_sorted l' ->
  l' `sublist_of` l -> progress F (sdb_btree_stage q (leaf_node s' l') b) fitting.
Proof.
  intros Hf Hf0 Hr Hs Hso Hsub; destruct (fits_read _ _ _ _ _ Hf0 Hr) as [[Hsz Hsm] [Hc HF _ _ _]].
  cbn [leaf_node n_kind n_entries] in *; unfold node_size in Hsz; cbn [leaf_node n_kind n_entries entry_size] in Hsz.
  assert (Hsz' : sumZ leaf_entry_size (leaf_entry <$> l') <= sumZ leaf_entry_size (leaf_entry <$> l)).
  { rewrite !sumZ_fmap; clear -Hsub; induction Hsub as [|x l1 l2 _ IH|x l1 l2 _ IH]; rewrite ?sumZ_cons; [done|lia|].
    assert (0 <= leaf_entry_size (leaf_entry x)) by (unfold leaf_entry_size; lia); lia. }
  assert (Hall : forall Q : kv -> Prop, Forall Q l -> Forall Q l').
  { intros Q HQ; clear -Hsub HQ; induction Hsub as [|x l1 l2 _ IH|x l1 l2 _ IH]; [done|..];
      apply Forall_cons_iff in HQ as [H1 H2]; [constructor|]; auto. }
  apply stage_progress; [done| |split; [unfold node_size; cbn [leaf_node n_kind n_entries entry_size]; lia|]].
  - split; cbn [leaf_node n_kind n_entries]; [|apply List.Forall_map, Hall; exact (proj1 (Forall_fmap _ _ _) HF)| |done|done].
    + apply sublist_length in Hsub; rewrite length_fmap in *; lia.
    + unfold keys_sorted; by rewrite leaf_entry_keys.
  - cbn [leaf_node n_entries]; apply List.Forall_map, Hall; exact (proj1 (Forall_fmap _ _ _) Hsm).
Qed.

Lemma relink_progress (s : Z) (h : nat) :
  0 <= s < 2 ^ 64 ->
  forall fuel b (t : ptree) (lo hi : option bytes),
  wf_tree h lo hi t -> repr (rd b) t -> fits origin capacity b -> (h <= fuel)%nat ->
  progress F (relink_predecessor fuel (pid_of t) s b) fitting.
Proof.
  intros Hs; induction h as [|h IH]; intros fuel b t lo hi Hwf Hr Hf Hfu; destruct t as [p s0 l|p ks cs]; try done.
  - apply repr_root in Hr; cbn [pid_of node_of] in Hr; destruct Hwf as [Hso _].
    assert (H : progress F (sdb_btree_stage p (leaf_node s l) b) fitting) by (by eapply leaf_progress).
    destruct fuel; cbn [relink_predecessor pid_of]; (eapply progress_read; [exact Hr|exact H]).
  - destruct fuel as [|fuel]; [lia|]; cbn [relink_predecessor pid_of]; apply repr_root in Hr as Hn; cbn [pid_of node_of] in Hn.
    eapply progress_read; [exact Hn|]; change (n_kind (internal_node _ _)) with SDB_BTREE_INTERNAL; cbn match.
    destruct (last_child _ _ _ _ _ _ Hwf) as (f & c & E & _ & _ & Hwc & Hch); cbn [node_of] in Hch; rewrite Hch.
    rewrite E in Hr; change (plug1 f c) with (plug [f] c) in Hr; apply plug_repr in Hr as [_ Hr].
    eapply IH; [exact Hwc|done|done|lia].
Qed.

Lemma unlink_progress (path : list path_entry) (s : Z) (H : nat) (fs : list frame) :
  0 <= s < 2 ^ 64 -> (H <= SDB_BTREE_MAX_DEPTH)%nat -> forall b (hole : Z) (h : nat) (lo hi : option bytes),
  (forall i f, fs !! i = Some f -> path !!! i = frame_path f) ->
  ctx_wf H None None fs h lo hi -> ctx_repr (rd b) fs hole -> fits origin capacity b ->
  progress F (unlink_leaf path (length fs) s b) fitting.
Proof.
  intros Hs HH; induction fs as [|f fs IH] using rev_ind; intros b hole h lo hi Hpath Hc Hr Hf; [done|].
  rewrite length_app, Nat.add_1_r; cbn [unlink_leaf].
  pose proof (Hpath (length fs) f ltac:(by apply list_lookup_middle)) as Hpe; unfold path_entry in *.
  rewrite Hpe; cbn [frame_path]; apply ctx_wf_snoc in Hc as (lo1 & hi1 & Hc & Hfw & _ & _).
  apply ctx_repr_snoc in Hr as (Hr & Hn & H1 & _); destruct (length (fr_cs1 f)) as [|i] eqn:Ei.
  - eapply IH; try done; intros j g Hj; apply Hpath; by apply lookup_app_l_Some.
  - eapply progress_read; [exact Hn|].
    destruct (frame_left_view _ _ _ _ _ hole Hfw Ei) as (ks1 & k & cs1 & c & _ & Ec & _ & Hwc & Hch); rewrite Hch.
    rewrite Ec in H1; apply Forall_app in H1 as [_ H1]; apply Forall_cons_iff in H1 as [H1 _].
    eapply relink_progress; [done|exact Hwc|done|done|]; apply ctx_wf_height in Hc; lia.
Qed.


(** ** Removing an emptied leaf *)

Lemma collapse_progress b (p q s : Z) (l : list kv) (lo hi : option bytes) (H : nat) :
  deficit b [] p (PLeaf q s l) 0 lo hi H -> fits origin capacity b -> progress F (collapse_root q b) fitting.
Proof.
  intros [_ [Hso _] _ Hr Hp _] Hf; apply repr_root in Hr; cbn [pid_of node_of] in Hr.
  cbn [app ctx_pids flat_map] in Hp; change (pids (PLeaf q s l)) with [q] in Hp; rewrite (Permutation_swap q p) in Hp.
  unfold collapse_root; apply progress_get; eapply progress_read; [exact Hr|]; cbv zeta.
  change (n_kind (leaf_node s l)) with SDB_BTREE_LEAF; cbn match.
  eapply release_progress; [done|done|]; intros b1 b2 _ _ Hf2.
  change (set_right_sibling (leaf_node s l) 0) with (leaf_node 0 l).
  eapply leaf_progress; [exact Hf2|exact Hf|exact Hr|lia|done|done].
Qed.

Lemma parent_after_progress (path : list path_entry) b (fs : list frame) (f : frame) (t : ptree)
    (lo hi : option bytes) (H : nat) :
  (forall i g, fs !! i = Some g -> path !!! i = frame_path g) ->
  opened b fs f t 0 lo hi H -> fits origin capacity b ->
  Forall (key_small capacity) (fr_ks1 f ++ fr_ks2 f) -> keys_size (fr_ks1 f ++ fr_ks2 f) <= capacity - 20 ->
  progress F ((if negb (n_count (frame_node f (pid_of t)) =? 0)%nat
   then sdb_btree_stage (fr_pid f) (frame_node f (pid_of t))
   else if fr_pid f =? b_root_page b then collapse_root (n_first_child (frame_node f (pid_of t)))
   else if (2 <=? S (length fs))%nat then
     sdb_btree_reclaim_internal_up path (length fs) (fr_pid f) (n_first_child (frame_node f (pid_of t)))
   else batch_fail SDB_E_CORRUPT) b) fitting.
Proof.
  intros Hpath Hop Hf Hk Hsz; pose proof (op_frame _ _ _ _ _ _ _ _ Hop) as Hfok.
  assert (Hcnt : n_count (frame_node f (pid_of t)) = length (fr_ks1 f ++ fr_ks2 f))
    by (apply internal_node_count; by eapply frame_node_len).
  rewrite Hcnt; destruct (Nat.eqb_spec (length (fr_ks1 f ++ fr_ks2 f)) 0) as [E0|E0]; cbn [negb].
  2: { eapply (parent_progress _ _ _ [] []); [done|apply Hop| |exact Hfok|done|done].
       intros x; rewrite !elem_of_app, list_elem_of_singleton; intros [Hx| ->]; [tauto|]; pose proof (pid_in_pids t); tauto. }
  apply length_zero_iff_nil in E0; destruct (opened_deficit _ _ _ _ _ _ _ _ Hop E0) as (Hdf & E3 & E4).
  assert (Efc : n_first_child (frame_node f (pid_of t)) = pid_of t) by (unfold frame_node; rewrite E3; done).
  rewrite Efc; destruct (Z.eqb_spec (fr_pid f) (b_root_page b)) as [Er|Er].
  - pose proof (deficit_root _ _ _ _ _ _ _ _ Hdf Er) as ->; pose proof (df_wf _ _ _ _ _ _ _ _ Hdf) as Hw.
    destruct t as [q s l|]; [|done]; cbn [pid_of]; by eapply collapse_progress.
  - assert (Hne : fs <> []) by (intros ->; by apply Er; rewrite <- (df_root _ _ _ _ _ _ _ _ Hdf)).
    assert (Hl : (2 <=? S (length fs))%nat = true) by (destruct fs; [done|by apply Nat.leb_le; cbn; lia]).
    rewrite Hl; eapply reclaim_up_progress; done.
Qed.

Lemma reclaim_empty_leaf_progress (path : list path_entry) b (fs : list frame) (p s : Z) (H : nat) (lo hi : option bytes) :
  fs <> [] -> (H <= SDB_BTREE_MAX_DEPTH)%nat -> (forall i g, fs !! i = Some g -> path !!! i = frame_path g) ->
  ctx_wf H None None fs 0 lo hi -> ctx_repr (rd b) fs p ->
  pages_inv b (ctx_pids fs ++ [p]) -> ctx_root fs p = b_root_page b -> 0 <= s < 2 ^ 64 -> fits origin capacity b ->
  progress F (sdb_btree_reclaim_empty_leaf p s path (length fs) b) fitting.
Proof.
  intros Hfs HH Hpath Hc Hr Hp Hro Hs Hf; destruct fs as [|f fs _] using rev_ind; [done|]; clear Hfs.
  pose proof (unlink_progress path s H _ Hs HH b p 0 lo hi Hpath Hc Hr Hf) as Hul.
  pose proof (pi_nodup _ _ Hp) as Hnd; apply list.NoDup_app in Hnd as (Hnd & _ & _).
  assert (Husp := fun b' => unlink_spec path _ s H _ Hs b b' p 0 lo hi Hpath Hc Hr Hp Hnd).
  rewrite length_app, Nat.add_1_r in Hul, Husp |- *; unfold sdb_btree_reclaim_empty_leaf.
  rewrite Nat.sub_succ, Nat.sub_0_r.
  pose proof (Hpath (length fs) f ltac:(by apply list_lookup_middle)) as Hpe; unfold path_entry in *.
  rewrite Hpe; cbn [frame_path]; eapply progress_bind; [exact Hul|]; intros [] b1 E1 Hf1.
  destruct (Husp b1) as [Hp1 [fs' Hu]]; [intros x Hx; rewrite elem_of_app; tauto|exact E1|].
  destruct Hu as [Uw Ur Upa Uro Up Uf Uri Ul Uk Ue].
  destruct (frames_snoc _ _ _ Upa) as (fs1 & f1 & -> & Hl1 & Epid & Elen); rewrite <- Epid, <- Elen.
  pose proof Uw as Uw0; apply ctx_wf_snoc in Uw0 as (lo1 & hi1 & _ & Hfw & _ & _).
  destruct (neighbour_exists _ _ _ _ Hfw) as (left & sib & sep & f' & Hnb); pose proof Hfw as [_ Hfok].
  destruct (neighbour_node _ _ _ _ _ _ _ _ p Hnb Hfok) as (Epid' & _ & Ecnt & Hslot & _ & _ & Erem).
  pose proof Ur as Ur0; apply ctx_repr_snoc in Ur0 as (_ & Hn & _); eapply progress_read; [exact Hn|].
  rewrite bool_decide_eq_true_2 by done; cbn [negb orb]; rewrite (proj2 (Nat.ltb_ge _ _) Hslot), Ecnt; cbn [orb Nat.eqb].
  rewrite Erem; cbv zeta; rewrite <- Up in Hp1.
  assert (Hp2 : pages_inv b1 (p :: ctx_pids (fs1 ++ [f1]))) by (eapply pages_inv_proper; [apply Permutation_cons_append|exact Hp1]).
  eapply release_progress; [exact Hp2|done|]; intros b2 b3 E2 E3 Hf3; apply progress_get.
  assert (Hro1 : ctx_root fs1 (fr_pid f1) = b_root_page b1) by (by rewrite (se_root _ _ Ue), <- Hro, <- Uro, ctx_root_app).
  destruct (leaf_removed _ _ _ _ _ _ _ _ _ _ _ _ _ Uw Ur Hp1 Hro1 Hnb E2 E3) as (lo2 & hi2 & Hop & Ee).
  rewrite <- Hl1, <- Epid'; destruct (frame_small _ _ _ _ _ _ Hf1 Hfok Hn) as [Hks Hksz].
  pose proof (neighbour_keys _ _ _ _ _ Hnb) as HP; rewrite (keys_size_perm _ _ HP), keys_size_cons in Hksz.
  apply (Permutation_Forall HP), Forall_cons_iff in Hks as [_ Hks].
  eapply parent_after_progress; [|exact Hop|done|done|lia].
  intros i g Hi; assert (Hg : (frame_path <$> (fs ++ [f])) !! i = Some (frame_path g))
    by (rewrite <- Upa, list_lookup_fmap, (lookup_app_l_Some _ _ _ _ Hi); done).
  rewrite list_lookup_fmap in Hg; destruct ((fs ++ [f]) !! i) as [g'|] eqn:Eg; [|done].
  transitivity (frame_path g'); [exact (Hpath _ _ Eg)|]; cbn in Hg; congruence.
Qed.


(** ** The descent *)

Lemma delete_at_leaf_progress b (fs : list frame) (p s : Z) (l : list kv) (key : bytes) (H : nat) (lo hi : option bytes) :
  (H <= SDB_BTREE_MAX_DEPTH)%nat -> ctx_wf H None None fs 0 lo hi -> wf_tree 0 lo hi (PLeaf p s l) ->
  ctx_repr (rd b) fs p -> rd b p = Ok (leaf_node s l) -> pages_inv b (ctx_pids fs ++ [p]) ->
  ctx_root fs p = b_root_page b -> sib_chain (left_leaves fs ++ (p, s, l) :: right_leaves fs) 0 -> fits origin capacity b ->
  progress F (delete_at_leaf p (leaf_node s l) key (frame_path <$> fs) b) (fun _ b' => fits origin capacity b').
Proof.
  intros HH Hc Hw Hcr Hrd Hp Hro Hch Hf; pose proof Hw as [Hso HF].
  assert (Hs : 0 <= s < 2 ^ 64) by (apply read_node_wf in Hrd as [_ _ _ Hl _]; exact Hl).
  unfold delete_at_leaf; pose proof (leaf_delete_spec s l key Hso) as Hds; cbv zeta in Hds.
  destruct (key_at_position _ _ _); cbn [negb]; [|done]; rewrite Hds by done; clear Hds.
  assert (Hw' : wf_tree 0 lo hi (PLeaf p s (al_delete key l))) by (split; [by apply al_delete_sorted|by apply al_delete_Forall]).
  eapply progress_bind; [eapply leaf_progress; [exact Hf|exact Hf|exact Hrd|done|apply Hw'|apply sublist_filter]|].
  intros [] b1 E1 Hf1; destruct (store_leaf _ _ _ _ _ _ _ _ _ _ Hc Hw' Hcr Hp Hro Hch Hs E1) as (Hta & Hcr1 & Hr1).
  apply progress_get, progress_get; destruct (_ && negb (p =? _) && _) eqn:Eg; [|done].
  apply andb_true_iff in Eg as [Eg _]; apply andb_true_iff in Eg as [Eg _]; apply Nat.ltb_lt in Eg.
  eapply progress_read; [exact Hr1|]; destruct (n_count _ =? 0)%nat; [|done].
  destruct Hta as [Tp Tr Tro Tw Tf Tc Te]; eapply (progress_bind _ _ _ _ fitting); [|by intros [] b2 _ Hf2].
  rewrite length_fmap in *; eapply reclaim_empty_leaf_progress; try done.
  - by destruct fs; [cbn in Eg; lia|].
  - apply frame_path_lookup.
  - eapply pages_inv_proper; [|exact Tp]; rewrite plug_pids; done.
  - by rewrite (se_root _ _ Te).
Qed.

Lemma delete_loop_progress (key : bytes) (H h : nat) :
  (H <= SDB_BTREE_MAX_DEPTH)%nat ->
  forall fuel b (fs : list frame) (t : ptree) (lo hi : option bytes),
  ctx_wf H None None fs h lo hi -> wf_tree h lo hi t -> within lo hi key ->
  ctx_repr (rd b) fs (pid_of t) -> repr (rd b) t -> pages_inv b (ctx_pids fs ++ pids t) ->
  ctx_root fs (pid_of t) = b_root_page b -> sib_chain (left_leaves fs ++ leaves t ++ right_leaves fs) 0 ->
  fits origin capacity b -> (h <= fuel)%nat ->
  progress F (delete_loop fuel (pid_of t) key (frame_path <$> fs) b) (fun _ b' => fits origin capacity b').
Proof.
  intros HH; induction h as [|h IH]; intros fuel b fs t lo hi Hc Hw Hk Hcr Hr Hp Hro Hch Hf Hfu;
    destruct t as [p s l|p ks cs]; try done.
  - apply repr_root in Hr as Hn; cbn [pid_of node_of] in Hn.
    assert (Hd : progress F (delete_at_leaf p (leaf_node s l) key (frame_path <$> fs) b) (fun _ b' => fits origin capacity b'))
      by (by eapply delete_at_leaf_progress).
    destruct fuel; cbn [delete_loop pid_of]; (eapply progress_read; [exact Hn|exact Hd]).
  - destruct fuel as [|fuel]; [lia|]; cbn [delete_loop pid_of]; apply repr_root in Hr as Hn; cbn [pid_of node_of] in Hn.
    eapply progress_read; [exact Hn|]; change (n_kind (internal_node _ _)) with SDB_BTREE_INTERNAL; cbn match.
    destruct (descend_focus _ _ _ _ _ _ _ Hw Hk) as (ks1 & ks2 & cs1 & c & cs2 & Hfo & Hi & Hch').
    rewrite Hi, Hch'; set (f := {| fr_pid := p; fr_ks1 := ks1; fr_ks2 := ks2; fr_cs1 := cs1; fr_cs2 := cs2 |}).
    assert (Et : PNode p ks cs = plug [f] c) by (rewrite (fo_ks _ _ _ _ _ _ _ _ _ _ _ Hfo), (fo_cs _ _ _ _ _ _ _ _ _ _ _ Hfo); done).
    cbv zeta; change [(p, length cs1)] with (frame_path <$> [f]); rewrite <- fmap_app.
    assert (Hfw : frame_wf h lo hi f).
    { unfold f; destruct Hw as (Hne & Hso & HFk & _), Hfo; subst ks cs; split; cbn; [done|]; by split. }
    rewrite Et in Hr, Hp, Hch; apply plug_repr in Hr as [(Hfr & Hc1 & Hc2 & _) Hrc]; cbn [ctx_root] in Hfr.
    rewrite plug_pids, app_assoc in Hp; rewrite <- ctx_pids_app in Hp.
    eapply (IH fuel b (fs ++ [f]) c (last_or lo ks1) (head_or hi ks2)); try done; try lia.
    + apply ctx_wf_snoc; by exists lo, hi.
    + apply Hfo.
    + apply Hfo.
    + by apply ctx_repr_snoc.
    + by rewrite ctx_root_app.
    + rewrite plug_leaves in Hch; rewrite ctx_leaves_snoc; cbn [left_leaves right_leaves flat_map rev app] in Hch.
      by rewrite !app_nil_r in Hch.
Qed.

Lemma delete_progress (k : bytes) (t : ptree) (h : nat) b :
  batch_holds b t h -> fits origin capacity b -> b_active b = true -> b_failure b = SDB_OK ->
  bad_key k = false -> is_Some (al_lookup k (flatten t)) ->
  progress F (sdb_btree_batch_delete k b) fitting.
Proof.
  intros Hh Hf Ha Hfl Hk Hl; unfold sdb_btree_batch_delete; rewrite Hk, Ha, Hfl.
  rewrite bool_decide_eq_true_2 by done; cbn [negb orb]; pose proof Hh as [_ Hr Hre Hw _ Hc _ _].
  pose proof (height_fuel _ _ _ Hh); pose proof (holds_context _ _ _ Hh); rewrite <- Hr.
  assert (Hd : progress F (delete_loop SDB_BTREE_MAX_DEPTH (pid_of t) k (frame_path <$> []) b) (fun _ b' => fits origin capacity b')).
  { eapply (delete_loop_progress k h h); try done; [lia| |lia]; cbn [left_leaves right_leaves flat_map rev app]; by rewrite app_nil_r. }
  cbn [fmap list_fmap] in Hd; unfold sticky, progress in *; destruct (delete_loop _ _ _ _ _) as [[[]|e] b1] eqn:Em; try done.
  by apply (delete_loop_found _ _ t h) in Em.
Qed.
End DeleteProgress.
