(* ===== verification/BtreeSteady.v ===== *)
(** * What every batch operation respects

    Whatever it returns, an operation on a batch leaves the committed state as it
    was, and when it fails its status is not [SDB_OK].  Both follow the structure
    of the code and are proved together, by the [steady_tac] tactic. *)

From S2P Require Import Prelude Status Codec Keys Page BtreePage PagerInterface BtreeNode Btree.

(** ** Failures of the node codec *)

Lemma honest_load_u16 (buf : bytes) (off : nat) : honest_mem (load_u16 buf off).
Proof. unfold load_u16; honest_tac. Qed.
Lemma honest_load_u32 (buf : bytes) (off : nat) : honest_mem (load_u32 buf off).
Proof. unfold load_u32; honest_tac. Qed.
Lemma honest_load_u64 (buf : bytes) (off : nat) : honest_mem (load_u64 buf off).
Proof. unfold load_u64; honest_tac. Qed.
Lemma honest_load_bytes (buf : bytes) (off n : nat) : honest_mem (load_bytes buf off n).
Proof. unfold load_bytes; honest_tac. Qed.
#[export] Hint Resolve honest_load_u16 honest_load_u32 honest_load_u64 honest_load_bytes : honest.

Lemma honest_decode_entry (kind : sdb_btree_node_kind) (payload : bytes) (cursor : nat) (remaining : Z) :
  honest_mem (decode_entry kind payload cursor remaining).
Proof. unfold decode_entry; honest_tac. Qed.
#[export] Hint Resolve honest_decode_entry : honest.

Lemma honest_decode_entries (kind : sdb_btree_node_kind) (payload : bytes) (count : nat) :
  forall cursor remaining, honest_mem (decode_entries count kind payload cursor remaining).
Proof. induction count as [|count IH]; intros cursor remaining; cbn [decode_entries]; honest_tac. Qed.
#[export] Hint Resolve honest_decode_entries : honest.

Lemma honest_node_decode (payload : bytes) : honest (sdb_btree_node_decode payload).
Proof.
  assert (H : honest_mem (node_decode_mem payload)) by (unfold node_decode_mem; honest_tac).
  unfold sdb_btree_node_decode; destruct (node_decode_mem payload) as [r|]; cbn; [|done].
  intros ->; by apply H.
Qed.

Lemma honest_encoded_size (node : sdb_btree_node) : honest (sdb_btree_node_encoded_size node).
Proof.
  assert (H : forall es kind previous total, honest (encoded_size_loop kind previous es total)).
  { intros es; induction es as [|e es IH]; intros kind previous total; cbn [encoded_size_loop]; honest_tac. }
  unfold sdb_btree_node_encoded_size; honest_tac.
Qed.
#[export] Hint Resolve honest_node_decode honest_encoded_size : honest.

Lemma honest_node_encode (node : sdb_btree_node) (size : Z) : honest (sdb_btree_node_encode node size).
Proof. unfold sdb_btree_node_encode; honest_tac. Qed.

Lemma honest_total_entries (size : sdb_btree_entry -> Z) (es : list sdb_btree_entry) :
  forall total, honest (total_entries_loop size es total).
Proof. induction es as [|e es IH]; intros total; cbn [total_entries_loop]; honest_tac. Qed.
#[export] Hint Resolve honest_node_encode honest_total_entries : honest.

(** ** No batch operation changes the committed state *)

Section Steady.
Context {P T : Type} `{!PagerOps P T} `{!PagerLaws P T}.

Implicit Types b : sdb_btree_batch (T := T).

Definition steady {A} (m : batchM (T := T) A) : Prop :=
  forall b, pager_eqv (b_pager (m b).2) (b_pager b) /\ honest (m b).1.

Lemma steady_ret {A} (a : A) : steady (mret a).
Proof. by intros b. Qed.
Lemma steady_fail {A} (e : sdb_status) : e <> SDB_OK -> steady (batch_fail (A := A) e).
Proof. intros He b; split; [done|]; by apply honest_err. Qed.
Lemma steady_lift {A} (r : result A) : honest r -> steady (batch_lift r).
Proof. by intros Hr b. Qed.
Lemma steady_get {A} (f : sdb_btree_batch -> A) : steady (batch_get f).
Proof. by intros b. Qed.
Lemma steady_read (p : Z) : steady (read_node p).
Proof.
  intros b; split; [done|]; unfold read_node, sdb_btree_batch_read_node, sdb_btree_read_node; cbn [fst].
  pose proof (read_honest (b_pager b) p); honest_tac.
Qed.
Lemma steady_unstage (p : Z) : steady (sdb_btree_unstage p).
Proof. by intros b. Qed.
Lemma steady_stage (p : Z) (node : sdb_btree_node) : steady (sdb_btree_stage p node).
Proof.
  intros b; unfold sdb_btree_stage; match goal with |- context [match ?r with _ => _ end] =>
    assert (Hr : honest r) by honest_tac; destruct r as [payload|e] end; split; try done.
  intros H; injection H as ->; by apply Hr.
Qed.

Lemma steady_allocate : steady batch_allocate.
Proof.
  intros b; unfold batch_allocate; pose proof (allocate_pager (b_txn b)); pose proof (allocate_honest (b_txn b)).
  by destruct (txn_allocate (b_txn b)).
Qed.

Lemma steady_free (p : Z) : steady (batch_free p).
Proof.
  intros b; unfold batch_free; pose proof (free_pager (b_txn b) p); pose proof (free_honest (b_txn b) p).
  by destruct (txn_free (b_txn b) p).
Qed.

Lemma steady_bind {A B} (m : batchM A) (k : A -> batchM B) :
  steady m -> (forall a, steady (k a)) -> steady (m ≫= k).
Proof.
  intros Hm Hk b; unfold mbind, batchM_bind; destruct (Hm b) as [Hp Hh]; destruct (m b) as [[a|e] b1].
  - cbn [snd] in Hp; destruct (Hk a b1) as [Hp' Hh']; split; [by rewrite <- Hp|done].
  - split; [done|]; cbn [fst] in *; intros E; injection E as ->; by apply Hh.
Qed.

Lemma steady_sticky {A} (m : batchM A) : steady m -> steady (sticky m).
Proof. intros Hm b; unfold sticky; specialize (Hm b); by destruct (m b) as [[a|e] b1]. Qed.
End Steady.

Create HintDb steady.
#[export] Hint Resolve steady_ret steady_fail steady_lift steady_get steady_read steady_unstage steady_stage
  steady_allocate steady_free : steady.
#[export] Hint Extern 1 (_ <> SDB_OK) => discriminate : steady.

(** Follow the program. *)
Ltac steady_tac :=
  repeat first
    [ solve [eauto with steady honest]
    | match goal with |- steady (_ ≫= _) => apply steady_bind; [|intros ?] end
    | progress cbv zeta
    | match goal with |- steady (match ?x with _ => _ end) => destruct x end ].

Section SteadyOps.
Context {P T : Type} `{!PagerOps P T} `{!PagerLaws P T}.

Lemma steady_store_or_split (p : Z) (node : sdb_btree_node) : steady (T := T) (store_or_split p node).
Proof. unfold store_or_split, sdb_btree_split_leaf, sdb_btree_split_internal; steady_tac. Qed.

Lemma steady_insert (key value : bytes) (fuel : nat) :
  forall p, steady (T := T) (sdb_btree_insert_recursive fuel p key value).
Proof.
  induction fuel as [|fuel IH]; intros p; cbn [sdb_btree_insert_recursive]; steady_tac;
    apply steady_store_or_split.
Qed.

Lemma steady_grow (sep : bytes) (q : Z) : steady (T := T) (grow_root sep q).
Proof. unfold grow_root; steady_tac. Qed.

Lemma steady_put (key value : bytes) : steady (T := T) (sdb_btree_batch_put key value).
Proof.
  intros b; unfold sdb_btree_batch_put; destruct (_ || _); [done|].
  match goal with |- context [sticky ?m b] => apply (steady_sticky m) end.
  apply steady_bind; [|intros r; destruct r as [[sep q]|]]; steady_tac; [apply steady_insert|apply steady_grow].
Qed.

Lemma steady_reclaim_up (path : list path_entry) (n : nat) :
  forall p q, steady (T := T) (sdb_btree_reclaim_internal_up path n p q).
Proof.
  induction n as [|n IH]; intros p q; cbn [sdb_btree_reclaim_internal_up]; unfold merge_or_refill, redistribute;
    steady_tac.
Qed.

Lemma steady_relink (s : Z) (fuel : nat) : forall p, steady (T := T) (relink_predecessor fuel p s).
Proof. induction fuel as [|fuel IH]; intros p; cbn [relink_predecessor]; steady_tac. Qed.

Lemma steady_unlink (path : list path_entry) (s : Z) (n : nat) : steady (T := T) (unlink_leaf path n s).
Proof. induction n as [|n IH]; cbn [unlink_leaf]; steady_tac; apply steady_relink. Qed.

Lemma steady_delete_loop (key : bytes) (fuel : nat) :
  forall p path, steady (T := T) (delete_loop fuel p key path).
Proof.
  assert (Hleaf : forall p node path, steady (T := T) (delete_at_leaf p node key path)).
  { intros p node path; unfold delete_at_leaf, sdb_btree_reclaim_empty_leaf, collapse_root; steady_tac;
      first [apply steady_unlink | apply steady_reclaim_up]. }
  induction fuel as [|fuel IH]; intros p path; cbn [delete_loop]; steady_tac.
Qed.

Lemma steady_delete (key : bytes) : steady (T := T) (sdb_btree_batch_delete key).
Proof.
  intros b; unfold sdb_btree_batch_delete; destruct (_ || _); [done|].
  pose proof (steady_sticky _ (steady_delete_loop key SDB_BTREE_MAX_DEPTH (b_root_page b) []) b) as H.
  destruct H as [H1 H2]; destruct (sticky _ b) as [[[]|e] b']; split; try done.
  cbn [fst] in *; intros E; injection E as ->; by apply H2.
Qed.
End SteadyOps.
