(* ===== verification/BtreeMap.v ===== *)
(** * The B-tree is a finite map

    The theorems that make [src/btree.c] correct, over any pager that satisfies
    [PagerLaws].  A batch refines a finite map: lookups answer from it, and every
    put and delete that succeeds changes it as the map operation does.  The
    one-operation calls commit that change or leave the database alone. *)

From stdpp Require Import gmap.
From S2P Require Import Prelude Status Codec Keys Page BtreePage OrderedMap PagerInterface BtreeNode BtreeTree Btree BtreeGet BtreeBatch BtreeInsert BtreePut BtreeContext BtreeReclaim BtreeDelete BtreeSteady Txn MemoryStore TxnLaws.

(** ** Operations on a batch *)

Inductive map_op :=
  | OpGet (key : bytes) (capacity : Z)
  | OpPut (key value : bytes)
  | OpDelete (key : bytes).

(** What the operation does to a finite map, and what it returns. *)
Definition map_step (op : map_op) (m : gmap bytes bytes) (r : result bytes) (m' : gmap bytes bytes) : Prop :=
  match op with
  | OpGet k capacity =>
      r = (if bad_key k then Err SDB_E_INVALID_ARGUMENT else lookup_result (m !! k) capacity) /\ m' = m
  | OpPut k v =>
      if bad_key k || (Z.of_nat (length v) >? UINT32_MAX)
      then r = Err SDB_E_INVALID_ARGUMENT /\ m' = m
      else r = Ok [] /\ m' = <[k := v]> m
  | OpDelete k =>
      if bad_key k then r = Err SDB_E_INVALID_ARGUMENT /\ m' = m
      else match m !! k with
           | None => r = Err SDB_E_NOT_FOUND /\ m' = m
           | Some _ => r = Ok [] /\ m' = delete k m
           end
  end.

Inductive map_run : gmap bytes bytes -> list map_op -> list (result bytes) -> gmap bytes bytes -> Prop :=
  | map_run_nil m : map_run m [] [] m
  | map_run_cons m op r m1 ops rs m' :
      map_step op m r m1 -> map_run m1 ops rs m' -> map_run m (op :: ops) (r :: rs) m'.

Section Map.
Context {P T : Type} `{!PagerOps P T} `{!PagerLaws P T}.

Implicit Types b : sdb_btree_batch (T := T).

Definition run_op (op : map_op) b : result bytes * sdb_btree_batch :=
  match op with
  | OpGet k capacity => (sdb_btree_batch_get b k capacity, b)
  | OpPut k v => let '(r, b') := sdb_btree_batch_put k v b in ((fun _ => []) <$> r, b')
  | OpDelete k => let '(r, b') := sdb_btree_batch_delete k b in ((fun _ => []) <$> r, b')
  end.

Fixpoint run_ops (ops : list map_op) b : list (result bytes) * sdb_btree_batch :=
  match ops with
  | [] => ([], b)
  | op :: ops =>
      let '(r, b) := run_op op b in
      let '(rs, b) := run_ops ops b in (r :: rs, b)
  end.

(** The batch holds the map [m]. *)
Definition batch_is b (m : gmap bytes bytes) : Prop :=
  exists t h, batch_holds b t h /\ tree_contents t = m /\ b_active b = true /\ b_failure b = SDB_OK.

(** A storage failure has been recorded; nothing will be committed. *)
Definition poisoned b : Prop := b_failure b <> SDB_OK.

Lemma holds_sorted b (t : ptree) (h : nat) : batch_holds b t h -> key_sorted (flatten t).
Proof. intros Hh; by apply (wf_flatten h None None), Hh. Qed.

Lemma batch_get_is b (m : gmap bytes bytes) (k : bytes) (capacity : Z) :
  batch_is b m ->
  sdb_btree_batch_get b k capacity
    = if bad_key k then Err SDB_E_INVALID_ARGUMENT else lookup_result (m !! k) capacity.
Proof.
  intros (t & h & Hh & <- & Ha & Hf); unfold sdb_btree_batch_get; rewrite Ha, Hf.
  rewrite bool_decide_eq_true_2 by done; cbn [negb orb]; unfold check; destruct (bad_key k); [done|]; rewrite <- (bh_root _ _ _ Hh).
  rewrite (get_loop_spec _ _ _ h _ None None t); [|apply Hh|apply Hh|done|].
  - unfold tree_contents; by rewrite <- al_lookup_contents.
  - pose proof (height_bound b t h (bh_ok _ _ _ Hh) (bh_wf _ _ _ Hh) (bh_pages _ _ _ Hh)).
    unfold SDB_BTREE_MAX_DEPTH; lia.
Qed.

Lemma sticky_failure {A} (op : batchM (T := T) A) b b' (e : sdb_status) :
  sticky op b = (Err e, b') -> b_failure b' = e.
Proof. unfold sticky; destruct (op b) as [[a|e'] b1]; [done|]; intros H; by injection H as <- <-. Qed.

Lemma batch_put_is b b' (m : gmap bytes bytes) (k v : bytes) (r : result unit) :
  batch_is b m -> sdb_btree_batch_put k v b = (r, b') ->
  (exists m', map_step (OpPut k v) m ((fun _ => []) <$> r) m' /\ batch_is b' m') \/ poisoned b'.
Proof.
  intros (t & h & Hh & <- & Ha & Hf) H; pose proof H as H0; unfold sdb_btree_batch_put in H.
  rewrite Ha, Hf, (bool_decide_eq_true_2 (SDB_OK = SDB_OK)) in H by done; cbn [negb orb] in H.
  cbn [map_step]; destruct (bad_key k || _); [injection H as <- <-; left; eexists; split; [done|]; by exists t, h|].
  destruct r as [[]|e].
  - left; destruct (batch_put_holds b b' t h k v Hh H0) as (t' & h' & Hh' & Hfl & _ & He & Hf').
    eexists; split; [done|]; exists t', h'; split_and!; [done| |by rewrite (se_active _ _ He)|done].
    unfold tree_contents; rewrite Hfl; apply al_insert_contents.
  - right; destruct (steady_put k v b) as [_ Hh']; rewrite H0 in Hh'; cbn [fst] in Hh'.
    apply sticky_failure in H; unfold poisoned; congruence.
Qed.

Lemma delete_guard b (m : gmap bytes bytes) (k : bytes) :
  batch_is b m -> bad_key k = true -> sdb_btree_batch_delete k b = (Err SDB_E_INVALID_ARGUMENT, b).
Proof.
  intros (t & h & Hh & <- & Ha & Hf) Hk; unfold sdb_btree_batch_delete; rewrite Hk.
  by rewrite !orb_true_r.
Qed.

Lemma delete_missing b (m : gmap bytes bytes) (k : bytes) :
  batch_is b m -> bad_key k = false -> m !! k = None -> sdb_btree_batch_delete k b = (Err SDB_E_NOT_FOUND, b).
Proof.
  intros (t & h & Hh & <- & Ha & Hf) Hk Hm; unfold sdb_btree_batch_delete; rewrite Ha, Hf, Hk.
  rewrite bool_decide_eq_true_2 by done; cbn [negb orb]; unfold sticky; rewrite <- (bh_root _ _ _ Hh).
  rewrite (delete_loop_absent b k h _ _ t None None); try done; [apply Hh|apply Hh| |].
  - pose proof (height_bound b t h (bh_ok _ _ _ Hh) (bh_wf _ _ _ Hh) (bh_pages _ _ _ Hh)).
    unfold SDB_BTREE_MAX_DEPTH; lia.
  - unfold tree_contents in Hm; by rewrite <- al_lookup_contents in Hm.
Qed.

Lemma batch_delete_is b b' (m : gmap bytes bytes) (k : bytes) (r : result unit) :
  batch_is b m -> sdb_btree_batch_delete k b = (r, b') ->
  (exists m', map_step (OpDelete k) m ((fun _ => []) <$> r) m' /\ batch_is b' m') \/ poisoned b'.
Proof.
  intros Hb H; cbn [map_step]; destruct (bad_key k) eqn:Ek.
  { rewrite (delete_guard b m) in H by done; injection H as <- <-; eauto. }
  destruct (m !! k) as [v|] eqn:Em.
  2: { rewrite (delete_missing b m) in H by done; injection H as <- <-; eauto. }
  destruct Hb as (t & h & Hh & <- & Ha & Hf); destruct r as [[]|e].
  - left; destruct (batch_delete_holds b b' t h k Hh H) as (_ & t' & h' & Hh' & Hfl & He & Hf').
    eexists; split; [done|]; exists t', h'; split_and!; [done| |by rewrite (se_active _ _ He)|done].
    unfold tree_contents; rewrite Hfl; apply al_delete_contents.
  - right; pose proof H as H0; unfold sdb_btree_batch_delete in H.
    rewrite Ha, Hf, Ek, (bool_decide_eq_true_2 (SDB_OK = SDB_OK)) in H by done; cbn [negb orb] in H.
    pose proof (steady_delete_loop (T := T) k SDB_BTREE_MAX_DEPTH (b_root_page b) []) as Hs; destruct (Hs b) as [_ Hh'].
    unfold sticky in H; destruct (delete_loop _ _ _ _ b) as [[[]|e'] b1] eqn:Ed; try done.
    + rewrite <- (bh_root _ _ _ Hh) in Ed; apply (delete_loop_found _ _ t h) in Ed; [done|done|].
      unfold tree_contents in Em; by rewrite al_lookup_contents, Em.
    + injection H as <- <-; unfold poisoned; cbn [set_failure b_failure fst] in *; congruence.
Qed.

(** ** Sequences of operations *)

Lemma run_op_is b b' (m : gmap bytes bytes) (op : map_op) (r : result bytes) :
  batch_is b m -> run_op op b = (r, b') ->
  (exists m', map_step op m r m' /\ batch_is b' m') \/ poisoned b'.
Proof.
  intros Hb H; destruct op as [k c|k v|k]; cbn [run_op] in H.
  - injection H as <- <-; left; exists m; split; [|done]; split; [by apply batch_get_is|done].
  - destruct (sdb_btree_batch_put k v b) as [r0 b0] eqn:E; injection H as <- <-; by eapply batch_put_is.
  - destruct (sdb_btree_batch_delete k b) as [r0 b0] eqn:E; injection H as <- <-; by eapply batch_delete_is.
Qed.

Lemma run_op_poisoned b (op : map_op) : poisoned b -> run_op op b = (Err SDB_E_INVALID_ARGUMENT, b).
Proof.
  intros Hp; unfold poisoned in Hp; assert (E : bool_decide (b_failure b = SDB_OK) = false)
    by (by apply bool_decide_eq_false_2).
  destruct op as [k c|k v|k]; cbn [run_op];
    unfold sdb_btree_batch_get, sdb_btree_batch_put, sdb_btree_batch_delete, check; rewrite E; cbn [negb];
    by rewrite orb_true_r.
Qed.

Lemma run_ops_poisoned (ops : list map_op) b : poisoned b -> (run_ops ops b).2 = b.
Proof.
  intros Hp; induction ops as [|op ops IH]; [done|]; cbn [run_ops].
  rewrite run_op_poisoned by done; by destruct (run_ops ops b).
Qed.

(** C4: A batch refines a finite map.  Running any sequence of lookups, puts
    and deletes on a batch that holds the map [m] returns exactly what the same
    operations on [m] return (found values, not-found, buffer-too-small, argument
    errors), and leaves the batch holding the resulting map, through all leaf and
    root splits, leaf removals, merges, redistributions and root collapses;
    otherwise a storage failure was recorded in the batch. *)
Theorem batch_refines_map b b' (m : gmap bytes bytes) (ops : list map_op) (rs : list (result bytes)) :
  batch_is b m -> run_ops ops b = (rs, b') ->
  (exists m', map_run m ops rs m' /\ batch_is b' m') \/ poisoned b'.
Proof.
  revert b m rs; induction ops as [|op ops IH]; intros b m rs Hb H; cbn [run_ops] in H.
  - injection H as <- <-; left; exists m; split; [constructor|done].
  - destruct (run_op op b) as [r b1] eqn:E1; destruct (run_ops ops b1) as [rs1 b2] eqn:E2; injection H as <- <-.
    destruct (run_op_is b b1 m op r Hb E1) as [(m1 & Hs & Hb1)|Hp].
    + destruct (IH _ _ _ Hb1 E2) as [(m' & Hr & Hb')|Hp]; [|by right].
      left; exists m'; split; [by econstructor|done].
    + right; pose proof (run_ops_poisoned ops b1 Hp) as E; rewrite E2 in E; cbn [snd] in E; by subst.
Qed.

(** ** Begin *)

(** The committed tree. *)
Record tree_holds (tree : sdb_btree (P := P)) (t : ptree) (h : nat) : Prop := {
  th_open : t_open tree = true;
  th_ok : pager_ok (t_pager tree);
  th_root : pid_of t = t_root_page tree;
  th_repr : repr (sdb_btree_read_node (t_pager tree)) t;
  th_wf : wf_tree h None None t;
  th_nodup : NoDup (pids t);
  th_use : Forall (pager_in_use (t_pager tree)) (pids t);
  th_chain : sib_chain (leaves t) 0
}.

Definition tree_is (tree : sdb_btree (P := P)) (m : gmap bytes bytes) : Prop :=
  exists t h, tree_holds tree t h /\ tree_contents t = m.

Definition with_pager (tree : sdb_btree (P := P)) (pager : P) : sdb_btree :=
  {| t_pager := pager; t_root_page := t_root_page tree; t_open := t_open tree |}.

Lemma read_node_eqv (p p' : P) (q : Z) :
  pager_eqv p p' -> sdb_btree_read_node p q = sdb_btree_read_node p' q.
Proof. intros E; unfold sdb_btree_read_node; by rewrite (pager_read_proper _ _ E q q eq_refl). Qed.

Lemma tree_is_eqv (tree : sdb_btree) (p : P) (m : gmap bytes bytes) :
  pager_eqv p (t_pager tree) -> tree_is tree m -> tree_is (with_pager tree p) m.
Proof.
  intros E (t & h & [Ho Hk Hr Hre Hw Hn Hu Hc] & Hm); exists t, h; split; [|done]; split; try done; cbn.
  - by rewrite E.
  - eapply repr_frame; [|exact Hre]; intros q _; by apply read_node_eqv.
  - eapply Forall_impl; [|exact Hu]; intros q Hq; by rewrite E.
Qed.

Lemma begin_is (tree : sdb_btree) b (m : gmap bytes bytes) :
  tree_is tree m -> sdb_btree_batch_begin tree = Ok b ->
  batch_is b m /\ pager_eqv (b_pager b) (t_pager tree) /\ b_items b = [] /\ b_root_page b = t_root_page tree.
Proof.
  intros (t & h & [Ho Hk Hr Hre Hw Hn Hu Hc] & Hm) H; unfold sdb_btree_batch_begin in H; inv_ok H.
  injection H as <-; destruct (begin_law _ _ Hk Hbind) as (Ht & Hp & Hin & Ha & Hs); split_and!; try done.
  exists t, h; split_and!; try done; split; try done; cbn.
  - split; cbn; [done|constructor|by intros|]; intros q Hq; left; unfold b_pager; cbn; rewrite Hp; by apply Hin.
  - eapply repr_frame; [|exact Hre]; intros q _; unfold sdb_btree_batch_read_node, sdb_btree_find_staged.
    cbn; by apply read_node_eqv.
  - split; [done|]; eapply Forall_impl; [|exact Hu]; intros q; apply Hin.
  - by unfold staged; cbn; intros q Hq; apply elem_of_nil in Hq.
  - by rewrite Ha; intros q Hq; apply elem_of_nil in Hq.
Qed.

(** ** Commit *)

Definition item_of (items : list sdb_btree_mutation) (q : Z) : option sdb_btree_mutation :=
  snd <$> list_find (fun m => m_page_id m = q) items.

Lemma put_items_spec (items : list sdb_btree_mutation) (t t' : T) :
  txn_ok t -> NoDup (m_page_id <$> items) -> Forall (txn_in_use t) (m_page_id <$> items) ->
  put_items items t = (Ok tt, t') ->
  txn_ok t' /\ (forall q, txn_in_use t' q <-> txn_in_use t q)
  /\ (forall q, txn_staged t' q = match item_of items q with
                                  | Some m => Some (m_payload m) | None => txn_staged t q end).
Proof.
  revert t; induction items as [|m items IH]; intros t Ht Hn Hu H; cbn [put_items] in H.
  { injection H as <-; done. }
  rewrite fmap_cons in Hn, Hu; apply list.NoDup_cons in Hn as [Hm Hn]; apply Forall_cons_iff in Hu as [Hum Hu].
  destruct (txn_put _ _ _ _) as [[[]|e] t1] eqn:E; [|done].
  destruct (put_law _ _ _ _ Ht Hum E) as (Ht1 & Hu1 & Hs1 & Hs1').
  destruct (IH t1 Ht1 Hn) as (Ht' & Hu' & Hs'); [eapply Forall_impl; [|exact Hu]; intros q; apply Hu1|done|].
  split_and!; [done|intros q; rewrite Hu'; apply Hu1|]; intros q; rewrite Hs'; unfold item_of; cbn [list_find].
  destruct (decide (m_page_id m = q)) as [<-|Hne].
  - destruct (list_find _ items) as [[i m']|] eqn:Ef; [|done]; apply list_find_Some in Ef as (Hi & Hm' & _).
    exfalso; apply Hm, list_elem_of_fmap; exists m'; split; [done|]; by eapply list_elem_of_lookup_2.
  - rewrite Hs1' by done; by destruct (list_find _ items) as [[]|].
Qed.

Lemma put_items_pager (items : list sdb_btree_mutation) (t : T) :
  pager_eqv (txn_pager (put_items items t).2) (txn_pager t) /\ honest (put_items items t).1.
Proof.
  revert t; induction items as [|m items IH]; intros t; cbn [put_items]; [done|].
  pose proof (put_pager t (m_page_id m) SDB_PAGE_TYPE_DATA (m_payload m)) as Hp.
  pose proof (put_honest t (m_page_id m) SDB_PAGE_TYPE_DATA (m_payload m)) as Hh.
  destruct (txn_put _ _ _ _) as [[[]|e] t1]; cbn [snd fst] in *; [|split; [done|intros E; injection E as ->; by apply Hh]].
  destruct (IH t1) as [IH1 IH2]; split; [by rewrite <- Hp|done].
Qed.

(** A batch nothing was staged in. *)
Lemma unchanged_is b (m : gmap bytes bytes) (tree : sdb_btree) :
  pager_ok (t_pager tree) -> t_open tree = true -> b_root_page b = t_root_page tree ->
  pager_eqv (b_pager b) (t_pager tree) -> b_items b = [] -> batch_is b m -> tree_is tree m.
Proof.
  intros Hk Ho Hro He Hit (t & h & [Bo Br Bre Bw [Bn Bu] Bc Bs Ba] & Hm & _); exists t, h; split; [|done].
  split; try done.
  - by rewrite Br.
  - eapply repr_frame; [|exact Bre]; intros q _; unfold sdb_btree_batch_read_node, sdb_btree_find_staged.
    rewrite Hit; cbn; symmetry; by apply read_node_eqv.
  - eapply Forall_impl; [|exact Bu]; intros q Hq; apply (bo_origin _ Bo) in Hq as [Hq|Hq]; [by rewrite <- He|].
    apply Ba in Hq; unfold staged in Hq; rewrite Hit in Hq; by apply elem_of_nil in Hq.
Qed.

Lemma committed_read b (pager : P) (t' : T) (q : Z) :
  batch_ok b -> (forall q, txn_in_use t' q <-> txn_in_use (b_txn b) q) -> pager_eqv (txn_pager t') (b_pager b) ->
  (forall q, txn_staged t' q = match item_of (b_items b) q with
                               | Some m => Some (m_payload m) | None => txn_staged (b_txn b) q end) ->
  (forall q, txn_in_use t' q ->
     match txn_staged t' q with
     | Some payload => exists view, pager_read pager q = Ok view
                         /\ view_type view = SDB_PAGE_TYPE_DATA /\ view_payload view = payload
     | None => pager_read pager q = pager_read (txn_pager t') q
     end) ->
  txn_in_use (b_txn b) q -> sdb_btree_read_node pager q = sdb_btree_batch_read_node b q.
Proof.
  intros Hb Hu He Hs Hc Hq; specialize (Hc q (proj2 (Hu q) Hq)); rewrite Hs in Hc.
  unfold sdb_btree_batch_read_node, sdb_btree_find_staged; unfold item_of in Hc.
  destruct (snd <$> list_find _ (b_items b)) as [m|].
  - destruct Hc as (view & Hv & Ht & Hp); unfold sdb_btree_read_node; rewrite Hv; cbn [mbind result_bind].
    by rewrite Ht, Hp.
  - rewrite (bo_clean _ Hb q Hq) in Hc; unfold sdb_btree_read_node; rewrite Hc.
    by rewrite (pager_read_proper _ _ He q q eq_refl).
Qed.

Lemma commit_is b (pager : P) (m : gmap bytes bytes) (tree : sdb_btree) :
  batch_is b m -> pager_ok (t_pager tree) -> t_open tree = true -> b_root_page b = t_root_page tree ->
  pager_eqv (b_pager b) (t_pager tree) ->
  sdb_btree_batch_commit b = (SDB_OK, pager) -> pager_usable pager = true ->
  tree_is (with_pager tree pager) m.
Proof.
  intros Hb Hpk Ho Hro He H Hus; pose proof Hb as (t & h & Hh & Hm & Ha & Hf); unfold sdb_btree_batch_commit in H.
  rewrite Ha, Hf, (bool_decide_eq_true_2 (SDB_OK = SDB_OK)) in H by done; cbn [negb] in H.
  destruct (b_items b) as [|i items] eqn:Eit; cbn [length] in H.
  { injection H as <-; apply tree_is_eqv; [by rewrite (abort_pager (b_txn b))|]; by apply (unchanged_is b). }
  cbn [Nat.eqb] in H; rewrite <- Eit in *; destruct (put_items_pager (b_items b) (b_txn b)) as [Hpp Hph].
  destruct (put_items (b_items b) (b_txn b)) as [[[]|e] t'] eqn:Ep; [|injection H as -> _; by destruct Hph].
  destruct (txn_commit t') as [r p'] eqn:Ec; injection H as Hst ->.
  pose proof (commit_honest t') as Hch; rewrite Ec in Hch; destruct r as [[]|e]; [|cbn in Hst; subst; by destruct Hch].
  pose proof Hh as [Bo Br Bre Bw [Bn Bu] Bc Bs Ba].
  destruct (put_items_spec (b_items b) (b_txn b) t') as (Ht' & Hu' & Hs'); [apply Bo|apply Bo| |done|].
  { rewrite List.Forall_forall in *; intros q Hq; apply Bu, list_elem_of_In, Bs; by apply list_elem_of_In. }
  destruct (commit_law _ _ Ht' Ec Hus) as (Hk & Hiu & _ & _ & Hrd); exists t, h; split; [|done]; split; try done; cbn.
  - by rewrite Br.
  - eapply repr_frame; [|exact Bre]; intros q Hq; eapply committed_read; try done.
    rewrite List.Forall_forall in Bu; apply Bu; by apply list_elem_of_In.
  - eapply Forall_impl; [|exact Bu]; intros q Hq; by rewrite Hiu, Hu'.
Qed.

(** ** The calls on a tree *)

Lemma begin_fails (tree : sdb_btree (P := P)) (e : sdb_status) : sdb_btree_batch_begin (T := T) tree = Err e -> e <> SDB_OK.
Proof.
  unfold sdb_btree_batch_begin; assert (Hb : honest (txn_begin (t_pager tree))) by apply begin_honest.
  destruct (t_open tree); cbn; [|by intros [= <-]]; destruct (txn_begin _) as [t|e']; cbn; [done|]; intros [= <-] ->; by apply Hb.
Qed.

Lemma one_operation_ok (tree : sdb_btree) (op : batchM (T := T) unit) (m : gmap bytes bytes) (pager : P) :
  tree_is tree m -> (forall b, honest (op b).1) -> one_operation tree op = (SDB_OK, pager) ->
  exists b b', batch_is b m /\ op b = (Ok tt, b') /\ sdb_btree_batch_commit b' = (SDB_OK, pager)
    /\ pager_eqv (b_pager b) (t_pager tree) /\ b_root_page b = t_root_page tree.
Proof.
  intros Ht Hh H; unfold one_operation in H; destruct (sdb_btree_batch_begin tree) as [b|e] eqn:Eb.
  - destruct (begin_is _ _ _ Ht Eb) as (Hb & He & _ & Hr); specialize (Hh b).
    destruct (op b) as [[[]|e] b'] eqn:Eo; [by exists b, b'|]; injection H as -> _; by destruct Hh.
  - injection H as -> _; by apply begin_fails in Eb.
Qed.

Lemma one_operation_is (tree : sdb_btree) (op : batchM (T := T) unit) (m m' : gmap bytes bytes) (pager : P) :
  tree_is tree m -> steady op ->
  (forall b b', batch_is b m -> op b = (Ok tt, b') -> batch_is b' m' /\ b_root_page b' = b_root_page b) ->
  one_operation tree op = (SDB_OK, pager) -> pager_usable pager = true -> tree_is (with_pager tree pager) m'.
Proof.
  intros Ht Hs Hop H Hus; assert (Hh : forall b, honest (op b).1) by (intros b; apply Hs).
  destruct (one_operation_ok tree op m pager Ht Hh H) as (b & b' & Hb & Eo & Ec & He & Hr).
  destruct (Hop _ _ Hb Eo) as [Hb' Hr']; destruct (Hs b) as [Hp _]; rewrite Eo in Hp; cbn [snd] in Hp.
  destruct Ht as (t & h & Hth & _); eapply (commit_is b'); try done; try apply Hth.
  - by rewrite Hr', Hr.
  - by rewrite Hp.
Qed.

(** A commit that fails has left the tree alone, or failed in the pager. *)
Lemma commit_fails (tree : sdb_btree) b (m : gmap bytes bytes) (e : sdb_status) (pager : P) :
  tree_is tree m -> pager_eqv (b_pager b) (t_pager tree) -> sdb_btree_batch_commit b = (e, pager) -> e <> SDB_OK ->
  tree_is (with_pager tree pager) m \/ exists txn, txn_commit txn = (Err e, pager).
Proof.
  intros Ht Hp H He.
  assert (Hab : forall (t : T), pager_eqv (txn_pager t) (b_pager b) -> tree_is (with_pager tree (txn_abort t)) m).
  { intros t Et; apply tree_is_eqv; [|done]; by rewrite (abort_pager t), Et. }
  unfold sdb_btree_batch_commit in H; destruct (negb (b_active b)).
  { injection H as _ <-; left; by apply tree_is_eqv. }
  destruct (negb _); [injection H as _ <-; left; by apply Hab|].
  destruct (_ =? _)%nat; [injection H as <- _; done|].
  destruct (put_items_pager (b_items b) (b_txn b)) as [Hpp _].
  destruct (put_items _ _) as [[[]|e2] t'] eqn:Ep; cbn [snd] in Hpp.
  - destruct (txn_commit t') as [r p'] eqn:Ec; injection H as Hst ->; right; exists t'.
    destruct r as [[]|e3]; cbn in Hst; [by subst|by subst].
  - injection H as _ <-; left; by apply Hab.
Qed.

Lemma one_operation_fails (tree : sdb_btree) (op : batchM (T := T) unit) (m : gmap bytes bytes)
    (e : sdb_status) (pager : P) :
  tree_is tree m -> steady op -> one_operation tree op = (e, pager) -> e <> SDB_OK ->
  tree_is (with_pager tree pager) m \/ exists txn, txn_commit txn = (Err e, pager).
Proof.
  intros Ht Hs H He; unfold one_operation in H; destruct (sdb_btree_batch_begin tree) as [b|e0] eqn:Eb.
  2: { injection H as _ <-; left; by apply tree_is_eqv. }
  destruct (begin_is _ _ _ Ht Eb) as (Hb & Heq & _ & Hr); destruct (Hs b) as [Hp Hh].
  destruct (op b) as [[[]|e1] b'] eqn:Eo; cbn [snd] in Hp.
  - eapply commit_fails; [done| |done|done]; by rewrite Hp.
  - injection H as _ <-; left; apply tree_is_eqv; [|done]; unfold sdb_btree_batch_abort; by rewrite (abort_pager (b_txn b')), <- Heq, <- Hp.
Qed.

Lemma put_ok_is b b' (m : gmap bytes bytes) (k v : bytes) :
  batch_is b m -> sdb_btree_batch_put k v b = (Ok tt, b') ->
  batch_is b' (<[k := v]> m) /\ b_root_page b' = b_root_page b.
Proof.
  intros (t & h & Hh & <- & Ha & Hf) Hput.
  destruct (batch_put_holds b b' t h k v Hh Hput) as (t' & h' & Hh' & Hfl & _ & He & Hf').
  split; [|apply He]; exists t', h'; split_and!; [done| |by rewrite (se_active _ _ He)|done].
  unfold tree_contents; rewrite Hfl; apply al_insert_contents.
Qed.

Lemma tree_get_is (tree : sdb_btree) (m : gmap bytes bytes) (k : bytes) (capacity : Z) :
  tree_is tree m ->
  sdb_btree_get tree k capacity
    = if bad_key k then Err SDB_E_INVALID_ARGUMENT else lookup_result (m !! k) capacity.
Proof.
  intros (t & h & [Ho Hk Hr Hre Hw Hn Hu Hc] & <-); unfold sdb_btree_get; rewrite Ho; cbn [negb orb].
  unfold check; destruct (bad_key k); [done|]; rewrite <- Hr.
  rewrite (get_loop_spec _ _ _ h _ None None t); try done.
  - unfold tree_contents; by rewrite <- al_lookup_contents.
  - assert (h <= 52)%nat; [|unfold SDB_BTREE_MAX_DEPTH; lia].
    eapply height_range; [done|done|]; eapply Forall_impl; [|exact Hu]; intros q; by apply pager_range.
Qed.

(** C6: Point lookup is map lookup, for every key and buffer size: on a committed
    tree that holds the map [m], [sdb_btree_get] returns the bound value, not-found,
    buffer-too-small or the argument error, and never runs into its depth limit. *)
Theorem btree_get_correct (tree : sdb_btree) (m : gmap bytes bytes) (k : bytes) (capacity : Z) :
  tree_is tree m ->
  sdb_btree_get tree k capacity
    = if bad_key k then Err SDB_E_INVALID_ARGUMENT else lookup_result (m !! k) capacity.
Proof. apply tree_get_is. Qed.

(** C5: A successful [sdb_btree_put] commits the map insertion: the committed tree
    maps the key to the value and every other key as before. *)
Theorem btree_put_commits (tree : sdb_btree) (m : gmap bytes bytes) (k v : bytes) (pager : P) :
  tree_is tree m -> sdb_btree_put tree k v = (SDB_OK, pager) -> pager_usable pager = true ->
  tree_is (with_pager tree pager) (<[k := v]> m).
Proof.
  intros Ht H Hus; eapply one_operation_is; [exact Ht|apply (steady_put k v)| |exact H|done].
  intros b b' Hb Hput; by apply put_ok_is.
Qed.

(** A successful [sdb_btree_delete] found the key and commits its removal;
    every other key is mapped as before. *)
Theorem btree_delete_commits (tree : sdb_btree) (m : gmap bytes bytes) (k : bytes) (pager : P) :
  tree_is tree m -> sdb_btree_delete tree k = (SDB_OK, pager) -> pager_usable pager = true ->
  is_Some (m !! k) /\ tree_is (with_pager tree pager) (delete k m).
Proof.
  intros Ht H Hus; assert (Hdel : forall b b', batch_is b m -> sdb_btree_batch_delete k b = (Ok tt, b') ->
    is_Some (m !! k) /\ batch_is b' (delete k m) /\ b_root_page b' = b_root_page b).
  { intros b b' (t & h & Hh & <- & Ha & Hf) Hd.
    destruct (batch_delete_holds b b' t h k Hh Hd) as (Hl & t' & h' & Hh' & Hfl & He & Hf').
    unfold tree_contents; rewrite <- al_lookup_contents; split_and!; [done| |apply He].
    exists t', h'; split_and!; [done| |by rewrite (se_active _ _ He)|done].
    unfold tree_contents; rewrite Hfl; apply al_delete_contents. }
  split.
  - destruct (one_operation_ok tree _ m pager Ht (fun b => proj2 (steady_delete k b)) H) as (b & b' & Hb & Eo & _).
    by destruct (Hdel _ _ Hb Eo).
  - eapply one_operation_is; [exact Ht|apply steady_delete| |exact H|done]; intros b b' Hb Eo.
    by destruct (Hdel _ _ Hb Eo).
Qed.

(** Deleting an absent key reports not-found and leaves the map as it was. *)
Theorem btree_delete_absent (tree : sdb_btree) (m : gmap bytes bytes) (k : bytes) (txn : T) :
  tree_is tree m -> txn_begin (t_pager tree) = Ok txn -> bad_key k = false -> m !! k = None ->
  exists pager, sdb_btree_delete tree k = (SDB_E_NOT_FOUND, pager) /\ tree_is (with_pager tree pager) m.
Proof.
  intros Ht Hbe Hk Hm; assert (Ho : t_open tree = true) by (destruct Ht as (t & h & Hth & _); apply Hth).
  destruct (sdb_btree_batch_begin tree) as [b|e] eqn:Eb; cycle 1.
  { exfalso; revert Eb; unfold sdb_btree_batch_begin; rewrite Ho, Hbe; cbn; done. }
  destruct (begin_is _ _ _ Ht Eb) as (Hb & Heq & _ & _).
  exists (sdb_btree_batch_abort b); split.
  - unfold sdb_btree_delete, one_operation; rewrite Eb; by rewrite (delete_missing b m).
  - apply tree_is_eqv; [|done]; unfold sdb_btree_batch_abort; by rewrite (abort_pager (b_txn b)).
Qed.

(** A failing put leaves the committed map as it was, whatever failed and
    however far the split or the growth of the root had come, unless it is the
    transaction commit itself that reported the failure. *)
Theorem btree_put_failure_harmless (tree : sdb_btree) (m : gmap bytes bytes) (k v : bytes)
    (e : sdb_status) (pager : P) :
  tree_is tree m -> sdb_btree_put tree k v = (e, pager) -> e <> SDB_OK ->
  tree_is (with_pager tree pager) m \/ exists txn, txn_commit txn = (Err e, pager).
Proof. intros Ht; apply one_operation_fails; [done|apply steady_put]. Qed.

(** A failing delete leaves the committed map as it was, however far the
    merging of pages had come, unless it is the transaction commit itself that
    reported the failure. *)
Theorem btree_delete_failure_harmless (tree : sdb_btree) (m : gmap bytes bytes) (k : bytes)
    (e : sdb_status) (pager : P) :
  tree_is tree m -> sdb_btree_delete tree k = (e, pager) -> e <> SDB_OK ->
  tree_is (with_pager tree pager) m \/ exists txn, txn_commit txn = (Err e, pager).
Proof. intros Ht; apply one_operation_fails; [done|apply steady_delete]. Qed.
End Map.

(** ** Examples: a tree in a memory store *)

Definition example_root : bytes :=
  match sdb_btree_node_encode (leaf_node 0 []) 4064 with Ok payload => payload | Err _ => [] end.

Definition example_tree : sdb_btree :=
  {| t_pager := example_pager example_root; t_root_page := 1; t_open := true |}.

Lemma example_tree_is : tree_is example_tree ∅.
Proof.
  exists (PLeaf 1 0 []), 0%nat; split; [|done]; split; try done.
  - apply example_pager_good.
  - apply repr_kids; [vm_compute; reflexivity|done].
  - split; constructor.
  - by apply NoDup_singleton.
  - constructor; [|constructor]; split; [cbn; lia|]; intros fl Hc; inversion Hc; subst; [apply not_elem_of_nil|done].
Qed.

Definition key_a : bytes := byte.of_Z <$> [97].
Definition key_b : bytes := byte.of_Z <$> [98].
Definition val_1 : bytes := byte.of_Z <$> [49].

(** The tree after [put a 1]. *)
Definition example_tree_a : sdb_btree := with_pager example_tree (sdb_btree_put example_tree key_a val_1).2.

Lemma run_fst {A B} (x : A * B) (a : A) : x.1 = a -> x = (a, x.2).
Proof. destruct x; cbn; by intros ->. Qed.

Lemma btree_put_commits_witness : tree_is example_tree_a {[ key_a := val_1 ]}.
Proof.
  apply (btree_put_commits example_tree ∅ key_a val_1); [apply example_tree_is| |vm_compute; reflexivity].
  apply run_fst; vm_compute; reflexivity.
Defined.

Lemma example_tree_a_is : tree_is example_tree_a {[ key_a := val_1 ]}.
Proof.
  eapply (one_operation_is example_tree (sdb_btree_batch_put key_a val_1) ∅);
    [apply example_tree_is|apply steady_put| | |vm_compute; reflexivity].
  - intros b b' Hb Hput; by apply put_ok_is.
  - apply run_fst; vm_compute; reflexivity.
Qed.

Lemma btree_get_correct_witness :
  sdb_btree_get example_tree_a key_a 100 = Ok val_1 /\ sdb_btree_get example_tree_a key_b 100 = Err SDB_E_NOT_FOUND.
Proof.
  split; [rewrite (btree_get_correct example_tree_a {[ key_a := val_1 ]} key_a 100)
         |rewrite (btree_get_correct example_tree_a {[ key_a := val_1 ]} key_b 100)];
    try apply example_tree_a_is; vm_compute; reflexivity.
Defined.

Lemma btree_delete_commits_witness :
  tree_is (with_pager example_tree_a (sdb_btree_delete example_tree_a key_a).2) (delete key_a {[ key_a := val_1 ]}).
Proof.
  apply (btree_delete_commits example_tree_a {[ key_a := val_1 ]} key_a);
    [apply example_tree_a_is|apply run_fst; vm_compute; reflexivity|vm_compute; reflexivity].
Defined.

Lemma btree_delete_absent_witness :
  exists pager, sdb_btree_delete example_tree_a key_b = (SDB_E_NOT_FOUND, pager)
    /\ tree_is (with_pager example_tree_a pager) {[ key_a := val_1 ]}.
Proof.
  destruct (txn_begin (t_pager example_tree_a)) as [t|e] eqn:E; [|vm_compute in E; discriminate E].
  apply (btree_delete_absent example_tree_a {[ key_a := val_1 ]} key_b t);
    [apply example_tree_a_is|exact E|reflexivity|vm_compute; reflexivity].
Defined.

(** A value that no page can hold: the put is refused. *)
Lemma btree_put_failure_harmless_witness :
  (sdb_btree_put example_tree_a key_b (repeat x00 (Z.to_nat 5000))).1 = SDB_E_BUFFER_TOO_SMALL
  /\ (tree_is (with_pager example_tree_a (sdb_btree_put example_tree_a key_b (repeat x00 (Z.to_nat 5000))).2)
        {[ key_a := val_1 ]}
      \/ exists txn, txn_commit txn
           = (Err SDB_E_BUFFER_TOO_SMALL, (sdb_btree_put example_tree_a key_b (repeat x00 (Z.to_nat 5000))).2)).
Proof.
  assert (E : (sdb_btree_put example_tree_a key_b (repeat x00 (Z.to_nat 5000))).1 = SDB_E_BUFFER_TOO_SMALL)
    by (vm_compute; reflexivity).
  split; [exact E|].
  apply (btree_put_failure_harmless example_tree_a {[ key_a := val_1 ]} key_b (repeat x00 (Z.to_nat 5000)));
    [apply example_tree_a_is|by apply run_fst|discriminate].
Defined.

Lemma btree_delete_failure_harmless_witness :
  tree_is (with_pager example_tree_a (sdb_btree_delete example_tree_a key_b).2) {[ key_a := val_1 ]}
  \/ exists txn, txn_commit txn = (Err SDB_E_NOT_FOUND, (sdb_btree_delete example_tree_a key_b).2).
Proof.
  apply (btree_delete_failure_harmless example_tree_a {[ key_a := val_1 ]} key_b);
    [apply example_tree_a_is|apply run_fst; vm_compute; reflexivity|discriminate].
Defined.

(** A batch on the example tree. *)
Lemma batch_refines_map_witness :
  exists b, sdb_btree_batch_begin example_tree = Ok b
  /\ let run := run_ops [OpPut key_a val_1; OpGet key_a 10; OpDelete key_b; OpDelete key_a; OpGet key_a 10] b in
     run.1 = [Ok []; Ok val_1; Err SDB_E_NOT_FOUND; Ok []; Err SDB_E_NOT_FOUND]
     /\ ((exists m', map_run ∅ [OpPut key_a val_1; OpGet key_a 10; OpDelete key_b; OpDelete key_a; OpGet key_a 10] run.1 m'
            /\ batch_is run.2 m') \/ poisoned run.2).
Proof.
  destruct (sdb_btree_batch_begin example_tree) as [b|e] eqn:E; [|vm_compute in E; discriminate E].
  exists b; split; [done|]; cbv zeta; split; [by vm_compute in E; injection E as <-; vm_compute|].
  destruct (begin_is example_tree b ∅ example_tree_is E) as (Hb & _).
  apply (batch_refines_map b _ ∅ _ _ Hb); apply surjective_pairing.
Defined.
