(* ===== verification/BtreeLive.v ===== *)
(** * A batch of small entries runs to its end

    The progress side of [BtreeMap]: on a well-formed tree whose entries take at
    most half a page, a batch of puts and deletes goes through and refines the
    finite map, unless a transaction on the committed state refuses a page.  The
    one refusal of the tree's own is a redistribution that overflows the parent;
    the last section reaches it from an empty database. *)

From stdpp Require Import gmap.
From S2P Require Import Prelude Status Codec Keys Page BtreePage OrderedMap PagerInterface BtreeNode BtreeTree Btree BtreeGet BtreeBatch BtreeInsert BtreePut BtreeContext BtreeReclaim BtreeDelete BtreeFit BtreeProgress BtreeDeleteProgress BtreeSteady Txn MemoryStore TxnLaws BtreeMap.

Section Live.
Context {P T : Type} `{!PagerOps P T} `{!PagerLaws P T}.

Implicit Types b : sdb_btree_batch (T := T).

(** Every node of the committed database takes at most a page, and its entries
    at most half of one. *)
Record tree_fits (capacity : Z) (tree : sdb_btree (P := P)) : Prop := {
  tf_capacity : pager_payload_capacity (t_pager tree) = capacity;
  tf_max : 20 <= capacity <= 65536;
  tf_nodes : forall p n, sdb_btree_read_node (t_pager tree) p = Ok n -> node_small capacity n
}.

(** What is put takes at most half a page. *)
Definition op_small (capacity : Z) (op : map_op) : Prop :=
  match op with OpPut k v => entry_small capacity (leaf_entry (k, v)) | _ => True end.

Definition is_delete (op : map_op) : bool := match op with OpDelete _ => true | _ => false end.

(** Why an operation may fail. *)
Definition refused (origin : P) (deletes : bool) (e : sdb_status) : Prop :=
  storage_failed (T := T) origin e \/ deletes = true /\ e = SDB_E_BUFFER_TOO_SMALL.

Lemma begin_fits (capacity : Z) (tree : sdb_btree) b :
  tree_fits capacity tree -> pager_ok (t_pager tree) -> sdb_btree_batch_begin tree = Ok b ->
  fits (t_pager tree) capacity b.
Proof.
  intros [Hc Hm Hn] Hk H; unfold sdb_btree_batch_begin in H; inv_ok H; injection H as <-.
  destruct (begin_law _ _ Hk Hbind) as (_ & Hp & _); split; cbn; try done.
  - unfold b_capacity; cbn; by rewrite Hp.
  - intros p n Hr; eapply (Hn p); by rewrite <- (read_node_eqv _ _ p Hp).
  - intros m n Hi; by apply elem_of_nil in Hi.
Qed.

(** What one operation achieves. *)
Definition op_outcome (capacity : Z) (origin : P) (m : gmap bytes bytes) (op : map_op) (r : result bytes) b' : Prop :=
  (exists m', map_step op m r m' /\ batch_is b' m' /\ fits origin capacity b')
  \/ poisoned b' /\ refused origin (is_delete op) (b_failure b').

Lemma put_outcome (capacity : Z) (origin : P) b b' (m : gmap bytes bytes) (k v : bytes) (r : result unit) :
  batch_is b m -> fits origin capacity b -> entry_small capacity (leaf_entry (k, v)) ->
  sdb_btree_batch_put k v b = (r, b') ->
  op_outcome capacity origin m (OpPut k v) ((fun _ => []) <$> r) b'.
Proof.
  intros Hb Hfit He H; pose proof (batch_put_is _ _ _ _ _ _ Hb H) as Hor; pose proof H as H0.
  unfold sdb_btree_batch_put in H0; pose proof Hb as (t & h & Hh & Hm & Ha & Hf).
  rewrite Ha, Hf, (bool_decide_eq_true_2 (SDB_OK = SDB_OK)) in H0 by done; cbn [negb orb] in H0.
  destruct (bad_key k || _) eqn:Ek.
  { injection H0 as <- <-; left; exists m; cbn [map_step]; by rewrite Ek. }
  pose proof (put_progress origin (refused origin false) (fun e He => or_introl He) capacity k v t h b
    Hh Hfit Ha Hf Ek He) as Hp; rewrite H in Hp; destruct r as [[]|e]; cbn in Hp.
  - left; destruct Hor as [(m' & Hst & Hb')|Hpo]; [by exists m'|].
    destruct Hpo; by destruct (batch_put_holds b b' t h k v Hh H) as (? & ? & _ & _ & _ & _ & Hf').
  - right; destruct Hor as [(m' & Hst & _)|Hpo]; [cbn [map_step] in Hst; rewrite Ek in Hst; by destruct Hst|].
    split; [done|]; by rewrite (sticky_failure _ _ _ _ H0).
Qed.

Lemma delete_outcome (capacity : Z) (origin : P) b b' (m : gmap bytes bytes) (k : bytes) (r : result unit) :
  batch_is b m -> fits origin capacity b -> sdb_btree_batch_delete k b = (r, b') ->
  op_outcome capacity origin m (OpDelete k) ((fun _ => []) <$> r) b'.
Proof.
  intros Hb Hfit H; destruct (bad_key k) eqn:Ek.
  { rewrite (delete_guard b m) in H by done; injection H as <- <-; left; exists m; cbn [map_step]; by rewrite Ek. }
  destruct (m !! k) as [v|] eqn:Em; cycle 1.
  { rewrite (delete_missing b m) in H by done; injection H as <- <-; left; exists m; cbn [map_step]; by rewrite Ek, Em. }
  pose proof (batch_delete_is _ _ _ _ _ Hb H) as Hor; destruct Hb as (t & h & Hh & Hm & Ha & Hf).
  assert (Hl : is_Some (al_lookup k (flatten t))) by (rewrite al_lookup_contents; unfold tree_contents in Hm; by rewrite Hm, Em).
  pose proof (delete_progress origin (refused origin true) (fun e He => or_introl He) (or_intror (conj eq_refl eq_refl))
    capacity k t h b Hh Hfit Ha Hf Ek Hl) as Hp; rewrite H in Hp; destruct r as [[]|e]; cbn in Hp.
  - left; destruct Hor as [(m' & Hst & Hb')|Hpo]; [by exists m'|].
    destruct Hpo; by destruct (batch_delete_holds b b' t h k Hh H) as (_ & ? & ? & _ & _ & _ & Hf').
  - right; destruct Hor as [(m' & Hst & _)|Hpo]; [cbn [map_step] in Hst; rewrite Ek, Em in Hst; by destruct Hst|].
    split; [done|]; unfold sdb_btree_batch_delete in H.
    rewrite Ek, Ha, Hf, (bool_decide_eq_true_2 (SDB_OK = SDB_OK)) in H by done; cbn [negb orb] in H.
    destruct (sticky _ b) as [[[]|e'] b2] eqn:Est; try done; injection H as <- <-; [|by rewrite (sticky_failure _ _ _ _ Est)].
    unfold sticky in Est; destruct (delete_loop _ _ _ _ _) as [[[]|?] ?] eqn:Ed; try done; injection Est as ->.
    rewrite <- (bh_root _ _ _ Hh) in Ed; by apply (delete_loop_found _ _ t h) in Ed.
Qed.

Lemma op_progress (capacity : Z) (origin : P) b b' (m : gmap bytes bytes) (op : map_op) (r : result bytes) :
  batch_is b m -> fits origin capacity b -> op_small capacity op -> run_op op b = (r, b') ->
  op_outcome capacity origin m op r b'.
Proof.
  intros Hb Hf Hs H; destruct op as [k c|k v|k]; cbn [run_op] in H.
  - injection H as <- <-; left; exists m; split_and!; [|done|done]; split; [by apply batch_get_is|done].
  - destruct (sdb_btree_batch_put k v b) as [r0 b0] eqn:E; injection H as <- <-; by eapply put_outcome.
  - destruct (sdb_btree_batch_delete k b) as [r0 b0] eqn:E; injection H as <- <-; by eapply delete_outcome.
Qed.

Lemma ops_progress (capacity : Z) (origin : P) (ops : list map_op) b b' (m : gmap bytes bytes) (rs : list (result bytes)) :
  batch_is b m -> fits origin capacity b -> Forall (op_small capacity) ops -> run_ops ops b = (rs, b') ->
  (exists m', map_run m ops rs m' /\ batch_is b' m')
  \/ poisoned b' /\ refused origin (existsb is_delete ops) (b_failure b').
Proof.
  revert b m rs; induction ops as [|op ops IH]; intros b m rs Hb Hf Hs H; cbn [run_ops] in H.
  { injection H as <- <-; left; exists m; split; [constructor|done]. }
  destruct (run_op op b) as [r b1] eqn:E1; destruct (run_ops ops b1) as [rs1 b2] eqn:E2; injection H as <- <-.
  apply Forall_cons_iff in Hs as [Hop Hs]; cbn [existsb]; unfold refused in *.
  destruct (op_progress _ _ _ _ _ _ _ Hb Hf Hop E1) as [(m1 & Hst & Hb1 & Hf1)|[Hp Hr]].
  - destruct (IH _ _ _ Hb1 Hf1 Hs E2) as [(m' & Hrun & Hb')|[Hp Hr]]; [left; exists m'; split; [by econstructor|done]|].
    right; split; [done|]; destruct Hr as [Hr|[Hd Hr]]; [by left|right; by rewrite Hd, orb_true_r].
  - right; pose proof (run_ops_poisoned ops b1 Hp) as E; rewrite E2 in E; cbn [snd] in E; subst b2; split; [done|].
    destruct Hr as [Hr|[Hd Hr]]; [by left|right; by rewrite Hd].
Qed.

End Live.

(** ** Examples *)

Lemma example_tree_fits : tree_fits 4064 example_tree.
Proof.
  split; [reflexivity|lia|]; intros p n H.
  destruct (decide (p = 1)) as [->|Hp]; [vm_compute in H; injection H as <-; split; [by vm_compute|constructor]|].
  exfalso; assert (E : memory_read (pg_store (t_pager example_tree)) example_superblock false p = Err SDB_E_IO).
  { unfold memory_read, example_tree, example_pager; cbn [t_pager pg_store ms_pages]; by rewrite lookup_singleton_ne. }
  unfold sdb_btree_read_node in H; cbn in H; unfold sdb_pager_read, check in H; destruct (_ || _); [done|].
  cbn [store_read memory_page_store] in H; change (memory_read _ _ _ p) with (memory_read (pg_store (t_pager example_tree)) example_superblock false p) in H.
  by rewrite E in H.
Qed.

Definition filled (size : Z) (prefix : list Z) : bytes :=
  (byte.of_Z <$> prefix) ++ repeat x00 (Z.to_nat size - length prefix).

(** Eleven entries, each at most half a page. *)
Definition overflow_puts : list (bytes * bytes) :=
  [(filled 1 [17], filled 1007 []); (filled 2000 [236], []); (filled 1000 [235], filled 1016 []);
   (filled 2000 [19], []); (filled 2000 [69], filled 8 []); (filled 2000 [37], []); (filled 1000 [183], []);
   (filled 2000 [194], []); (filled 1000 [21], filled 1016 []); (filled 1000 [5], filled 508 []); (filled 2000 [8], [])].

Definition put_all (puts : list (bytes * bytes)) (tree : sdb_btree) : list sdb_status * sdb_btree :=
  foldl (fun '(statuses, tree) '(k, v) =>
    let '(status, pager) := sdb_btree_put tree k v in (statuses ++ [status], with_pager tree pager)) ([], tree) puts.

Definition overflow_key : bytes := filled 1000 [21].

(** C21: A delete of a present key can be refused for lack of room.  Eleven puts,
    none of more than half a page, succeed on an empty database; the key
    [overflow_key] is then found, and deleting it fails with
    [SDB_E_BUFFER_TOO_SMALL]: its leaf becomes empty, the internal nodes cannot be
    merged, and the redistribution puts a longer separator into a full parent. *)
Theorem delete_redistribution_overflows :
  let statuses := (put_all overflow_puts example_tree).1 in
  let tree := (put_all overflow_puts example_tree).2 in
  Forall (fun '(k, v) => entry_small 4064 (leaf_entry (k, v))) overflow_puts
  /\ statuses = repeat SDB_OK 11
  /\ sdb_btree_get tree overflow_key 4096 = Ok (filled 1016 [])
  /\ (sdb_btree_delete tree overflow_key).1 = SDB_E_BUFFER_TOO_SMALL.
Proof.
  split_and!; [|vm_compute; reflexivity..].
  repeat constructor; by vm_compute.
Qed.

