(* ===== verification/BtreeCursor.v ===== *)
(** * Cursors ([src/btree.h], [src/btree.c])

    A cursor holds a copy of a leaf, an index into it and the descent that led there.
    Forward steps follow the sibling links and remember the leaves they visited;
    backward steps use the descent.  A cursor points to its tree; the operations take
    the tree it points to, so that a change of the tree between two steps is seen. *)

From S2P Require Import Prelude Status Keys Page BtreePage OrderedMap PagerInterface BtreeNode Btree.

Section Cursor.
Context {P T : Type} `{!PagerOps P T}.

Record sdb_btree_cursor := {
  c_bound : bool; (* cursor->tree is not NULL *)
  c_leaf : sdb_btree_node;
  c_page_id : Z;
  c_index : nat;
  c_valid : bool;
  c_path : list path_entry; (* path[0 .. depth - 1] *)
  c_visited : list Z; (* forward_visited[0 .. forward_visited_count - 1] *)
  c_capacity : Z (* forward_visited_capacity *)
}.

(** A node of zero bytes: no entries, no sibling; its kind is never looked at. *)
Definition zero_node : sdb_btree_node :=
  {| n_kind := SDB_BTREE_LEAF; n_right_sibling := 0; n_first_child := 0; n_entries := [] |}.

Definition zero_cursor : sdb_btree_cursor :=
  {| c_bound := false; c_leaf := zero_node; c_page_id := 0; c_index := 0; c_valid := false;
     c_path := []; c_visited := []; c_capacity := 0 |}.

Definition set_valid (c : sdb_btree_cursor) (v : bool) : sdb_btree_cursor :=
  {| c_bound := c_bound c; c_leaf := c_leaf c; c_page_id := c_page_id c; c_index := c_index c; c_valid := v;
     c_path := c_path c; c_visited := c_visited c; c_capacity := c_capacity c |}.
Definition set_index (c : sdb_btree_cursor) (i : nat) : sdb_btree_cursor :=
  {| c_bound := c_bound c; c_leaf := c_leaf c; c_page_id := c_page_id c; c_index := i; c_valid := c_valid c;
     c_path := c_path c; c_visited := c_visited c; c_capacity := c_capacity c |}.
Definition set_leaf (c : sdb_btree_cursor) (leaf : sdb_btree_node) (page_id : Z) (i : nat) : sdb_btree_cursor :=
  {| c_bound := c_bound c; c_leaf := leaf; c_page_id := page_id; c_index := i; c_valid := c_valid c;
     c_path := c_path c; c_visited := c_visited c; c_capacity := c_capacity c |}.
Definition set_path (c : sdb_btree_cursor) (path : list path_entry) : sdb_btree_cursor :=
  {| c_bound := c_bound c; c_leaf := c_leaf c; c_page_id := c_page_id c; c_index := c_index c; c_valid := c_valid c;
     c_path := path; c_visited := c_visited c; c_capacity := c_capacity c |}.
Definition set_visited (c : sdb_btree_cursor) (visited : list Z) (capacity : Z) : sdb_btree_cursor :=
  {| c_bound := c_bound c; c_leaf := c_leaf c; c_page_id := c_page_id c; c_index := c_index c; c_valid := c_valid c;
     c_path := c_path c; c_visited := visited; c_capacity := capacity |}.
Definition set_bound (c : sdb_btree_cursor) : sdb_btree_cursor :=
  {| c_bound := true; c_leaf := c_leaf c; c_page_id := c_page_id c; c_index := c_index c; c_valid := c_valid c;
     c_path := c_path c; c_visited := c_visited c; c_capacity := c_capacity c |}.

(** A step returns a status and leaves the cursor. *)
Definition stepped : Type := result unit * sdb_btree_cursor.
Definition step_failed (e : sdb_status) (c : sdb_btree_cursor) : stepped := (Err e, set_valid c false).

(** ** Forward *)

(** The first entries of [forward_visited] are allocated by the first hop. *)
Definition start_visited (c : sdb_btree_cursor) : sdb_btree_cursor :=
  if (length (c_visited c) =? 0)%nat then set_visited c [c_page_id c] 8 else c.

(** Room for one more visited page: the capacity doubles when it is used up. *)
Definition grow_visited (c : sdb_btree_cursor) : result Z :=
  if Z.of_nat (length (c_visited c)) =? c_capacity c then
    fail_if c_capacity c >? SIZE_MAX / (2 * 8) with SDB_E_OVERFLOW ;;
    Ok (c_capacity c * 2)
  else Ok (c_capacity c).

(** The hops over empty leaves; [fuel] is [limit - hops]. *)
Fixpoint next_loop (fuel : nat) (pager : P) (c : sdb_btree_cursor) : stepped :=
  let sibling := n_right_sibling (c_leaf c) in
  if sibling =? 0 then (Ok tt, set_valid c false)
  else if existsb (fun p => p =? sibling) (c_visited c) then step_failed SDB_E_CORRUPT c
  else
    match fuel with
    | S ((S _) as fuel) =>
        match sdb_btree_read_node pager sibling with
        | Err e => step_failed e c
        | Ok next =>
            if negb (bool_decide (n_kind next = SDB_BTREE_LEAF)) then step_failed SDB_E_CORRUPT c
            else
              let c := set_leaf c next sibling 0 in
              match grow_visited c with
              | Err e => step_failed e c
              | Ok capacity =>
                  let c := set_visited c (c_visited c ++ [sibling]) capacity in
                  if negb (n_count next =? 0)%nat then (Ok tt, set_valid c true)
                  else next_loop fuel pager (set_valid c false)
              end
        end
    | _ => step_failed SDB_E_CORRUPT c
    end.

Definition sdb_btree_cursor_next (tree : sdb_btree (P := P)) (c : sdb_btree_cursor) : stepped :=
  if negb (c_bound c) then (Err SDB_E_INVALID_ARGUMENT, c)
  else
    let c := if c_valid c then set_index c (S (c_index c)) else c in
    if c_valid c && (c_index c <? n_count (c_leaf c))%nat then (Ok tt, c)
    else next_loop (Z.to_nat (pager_next_page_id (t_pager tree))) (t_pager tree) (start_visited c).

(** The loop of [sdb_btree_cursor_descend]; [fuel] is [64 - depth], and the descent is
    towards [key] when there is one. *)
Fixpoint descend_loop (fuel : nat) (tree : sdb_btree (P := P)) (key : option bytes) (advance_empty : bool)
    (page_id : Z) (c : sdb_btree_cursor) : stepped :=
  match fuel with
  | O => (Err SDB_E_CORRUPT, c)
  | S fuel =>
      match sdb_btree_read_node (t_pager tree) page_id with
      | Err e => (Err e, c)
      | Ok node =>
          match n_kind node with
          | SDB_BTREE_LEAF =>
              let position := match key with None => 0%nat | Some key => sdb_btree_lower_bound node key end in
              let c := set_bound (set_valid (set_leaf c node page_id position) (position <? n_count node)%nat) in
              if advance_empty && negb (c_valid c) && negb (n_right_sibling node =? 0)
              then sdb_btree_cursor_next tree c else (Ok tt, c)
          | SDB_BTREE_INTERNAL =>
              let position := match key with None => 0%nat | Some key => descend_index node key end in
              descend_loop fuel tree key advance_empty (sdb_btree_child_at node position)
                (set_path c (c_path c ++ [(page_id, position)]))
          end
      end
  end.

Definition sdb_btree_cursor_descend (tree : sdb_btree (P := P)) (key : option bytes) (advance_empty : bool)
    (c : sdb_btree_cursor) : stepped :=
  descend_loop SDB_BTREE_MAX_DEPTH tree key advance_empty (t_root_page tree) c.

(** The positioning calls reset the cursor; with a bad argument they leave it. *)
Definition sdb_btree_cursor_first (tree : sdb_btree (P := P)) (c : sdb_btree_cursor) : stepped :=
  if negb (t_open tree) then (Err SDB_E_INVALID_ARGUMENT, c)
  else sdb_btree_cursor_descend tree None true zero_cursor.

Definition sdb_btree_cursor_seek (tree : sdb_btree (P := P)) (key : bytes) (c : sdb_btree_cursor) : stepped :=
  if negb (t_open tree) || bad_key key then (Err SDB_E_INVALID_ARGUMENT, c)
  else sdb_btree_cursor_descend tree (Some key) true zero_cursor.

Definition sdb_btree_cursor_seek_floor (tree : sdb_btree (P := P)) (key : bytes) (c : sdb_btree_cursor) : stepped :=
  if negb (t_open tree) || bad_key key then (Err SDB_E_INVALID_ARGUMENT, c)
  else sdb_btree_cursor_descend tree (Some key) false zero_cursor.

(** ** Reading *)

Definition sdb_btree_cursor_read (c : sdb_btree_cursor) (key_capacity value_capacity : Z) : result (bytes * bytes) :=
  fail_if negb (c_valid c) || negb (c_index c <? n_count (c_leaf c))%nat with SDB_E_INVALID_ARGUMENT ;;
  let entry := n_entries (c_leaf c) !!! c_index c in
  fail_if (key_capacity <? Z.of_nat (length (e_key entry))) || (value_capacity <? Z.of_nat (length (e_value entry)))
    with SDB_E_BUFFER_TOO_SMALL ;;
  Ok (e_key entry, e_value entry).

(** ** Backward *)

(** [fuel] is [64 - cursor->depth]. *)
Fixpoint descend_last_loop (fuel : nat) (pager : P) (page_id : Z) (c : sdb_btree_cursor) : stepped :=
  match fuel with
  | O => step_failed SDB_E_CORRUPT c
  | S fuel =>
      match sdb_btree_read_node pager page_id with
      | Err e => step_failed e c
      | Ok node =>
          match n_kind node with
          | SDB_BTREE_LEAF =>
              (Ok tt, set_valid (set_leaf c node page_id (n_count node - 1)) (0 <? n_count node)%nat)
          | SDB_BTREE_INTERNAL =>
              descend_last_loop fuel pager (sdb_btree_child_at node (n_count node))
                (set_path c (c_path c ++ [(page_id, n_count node)]))
          end
      end
  end.

Definition sdb_btree_cursor_descend_last (tree : sdb_btree (P := P)) (page_id : Z) (c : sdb_btree_cursor) : stepped :=
  descend_last_loop (SDB_BTREE_MAX_DEPTH - length (c_path c)) (t_pager tree) page_id c.

Definition sdb_btree_cursor_last (tree : sdb_btree (P := P)) (c : sdb_btree_cursor) : stepped :=
  if negb (t_open tree) then (Err SDB_E_INVALID_ARGUMENT, c)
  else sdb_btree_cursor_descend_last tree (t_root_page tree) (set_bound zero_cursor).

(** The walk back up the path: [depth] levels of it are left. *)
Fixpoint prev_climb (depth : nat) (tree : sdb_btree (P := P)) (c : sdb_btree_cursor) : stepped :=
  match depth with
  | O => (Ok tt, set_valid (set_path c []) false)
  | S up =>
      let '(page_id, child_index) := c_path c !!! up in
      match child_index with
      | O => prev_climb up tree (set_path c (take up (c_path c)))
      | S new_index =>
          match sdb_btree_read_node (t_pager tree) page_id with
          | Err e => step_failed e c
          | Ok node =>
              let c := set_path c (take up (c_path c) ++ [(page_id, new_index)]) in
              sdb_btree_cursor_descend_last tree (sdb_btree_child_at node new_index)
                (set_leaf c zero_node (c_page_id c) (c_index c))
          end
      end
  end.

Definition sdb_btree_cursor_prev (tree : sdb_btree (P := P)) (c : sdb_btree_cursor) : stepped :=
  if negb (c_bound c) then (Err SDB_E_INVALID_ARGUMENT, c)
  else
    let c := set_visited c [] 0 in
    match c_index c with
    | S i => (Ok tt, set_valid (set_index c i) true)
    | O => prev_climb (length (c_path c)) tree c
    end.

Definition sdb_btree_cursor_close (c : sdb_btree_cursor) : sdb_btree_cursor := zero_cursor.

End Cursor.
