(* ===== verification/BtreeScan.v ===== *)
(** * Cursors walk the tree in key order

    [BtreeCursor]'s operations on a committed tree: from the first entry or from a
    sought key, reading and stepping forward yields the bindings of the map in key
    order; from the last entry or from below a sought key, stepping backward yields
    them in the reverse order.  Every call succeeds and every walk ends. *)

From stdpp Require Import gmap.
From S2P Require Import Prelude Status Codec Keys Page Superblock BtreePage OrderedMap PagerInterface BtreeNode BtreeTree Btree BtreeGet BtreeBatch BtreeInsert BtreePut BtreeContext BtreeReclaim BtreeDelete BtreeMap BtreeLive Txn MemoryStore TxnLaws BtreeCursor.

(** ** Leaves of a tree *)

Definition leaf_tree (x : Z * Z * list kv) : ptree := PLeaf (leaf_pid x) (leaf_sib x) x.2.

Lemma leaves_subtrees (t : ptree) : leaf_tree <$> leaves t `sublist_of` subtrees t.
Proof.
  induction t as [p s l|p ks cs IH] using ptree_ind'; [done|]; cbn [leaves subtrees]; apply sublist_cons.
  rewrite flat_map_fmap; induction IH as [|c cs Hc _ IH]; cbn [flat_map]; [done|]; by apply sublist_app.
Qed.

Lemma leaves_read (read : Z -> result sdb_btree_node) (t : ptree) :
  repr read t -> Forall (fun x => read (leaf_pid x) = Ok (leaf_node (leaf_sib x) x.2)) (leaves t).
Proof.
  intros Hr; unfold repr in Hr; rewrite List.Forall_forall in *; intros x Hx.
  apply (Hr (leaf_tree x)); apply list_elem_of_In; eapply elem_of_submseteq; [|apply sublist_submseteq, leaves_subtrees].
  apply list_elem_of_fmap; exists x; split; [done|by apply list_elem_of_In].
Qed.

Lemma leaves_sub_pids (t : ptree) : leaf_pid <$> leaves t `sublist_of` pids t.
Proof.
  assert (E : leaf_pid <$> leaves t = pid_of <$> (leaf_tree <$> leaves t)) by (by rewrite <- list_fmap_compose).
  rewrite E; unfold pids; clear E; induction (leaves_subtrees t); cbn; by constructor.
Qed.

Lemma existsb_page (p : Z) (l : list Z) : existsb (fun q => q =? p) l = bool_decide (p ∈ l).
Proof.
  case_bool_decide as Hp.
  - apply existsb_exists; exists p; split; [by apply list_elem_of_In|apply Z.eqb_refl].
  - apply not_true_iff_false; intros H; apply existsb_exists in H as (q & Hq & E); apply Z.eqb_eq in E; subst.
    by apply Hp, list_elem_of_In.
Qed.

(** ** Walks *)

Section Scan.
Context {P T : Type} `{!PagerOps P T} `{!PagerLaws P T}.
Context (tree : sdb_btree (P := P)) (t : ptree) (h : nat) (Hth : tree_holds tree t h).

Abbreviation rdc := (sdb_btree_read_node (t_pager tree)).

Lemma leaf_pids_nodup : NoDup (leaf_pid <$> leaves t).
Proof. eapply sublist_NoDup; [apply Hth|apply leaves_sub_pids]. Qed.

Lemma leaf_range (x : Z * Z * list kv) :
  x ∈ leaves t -> 0 < leaf_pid x < 2 ^ 52 /\ leaf_pid x < pager_next_page_id (t_pager tree).
Proof.
  intros Hx; assert (Hin : leaf_pid x ∈ pids t).
  { eapply elem_of_submseteq; [|apply sublist_submseteq, leaves_sub_pids]; by apply list_elem_of_fmap_2. }
  pose proof (th_use _ _ _ Hth) as Hu; rewrite List.Forall_forall in Hu.
  specialize (Hu _ (proj1 (list_elem_of_In _ _) Hin)).
  split; [eapply pager_range; [apply Hth|done]|eapply pager_end; [apply Hth|done]].
Qed.

Lemma leaf_read (x : Z * Z * list kv) : x ∈ leaves t -> rdc (leaf_pid x) = Ok (leaf_node (leaf_sib x) x.2).
Proof.
  intros Hx; pose proof (leaves_read _ _ (th_repr _ _ _ Hth)) as H; rewrite List.Forall_forall in H.
  by apply H, list_elem_of_In.
Qed.

(** The cursor is at index [i] of the leaf [x], between the leaves [ls1] and [ls2]. *)
Record at_leaf (c : sdb_btree_cursor) (ls1 : list (Z * Z * list kv)) (x : Z * Z * list kv)
    (ls2 : list (Z * Z * list kv)) : Prop := {
  al_leaves : leaves t = ls1 ++ x :: ls2;
  al_bound : c_bound c = true;
  al_node : c_leaf c = leaf_node (leaf_sib x) x.2;
  al_page : c_page_id c = leaf_pid x;
  al_index : (c_index c <= length x.2)%nat;
  al_seen : NoDup (c_visited c);
  al_behind : forall p, p ∈ c_visited c -> p ∈ leaf_pid <$> ls1 ++ [x]
}.

(** What a forward cursor has yet to deliver. *)
Definition ahead (c : sdb_btree_cursor) (x : Z * Z * list kv) (ls2 : list (Z * Z * list kv)) : list kv :=
  drop (c_index c) x.2 ++ concat (snd <$> ls2).

(** A forward cursor: it is valid at an entry, invalid at the end of a leaf. *)
Definition forward (c : sdb_btree_cursor) (rest : list kv) : Prop :=
  exists ls1 x ls2, at_leaf c ls1 x ls2 /\ rest = ahead c x ls2
    /\ c_valid c = (c_index c <? length x.2)%nat.

(** A positioned cursor is invalid only at the end. *)
Definition settled (c : sdb_btree_cursor) (rest : list kv) : Prop := c_valid c = false -> rest = [].

Lemma behind_range (ls1 : list (Z * Z * list kv)) (x : Z * Z * list kv) (ls2 : list (Z * Z * list kv)) (seen : list Z) :
  leaves t = ls1 ++ x :: ls2 -> NoDup seen -> (forall p, p ∈ seen -> p ∈ leaf_pid <$> ls1 ++ [x]) ->
  Z.of_nat (length seen) <= 2 ^ 52.
Proof.
  intros E Hn Hb; apply NoDup_range_length; [lia|done|]; rewrite List.Forall_forall; intros p Hp.
  apply list_elem_of_In, Hb, list_elem_of_fmap in Hp as (y & -> & Hy).
  assert (Hin : y ∈ leaves t) by (rewrite E; apply elem_of_app in Hy; rewrite elem_of_app, elem_of_cons; set_solver).
  apply leaf_range in Hin; lia.
Qed.

(** ** Forward steps *)

Lemma next_sibling (c : sdb_btree_cursor) (ls1 ls2 : list (Z * Z * list kv)) (x : Z * Z * list kv) :
  at_leaf c ls1 x ls2 -> n_right_sibling (c_leaf c) = first_pid ls2 0.
Proof.
  intros [E _ -> _ _ _ _]; pose proof (th_chain _ _ _ Hth) as Hc; rewrite E, sib_chain_app in Hc.
  destruct Hc as [_ [Hc _]]; exact Hc.
Qed.

Lemma grow_visited_ok (c : sdb_btree_cursor) :
  Z.of_nat (length (c_visited c)) <= 2 ^ 52 -> exists capacity, grow_visited c = Ok capacity.
Proof.
  intros Hl; unfold grow_visited; destruct (Z.eqb_spec (Z.of_nat (length (c_visited c))) (c_capacity c)) as [E|]; [|by eexists].
  change (SIZE_MAX / (2 * 8)) with 1152921504606846975; unfold check.
  destruct (Z.gtb_spec (c_capacity c) 1152921504606846975); [lia|by eexists].
Qed.

(** The cursor after a hop to the next leaf. *)
Definition hopped (c : sdb_btree_cursor) (y : Z * Z * list kv) (capacity : Z) (valid : bool) : sdb_btree_cursor :=
  set_valid (set_visited (set_leaf c (leaf_node (leaf_sib y) y.2) (leaf_pid y) 0) (c_visited c ++ [leaf_pid y]) capacity) valid.

Lemma hop_at (c : sdb_btree_cursor) (ls1 ls2 : list (Z * Z * list kv)) (x y : Z * Z * list kv) (capacity : Z) (valid : bool) :
  at_leaf c ls1 x (y :: ls2) -> at_leaf (hopped c y capacity valid) (ls1 ++ [x]) y ls2 /\ leaf_pid y ∉ c_visited c.
Proof.
  intros [E Hb Hn Hp Hi Hs Hbe]; assert (Hy : leaf_pid y ∉ c_visited c).
  { intros Hin; apply Hbe in Hin; pose proof leaf_pids_nodup as Hnd; rewrite E in Hnd.
    replace (ls1 ++ x :: y :: ls2) with ((ls1 ++ [x]) ++ y :: ls2) in Hnd by (by rewrite <- app_assoc).
    rewrite fmap_app, fmap_cons, list.NoDup_app in Hnd; destruct Hnd as (_ & Hd & _); apply (Hd _ Hin); left. }
  split; [|done]; split; cbn; [by rewrite <- app_assoc|done|done|done|lia| |].
  - apply list.NoDup_app; split_and!; [done| |by apply NoDup_singleton]; intros p Hp' Hin.
    apply list_elem_of_singleton in Hin; by subst.
  - intros p Hin; apply elem_of_app in Hin as [Hin|Hin]; rewrite fmap_app, elem_of_app; [left; by apply Hbe|right].
    by apply list_elem_of_singleton in Hin as ->; left.
Qed.

Lemma next_loop_spec (ls2 : list (Z * Z * list kv)) :
  forall fuel c ls1 x, at_leaf c ls1 x ls2 -> c_index c = length x.2 ->
  (length ls2 < fuel)%nat ->
  exists c', next_loop fuel (t_pager tree) c = (Ok tt, c') /\ forward c' (concat (snd <$> ls2))
    /\ settled c' (concat (snd <$> ls2)).
Proof.
  induction ls2 as [|y ls2 IH]; intros fuel c ls1 x Hat Hi Hf.
  - exists (set_valid c false); unfold next_loop; destruct fuel; [lia|]; rewrite (next_sibling _ _ _ _ Hat); cbn [first_pid].
    rewrite Z.eqb_refl; split_and!; [done| |done]; exists ls1, x, []; split_and!; [by destruct Hat| |].
    + unfold ahead; cbn [set_valid c_index]; by rewrite Hi, drop_all.
    + cbn [set_valid c_valid c_index]; rewrite Hi; symmetry; apply Nat.ltb_irrefl.
  - destruct fuel as [|[|fuel]]; [cbn in Hf; lia..|]; pose proof (next_sibling _ _ _ _ Hat) as Hsib; cbn [first_pid] in Hsib.
    assert (Hin : y ∈ leaves t) by (rewrite (al_leaves _ _ _ _ Hat), elem_of_app, !elem_of_cons; tauto).
    pose proof (leaf_range y Hin) as [Hr _]; pose proof (behind_range _ _ _ _ (al_leaves _ _ _ _ Hat) (al_seen _ _ _ _ Hat) (al_behind _ _ _ _ Hat)).
    destruct (grow_visited_ok (set_leaf c (leaf_node (leaf_sib y) y.2) (leaf_pid y) 0)) as [capacity Hcap]; [done|].
    destruct (hop_at c ls1 ls2 x y capacity (negb (length y.2 =? 0)%nat) Hat) as [Hat' Hnew].
    cbn [next_loop]; rewrite Hsib; destruct (Z.eqb_spec (leaf_pid y) 0); [lia|].
    rewrite existsb_page, bool_decide_eq_false_2 by done.
    rewrite (leaf_read y Hin); cbn [leaf_node n_kind]; rewrite bool_decide_eq_true_2 by done; cbn [negb].
    fold (leaf_node (leaf_sib y) y.2); rewrite Hcap; change (n_count (leaf_node (leaf_sib y) y.2)) with (length (leaf_entry <$> y.2)).
    rewrite length_fmap; destruct (Nat.eqb_spec (length y.2) 0) as [E0|E0]; cbn [negb] in *.
    + apply (IH (S fuel)) in Hat'; [|by cbn; rewrite E0|cbn in Hf; lia].
      assert (Ec : concat (snd <$> y :: ls2) = concat (snd <$> ls2)) by (by apply nil_length_inv in E0; cbn; rewrite E0).
      rewrite Ec; exact Hat'.
    + eexists; split; [done|]; split; [|done]; eexists _, _, _; split; [exact Hat'|]; split; [done|].
      symmetry; apply Nat.ltb_lt; cbn; lia.
Qed.

Lemma start_at (c : sdb_btree_cursor) (ls1 ls2 : list (Z * Z * list kv)) (x : Z * Z * list kv) :
  at_leaf c ls1 x ls2 -> at_leaf (start_visited c) ls1 x ls2 /\ c_index (start_visited c) = c_index c.
Proof.
  intros [E Hb Hn Hp Hi Hs Hbe]; unfold start_visited; destruct (length (c_visited c) =? 0)%nat; [|done].
  split; [|done]; split; try done; cbn; [by apply NoDup_singleton|]; intros p Hin; apply list_elem_of_singleton in Hin as ->.
  rewrite fmap_app, elem_of_app; right; rewrite Hp; left.
Qed.

Lemma chain_room (ls1 ls2 : list (Z * Z * list kv)) (x : Z * Z * list kv) :
  leaves t = ls1 ++ x :: ls2 -> (length ls2 < Z.to_nat (pager_next_page_id (t_pager tree)))%nat.
Proof.
  intros E; assert (Hn : NoDup (leaf_pid <$> x :: ls2)).
  { pose proof leaf_pids_nodup as Hn; rewrite E, fmap_app, list.NoDup_app in Hn; apply Hn. }
  assert (Hx : x ∈ leaves t) by (rewrite E, elem_of_app, elem_of_cons; tauto).
  pose proof (leaf_range x Hx); apply (NoDup_range_length _ (pager_next_page_id (t_pager tree))) in Hn; [|lia|].
  - rewrite length_fmap in Hn; cbn [length] in Hn; lia.
  - rewrite List.Forall_forall; intros p Hp; apply list_elem_of_In, list_elem_of_fmap in Hp as (y & -> & Hy).
    assert (Hy' : y ∈ leaves t) by (rewrite E, elem_of_app; tauto); pose proof (leaf_range y Hy'); lia.
Qed.

Lemma next_spec (c : sdb_btree_cursor) (rest : list kv) :
  forward c rest ->
  exists c', sdb_btree_cursor_next tree c = (Ok tt, c')
    /\ let rest' := if c_valid c then tail rest else rest in forward c' rest' /\ settled c' rest'.
Proof.
  intros (ls1 & x & ls2 & Hat & -> & Hv); unfold sdb_btree_cursor_next; rewrite (al_bound _ _ _ _ Hat); cbn [negb].
  set (c1 := if c_valid c then set_index c (S (c_index c)) else c).
  assert (Hi : c_index c1 = if c_valid c then S (c_index c) else c_index c) by (subst c1; by destruct (c_valid c)).
  assert (Hv1 : c_valid c1 = c_valid c) by (subst c1; by destruct (c_valid c) eqn:Ev; rewrite ?Ev).
  assert (Hat1 : at_leaf c1 ls1 x ls2).
  { subst c1; destruct (c_valid c) eqn:Ev; [|done]; destruct Hat; split; try done; cbn.
    symmetry in Hv; apply Nat.ltb_lt in Hv; lia. }
  assert (Hrest : (if c_valid c then tail (ahead c x ls2) else ahead c x ls2) = ahead c1 x ls2).
  { unfold ahead; rewrite Hi; destruct (c_valid c); [|done]; symmetry in Hv; apply Nat.ltb_lt in Hv.
    by destruct (lookup_lt_is_Some_2 _ _ Hv) as [e He]; rewrite (drop_S _ _ _ He). }
  cbv zeta; rewrite Hrest; rewrite Hv1, (al_node _ _ _ _ Hat1).
  change (n_count (leaf_node (leaf_sib x) x.2)) with (length (leaf_entry <$> x.2)); rewrite length_fmap.
  destruct (c_valid c && (c_index c1 <? length x.2)%nat) eqn:Eb.
  - apply andb_prop in Eb as [Ev Ei]; exists c1; split_and!; [done| |unfold settled; congruence].
    exists ls1, x, ls2; split_and!; [done|done|congruence].
  - assert (Hend : c_index c1 = length x.2).
    { pose proof (al_index _ _ _ _ Hat1); apply andb_false_iff in Eb as [Ev|Ei]; [|apply Nat.ltb_ge in Ei; lia].
      rewrite Ev in Hi; rewrite Hi; rewrite Ev in Hv; symmetry in Hv; apply Nat.ltb_ge in Hv; lia. }
    destruct (start_at _ _ _ _ Hat1) as [Hat2 Hi2].
    destruct (next_loop_spec ls2 (Z.to_nat (pager_next_page_id (t_pager tree))) _ _ _ Hat2) as (c' & Hrun & Hfw & Hse);
      [by rewrite Hi2|eapply chain_room; apply Hat2|].
    exists c'; split; [done|]; unfold ahead; rewrite Hend, drop_all; done.
Qed.

(** What reading a binding with the given buffers returns. *)
Definition read_result (e : kv) (key_capacity value_capacity : Z) : result (bytes * bytes) :=
  if (key_capacity <? Z.of_nat (length e.1)) || (value_capacity <? Z.of_nat (length e.2))
  then Err SDB_E_BUFFER_TOO_SMALL else Ok e.

Lemma read_spec (c : sdb_btree_cursor) (kc vc : Z) (s : Z) (l : list kv) (e : kv) :
  c_leaf c = leaf_node s l -> l !! c_index c = Some e -> c_valid c = true ->
  sdb_btree_cursor_read c kc vc = read_result e kc vc.
Proof.
  intros Hl He Hv; unfold sdb_btree_cursor_read; rewrite Hv, Hl.
  change (n_count (leaf_node s l)) with (length (leaf_entry <$> l)); rewrite length_fmap.
  rewrite (proj2 (Nat.ltb_lt _ _)) by (by eapply lookup_lt_Some); cbn [negb orb check].
  assert (E : n_entries (leaf_node s l) !!! c_index c = leaf_entry e).
  { apply list_lookup_total_correct; cbn [leaf_node n_entries]; by rewrite list_lookup_fmap, He. }
  rewrite E; cbn [leaf_entry e_key e_value]; unfold read_result, check; destruct (_ || _); [done|]; by destruct e.
Qed.

Lemma forward_read (c : sdb_btree_cursor) (kc vc : Z) (rest : list kv) :
  forward c rest -> c_valid c = true ->
  exists e rest', rest = e :: rest' /\ sdb_btree_cursor_read c kc vc = read_result e kc vc.
Proof.
  intros (ls1 & x & ls2 & Hat & -> & Hv) Hv1; rewrite Hv1 in Hv; symmetry in Hv; apply Nat.ltb_lt in Hv.
  destruct (lookup_lt_is_Some_2 _ _ Hv) as [e He]; exists e; unfold ahead; rewrite (drop_S _ _ _ He).
  eexists; split; [done|]; eapply read_spec; [apply Hat|done|done].
Qed.

(** ** Descents *)

Definition before (fs : list frame) : list kv := concat (snd <$> left_leaves fs).
Definition after (fs : list frame) : list kv := concat (snd <$> right_leaves fs).

Lemma concat_flatten (cs : list ptree) : concat (snd <$> flat_map leaves cs) = flat_map flatten cs.
Proof. induction cs as [|c cs IH]; cbn [flat_map]; [done|]; by rewrite fmap_app, concat_app, IH, <- flatten_leaves. Qed.

Lemma before_snoc (fs : list frame) (f : frame) : before (fs ++ [f]) = before fs ++ flat_map flatten (fr_cs1 f).
Proof.
  unfold before; rewrite left_leaves_app, fmap_app, concat_app; f_equal.
  unfold left_leaves; cbn [flat_map]; rewrite app_nil_r; apply concat_flatten.
Qed.

Lemma after_snoc (fs : list frame) (f : frame) : after (fs ++ [f]) = flat_map flatten (fr_cs2 f) ++ after fs.
Proof.
  unfold after; rewrite right_leaves_app, fmap_app, concat_app; f_equal.
  unfold right_leaves; cbn [rev app flat_map]; rewrite app_nil_r; apply concat_flatten.
Qed.

Lemma plug_before_after (fs : list frame) (sub : ptree) : flatten (plug fs sub) = before fs ++ flatten sub ++ after fs.
Proof. by rewrite flatten_leaves, plug_leaves, !fmap_app, !concat_app, <- flatten_leaves. Qed.

(** The entries a descent towards [key] has on its two sides. *)
Definition parted (key : option bytes) (l1 l2 : list kv) : Prop :=
  match key with
  | None => l1 = []
  | Some k => Forall (fun x => key_lt x k) l1.*1 /\ Forall (key_le k) l2.*1
  end.

Lemma parted_app (key : option bytes) (l1 l1' l2 l2' : list kv) :
  parted key l1 l2 -> parted key l1' l2' -> parted key (l1 ++ l1') (l2' ++ l2).
Proof.
  destruct key as [k|]; cbn [parted]; [|by intros -> ->].
  intros [H1 H2] [H3 H4]; rewrite !fmap_app; split; apply Forall_app; done.
Qed.

(** The position in a leaf and the child of a node a descent takes. *)
Definition leaf_position (node : sdb_btree_node) (key : option bytes) : nat :=
  match key with None => 0 | Some key => sdb_btree_lower_bound node key end.
Definition child_position (node : sdb_btree_node) (key : option bytes) : nat :=
  match key with None => 0 | Some key => descend_index node key end.

Lemma leaf_position_spec (s : Z) (l : list kv) (key : option bytes) :
  key_sorted l -> let i := leaf_position (leaf_node s l) key in
  (i <= length l)%nat /\ parted key (take i l) (drop i l).
Proof.
  intros Hs; destruct key as [k|]; cbn [leaf_position parted]; [|split; [lia|done]].
  assert (Hk : keys_sorted (n_entries (leaf_node s l))) by (unfold keys_sorted; cbn; by rewrite leaf_entry_keys).
  pose proof (lower_bound_cut (leaf_node s l) k Hk) as Hc; cbn [leaf_node n_entries] in Hc; rewrite leaf_entry_keys in Hc.
  fold (leaf_node s l) in Hc; pose proof (cut_split _ _ _ Hc); destruct Hc as [Hl _]; by rewrite length_fmap in Hl.
Qed.

Lemma child_position_spec (key : option bytes) (h' : nat) (lo hi : option bytes) (p : Z) (ks : list bytes) (cs : list ptree) :
  wf_tree (S h') lo hi (PNode p ks cs) -> (forall k, key = Some k -> within lo hi k) ->
  exists f c lo' hi', PNode p ks cs = plug1 f c /\ wf_tree h' lo' hi' c /\ (forall k, key = Some k -> within lo' hi' k)
    /\ parted key (flat_map flatten (fr_cs1 f)) (flat_map flatten (fr_cs2 f))
    /\ fr_pid f = p /\ child_position (internal_node (pid_of <$> cs) ks) key = length (fr_cs1 f)
    /\ sdb_btree_child_at (internal_node (pid_of <$> cs) ks) (length (fr_cs1 f)) = pid_of c.
Proof.
  intros Hwf Hin; destruct key as [k|].
  - destruct (descend_focus _ _ _ _ _ _ k Hwf (Hin k eq_refl)) as (ks1 & ks2 & cs1 & c & cs2 & [E1 E2 Hl _ Hc _ Hw _ _ Hb Ha] & Hi & Hp).
    exists {| fr_pid := p; fr_ks1 := ks1; fr_ks2 := ks2; fr_cs1 := cs1; fr_cs2 := cs2 |}, c, (last_or lo ks1), (head_or hi ks2).
    unfold plug1; cbn; rewrite <- E1, <- E2; split_and!; try done; [by intros k0 [= <-]|].
    eapply Forall_impl; [|exact Ha]; intros x; apply key_lt_le.
  - destruct Hwf as (_ & _ & _ & Hk); pose proof (kids_length _ _ _ _ _ Hk) as Hl; destruct cs as [|c cs]; [done|].
    pose proof Hk as Hk0; change ks with ([] ++ ks) in Hk; change (c :: cs) with ([] ++ c :: cs) in Hk.
    rewrite kids_zip in Hk by done; destruct Hk as (_ & Hc & _).
    exists {| fr_pid := p; fr_ks1 := []; fr_ks2 := ks; fr_cs1 := []; fr_cs2 := cs |}, c, lo, (head_or hi ks).
    split_and!; try done.
Qed.

Lemma descend_loop_spec (key : option bytes) (adv : bool) (h' : nat) :
  forall fuel fs (sub : ptree) lo hi c, wf_tree h' lo hi sub -> (forall k, key = Some k -> within lo hi k) ->
  t = plug fs sub -> parted key (before fs) (after fs) -> (h' < fuel)%nat ->
  c_path c = (frame_path <$> fs) -> c_visited c = [] ->
  exists gs x c1, t = plug gs (leaf_tree x) /\ c_path c1 = (frame_path <$> gs)
    /\ at_leaf c1 (left_leaves gs) x (right_leaves gs) /\ c_valid c1 = (c_index c1 <? length x.2)%nat
    /\ parted key (before gs ++ take (c_index c1) x.2) (drop (c_index c1) x.2 ++ after gs)
    /\ descend_loop fuel tree key adv (pid_of sub) c
       = if adv && negb (c_valid c1) && negb (leaf_sib x =? 0) then sdb_btree_cursor_next tree c1 else (Ok tt, c1).
Proof.
  induction h' as [|h' IH]; intros [|fuel] fs [p s l|p ks cs] lo hi c Hwf Hin Et Hpa Hf Hc Hvi; try done; try lia;
    pose proof (th_repr _ _ _ Hth) as Hr; rewrite Et in Hr; apply plug_repr in Hr as [_ Hr]; apply repr_root in Hr;
    cbn [descend_loop]; rewrite Hr; cbn [pid_of node_of].
  - change (n_kind (leaf_node s l)) with SDB_BTREE_LEAF; cbn match; destruct Hwf as [Hs _].
    destruct (leaf_position_spec s l key Hs) as [Hi Hp]; fold (leaf_position (leaf_node s l) key).
    set (i := leaf_position (leaf_node s l) key) in *; eexists fs, (p, s, l), _; split_and!; [done| | | | |done]; cbn [c_path set_bound set_valid set_leaf c_index c_valid snd].
    + exact Hc.
    + split; cbn; try done; [by rewrite Et, plug_leaves|rewrite Hvi; constructor|rewrite Hvi; intros q Hq; by apply elem_of_nil in Hq].
    + unfold n_count; cbn [leaf_node n_entries]; by rewrite length_fmap.
    + by apply parted_app.
  - change (n_kind (internal_node _ _)) with SDB_BTREE_INTERNAL; cbn match; fold (child_position (internal_node (pid_of <$> cs) ks) key).
    destruct (child_position_spec key _ _ _ _ _ _ Hwf Hin) as (f & c0 & lo' & hi' & E & Hw' & Hin' & Hp' & Hpid & -> & ->).
    eapply (IH fuel (fs ++ [f])); [exact Hw'|exact Hin'| | |lia| |done].
    + by rewrite plug_app, Et, E.
    + rewrite before_snoc, after_snoc; by apply parted_app.
    + cbn [set_path c_path]; rewrite Hc, fmap_app; cbn [fmap list_fmap]; unfold frame_path at 3; by rewrite Hpid.
Qed.

(** A descent that moves on from the end of a leaf is a forward cursor. *)
Lemma descend_forward (key : option bytes) :
  exists c' l1 rest, sdb_btree_cursor_descend tree key true zero_cursor = (Ok tt, c')
    /\ flatten t = l1 ++ rest /\ parted key l1 rest /\ forward c' rest /\ settled c' rest.
Proof.
  assert (Hh : (h <= 52)%nat).
  { eapply height_range; [apply Hth|apply Hth|]; eapply Forall_impl; [|apply Hth]; intros q; apply pager_range, Hth. }
  destruct (descend_loop_spec key true h SDB_BTREE_MAX_DEPTH [] t None None zero_cursor) as (gs & x & c1 & Et & _ & Hat & Hv & Hp & Hrun);
    try done; [apply Hth|by destruct key|unfold SDB_BTREE_MAX_DEPTH; lia|].
  unfold sdb_btree_cursor_descend; rewrite <- (th_root _ _ _ Hth), Hrun; cbn [andb].
  assert (Hfw : forward c1 (ahead c1 x (right_leaves gs))) by (eexists _, _, _; split_and!; done).
  assert (Efl : flatten t = (before gs ++ take (c_index c1) x.2) ++ ahead c1 x (right_leaves gs)).
  { rewrite Et, plug_before_after; cbn [leaf_tree flatten]; unfold ahead; fold (after gs).
    rewrite <- app_assoc, (app_assoc (take _ _)), take_drop; done. }
  destruct (c_valid c1) eqn:Ev; cbn [negb andb].
  { eexists c1, _, _; split_and!; [done|exact Efl|exact Hp|done|unfold settled; congruence]. }
  destruct (Z.eqb_spec (leaf_sib x) 0) as [E0|E0]; cbn [negb].
  - eexists c1, _, _; split_and!; [done|exact Efl|exact Hp|done|]; intros _; unfold ahead.
    pose proof (next_sibling _ _ _ _ Hat) as Hs; rewrite (al_node _ _ _ _ Hat) in Hs; cbn [leaf_node n_right_sibling] in Hs.
    assert (En : right_leaves gs = []).
    { destruct (right_leaves gs) as [|y ls] eqn:Er; [done|]; exfalso; assert (Hy : y ∈ leaves t).
      { rewrite (al_leaves _ _ _ _ Hat), elem_of_app, !elem_of_cons; tauto. }
      apply leaf_range in Hy; cbn [first_pid] in Hs; lia. }
    rewrite En; symmetry in Hv; apply Nat.ltb_ge in Hv; by rewrite drop_ge.
  - destruct (next_spec c1 _ Hfw) as (c' & Hn & Hfw' & Hse'); rewrite Ev in Hfw', Hse'.
    eexists c', _, _; split_and!; [exact Hn|exact Efl|exact Hp|done|done].
Qed.

(** ** Backward steps *)

(** A backward cursor has the descent to its leaf as its path. *)
Definition backward (c : sdb_btree_cursor) (past : list kv) : Prop :=
  exists fs x, t = plug fs (leaf_tree x) /\ c_bound c = true /\ c_path c = (frame_path <$> fs)
    /\ c_leaf c = leaf_node (leaf_sib x) x.2 /\ (c_index c <= length x.2)%nat
    /\ past = before fs ++ take (c_index c) x.2.

Lemma kids_child Q (lo hi : option bytes) (ks : list bytes) (cs : list ptree) (c : ptree) :
  kids_ok Q lo hi ks cs -> c ∈ cs -> exists lo' hi', Q lo' hi' c.
Proof.
  revert lo cs; induction ks as [|k ks IH]; intros lo [|c1 cs]; cbn [kids_ok]; try done.
  - destruct cs; [|done]; intros Hq Hc; apply list_elem_of_singleton in Hc as ->; eauto.
  - intros [Hq Hk] Hc; apply elem_of_cons in Hc as [->|Hc]; eauto.
Qed.

Lemma plug_height (fs : list frame) (sub : ptree) : forall H lo hi,
  wf_tree H lo hi (plug fs sub) -> exists h' lo' hi', H = (length fs + h')%nat /\ wf_tree h' lo' hi' sub.
Proof.
  induction fs as [|f fs IH]; intros H lo hi; cbn [plug foldr length]; [by exists H, lo, hi|].
  fold (plug fs sub); destruct H as [|H]; [done|]; cbn [plug1 wf_tree]; intros (_ & _ & _ & Hk).
  destruct (kids_child _ _ _ _ _ (plug fs sub) Hk) as (lo1 & hi1 & Hc); [rewrite elem_of_app, elem_of_cons; tauto|].
  destruct (IH _ _ _ Hc) as (h' & lo' & hi' & -> & Hw); by exists h', lo', hi'.
Qed.

Lemma sub_height (fs : list frame) (sub : ptree) :
  t = plug fs sub -> exists h' lo hi, wf_tree h' lo hi sub /\ (h' < SDB_BTREE_MAX_DEPTH - length fs)%nat.
Proof.
  intros Et; pose proof (th_wf _ _ _ Hth) as Hw; rewrite Et in Hw; destruct (plug_height _ _ _ _ _ Hw) as (h' & lo & hi & Eh & Hs).
  exists h', lo, hi; split; [done|]; unfold SDB_BTREE_MAX_DEPTH.
  assert (Hh : (h <= 52)%nat); [|lia].
  eapply height_range; [apply Hth|apply Hth|]; eapply Forall_impl; [|apply Hth]; intros q; apply pager_range, Hth.
Qed.

Lemma descend_last_spec (h' : nat) : forall fuel fs (sub : ptree) lo hi c,
  wf_tree h' lo hi sub -> t = plug fs sub -> (h' < fuel)%nat -> c_path c = (frame_path <$> fs) ->
  exists gs x c1, t = plug gs (leaf_tree x) /\ descend_last_loop fuel (t_pager tree) (pid_of sub) c = (Ok tt, c1)
    /\ c_path c1 = (frame_path <$> gs) /\ c_bound c1 = c_bound c /\ c_leaf c1 = leaf_node (leaf_sib x) x.2
    /\ c_index c1 = (length x.2 - 1)%nat /\ c_valid c1 = (0 <? length x.2)%nat
    /\ before gs ++ x.2 = before fs ++ flatten sub.
Proof.
  induction h' as [|h' IH]; intros [|fuel] fs [p s l|p ks cs] lo hi c Hwf Et Hf Hc; try done; try lia;
    pose proof (th_repr _ _ _ Hth) as Hr; rewrite Et in Hr; apply plug_repr in Hr as [_ Hr]; apply repr_root in Hr;
    cbn [descend_last_loop]; rewrite Hr; cbn [pid_of node_of].
  - change (n_kind (leaf_node s l)) with SDB_BTREE_LEAF; cbn match.
    change (n_count (leaf_node s l)) with (length (leaf_entry <$> l)); rewrite length_fmap.
    eexists fs, (p, s, l), _; split_and!; [done|reflexivity|done..].
  - change (n_kind (internal_node _ _)) with SDB_BTREE_INTERNAL; cbn match.
    destruct (last_child _ _ _ _ _ _ Hwf) as (f & c0 & E & E2 & Hfw & Hwc & Hch); cbn [node_of] in Hch; rewrite Hch.
    assert (Hn : n_count (internal_node (pid_of <$> cs) ks) = length (fr_cs1 f)).
    { destruct Hwf as (_ & _ & _ & Hk); apply kids_length in Hk as Hl; rewrite internal_node_count by (by rewrite length_fmap).
      injection E as _ Eks Ecs; rewrite E2 in Ecs; rewrite Ecs, length_app in Hl; cbn in Hl; lia. }
    destruct (IH fuel (fs ++ [f]) c0 _ _ (set_path c (c_path c ++ [(p, n_count (internal_node (pid_of <$> cs) ks))])) Hwc)
      as (gs & x & c1 & Eg & Hrun & Hpa & Hbo & Hle & Hin & Hva & Hbe); [by rewrite plug_app, Et, E|lia| |].
    { cbn [set_path c_path]; rewrite Hc, fmap_app, Hn; cbn [fmap list_fmap]; unfold frame_path at 3; by injection E as -> _ _. }
    exists gs, x, c1; split_and!; try done; rewrite Hbe, before_snoc, E; cbn [plug1 flatten]; rewrite E2, flat_map_app.
    cbn [flat_map]; by rewrite app_nil_r, app_assoc.
Qed.

Lemma climb_child (fs : list frame) (f : frame) (cs1 : list ptree) (c0 sub : ptree) :
  t = plug (fs ++ [f]) sub -> fr_cs1 f = cs1 ++ [c0] ->
  rdc (fr_pid f) = Ok (frame_node f (pid_of sub))
  /\ sdb_btree_child_at (frame_node f (pid_of sub)) (length cs1) = pid_of c0.
Proof.
  intros Et E1; pose proof (th_repr _ _ _ Hth) as Hr; rewrite Et in Hr; apply plug_repr in Hr as [Hr _].
  apply ctx_repr_snoc in Hr as (_ & Hn & _); split; [done|].
  destruct (sub_height fs (plug1 f sub)) as (h' & lo & hi & Hw & _); [by rewrite Et, plug_app|].
  destruct h' as [|h']; [done|]; destruct Hw as (_ & _ & _ & Hk); apply kids_length in Hk as Hl.
  rewrite E1, !length_app in Hl; cbn [length] in Hl; unfold frame_node; rewrite internal_node_child.
  - apply list_lookup_total_correct; rewrite E1, fmap_app, <- app_assoc; cbn [fmap list_fmap app].
    apply list_lookup_middle; by rewrite length_fmap.
  - rewrite E1, !length_app, length_cons, !length_fmap, !length_app; cbn [length]; lia.
  - rewrite length_app; lia.
Qed.

Lemma climb_spec (fs : list frame) : Forall (fun x : Z * Z * list kv => x.2 <> []) (leaves t) \/ fs = [] ->
  forall (sub : ptree) c, t = plug fs sub -> c_path c = (frame_path <$> fs) -> c_bound c = true ->
  exists c', prev_climb (length fs) tree c = (Ok tt, c')
    /\ (before fs = [] /\ c_valid c' = false
        \/ exists past e s l, before fs = past ++ [e] /\ backward c' past /\ c_valid c' = true
             /\ c_leaf c' = leaf_node s l /\ l !! c_index c' = Some e).
Proof.
  intros Hfull; induction fs as [|f fs IH] using rev_ind; intros sub c Et Hc Hb; [eexists; split; [done|by left]|].
  destruct Hfull as [Hfull|]; [|by destruct fs]; rewrite length_app, Nat.add_comm; cbn [length Nat.add prev_climb].
  assert (Hl : c_path c !! length fs = Some (frame_path f)).
  { rewrite Hc, fmap_app; apply list_lookup_middle; by rewrite length_fmap. }
  assert (Htk : take (length fs) (c_path c) = frame_path <$> fs) by (rewrite Hc, fmap_app; apply take_app_length'; by rewrite length_fmap).
  rewrite (list_lookup_total_correct _ _ _ Hl), Htk; unfold frame_path at 1; rewrite before_snoc.
  destruct (fr_cs1 f) as [|c0 cs1 _] eqn:E1 using rev_ind.
  - cbn [length flat_map]; rewrite app_nil_r; apply (IH (or_introl Hfull) (plug1 f sub)); try done; by rewrite Et, plug_app.
  - rewrite length_app, Nat.add_comm; cbn [length Nat.add].
    destruct (climb_child _ _ _ _ _ Et E1) as [-> ->]; unfold sdb_btree_cursor_descend_last.
    set (f' := {| fr_pid := fr_pid f; fr_ks1 := fr_ks1 f; fr_ks2 := fr_ks2 f; fr_cs1 := cs1; fr_cs2 := sub :: fr_cs2 f |}).
    assert (Et' : t = plug (fs ++ [f']) c0).
    { rewrite Et, !plug_app; cbn; f_equal; unfold plug1; cbn; by rewrite E1, <- app_assoc. }
    destruct (sub_height _ _ Et') as (h' & lo & hi & Hw & Hlt).
    match goal with |- context [descend_last_loop _ _ _ ?d] => set (cc := d) end.
    destruct (descend_last_spec h' (SDB_BTREE_MAX_DEPTH - length (c_path cc)) (fs ++ [f']) c0 lo hi cc Hw Et')
      as (gs & x & c1 & Eg & Hrun & Hpa & Hbo & Hle & Hin & Hva & Hbe).
    { subst cc; cbn [set_leaf set_path c_path]; rewrite length_app in *; rewrite length_fmap; exact Hlt. }
    { subst cc; cbn; by rewrite fmap_app. }
    eexists; split; [exact Hrun|].
    right; rewrite before_snoc in Hbe; cbn [fr_cs1 f'] in Hbe; rewrite flat_map_app; cbn [flat_map].
    rewrite app_nil_r, app_assoc, <- Hbe; assert (Hx : x.2 <> []).
    { rewrite Eg, plug_leaves, !Forall_app in Hfull; destruct Hfull as (_ & Hfull & _); apply Forall_cons_iff in Hfull; apply Hfull. }
    destruct (x.2) as [|e l _] eqn:Ex using rev_ind; [done|]; rewrite length_app, Nat.add_comm in *; cbn [length Nat.add Nat.sub] in *; rewrite Nat.sub_0_r in Hin.
    exists (before gs ++ l), e, (leaf_sib x), (l ++ [e]); split_and!; [by rewrite app_assoc| | |done|rewrite Hin; by apply list_lookup_middle].
    + exists gs, x; split_and!; [done|by rewrite Hbo|done|by rewrite Hle, Ex|rewrite Hin, Ex, length_app; lia|].
      by rewrite Ex, Hin, take_app_length.
    + by rewrite Hva.
Qed.

Lemma prev_spec (c : sdb_btree_cursor) (past : list kv) :
  Forall (fun x : Z * Z * list kv => x.2 <> []) (leaves t) \/ h = 0%nat -> backward c past ->
  exists c', sdb_btree_cursor_prev tree c = (Ok tt, c')
    /\ (past = [] /\ c_valid c' = false
        \/ exists past' e s l, past = past' ++ [e] /\ backward c' past' /\ c_valid c' = true
             /\ c_leaf c' = leaf_node s l /\ l !! c_index c' = Some e).
Proof.
  intros Hfull (fs & x & Et & Hb & Hp & Hl & Hi & ->); unfold sdb_btree_cursor_prev; rewrite Hb; cbn [negb set_visited c_index].
  destruct (c_index c) as [|i] eqn:Ei.
  - rewrite take_0, app_nil_r.
    assert (Ep : length (c_path (set_visited c [] 0)) = length fs) by (cbn; by rewrite Hp, length_fmap).
    rewrite Ep; apply climb_spec with (sub := leaf_tree x); try done; destruct Hfull as [Hf|Hh]; [by left|right].
    pose proof (th_wf _ _ _ Hth) as Hw; rewrite Hh, Et in Hw; by destruct fs.
  - eexists; split; [done|]; right; destruct (lookup_lt_is_Some_2 x.2 i ltac:(lia)) as [e He].
    exists (before fs ++ take i x.2), e, (leaf_sib x), x.2; rewrite (take_S_r _ _ _ He), app_assoc; split_and!; try done.
    exists fs, x; split_and!; try done; cbn; lia.
Qed.

(** ** Whole walks *)

(** The loop of a client: while the cursor is valid, read and step.  The results of
    the reads, or the failure of a step; [None] when [fuel] steps were not enough. *)
Fixpoint walk (fuel : nat) (step : sdb_btree_cursor -> stepped) (kc vc : Z) (c : sdb_btree_cursor)
  : option (result (list (result (bytes * bytes)))) :=
  if negb (c_valid c) then Some (Ok []) else
  match fuel with
  | O => None
  | S fuel =>
      match step c with
      | (Err e, _) => Some (Err e)
      | (Ok _, c') =>
          match walk fuel step kc vc c' with
          | Some (Ok l) => Some (Ok (sdb_btree_cursor_read c kc vc :: l))
          | failed => failed
          end
      end
  end.

Lemma walk_forward (kc vc : Z) (rest : list kv) : forall fuel c, forward c rest -> settled c rest ->
  (length rest <= fuel)%nat ->
  walk fuel (sdb_btree_cursor_next tree) kc vc c = Some (Ok ((fun e => read_result e kc vc) <$> rest)).
Proof.
  induction rest as [|e rest IH]; intros fuel c Hf Hs Hl.
  - assert (Hv : c_valid c = false).
    { destruct (c_valid c) eqn:Ev; [|done]; by destruct (forward_read c kc vc [] Hf Ev) as (e & rest' & ? & _). }
    destruct fuel; cbn [walk]; by rewrite Hv.
  - assert (Hv : c_valid c = true) by (destruct (c_valid c) eqn:Ev; [done|]; by specialize (Hs Ev)).
    destruct fuel as [|fuel]; [cbn in Hl; lia|]; cbn [walk]; rewrite Hv; cbn [negb].
    destruct (forward_read c kc vc _ Hf Hv) as (e' & rest' & E & ->); injection E as <- <-.
    destruct (next_spec c _ Hf) as (c' & -> & Hf' & Hs'); rewrite Hv in Hf', Hs'; cbn [tail] in Hf', Hs'.
    rewrite (IH fuel c'); [done|done|done|cbn in Hl; lia].
Qed.

Lemma walk_backward (kc vc : Z) (past : list kv) :
  Forall (fun x : Z * Z * list kv => x.2 <> []) (leaves t) \/ h = 0%nat ->
  forall fuel c e s l, backward c past -> c_valid c = true -> c_leaf c = leaf_node s l -> l !! c_index c = Some e ->
  (length past < fuel)%nat ->
  walk fuel (sdb_btree_cursor_prev tree) kc vc c = Some (Ok ((fun e => read_result e kc vc) <$> e :: rev past)).
Proof.
  intros Hfull; induction past as [|e' past IH] using rev_ind; intros [|fuel] c e s l Hb Hv Hl He Hf; try lia;
    cbn [walk]; rewrite Hv; cbn [negb]; rewrite (read_spec c kc vc s l e Hl He Hv);
    destruct (prev_spec c _ Hfull Hb) as (c' & -> & [[E Hv']|(past' & e1 & s' & l' & E & Hb' & Hv' & Hl' & He')]).
  - by destruct fuel; cbn [walk]; rewrite Hv'.
  - by destruct past'.
  - by destruct past.
  - apply app_inj_tail in E as [<- <-]; rewrite rev_app_distr; cbn [rev app fmap list_fmap].
    rewrite (IH fuel c' e' s' l'); try done; rewrite length_app in Hf; cbn in Hf; lia.
Qed.

(** The cursor after a backward start, walked to its end. *)
Lemma walk_from_prev (kc vc : Z) (past : list kv) (fuel : nat) (c : sdb_btree_cursor) :
  Forall (fun x : Z * Z * list kv => x.2 <> []) (leaves t) \/ h = 0%nat -> backward c past -> (length past <= fuel)%nat ->
  exists c', sdb_btree_cursor_prev tree c = (Ok tt, c')
    /\ walk fuel (sdb_btree_cursor_prev tree) kc vc c' = Some (Ok ((fun e => read_result e kc vc) <$> rev past)).
Proof.
  intros Hfull Hb Hf; destruct (prev_spec c _ Hfull Hb) as (c' & Hrun & [[-> Hv']|(past' & e & s & l & -> & Hb' & Hv' & Hl' & He')]);
    exists c'; (split; [done|]).
  - by destruct fuel; cbn [walk]; rewrite Hv'.
  - rewrite rev_app_distr; cbn [rev app]; rewrite length_app in Hf; cbn in Hf; eapply walk_backward; try done; lia.
Qed.

Lemma floor_backward (key : bytes) :
  exists c' l1 rest, sdb_btree_cursor_descend tree (Some key) false zero_cursor = (Ok tt, c')
    /\ flatten t = l1 ++ rest /\ parted (Some key) l1 rest /\ backward c' l1.
Proof.
  destruct (sub_height [] t eq_refl) as (h' & lo & hi & _ & _).
  assert (Hh : (h < SDB_BTREE_MAX_DEPTH)%nat).
  { assert (h <= 52)%nat; [|unfold SDB_BTREE_MAX_DEPTH; lia].
    eapply height_range; [apply Hth|apply Hth|]; eapply Forall_impl; [|apply Hth]; intros q; apply pager_range, Hth. }
  destruct (descend_loop_spec (Some key) false h SDB_BTREE_MAX_DEPTH [] t None None zero_cursor) as (gs & x & c1 & Et & Hpa & Hat & Hv & Hp & Hrun);
    try done; [apply Hth|].
  unfold sdb_btree_cursor_descend; rewrite <- (th_root _ _ _ Hth), Hrun; cbn [andb].
  eexists c1, _, _; split_and!; [done| |exact Hp|].
  - rewrite Et, plug_before_after; cbn [leaf_tree flatten]; by rewrite <- app_assoc, (app_assoc (take _ _)), take_drop.
  - exists gs, x; destruct Hat; split_and!; done.
Qed.

Lemma last_backward :
  exists c1 s l, sdb_btree_cursor_descend_last tree (t_root_page tree) (set_bound zero_cursor) = (Ok tt, c1)
    /\ c_leaf c1 = leaf_node s l /\ c_valid c1 = (0 <? length l)%nat /\ c_index c1 = (length l - 1)%nat
    /\ exists l1, backward c1 l1 /\ flatten t = l1 ++ drop (length l - 1) l.
Proof.
  destruct (sub_height [] t eq_refl) as (h' & lo & hi & Hw & Hlt); cbn [length] in Hlt; rewrite Nat.sub_0_r in Hlt.
  destruct (descend_last_spec h' SDB_BTREE_MAX_DEPTH [] t lo hi (set_bound zero_cursor) Hw) as (gs & x & c1 & Eg & Hrun & Hpa & Hbo & Hle & Hin & Hva & Hbe); try done.
  unfold sdb_btree_cursor_descend_last; rewrite <- (th_root _ _ _ Hth).
  eexists c1, _, x.2; split_and!; [exact Hrun|exact Hle|done|done|].
  exists (before gs ++ take (length x.2 - 1) x.2); split.
  - exists gs, x; split_and!; [done|by rewrite Hbo|done|done|lia|by rewrite Hin].
  - cbn [before left_leaves flat_map fmap list_fmap concat app] in Hbe; rewrite <- app_assoc, take_drop; done.
Qed.

End Scan.

(** ** The walks of a map *)

(** The bindings from a key on, and those below it. *)
Definition from_key (k : bytes) (l : list kv) : list kv := filter (fun e => key_cmp e.1 k <> Lt) l.
Definition below_key (k : bytes) (l : list kv) : list kv := filter (fun e => key_cmp e.1 k = Lt) l.

Lemma filter_part {A} (Q : A -> Prop) `{!forall x, Decision (Q x)} (l1 l2 : list A) :
  Forall Q l1 -> Forall (fun x => ~ Q x) l2 -> filter Q l1 = l1 /\ filter Q l2 = [].
Proof.
  intros H1 H2; split.
  - induction H1 as [|x l Hx _ IH]; [done|]; by rewrite filter_cons_True, IH.
  - induction H2 as [|x l Hx _ IH]; [done|]; by rewrite filter_cons_False, IH.
Qed.

Lemma parted_filter (k : bytes) (l1 l2 : list kv) :
  parted (Some k) l1 l2 -> from_key k (l1 ++ l2) = l2 /\ below_key k (l1 ++ l2) = l1.
Proof.
  intros [H1 H2]; rewrite Forall_fmap in H1, H2; unfold compose in H1, H2.
  assert (H3 : Forall (fun e : kv => key_cmp e.1 k <> Lt) l2).
  { eapply Forall_impl; [|exact H2]; intros e He Hl; apply (key_lt_irrefl k); eapply key_le_lt_trans; [exact He|exact Hl]. }
  assert (H4 : Forall (fun e : kv => ~ key_cmp e.1 k <> Lt) l1) by (eapply Forall_impl; [|exact H1]; intros e He Hn; by apply Hn).
  unfold from_key, below_key; rewrite !list.filter_app; split.
  - destruct (filter_part _ _ _ H3 H4) as [-> ->]; done.
  - destruct (filter_part (fun e : kv => key_cmp e.1 k = Lt) _ _ H1 H3) as [-> ->]; apply app_nil_r.
Qed.

Section Walks.
Context {P T : Type} `{!PagerOps P T} `{!PagerLaws P T}.

(** C18: A forward scan delivers the map in key order.  In a committed tree that holds
    [m], positioning a cursor at the first entry or at a key succeeds, and reading and
    stepping until the cursor is invalid delivers exactly the bindings of [m], or those
    from the key on, in strictly increasing key order, through every leaf; each read
    returns the binding, or [SDB_E_BUFFER_TOO_SMALL] when it does not fit the buffers,
    no step fails and the walk ends after as many steps as there are bindings. *)
Theorem cursor_forward_scan (tree : sdb_btree (P := P)) (m : gmap bytes bytes) (k : bytes) :
  tree_is tree m -> bad_key k = false ->
  exists l, key_sorted l /\ contents l = m /\ forall c0 kc vc fuel, (length l <= fuel)%nat ->
    (exists c, sdb_btree_cursor_first tree c0 = (Ok tt, c)
       /\ walk fuel (sdb_btree_cursor_next tree) kc vc c = Some (Ok ((fun e => read_result e kc vc) <$> l)))
    /\ (exists c, sdb_btree_cursor_seek tree k c0 = (Ok tt, c)
       /\ walk fuel (sdb_btree_cursor_next tree) kc vc c
          = Some (Ok ((fun e => read_result e kc vc) <$> from_key k l))).
Proof.
  intros (t & h & Hth & Hm) Hk; exists (flatten t); split; [by apply (wf_flatten h None None), Hth|split; [done|]].
  intros c0 kc vc fuel Hf; unfold sdb_btree_cursor_first, sdb_btree_cursor_seek; rewrite (th_open _ _ _ Hth), Hk; cbn [negb orb].
  split.
  - destruct (descend_forward tree t h Hth None) as (c & l1 & rest & -> & Efl & -> & Hfw & Hs); exists c; split; [done|].
    cbn [app] in Efl; rewrite Efl; eapply walk_forward; try done; by rewrite <- Efl.
  - destruct (descend_forward tree t h Hth (Some k)) as (c & l1 & rest & -> & Efl & Hp & Hfw & Hs); exists c; split; [done|].
    destruct (parted_filter _ _ _ Hp) as [E _]; rewrite Efl, E; eapply walk_forward; try done.
    rewrite Efl, length_app in Hf; lia.
Qed.

(** The committed tree holds [m] and has no empty leaf, unless it is one. *)
Definition dense_tree (tree : sdb_btree (P := P)) (m : gmap bytes bytes) : Prop :=
  exists t h, tree_holds tree t h /\ tree_contents t = m
    /\ (Forall (fun x : Z * Z * list kv => x.2 <> []) (leaves t) \/ h = 0%nat).

(** C23: A backward scan delivers the map in reverse key order.  In a committed tree
    without empty leaves, positioning a cursor at the last entry, or below a key and
    stepping back once, and then reading and stepping back until the cursor is invalid
    delivers exactly the bindings of the map, or those below the key, in strictly
    decreasing key order; no step fails and the walk ends. *)
Theorem cursor_backward_scan (tree : sdb_btree (P := P)) (m : gmap bytes bytes) (k : bytes) :
  dense_tree tree m -> bad_key k = false ->
  exists l, key_sorted l /\ contents l = m /\ forall c0 kc vc fuel, (length l <= fuel)%nat ->
    (exists c, sdb_btree_cursor_last tree c0 = (Ok tt, c)
       /\ walk fuel (sdb_btree_cursor_prev tree) kc vc c = Some (Ok ((fun e => read_result e kc vc) <$> rev l)))
    /\ (exists c c', sdb_btree_cursor_seek_floor tree k c0 = (Ok tt, c) /\ sdb_btree_cursor_prev tree c = (Ok tt, c')
       /\ walk fuel (sdb_btree_cursor_prev tree) kc vc c'
          = Some (Ok ((fun e => read_result e kc vc) <$> rev (below_key k l)))).
Proof.
  intros (t & h & Hth & Hm & Hfull) Hk; exists (flatten t); split; [by apply (wf_flatten h None None), Hth|split; [done|]].
  intros c0 kc vc fuel Hf; unfold sdb_btree_cursor_last, sdb_btree_cursor_seek_floor; rewrite (th_open _ _ _ Hth), Hk; cbn [negb orb].
  split.
  - destruct (last_backward tree t h Hth) as (c & s & l & -> & Hl & Hv & Hi & l1 & Hb & Efl); exists c; split; [done|].
    destruct (decide (l = [])) as [->|Hne].
    + cbn [length] in Hv; rewrite Efl in *; cbn [drop Nat.sub length] in *; rewrite app_nil_r in *.
      assert (El : l1 = []).
      { destruct Hfull as [HF|Hh]; destruct Hb as (fs & x & Et & _ & _ & Hl' & Hi' & ->); rewrite Hl in Hl'; injection Hl' as _ Hx;
          symmetry in Hx; apply fmap_nil_inv in Hx.
        - rewrite Et, plug_leaves, !Forall_app in HF; destruct HF as (_ & HF & _); by apply Forall_cons_iff in HF as [HF _].
        - pose proof (th_wf _ _ _ Hth) as Hw; rewrite Hh, Et in Hw; destruct fs; [|done]; by rewrite Hx, take_nil. }
      rewrite El; by destruct fuel; cbn [walk]; rewrite Hv.
    + destruct l as [|e l' _] using rev_ind; [done|]; rewrite length_app, Nat.add_comm in *; cbn [length Nat.add Nat.sub] in *.
      rewrite Nat.sub_0_r in *; rewrite drop_app_length in Efl; rewrite Efl, rev_app_distr; cbn [rev app].
      eapply walk_backward; try done; [by rewrite Hi; apply list_lookup_middle|].
      rewrite Efl, length_app in Hf; cbn in Hf; lia.
  - destruct (floor_backward tree t h Hth k) as (c & l1 & rest & -> & Efl & Hp & Hb); exists c.
    destruct (parted_filter _ _ _ Hp) as [_ E]; rewrite Efl, E; rewrite Efl, length_app in Hf.
    destruct (walk_from_prev tree t h Hth kc vc l1 fuel c Hfull Hb ltac:(lia)) as (c' & Hrun & Hw); exists c'; done.
Qed.

End Walks.

(** ** Examples *)

Lemma cursor_forward_scan_witness :
  exists l, key_sorted l /\ contents l = {[ key_a := val_1 ]} /\ forall c0 kc vc fuel, (length l <= fuel)%nat ->
    (exists c, sdb_btree_cursor_first example_tree_a c0 = (Ok tt, c)
       /\ walk fuel (sdb_btree_cursor_next example_tree_a) kc vc c = Some (Ok ((fun e => read_result e kc vc) <$> l)))
    /\ (exists c, sdb_btree_cursor_seek example_tree_a key_b c0 = (Ok tt, c)
       /\ walk fuel (sdb_btree_cursor_next example_tree_a) kc vc c
          = Some (Ok ((fun e => read_result e kc vc) <$> from_key key_b l))).
Proof. apply (cursor_forward_scan example_tree_a {[ key_a := val_1 ]} key_b); [apply example_tree_a_is|reflexivity]. Defined.

(** The tree with one entry is a dense one. *)
Lemma example_tree_a_dense : dense_tree example_tree_a {[ key_a := val_1 ]}.
Proof.
  destruct example_tree_a_is as (t & h & [Ho Hk _ _ _ _ _ _] & _).
  exists (PLeaf 1 0 [(key_a, val_1)]), 0%nat; split_and!; [|apply map_eq; intros i; by vm_compute|by right]; split; try done.
  - apply repr_kids; [vm_compute; reflexivity|done].
  - split; repeat constructor.
  - by apply NoDup_singleton.
  - constructor; [|constructor]; split; [split; vm_compute; reflexivity|]; intros fl Hc.
    assert (E : sb_freelist_page (pg_superblock (t_pager example_tree_a)) = 0) by (vm_compute; reflexivity).
    rewrite E in Hc; inversion Hc; [apply not_elem_of_nil|lia].
Qed.

Lemma cursor_backward_scan_witness :
  exists l, key_sorted l /\ contents l = {[ key_a := val_1 ]} /\ forall c0 kc vc fuel, (length l <= fuel)%nat ->
    (exists c, sdb_btree_cursor_last example_tree_a c0 = (Ok tt, c)
       /\ walk fuel (sdb_btree_cursor_prev example_tree_a) kc vc c = Some (Ok ((fun e => read_result e kc vc) <$> rev l)))
    /\ (exists c c', sdb_btree_cursor_seek_floor example_tree_a key_b c0 = (Ok tt, c)
       /\ sdb_btree_cursor_prev example_tree_a c = (Ok tt, c')
       /\ walk fuel (sdb_btree_cursor_prev example_tree_a) kc vc c'
          = Some (Ok ((fun e => read_result e kc vc) <$> rev (below_key key_b l)))).
Proof. apply (cursor_backward_scan example_tree_a {[ key_a := val_1 ]} key_b); [apply example_tree_a_dense|reflexivity]. Defined.

(** ** A backward scan that stops early *)

(** One batch: four puts that split leaves, and the deletion of the only entry of a
    leaf the batch itself allocated. *)
Definition gap_key (n : Z) : bytes := filled 1 [n].
Definition gap_value : bytes := filled 1500 [].
Definition gap_ops : list map_op :=
  [OpPut (gap_key 1) gap_value; OpPut (gap_key 2) gap_value; OpPut (gap_key 3) gap_value; OpPut (gap_key 4) gap_value;
   OpDelete (gap_key 2)].

(** The results of the operations, the status of the commit, and the tree after it. *)
Definition gap_run : list (result bytes) * sdb_status * sdb_btree :=
  match sdb_btree_batch_begin example_tree with
  | Err e => ([], e, example_tree)
  | Ok b =>
      let '(rs, b) := run_ops gap_ops b in
      let '(status, pager) := sdb_btree_batch_commit b in (rs, status, with_pager example_tree pager)
  end.

(** C24: A backward scan can miss entries.  A batch on an empty database puts four
    entries, which splits leaves, deletes the second and commits; every call succeeds.
    The emptied leaf was allocated by the same batch, so the deletion leaves it in the
    tree.  The forward scan of the committed tree delivers the three remaining entries
    and a lookup finds the first of them; the scan backward from the last entry
    delivers two and stops at the empty leaf without an error. *)
Theorem backward_scan_stops_early :
  let entry n := Ok (gap_key n, gap_value) in
  let tree := gap_run.2 in
  gap_run.1 = (repeat (Ok []) 5, SDB_OK)
  /\ sdb_btree_get tree (gap_key 1) 4096 = Ok gap_value
  /\ walk 8 (sdb_btree_cursor_next tree) 4096 4096 (sdb_btree_cursor_first tree zero_cursor).2
     = Some (Ok [entry 1; entry 3; entry 4])
  /\ walk 8 (sdb_btree_cursor_prev tree) 4096 4096 (sdb_btree_cursor_last tree zero_cursor).2
     = Some (Ok [entry 4; entry 3]).
Proof. split_and!; vm_compute; reflexivity. Qed.
