(* ===== verification/BtreeVerify.v ===== *)
(** * The verifier ([src/btree.c], [sdb_btree_verify])

    The depth-first check of a whole tree: every page once, keys between the
    separators, leaves at one depth and linked from left to right.  The theorem: it
    accepts exactly the trees that satisfy the invariant [checked_tree], and reports
    their size and height and the pages they use. *)

From stdpp Require Import gmap.
From S2P Require Import Prelude Status Codec Keys Page Superblock SuperblockStore BtreePage OrderedMap PagerInterface BtreeNode BtreeTree Btree BtreeGet BtreeBatch BtreeInsert BtreePut BtreeContext BtreeMap Txn MemoryStore TxnLaws.

Definition sdb_btree_key_at_or_above (key : bytes) (bound : option bytes) : bool :=
  match bound with None => true | Some bound => sdb_btree_compare key bound >=? 0 end.

Definition sdb_btree_key_below (key : bytes) (bound : option bytes) : bool :=
  match bound with None => true | Some bound => sdb_btree_compare key bound <? 0 end.

(** [sdb_btree_verify_context] with its result; a flag and the value it guards are an
    option, the array of flags is the set of the pages flagged. *)
Record sdb_btree_verify_context := {
  v_visited : gset Z;
  v_previous_leaf_sibling : option Z;
  v_leaf_depth : option Z;
  v_node_count : Z;
  v_leaf_count : Z;
  v_entry_count : Z
}.

Definition visit_page (c : sdb_btree_verify_context) (page_id : Z) : sdb_btree_verify_context :=
  {| v_visited := {[page_id]} ∪ v_visited c; v_previous_leaf_sibling := v_previous_leaf_sibling c;
     v_leaf_depth := v_leaf_depth c; v_node_count := v_node_count c; v_leaf_count := v_leaf_count c;
     v_entry_count := v_entry_count c |}.
Definition count_node (c : sdb_btree_verify_context) : sdb_btree_verify_context :=
  {| v_visited := v_visited c; v_previous_leaf_sibling := v_previous_leaf_sibling c;
     v_leaf_depth := v_leaf_depth c; v_node_count := wrap 64 (v_node_count c + 1); v_leaf_count := v_leaf_count c;
     v_entry_count := v_entry_count c |}.
Definition count_leaf (c : sdb_btree_verify_context) (node : sdb_btree_node) (depth : Z) : sdb_btree_verify_context :=
  {| v_visited := v_visited c; v_previous_leaf_sibling := Some (n_right_sibling node);
     v_leaf_depth := Some depth; v_node_count := v_node_count c; v_leaf_count := wrap 64 (v_leaf_count c + 1);
     v_entry_count := wrap 64 (v_entry_count c + Z.of_nat (n_count node)) |}.

(** [sdb_btree_verify_result] *)
Record sdb_btree_verify_result := {
  vr_node_count : Z;
  vr_leaf_count : Z;
  vr_entry_count : Z;
  vr_height : Z
}.

Section Verify.
Context {P T : Type} `{!PagerOps P T}.

Definition entry_in_range (lower upper : option bytes) (e : sdb_btree_entry) : bool :=
  sdb_btree_key_at_or_above (e_key e) lower && sdb_btree_key_below (e_key e) upper.

(** The checks of a leaf against its predecessor. *)
Definition leaf_out_of_line (c : sdb_btree_verify_context) (page_id depth : Z) : bool :=
  match v_previous_leaf_sibling c with Some s => negb (s =? page_id) | None => false end
  || match v_leaf_depth c with Some d => negb (d =? depth) | None => false end.

(** The children behind the separators, each between its separator and the next. *)
Fixpoint verify_children (verify : Z -> option bytes -> option bytes -> sdb_btree_verify_context -> result unit * sdb_btree_verify_context)
    (upper : option bytes) (entries : list sdb_btree_entry) (c : sdb_btree_verify_context)
  : result unit * sdb_btree_verify_context :=
  match entries with
  | [] => (Ok tt, c)
  | e :: rest =>
      match verify (e_right_child e) (Some (e_key e)) (match rest with [] => upper | e' :: _ => Some (e_key e') end) c with
      | (Ok _, c) => verify_children verify upper rest c
      | failed => failed
      end
  end.

(** [fuel] is [65 - depth]. *)
Fixpoint sdb_btree_verify_node (fuel : nat) (pager : P) (visited_count page_id depth : Z) (lower upper : option bytes)
    (c : sdb_btree_verify_context) : result unit * sdb_btree_verify_context :=
  match fuel with
  | O => (Err SDB_E_CORRUPT, c)
  | S fuel =>
      if (page_id =? 0) || (page_id >=? visited_count) || bool_decide (page_id ∈ v_visited c) then (Err SDB_E_CORRUPT, c)
      else
        let c := visit_page c page_id in
        match sdb_btree_read_node pager page_id with
        | Err e => (Err e, c)
        | Ok node =>
            let c := count_node c in
            if negb (forallb (entry_in_range lower upper) (n_entries node)) then (Err SDB_E_CORRUPT, c)
            else
              match n_kind node with
              | SDB_BTREE_LEAF =>
                  if leaf_out_of_line c page_id depth then (Err SDB_E_CORRUPT, c)
                  else (Ok tt, count_leaf c node depth)
              | SDB_BTREE_INTERNAL =>
                  if (n_count node =? 0)%nat || (depth =? UINT32_MAX) then (Err SDB_E_CORRUPT, c)
                  else
                    let verify := fun page lo hi => sdb_btree_verify_node fuel pager visited_count page (depth + 1) lo hi in
                    match verify (n_first_child node) lower (Some (e_key (n_entries node !!! 0%nat))) c with
                    | (Ok _, c) => verify_children verify upper (n_entries node) c
                    | failed => failed
                    end
              end
        end
  end.

Definition empty_context : sdb_btree_verify_context :=
  {| v_visited := ∅; v_previous_leaf_sibling := None; v_leaf_depth := None; v_node_count := 0; v_leaf_count := 0;
     v_entry_count := 0 |}.

(** The walk from the root, and the check that the last leaf has no sibling. *)
Definition verify_tree (tree : sdb_btree (P := P)) : result (sdb_btree_verify_result * gset Z) :=
  match sdb_btree_verify_node SDB_BTREE_MAX_DEPTH (t_pager tree) (pager_next_page_id (t_pager tree)) (t_root_page tree) 1
          None None empty_context with
  | (Err e, _) => Err e
  | (Ok _, c) =>
      fail_if negb (default 0 (v_previous_leaf_sibling c) =? 0) with SDB_E_CORRUPT ;;
      Ok ({| vr_node_count := v_node_count c; vr_leaf_count := v_leaf_count c; vr_entry_count := v_entry_count c;
             vr_height := default 0 (v_leaf_depth c) |}, v_visited c)
  end.

(** [reachable] is the size of the caller's array of flags, if it gives one; what
    [sdb_file_size] answers and the page size are arguments.  The result comes with
    the pages flagged. *)
Definition sdb_btree_verify_internal (tree : sdb_btree (P := P)) (file_size : result Z) (page_size : Z)
    (reachable : option Z) : result (sdb_btree_verify_result * gset Z) :=
  let next_page_id := pager_next_page_id (t_pager tree) in
  fail_if negb (t_open tree) || (next_page_id =? 0) || (next_page_id >? SIZE_MAX)
    || (match reachable with Some n => n <? next_page_id | None => false end) with SDB_E_INVALID_ARGUMENT ;;
  file_size ← file_size;
  let slots := Z.of_nat (SDB_SUPERBLOCK_SLOT_SIZE * SDB_SUPERBLOCK_SLOT_COUNT) in
  fail_if next_page_id - 1 >? (UINT64_MAX - slots) / page_size with SDB_E_CORRUPT ;;
  fail_if file_size <? slots + (next_page_id - 1) * page_size with SDB_E_TRUNCATED ;;
  verify_tree tree.

Definition sdb_btree_verify (tree : sdb_btree (P := P)) (file_size : result Z) (page_size : Z) : result sdb_btree_verify_result :=
  fst <$> sdb_btree_verify_internal tree file_size page_size None.

Definition sdb_btree_verify_pages (tree : sdb_btree (P := P)) (file_size : result Z) (page_size : Z)
    (reachable_page_count : Z) : result (sdb_btree_verify_result * gset Z) :=
  sdb_btree_verify_internal tree file_size page_size (Some reachable_page_count).

End Verify.

(** ** The invariant the verifier checks *)

(** [wf_tree] with separators that may equal the lower bound. *)
Fixpoint checked_tree (h : nat) (lo hi : option bytes) (t : ptree) : Prop :=
  match h, t with
  | O, PLeaf _ _ l => key_sorted l /\ Forall (within lo hi) l.*1
  | S h, PNode _ ks cs =>
      ks <> [] /\ StronglySorted key_lt ks /\ Forall (within lo hi) ks /\ kids_ok (checked_tree h) lo hi ks cs
  | _, _ => False
  end.

Lemma wf_checked (h : nat) : forall lo hi t, wf_tree h lo hi t -> checked_tree h lo hi t.
Proof.
  induction h as [|h IH]; intros lo hi [p s l|p ks cs]; cbn [wf_tree checked_tree]; try done.
  intros (Hne & Hs & HF & Hk); split_and!; [done|done|by apply seps_within|]; by eapply kids_impl.
Qed.

Lemma checked_flatten (h : nat) : forall lo hi t,
  checked_tree h lo hi t -> key_sorted (flatten t) /\ Forall (within lo hi) (flatten t).*1.
Proof.
  induction h as [|h IH]; intros lo hi [p s l|p ks cs]; cbn [checked_tree flatten]; try done.
  intros (_ & Hs & HF & Hk); by eapply kids_flatten.
Qed.

Abbreviation leafs := (list (Z * Z * list kv)).

(** The leaves are linked: each one is the page the one before points to. *)
Fixpoint links (prev : option Z) (ls : leafs) : Prop :=
  match ls with
  | [] => True
  | x :: ls => (prev = None \/ prev = Some (leaf_pid x)) /\ links (Some (leaf_sib x)) ls
  end.

Definition after_links (prev : option Z) (ls : leafs) : option Z := foldl (fun _ x => Some (leaf_sib x)) prev ls.

Lemma links_app (prev : option Z) (ls1 ls2 : leafs) :
  links prev (ls1 ++ ls2) <-> links prev ls1 /\ links (after_links prev ls1) ls2.
Proof. revert prev; induction ls1 as [|x ls1 IH]; intros prev; cbn [app links after_links foldl]; [tauto|]; rewrite IH; tauto. Qed.

Lemma after_links_app (prev : option Z) (ls1 ls2 : leafs) :
  after_links prev (ls1 ++ ls2) = after_links (after_links prev ls1) ls2.
Proof. apply foldl_app. Qed.

Lemma links_chain (ls : leafs) : forall prev n, ls <> [] ->
  (prev = None \/ prev = Some (first_pid ls n)) /\ sib_chain ls n <-> links prev ls /\ after_links prev ls = Some n.
Proof.
  induction ls as [|x ls IH]; intros prev n Hne; [done|]; cbn [first_pid sib_chain links].
  destruct ls as [|y ls]; [cbn; naive_solver|].
  change (after_links prev (x :: y :: ls)) with (after_links (Some (leaf_sib x)) (y :: ls)).
  pose proof (IH (Some (leaf_sib x)) n ltac:(done)) as E; cbn [first_pid] in E |- *; split; [intros [H1 [H2 H3]]|intros [[H1 H2] H3]].
  - split; [split; [exact H1|]|]; apply E; split; [right; by rewrite H2|exact H3|right; by rewrite H2|exact H3].
  - destruct (proj2 E (conj H2 H3)) as [[?|H4] H5]; [done|]; injection H4 as H4; done.
Qed.

(** What verifying the pages [ps] with the leaves [ls] at depth [d] does. *)
Definition advance (c : sdb_btree_verify_context) (ps : list Z) (ls : leafs) (d : Z) : sdb_btree_verify_context :=
  {| v_visited := list_to_set ps ∪ v_visited c;
     v_previous_leaf_sibling := after_links (v_previous_leaf_sibling c) ls;
     v_leaf_depth := match ls with [] => v_leaf_depth c | _ => Some d end;
     v_node_count := wrap 64 (v_node_count c + Z.of_nat (length ps));
     v_leaf_count := wrap 64 (v_leaf_count c + Z.of_nat (length ls));
     v_entry_count := wrap 64 (v_entry_count c + Z.of_nat (length (concat (snd <$> ls)))) |}.

Lemma wrap_add_64 (a b c : Z) : wrap 64 (wrap 64 (a + b) + c) = wrap 64 (a + (b + c)).
Proof. unfold wrap; rewrite Zplus_mod_idemp_l; f_equal; lia. Qed.

Lemma advance_app (c : sdb_btree_verify_context) (ps1 ps2 : list Z) (ls1 ls2 : leafs) (d : Z) :
  advance (advance c ps1 ls1 d) ps2 ls2 d = advance c (ps1 ++ ps2) (ls1 ++ ls2) d.
Proof.
  unfold advance; cbn; f_equal.
  - set_solver.
  - by rewrite after_links_app.
  - by destruct ls1, ls2.
  - by rewrite wrap_add_64, length_app, Nat2Z.inj_add.
  - by rewrite wrap_add_64, length_app, Nat2Z.inj_add.
  - by rewrite wrap_add_64, fmap_app, concat_app, length_app, Nat2Z.inj_add.
Qed.

(** ** Decoded nodes *)

Lemma decoded_shape (node : sdb_btree_node) :
  node_wf node ->
  match n_kind node with
  | SDB_BTREE_LEAF => exists s l, node = leaf_node s l /\ key_sorted l
  | SDB_BTREE_INTERNAL =>
      exists ids ks, node = internal_node ids ks /\ length ids = S (length ks) /\ StronglySorted key_lt ks
  end.
Proof.
  intros [_ He Hs _ Hk]; unfold keys_sorted in Hs; destruct node as [[] sib fc es]; cbn in *.
  - exists sib, ((fun e => (e_key e, e_value e)) <$> es); unfold leaf_node, key_sorted; rewrite <- !list_fmap_compose.
    split; [|exact Hs]; rewrite Hk; f_equal; rewrite <- (list_fmap_id es) at 1.
    apply list_fmap_ext; intros i e Hi; rewrite List.Forall_forall in He.
    destruct (He e) as [_ [Hr _]]; [apply list_elem_of_In; by eapply list_elem_of_lookup_2|]; destruct e; cbn in *; by subst.
  - exists (fc :: (e_right_child <$> es)), (e_key <$> es); unfold internal_node; destruct Hk as [-> _]; cbn [hd tl].
    split_and!; [|by cbn; rewrite !length_fmap|done]; f_equal; clear Hs.
    induction He as [|e es [_ [_ Hv]] _ IH]; [done|]; cbn [fmap list_fmap zip_with]; rewrite <- IH; f_equal.
    destruct e; cbn in *; by subst.
Qed.

#[local] Instance leaf_entry_inj : Inj (=) (=) leaf_entry.
Proof. intros [k v] [k' v'] [=]; by subst. Qed.

Lemma internal_node_inj (ids ids' : list Z) (ks ks' : list bytes) :
  length ids = S (length ks) -> length ids' = S (length ks') ->
  internal_node ids ks = internal_node ids' ks' -> ids = ids' /\ ks = ks'.
Proof.
  intros Hl Hl' E; assert (Ek : ks = ks').
  { rewrite <- (internal_node_keys ids ks Hl), E; by apply internal_node_keys. }
  split; [|done]; subst ks'; destruct ids as [|i ids], ids' as [|i' ids']; try done; injection E as Ei E; f_equal; [done|].
  injection Hl as Hl; injection Hl' as Hl'; apply (f_equal (fmap e_right_child)) in E.
  rewrite !fmap_zip_with_r in E by (done || lia); done.
Qed.

Lemma in_range_spec (lo hi : option bytes) (es : list sdb_btree_entry) :
  forallb (entry_in_range lo hi) es = true <-> Forall (within lo hi) (e_key <$> es).
Proof.
  rewrite forallb_forall, Forall_fmap, List.Forall_forall; apply forall_proper; intros e; apply forall_proper; intros _.
  unfold entry_in_range, within, compose; rewrite andb_true_iff; unfold sdb_btree_key_at_or_above, sdb_btree_key_below.
  destruct lo as [lo|], hi as [hi|]; cbn; rewrite ?compare_ge_0, ?compare_lt_0, ?negb_true_iff, ?bool_decide_eq_true, ?bool_decide_eq_false, ?key_not_lt; tauto.
Qed.

Section VerifySpec.
Context {P T : Type} `{!PagerOps P T}.
Context (pager : P) (count : Z).

Definition fresh (c : sdb_btree_verify_context) (ps : list Z) : Prop :=
  NoDup ps /\ Forall (fun p => p <> 0 /\ p < count /\ p ∉ v_visited c) ps.

Lemma fresh_app (c : sdb_btree_verify_context) (ps1 ps2 : list Z) (ls : leafs) (d : Z) :
  fresh c (ps1 ++ ps2) <-> fresh c ps1 /\ fresh (advance c ps1 ls d) ps2.
Proof.
  unfold fresh, advance; cbn [v_visited]; rewrite list.NoDup_app, Forall_app.
  rewrite !List.Forall_forall; setoid_rewrite <- list_elem_of_In; setoid_rewrite elem_of_union; setoid_rewrite elem_of_list_to_set.
  split; [intros ((N1 & D & N2) & F1 & F2)|intros ((N1 & F1) & N2 & F2)]; split_and!; try done; naive_solver.
Qed.

Definition depth_ok (c : sdb_btree_verify_context) (d : Z) : Prop := v_leaf_depth c = None \/ v_leaf_depth c = Some d.

Lemma depth_ok_advance (c : sdb_btree_verify_context) (ps : list Z) (ls : leafs) (d : Z) :
  depth_ok c d -> depth_ok (advance c ps ls d) d.
Proof. unfold depth_ok; cbn; destruct ls; [done|by right]. Qed.

(** What the verifier accepts at a page. *)
Record accepts (c : sdb_btree_verify_context) (depth : Z) (lo hi : option bytes) (t : ptree) (h : nat) : Prop := {
  ac_repr : repr (sdb_btree_read_node pager) t;
  ac_tree : checked_tree h lo hi t;
  ac_fresh : fresh c (pids t);
  ac_links : links (v_previous_leaf_sibling c) (leaves t);
  ac_depth : depth_ok c (depth + Z.of_nat h)
}.

(** The children behind the separators [ks]. *)
Record accepts_kids (c : sdb_btree_verify_context) (depth : Z) (hi : option bytes) (ks : list bytes) (cs : list ptree) (h : nat) : Prop := {
  ak_repr : Forall (repr (sdb_btree_read_node pager)) cs;
  ak_trees : kids_right (checked_tree h) hi ks cs;
  ak_fresh : fresh c (flat_map pids cs);
  ak_links : links (v_previous_leaf_sibling c) (flat_map leaves cs);
  ak_depth : v_leaf_depth c = Some (depth + Z.of_nat h)
}.

Lemma leaves_nonempty (h : nat) : forall lo hi t, checked_tree h lo hi t -> leaves t <> [].
Proof.
  induction h as [|h IH]; intros lo hi [p s l|p ks cs]; cbn [checked_tree leaves]; try done.
  intros (_ & _ & _ & Hk); destruct cs as [|c cs]; [by destruct ks|]; cbn [flat_map]; intros E; apply app_eq_nil in E as [E _].
  destruct ks as [|k ks]; cbn [kids_ok] in Hk; [destruct cs; [|done]|destruct Hk as [Hk _]]; by eapply IH.
Qed.

Lemma advance_depth (c : sdb_btree_verify_context) (h : nat) (lo hi : option bytes) (t : ptree) (d : Z) :
  checked_tree h lo hi t -> v_leaf_depth (advance c (pids t) (leaves t) d) = Some d.
Proof. intros Ht; apply leaves_nonempty in Ht; cbn; by destruct (leaves t). Qed.

Lemma accepts_kids_cons (c : sdb_btree_verify_context) (depth : Z) (hi : option bytes) (k : bytes) (ks : list bytes)
    (t : ptree) (cs : list ptree) (h : nat) :
  accepts_kids c depth hi (k :: ks) (t :: cs) h
  <-> v_leaf_depth c = Some (depth + Z.of_nat h) /\ accepts c depth (Some k) (head_or hi ks) t h
      /\ accepts_kids (advance c (pids t) (leaves t) (depth + Z.of_nat h)) depth hi ks cs h.
Proof.
  split.
  - intros [Hr Hk Hf Hl Hd]; cbn [flat_map] in *; apply Forall_cons_iff in Hr as [Hr1 Hr].
    rewrite (fresh_app _ _ _ (leaves t) (depth + Z.of_nat h)) in Hf; apply links_app in Hl.
    assert (Hkk : checked_tree h (Some k) (head_or hi ks) t /\ kids_right (checked_tree h) hi ks cs).
    { destruct ks as [|k' ks]; cbn [kids_right kids_ok head_or] in *; [by destruct cs|done]. }
    destruct Hkk as [Hk1 Hk2]; split_and!; [done|split; try done; [apply Hf|apply Hl|by right]|].
    split; try done; [apply Hf|apply Hl|by eapply advance_depth].
  - intros (Hd & [Hr1 Ht Hf1 Hl1 _] & [Hr Hk Hf Hl _]); split; cbn [flat_map]; try done.
    + by constructor.
    + destruct ks as [|k' ks]; cbn [kids_right kids_ok head_or] in *; [by subst cs|done].
    + by eapply fresh_app.
    + by apply links_app.
Qed.

Lemma accepts_node (c : sdb_btree_verify_context) (depth : Z) (lo hi : option bytes) (p : Z) (k : bytes) (ks : list bytes)
    (t : ptree) (cs : list ptree) (h : nat) :
  let c1 := advance c [p] [] 0 in
  accepts c depth lo hi (PNode p (k :: ks) (t :: cs)) (S h)
  <-> sdb_btree_read_node pager p = Ok (internal_node (pid_of <$> t :: cs) (k :: ks))
      /\ fresh c [p] /\ StronglySorted key_lt (k :: ks) /\ Forall (within lo hi) (k :: ks)
      /\ accepts c1 (depth + 1) lo (Some k) t h
      /\ accepts_kids (advance c1 (pids t) (leaves t) (depth + 1 + Z.of_nat h)) (depth + 1) hi (k :: ks) cs h.
Proof.
  intros c1; assert (Ed : depth + Z.of_nat (S h) = depth + 1 + Z.of_nat h) by lia; split.
  - intros [Hr (Hne & Hs & HF & Hk) Hf Hl Hd]; rewrite Ed in Hd; apply repr_node in Hr as [Hn Hr]; apply Forall_cons_iff in Hr as [Hr1 Hr].
    rewrite pids_node in Hf; change (p :: flat_map pids (t :: cs)) with ([p] ++ pids t ++ flat_map pids cs) in Hf.
    rewrite (fresh_app _ _ _ [] 0), (fresh_app _ _ _ (leaves t) (depth + 1 + Z.of_nat h)) in Hf.
    cbn [leaves flat_map] in Hl; apply links_app in Hl; cbn [kids_ok] in Hk; destruct Hk as [Hk1 Hk2].
    split_and!; try done; [apply Hf| |].
    + split; try done; [apply Hf|apply Hl].
    + split; try done; [apply Hf|apply Hl|by eapply advance_depth].
  - intros (Hn & Hf0 & Hs & HF & [Hr1 Ht Hf1 Hl1 Hd1] & [Hr Hk Hf Hl Hd]); split.
    + apply repr_node; split; [done|by constructor].
    + by split_and!.
    + rewrite pids_node; change (p :: flat_map pids (t :: cs)) with ([p] ++ pids t ++ flat_map pids cs).
      rewrite (fresh_app _ _ _ [] 0), (fresh_app _ _ _ (leaves t) (depth + 1 + Z.of_nat h)); done.
    + cbn [leaves flat_map]; by apply links_app.
    + by rewrite Ed.
Qed.
(** The counters are 64-bit. *)
Definition wrapped (c : sdb_btree_verify_context) : Prop :=
  wrap 64 (v_node_count c) = v_node_count c /\ wrap 64 (v_leaf_count c) = v_leaf_count c
  /\ wrap 64 (v_entry_count c) = v_entry_count c.

Lemma advance_wrapped (c : sdb_btree_verify_context) (ps : list Z) (ls : leafs) (d : Z) : wrapped (advance c ps ls d).
Proof. unfold wrapped, advance, wrap; cbn; by rewrite !Z.mod_mod. Qed.

Lemma advance_nil (c : sdb_btree_verify_context) (d : Z) : wrapped c -> advance c [] [] d = c.
Proof.
  destruct c; intros (H1 & H2 & H3); unfold advance; cbn in *; rewrite !Z.add_0_r, H1, H2, H3; f_equal; set_solver.
Qed.

(** The verifier at one depth accepts what the specification says. *)
Definition verifies (verify : Z -> option bytes -> option bytes -> sdb_btree_verify_context -> result unit * sdb_btree_verify_context)
    (depth : Z) (room : nat) : Prop :=
  forall page lo hi c c', wrapped c -> verify page lo hi c = (Ok tt, c')
    <-> exists t h, pid_of t = page /\ (h < room)%nat /\ accepts c depth lo hi t h
          /\ c' = advance c (pids t) (leaves t) (depth + Z.of_nat h).

Lemma children_verified verify (depth : Z) (room h : nat) (hi : option bytes) :
  verifies verify depth room -> (h < room)%nat -> forall ks ids c c', length ks = length ids -> wrapped c ->
  v_leaf_depth c = Some (depth + Z.of_nat h) ->
  verify_children verify hi (zip_with internal_entry ks ids) c = (Ok tt, c')
    <-> exists cs, pid_of <$> cs = ids /\ accepts_kids c depth hi ks cs h
          /\ c' = advance c (flat_map pids cs) (flat_map leaves cs) (depth + Z.of_nat h).
Proof.
  intros Hv Hh; induction ks as [|k ks IH]; intros [|i ids] c c' Hl Hw Hd; try done; cbn [zip_with verify_children].
  { split.
    - intros [= <-]; exists []; cbn; split_and!; [done| |by rewrite advance_nil]; by split; try done; split; constructor.
    - intros (cs & Hp & _ & ->); apply fmap_nil_inv in Hp as ->; cbn; by rewrite advance_nil. }
  cbn [internal_entry e_right_child e_key].
  replace (match zip_with internal_entry ks ids with [] => hi | e' :: _ => Some (e_key e') end) with (head_or hi ks)
    by (by destruct ks, ids).
  injection Hl as Hl; split.
  - destruct (verify i _ _ c) as [[[]|e] c1] eqn:E; [|done]; apply Hv in E as (t & h' & Hp & Hh' & Ha & ->); [|done].
    assert (h' = h) as -> by (destruct (ac_depth _ _ _ _ _ _ Ha) as [Hn|Hn]; rewrite Hn in Hd; [done|injection Hd as Hd; lia]).
    intros E; apply IH in E as (cs & Hpc & Hac & ->); [|done|apply advance_wrapped|eapply advance_depth; apply Ha].
    exists (t :: cs); cbn [fmap list_fmap flat_map]; rewrite Hp, Hpc, advance_app; split_and!; [done| |done].
    by apply accepts_kids_cons.
  - intros (cs & Hp & Ha & ->); destruct cs as [|t cs]; [done|]; cbn [fmap list_fmap] in Hp; injection Hp as Hp Hpc.
    apply accepts_kids_cons in Ha as (_ & Ha & Hac).
    rewrite (proj2 (Hv i _ _ c (advance c (pids t) (leaves t) (depth + Z.of_nat h)) Hw)) by (exists t, h; done).
    apply IH; [done|apply advance_wrapped|eapply advance_depth; apply Ha|].
    exists cs; split_and!; [done|done|]; cbn [flat_map]; by rewrite advance_app.
Qed.

Lemma leaf_line (c : sdb_btree_verify_context) (page d : Z) :
  leaf_out_of_line c page d = false
  <-> (v_previous_leaf_sibling c = None \/ v_previous_leaf_sibling c = Some page) /\ depth_ok c d.
Proof.
  unfold leaf_out_of_line, depth_ok; rewrite orb_false_iff.
  destruct (v_previous_leaf_sibling c) as [s|], (v_leaf_depth c) as [d'|]; rewrite ?negb_false_iff, ?Z.eqb_eq; naive_solver.
Qed.

Lemma visit_advance (c : sdb_btree_verify_context) (p : Z) : wrapped c -> count_node (visit_page c p) = advance c [p] [] 0.
Proof.
  intros (_ & H2 & H3); unfold count_node, visit_page, advance; cbn; rewrite !Z.add_0_r, H2, H3; f_equal; set_solver.
Qed.

Lemma leaf_advance (c : sdb_btree_verify_context) (p s d : Z) (l : list kv) :
  wrapped c -> count_leaf (advance c [p] [] 0) (leaf_node s l) d = advance c [p] [(p, s, l)] d.
Proof.
  intros (_ & H2 & H3); unfold count_leaf, advance; cbn; rewrite !Z.add_0_r, H2, H3, app_nil_r.
  unfold n_count; cbn [leaf_node n_entries]; by rewrite length_fmap.
Qed.
Lemma advance_node (c : sdb_btree_verify_context) (p depth : Z) (ks : list bytes) (t : ptree) (cs : list ptree) (h : nat) :
  let d := depth + 1 + Z.of_nat h in
  advance c (pids (PNode p ks (t :: cs))) (leaves (PNode p ks (t :: cs))) (depth + Z.of_nat (S h))
  = advance (advance (advance c [p] [] 0) (pids t) (leaves t) d) (flat_map pids cs) (flat_map leaves cs) d.
Proof.
  intros d; replace (depth + Z.of_nat (S h)) with d by (subst d; lia); rewrite pids_node; cbn [leaves flat_map].
  change (advance c [p] [] 0) with (advance c [p] [] d); by rewrite !advance_app.
Qed.

Lemma node_accepts (fuel : nat) (depth p : Z) (lo hi : option bytes) (node : sdb_btree_node) (c c' : sdb_btree_verify_context) :
  let verify := fun page lo hi => sdb_btree_verify_node fuel pager count page (depth + 1) lo hi in
  verifies verify (depth + 1) fuel -> sdb_btree_read_node pager p = Ok node -> fresh c [p] -> wrapped c ->
  n_kind node = SDB_BTREE_INTERNAL -> Forall (within lo hi) (e_key <$> n_entries node) -> (n_count node <> 0)%nat ->
  match verify (n_first_child node) lo (Some (e_key (n_entries node !!! 0%nat))) (advance c [p] [] 0) with
  | (Ok _, c) => verify_children verify hi (n_entries node) c
  | failed => failed
  end = (Ok tt, c')
  <-> exists t h, pid_of t = p /\ (h < S fuel)%nat /\ accepts c depth lo hi t h
        /\ c' = advance c (pids t) (leaves t) (depth + Z.of_nat h).
Proof.
  intros verify Hv Hn Hf Hw Hkind HF H0; assert (Hwf : node_wf node).
  { unfold sdb_btree_read_node in Hn; apply bind_Ok in Hn as (v & _ & Hn); apply check_Ok in Hn as [_ Hn].
    by apply node_decode_iff in Hn as [Hn _]. }
  apply decoded_shape in Hwf; rewrite Hkind in Hwf; destruct Hwf as (ids & ks & -> & Hl & Hs).
  rewrite internal_node_keys in HF by done; rewrite internal_node_count in H0 by done.
  destruct ks as [|k ks]; [done|]; destruct ids as [|i [|j ids]]; [done..|]; cbn [internal_node n_first_child n_entries hd tl zip_with].
  change (e_key ((internal_entry k j :: zip_with internal_entry ks ids) !!! 0%nat)) with k.
  change (internal_entry k j :: zip_with internal_entry ks ids) with (zip_with internal_entry (k :: ks) (j :: ids)).
  injection Hl as Hl; split.
  - destruct (verify i _ _ _) as [[[]|e] c1] eqn:E; [|done]; apply Hv in E as (t & h & Hp & Hh & Ha & ->); [|apply advance_wrapped].
    intros E; apply (children_verified verify (depth + 1) fuel h hi Hv Hh) in E as (cs & Hpc & Hac & ->);
      [|cbn; by rewrite Hl|apply advance_wrapped|eapply advance_depth; apply Ha].
    exists (PNode p (k :: ks) (t :: cs)), (S h); split_and!; [done|lia| |].
    + apply accepts_node; split_and!; try done; cbn [fmap list_fmap]; by rewrite Hp, Hpc.
    + symmetry; apply advance_node.
  - intros (t & h & Hp & Hh & Ha & ->); pose proof (repr_root _ _ (ac_repr _ _ _ _ _ _ Ha)) as Hr; rewrite Hp, Hn in Hr; injection Hr as Hr.
    destruct t as [p' s l|p' ks' cs]; [done|]; cbn [pid_of] in Hp; subst p'; destruct h as [|h]; [by destruct Ha|].
    pose proof (ac_tree _ _ _ _ _ _ Ha) as (Hne & _ & _ & Hk); apply kids_length in Hk as Hkl.
    destruct ks' as [|k' ks']; [done|]; destruct cs as [|t cs]; [done|].
    apply accepts_node in Ha as (Hn' & _ & _ & _ & Ha & Hac); rewrite Hn in Hn'; injection Hn' as Hn'.
    apply internal_node_inj in Hr as [Eids Eks]; [|cbn; lia|by rewrite length_fmap]; injection Eks as <- <-.
    cbn [fmap list_fmap] in Eids; injection Eids as Ei Ej; rewrite (proj2 (Hv i _ _ _ (advance (advance c [p] [] 0) (pids t) (leaves t) (depth + 1 + Z.of_nat h)) (advance_wrapped _ _ _ _)))
      by (exists t, h; split_and!; [done|lia|done|done]).
    apply (children_verified verify (depth + 1) fuel h hi Hv); [lia|cbn; lia|apply advance_wrapped|eapply advance_depth; apply Ha|].
    exists cs; split_and!; [done|done|apply advance_node].
Qed.
Lemma checked_keys (h : nat) (lo hi : option bytes) (t : ptree) :
  checked_tree h lo hi t -> Forall (within lo hi) (e_key <$> n_entries (node_of t))
    /\ (n_kind (node_of t) = SDB_BTREE_INTERNAL -> (n_count (node_of t) <> 0)%nat).
Proof.
  destruct h, t as [p s l|p ks cs]; cbn [checked_tree]; try done.
  - intros [_ HF]; cbn [node_of leaf_node n_entries n_kind]; by rewrite leaf_entry_keys.
  - intros (Hne & _ & HF & Hk); apply kids_length in Hk; cbn [node_of].
    rewrite internal_node_keys, internal_node_count by (by rewrite length_fmap); split; [done|]; by destruct ks.
Qed.

Lemma leaf_accepts (depth p s : Z) (l : list kv) (lo hi : option bytes) (c c' : sdb_btree_verify_context) (room : nat) :
  sdb_btree_read_node pager p = Ok (leaf_node s l) -> fresh c [p] -> wrapped c -> key_sorted l ->
  Forall (within lo hi) l.*1 ->
  (if leaf_out_of_line (advance c [p] [] 0) p depth then (Err SDB_E_CORRUPT, advance c [p] [] 0)
   else (Ok tt, count_leaf (advance c [p] [] 0) (leaf_node s l) depth)) = (Ok tt, c')
  <-> exists t h, pid_of t = p /\ (h < S room)%nat /\ accepts c depth lo hi t h
        /\ c' = advance c (pids t) (leaves t) (depth + Z.of_nat h).
Proof.
  intros Hn Hf Hw Hs HF; rewrite leaf_advance by done; split.
  - destruct (leaf_out_of_line _ _ _) eqn:E; [done|]; apply leaf_line in E as [Hl Hd]; intros [= <-].
    exists (PLeaf p s l), 0%nat; rewrite Z.add_0_r; split_and!; [done|lia| |done]; split; try done.
    + by apply repr_kids.
    + by rewrite Z.add_0_r.
  - intros (t & h & Hp & _ & [Hr Ht Hfr Hli Hd] & ->); pose proof (repr_root _ _ Hr) as Hr'; rewrite Hp, Hn in Hr'; injection Hr' as Hr'.
    destruct t as [p' s' l'|]; [|done]; destruct h; [|done]; cbn [pid_of] in Hp; subst p'; rewrite Z.add_0_r in *.
    assert (s' = s /\ l' = l) as [-> ->].
    { injection Hr' as -> El; split; [done|]; by apply (inj (fmap leaf_entry)) in El. }
    destruct Hli as [Hli _]; rewrite (proj2 (leaf_line (advance c [p] [] 0) p depth) (conj Hli Hd)); done.
Qed.

Lemma verify_node_spec (fuel : nat) : forall depth, 0 <= depth -> depth + Z.of_nat fuel <= 65 ->
  verifies (fun page lo hi => sdb_btree_verify_node fuel pager count page depth lo hi) depth fuel.
Proof.
  induction fuel as [|fuel IH]; intros depth H0 Hd page lo hi c c' Hw; cbn [sdb_btree_verify_node].
  { split; [done|]; intros (t & h & _ & Hh & _); lia. }
  destruct (_ || _ || _) eqn:Eg.
  { split; [done|]; intros (t & h & <- & _ & [_ _ [_ Hf] _ _] & _); rewrite List.Forall_forall in Hf.
    destruct (Hf (pid_of t)) as (H1 & H2 & H3); [apply list_elem_of_In, pid_in_pids|].
    rewrite bool_decide_eq_false_2, orb_false_r in Eg by done; apply orb_prop in Eg as [Eg|Eg]; lia. }
  rewrite !orb_false_iff, bool_decide_eq_false, Z.eqb_neq, Z.geb_leb, Z.leb_gt in Eg; destruct Eg as [[E1 E2] E3].
  assert (Hf : fresh c [page]) by (split; [by apply NoDup_singleton|by repeat constructor]).
  rewrite visit_advance by done; destruct (sdb_btree_read_node pager page) as [node|e] eqn:Hn; cycle 1.
  { split; [done|]; intros (t & h & <- & _ & [Hr _ _ _ _] & _); apply repr_root in Hr; congruence. }
  assert (Hwf : node_wf node).
  { unfold sdb_btree_read_node in Hn; apply bind_Ok in Hn as (v & _ & Hd'); apply check_Ok in Hd' as [_ Hd'].
    by apply node_decode_iff in Hd' as [Hd' _]. }
  assert (Hno : forall Q : Prop, (forall t h, checked_tree h lo hi t -> node = node_of t -> Q) ->
                (exists t h, pid_of t = page /\ (h < S fuel)%nat /\ accepts c depth lo hi t h
                   /\ c' = advance c (pids t) (leaves t) (depth + Z.of_nat h)) -> Q).
  { intros Q HQ (t & h & <- & _ & [Hr Ht _ _ _] & _); apply repr_root in Hr; apply (HQ t h Ht); congruence. }
  destruct (forallb _ _) eqn:Er; cbn [negb]; cycle 1.
  { split; [done|]; apply Hno; intros t h Ht ->; apply checked_keys in Ht as [Ht _]; apply in_range_spec in Ht; congruence. }
  apply in_range_spec in Er; pose proof (decoded_shape _ Hwf) as Hsh; destruct (n_kind node) eqn:Hk.
  - destruct Hsh as (s & l & -> & Hs); cbn [leaf_node n_entries] in Er; rewrite leaf_entry_keys in Er; by apply leaf_accepts.
  - destruct (Nat.eqb_spec (n_count node) 0) as [Ec|Ec]; cbn [orb].
    { split; [done|]; apply Hno; intros t h Ht ->; apply checked_keys in Ht as [_ Ht]; by apply Ht in Hk. }
    destruct (Z.eqb_spec depth UINT32_MAX) as [Eu|_]; [unfold UINT32_MAX in Eu; lia|].
    apply node_accepts; try done; apply IH; lia.
Qed.
End VerifySpec.

Section Verified.
Context {P T : Type} `{!PagerOps P T}.

(** The arguments and the file pass the checks made before the walk. *)
Definition verify_ready (tree : sdb_btree (P := P)) (file_size : result Z) (page_size : Z) (reachable : option Z) : Prop :=
  let next := pager_next_page_id (t_pager tree) in
  t_open tree = true /\ next <> 0 /\ next <= SIZE_MAX /\ (forall n, reachable = Some n -> next <= n)
  /\ next - 1 <= (UINT64_MAX - 8192) / page_size
  /\ exists size, file_size = Ok size /\ 8192 + (next - 1) * page_size <= size.

(** The pages of the tree [t] are what the verifier requires of a sound tree of
    height [h]. *)
Record sound_tree (tree : sdb_btree (P := P)) (t : ptree) (h : nat) : Prop := {
  so_height : (h < 64)%nat;
  so_root : pid_of t = t_root_page tree;
  so_repr : repr (sdb_btree_read_node (t_pager tree)) t;
  so_checked : checked_tree h None None t;
  so_nodup : NoDup (pids t);
  so_range : Forall (fun p => p <> 0 /\ p < pager_next_page_id (t_pager tree)) (pids t);
  so_chain : sib_chain (leaves t) 0
}.

Definition report (t : ptree) (h : nat) : sdb_btree_verify_result :=
  {| vr_node_count := wrap 64 (Z.of_nat (length (pids t))); vr_leaf_count := wrap 64 (Z.of_nat (length (leaves t)));
     vr_entry_count := wrap 64 (Z.of_nat (length (flatten t))); vr_height := 1 + Z.of_nat h |}.

Lemma sound_accepts (tree : sdb_btree (P := P)) (t : ptree) (h : nat) :
  sound_tree tree t h
  <-> (h < 64)%nat /\ pid_of t = t_root_page tree
      /\ accepts (t_pager tree) (pager_next_page_id (t_pager tree)) empty_context 1 None None t h
      /\ after_links None (leaves t) = Some 0.
Proof.
  split.
  - intros [Hh Hr Hre Hc Hn Hra Hch].
    destruct (proj1 (links_chain (leaves t) None 0 (leaves_nonempty _ _ _ _ Hc)) (conj (or_introl eq_refl) Hch)) as [Hl Ha].
    split_and!; try done; split; try done; [|by left]; split; [done|].
    eapply Forall_impl; [|exact Hra]; intros p [H1 H2]; split_and!; [done|done|cbn; set_solver].
  - intros (Hh & Hr & [Hre Hc [Hn Hf] Hl _] & Ha).
    destruct (proj2 (links_chain (leaves t) None 0 (leaves_nonempty _ _ _ _ Hc)) (conj Hl Ha)) as [_ Hch].
    split; try done; eapply Forall_impl; [|exact Hf]; intros p (H1 & H2 & _); done.
Qed.

Lemma verify_tree_iff (tree : sdb_btree (P := P)) (r : sdb_btree_verify_result) (pages : gset Z) :
  verify_tree tree = Ok (r, pages)
  <-> exists t h, sound_tree tree t h /\ r = report t h /\ pages = list_to_set (pids t).
Proof.
  unfold verify_tree; assert (Hroom : SDB_BTREE_MAX_DEPTH = 64%nat) by done; revert Hroom; generalize SDB_BTREE_MAX_DEPTH as room; intros room Hroom.
  pose proof (verify_node_spec (t_pager tree) (pager_next_page_id (t_pager tree)) room 1 ltac:(lia) ltac:(lia)) as Hv.
  assert (Hw : wrapped empty_context) by done.
  assert (Hout : forall t h, checked_tree h None None t ->
    let c := advance empty_context (pids t) (leaves t) (1 + Z.of_nat h) in
    ({| vr_node_count := v_node_count c; vr_leaf_count := v_leaf_count c; vr_entry_count := v_entry_count c;
        vr_height := default 0 (v_leaf_depth c) |}, v_visited c) = (report t h, list_to_set (pids t))).
  { intros t h Hc c; assert (E1 : v_leaf_depth c = Some (1 + Z.of_nat h)) by (by eapply advance_depth).
    assert (E2 : v_visited c = list_to_set (pids t)) by (apply (right_id_L ∅ (∪))).
    rewrite E1, E2; unfold c, report; cbn [advance v_node_count v_leaf_count v_entry_count empty_context].
    by rewrite <- flatten_leaves, !Z.add_0_l. }
  split.
  - destruct (sdb_btree_verify_node _ _ _ _ _ _ _ _) as [[[]|e] c] eqn:E; [|done].
    apply (Hv _ _ _ _ _ Hw) in E as (t & h & Hp & Hh & Ha & ->); unfold check; destruct (negb _) eqn:Ed; [done|].
    rewrite (Hout t h (ac_tree _ _ _ _ _ _ _ _ Ha)); intros H; injection H as <- <-; exists t, h; split; [|done].
    apply sound_accepts; rewrite <- Hroom; split_and!; try done; apply negb_false_iff, Z.eqb_eq in Ed; cbn [advance v_previous_leaf_sibling empty_context] in Ed.
    pose proof (leaves_nonempty _ _ _ _ (ac_tree _ _ _ _ _ _ _ _ Ha)) as Hne.
    destruct (leaves t) as [|x ls _] using rev_ind; [done|]; rewrite after_links_app in *; cbn in *; by rewrite Ed.
  - intros (t & h & Hs & -> & ->); apply sound_accepts in Hs as (Hh & Hp & Ha & Hl); rewrite <- Hroom in Hh.
    rewrite (proj2 (Hv _ _ _ _ (advance empty_context (pids t) (leaves t) (1 + Z.of_nat h)) Hw)) by (exists t, h; done).
    rewrite (Hout t h (ac_tree _ _ _ _ _ _ _ _ Ha)); cbn [advance v_previous_leaf_sibling empty_context]; by rewrite Hl.
Qed.
Lemma slots_size : Z.of_nat (SDB_SUPERBLOCK_SLOT_SIZE * SDB_SUPERBLOCK_SLOT_COUNT) = 8192.
Proof. vm_compute; reflexivity. Qed.

Lemma ready_verifies (tree : sdb_btree (P := P)) (file_size : result Z) (page_size : Z) (reachable : option Z) :
  verify_ready tree file_size page_size reachable ->
  sdb_btree_verify_internal tree file_size page_size reachable = verify_tree tree.
Proof.
  intros (Ho & H0 & Hm & Hre & Hg & size & -> & Hs); unfold sdb_btree_verify_internal; rewrite slots_size.
  assert (E1 : negb (t_open tree) || (pager_next_page_id (t_pager tree) =? 0) || (pager_next_page_id (t_pager tree) >? SIZE_MAX)
    || (match reachable with Some n => n <? pager_next_page_id (t_pager tree) | None => false end) = false).
  { rewrite Ho, (proj2 (Z.eqb_neq _ _) H0), Z.gtb_ltb, (proj2 (Z.ltb_ge _ _) Hm).
    destruct reachable as [m|]; [|done]; apply (proj2 (Z.ltb_ge _ _)), Hre; done. }
  assert (E2 : (pager_next_page_id (t_pager tree) - 1 >? (UINT64_MAX - 8192) / page_size) = false) by (rewrite Z.gtb_ltb; by apply Z.ltb_ge).
  assert (E3 : (size <? 8192 + (pager_next_page_id (t_pager tree) - 1) * page_size) = false) by (by apply Z.ltb_ge).
  unfold mbind, result_bind, check; rewrite E1, E2; cbv beta iota; by rewrite E3.
Qed.

(** C22: The verifier decides the tree invariant.  With arguments and a file that pass
    its first checks, it succeeds exactly when the pages reachable from the root form a
    tree with every page visited once and in range, every node between the separators
    around it, all leaves at one depth below 64 and linked from left to right up to the
    last; and then it reports the number of nodes, leaves and entries, the height, and
    exactly the pages of the tree. *)
Theorem verify_decides (tree : sdb_btree (P := P)) (file_size : result Z) (page_size : Z) (reachable : option Z)
    (r : sdb_btree_verify_result) (pages : gset Z) :
  verify_ready tree file_size page_size reachable ->
  sdb_btree_verify_internal tree file_size page_size reachable = Ok (r, pages)
  <-> exists t h, sound_tree tree t h /\ r = report t h /\ pages = list_to_set (pids t).
Proof. intros Hr; rewrite ready_verifies by done; apply verify_tree_iff. Qed.

(** The tree of any committed map is a sound one. *)
Lemma holds_sound `{!PagerLaws P T} (tree : sdb_btree (P := P)) (t : ptree) (h : nat) :
  tree_holds tree t h -> sound_tree tree t h.
Proof.
  intros [Ho Hk Hr Hre Hw Hn Hu Hc]; split; try done.
  - assert (h <= 52)%nat; [|lia]; eapply height_range; [exact Hw|done|]; eapply Forall_impl; [|exact Hu]; intros q; by apply pager_range.
  - by apply wf_checked.
  - eapply Forall_impl; [|exact Hu]; intros q Hq; pose proof (pager_range _ _ Hk Hq); pose proof (pager_end _ _ Hk Hq); lia.
Qed.
End Verified.

Lemma verify_decides_witness :
  exists t h, sdb_btree_verify_internal example_tree_a (Ok 12288) 4096 None = Ok (report t h, list_to_set (pids t)).
Proof.
  destruct example_tree_a_is as (t & h & Ht & _); exists t, h; apply verify_decides.
  - split_and!; [reflexivity|vm_compute; discriminate|vm_compute; discriminate|done|vm_compute; discriminate|].
    exists 12288; split; [reflexivity|vm_compute; discriminate].
  - exists t, h; split_and!; [by apply holds_sound|reflexivity|reflexivity].
Defined.
