(* ===== verification/EngineKeys.v ===== *)
(** * Rows of the engine ([src/engine.c])

    The engine keeps everything in one ordered tree: the metadata row of an object,
    its chunks, index definitions, index entries, unique guards, the reverse rows of
    a document and the generation counter.  Modelled here: the keys and the values of
    these rows, byte by byte.  The theorems: the keys tell all rows apart, the rows of
    a namespace are contiguous and ordered by user key, and the encodings of the
    values are canonical. *)

From S2P Require Import Prelude Status Codec Keys.

Definition SDB_ENGINE_MAX_NAME_SIZE : Z := 1024.

Definition SDB_SEQUENCE_KEY_PREFIX : Z := 16.
Definition SDB_OBJECT_KEY_PREFIX : Z := 64.
Definition SDB_CHUNK_KEY_PREFIX : Z := 65.
Definition SDB_INDEX_DEFINITION_PREFIX : Z := 80.
Definition SDB_INDEX_ENTRY_PREFIX : Z := 81.
Definition SDB_UNIQUE_GUARD_PREFIX : Z := 82.
Definition SDB_INDEX_REVERSE_PREFIX : Z := 83.

Definition SDB_OBJECT_KV : Z := 1.
Definition SDB_OBJECT_BLOB : Z := 2.
Definition SDB_OBJECT_DOCUMENT : Z := 3.

Definition SDB_GENERATION_COUNTER_VALUE_SIZE : nat := 8.
Definition SDB_OBJECT_METADATA_SIZE : nat := 64.
Definition SDB_OBJECT_CHUNK_TARGET : Z := 2048.
Definition SDB_INDEX_REVERSE_MAX_VALUE : Z := 12 + 2 * SDB_ENGINE_MAX_NAME_SIZE.

Definition sdb_generation_counter_key : bytes := [byte.of_Z SDB_SEQUENCE_KEY_PREFIX].

(** ** Keys

    Pointers are never null here; the bytes of a fresh allocation that the caller
    overwrites are zero. *)

Definition sdb_engine_bytes_valid (s : bytes) : bool :=
  negb (Z.of_nat (length s) =? 0) && (Z.of_nat (length s) <=? SDB_ENGINE_MAX_NAME_SIZE) && (Z.of_nat (length s) <=? UINT16_MAX).

Definition sdb_engine_pair_key (prefix kind : Z) (namespace_name key : bytes) (suffix_size : nat) : result bytes :=
  let namespace_size := Z.of_nat (length namespace_name) in
  let key_size := Z.of_nat (length key) in
  fail_if negb (sdb_engine_bytes_valid namespace_name) || negb (sdb_engine_bytes_valid key)
          || (namespace_size >? SIZE_MAX - key_size - 4)
          || (Z.of_nat suffix_size >? SIZE_MAX - namespace_size - key_size - 4)
    with SDB_E_INVALID_ARGUMENT ;;
  let result := zeros (4 + length namespace_name + length key + suffix_size) in
  let result := store_u8 result 0 prefix in
  let result := store_u8 result 1 kind in
  let result := sdb_write_u16_le result 2 (wrap 16 namespace_size) in
  let result := memcpy_at result 4 namespace_name in
  Ok (memcpy_at result (4 + length namespace_name) key).

Definition sdb_object_key (kind : Z) (namespace_name key : bytes) : result bytes :=
  sdb_engine_pair_key SDB_OBJECT_KEY_PREFIX (wrap 8 kind) namespace_name key 0.

Definition sdb_chunk_key (kind : Z) (namespace_name key : bytes) (generation chunk_index : Z) : result bytes :=
  output ← sdb_engine_pair_key SDB_CHUNK_KEY_PREFIX (wrap 8 kind) namespace_name key 12;
  let output := sdb_write_u64_le output (length output - 12) generation in
  Ok (sdb_write_u32_le output (length output - 4) chunk_index).

Definition sdb_index_base_key (prefix : Z) (collection index_name value : bytes) (suffix_size : nat) : result bytes :=
  let collection_size := Z.of_nat (length collection) in
  let index_name_size := Z.of_nat (length index_name) in
  let value_size := Z.of_nat (length value) in
  fail_if negb (sdb_engine_bytes_valid collection) || negb (sdb_engine_bytes_valid index_name)
          || (value_size >? SDB_ENGINE_MAX_NAME_SIZE)
          || (collection_size >? SIZE_MAX - index_name_size - value_size - 7)
          || (Z.of_nat suffix_size >? SIZE_MAX - collection_size - index_name_size - value_size - 7)
    with SDB_E_INVALID_ARGUMENT ;;
  let key := zeros (7 + length collection + length index_name + length value + suffix_size) in
  let key := store_u8 key 0 prefix in
  let key := sdb_write_u16_le key 1 (wrap 16 collection_size) in
  let key := sdb_write_u16_le key 3 (wrap 16 index_name_size) in
  let key := sdb_write_u16_le key 5 (wrap 16 value_size) in
  let key := memcpy_at key 7 collection in
  let key := memcpy_at key (7 + length collection) index_name in
  Ok (memcpy_at key (7 + length collection + length index_name) value).

(** The key of an index entry: the term, then the document it points to. *)
Definition index_entry_key (collection index_name value document_id : bytes) (generation : Z) : result bytes :=
  let suffix_size := (2 + length document_id + 8)%nat in
  entry_key ← sdb_index_base_key SDB_INDEX_ENTRY_PREFIX collection index_name value suffix_size;
  let suffix := (length entry_key - suffix_size)%nat in
  let entry_key := sdb_write_u16_le entry_key suffix (wrap 16 (Z.of_nat (length document_id))) in
  let entry_key := memcpy_at entry_key (suffix + 2) document_id in
  Ok (sdb_write_u64_le entry_key (suffix + 2 + length document_id) generation).

Definition sdb_index_reverse_key (collection document_id : bytes) (ordinal : Z) : result bytes :=
  key ← sdb_engine_pair_key SDB_INDEX_REVERSE_PREFIX (wrap 8 SDB_OBJECT_DOCUMENT) collection document_id 2;
  Ok (sdb_write_u16_le key (length key - 2) ordinal).

(** ** Values *)

Record sdb_object_metadata := {
  om_kind : Z;
  om_generation : Z;
  om_total_size : Z;
  om_chunk_count : Z;
  om_chunk_size : Z;
  om_digest : bytes
}.

#[global] Instance sdb_object_metadata_eq_dec : EqDecision sdb_object_metadata.
Proof. solve_decision. Defined.

(** ["SOM1"] *)
Definition sdb_object_magic : bytes := byte.of_Z <$> [83; 79; 77; 49].

Definition sdb_object_metadata_encode (metadata : sdb_object_metadata) : bytes :=
  let output := zeros SDB_OBJECT_METADATA_SIZE in
  let output := memcpy_at output 0 sdb_object_magic in
  let output := sdb_write_u16_le output 4 1 in
  let output := sdb_write_u16_le output 6 (om_kind metadata) in
  let output := sdb_write_u64_le output 8 (om_generation metadata) in
  let output := sdb_write_u64_le output 16 (om_total_size metadata) in
  let output := sdb_write_u32_le output 24 (om_chunk_count metadata) in
  let output := sdb_write_u32_le output 28 (om_chunk_size metadata) in
  memcpy_at output 32 (om_digest metadata).

(** The plausibility checks of the decoder. *)
Definition metadata_bad (metadata : sdb_object_metadata) : bool :=
  (om_generation metadata =? 0)
  || (om_total_size metadata >? SIZE_MAX)
  || (om_chunk_size metadata >? SDB_OBJECT_CHUNK_TARGET)
  || ((om_total_size metadata =? 0) && (negb (om_chunk_count metadata =? 0) || negb (om_chunk_size metadata =? 0)))
  || (negb (om_total_size metadata =? 0) && ((om_chunk_count metadata =? 0) || (om_chunk_size metadata =? 0)))
  || (negb (om_chunk_count metadata =? 0)
      && negb (wrap 64 (om_total_size metadata / om_chunk_size metadata
                        + (if negb (om_total_size metadata mod om_chunk_size metadata =? 0) then 1 else 0))
               =? om_chunk_count metadata)).

Definition sdb_object_metadata_decode (input : bytes) (expected_kind : Z) : result sdb_object_metadata :=
  fail_if negb (length input =? SDB_OBJECT_METADATA_SIZE)%nat
          || negb (bool_decide (slice input 0 4 = sdb_object_magic))
          || negb (sdb_read_u16_le input 4 =? 1)
          || negb (sdb_read_u16_le input 6 =? expected_kind)
    with SDB_E_CORRUPT ;;
  let metadata :=
    {| om_kind := sdb_read_u16_le input 6; om_generation := sdb_read_u64_le input 8;
       om_total_size := sdb_read_u64_le input 16; om_chunk_count := sdb_read_u32_le input 24;
       om_chunk_size := sdb_read_u32_le input 28; om_digest := slice input 32 32 |} in
  fail_if metadata_bad metadata with SDB_E_CORRUPT ;;
  Ok metadata.

Record sdb_index_term := {
  it_index_name : bytes;
  it_value : bytes
}.

#[global] Instance sdb_index_term_eq_dec : EqDecision sdb_index_term.
Proof. solve_decision. Defined.

(** The value of a reverse row, written into a buffer of [value_capacity] bytes. *)
Definition sdb_index_reverse_encode_term (generation : Z) (term : sdb_index_term) (value_capacity : Z) : result bytes :=
  fail_if negb (sdb_engine_bytes_valid (it_index_name term)) || negb (sdb_engine_bytes_valid (it_value term))
    with SDB_E_INVALID_ARGUMENT ;;
  let name_size := length (it_index_name term) in
  let needed := (12 + name_size + length (it_value term))%nat in
  fail_if value_capacity <? Z.of_nat needed with SDB_E_BUFFER_TOO_SMALL ;;
  let value := zeros needed in
  let value := sdb_write_u64_le value 0 generation in
  let value := sdb_write_u16_le value 8 (wrap 16 (Z.of_nat name_size)) in
  let value := memcpy_at value 10 (it_index_name term) in
  let value := sdb_write_u16_le value (10 + name_size) (wrap 16 (Z.of_nat (length (it_value term)))) in
  Ok (memcpy_at value (12 + name_size) (it_value term)).

Definition sdb_index_reverse_decode_term (value : bytes) : result (Z * sdb_index_term) :=
  let value_size := Z.of_nat (length value) in
  fail_if value_size <? 12 with SDB_E_CORRUPT ;;
  let name_size := sdb_read_u16_le value 8 in
  fail_if (name_size =? 0) || (name_size >? SDB_ENGINE_MAX_NAME_SIZE) || (value_size <? 12 + name_size)
    with SDB_E_CORRUPT ;;
  let term_value_size := sdb_read_u16_le value (10 + Z.to_nat name_size) in
  fail_if (term_value_size =? 0) || (term_value_size >? SDB_ENGINE_MAX_NAME_SIZE)
          || negb (value_size =? 12 + name_size + term_value_size)
    with SDB_E_CORRUPT ;;
  Ok (sdb_read_u64_le value 0,
      {| it_index_name := slice value 10 (Z.to_nat name_size);
         it_value := slice value (12 + Z.to_nat name_size) (Z.to_nat term_value_size) |}).

(** The generation stamped on a row, for the scan that seeds the counter. *)
Definition sdb_row_generation (key value : bytes) : Z :=
  let key_size := Z.of_nat (length key) in
  let value_size := Z.of_nat (length value) in
  if key_size =? 0 then 0 else
  let prefix := u8_at key 0 in
  if prefix =? SDB_OBJECT_KEY_PREFIX then
    if (length value =? SDB_OBJECT_METADATA_SIZE)%nat then sdb_read_u64_le value 8 else 0
  else if prefix =? SDB_CHUNK_KEY_PREFIX then
    if key_size >=? 12 then sdb_read_u64_le key (length key - 12) else 0
  else if prefix =? SDB_INDEX_ENTRY_PREFIX then
    if key_size >=? 8 then sdb_read_u64_le key (length key - 8) else 0
  else if (prefix =? SDB_UNIQUE_GUARD_PREFIX) || (prefix =? SDB_INDEX_REVERSE_PREFIX) then
    if value_size >=? 8 then sdb_read_u64_le value 0 else 0
  else 0.

(** ** The layout of the keys *)

Abbreviation size_bytes s := (le_split 2 (Z.of_nat (length s))).

Definition pair_bytes (prefix kind : Z) (ns key : bytes) : bytes :=
  byte.of_Z prefix :: byte.of_Z kind :: size_bytes ns ++ ns ++ key.

Definition chunk_bytes (kind : Z) (ns key : bytes) (generation index : Z) : bytes :=
  pair_bytes SDB_CHUNK_KEY_PREFIX kind ns key ++ le_split 8 generation ++ le_split 4 index.

Definition index_bytes (prefix : Z) (collection index_name value : bytes) : bytes :=
  byte.of_Z prefix :: size_bytes collection ++ size_bytes index_name ++ size_bytes value ++ collection ++ index_name ++ value.

Definition entry_bytes (collection index_name value document_id : bytes) (generation : Z) : bytes :=
  index_bytes SDB_INDEX_ENTRY_PREFIX collection index_name value
  ++ size_bytes document_id ++ document_id ++ le_split 8 generation.

Definition reverse_bytes (collection document_id : bytes) (ordinal : Z) : bytes :=
  pair_bytes SDB_INDEX_REVERSE_PREFIX SDB_OBJECT_DOCUMENT collection document_id ++ le_split 2 ordinal.

Lemma bytes_valid_iff (s : bytes) : sdb_engine_bytes_valid s = true <-> (0 < length s <= Z.to_nat 1024)%nat.
Proof.
  unfold sdb_engine_bytes_valid, SDB_ENGINE_MAX_NAME_SIZE, UINT16_MAX; rewrite !andb_true_iff, negb_true_iff, Z.eqb_neq, !Z.leb_le; lia.
Qed.

Lemma valid_size (s : bytes) : sdb_engine_bytes_valid s = true -> 0 < Z.of_nat (length s) <= 1024.
Proof. rewrite bytes_valid_iff; lia. Qed.

(** One more field of a buffer that is filled from the left. *)
Lemma fill_next (pre src : bytes) (off m : nat) :
  off = length pre -> (length src <= m)%nat -> memcpy_at (pre ++ zeros m) off src = (pre ++ src) ++ zeros (m - length src).
Proof. intros -> H; rewrite memcpy_at_app by (rewrite ?length_zeros; done); unfold zeros; by rewrite drop_replicate. Qed.

#[export] Hint Rewrite length_store_u8 : len.

Ltac fill_lia := autorewrite with len; cbn [length]; lia.
Ltac fill :=
  repeat first
    [ rewrite store_u8_memcpy by fill_lia
    | rewrite sdb_write_u16_le_spec by fill_lia
    | rewrite sdb_write_u32_le_spec by fill_lia
    | rewrite sdb_write_u64_le_spec by fill_lia
    | rewrite fill_next by fill_lia ].

Lemma pair_key_eq (prefix kind : Z) (ns key : bytes) (n : nat) :
  (n <= 12)%nat ->
  sdb_engine_pair_key prefix kind ns key n
  = if sdb_engine_bytes_valid ns && sdb_engine_bytes_valid key then Ok (pair_bytes prefix kind ns key ++ zeros n)
    else Err SDB_E_INVALID_ARGUMENT.
Proof.
  intros Hn; unfold sdb_engine_pair_key; destruct (sdb_engine_bytes_valid ns) eqn:Hs; [|done].
  destruct (sdb_engine_bytes_valid key) eqn:Hk; [|done]; apply valid_size in Hs, Hk; cbn [negb orb andb].
  unfold SIZE_MAX, UINT64_MAX; zcmp; cbn [orb check]; f_equal; rewrite wrap_small by lia.
  rewrite <- (app_nil_l (zeros (4 + _ + _ + _))); fill.
  unfold pair_bytes; cbn [app length]; autorewrite with len; cbn [length].
  rewrite <- !app_assoc; cbn [app]; do 6 f_equal; lia.
Qed.

Lemma object_key_eq (kind : Z) (ns key : bytes) :
  0 <= kind < 256 ->
  sdb_object_key kind ns key
  = if sdb_engine_bytes_valid ns && sdb_engine_bytes_valid key then Ok (pair_bytes SDB_OBJECT_KEY_PREFIX kind ns key)
    else Err SDB_E_INVALID_ARGUMENT.
Proof. intros Hk; unfold sdb_object_key; rewrite pair_key_eq, wrap_small by lia; case_if; [by rewrite app_nil_r|done]. Qed.

(** Writing into the suffix of a key. *)
Lemma suffix_write (pre src : bytes) (off m : nat) :
  off = length pre -> (length src <= m)%nat -> memcpy_at (pre ++ zeros m) off src = pre ++ src ++ zeros (m - length src).
Proof. intros; rewrite fill_next by done; by rewrite app_assoc. Qed.

Lemma chunk_key_eq (kind : Z) (ns key : bytes) (generation index : Z) :
  0 <= kind < 256 ->
  sdb_chunk_key kind ns key generation index
  = if sdb_engine_bytes_valid ns && sdb_engine_bytes_valid key then Ok (chunk_bytes kind ns key generation index)
    else Err SDB_E_INVALID_ARGUMENT.
Proof.
  intros Hk; unfold sdb_chunk_key; rewrite pair_key_eq, wrap_small by lia; case_if; [|done]; cbn [mbind result_bind]; f_equal.
  unfold chunk_bytes; set (pre := pair_bytes _ _ _ _); fill; cbn [Nat.sub zeros replicate]; by rewrite app_nil_r, <- !app_assoc.
Qed.

Lemma reverse_key_eq (collection document_id : bytes) (ordinal : Z) :
  sdb_index_reverse_key collection document_id ordinal
  = if sdb_engine_bytes_valid collection && sdb_engine_bytes_valid document_id
    then Ok (reverse_bytes collection document_id ordinal) else Err SDB_E_INVALID_ARGUMENT.
Proof.
  unfold sdb_index_reverse_key; rewrite pair_key_eq, wrap_small by (unfold SDB_OBJECT_DOCUMENT; lia); case_if; [|done]; cbn [mbind result_bind]; f_equal.
  unfold reverse_bytes; set (pre := pair_bytes _ _ _ _); fill; cbn [Nat.sub zeros replicate]; by rewrite app_nil_r.
Qed.

Definition term_key_valid (collection index_name value : bytes) : bool :=
  sdb_engine_bytes_valid collection && sdb_engine_bytes_valid index_name && (Z.of_nat (length value) <=? SDB_ENGINE_MAX_NAME_SIZE).

Lemma base_key_eq (prefix : Z) (collection index_name value : bytes) (n : nat) :
  (n <= Z.to_nat 100000)%nat ->
  sdb_index_base_key prefix collection index_name value n
  = if term_key_valid collection index_name value then Ok (index_bytes prefix collection index_name value ++ zeros n)
    else Err SDB_E_INVALID_ARGUMENT.
Proof.
  intros Hn; unfold sdb_index_base_key, term_key_valid; destruct (sdb_engine_bytes_valid collection) eqn:Hs; [|done].
  destruct (sdb_engine_bytes_valid index_name) eqn:Hk; [|done]; apply valid_size in Hs, Hk; cbn [negb orb andb].
  unfold SDB_ENGINE_MAX_NAME_SIZE; destruct (Z.leb_spec (Z.of_nat (length value)) 1024).
  2: { rewrite Z.gtb_ltb, (proj2 (Z.ltb_lt _ _)) by lia; done. }
  unfold SIZE_MAX, UINT64_MAX; zcmp; cbn [orb check]; f_equal; rewrite !wrap_small by lia.
  rewrite <- (app_nil_l (zeros (7 + _ + _ + _ + _))); fill.
  unfold index_bytes; cbn [app length]; autorewrite with len; cbn [length].
  rewrite <- !app_assoc; cbn [app]; do 8 f_equal; lia.
Qed.

Lemma entry_key_eq (collection index_name value document_id : bytes) (generation : Z) :
  Z.of_nat (length document_id) <= 1024 ->
  index_entry_key collection index_name value document_id generation
  = if term_key_valid collection index_name value then Ok (entry_bytes collection index_name value document_id generation)
    else Err SDB_E_INVALID_ARGUMENT.
Proof.
  intros Hd; unfold index_entry_key; rewrite base_key_eq by lia; case_if; [|done]; cbn [mbind result_bind]; f_equal.
  unfold entry_bytes; set (pre := index_bytes _ _ _ _); rewrite wrap_small by lia; fill.
  autorewrite with len.
  replace (2 + length document_id + 8 - 2 - length document_id - 8)%nat with 0%nat by lia; cbn [zeros replicate].
  by rewrite app_nil_r, <- !app_assoc.
Qed.

(** ** The keys tell the rows apart *)

Lemma byte_of_Z_inj (a b : Z) : 0 <= a < 256 -> 0 <= b < 256 -> byte.of_Z a = byte.of_Z b -> a = b.
Proof. intros Ha Hb E; rewrite <- (byte_of_Z_small a Ha), <- (byte_of_Z_small b Hb); by rewrite E. Qed.

Lemma size_bytes_inj (s s' rest rest' : bytes) :
  Z.of_nat (length s) <= 1024 -> Z.of_nat (length s') <= 1024 ->
  size_bytes s ++ rest = size_bytes s' ++ rest' -> length s = length s' /\ rest = rest'.
Proof.
  intros Hs Hs' E; apply app_inj_1 in E as [E ->]; [|by rewrite !length_le_split]; split; [|done].
  apply le_split_inj in E; lia.
Qed.

Lemma cons_split (a b : byte) (l r : bytes) : a :: l = b :: r -> a = b /\ l = r.
Proof. by intros [= -> ->]. Qed.

Lemma pair_bytes_inj (p p' k k' : Z) (ns ns' key key' rest rest' : bytes) :
  0 <= p < 256 -> 0 <= p' < 256 -> 0 <= k < 256 -> 0 <= k' < 256 ->
  Z.of_nat (length ns) <= 1024 -> Z.of_nat (length ns') <= 1024 -> length rest = length rest' ->
  pair_bytes p k ns key ++ rest = pair_bytes p' k' ns' key' ++ rest' ->
  p = p' /\ k = k' /\ ns = ns' /\ key = key' /\ rest = rest'.
Proof.
  intros Hp Hp' Hk Hk' Hn Hn' Hr E; unfold pair_bytes in E; cbn [app] in E; rewrite <- !app_assoc in E; apply cons_split in E as [Ep E]; apply cons_split in E as [Ek E].
  apply byte_of_Z_inj in Ep; [|done..]; apply byte_of_Z_inj in Ek; [|done..].
  apply size_bytes_inj in E as [En E]; [|done..]; apply app_inj_1 in E as [-> E]; [|done].
  by apply app_inj_2 in E as [-> ->].
Qed.

Lemma index_bytes_inj (p p' : Z) (c c' n n' v v' rest rest' : bytes) :
  0 <= p < 256 -> 0 <= p' < 256 -> Z.of_nat (length c) <= 1024 -> Z.of_nat (length c') <= 1024 ->
  Z.of_nat (length n) <= 1024 -> Z.of_nat (length n') <= 1024 -> Z.of_nat (length v) <= 1024 -> Z.of_nat (length v') <= 1024 ->
  index_bytes p c n v ++ rest = index_bytes p' c' n' v' ++ rest' ->
  p = p' /\ c = c' /\ n = n' /\ v = v' /\ rest = rest'.
Proof.
  intros Hp Hp' Hc Hc' Hn Hn' Hv Hv' E; unfold index_bytes in E; cbn [app] in E; rewrite <- !app_assoc in E; apply cons_split in E as [Ep E].
  apply byte_of_Z_inj in Ep; [|done..]; do 3 (apply size_bytes_inj in E as [? E]; [|done..]).
  by do 3 (apply app_inj_1 in E as [-> E]; [|done]).
Qed.

(** The rows of the engine, named by what they are about. *)
Inductive row_name :=
  | RowCounter
  | RowObject (kind : Z) (ns key : bytes)
  | RowChunk (kind : Z) (ns key : bytes) (generation index : Z)
  | RowDefinition (collection index_name : bytes)
  | RowEntry (collection index_name value document_id : bytes) (generation : Z)
  | RowGuard (collection index_name value : bytes)
  | RowReverse (collection document_id : bytes) (ordinal : Z).

Definition row_key (r : row_name) : bytes :=
  match r with
  | RowCounter => sdb_generation_counter_key
  | RowObject kind ns key => pair_bytes SDB_OBJECT_KEY_PREFIX kind ns key
  | RowChunk kind ns key generation index => chunk_bytes kind ns key generation index
  | RowDefinition collection index_name => index_bytes SDB_INDEX_DEFINITION_PREFIX collection index_name []
  | RowEntry collection index_name value document_id generation => entry_bytes collection index_name value document_id generation
  | RowGuard collection index_name value => index_bytes SDB_UNIQUE_GUARD_PREFIX collection index_name value
  | RowReverse collection document_id ordinal => reverse_bytes collection document_id ordinal
  end.

Definition name_ok (s : bytes) : Prop := Z.of_nat (length s) <= 1024.

(** Names and numbers in the range of their fields. *)
Definition row_ok (r : row_name) : Prop :=
  match r with
  | RowCounter => True
  | RowObject kind ns key => 0 <= kind < 256 /\ name_ok ns /\ name_ok key
  | RowChunk kind ns key generation index =>
      0 <= kind < 256 /\ name_ok ns /\ name_ok key /\ 0 <= generation < 2 ^ 64 /\ 0 <= index < 2 ^ 32
  | RowDefinition collection index_name => name_ok collection /\ name_ok index_name
  | RowEntry collection index_name value document_id generation =>
      name_ok collection /\ name_ok index_name /\ name_ok value /\ name_ok document_id /\ 0 <= generation < 2 ^ 64
  | RowGuard collection index_name value => name_ok collection /\ name_ok index_name /\ name_ok value
  | RowReverse collection document_id ordinal => name_ok collection /\ name_ok document_id /\ 0 <= ordinal < 2 ^ 16
  end.

Definition row_prefix (r : row_name) : Z :=
  match r with
  | RowCounter => SDB_SEQUENCE_KEY_PREFIX
  | RowObject _ _ _ => SDB_OBJECT_KEY_PREFIX
  | RowChunk _ _ _ _ _ => SDB_CHUNK_KEY_PREFIX
  | RowDefinition _ _ => SDB_INDEX_DEFINITION_PREFIX
  | RowEntry _ _ _ _ _ => SDB_INDEX_ENTRY_PREFIX
  | RowGuard _ _ _ => SDB_UNIQUE_GUARD_PREFIX
  | RowReverse _ _ _ => SDB_INDEX_REVERSE_PREFIX
  end.

Lemma row_key_head (r : row_name) : exists rest, row_key r = byte.of_Z (row_prefix r) :: rest.
Proof. destruct r; eexists; reflexivity. Qed.

Lemma row_prefix_eq (r r' : row_name) : row_key r = row_key r' -> row_prefix r = row_prefix r'.
Proof.
  destruct (row_key_head r) as [x ->], (row_key_head r') as [y ->]; intros E; injection E as E _; apply byte_of_Z_inj in E; [done|..].
  - destruct r; cbn; vm_compute; split; congruence.
  - destruct r'; cbn; vm_compute; split; congruence.
Qed.

Lemma row_key_inj (r r' : row_name) : row_ok r -> row_ok r' -> row_key r = row_key r' -> r = r'.
Proof.
  intros Hr Hr' E; pose proof (row_prefix_eq _ _ E) as Ep.
  destruct r as [|k ns key|k ns key g i|c n|c n v d g|c n v|c d o], r' as [|k' ns' key'|k' ns' key' g' i'|c' n'|c' n' v' d' g'|c' n' v'|c' d' o'];
    cbn [row_prefix] in Ep; try (vm_compute in Ep; discriminate Ep); clear Ep; cbn [row_key row_ok] in *; unfold name_ok in *; try done.
  - rewrite <- (app_nil_r (pair_bytes _ k _ _)), <- (app_nil_r (pair_bytes _ k' _ _)) in E.
    apply pair_bytes_inj in E as (_ & -> & -> & -> & _); [done|vm_compute; split; congruence|vm_compute; split; congruence|lia..|done].
  - unfold chunk_bytes in E; apply pair_bytes_inj in E as (_ & -> & -> & -> & E);
      [|vm_compute; split; congruence|vm_compute; split; congruence|lia..|by rewrite !length_app, !length_le_split].
    apply app_inj_1 in E as [Eg Ei]; [|by rewrite !length_le_split]; apply le_split_inj in Eg; [|lia..]; apply le_split_inj in Ei; [|lia..]; by subst.
  - rewrite <- (app_nil_r (index_bytes _ c _ _)), <- (app_nil_r (index_bytes _ c' _ _)) in E.
    apply index_bytes_inj in E as (_ & -> & -> & _); [done|vm_compute; split; congruence|vm_compute; split; congruence|cbn; lia..].
  - unfold entry_bytes in E; apply index_bytes_inj in E as (_ & -> & -> & -> & E); [|vm_compute; split; congruence|vm_compute; split; congruence|lia..].
    apply size_bytes_inj in E as [Ed E]; [|lia..]; apply app_inj_1 in E as [-> E]; [|done]; apply le_split_inj in E; [by subst|lia..].
  - rewrite <- (app_nil_r (index_bytes _ c _ _)), <- (app_nil_r (index_bytes _ c' _ _)) in E.
    apply index_bytes_inj in E as (_ & -> & -> & -> & _); [done|vm_compute; split; congruence|vm_compute; split; congruence|lia..].
  - unfold reverse_bytes in E; apply pair_bytes_inj in E as (_ & _ & -> & -> & E);
      [|vm_compute; split; congruence|vm_compute; split; congruence|vm_compute; split; congruence|vm_compute; split; congruence|lia..|by rewrite !length_le_split].
    apply le_split_inj in E; [by subst|lia..].
Qed.

(** ** Order *)

Lemma key_cmp_app (p a b : bytes) : key_cmp (p ++ a) (p ++ b) = key_cmp a b.
Proof. induction p as [|x p IH]; [done|]; cbn; by rewrite Z.compare_refl. Qed.

Lemma key_cmp_cons (x y : byte) (a b : bytes) :
  key_cmp (x :: a) (y :: b)
  = match byte.unsigned x ?= byte.unsigned y with Eq => key_cmp a b | c => c end.
Proof. done. Qed.

(** Keys between two keys with a common prefix have it. *)
Lemma prefix_convex (p a b x : bytes) : key_le (p ++ a) x -> key_le x (p ++ b) -> p `prefix_of` x.
Proof.
  revert x; induction p as [|y p IH]; intros x H1 H2; [apply prefix_nil|].
  unfold key_le in *; destruct x as [|z x]; [done|]; cbn [app] in *; rewrite key_cmp_cons in *.
  destruct (Z.compare_spec (byte.unsigned y) (byte.unsigned z)) as [E|E|E]; [| |done].
  - assert (y = z) as -> by (rewrite <- (byte.of_Z_unsigned y), <- (byte.of_Z_unsigned z); by rewrite E).
    rewrite Z.compare_refl in H2; by apply prefix_cons, IH.
  - rewrite (proj2 (Z.compare_gt_iff _ _)) in H2 by done; done.
Qed.

Lemma pair_bytes_split (p k : Z) (ns key : bytes) :
  pair_bytes p k ns key = (byte.of_Z p :: byte.of_Z k :: size_bytes ns ++ ns) ++ key.
Proof. unfold pair_bytes; cbn [app]; by rewrite <- app_assoc. Qed.

(** C17: Objects are ordered by user key.  The row keys of two objects of one kind and
    namespace compare as the user keys do, and every object row between them belongs to
    the same kind and namespace: a namespace is one contiguous run of the tree, in the
    order of its user keys. *)
Theorem object_keys_ordered (kind kind' : Z) (ns ns' a b c ka kb kc : bytes) :
  0 <= kind < 256 -> 0 <= kind' < 256 ->
  sdb_object_key kind ns a = Ok ka -> sdb_object_key kind ns b = Ok kb -> sdb_object_key kind' ns' c = Ok kc ->
  (key_lt ka kb <-> key_lt a b)
  /\ (key_le ka kc -> key_le kc kb -> kind' = kind /\ ns' = ns /\ key_le a c /\ key_le c b).
Proof.
  intros Hk Hk'; rewrite !object_key_eq by done.
  destruct (sdb_engine_bytes_valid ns) eqn:Hn, (sdb_engine_bytes_valid ns') eqn:Hn', (sdb_engine_bytes_valid a), (sdb_engine_bytes_valid b),
    (sdb_engine_bytes_valid c); cbn [andb]; try done; intros [= <-] [= <-] [= <-]; apply valid_size in Hn, Hn'.
  split; [unfold key_lt; by rewrite !pair_bytes_split, key_cmp_app|]; intros H1 H2.
  pose proof H1 as Hp; rewrite pair_bytes_split in Hp; rewrite (pair_bytes_split _ kind ns b) in H2.
  destruct (prefix_convex _ _ _ _ Hp H2) as [rest E]; rewrite <- pair_bytes_split in E, H2.
  rewrite <- (app_nil_r (pair_bytes _ kind' _ _)), <- (app_nil_r (pair_bytes _ kind _ rest)) in E.
  apply pair_bytes_inj in E as (_ & -> & -> & -> & _); [|vm_compute; split; congruence|vm_compute; split; congruence|lia..|done].
  unfold key_le in *; by rewrite !pair_bytes_split, key_cmp_app in H1, H2.
Qed.

Lemma object_keys_ordered_witness :
  exists ka kb, sdb_object_key 1 [byte.of_Z 1] [byte.of_Z 2] = Ok ka /\ sdb_object_key 1 [byte.of_Z 1] [byte.of_Z 2; byte.of_Z 0] = Ok kb
    /\ key_lt ka kb.
Proof.
  do 2 eexists; split; [vm_compute; reflexivity|]; split; [vm_compute; reflexivity|].
  apply (object_keys_ordered 1 1 [byte.of_Z 1] [byte.of_Z 1] [byte.of_Z 2] [byte.of_Z 2; byte.of_Z 0] [byte.of_Z 2] _ _
           (pair_bytes SDB_OBJECT_KEY_PREFIX 1 [byte.of_Z 1] [byte.of_Z 2]));
    [split; [discriminate|reflexivity]|split; [discriminate|reflexivity]|vm_compute; reflexivity..].
Defined.

(** ** Canonical values *)

Definition metadata_typed (m : sdb_object_metadata) : Prop :=
  0 <= om_kind m < 2 ^ 16 /\ 0 <= om_generation m < 2 ^ 64 /\ 0 <= om_total_size m < 2 ^ 64
  /\ 0 <= om_chunk_count m < 2 ^ 32 /\ 0 <= om_chunk_size m < 2 ^ 32 /\ length (om_digest m) = 32%nat.

Lemma metadata_layout (m : sdb_object_metadata) :
  length (om_digest m) = 32%nat ->
  sdb_object_metadata_encode m
  = sdb_object_magic ++ le_split 2 1 ++ le_split 2 (om_kind m) ++ le_split 8 (om_generation m) ++ le_split 8 (om_total_size m)
    ++ le_split 4 (om_chunk_count m) ++ le_split 4 (om_chunk_size m) ++ om_digest m.
Proof.
  intros Hd; unfold sdb_object_metadata_encode, SDB_OBJECT_METADATA_SIZE; cbv zeta.
  assert (Hm : length sdb_object_magic = 4%nat) by done; generalize dependent sdb_object_magic; intros magic Hm.
  rewrite <- (app_nil_l (zeros 64)); fill; autorewrite with len; rewrite Hm, Hd.
  cbn [Nat.sub zeros replicate]; rewrite !app_nil_r, app_nil_l, <- !app_assoc; done.
Qed.

Lemma length_metadata (m : sdb_object_metadata) : length (sdb_object_metadata_encode m) = 64%nat.
Proof. unfold sdb_object_metadata_encode, SDB_OBJECT_METADATA_SIZE; by autorewrite with len. Qed.

Lemma read_le (buf : bytes) (off n : nat) (v : Z) :
  slice buf off n = le_split n v -> 0 <= v < 2 ^ (Z.of_nat n * 8) -> le_combine (slice buf off n) = v.
Proof. intros -> Hv; by apply le_combine_split_small. Qed.

Lemma metadata_decode_iff (input : bytes) (kind : Z) (m : sdb_object_metadata) :
  sdb_object_metadata_decode input kind = Ok m
  <-> om_kind m = kind /\ metadata_typed m /\ metadata_bad m = false /\ input = sdb_object_metadata_encode m.
Proof.
  assert (Hmg : length sdb_object_magic = 4%nat) by done; split.
  - unfold sdb_object_metadata_decode; intros H; inv_ok H; zbool_hyps; injection H as <-; cbn [om_kind].
    match goal with H : (_ =? _)%nat = true |- _ => apply Nat.eqb_eq in H; unfold SDB_OBJECT_METADATA_SIZE in H end.
    assert (Ht : metadata_typed {| om_kind := sdb_read_u16_le input 6; om_generation := sdb_read_u64_le input 8;
       om_total_size := sdb_read_u64_le input 16; om_chunk_count := sdb_read_u32_le input 24;
       om_chunk_size := sdb_read_u32_le input 28; om_digest := slice input 32 32 |}).
    { pose proof (sdb_read_u16_le_range input 6); pose proof (sdb_read_u64_le_range input 8); pose proof (sdb_read_u64_le_range input 16).
      pose proof (sdb_read_u32_le_range input 24); pose proof (sdb_read_u32_le_range input 28).
      unfold metadata_typed; cbn [om_kind om_generation om_total_size om_chunk_count om_chunk_size om_digest].
      split_and!; try lia; apply length_slice; lia. }
    do 3 (split; [done|]); rewrite metadata_layout by apply Ht; cbn [om_kind om_generation om_total_size om_chunk_count om_chunk_size om_digest].
    match goal with H : slice input 0 4 = _ |- _ => rewrite <- H end.
    match goal with H : sdb_read_u16_le input 4 = 1 |- _ => rewrite <- H end.
    rewrite !sdb_read_u16_le_spec, !sdb_read_u64_le_spec, !sdb_read_u32_le_spec, !le_split_combine_slice by lia.
    change 32%nat with (28 + 4)%nat at 1; rewrite <- !slice_add; cbn [Nat.add]; symmetry; by apply slice_all.
  - intros (<- & (H1 & H2 & H3 & H4 & H5 & Hd) & Hb & ->); pose proof (length_metadata m) as Hl; unfold sdb_object_metadata_decode, SDB_OBJECT_METADATA_SIZE.
    rewrite Hl; cbn [Nat.eqb negb orb]; rewrite metadata_layout by done.
    rewrite !sdb_read_u16_le_spec, !sdb_read_u64_le_spec, !sdb_read_u32_le_spec.
    generalize dependent sdb_object_magic; intros magic Hmg; app_simp.
    rewrite !le_combine_split_small, Z.eqb_refl, bool_decide_eq_true_2 by (done || lia); cbn [negb orb check].
    destruct m; cbn in *; by rewrite Hb, Z.eqb_refl.
Qed.

Lemma reverse_layout (g : Z) (t : sdb_index_term) (cap : Z) (value : bytes) :
  sdb_index_reverse_encode_term g t cap = Ok value ->
  sdb_engine_bytes_valid (it_index_name t) = true /\ sdb_engine_bytes_valid (it_value t) = true
  /\ Z.of_nat (length value) <= cap
  /\ value = le_split 8 g ++ size_bytes (it_index_name t) ++ it_index_name t ++ size_bytes (it_value t) ++ it_value t.
Proof.
  unfold sdb_index_reverse_encode_term; intros H; inv_ok H; zbool_hyps; injection H as <-.
  match goal with H : sdb_engine_bytes_valid (it_index_name t) = true |- _ => pose proof (valid_size _ H) end.
  match goal with H : sdb_engine_bytes_valid (it_value t) = true |- _ => pose proof (valid_size _ H) end.
  do 2 (split; [done|]); split; [autorewrite with len; lia|]; rewrite !wrap_small by lia.
  match goal with |- context [zeros ?n] => rewrite <- (app_nil_l (zeros n)) end; fill; autorewrite with len; rewrite app_nil_l.
  match goal with |- context [zeros ?n] => replace n with 0%nat by lia end; cbn [zeros replicate]; by rewrite app_nil_r, <- !app_assoc.
Qed.

(** The value of a reverse row, whichever way it is read. *)
Lemma reverse_decode_encode (g : Z) (t : sdb_index_term) (cap : Z) (value : bytes) :
  0 <= g < 2 ^ 64 -> sdb_index_reverse_encode_term g t cap = Ok value -> sdb_index_reverse_decode_term value = Ok (g, t).
Proof.
  intros Hg H; apply reverse_layout in H as (Hn & Hv & _ & E); apply valid_size in Hn, Hv.
  assert (Hl : Z.of_nat (length value) = 12 + Z.of_nat (length (it_index_name t)) + Z.of_nat (length (it_value t))).
  { rewrite E; autorewrite with len; lia. }
  assert (E8 : sdb_read_u16_le value 8 = Z.of_nat (length (it_index_name t))).
  { rewrite sdb_read_u16_le_spec, E; app_simp; apply le_combine_split_small; lia. }
  unfold sdb_index_reverse_decode_term; rewrite Hl, E8, Nat2Z.id; unfold SDB_ENGINE_MAX_NAME_SIZE; zcmp; cbn [orb check].
  assert (E10 : sdb_read_u16_le value (10 + length (it_index_name t)) = Z.of_nat (length (it_value t))).
  { rewrite sdb_read_u16_le_spec, E; app_simp; apply le_combine_split_small; lia. }
  rewrite E10, Nat2Z.id; zcmp; cbn [orb negb check]; rewrite sdb_read_u64_le_spec, E; app_simp.
  rewrite le_combine_split_small by lia; by destruct t.
Qed.
