(* ===== verification/EngineRows.v ===== *)
(** * The rows the engine works on

    [src/engine.c] reads and changes the tree only through
    [sdb_engine_tree_get], [sdb_engine_tree_put] and [sdb_engine_tree_delete] on an
    open batch, and looks at the batch's item count and failure status.  [Rows] names
    these operations and [RowsLaws] what the engine relies on; a batch of the B-tree
    is an instance. *)

From stdpp Require Import gmap.
From S2P Require Import Prelude Status Codec Keys Page BtreePage OrderedMap PagerInterface BtreeNode BtreeTree Btree BtreeGet BtreeBatch BtreeInsert BtreePut BtreeContext BtreeReclaim BtreeDelete BtreeSteady BtreeMap.

Class Rows (B : Type) := {
  (** [sdb_btree_batch_get], with the size of the output buffer *)
  rows_get : B -> bytes -> Z -> result bytes;
  (** [sdb_btree_batch_put] and [sdb_btree_batch_delete] *)
  rows_put : bytes -> bytes -> B -> result unit * B;
  rows_delete : bytes -> B -> result unit * B;
  (** [batch.count] and [batch.failure] *)
  rows_count : B -> nat;
  rows_failure : B -> sdb_status;
  rows_poison : B -> sdb_status -> B
}.

(** What a reader of the rows [m] gets. *)
Definition reads (get : bytes -> Z -> result bytes) (m : gmap bytes bytes) : Prop :=
  forall k capacity, get k capacity = if bad_key k then Err SDB_E_INVALID_ARGUMENT else lookup_result (m !! k) capacity.

(** [rows_are b m]: the batch is intact and its rows are [m].  A put or a delete does
    what the map operation does, or is refused and changes nothing, or leaves its
    failure in the batch, which then refuses everything. *)
Class RowsLaws (B : Type) `{!Rows B} := {
  rows_are : B -> gmap bytes bytes -> Prop;
  rows_intact (b : B) (m : gmap bytes bytes) : rows_are b m -> rows_failure b = SDB_OK;
  rows_get_law (b : B) (m : gmap bytes bytes) : rows_are b m -> reads (rows_get b) m;
  rows_put_law (b b' : B) (m : gmap bytes bytes) (k v : bytes) (r : result unit) :
    rows_are b m -> rows_put k v b = (r, b') ->
    match r with
    | Ok _ => rows_are b' (<[k := v]> m)
    | Err e => e <> SDB_OK
               /\ (rows_failure b' = e
                   \/ e = SDB_E_INVALID_ARGUMENT /\ b' = b /\ (bad_key k = true \/ Z.of_nat (length v) > UINT32_MAX))
    end;
  rows_delete_law (b b' : B) (m : gmap bytes bytes) (k : bytes) (r : result unit) :
    rows_are b m -> rows_delete k b = (r, b') ->
    match r with
    | Ok _ => is_Some (m !! k) /\ rows_are b' (delete k m)
    | Err e => e <> SDB_OK
               /\ (rows_failure b' = e /\ is_Some (m !! k)
                   \/ b' = b /\ (e = SDB_E_INVALID_ARGUMENT /\ bad_key k = true
                                \/ e = SDB_E_NOT_FOUND /\ bad_key k = false /\ m !! k = None))
    end;
  (** a failed batch answers no lookup *)
  rows_refuse (b : B) (k : bytes) (capacity : Z) : rows_failure b <> SDB_OK -> rows_get b k capacity = Err SDB_E_INVALID_ARGUMENT;
  rows_poison_law (b : B) (e : sdb_status) : rows_failure (rows_poison b e) = e;
  (** [rows_from b b']: [b'] is [b] some operations later, on the same transaction *)
  rows_from : relation B;
  #[global] rows_from_preorder :: PreOrder rows_from;
  rows_put_from (b : B) (m : gmap bytes bytes) (k v : bytes) : rows_are b m -> rows_from b (rows_put k v b).2;
  rows_delete_from (b : B) (m : gmap bytes bytes) (k : bytes) : rows_are b m -> rows_from b (rows_delete k b).2;
  rows_poison_from (b : B) (e : sdb_status) : e <> SDB_OK -> rows_from b (rows_poison b e)
}.

Section BatchRows.
Context {P T : Type} `{!PagerOps P T} `{!PagerLaws P T}.

#[global] Instance batch_rows : Rows (sdb_btree_batch (T := T)) := {
  rows_get := sdb_btree_batch_get;
  rows_put := sdb_btree_batch_put;
  rows_delete := sdb_btree_batch_delete;
  rows_count b := length (b_items b);
  rows_failure := b_failure;
  rows_poison := set_failure
}.

Lemma batch_put_fails (b b' : sdb_btree_batch) (m : gmap bytes bytes) (k v : bytes) (e : sdb_status) :
  batch_is b m -> sdb_btree_batch_put k v b = (Err e, b') ->
  e <> SDB_OK
  /\ (b_failure b' = e \/ e = SDB_E_INVALID_ARGUMENT /\ b' = b /\ (bad_key k = true \/ Z.of_nat (length v) > UINT32_MAX)).
Proof.
  intros (t & h & _ & _ & Ha & Hf) H; destruct (steady_put k v b) as [_ Hh]; rewrite H in Hh; cbn [fst] in Hh.
  split; [congruence|]; unfold sdb_btree_batch_put in H; rewrite Ha, Hf, (bool_decide_eq_true_2 (SDB_OK = SDB_OK)) in H by done.
  cbn [negb orb] in H; destruct (bad_key k || _) eqn:E; [|left; by apply sticky_failure in H].
  injection H as <- <-; right; split; [done|]; split; [done|]; apply orb_true_iff in E as [?|E]; [by left|right]; zbool_hyps; lia.
Qed.

Lemma batch_delete_fails (b b' : sdb_btree_batch) (m : gmap bytes bytes) (k : bytes) (e : sdb_status) :
  batch_is b m -> sdb_btree_batch_delete k b = (Err e, b') ->
  e <> SDB_OK
  /\ (b_failure b' = e /\ is_Some (m !! k)
      \/ b' = b /\ (e = SDB_E_INVALID_ARGUMENT /\ bad_key k = true \/ e = SDB_E_NOT_FOUND /\ bad_key k = false /\ m !! k = None)).
Proof.
  intros Hb H; destruct (steady_delete k b) as [_ Hh]; rewrite H in Hh; cbn [fst] in Hh; split; [congruence|].
  destruct (bad_key k) eqn:Ek; [rewrite (delete_guard b m) in H by done; injection H as <- <-; auto|].
  destruct (m !! k) as [v|] eqn:Em; [|rewrite (delete_missing b m) in H by done; injection H as <- <-; right; auto].
  left; split; [|done]; destruct (batch_delete_is b b' m k (Err e) Hb H) as [(m' & Hs & _)|Hp].
  { cbn [map_step] in Hs; rewrite Ek, Em in Hs; by destruct Hs. }
  destruct Hb as (t & h & Hbh & <- & Ha & Hf); unfold sdb_btree_batch_delete in H.
  rewrite Ha, Hf, Ek, (bool_decide_eq_true_2 (SDB_OK = SDB_OK)) in H by done; cbn [negb orb] in H.
  unfold sticky in H; destruct (delete_loop _ _ _ _ b) as [[[]|e'] b1] eqn:Ed; [done| |by injection H as <- <-].
  rewrite <- (bh_root _ _ _ Hbh) in Ed; apply (delete_loop_found _ _ t h) in Ed; [done|done|].
  unfold tree_contents in Em; by rewrite al_lookup_contents, Em.
Qed.

(** The pager of the transaction stays, and the root as long as nothing fails. *)
Definition batch_from (b b' : sdb_btree_batch (T := T)) : Prop :=
  pager_eqv (b_pager b') (b_pager b) /\ (b_failure b' = SDB_OK -> b_failure b = SDB_OK /\ b_root_page b' = b_root_page b).

#[local] Instance batch_from_preorder : PreOrder batch_from.
Proof.
  split; [by intros b|]; intros b b1 b2 [Hp1 H1] [Hp2 H2]; split; [by rewrite Hp2|]; intros Hf.
  destruct (H2 Hf) as [Hf1 ->]; by apply H1.
Qed.

Lemma batch_put_from (b : sdb_btree_batch) (m : gmap bytes bytes) (k v : bytes) : batch_is b m -> batch_from b (sdb_btree_batch_put k v b).2.
Proof.
  intros Hb; destruct (steady_put k v b) as [Hp _]; split; [done|]; pose proof Hb as (t & h & _ & _ & _ & Hf).
  destruct (sdb_btree_batch_put k v b) as [[[]|e] b'] eqn:H; cbn [snd]; intros Hf'; split; [done| |done|].
  - by destruct (put_ok_is b b' m k v Hb H).
  - destruct (batch_put_fails b b' m k v e Hb H) as [He [?|(_ & -> & _)]]; [congruence|done].
Qed.

Lemma batch_delete_from (b : sdb_btree_batch) (m : gmap bytes bytes) (k : bytes) : batch_is b m -> batch_from b (sdb_btree_batch_delete k b).2.
Proof.
  intros Hb; destruct (steady_delete k b) as [Hp _]; split; [done|]; pose proof Hb as (t & h & Hh & _ & _ & Hf).
  destruct (sdb_btree_batch_delete k b) as [[[]|e] b'] eqn:H; cbn [snd]; intros Hf'; split; [done| |done|].
  - by destruct (batch_delete_holds b b' t h k Hh H) as (_ & t' & h' & _ & _ & [] & _).
  - destruct (batch_delete_fails b b' m k e Hb H) as [He [[? _]|(-> & _)]]; [congruence|done].
Qed.

#[global] Instance batch_rows_laws : RowsLaws (sdb_btree_batch (T := T)).
Proof.
  refine {| rows_are := batch_is; rows_from := batch_from |}.
  - by intros b m (t & h & _ & _ & _ & Hf).
  - intros b m Hb k c; by apply batch_get_is.
  - intros b b' m k v [[]|e] Hb H; [by apply (put_ok_is b b' m k v)|by eapply batch_put_fails].
  - intros b b' m k [[]|e] Hb H; [|by eapply batch_delete_fails].
    destruct (batch_delete_is b b' m k (Ok tt) Hb H) as [(m' & Hs & Hb')|Hp].
    + cbn [map_step] in Hs; destruct (bad_key k); [by destruct Hs|]; destruct (m !! k) as [v|]; [|by destruct Hs].
      destruct Hs as [_ ->]; split; [by eexists|done].
    + destruct Hb as (t & h & Hbh & <- & Ha & Hf); destruct (batch_delete_holds b b' t h k Hbh H) as (_ & t' & h' & _ & _ & _ & Hf').
      by destruct Hp.
  - intros b k c Hf; cbn [rows_get batch_rows]; pose proof (run_op_poisoned b (OpGet k c) Hf) as H; by injection H.
  - done.
  - apply batch_put_from.
  - apply batch_delete_from.
  - by intros b e He.
Defined.

Lemma tree_reads (tree : sdb_btree (P := P)) (m : gmap bytes bytes) : tree_is tree m -> reads (sdb_btree_get tree) m.
Proof. intros Ht k capacity; by apply tree_get_is. Qed.
End BatchRows.
