(* ===== verification/EngineMap.v ===== *)
(** * The objects of a database as a finite map

    The object operations of [EngineObject], proved against [RowsLaws]: what the rows
    of an object are, that [sdb_object_put], [sdb_object_get] and [sdb_object_delete]
    are insertion, lookup and deletion in the map of objects, that they leave every
    other row alone, and that a failing operation changes no object or poisons the
    batch. *)

From stdpp Require Import gmap.
From S2P Require Import Prelude Status Codec Keys Sha256 BtreePage Btree BtreeGet EngineKeys EngineRows EngineObject.

(** ** The rows of an object *)

#[local] Opaque sdb_sha256 sdb_constant_time_equal sdb_object_metadata_encode.

Record object_id := { oi_kind : Z; oi_namespace : bytes; oi_key : bytes }.

#[global] Instance object_id_eq_dec : EqDecision object_id.
Proof. solve_decision. Defined.

#[global] Program Instance object_id_countable : Countable object_id :=
  inj_countable' (fun i => (oi_kind i, oi_namespace i, oi_key i)) (fun '(k, n, y) => {| oi_kind := k; oi_namespace := n; oi_key := y |}) _.
Next Obligation. by intros []. Qed.

Definition names_valid (i : object_id) : bool := sdb_engine_bytes_valid (oi_namespace i) && sdb_engine_bytes_valid (oi_key i).

Definition id_ok (i : object_id) : Prop := 0 <= oi_kind i < 256 /\ names_valid i = true.

Definition object_row (i : object_id) : row_name := RowObject (oi_kind i) (oi_namespace i) (oi_key i).
Definition chunk_row (i : object_id) (generation index : Z) : row_name := RowChunk (oi_kind i) (oi_namespace i) (oi_key i) generation index.

(** Chunk [index] of a value cut into pieces of [size] bytes. *)
Definition chunk_of (v : bytes) (size index : Z) : bytes := slice v (Z.to_nat (index * size)) (Z.to_nat size).

(** The metadata record describes the value. *)
Definition describes (md : sdb_object_metadata) (kind : Z) (v : bytes) : Prop :=
  om_kind md = kind /\ metadata_typed md /\ metadata_bad md = false
  /\ om_total_size md = Z.of_nat (length v) /\ om_digest md = sdb_sha256 v.

Record object_stored (m : gmap bytes bytes) (i : object_id) (md : sdb_object_metadata) (v : bytes) : Prop := {
  os_describes : describes md (oi_kind i) v;
  os_metadata : m !! row_key (object_row i) = Some (sdb_object_metadata_encode md);
  os_chunks (j : Z) : 0 <= j < om_chunk_count md ->
    m !! row_key (chunk_row i (om_generation md) j) = Some (chunk_of v (om_chunk_size md) j)
}.

(** The rows [m] hold exactly the objects [objs], of generations up to [c]. *)
Record objects_are (m : gmap bytes bytes) (c : Z) (objs : gmap object_id bytes) : Prop := {
  oa_ids (i : object_id) : is_Some (objs !! i) -> id_ok i;
  oa_some (i : object_id) (v : bytes) : objs !! i = Some v -> exists md, object_stored m i md v /\ om_generation md <= c;
  oa_none (i : object_id) : id_ok i -> objs !! i = None -> m !! row_key (object_row i) = None;
  oa_no_orphan (i : object_id) (g j : Z) : id_ok i -> 0 <= g < 2 ^ 64 -> 0 <= j < 2 ^ 32 ->
    is_Some (m !! row_key (chunk_row i g j)) ->
    exists md v, object_stored m i md v /\ g = om_generation md /\ j < om_chunk_count md
}.

(** The rows an operation on object [i] may change. *)
Definition own_row (i : object_id) (r : row_name) : Prop :=
  r = RowCounter \/ r = object_row i \/ exists g j, r = chunk_row i g j.

Definition same_elsewhere (i : object_id) (m m' : gmap bytes bytes) : Prop :=
  forall r, row_ok r -> ~ own_row i r -> m' !! row_key r = m !! row_key r.

Lemma bad_key_row (r : row_name) : row_ok r -> bad_key (row_key r) = false.
Proof.
  intros H; unfold bad_key; destruct r; cbn [row_key row_ok] in *; unfold name_ok in *;
    unfold chunk_bytes, entry_bytes, reverse_bytes, index_bytes, pair_bytes, size_bytes, sdb_generation_counter_key; cbn [length app];
    rewrite ?length_app, ?length_le_split; cbn [length]; rewrite ?length_app, ?length_le_split; cbn [length]; unfold UINT16_MAX;
    (apply orb_false_iff; split; [apply Z.eqb_neq|rewrite Z.gtb_ltb; apply Z.ltb_ge]); lia.
Qed.

Lemma valid_name (s : bytes) : sdb_engine_bytes_valid s = true -> name_ok s.
Proof. intros H; apply valid_size in H; unfold name_ok; lia. Qed.

Lemma object_row_ok (i : object_id) : id_ok i -> row_ok (object_row i).
Proof. intros [Hk Hn]; apply andb_true_iff in Hn as [??]; cbn; auto using valid_name. Qed.

Lemma chunk_row_ok (i : object_id) (g j : Z) : id_ok i -> 0 <= g < 2 ^ 64 -> 0 <= j < 2 ^ 32 -> row_ok (chunk_row i g j).
Proof. intros [Hk Hn] Hg Hj; apply andb_true_iff in Hn as [??]; cbn; auto 6 using valid_name. Qed.

Lemma row_key_ne (r r' : row_name) : row_ok r -> row_ok r' -> r <> r' -> row_key r <> row_key r'.
Proof. intros H H' Hn E; by apply Hn, row_key_inj. Qed.

Lemma object_key_of (i : object_id) :
  0 <= oi_kind i < 256 ->
  sdb_object_key (oi_kind i) (oi_namespace i) (oi_key i)
  = if names_valid i then Ok (row_key (object_row i)) else Err SDB_E_INVALID_ARGUMENT.
Proof. intros Hk; by rewrite object_key_eq. Qed.

Lemma chunk_key_of (i : object_id) (g j : Z) :
  id_ok i -> sdb_chunk_key (oi_kind i) (oi_namespace i) (oi_key i) g j = Ok (row_key (chunk_row i g j)).
Proof. intros [Hk Hn]; rewrite chunk_key_eq by done; unfold names_valid in Hn; by rewrite Hn. Qed.

(** ** Cutting a value into chunks *)

Lemma chunk_count_spec (t c : Z) :
  0 < c -> 0 < t -> 0 < chunk_count_for t c <= t /\ (chunk_count_for t c - 1) * c < t <= chunk_count_for t c * c.
Proof.
  intros Hc Ht; unfold chunk_count_for; pose proof (Z.div_mod t c ltac:(lia)); pose proof (Z.mod_pos_bound t c Hc).
  destruct (Z.eqb_spec (t mod c) 0) as [E|E]; cbn [negb]; nia.
Qed.

Lemma describes_chunks (md : sdb_object_metadata) (kind : Z) (v : bytes) :
  describes md kind v ->
  om_chunk_count md = 0 /\ v = []
  \/ 0 < om_chunk_size md <= 2048 /\ 0 < om_chunk_count md < 2 ^ 32
     /\ (om_chunk_count md - 1) * om_chunk_size md < Z.of_nat (length v) <= om_chunk_count md * om_chunk_size md.
Proof.
  intros (_ & (_ & Hg & Ht & Hc & Hs & _) & Hb & Hl & _); unfold metadata_bad, SDB_OBJECT_CHUNK_TARGET in Hb.
  rewrite <- Hl; destruct (Z.eqb_spec (om_total_size md) 0) as [E|E].
  { left; split; [|destruct v; cbn in *; [done|lia]]; cbn [andb negb] in Hb; zbool_hyps; lia. }
  right; cbn [andb negb] in Hb; destruct (Z.eqb_spec (om_chunk_count md) 0); [by rewrite !orb_true_r in Hb|].
  destruct (Z.eqb_spec (om_chunk_size md) 0); [by rewrite !orb_true_r in Hb|]; cbn [andb negb orb] in Hb; zbool_hyps.
  fold (chunk_count_for (om_total_size md) (om_chunk_size md)) in *.
  pose proof (chunk_count_spec (om_total_size md) (om_chunk_size md) ltac:(lia) ltac:(lia)) as [??].
  rewrite wrap_small in * by lia; lia.
Qed.

Lemma plan_chunk_size_range (leaf_capacity key_size c : Z) : plan_chunk_size leaf_capacity key_size = Ok c -> 0 < c <= 2048.
Proof. unfold plan_chunk_size, SDB_OBJECT_CHUNK_TARGET; intros H; inv_ok H; zbool_hyps; injection H as <-; case_if; zbool_hyps; lia. Qed.

Lemma plan_describes (kind g c : Z) (v : bytes) :
  0 <= kind < 256 -> 0 < g <= UINT64_MAX -> 0 < c <= 2048 ->
  negb (Z.of_nat (length v) =? 0) && (chunk_count_for (Z.of_nat (length v)) c >? UINT32_MAX) = false ->
  describes {| om_kind := kind; om_generation := g; om_total_size := Z.of_nat (length v);
               om_chunk_count := if Z.of_nat (length v) =? 0 then 0 else chunk_count_for (Z.of_nat (length v)) c;
               om_chunk_size := if Z.of_nat (length v) =? 0 then 0 else c;
               om_digest := sdb_sha256 v |} kind v.
Proof.
  intros Hk Hg Hc Hb; unfold describes, metadata_typed, metadata_bad;
    cbn [om_kind om_generation om_total_size om_chunk_count om_chunk_size om_digest].
  rewrite length_sha256; unfold SIZE_MAX, UINT64_MAX, UINT32_MAX, SDB_OBJECT_CHUNK_TARGET in *.
  destruct (Z.eqb_spec (Z.of_nat (length v)) 0) as [E|E]; cbn [negb andb] in *.
  - rewrite E; zcmp; cbn [orb negb andb]; split_and!; (done || lia).
  - zbool_hyps; pose proof (chunk_count_spec (Z.of_nat (length v)) c ltac:(lia) ltac:(lia)) as [Hn Hm].
    assert (Z.of_nat (length v) <= 2 ^ 32 * 2048) by nia; fold (chunk_count_for (Z.of_nat (length v)) c).
    rewrite wrap_small by lia; zcmp; cbn [orb negb andb]; split_and!; (done || lia).
Qed.

Lemma chunk_of_length (v : bytes) (size j : Z) :
  0 < size -> 0 <= j -> j * size < Z.of_nat (length v) ->
  Z.of_nat (length (chunk_of v size j)) = Z.min size (Z.of_nat (length v) - j * size).
Proof. intros; unfold chunk_of, slice; rewrite length_take, length_drop; lia. Qed.

Lemma take_chunk (v : bytes) (size j : Z) :
  0 < size -> 0 <= j -> take (Z.to_nat (j * size)) v ++ chunk_of v size j = take (Z.to_nat ((j + 1) * size)) v.
Proof.
  intros; unfold chunk_of, slice; replace (Z.to_nat ((j + 1) * size)) with (Z.to_nat (j * size) + Z.to_nat size)%nat by lia.
  apply take_take_drop.
Qed.

(** ** Reading *)

Section Get.
Context (get : bytes -> Z -> result bytes) (m : gmap bytes bytes) (Hget : reads get m).

Lemma get_row (r : row_name) (capacity : Z) : row_ok r -> get (row_key r) capacity = lookup_result (m !! row_key r) capacity.
Proof. intros Hr; rewrite Hget; by rewrite bad_key_row. Qed.

Lemma read_metadata_stored (i : object_id) (md : sdb_object_metadata) (v : bytes) :
  id_ok i -> object_stored m i md v -> sdb_object_read_metadata get (oi_kind i) (oi_namespace i) (oi_key i) = Ok md.
Proof.
  intros Hi [(Hk & Ht & Hb & _) Hm _]; unfold sdb_object_read_metadata; destruct (Hi) as [Hr Hn]; rewrite object_key_of, Hn by done; cbn [mbind result_bind].
  rewrite get_row, Hm by (by apply object_row_ok); cbn [lookup_result]; rewrite length_metadata.
  rewrite (proj2 (Z.ltb_ge _ _)) by done; cbn [mbind result_bind]; by apply metadata_decode_iff.
Qed.

Lemma read_metadata_absent (i : object_id) :
  id_ok i -> m !! row_key (object_row i) = None ->
  sdb_object_read_metadata get (oi_kind i) (oi_namespace i) (oi_key i) = Err SDB_E_NOT_FOUND.
Proof.
  intros Hi Hm; unfold sdb_object_read_metadata; destruct (Hi) as [Hr Hn]; rewrite object_key_of, Hn by done; cbn [mbind result_bind].
  by rewrite get_row, Hm by (by apply object_row_ok).
Qed.

Lemma read_metadata_invalid (i : object_id) :
  0 <= oi_kind i < 256 -> names_valid i = false ->
  sdb_object_read_metadata get (oi_kind i) (oi_namespace i) (oi_key i) = Err SDB_E_INVALID_ARGUMENT.
Proof. intros Hk Hn; unfold sdb_object_read_metadata; by rewrite object_key_of, Hn by done. Qed.

Lemma get_chunks_stored (i : object_id) (md : sdb_object_metadata) (v : bytes) (capacity : Z) :
  id_ok i -> object_stored m i md v -> Z.of_nat (length v) <= capacity -> om_chunk_count md <> 0 ->
  forall n j output, 0 <= j -> j + Z.of_nat n = om_chunk_count md -> output = take (Z.to_nat (j * om_chunk_size md)) v ->
  get_chunks get md (oi_kind i) (oi_namespace i) (oi_key i) capacity n j output = Ok v.
Proof.
  intros Hi [Hd _ Hc] Hcap Hne; destruct (describes_chunks _ _ _ Hd) as [[E _]|(Hs & Hn & Hl)]; [done|].
  destruct Hd as (_ & (_ & Hg & Ht & _) & _ & Hlen & _).
  induction n as [|n IH]; intros j output Hj Hjn ->; cbn [get_chunks].
  { f_equal; apply take_ge; replace j with (om_chunk_count md) by lia; lia. }
  rewrite chunk_key_of by done; cbn [mbind result_bind]; rewrite get_row, Hc by (done || lia || (apply chunk_row_ok; (done || lia))); cbn [lookup_result].
  assert (Hjv : j * om_chunk_size md < Z.of_nat (length v)) by nia.
  pose proof (chunk_of_length v (om_chunk_size md) j ltac:(lia) Hj Hjv) as Hcl; rewrite length_take_le by lia.
  rewrite (proj2 (Z.ltb_ge _ _)) by lia; cbn [mbind result_bind]; rewrite wrap_small by lia; zcmp; cbn [orb check].
  apply IH; [lia|lia|by apply take_chunk; lia].
Qed.

(** What [sdb_object_get] returns and stores through [value_size_out]. *)
Definition get_result (v : option bytes) (capacity : Z) : result bytes * option Z :=
  match v with
  | None => (Err SDB_E_NOT_FOUND, None)
  | Some v => (if capacity <? Z.of_nat (length v) then Err SDB_E_BUFFER_TOO_SMALL else Ok v, Some (Z.of_nat (length v)))
  end.

Lemma digest_matches (v digest : bytes) :
  length digest = 32%nat -> digest = sdb_sha256 v -> sdb_constant_time_equal (sdb_sha256 v) digest 32 = true.
Proof. intros Hl ->; rewrite constant_time_equal_spec by lia; by apply bool_decide_eq_true_2. Qed.

Lemma object_get_is (c : Z) (objs : gmap object_id bytes) (i : object_id) (capacity : Z) :
  objects_are m c objs -> 0 <= oi_kind i < 256 ->
  sdb_object_get get (oi_kind i) (oi_namespace i) (oi_key i) capacity
  = if names_valid i then get_result (objs !! i) capacity else (Err SDB_E_INVALID_ARGUMENT, None).
Proof.
  intros Ho Hk; unfold sdb_object_get; destruct (names_valid i) eqn:Hn; [|by rewrite read_metadata_invalid].
  assert (Hi : id_ok i) by done; destruct (objs !! i) as [v|] eqn:E; cbn [get_result].
  2: by rewrite read_metadata_absent by (done || (by eapply oa_none)).
  destruct (oa_some _ _ _ Ho i v E) as (md & Hs & _); rewrite (read_metadata_stored i md v) by done.
  pose proof (os_describes _ _ _ _ Hs) as (_ & (_ & _ & _ & _ & _ & Hd) & _ & Hl & Hsha); rewrite Hl; f_equal.
  destruct (Z.ltb_spec capacity (Z.of_nat (length v))) as [|Hcap]; cbn [check]; [done|].
  assert (get_chunks get md (oi_kind i) (oi_namespace i) (oi_key i) capacity (Z.to_nat (om_chunk_count md)) 0 [] = Ok v) as ->.
  { destruct (describes_chunks _ _ _ (os_describes _ _ _ _ Hs)) as [[-> ->]|(? & ? & ?)]; [done|].
    apply (get_chunks_stored i md v capacity); [done..|lia|lia|lia|]; by rewrite Z.mul_0_l. }
  cbn [mbind result_bind]; rewrite Z.eqb_refl; by rewrite check_false, digest_matches.
Qed.
End Get.

(** ** The effect of an operation on one object

    Object [i] becomes [o] (its metadata and value, or nothing), and every row that is
    not its own and not the counter stays. *)

Record object_effect (i : object_id) (m m' : gmap bytes bytes) (o : option (sdb_object_metadata * bytes)) : Prop := {
  oe_object : match o with
              | Some (md, v) => object_stored m' i md v
              | None => m' !! row_key (object_row i) = None
              end;
  oe_chunks (g j : Z) : 0 <= g < 2 ^ 64 -> 0 <= j < 2 ^ 32 -> is_Some (m' !! row_key (chunk_row i g j)) ->
    exists md v, o = Some (md, v) /\ g = om_generation md /\ j < om_chunk_count md;
  oe_elsewhere : same_elsewhere i m m'
}.

Definition effect_map (i : object_id) (o : option (sdb_object_metadata * bytes)) (objs : gmap object_id bytes) : gmap object_id bytes :=
  match o with
  | Some (_, v) => <[i := v]> objs
  | None => delete i objs
  end.

Lemma object_id_rows (i i' : object_id) : object_row i' = object_row i -> i' = i.
Proof. destruct i, i'; cbn; by intros [= -> -> ->]. Qed.

Lemma not_own_object (i i' : object_id) : i' <> i -> ~ own_row i (object_row i').
Proof. intros Hn [?|[E|(g & j & ?)]]; [done|by apply object_id_rows in E|done]. Qed.

Lemma not_own_chunk (i i' : object_id) (g j : Z) : i' <> i -> ~ own_row i (chunk_row i' g j).
Proof. intros Hn [?|[?|(g' & j' & [= ? ? ?])]]; [done..|]; destruct i, i'; cbn in *; congruence. Qed.

Lemma stored_elsewhere (m m' : gmap bytes bytes) (i i' : object_id) (md : sdb_object_metadata) (v : bytes) :
  id_ok i' -> i' <> i -> same_elsewhere i m m' -> object_stored m i' md v -> object_stored m' i' md v.
Proof.
  intros Hi Hn Hs [Hd Hm Hc]; split; [done| |].
  - rewrite Hs; [done|by apply object_row_ok|by apply not_own_object].
  - intros j Hj; destruct (Hd) as (_ & (_ & Hg & _ & Hcc & _) & _).
    rewrite Hs; [by apply Hc|apply chunk_row_ok; (done || lia)|by apply not_own_chunk].
Qed.

Lemma objects_are_effect (m m' : gmap bytes bytes) (c c' : Z) (objs : gmap object_id bytes) (i : object_id)
    (o : option (sdb_object_metadata * bytes)) :
  objects_are m c objs -> id_ok i -> object_effect i m m' o -> c <= c' ->
  (forall md v, o = Some (md, v) -> om_generation md <= c') -> objects_are m' c' (effect_map i o objs).
Proof.
  intros [Hids Hsome Hnone Horphan] Hi [Ho Hch Hsame] Hc Hg; split.
  - intros i' [v Hv]; destruct o as [[md v']|]; cbn in Hv; [apply lookup_insert_Some in Hv|apply lookup_delete_Some in Hv].
    + destruct Hv as [[<- _]|[_ Hv]]; [done|]; by apply Hids.
    + destruct Hv as [_ Hv]; by apply Hids.
  - intros i' v; destruct (decide (i' = i)) as [->|Hn].
    + destruct o as [[md v']|]; cbn; [rewrite lookup_insert_eq; intros [= <-]|by rewrite lookup_delete_eq].
      exists md; split; [done|]; by eapply Hg.
    + intros Hv; assert (Hv' : objs !! i' = Some v).
      { destruct o as [[md v']|]; cbn in Hv; [by rewrite lookup_insert_ne in Hv by congruence|by rewrite lookup_delete_ne in Hv by congruence]. }
      destruct (Hsome i' v Hv') as (md & Hs & Hle); exists md; split; [|lia]; eapply stored_elsewhere; eauto.
  - intros i' Hi' Hv; destruct (decide (i' = i)) as [->|Hn].
    + destruct o as [[md v']|]; cbn in Hv; [by rewrite lookup_insert_eq in Hv|done].
    + rewrite Hsame by (by apply object_row_ok || by apply not_own_object); apply Hnone; [done|].
      destruct o as [[md v']|]; cbn in Hv; [by rewrite lookup_insert_ne in Hv by congruence|by rewrite lookup_delete_ne in Hv by congruence].
  - intros i' g j Hi' Hgr Hj Hs; destruct (decide (i' = i)) as [->|Hn].
    + destruct (Hch g j Hgr Hj Hs) as (md & v & -> & -> & Hlt); by exists md, v.
    + rewrite Hsame in Hs by (by apply chunk_row_ok || by apply not_own_chunk).
      destruct (Horphan i' g j Hi' Hgr Hj Hs) as (md & v & Hm & ?); exists md, v; split; [|done]; by eapply stored_elsewhere.
Qed.

(** [old] is the version of object [i] in [m], and the chunk rows of [i] are those of [old]. *)
Record version_is (m : gmap bytes bytes) (c : Z) (i : object_id) (old : option sdb_object_metadata) : Prop := {
  vi_object : match old with
              | Some md => om_generation md <= c /\ exists v, object_stored m i md v
              | None => m !! row_key (object_row i) = None
              end;
  vi_chunks (g j : Z) : 0 <= g < 2 ^ 64 -> 0 <= j < 2 ^ 32 -> is_Some (m !! row_key (chunk_row i g j)) ->
    exists md, old = Some md /\ g = om_generation md /\ j < om_chunk_count md
}.

Lemma stored_unique (m : gmap bytes bytes) (i : object_id) (md md' : sdb_object_metadata) (v v' : bytes) :
  object_stored m i md v -> object_stored m i md' v' -> md = md'.
Proof.
  intros [(Hk & Ht & Hb & _) Hm _] [(Hk' & Ht' & Hb' & _) Hm' _]; assert (E : sdb_object_metadata_encode md = sdb_object_metadata_encode md') by congruence.
  assert (H : sdb_object_metadata_decode (sdb_object_metadata_encode md) (oi_kind i) = Ok md) by (by apply metadata_decode_iff).
  assert (H' : sdb_object_metadata_decode (sdb_object_metadata_encode md) (oi_kind i) = Ok md') by (by apply metadata_decode_iff).
  congruence.
Qed.

Lemma objects_version (m : gmap bytes bytes) (c : Z) (objs : gmap object_id bytes) (i : object_id) :
  objects_are m c objs -> id_ok i ->
  exists old, version_is m c i old /\ (is_Some old <-> is_Some (objs !! i)).
Proof.
  intros [_ Hsome Hnone Horphan] Hi; destruct (objs !! i) as [v|] eqn:E.
  - destruct (Hsome i v E) as (md & Hs & Hle); exists (Some md); split; [split; [by eauto|]|by split; eexists].
    intros g j Hg Hj Hc; destruct (Horphan i g j Hi Hg Hj Hc) as (md' & v' & Hs' & -> & Hlt); exists md.
    by rewrite (stored_unique _ _ _ _ _ _ Hs Hs').
  - exists None; split; [split; [by apply Hnone|]|split; by intros [? [=]]].
    intros g j Hg Hj Hc; destruct (Horphan i g j Hi Hg Hj Hc) as (md' & v' & [_ Hm _] & _); by rewrite Hnone in Hm.
Qed.

(** ** Storing and removing the chunks *)

Fixpoint put_chunks (i : object_id) (g size : Z) (v : bytes) (n : nat) (j : Z) (m : gmap bytes bytes) : gmap bytes bytes :=
  match n with
  | O => m
  | S n => put_chunks i g size v n (j + 1) (<[row_key (chunk_row i g j) := chunk_of v size j]> m)
  end.

Fixpoint drop_chunks (i : object_id) (g : Z) (n : nat) (j : Z) (m : gmap bytes bytes) : gmap bytes bytes :=
  match n with
  | O => m
  | S n => drop_chunks i g n (j + 1) (delete (row_key (chunk_row i g j)) m)
  end.

Section Chunks.
Context (i : object_id) (g : Z) (Hi : id_ok i) (Hg : 0 <= g < 2 ^ 64).

Lemma chunk_key_ne (j j' : Z) : 0 <= j < 2 ^ 32 -> 0 <= j' < 2 ^ 32 -> j <> j' -> row_key (chunk_row i g j) <> row_key (chunk_row i g j').
Proof. intros; apply row_key_ne; [by apply chunk_row_ok|by apply chunk_row_ok|]; by intros [= ?]. Qed.

Lemma put_chunks_other (size : Z) (v k : bytes) (n : nat) (j : Z) (m : gmap bytes bytes) :
  (forall j', j <= j' < j + Z.of_nat n -> k <> row_key (chunk_row i g j')) -> put_chunks i g size v n j m !! k = m !! k.
Proof.
  revert j m; induction n as [|n IH]; intros j m Hk; [done|]; cbn [put_chunks]; rewrite IH by (intros; apply Hk; lia).
  rewrite lookup_insert_ne; [done|]; apply not_eq_sym, Hk; lia.
Qed.

Lemma drop_chunks_other (k : bytes) (n : nat) (j : Z) (m : gmap bytes bytes) :
  (forall j', j <= j' < j + Z.of_nat n -> k <> row_key (chunk_row i g j')) -> drop_chunks i g n j m !! k = m !! k.
Proof.
  revert j m; induction n as [|n IH]; intros j m Hk; [done|]; cbn [drop_chunks]; rewrite IH by (intros; apply Hk; lia).
  rewrite lookup_delete_ne; [done|]; apply not_eq_sym, Hk; lia.
Qed.

Lemma put_chunks_in (size : Z) (v : bytes) (n : nat) (j j' : Z) (m : gmap bytes bytes) :
  0 <= j -> j + Z.of_nat n <= 2 ^ 32 -> j <= j' < j + Z.of_nat n ->
  put_chunks i g size v n j m !! row_key (chunk_row i g j') = Some (chunk_of v size j').
Proof.
  revert j m; induction n as [|n IH]; intros j m Hj Hn Hj'; [lia|]; cbn [put_chunks]; destruct (decide (j' = j)) as [->|].
  - rewrite put_chunks_other by (intros; apply chunk_key_ne; lia); apply lookup_insert_eq.
  - apply IH; lia.
Qed.

Lemma drop_chunks_in (n : nat) (j j' : Z) (m : gmap bytes bytes) :
  0 <= j -> j + Z.of_nat n <= 2 ^ 32 -> j <= j' < j + Z.of_nat n -> drop_chunks i g n j m !! row_key (chunk_row i g j') = None.
Proof.
  revert j m; induction n as [|n IH]; intros j m Hj Hn Hj'; [lia|]; cbn [drop_chunks]; destruct (decide (j' = j)) as [->|].
  - rewrite drop_chunks_other by (intros; apply chunk_key_ne; lia); apply lookup_delete_eq.
  - apply IH; lia.
Qed.
End Chunks.

Definition drop_version (i : object_id) (old : option sdb_object_metadata) (m : gmap bytes bytes) : gmap bytes bytes :=
  match old with
  | Some md => drop_chunks i (om_generation md) (Z.to_nat (om_chunk_count md)) 0 m
  | None => m
  end.

Lemma drop_version_other (i : object_id) (old : option sdb_object_metadata) (m : gmap bytes bytes) (k : bytes) :
  (forall md j, old = Some md -> 0 <= j < om_chunk_count md -> k <> row_key (chunk_row i (om_generation md) j)) ->
  drop_version i old m !! k = m !! k.
Proof. intros H; destruct old as [md|]; cbn; [|done]; apply drop_chunks_other; intros j Hj; apply H; [done|lia]. Qed.

Definition counter_row_of (c : Z) (m : gmap bytes bytes) : gmap bytes bytes := <[row_key RowCounter := le_split 8 c]> m.

(** The rows with a new version written, after a put and after a delete. *)
Definition written_rows (i : object_id) (md : sdb_object_metadata) (v : bytes) (m : gmap bytes bytes) : gmap bytes bytes :=
  <[row_key (object_row i) := sdb_object_metadata_encode md]>
    (put_chunks i (om_generation md) (om_chunk_size md) v (Z.to_nat (om_chunk_count md)) 0 (counter_row_of (om_generation md) m)).

Definition put_rows (i : object_id) (md : sdb_object_metadata) (v : bytes) (old : option sdb_object_metadata) (m : gmap bytes bytes)
  : gmap bytes bytes :=
  drop_version i old (written_rows i md v m).

Definition delete_rows (i : object_id) (old : option sdb_object_metadata) (m : gmap bytes bytes) : gmap bytes bytes :=
  delete (row_key (object_row i)) (drop_version i old m).

Section Rows.
Context (i : object_id) (m : gmap bytes bytes) (c : Z) (old : option sdb_object_metadata).
Context (Hi : id_ok i) (Hold : version_is m c i old).

Lemma old_range (md : sdb_object_metadata) :
  old = Some md -> 0 <= om_generation md < 2 ^ 64 /\ om_generation md <= c /\ 0 <= om_chunk_count md < 2 ^ 32.
Proof. destruct Hold as [Ho _]; intros E; rewrite E in Ho; destruct Ho as (? & v & [(_ & (_ & ? & _ & ? & _) & _) _ _]); done. Qed.

(** A chunk row the operation has not written itself is gone. *)
Lemma drop_version_chunk (m' : gmap bytes bytes) (g j : Z) :
  0 <= g < 2 ^ 64 -> 0 <= j < 2 ^ 32 -> m' !! row_key (chunk_row i g j) = m !! row_key (chunk_row i g j) ->
  drop_version i old m' !! row_key (chunk_row i g j) = None.
Proof.
  intros Hg Hj E; destruct (m !! row_key (chunk_row i g j)) as [x|] eqn:Hx.
  - destruct (vi_chunks _ _ _ _ Hold g j Hg Hj) as (md & Eo & -> & Hlt); [by rewrite Hx|].
    destruct (old_range md Eo) as (? & _ & ?); rewrite Eo; cbn [drop_version]; apply drop_chunks_in; (done || lia).
  - destruct (decide (drop_version i old m' !! row_key (chunk_row i g j) = None)) as [|Hn]; [done|].
    rewrite drop_version_other in Hn; [done|]; intros md j' Eo Hj' Ek; destruct (old_range md Eo) as (? & _ & ?).
    apply row_key_inj in Ek; [|apply chunk_row_ok; (done || lia)..]; injection Ek as -> ->.
    apply Hn; rewrite Eo; cbn [drop_version]; apply drop_chunks_in; (done || lia).
Qed.

Lemma drop_version_elsewhere (m' : gmap bytes bytes) (r : row_name) :
  row_ok r -> (forall g j, r <> chunk_row i g j) -> drop_version i old m' !! row_key r = m' !! row_key r.
Proof.
  intros Hr Hn; apply drop_version_other; intros md j E Hj; destruct (old_range md E) as (? & _ & ?).
  apply row_key_ne; [done|apply chunk_row_ok; (done || lia)|apply Hn].
Qed.

Lemma delete_rows_effect : object_effect i m (delete_rows i old m) None.
Proof.
  unfold delete_rows; split.
  - apply lookup_delete_eq.
  - intros g j Hg Hj; rewrite lookup_delete_ne by (apply row_key_ne; [by apply object_row_ok|by apply chunk_row_ok|done]).
    rewrite drop_version_chunk by done; by intros [? [=]].
  - intros r Hr Hown; rewrite lookup_delete_ne by (apply row_key_ne; [by apply object_row_ok|done|intros <-; apply Hown; right; by left]).
    apply drop_version_elsewhere; [done|]; intros g j ->; apply Hown; right; right; by exists g, j.
Qed.

Lemma written_same (md : sdb_object_metadata) (v : bytes) (r : row_name) :
  metadata_typed md -> row_ok r -> r <> RowCounter -> r <> object_row i ->
  (forall j, 0 <= j < om_chunk_count md -> r <> chunk_row i (om_generation md) j) -> written_rows i md v m !! row_key r = m !! row_key r.
Proof.
  intros (_ & Hg & _ & Hc & _) Hr Hr1 Hr2 Hr3; unfold written_rows, counter_row_of.
  rewrite lookup_insert_ne by (apply row_key_ne; (by apply object_row_ok || congruence)).
  rewrite put_chunks_other by (intros j Hj; apply row_key_ne; [done|apply chunk_row_ok; (done || lia)|apply Hr3; lia]).
  apply lookup_insert_ne, row_key_ne; (done || congruence).
Qed.

Lemma old_chunks_kept (md md' : sdb_object_metadata) (v : bytes) (j : Z) :
  metadata_typed md -> c < om_generation md -> old = Some md' -> 0 <= j < om_chunk_count md' ->
  written_rows i md v m !! row_key (chunk_row i (om_generation md') j) <> None.
Proof.
  intros Ht Hlt E Hj; destruct (old_range md' E) as (? & ? & ?).
  rewrite written_same; [|done|apply chunk_row_ok; (done || lia)|done|done|intros j' _ [= Eg]; lia].
  destruct Hold as [Ho _]; rewrite E in Ho; destruct Ho as (_ & v' & Hs); by rewrite (os_chunks _ _ _ _ Hs).
Qed.

Lemma put_rows_effect (md : sdb_object_metadata) (v : bytes) :
  describes md (oi_kind i) v -> c < om_generation md -> object_effect i m (put_rows i md v old m) (Some (md, v)).
Proof.
  intros Hd Hlt; destruct (Hd) as (_ & (_ & Hg & _ & Hc & _) & _); unfold put_rows.
  assert (Hrow : row_ok (object_row i)) by (by apply object_row_ok).
  assert (Hnew : forall j, 0 <= j < om_chunk_count md ->
    drop_version i old (written_rows i md v m) !! row_key (chunk_row i (om_generation md) j) = Some (chunk_of v (om_chunk_size md) j)).
  { intros j Hj; rewrite drop_version_other; [|intros md' j' E Hj'; destruct (old_range md' E) as (? & ? & ?)].
    - unfold written_rows; rewrite lookup_insert_ne by (apply row_key_ne; [done|apply chunk_row_ok; (done || lia)|done]).
      apply put_chunks_in; (done || lia).
    - apply row_key_ne; [apply chunk_row_ok; (done || lia)..|]; intros [= E']; lia. }
  split; [split; [done| |done]| |].
  - rewrite drop_version_elsewhere by done; apply lookup_insert_eq.
  - intros g j Hg' Hj' Hs; exists md, v; split; [done|].
    destruct (decide (g = om_generation md /\ j < om_chunk_count md)) as [|Hn]; [done|].
    rewrite drop_version_chunk in Hs; [by destruct Hs|done|done|].
    apply written_same; [apply Hd|by apply chunk_row_ok|done|done|]; intros j' Hj [= -> ->]; apply Hn; lia.
  - intros r Hr Hown; rewrite drop_version_elsewhere; [|done|intros g j ->; apply Hown; right; right; by exists g, j].
    apply written_same; [apply Hd|done|intros ->; apply Hown; by left|intros ->; apply Hown; right; by left|].
    intros j _ ->; apply Hown; right; right; by eexists _, _.
Qed.
End Rows.

(** ** Running engine operations

    [runs op s Q E]: [op] started in [s] returns a value with [Q] or fails with [E]. *)

Section Write.
Context {B : Type} `{!Rows B} `{!RowsLaws B}.

Definition runs {A} (op : engineM (B := B) A) (s : engine) (Q : A -> engine -> Prop) (E : sdb_status -> engine -> Prop) : Prop :=
  match op s with
  | (Ok a, s') => Q a s'
  | (Err e, s') => E e s'
  end.

Lemma runs_bind {A A'} (op : engineM A) (k : A -> engineM A') (s : engine) Q E :
  runs op s (fun a s' => runs (k a) s' Q E) E -> runs (op ≫= k) s Q E.
Proof. unfold runs, mbind, engineM_bind; by destruct (op s) as [[a|e] s']. Qed.

Lemma runs_ret {A} (a : A) (s : engine) Q E : Q a s -> runs (mret a) s Q E.
Proof. done. Qed.

Lemma runs_lift {A} (a : A) (r : result A) (s : engine) Q E : r = Ok a -> Q a s -> runs (engine_lift r) s Q E.
Proof. by intros ->. Qed.

Lemma runs_impl {A} (op : engineM A) (s : engine) (Q Q' : A -> engine -> Prop) (E E' : sdb_status -> engine -> Prop) :
  runs op s Q E -> (forall a s', Q a s' -> Q' a s') -> (forall e s', E e s' -> E' e s') -> runs op s Q' E'.
Proof. unfold runs; destruct (op s) as [[a|e] s']; auto. Qed.

(** The operations run on the transaction that began with the batch [b0]. *)
Context (b0 : B).

(** The batch has failed. *)
Definition broken (e : sdb_status) (s : engine (B := B)) : Prop :=
  e <> SDB_OK /\ rows_failure (en_rows s) <> SDB_OK /\ rows_from b0 (en_rows s).

(** The rows of [s], and its generation counter. *)
Definition holds (s : engine (B := B)) (m : gmap bytes bytes) (g : Z) : Prop :=
  rows_are (en_rows s) m /\ en_generation s = g /\ rows_from b0 (en_rows s).

Lemma runs_put (s : engine) (m : gmap bytes bytes) (g : Z) (r : row_name) (v : bytes) (Q : unit -> engine -> Prop) E :
  holds s m g -> row_ok r -> Z.of_nat (length v) <= UINT32_MAX ->
  (forall s', holds s' (<[row_key r := v]> m) g -> Q tt s') ->
  (forall e s', broken e s' -> en_generation s' = g -> E e s') ->
  runs (sdb_engine_tree_put (row_key r) v) s Q E.
Proof.
  intros (Hm & Hg & Hf) Hr Hv HQ HE; unfold runs, sdb_engine_tree_put; pose proof (rows_put_from _ _ (row_key r) v Hm) as Hf'.
  destruct (rows_put _ _ _) as [res b'] eqn:H; cbn [snd] in Hf'; assert (rows_from b0 b') by (by etrans).
  pose proof (rows_put_law _ _ _ _ _ _ Hm H) as Hl; destruct res as [[]|e]; [by apply HQ|].
  destruct Hl as [He [Hf1|(_ & _ & [Hb|Hb])]]; [apply HE; [split; [done|]; cbn; by split; [congruence|]|done]|by rewrite bad_key_row in Hb|lia].
Qed.

Lemma runs_delete (s : engine) (m : gmap bytes bytes) (g : Z) (r : row_name) (Q : unit -> engine -> Prop) E :
  holds s m g -> row_ok r -> is_Some (m !! row_key r) ->
  (forall s', holds s' (delete (row_key r) m) g -> Q tt s') ->
  (forall e s', broken e s' -> en_generation s' = g -> E e s') ->
  runs (sdb_engine_tree_delete (row_key r)) s Q E.
Proof.
  intros (Hm & Hg & Hf) Hr Hv HQ HE; unfold runs, sdb_engine_tree_delete; pose proof (rows_delete_from _ _ (row_key r) Hm) as Hf'.
  destruct (rows_delete _ _) as [res b'] eqn:H; cbn [snd] in Hf'; assert (rows_from b0 b') by (by etrans).
  pose proof (rows_delete_law _ _ _ _ _ Hm H) as Hl; destruct res as [[]|e]; [apply HQ; by destruct Hl|].
  destruct Hl as [He [[Hf1 _]|(_ & [[_ Hb]|(_ & _ & Hb)])]]; [apply HE; [split; [done|]; cbn; by split; [congruence|]|done]|by rewrite bad_key_row in Hb|].
  by destruct Hv as [? Hv]; rewrite Hv in Hb.
Qed.

Lemma delete_absent (s : engine) (m : gmap bytes bytes) (g : Z) (r : row_name) :
  holds s m g -> row_ok r -> m !! row_key r = None -> sdb_engine_tree_delete (row_key r) s = (Err SDB_E_NOT_FOUND, s).
Proof.
  intros (Hm & Hg & _) Hr Hn; unfold sdb_engine_tree_delete; destruct (rows_delete _ _) as [res b'] eqn:H.
  pose proof (rows_delete_law _ _ _ _ _ Hm H) as Hl; rewrite Hn in Hl; destruct res as [[]|e]; [by destruct Hl as [[? [=]] _]|].
  destruct Hl as [_ [[_ [? [=]]]|(-> & [[_ Hb]|(-> & _)])]]; [by rewrite bad_key_row in Hb|by destruct s].
Qed.

(** A predicate on failures that poisoning keeps. *)
Lemma runs_poison {A} (op : engineM A) (s : engine) (Q : A -> engine -> Prop) (E : sdb_status -> engine -> Prop) :
  runs op s Q E -> (forall e s', E e s' -> rows_failure (en_rows s') = SDB_OK -> E e (set_rows s' (rows_poison (en_rows s') e))) ->
  runs (sdb_mutation_poison_on_partial op) s Q E.
Proof.
  unfold runs, sdb_mutation_poison_on_partial; destruct (op s) as [[a|e] s']; [done|]; intros HE HP.
  destruct (bool_decide _ && _) eqn:Hb; [|done]; apply andb_true_iff in Hb as [Hb _]; apply bool_decide_eq_true in Hb; auto.
Qed.

Definition stops (e : sdb_status) (s : engine (B := B)) (g : Z) : Prop := broken e s /\ en_generation s = g.

Lemma runs_write_chunks (i : object_id) (md : sdb_object_metadata) (v : bytes) (g : Z) :
  id_ok i -> describes md (oi_kind i) v ->
  forall n j consumed s m, 0 <= j -> j + Z.of_nat n = om_chunk_count md ->
  (n <> 0%nat -> consumed = Z.to_nat (j * om_chunk_size md)) -> holds s m g ->
  runs (write_chunks md (oi_namespace i) (oi_key i) v n j consumed) s
    (fun _ s' => holds s' (put_chunks i (om_generation md) (om_chunk_size md) v n j m) g) (fun e s' => stops e s' g).
Proof.
  intros Hi Hd; destruct (Hd) as (Hk & (_ & Hg & _ & Hcc & _) & _ & Hl & _).
  induction n as [|n IH]; intros j consumed s m Hj Hn Hcons Hs; cbn [write_chunks put_chunks]; [by apply runs_ret|].
  destruct (describes_chunks _ _ _ Hd) as [[? _]|(Hsz & Hc & Hv)]; [lia|]; rewrite Hcons by done.
  assert (Hjv : j * om_chunk_size md < Z.of_nat (length v)) by nia.
  apply runs_bind, (runs_lift (row_key (chunk_row i (om_generation md) j))); [by rewrite Hk, chunk_key_of|].
  set (size := Z.to_nat (if _ <? _ then _ else _)); assert (Hsl : slice v (Z.to_nat (j * om_chunk_size md)) size = chunk_of v (om_chunk_size md) j).
  { unfold chunk_of, slice, size; rewrite Hl; destruct (Z.ltb_spec (Z.of_nat (length v) - Z.of_nat (Z.to_nat (j * om_chunk_size md))) (om_chunk_size md)); [|done].
    rewrite !take_ge by (rewrite length_drop; lia); done. }
  rewrite Hsl; apply runs_bind; pose proof (chunk_of_length v (om_chunk_size md) j ltac:(lia) Hj Hjv).
  eapply runs_put; [done|apply chunk_row_ok; (done || lia)|unfold UINT32_MAX; lia| |by intros].
  intros s' Hs'; apply IH; [lia..| |done]; intros Hn0; unfold size; rewrite Hl.
  rewrite (proj2 (Z.ltb_ge _ _)) by nia; lia.
Qed.

Lemma runs_delete_chunks (i : object_id) (go g : Z) :
  id_ok i -> 0 <= go < 2 ^ 64 ->
  forall n j s m, 0 <= j -> j + Z.of_nat n <= 2 ^ 32 ->
  (forall j', j <= j' < j + Z.of_nat n -> is_Some (m !! row_key (chunk_row i go j'))) -> holds s m g ->
  runs (delete_chunks (oi_kind i) (oi_namespace i) (oi_key i) go n j) s
    (fun _ s' => holds s' (drop_chunks i go n j m) g) (fun e s' => stops e s' g).
Proof.
  intros Hi Hgo; induction n as [|n IH]; intros j s m Hj Hn Hin Hs; cbn [delete_chunks drop_chunks]; [by apply runs_ret|].
  apply runs_bind, (runs_lift (row_key (chunk_row i go j))); [by rewrite chunk_key_of|]; apply runs_bind.
  eapply runs_delete; [done|apply chunk_row_ok; (done || lia)|apply Hin; lia| |by intros].
  intros s' Hs'; apply IH; [lia..| |done]; intros j' Hj'; rewrite lookup_delete_ne; [apply Hin; lia|apply chunk_key_ne; (done || lia)].
Qed.

(** A new generation was taken, or nothing happened. *)
Definition at_most_counted (s : engine (B := B)) (m : gmap bytes bytes) (g : Z) : Prop :=
  holds s m g \/ g < UINT64_MAX /\ holds s (counter_row_of (g + 1) m) (g + 1).

Lemma runs_alloc (s : engine) (m : gmap bytes bytes) (g : Z) :
  holds s m g -> g <= UINT64_MAX ->
  runs sdb_engine_alloc_generation s
    (fun a s' => a = g + 1 /\ g < UINT64_MAX /\ holds s' (counter_row_of (g + 1) m) (g + 1))
    (fun e s' => e <> SDB_OK /\ (stops e s' g \/ holds s' m g)).
Proof.
  intros Hs Hle; unfold runs, sdb_engine_alloc_generation; destruct (Hs) as (Hm & Hg & Hf); rewrite Hg.
  destruct (Z.eqb_spec g UINT64_MAX) as [|Hne]; [by auto|].
  assert (sdb_write_u64_le (zeros SDB_GENERATION_COUNTER_VALUE_SIZE) 0 (g + 1) = le_split 8 (g + 1)) as ->.
  { rewrite sdb_write_u64_le_spec by (rewrite length_zeros; done); by rewrite memcpy_at_in, length_le_split by (rewrite length_le_split; done). }
  assert (Hp : runs (sdb_engine_tree_put (row_key RowCounter) (le_split 8 (g + 1))) s
                 (fun _ s' => holds s' (counter_row_of (g + 1) m) g) (fun e s' => stops e s' g)).
  { eapply runs_put; [done|done|rewrite length_le_split; done|by intros|by intros]. }
  unfold runs in Hp; change (row_key RowCounter) with sdb_generation_counter_key in Hp.
  destruct (sdb_engine_tree_put _ _ s) as [[[]|e] s'].
  - split; [done|]; split; [lia|]; split; [apply Hp|]; split; [done|apply Hp].
  - split; [apply Hp|by left].
Qed.

Lemma runs_plan (leaf_capacity : Z) (i : object_id) (v : bytes) (s : engine) (m : gmap bytes bytes) (g : Z) :
  id_ok i -> holds s m g -> 0 <= g <= UINT64_MAX ->
  runs (previous_version (oi_kind i) (oi_namespace i) (oi_key i)) s (fun _ s' => s' = s) (fun _ _ => False) ->
  runs (sdb_object_plan leaf_capacity (oi_kind i) (oi_namespace i) (oi_key i) v) s
    (fun md s' => describes md (oi_kind i) v /\ om_generation md = g + 1 /\ g < UINT64_MAX
                  /\ holds s' (counter_row_of (g + 1) m) (g + 1))
    (fun e s' => e <> SDB_OK /\ (stops e s' g \/ at_most_counted s' m g)).
Proof.
  intros Hi Hs Hg Hread; unfold sdb_object_plan; apply runs_bind; eapply runs_impl; [done| |done]; intros _ ? ->; apply runs_bind.
  eapply runs_impl; [by apply (runs_alloc s m g); [|lia]| |]; cbn beta.
  2: intros e s' (He & [?|?]); split; [done| |done|]; [by left|by right; left].
  intros a s' (-> & Hlt & Hs'); assert (Hcounted : at_most_counted s' m g) by (by right).
  apply runs_bind, (runs_lift (row_key (chunk_row i (g + 1) 0))); [by apply chunk_key_of|]; apply runs_bind.
  unfold runs at 1, engine_lift; destruct (plan_chunk_size _ _) as [c|e] eqn:Hc; [|split; [|by right]].
  2: unfold plan_chunk_size in Hc; repeat (apply check_Err in Hc as [[_ ->]|[_ Hc]]; [done|]); done.
  apply plan_chunk_size_range in Hc; destruct (_ && _) eqn:Hb; [by unfold runs, engine_err; split; [|right]|].
  apply runs_ret; split; [apply plan_describes; (done || apply Hi || lia)|done].
Qed.

(** How an operation fails: the batch is unusable, or holds the objects it held. *)
Definition fails_clean (m : gmap bytes bytes) (g : Z) (e : sdb_status) (s : engine (B := B)) : Prop :=
  e <> SDB_OK /\ (rows_failure (en_rows s) <> SDB_OK /\ g <= en_generation s <= UINT64_MAX /\ rows_from b0 (en_rows s) \/ at_most_counted s m g).

Lemma stops_clean (m : gmap bytes bytes) (g g' : Z) (e : sdb_status) (s : engine (B := B)) :
  g <= g' <= UINT64_MAX -> stops e s g' -> fails_clean m g e s.
Proof. intros Hg [(He & Hf & Hfr) E]; split; [done|]; left; rewrite E; auto. Qed.

Lemma fails_clean_poison (m : gmap bytes bytes) (g : Z) (e : sdb_status) (s : engine (B := B)) :
  g <= UINT64_MAX -> fails_clean m g e s -> fails_clean m g e (set_rows s (rows_poison (en_rows s) e)).
Proof.
  intros Hg [He H]; split; [done|]; left; cbn [set_rows en_rows en_generation]; rewrite rows_poison_law; split; [done|].
  assert (rows_from b0 (en_rows s)) by (by destruct H as [(_ & _ & ?)|[(_ & _ & ?)|(_ & _ & _ & ?)]]).
  split; [|etrans; [done|by apply rows_poison_from]]; destruct H as [(_ & H & _)|[(_ & -> & _)|(Hl & _ & -> & _)]]; lia.
Qed.

Lemma runs_previous (s : engine) (m : gmap bytes bytes) (g c : Z) (i : object_id) (old : option sdb_object_metadata) :
  id_ok i -> holds s m g -> version_is m c i old ->
  runs (previous_version (oi_kind i) (oi_namespace i) (oi_key i)) s (fun o s' => o = old /\ s' = s) (fun _ _ => False).
Proof.
  intros Hi [Hm _] [Ho _]; unfold runs, previous_version, engine_find; pose proof (rows_get_law _ _ Hm) as Hr; destruct old as [md|].
  - destruct Ho as (_ & v & Hs); by rewrite (read_metadata_stored _ m Hr i md v).
  - by rewrite (read_metadata_absent _ m Hr i).
Qed.

Lemma runs_drop_version (s : engine) (m m' : gmap bytes bytes) (g c : Z) (i : object_id) (old : option sdb_object_metadata) :
  id_ok i -> holds s m' g -> version_is m c i old ->
  (forall md j, old = Some md -> 0 <= j < om_chunk_count md -> m' !! row_key (chunk_row i (om_generation md) j) <> None) ->
  runs (match old with
        | Some previous => sdb_object_delete_chunks (oi_kind i) (oi_namespace i) (oi_key i) (om_generation previous) (om_chunk_count previous)
        | None => mret tt
        end) s (fun _ s' => holds s' (drop_version i old m') g) (fun e s' => stops e s' g).
Proof.
  intros Hi Hs Hv Hin; destruct old as [md|]; [|by apply runs_ret].
  destruct (old_range _ _ _ _ Hv md eq_refl) as (? & _ & ?); apply runs_delete_chunks; [done..|lia| |done].
  intros j Hj; apply not_eq_None_Some, Hin; [done|lia].
Qed.

Lemma object_put_runs (leaf_capacity : Z) (s : engine) (m : gmap bytes bytes) (g c : Z) (i : object_id) (v : bytes)
    (old : option sdb_object_metadata) :
  id_ok i -> holds s m g -> 0 <= g <= UINT64_MAX -> c <= g -> version_is m c i old ->
  runs (sdb_object_put leaf_capacity (oi_kind i) (oi_namespace i) (oi_key i) v) s
    (fun _ s' => exists md, describes md (oi_kind i) v /\ om_generation md = g + 1 /\ g < UINT64_MAX
                            /\ holds s' (put_rows i md v old m) (g + 1))
    (fails_clean m g).
Proof.
  intros Hi Hs Hg Hc Hv; apply runs_poison; [|intros e s' He _; apply fails_clean_poison; (done || lia)].
  apply runs_bind; eapply runs_impl; [by apply (runs_previous s m g c i old)| |done]; intros ? ? [-> ->]; apply runs_bind.
  eapply runs_impl; [apply (runs_plan leaf_capacity i v s m g); [done..|]| |].
  { eapply runs_impl; [by apply (runs_previous s m g c i old)| |done]; by intros ? ? [_ ->]. }
  2: { intros e s' [He [?|?]]; [by apply (stops_clean m g g); [lia|]|by split; [|right]]. }
  intros md s1 (Hd & Hgen & Hlt & Hs1); apply runs_bind; destruct (Hd) as (Hk & (_ & Hgr & _ & Hcr & _) & _).
  eapply runs_impl; [apply (runs_write_chunks i md v (g + 1) Hi Hd _ 0 0%nat s1 (counter_row_of (g + 1) m)); [done|lia|done|done]| |]; cbn beta.
  2: intros e s'; apply stops_clean; lia.
  intros _ s2 Hs2; apply runs_bind; unfold sdb_object_commit_metadata; apply runs_bind.
  apply (runs_lift (row_key (object_row i))); [rewrite Hk, object_key_of by apply Hi; by rewrite (proj2 Hi)|].
  eapply runs_put; [done|by apply object_row_ok|by rewrite length_metadata| |intros e s' ??; by apply (stops_clean m g (g + 1)); [lia|]].
  intros s3 Hs3; assert (Hw : holds s3 (written_rows i md v m) (g + 1)) by (unfold written_rows; by rewrite Hgen in *).
  eapply runs_impl; [apply (runs_drop_version s3 m _ (g + 1) c i old Hi Hw Hv)| |]; cbn beta.
  - intros md' j E Hj; eapply old_chunks_kept; (done || apply Hd || lia).
  - intros _ s4 Hs4; by exists md.
  - intros e s'; apply stops_clean; lia.
Qed.

Lemma object_delete_runs (s : engine) (m : gmap bytes bytes) (g c : Z) (i : object_id) (md : sdb_object_metadata) :
  id_ok i -> holds s m g -> version_is m c i (Some md) ->
  runs (sdb_object_delete (oi_kind i) (oi_namespace i) (oi_key i)) s
    (fun _ s' => holds s' (delete_rows i (Some md) m) g) (fun e s' => stops e s' g).
Proof.
  intros Hi Hs Hv; apply runs_poison; [|intros e s' [(He & Hf & _) _]; congruence].
  destruct (vi_object _ _ _ _ Hv) as (_ & v & Hst).
  apply runs_bind; eapply runs_impl; [by apply (runs_previous s m g c i (Some md))| |done]; intros ? ? [-> ->]; apply runs_bind.
  eapply runs_impl; [apply (runs_drop_version s m m g c i (Some md) Hi Hs Hv)| |done]; cbn beta.
  { intros ? j [= <-] Hj; by rewrite (os_chunks _ _ _ _ Hst). }
  intros _ s1 Hs1; apply runs_bind, (runs_lift (row_key (object_row i))); [rewrite object_key_of by apply Hi; by rewrite (proj2 Hi)|].
  eapply runs_delete; [done|by apply object_row_ok| |by intros|by intros].
  rewrite (drop_version_elsewhere i m c _ Hi Hv) by (by apply object_row_ok || done); by rewrite (os_metadata _ _ _ _ Hst).
Qed.

Lemma object_delete_absent (s : engine) (m : gmap bytes bytes) (g c : Z) (i : object_id) :
  id_ok i -> holds s m g -> version_is m c i None ->
  sdb_object_delete (oi_kind i) (oi_namespace i) (oi_key i) s = (Err SDB_E_NOT_FOUND, s).
Proof.
  intros Hi Hs [Ho _]; unfold sdb_object_delete, sdb_mutation_poison_on_partial, previous_version, engine_find; unfold mbind, engineM_bind at 1.
  rewrite (read_metadata_absent _ m (rows_get_law _ _ (proj1 Hs)) i) by done; cbn [mret engineM_ret mbind engineM_bind engine_lift].
  rewrite object_key_of, (proj2 Hi) by apply Hi; unfold engineM_bind, engine_lift.
  rewrite (delete_absent s m g) by (done || by apply object_row_ok); by rewrite Nat.eqb_refl, andb_false_r.
Qed.
End Write.
