(* ===== verification/EngineDocument.v ===== *)
(** * Documents and their indexes ([src/engine.c])

    A document is an object with index terms.  For each term it has an entry row, a
    reverse row and, when the index is unique, a guard row that names the owner of the
    value.  Modelled here: index definitions, the unique check, writing a document's
    index rows, reclaiming those of the version it replaces, and the put and delete of
    documents, over any rows.

    [collect] stands for [sdb_document_collect_legacy_terms], which scans the committed
    tree for the entries of a document written before reverse rows existed; it is
    defined in [EngineScan] and passed to the operations that call it.  Pointers are
    never null, the database is open, and allocation failures are not modelled. *)

From stdpp Require Import gmap.
From S2P Require Import Prelude Status Codec Keys Sha256 BtreePage Btree EngineKeys EngineRows EngineObject.

(** [sizeof(guard_value)] *)
Definition GUARD_VALUE_CAPACITY : Z := 2 + SDB_ENGINE_MAX_NAME_SIZE + 8.

(** ** Reading *)

Definition sdb_index_definition (get : bytes -> Z -> result bytes) (collection index_name : bytes) : result bool :=
  key ← sdb_index_base_key SDB_INDEX_DEFINITION_PREFIX collection index_name [] 0;
  definition ← get key 1;
  fail_if negb (length definition =? 1)%nat || (u8_at definition 0 >? 1) with SDB_E_CORRUPT ;;
  Ok (negb (u8_at definition 0 =? 0)).

(** The owner a guard value names and its generation. *)
Definition guard_decode (guard_value : bytes) : result (Z * bytes) :=
  fail_if (length guard_value <? 10)%nat with SDB_E_CORRUPT ;;
  let guarded_id_size := sdb_read_u16_le guard_value 8 in
  fail_if negb (guarded_id_size =? Z.of_nat (length guard_value) - 10) with SDB_E_CORRUPT ;;
  Ok (sdb_read_u64_le guard_value 0, drop 10 guard_value).

Definition sdb_unique_guard_check (get : bytes -> Z -> result bytes) (collection : bytes) (term : sdb_index_term) (document_id : bytes)
  : result unit :=
  guard_key ← sdb_index_base_key SDB_UNIQUE_GUARD_PREFIX collection (it_index_name term) (it_value term) 0;
  match get guard_key GUARD_VALUE_CAPACITY with
  | Err SDB_E_NOT_FOUND => Ok tt
  | Err e => Err e
  | Ok guard_value =>
      '(guarded_generation, guarded_id) ← guard_decode guard_value;
      if bool_decide (guarded_id = document_id) then Ok tt
      else match sdb_object_read_metadata get SDB_OBJECT_DOCUMENT collection guarded_id with
           | Err SDB_E_NOT_FOUND => Ok tt
           | Err e => Err e
           | Ok guarded_metadata => if om_generation guarded_metadata =? guarded_generation then Err SDB_E_CONFLICT else Ok tt
           end
  end.

(** The checks of a document's terms; the uniqueness of each term's index. *)
Fixpoint check_terms (get : bytes -> Z -> result bytes) (collection document_id : bytes) (terms : list sdb_index_term) : result (list bool) :=
  match terms with
  | [] => Ok []
  | term :: terms =>
      fail_if negb (sdb_engine_bytes_valid (it_index_name term)) || negb (sdb_engine_bytes_valid (it_value term))
        with SDB_E_INVALID_ARGUMENT ;;
      unique ← sdb_index_definition get collection (it_index_name term);
      _ ← (if unique : bool then sdb_unique_guard_check get collection term document_id else Ok tt);
      rest ← check_terms get collection document_id terms;
      Ok (unique :: rest)
  end.

Section Document.
Context {B : Type} `{!Rows B}.

(** Turn "not found" into success. *)
Definition ignore_not_found (op : engineM (B := B) unit) : engineM unit := fun s =>
  match op s with
  | (Err SDB_E_NOT_FOUND, s) => (Ok tt, s)
  | r => r
  end.

Definition sdb_index_create_in_mutation (collection index_name : bytes) (unique : bool) : engineM (B := B) unit :=
  existing ← engine_find (fun get => sdb_index_definition get collection index_name);
  match existing with
  | Some existing_unique => if Bool.eqb existing_unique unique then mret tt else engine_err SDB_E_CONFLICT
  | None =>
      key ← engine_lift (sdb_index_base_key SDB_INDEX_DEFINITION_PREFIX collection index_name [] 0);
      sdb_engine_tree_put key [byte.of_Z (if unique then 1 else 0)]
  end.

(** ** Writing the rows of a version *)

Definition guard_encode (generation : Z) (document_id : bytes) : bytes :=
  let guard_value := zeros (10 + length document_id) in
  let guard_value := sdb_write_u64_le guard_value 0 generation in
  let guard_value := sdb_write_u16_le guard_value 8 (wrap 16 (Z.of_nat (length document_id))) in
  memcpy_at guard_value 10 document_id.

Definition sdb_index_write_term (collection : bytes) (term : sdb_index_term) (document_id : bytes) (generation : Z) (unique : bool)
  : engineM (B := B) unit :=
  if Z.of_nat (length document_id) >? SIZE_MAX - 10 then engine_err SDB_E_OVERFLOW
  else
    entry_key ← engine_lift (index_entry_key collection (it_index_name term) (it_value term) document_id generation);
    _ ← sdb_engine_tree_put entry_key [];
    if negb unique then mret tt
    else
      guard_key ← engine_lift (sdb_index_base_key SDB_UNIQUE_GUARD_PREFIX collection (it_index_name term) (it_value term) 0);
      sdb_engine_tree_put guard_key (guard_encode generation document_id).

Fixpoint write_terms (collection document_id : bytes) (generation : Z) (terms : list sdb_index_term) (unique : list bool)
  : engineM (B := B) unit :=
  match terms, unique with
  | term :: terms, u :: unique =>
      _ ← sdb_index_write_term collection term document_id generation u;
      write_terms collection document_id generation terms unique
  | _, _ => mret tt
  end.

(** The term of the marker row of a document without terms. *)
Definition marker_term : sdb_index_term := {| it_index_name := [byte.of_Z 255]; it_value := [byte.of_Z 255] |}.

Fixpoint write_reverse_rows (collection document_id : bytes) (generation : Z) (terms : list sdb_index_term) (i : Z) : engineM (B := B) unit :=
  match terms with
  | [] => mret tt
  | term :: terms =>
      reverse_key ← engine_lift (sdb_index_reverse_key collection document_id i);
      reverse_value ← engine_lift (sdb_index_reverse_encode_term generation term SDB_INDEX_REVERSE_MAX_VALUE);
      _ ← sdb_engine_tree_put reverse_key reverse_value;
      write_reverse_rows collection document_id generation terms (i + 1)
  end.

Definition sdb_document_write_reverse (collection document_id : bytes) (generation : Z) (terms : list sdb_index_term) : engineM (B := B) unit :=
  match terms with
  | [] => write_reverse_rows collection document_id generation [marker_term] 0
  | _ => write_reverse_rows collection document_id generation terms 0
  end.

(** ** Reclaiming the rows of a version *)

Definition sdb_document_reclaim_guard (collection : bytes) (term : sdb_index_term) (document_id : bytes) : engineM (B := B) unit :=
  guard_key ← engine_lift (sdb_index_base_key SDB_UNIQUE_GUARD_PREFIX collection (it_index_name term) (it_value term) 0);
  found ← engine_find (fun get => get guard_key GUARD_VALUE_CAPACITY);
  match found with
  | None => mret tt
  | Some guard_value =>
      guard ← engine_lift (guard_decode guard_value);
      if bool_decide (snd guard = document_id) then sdb_engine_tree_delete guard_key else mret tt
  end.

Definition sdb_document_reclaim_one_term (collection : bytes) (term : sdb_index_term) (document_id : bytes) (generation : Z)
  : engineM (B := B) unit :=
  if Z.of_nat (length document_id) >? SIZE_MAX - 10 then engine_err SDB_E_OVERFLOW
  else
    _ ← ignore_not_found
          (entry_key ← engine_lift (index_entry_key collection (it_index_name term) (it_value term) document_id generation);
           sdb_engine_tree_delete entry_key);
    definition ← engine_find (fun get => sdb_index_definition get collection (it_index_name term));
    match definition with
    | Some true => sdb_document_reclaim_guard collection term document_id
    | _ => mret tt
    end.

(** The loop of [sdb_document_reclaim_reverse]; it returns whether a row was found. *)
Fixpoint reclaim_reverse_rows (collection document_id : bytes) (n : nat) (ordinal : Z) (found : bool) : engineM (B := B) bool :=
  match n with
  | O => mret found
  | S n =>
      reverse_key ← engine_lift (sdb_index_reverse_key collection document_id ordinal);
      row ← engine_find (fun get => get reverse_key SDB_INDEX_REVERSE_MAX_VALUE);
      match row with
      | None => mret found
      | Some reverse_value =>
          decoded ← engine_lift (sdb_index_reverse_decode_term reverse_value);
          if fst decoded =? 0 then engine_err SDB_E_CORRUPT
          else
            _ ← sdb_document_reclaim_one_term collection (snd decoded) document_id (fst decoded);
            _ ← sdb_engine_tree_delete reverse_key;
            reclaim_reverse_rows collection document_id n (ordinal + 1) true
      end
  end.

Definition sdb_document_reclaim_reverse (collection document_id : bytes) : engineM (B := B) bool :=
  reclaim_reverse_rows collection document_id (Z.to_nat (UINT16_MAX + 1)) 0 false.

Section Legacy.
Context (collect : bytes -> bytes -> result (list (sdb_index_term * Z))).

Fixpoint reclaim_terms (collection document_id : bytes) (terms : list (sdb_index_term * Z)) : engineM (B := B) unit :=
  match terms with
  | [] => mret tt
  | (term, generation) :: terms =>
      _ ← sdb_document_reclaim_one_term collection term document_id generation;
      reclaim_terms collection document_id terms
  end.

Definition sdb_document_reclaim_legacy_indexes (collection document_id : bytes) : engineM (B := B) unit :=
  terms ← engine_lift (collect collection document_id);
  reclaim_terms collection document_id terms.

Definition reclaim_version (collection document_id : bytes) : engineM (B := B) unit :=
  reverse_found ← sdb_document_reclaim_reverse collection document_id;
  if reverse_found : bool then mret tt else sdb_document_reclaim_legacy_indexes collection document_id.

(** ** Put and delete *)

Definition sdb_document_put_in_mutation (leaf_capacity : Z) (collection document_id document : bytes) (terms : list sdb_index_term)
  : engineM (B := B) unit :=
  if negb (sdb_engine_bytes_valid document_id) || (Z.of_nat (length terms) >? UINT16_MAX) then engine_err SDB_E_INVALID_ARGUMENT
  else
    sdb_mutation_poison_on_partial
      (previous ← previous_version SDB_OBJECT_DOCUMENT collection document_id;
       metadata ← sdb_object_plan leaf_capacity SDB_OBJECT_DOCUMENT collection document_id document;
       unique ← engine_read (fun get => check_terms get collection document_id terms);
       _ ← sdb_object_write_chunks metadata collection document_id document;
       _ ← match previous with
           | Some _ => reclaim_version collection document_id
           | None => mret tt
           end;
       _ ← write_terms collection document_id (om_generation metadata) terms unique;
       _ ← sdb_document_write_reverse collection document_id (om_generation metadata) terms;
       _ ← sdb_object_commit_metadata metadata collection document_id;
       match previous with
       | Some previous =>
           sdb_object_delete_chunks SDB_OBJECT_DOCUMENT collection document_id (om_generation previous) (om_chunk_count previous)
       | None => mret tt
       end).

Definition sdb_document_delete_in_mutation (collection document_id : bytes) : engineM (B := B) unit :=
  if negb (sdb_engine_bytes_valid document_id) then engine_err SDB_E_INVALID_ARGUMENT
  else
    sdb_mutation_poison_on_partial
      (_ ← ignore_not_found
             (_ ← engine_read (fun get => sdb_object_read_metadata get SDB_OBJECT_DOCUMENT collection document_id);
              reclaim_version collection document_id);
       sdb_object_delete SDB_OBJECT_DOCUMENT collection document_id).
End Legacy.
End Document.
