(* ===== verification/EngineIndex.v ===== *)
(** * What the index rows of a database say

    The invariant that ties the index rows to the documents: every term of a document
    has its entry and its reverse row, a unique value has one guard that names its
    owner, and no other index row exists.  From it: the checks of a document's terms
    accept exactly the terms no other document owns. *)

From stdpp Require Import gmap.
From S2P Require Import Prelude Status Codec Keys Sha256 BtreePage Btree BtreeGet EngineKeys EngineRows EngineObject EngineMap EngineDocument.

#[local] Opaque sdb_sha256 sdb_constant_time_equal sdb_object_metadata_encode.

#[global] Instance row_name_eq_dec : EqDecision row_name.
Proof. solve_decision. Defined.

(** ** Changes to rows *)

Abbreviation update := (row_name * option bytes)%type.

Fixpoint apply_updates (us : list update) (m : gmap bytes bytes) : gmap bytes bytes :=
  match us with
  | [] => m
  | (r, Some v) :: us => apply_updates us (<[row_key r := v]> m)
  | (r, None) :: us => apply_updates us (delete (row_key r) m)
  end.

Lemma apply_app (us us' : list update) (m : gmap bytes bytes) : apply_updates (us ++ us') m = apply_updates us' (apply_updates us m).
Proof. revert m; induction us as [|[r [v|]] us IH]; intros m; cbn; auto. Qed.

(** What an update does to a row depends on that row only. *)
Lemma apply_pointwise (us : list update) (m m' : gmap bytes bytes) (k : bytes) :
  m !! k = m' !! k -> apply_updates us m !! k = apply_updates us m' !! k.
Proof.
  revert m m'; induction us as [|[r [v|]] us IH]; intros m m' E; cbn [apply_updates]; [done|apply IH..].
  - destruct (decide (row_key r = k)) as [<-|]; [by rewrite !lookup_insert_eq|by rewrite !lookup_insert_ne].
  - destruct (decide (row_key r = k)) as [<-|]; [by rewrite !lookup_delete_eq|by rewrite !lookup_delete_ne].
Qed.

Definition updates_ok (us : list update) : Prop := Forall (fun u => row_ok u.1) us.

Lemma apply_other (us : list update) (m : gmap bytes bytes) (r : row_name) :
  updates_ok us -> row_ok r -> r ∉ us.*1 -> apply_updates us m !! row_key r = m !! row_key r.
Proof.
  intros Hus Hr; revert m; induction Hus as [|[r' [v|]] us Hr' Hus IH]; intros m Hn; cbn [apply_updates]; [done|..];
    rewrite fmap_cons, list.not_elem_of_cons in Hn; destruct Hn as [Hne Hn]; rewrite IH by done; cbn in *.
  - by apply lookup_insert_ne, row_key_ne, not_eq_sym.
  - by apply lookup_delete_ne, row_key_ne, not_eq_sym.
Qed.

Lemma apply_same (us : list update) (m : gmap bytes bytes) (r : row_name) (x : option bytes) :
  updates_ok us -> row_ok r -> (forall x', (r, x') ∈ us -> x' = x) -> r ∈ us.*1 \/ m !! row_key r = x -> apply_updates us m !! row_key r = x.
Proof.
  intros Hus Hr; revert m; induction Hus as [|[r' y] us Hr' Hus IH]; intros m Hsame Hin.
  { destruct Hin as [Hin|]; [by apply elem_of_nil in Hin|done]. }
  assert (IH' : forall m', (r ∈ us.*1 \/ m' !! row_key r = x) -> apply_updates us m' !! row_key r = x).
  { intros m'; apply IH; intros x' Hx'; apply Hsame; by right. }
  destruct (decide (r' = r)) as [->|Hne].
  - assert (y = x) as -> by (apply Hsame; by left); destruct x as [v|]; cbn [apply_updates]; apply IH'; right;
      [apply lookup_insert_eq|apply lookup_delete_eq].
  - assert (Hin' : r ∈ us.*1 \/ m !! row_key r = x).
    { destruct Hin as [Hin|]; [|by right]; rewrite fmap_cons, elem_of_cons in Hin; cbn in Hin; destruct Hin; [congruence|by left]. }
    destruct y as [v|]; cbn [apply_updates]; apply IH'; (destruct Hin' as [|E]; [by left|right]).
    + rewrite lookup_insert_ne; [done|]; by apply row_key_ne.
    + rewrite lookup_delete_ne; [done|]; by apply row_key_ne.
Qed.

(** ** The values of guard and reverse rows *)

Definition guard_value (g : Z) (d : bytes) : bytes := le_split 8 g ++ size_bytes d ++ d.

Lemma guard_encode_value (g : Z) (d : bytes) : name_ok d -> guard_encode g d = guard_value g d.
Proof.
  intros Hd; unfold name_ok in Hd; unfold guard_encode, guard_value; rewrite wrap_small by lia.
  rewrite <- (app_nil_l (zeros (10 + length d))); fill; autorewrite with len.
  match goal with |- context [zeros ?n] => replace n with 0%nat by lia end; cbn [zeros replicate]; by rewrite app_nil_r, app_nil_l, <- !app_assoc.
Qed.

Lemma guard_decode_value (g : Z) (d : bytes) : name_ok d -> 0 <= g < 2 ^ 64 -> guard_decode (guard_value g d) = Ok (g, d).
Proof.
  intros Hd Hg; unfold name_ok in Hd; unfold guard_decode, guard_value.
  rewrite !length_app, !length_le_split; rewrite (proj2 (Nat.ltb_ge _ _)) by lia; cbn [check].
  rewrite sdb_read_u16_le_spec, sdb_read_u64_le_spec; app_simp; rewrite !le_combine_split_small by lia.
  rewrite (proj2 (Z.eqb_eq _ _)) by lia; done.
Qed.

Lemma guard_value_length (g : Z) (d : bytes) : name_ok d -> Z.of_nat (length (guard_value g d)) <= GUARD_VALUE_CAPACITY.
Proof. unfold name_ok, guard_value, GUARD_VALUE_CAPACITY, SDB_ENGINE_MAX_NAME_SIZE; autorewrite with len; lia. Qed.

Definition term_ok (t : sdb_index_term) : Prop :=
  sdb_engine_bytes_valid (it_index_name t) = true /\ sdb_engine_bytes_valid (it_value t) = true.

#[global] Instance sdb_index_term_eq_dec : EqDecision sdb_index_term.
Proof. solve_decision. Defined.

Definition reverse_value (g : Z) (t : sdb_index_term) : bytes :=
  le_split 8 g ++ size_bytes (it_index_name t) ++ it_index_name t ++ size_bytes (it_value t) ++ it_value t.

Lemma reverse_value_length (g : Z) (t : sdb_index_term) : term_ok t -> Z.of_nat (length (reverse_value g t)) <= SDB_INDEX_REVERSE_MAX_VALUE.
Proof.
  intros [Hn Hv]; apply valid_size in Hn, Hv; unfold reverse_value, SDB_INDEX_REVERSE_MAX_VALUE, SDB_ENGINE_MAX_NAME_SIZE.
  autorewrite with len; lia.
Qed.

Lemma reverse_encode_value (g : Z) (t : sdb_index_term) :
  term_ok t -> sdb_index_reverse_encode_term g t SDB_INDEX_REVERSE_MAX_VALUE = Ok (reverse_value g t).
Proof.
  intros [Hn Hv]; destruct (sdb_index_reverse_encode_term g t SDB_INDEX_REVERSE_MAX_VALUE) as [x|e] eqn:E.
  - by apply reverse_layout in E as (_ & _ & _ & ->).
  - exfalso; pose proof (valid_size _ Hn); pose proof (valid_size _ Hv); unfold sdb_index_reverse_encode_term in E.
    rewrite Hn, Hv in E; cbn [negb orb check] in E; unfold SDB_INDEX_REVERSE_MAX_VALUE, SDB_ENGINE_MAX_NAME_SIZE in E.
    by rewrite (proj2 (Z.ltb_ge _ _)) in E by lia.
Qed.

Lemma reverse_decode_value (g : Z) (t : sdb_index_term) :
  term_ok t -> 0 <= g < 2 ^ 64 -> sdb_index_reverse_decode_term (reverse_value g t) = Ok (g, t).
Proof. intros Ht Hg; eapply reverse_decode_encode; [done|by apply reverse_encode_value]. Qed.

(** ** The documents and the indexes *)

Record document := { dc_generation : Z; dc_terms : list sdb_index_term }.

Abbreviation doc_id c d := {| oi_kind := SDB_OBJECT_DOCUMENT; oi_namespace := c; oi_key := d |}.
Abbreviation valid s := (sdb_engine_bytes_valid s = true).

(** The terms of the reverse rows: a document without terms has a marker. *)
Definition reverse_terms (ts : list sdb_index_term) : list sdb_index_term :=
  match ts with [] => [marker_term] | _ => ts end.

Definition definition_value (u : bool) : bytes := [byte.of_Z (if u then 1 else 0)].

Definition entry_row (c d : bytes) (g : Z) (t : sdb_index_term) : row_name := RowEntry c (it_index_name t) (it_value t) d g.
Definition guard_row (c : bytes) (t : sdb_index_term) : row_name := RowGuard c (it_index_name t) (it_value t).

(** [defs] maps the indexes of a collection to whether they are unique. *)
Record indexes_are (m : gmap bytes bytes) (defs : gmap (bytes * bytes) bool) (docs : gmap (bytes * bytes) document) : Prop := {
  ia_definition (c n : bytes) : valid c -> valid n -> m !! row_key (RowDefinition c n) = definition_value <$> defs !! (c, n);
  ia_document (c d : bytes) (x : document) : docs !! (c, d) = Some x ->
    (valid c /\ valid d /\ Forall term_ok (dc_terms x) /\ Forall (fun t => is_Some (defs !! (c, it_index_name t))) (dc_terms x)
     /\ Z.of_nat (length (dc_terms x)) <= UINT16_MAX /\ 0 < dc_generation x < 2 ^ 64)
    /\ exists md v, object_stored m (doc_id c d) md v /\ om_generation md = dc_generation x;
  ia_entry (c d : bytes) (g : Z) (t : sdb_index_term) (v : bytes) : valid c -> valid d -> term_ok t -> 0 <= g < 2 ^ 64 ->
    m !! row_key (entry_row c d g t) = Some v <->
    v = [] /\ exists x, docs !! (c, d) = Some x /\ dc_generation x = g /\ t ∈ dc_terms x;
  ia_guard (c : bytes) (t : sdb_index_term) (v : bytes) : valid c -> term_ok t ->
    m !! row_key (guard_row c t) = Some v <->
    defs !! (c, it_index_name t) = Some true
    /\ exists d x, docs !! (c, d) = Some x /\ t ∈ dc_terms x /\ v = guard_value (dc_generation x) d;
  ia_reverse (c d : bytes) (o : Z) : valid c -> valid d -> 0 <= o < 2 ^ 16 ->
    m !! row_key (RowReverse c d o)
    = x ← docs !! (c, d); reverse_value (dc_generation x) <$> reverse_terms (dc_terms x) !! Z.to_nat o
}.

Lemma definition_read (get : bytes -> Z -> result bytes) (m : gmap bytes bytes) (c n : bytes) (o : option bool) :
  reads get m -> valid c -> valid n -> m !! row_key (RowDefinition c n) = definition_value <$> o ->
  sdb_index_definition get c n = match o with Some u => Ok u | None => Err SDB_E_NOT_FOUND end.
Proof.
  intros Hget Hc Hn Hm; unfold sdb_index_definition; rewrite base_key_eq by lia; unfold term_key_valid; rewrite Hc, Hn.
  cbn [andb length Z.of_nat Z.leb]; rewrite (proj2 (Z.leb_le _ _)) by (vm_compute; congruence); cbn [mbind result_bind].
  cbn [zeros replicate]; rewrite app_nil_r; change (index_bytes _ c n []) with (row_key (RowDefinition c n)).
  rewrite (get_row _ _ Hget) by (cbn; auto using valid_name); rewrite Hm; by destruct o as [[]|].
Qed.

Section Facts.
Context (m : gmap bytes bytes) (defs : gmap (bytes * bytes) bool) (docs : gmap (bytes * bytes) document).
Context (Hidx : indexes_are m defs docs).

(** A unique value has one owner. *)
Lemma owner_unique (c d d' : bytes) (x x' : document) (t : sdb_index_term) :
  defs !! (c, it_index_name t) = Some true -> docs !! (c, d) = Some x -> docs !! (c, d') = Some x' ->
  t ∈ dc_terms x -> t ∈ dc_terms x' -> d = d'.
Proof.
  intros Hu Hx Hx' Ht Ht'; destruct (ia_document _ _ _ Hidx _ _ _ Hx) as [(Hc & Hd & Hok & _ & _ & Hg) _].
  destruct (ia_document _ _ _ Hidx _ _ _ Hx') as [(_ & Hd' & _ & _ & _ & Hg') _].
  assert (Hto : term_ok t) by (rewrite List.Forall_forall in Hok; by apply Hok, list_elem_of_In).
  assert (E : guard_value (dc_generation x) d = guard_value (dc_generation x') d').
  { apply (inj Some); etrans; [symmetry|]; apply (ia_guard _ _ _ Hidx c t); [done|done| |done|done|]; (split; [done|]); eauto. }
  assert (D : guard_decode (guard_value (dc_generation x) d) = Ok (dc_generation x, d)) by (apply guard_decode_value; [by apply valid_name|lia]).
  assert (D' : guard_decode (guard_value (dc_generation x') d') = Ok (dc_generation x', d')) by (apply guard_decode_value; [by apply valid_name|lia]).
  congruence.
Qed.

Context (get : bytes -> Z -> result bytes) (Hget : reads get m).

(** The guard names another document that has the value, or nobody else has it. *)
Lemma guard_check_read (c d : bytes) (t : sdb_index_term) :
  valid c -> term_ok t -> defs !! (c, it_index_name t) = Some true ->
  sdb_unique_guard_check get c t d = Ok tt
    /\ (forall d' x, docs !! (c, d') = Some x -> t ∈ dc_terms x -> d' = d)
  \/ sdb_unique_guard_check get c t d = Err SDB_E_CONFLICT
    /\ exists d' x, d' <> d /\ docs !! (c, d') = Some x /\ t ∈ dc_terms x.
Proof.
  intros Hc Ht Hu; unfold sdb_unique_guard_check; rewrite base_key_eq by lia; unfold term_key_valid.
  rewrite Hc, (proj1 Ht); pose proof (valid_size _ (proj2 Ht)); cbn [andb]; unfold SDB_ENGINE_MAX_NAME_SIZE.
  rewrite (proj2 (Z.leb_le _ _)) by lia; cbn [mbind result_bind zeros replicate]; rewrite app_nil_r.
  change (index_bytes _ c _ _) with (row_key (guard_row c t)); rewrite (get_row _ _ Hget) by (cbn; destruct Ht; auto using valid_name).
  destruct (m !! row_key (guard_row c t)) as [v|] eqn:Em; cbn [lookup_result].
  2: { left; split; [done|]; intros d' x Hx Htx; exfalso.
       assert (m !! row_key (guard_row c t) = Some (guard_value (dc_generation x) d')) by (apply (ia_guard _ _ _ Hidx c t); eauto 6).
       congruence. }
  apply (ia_guard _ _ _ Hidx c t) in Em as (_ & d' & x & Hx & Htx & ->); [|done|done].
  destruct (ia_document _ _ _ Hidx _ _ _ Hx) as [(_ & Hd' & _ & _ & _ & Hg) (md & w & Hst & Hmg)].
  pose proof (guard_value_length (dc_generation x) d' (valid_name _ Hd')).
  rewrite (proj2 (Z.ltb_ge _ _)) by lia; rewrite guard_decode_value by (auto using valid_name || lia); cbn [mbind result_bind].
  case_bool_decide as E; [left; split; [done|]|right].
  - subst d'; intros d' x' Hx' Htx'; by eapply owner_unique.
  - assert (Hi : id_ok (doc_id c d')) by (split; [done|unfold names_valid; cbn; by rewrite Hc, Hd']).
    pose proof (read_metadata_stored get m Hget (doc_id c d') md w Hi Hst) as Hr; cbn [oi_kind oi_namespace oi_key] in Hr; rewrite Hr.
    rewrite Hmg, Z.eqb_refl; eauto 6.
Qed.

(** Why the terms of a document are refused. *)
Definition term_refused (c d : bytes) (e : sdb_status) (t : sdb_index_term) : Prop :=
  e = SDB_E_INVALID_ARGUMENT /\ ~ term_ok t
  \/ e = SDB_E_NOT_FOUND /\ defs !! (c, it_index_name t) = None
  \/ e = SDB_E_CONFLICT /\ defs !! (c, it_index_name t) = Some true
     /\ exists d' x, d' <> d /\ docs !! (c, d') = Some x /\ t ∈ dc_terms x.

(** The terms can be the terms of document [d]. *)
Definition term_free (c d : bytes) (t : sdb_index_term) : Prop :=
  term_ok t /\ is_Some (defs !! (c, it_index_name t))
  /\ (defs !! (c, it_index_name t) = Some true -> forall d' x, docs !! (c, d') = Some x -> t ∈ dc_terms x -> d' = d).

Definition unique_flags (c : bytes) (ts : list sdb_index_term) : list bool :=
  (fun t => bool_decide (defs !! (c, it_index_name t) = Some true)) <$> ts.

Lemma check_terms_read (c d : bytes) (ts : list sdb_index_term) :
  valid c ->
  match check_terms get c d ts with
  | Ok us => us = unique_flags c ts /\ Forall (term_free c d) ts
  | Err e => Exists (term_refused c d e) ts
  end.
Proof.
  intros Hc; induction ts as [|t ts IH]; cbn [check_terms]; [done|].
  destruct (sdb_engine_bytes_valid (it_index_name t)) eqn:Hn; cbn [negb orb check].
  2: { left; left; split; [done|]; intros [? _]; congruence. }
  destruct (sdb_engine_bytes_valid (it_value t)) eqn:Hv; cbn [negb orb check].
  2: { left; left; split; [done|]; intros [_ ?]; congruence. }
  assert (Ht : term_ok t) by done.
  rewrite (definition_read get m c _ (defs !! (c, it_index_name t))) by (done || by apply (ia_definition _ _ _ Hidx)).
  assert (Hrest : forall u, u = bool_decide (defs !! (c, it_index_name t) = Some true) -> term_free c d t ->
            match (rest ← check_terms get c d ts; Ok (u :: rest)) with
            | Ok us => us = unique_flags c (t :: ts) /\ Forall (term_free c d) (t :: ts)
            | Err e => Exists (term_refused c d e) (t :: ts)
            end).
  { intros u -> Hf; destruct (check_terms get c d ts) as [us|e]; cbn [mbind result_bind]; [|by right].
    destruct IH as [-> IH]; split; [done|by constructor]. }
  destruct (defs !! (c, it_index_name t)) as [[]|] eqn:Eu; cbn [mbind result_bind].
  - destruct (guard_check_read c d t Hc Ht Eu) as [[-> Hf]|[-> Hf]]; cbn [mbind result_bind].
    + apply Hrest; [by rewrite bool_decide_eq_true_2|]; split; [done|]; by split; [rewrite Eu|].
    + left; right; right; eauto.
  - apply Hrest; [by rewrite bool_decide_eq_false_2|]; split; [done|]; rewrite Eu; by split.
  - left; right; left; auto.
Qed.
End Facts.
