(* ===== verification/EngineReclaim.v ===== *)
(** * Writing and reclaiming index rows

    What the index steps of a document operation do to the rows: reclaiming a version
    deletes its entry rows, the guards it owns and its reverse rows; writing one
    stores them.  Stated as lists of row updates, for any rows that satisfy
    [RowsLaws]. *)

From stdpp Require Import gmap.
From S2P Require Import Prelude Status Codec Keys Sha256 BtreePage Btree BtreeGet EngineKeys EngineRows EngineObject EngineMap EngineDocument EngineIndex.

#[local] Opaque sdb_sha256 sdb_constant_time_equal sdb_object_metadata_encode.

Definition is_index_row (r : row_name) : bool :=
  match r with
  | RowCounter | RowObject _ _ _ | RowChunk _ _ _ _ _ => false
  | _ => true
  end.

(** ** The updates *)

Section Updates.
Context (c d : bytes).

(** Reclaiming one term; [mine] says that a guard goes with it. *)
Definition reclaim_updates (g : Z) (t : sdb_index_term) (mine : bool) : list update :=
  (entry_row c d g t, None) :: (if mine then [(guard_row c t, None)] else []).

Fixpoint reclaim_all_updates (g o : Z) (ts : list (sdb_index_term * bool)) : list update :=
  match ts with
  | [] => []
  | (t, mine) :: ts => reclaim_updates g t mine ++ (RowReverse c d o, None) :: reclaim_all_updates g (o + 1) ts
  end.

Fixpoint term_updates (g : Z) (ts : list sdb_index_term) (us : list bool) : list update :=
  match ts, us with
  | t :: ts, u :: us =>
      (entry_row c d g t, Some []) :: (if u then [(guard_row c t, Some (guard_value g d))] else []) ++ term_updates g ts us
  | _, _ => []
  end.

Fixpoint reverse_updates (g o : Z) (ts : list sdb_index_term) : list update :=
  match ts with
  | [] => []
  | t :: ts => (RowReverse c d o, Some (reverse_value g t)) :: reverse_updates g (o + 1) ts
  end.

Context (Hc : valid c) (Hd : valid d).

Lemma entry_row_ok (g : Z) (t : sdb_index_term) : term_ok t -> 0 <= g < 2 ^ 64 -> row_ok (entry_row c d g t).
Proof. intros [??] ?; cbn; auto 8 using valid_name. Qed.
Lemma guard_row_ok (t : sdb_index_term) : term_ok t -> row_ok (guard_row c t).
Proof. intros [??]; cbn; auto using valid_name. Qed.
Lemma reverse_row_ok (o : Z) : 0 <= o < 2 ^ 16 -> row_ok (RowReverse c d o).
Proof. intros ?; cbn; auto using valid_name. Qed.

Lemma reclaim_updates_ok (g : Z) (t : sdb_index_term) (mine : bool) : term_ok t -> 0 <= g < 2 ^ 64 -> updates_ok (reclaim_updates g t mine).
Proof.
  intros; unfold reclaim_updates; constructor; [by apply entry_row_ok|]; destruct mine; [|constructor].
  constructor; [by apply guard_row_ok|constructor].
Qed.

Lemma reclaim_all_ok (g : Z) (ts : list (sdb_index_term * bool)) (o : Z) :
  Forall (fun x => term_ok x.1) ts -> 0 <= g < 2 ^ 64 -> 0 <= o -> o + Z.of_nat (length ts) <= 2 ^ 16 -> updates_ok (reclaim_all_updates g o ts).
Proof.
  intros Ht Hg; revert o; induction Ht as [|[t mine] ts Htm Ht IH]; intros o Ho Hl; cbn [reclaim_all_updates]; [constructor|].
  cbn [length] in Hl; apply Forall_app; split; [by apply reclaim_updates_ok|]; constructor; [apply reverse_row_ok; lia|apply IH; lia].
Qed.

Lemma term_updates_ok (g : Z) (ts : list sdb_index_term) (us : list bool) : Forall term_ok ts -> 0 <= g < 2 ^ 64 -> updates_ok (term_updates g ts us).
Proof.
  intros Ht Hg; revert us; induction Ht as [|t ts Htm Ht IH]; intros [|u us]; cbn [term_updates]; try constructor; [by apply entry_row_ok|].
  apply Forall_app; split; [|apply IH]; destruct u; [|constructor]; constructor; [by apply guard_row_ok|constructor].
Qed.

Lemma reverse_updates_ok (g : Z) (ts : list sdb_index_term) (o : Z) :
  0 <= o -> o + Z.of_nat (length ts) <= 2 ^ 16 -> updates_ok (reverse_updates g o ts).
Proof.
  revert o; induction ts as [|t ts IH]; intros o Ho Hl; cbn [reverse_updates]; constructor; cbn [length] in Hl.
  - apply reverse_row_ok; lia.
  - apply IH; lia.
Qed.
End Updates.

Lemma apply_deletes (us : list update) (m : gmap bytes bytes) (k : bytes) :
  Forall (fun u => u.2 = None) us -> apply_updates us m !! k = None \/ apply_updates us m !! k = m !! k.
Proof.
  intros H; revert m; induction H as [|[r x] us Hx H IH]; intros m; [by right|]; cbn in Hx; subst x; cbn [apply_updates].
  destruct (IH (delete (row_key r) m)) as [E|E]; rewrite E; [by left|].
  destruct (decide (row_key r = k)) as [<-|]; [left; apply lookup_delete_eq|right; by apply lookup_delete_ne].
Qed.

(** ** The steps *)

Section Steps.
Context {B : Type} `{!Rows B} `{!RowsLaws B} (b0 : B).
Context (c d : bytes) (Hc : valid c) (Hd : valid d).

Lemma runs_find {A} (read : (bytes -> Z -> result bytes) -> result A) (o : option A) (s : engine (B := B)) Q E :
  match read (rows_get (en_rows s)) with Ok a => o = Some a | Err SDB_E_NOT_FOUND => o = None | Err _ => False end ->
  Q o s -> runs (engine_find read) s Q E.
Proof. unfold runs, engine_find; intros H HQ; destruct (read _) as [a|[]]; by subst. Qed.

Lemma runs_find_row (s : engine (B := B)) (m : gmap bytes bytes) (g : Z) (r : row_name) (capacity : Z) Q E :
  holds b0 s m g -> row_ok r -> (forall v, m !! row_key r = Some v -> Z.of_nat (length v) <= capacity) ->
  Q (m !! row_key r) s -> runs (engine_find (fun get => get (row_key r) capacity)) s Q E.
Proof.
  intros [Hm _] Hr Hv HQ; eapply runs_find; [|exact HQ]; rewrite (get_row _ _ (rows_get_law _ _ Hm)) by done.
  destruct (m !! row_key r) as [v|]; cbn [lookup_result]; [|done]; by rewrite (proj2 (Z.ltb_ge _ _)) by (by apply Hv).
Qed.

(** The batch has failed, though the step reports success. *)
Definition dead (s : engine (B := B)) (g : Z) : Prop :=
  rows_failure (en_rows s) <> SDB_OK /\ en_generation s = g /\ rows_from b0 (en_rows s).

Lemma dead_find {A} (s : engine (B := B)) (g : Z) (read : (bytes -> Z -> result bytes) -> result A) Q :
  dead s g -> (forall get, (forall k n, get k n = Err SDB_E_INVALID_ARGUMENT) -> read get = Err SDB_E_INVALID_ARGUMENT) ->
  runs (engine_find read) s Q (fun e s' => stops b0 e s' g).
Proof.
  intros (Hf & Hg & Hr) Hread; unfold runs, engine_find; rewrite Hread; [|intros; by apply rows_refuse].
  by split; [split; [|split]|].
Qed.

Lemma runs_ignore (op : engineM (B := B) unit) (s : engine) (g : Z) (Q : engine -> Prop) :
  runs op s (fun _ s' => Q s') (fun e s' => stops b0 e s' g) ->
  runs (ignore_not_found op) s (fun _ s' => Q s' \/ dead s' g) (fun e s' => stops b0 e s' g).
Proof.
  unfold runs, ignore_not_found; destruct (op s) as [[[]|e] s']; [by left|]; intros Hs; destruct (Hs) as [(_ & Hf & Hr) Hg].
  destruct e; try done; right; done.
Qed.

(** Delete a row if it is there. *)
Lemma runs_delete_if (s : engine) (m : gmap bytes bytes) (g : Z) (r : row_name) :
  holds b0 s m g -> row_ok r ->
  runs (ignore_not_found (key ← engine_lift (Ok (row_key r)); sdb_engine_tree_delete key)) s
    (fun _ s' => holds b0 s' (delete (row_key r) m) g \/ dead s' g) (fun e s' => stops b0 e s' g).
Proof.
  intros Hs Hr; destruct (m !! row_key r) as [v|] eqn:Em.
  - apply (runs_ignore _ _ _ (fun s' => holds b0 s' (delete (row_key r) m) g)); apply runs_bind, (runs_lift (row_key r)); [done|].
    eapply runs_delete; [done|done|by rewrite Em|by intros|by intros].
  - unfold runs, ignore_not_found, mbind, engineM_bind, engine_lift; rewrite (delete_absent b0 s m g) by done.
    left; by rewrite delete_id.
Qed.

(** The guard of a term that is reclaimed: with [mine], there is none or [d] owns it;
    otherwise it is not looked at or belongs to another document. *)
Definition guard_owner (u : bool) (m : gmap bytes bytes) (t : sdb_index_term) (mine : bool) : Prop :=
  if mine
  then u = true /\ (m !! row_key (guard_row c t) = None
                    \/ exists g, 0 <= g < 2 ^ 64 /\ m !! row_key (guard_row c t) = Some (guard_value g d))
  else u = false \/ m !! row_key (guard_row c t) = None
       \/ exists g d', 0 <= g < 2 ^ 64 /\ name_ok d' /\ d' <> d /\ m !! row_key (guard_row c t) = Some (guard_value g d').

Lemma guard_owner_kept (u : bool) (m m' : gmap bytes bytes) (t : sdb_index_term) (mine : bool) :
  m' !! row_key (guard_row c t) = None \/ m' !! row_key (guard_row c t) = m !! row_key (guard_row c t) ->
  guard_owner u m t mine -> guard_owner u m' t mine.
Proof.
  unfold guard_owner; intros [E|E] H; destruct mine; rewrite E; auto.
  destruct H as [? _]; auto.
Qed.

Lemma runs_reclaim_guard (s : engine) (m : gmap bytes bytes) (g : Z) (t : sdb_index_term) (mine : bool) :
  holds b0 s m g -> term_ok t -> guard_owner true m t mine ->
  runs (sdb_document_reclaim_guard c t d) s
    (fun _ s' => holds b0 s' (if mine then delete (row_key (guard_row c t)) m else m) g) (fun e s' => stops b0 e s' g).
Proof.
  intros Hs Ht Hg; unfold sdb_document_reclaim_guard; apply runs_bind; pose proof (valid_size _ (proj2 Ht)).
  apply (runs_lift (row_key (guard_row c t))).
  { rewrite base_key_eq by lia; unfold term_key_valid, SDB_ENGINE_MAX_NAME_SIZE; rewrite Hc, (proj1 Ht).
    rewrite (proj2 (Z.leb_le _ _)) by lia; cbn [andb zeros replicate]; by rewrite app_nil_r. }
  assert (Hval : forall v, m !! row_key (guard_row c t) = Some v ->
            exists g d', 0 <= g < 2 ^ 64 /\ name_ok d' /\ v = guard_value g d' /\ (d' = d <-> mine = true)).
  { intros v Hv; unfold guard_owner in Hg; destruct mine; rewrite Hv in Hg.
    - destruct Hg as [_ [?|(g' & ? & [= ->])]]; [done|]; exists g', d; split; [done|]; split; [by apply valid_name|done].
    - destruct Hg as [?|[?|(g' & d' & ? & ? & ? & [= ->])]]; [done|done|]; by exists g', d'. }
  apply runs_bind; eapply runs_find_row; [done|by apply guard_row_ok| |].
  { intros v Hv; destruct (Hval v Hv) as (g' & d' & _ & Hn & -> & _); by apply guard_value_length. }
  destruct (m !! row_key (guard_row c t)) as [v|] eqn:Em; [|apply runs_ret; destruct mine; [by rewrite delete_id|done]].
  destruct (Hval v eq_refl) as (g' & d' & Hg' & Hn & -> & Hown); apply runs_bind, (runs_lift (g', d')); [by apply guard_decode_value|].
  cbn [snd]; case_bool_decide as E.
  - rewrite (proj1 Hown E); eapply runs_delete; [done|by apply guard_row_ok|by rewrite Em|by intros|by intros].
  - destruct mine; [by destruct E; apply Hown|by apply runs_ret].
Qed.

Lemma runs_reclaim_term (s : engine) (m : gmap bytes bytes) (g go : Z) (t : sdb_index_term) (o : option bool) (mine : bool) :
  holds b0 s m g -> term_ok t -> 0 <= go < 2 ^ 64 -> m !! row_key (RowDefinition c (it_index_name t)) = definition_value <$> o ->
  guard_owner (bool_decide (o = Some true)) m t mine ->
  runs (sdb_document_reclaim_one_term c t d go) s
    (fun _ s' => holds b0 s' (apply_updates (reclaim_updates c d go t mine) m) g) (fun e s' => stops b0 e s' g).
Proof.
  intros Hs Ht Hgo Hdef Hown; unfold sdb_document_reclaim_one_term; pose proof (valid_size _ Hd) as Hdl; pose proof (valid_size _ (proj2 Ht)).
  rewrite Z.gtb_ltb, (proj2 (Z.ltb_ge _ _)) by (unfold SIZE_MAX, UINT64_MAX; lia); apply runs_bind.
  rewrite entry_key_eq by lia; unfold term_key_valid, SDB_ENGINE_MAX_NAME_SIZE; rewrite Hc, (proj1 Ht), (proj2 (Z.leb_le _ _)) by lia.
  cbn [andb]; change (entry_bytes c _ _ d go) with (row_key (entry_row c d go t)).
  assert (He : row_ok (entry_row c d go t)) by (by apply entry_row_ok); assert (Hgr : row_ok (guard_row c t)) by (by apply guard_row_ok).
  assert (Hdr : row_ok (RowDefinition c (it_index_name t))) by (cbn; destruct Ht; auto using valid_name).
  eapply runs_impl; [by apply (runs_delete_if s m g)| |done]; cbn beta; intros _ s1 [Hs1|Hdead]; apply runs_bind.
  2: { apply dead_find; [done|]; intros get Hget; unfold sdb_index_definition.
       rewrite base_key_eq by lia; unfold term_key_valid; rewrite Hc, (proj1 Ht); cbn [andb]; rewrite (proj2 (Z.leb_le _ _)) by (vm_compute; congruence).
       cbn [mbind result_bind]; by rewrite Hget. }
  eapply (runs_find _ o).
  { rewrite (definition_read _ _ c _ o (rows_get_law _ _ (proj1 Hs1))) by
      (done || apply Ht || (rewrite lookup_delete_ne; [done|by apply row_key_ne])); by destruct o. }
  assert (Hown' : guard_owner (bool_decide (o = Some true)) (delete (row_key (entry_row c d go t)) m) t mine).
  { eapply guard_owner_kept; [|done]; right; apply lookup_delete_ne; by apply row_key_ne. }
  destruct o as [[]|].
  - rewrite bool_decide_eq_true_2 in Hown' by done; eapply runs_impl; [by apply (runs_reclaim_guard s1 (delete (row_key (entry_row c d go t)) m) g t mine)| |done].
    cbn beta; intros _ s2; by destruct mine.
  - apply runs_ret; destruct mine; [by destruct Hown'|done].
  - apply runs_ret; destruct mine; [by destruct Hown'|done].
Qed.

(** The reverse rows of a version from ordinal [o] on, and nothing after them. *)
Definition reverse_rows_at (m : gmap bytes bytes) (g o : Z) (ts : list sdb_index_term) : Prop :=
  (forall k t, ts !! k = Some t -> m !! row_key (RowReverse c d (o + Z.of_nat k)) = Some (reverse_value g t))
  /\ (o + Z.of_nat (length ts) < 2 ^ 16 -> m !! row_key (RowReverse c d (o + Z.of_nat (length ts))) = None).

(** The definitions and guards of the terms that are reclaimed. *)
Definition guards_at (defs : gmap (bytes * bytes) bool) (m : gmap bytes bytes) (ts : list (sdb_index_term * bool)) : Prop :=
  Forall (fun x => m !! row_key (RowDefinition c (it_index_name x.1)) = definition_value <$> defs !! (c, it_index_name x.1)
                   /\ guard_owner (bool_decide (defs !! (c, it_index_name x.1) = Some true)) m x.1 x.2) ts.

Definition step_updates (g o : Z) (t : sdb_index_term) (mine : bool) : list update :=
  reclaim_updates c d g t mine ++ [(RowReverse c d o, None)].

Lemma step_ok (g o : Z) (t : sdb_index_term) (mine : bool) :
  term_ok t -> 0 <= g < 2 ^ 64 -> 0 <= o < 2 ^ 16 -> updates_ok (step_updates g o t mine).
Proof. intros; apply Forall_app; split; [by apply reclaim_updates_ok|]; constructor; [by apply reverse_row_ok|constructor]. Qed.

Lemma step_other (g o : Z) (t : sdb_index_term) (mine : bool) (m : gmap bytes bytes) (r : row_name) :
  term_ok t -> 0 <= g < 2 ^ 64 -> 0 <= o < 2 ^ 16 -> row_ok r -> r <> entry_row c d g t -> r <> guard_row c t -> r <> RowReverse c d o ->
  apply_updates (step_updates g o t mine) m !! row_key r = m !! row_key r.
Proof.
  intros Ht Hg Ho Hr H1 H2 H3; apply apply_other; [by apply step_ok|done|].
  unfold step_updates, reclaim_updates; rewrite fmap_app, fmap_cons, not_elem_of_app, list.not_elem_of_cons; split; [split; [done|]|].
  - destruct mine; cbn; rewrite ?list.not_elem_of_cons; auto using not_elem_of_nil.
  - cbn; rewrite list.not_elem_of_cons; auto using not_elem_of_nil.
Qed.

Lemma step_guards (defs : gmap (bytes * bytes) bool) (m : gmap bytes bytes) (ts : list (sdb_index_term * bool)) (g o : Z)
    (t : sdb_index_term) (mine : bool) :
  term_ok t -> 0 <= g < 2 ^ 64 -> 0 <= o < 2 ^ 16 -> Forall (fun x => term_ok x.1) ts -> guards_at defs m ts ->
  guards_at defs (apply_updates (step_updates g o t mine) m) ts.
Proof.
  intros Ht Hg Ho Hts Hgs; unfold guards_at in *; rewrite List.Forall_forall in *; intros x Hx; destruct (Hgs x Hx) as [Hdef Hown].
  specialize (Hts x Hx); destruct Hts as [Hn _]; split.
  - rewrite step_other; [done|done..|cbn; auto using valid_name|done|done|done].
  - eapply guard_owner_kept; [|done]; apply apply_deletes; unfold step_updates, reclaim_updates.
    apply Forall_app; split; [constructor; [done|]; destruct mine; repeat constructor|repeat constructor].
Qed.

Lemma runs_reclaim_rows (defs : gmap (bytes * bytes) bool) (g go : Z) :
  0 < go < 2 ^ 64 ->
  forall n ts o found s m, 0 <= o -> o + Z.of_nat n = 2 ^ 16 -> (length ts <= n)%nat -> Forall (fun x => term_ok x.1) ts ->
  holds b0 s m g -> reverse_rows_at m go o ts.*1 -> guards_at defs m ts ->
  runs (reclaim_reverse_rows c d n o found) s
    (fun r s' => r = found || negb (length ts =? 0)%nat /\ holds b0 s' (apply_updates (reclaim_all_updates c d go o ts) m) g)
    (fun e s' => stops b0 e s' g).
Proof.
  intros Hgo; induction n as [|n IH]; intros ts o found s m Ho Hn Hl Hts Hs [Hrow Hend] Hg; cbn [reclaim_reverse_rows].
  { destruct ts; [|cbn in Hl; lia]; apply runs_ret; by rewrite orb_false_r. }
  assert (Hro : row_ok (RowReverse c d o)) by (apply reverse_row_ok; (done || lia)).
  apply runs_bind, (runs_lift (row_key (RowReverse c d o))); [by rewrite reverse_key_eq, Hc, Hd|]; apply runs_bind.
  destruct ts as [|[t mine] ts].
  - cbn [fmap list_fmap length Z.of_nat] in Hend; rewrite Z.add_0_r in Hend; eapply runs_find_row; [done|done|rewrite Hend by lia; done|]; rewrite Hend by lia.
    apply runs_ret; by rewrite orb_false_r.
  - apply Forall_cons_iff in Hts as [Ht Hts]; apply Forall_cons_iff in Hg as [[Hdef Hown] Hg]; cbn [fst snd] in *.
    specialize (Hrow 0%nat t eq_refl) as Hrow0; rewrite Z.add_0_r in Hrow0; cbn [length] in Hl.
    eapply runs_find_row; [done|done|rewrite Hrow0; intros v [= <-]; by apply reverse_value_length|]; rewrite Hrow0.
    apply runs_bind, (runs_lift (go, t)); [apply reverse_decode_value; (done || lia)|]; cbn [fst snd].
    rewrite (proj2 (Z.eqb_neq _ _)) by lia; apply runs_bind.
    eapply runs_impl; [eapply (runs_reclaim_term s m g go t _ mine); [done|done|lia|done|done]| |done]; cbn beta; intros _ s1 Hs1.
    apply runs_bind; eapply runs_delete; [done|done| | |by intros].
    { rewrite apply_other; [by rewrite Hrow0|apply reclaim_updates_ok; (done || lia)|done|].
      unfold reclaim_updates; rewrite fmap_cons, list.not_elem_of_cons; split; [done|].
      destruct mine; cbn; rewrite ?list.not_elem_of_cons; auto using not_elem_of_nil. }
    intros s2 Hs2; assert (Hm2 : holds b0 s2 (apply_updates (step_updates go o t mine) m) g) by (unfold step_updates; by rewrite apply_app).
    eapply runs_impl; [apply (IH ts (o + 1) true s2); [lia|lia|lia|done|exact Hm2| |apply step_guards; (done || lia)]| |done].
    + split.
      * intros k t' Hk; rewrite step_other; [|done|lia|lia|apply reverse_row_ok; [done|done|]|done|done|intros [= ?]; lia].
        -- specialize (Hrow (S k) t' Hk); by replace (o + 1 + Z.of_nat k) with (o + Z.of_nat (S k)) by lia.
        -- apply lookup_lt_Some in Hk; rewrite length_fmap in Hk; lia.
      * intros Hlt; rewrite step_other; [|done|lia|lia|apply reverse_row_ok; (done || lia)|done|done|intros [= ?]; lia].
        cbn [fmap list_fmap length] in Hend; replace (o + 1 + Z.of_nat (length ts.*1)) with (o + Z.of_nat (S (length ts.*1))) in * by lia.
        by apply Hend.
    + cbn beta; intros r s3 [-> Hs3]; split; [by rewrite orb_true_r|]; cbn [reclaim_all_updates].
      change (?x ++ (?y :: ?z)) with (x ++ [y] ++ z); rewrite app_assoc, apply_app; exact Hs3.
Qed.

Lemma runs_write_terms (g gn : Z) (ts : list sdb_index_term) :
  0 <= gn < 2 ^ 64 -> Forall term_ok ts ->
  forall us s m, length us = length ts -> holds b0 s m g ->
  runs (write_terms c d gn ts us) s
    (fun _ s' => holds b0 s' (apply_updates (term_updates c d gn ts us) m) g) (fun e s' => stops b0 e s' g).
Proof.
  intros Hgn; induction 1 as [|t ts Ht Hts IH]; intros [|u us] s m Hl Hs; try done; cbn [write_terms term_updates].
  pose proof (valid_size _ Hd); pose proof (valid_size _ (proj2 Ht)); apply runs_bind; unfold sdb_index_write_term.
  rewrite Z.gtb_ltb, (proj2 (Z.ltb_ge _ _)) by (unfold SIZE_MAX, UINT64_MAX; lia); apply runs_bind.
  apply (runs_lift (row_key (entry_row c d gn t))).
  { rewrite entry_key_eq by lia; unfold term_key_valid, SDB_ENGINE_MAX_NAME_SIZE; by rewrite Hc, (proj1 Ht), (proj2 (Z.leb_le _ _)) by lia. }
  apply runs_bind; eapply runs_put; [done|by apply entry_row_ok|done| |by intros]; intros s1 Hs1; destruct u; cbn [negb].
  - apply runs_bind, (runs_lift (row_key (guard_row c t))).
    { rewrite base_key_eq by lia; unfold term_key_valid, SDB_ENGINE_MAX_NAME_SIZE; rewrite Hc, (proj1 Ht), (proj2 (Z.leb_le _ _)) by lia.
      cbn [andb zeros replicate]; by rewrite app_nil_r. }
    rewrite guard_encode_value by (by apply valid_name).
    eapply runs_put; [done|by apply guard_row_ok| | |by intros].
    { pose proof (guard_value_length gn d (valid_name _ Hd)) as Hlen; unfold GUARD_VALUE_CAPACITY, SDB_ENGINE_MAX_NAME_SIZE, UINT32_MAX in *; lia. }
    intros s2 Hs2; apply (IH us s2); [by injection Hl|done].
  - apply runs_ret, (IH us s1); [by injection Hl|done].
Qed.

Lemma runs_write_reverse (g gn : Z) (ts : list sdb_index_term) :
  Forall term_ok ts ->
  forall o s m, 0 <= o -> o + Z.of_nat (length ts) <= 2 ^ 16 -> holds b0 s m g ->
  runs (write_reverse_rows c d gn ts o) s
    (fun _ s' => holds b0 s' (apply_updates (reverse_updates c d gn o ts) m) g) (fun e s' => stops b0 e s' g).
Proof.
  induction 1 as [|t ts Ht Hts IH]; intros o s m Ho Hl Hs; cbn [write_reverse_rows reverse_updates]; [by apply runs_ret|].
  cbn [length] in Hl; apply runs_bind, (runs_lift (row_key (RowReverse c d o))); [by rewrite reverse_key_eq, Hc, Hd|].
  apply runs_bind, (runs_lift (reverse_value gn t)); [by apply reverse_encode_value|]; apply runs_bind.
  eapply runs_put; [done|apply reverse_row_ok; (done || lia)| | |by intros].
  { pose proof (reverse_value_length gn t Ht) as Hlen; unfold SDB_INDEX_REVERSE_MAX_VALUE, SDB_ENGINE_MAX_NAME_SIZE, UINT32_MAX in *; lia. }
  intros s1 Hs1; apply IH; [lia|lia|done].
Qed.

(** ** Reclaiming a version *)

(** The terms a document's reverse rows name, and whether a guard goes with each. *)
Definition reclaim_list (defs : gmap (bytes * bytes) bool) (ts : list sdb_index_term) : list (sdb_index_term * bool) :=
  match ts with
  | [] => [(marker_term, false)]
  | _ => (fun t => (t, bool_decide (defs !! (c, it_index_name t) = Some true))) <$> ts
  end.

Lemma reclaim_list_terms (defs : gmap (bytes * bytes) bool) (ts : list sdb_index_term) : (reclaim_list defs ts).*1 = reverse_terms ts.
Proof.
  destruct ts as [|t ts]; [done|]; unfold reclaim_list; rewrite <- list_fmap_compose; cbn; f_equal.
  rewrite <- (list_fmap_id ts) at 2; by apply list_fmap_ext.
Qed.

Lemma marker_ok : term_ok marker_term.
Proof. split; vm_compute; reflexivity. Qed.

Lemma reverse_terms_ok (ts : list sdb_index_term) : Forall term_ok ts -> Forall term_ok (reverse_terms ts).
Proof. destruct ts; [|done]; intros _; constructor; [apply marker_ok|constructor]. Qed.

Lemma reclaim_list_ok (defs : gmap (bytes * bytes) bool) (ts : list sdb_index_term) :
  Forall term_ok ts -> Forall (fun x => term_ok x.1) (reclaim_list defs ts).
Proof. intros H; apply reverse_terms_ok in H; rewrite <- (reclaim_list_terms defs) in H; exact (proj1 (Forall_fmap _ _ _) H). Qed.

Definition same_index (m m' : gmap bytes bytes) : Prop := forall r, row_ok r -> is_index_row r = true -> m' !! row_key r = m !! row_key r.

Lemma version_reverse_rows (m m' : gmap bytes bytes) defs docs (x : document) :
  indexes_are m defs docs -> same_index m m' -> docs !! (c, d) = Some x ->
  reverse_rows_at m' (dc_generation x) 0 (reverse_terms (dc_terms x)).
Proof.
  intros Hi Hs Hx; destruct (ia_document _ _ _ Hi _ _ _ Hx) as [(_ & _ & _ & _ & Hl & _) _].
  assert (Hlen : Z.of_nat (length (reverse_terms (dc_terms x))) <= 2 ^ 16) by (unfold UINT16_MAX in Hl; destruct (dc_terms x); cbn in *; lia).
  split.
  - intros k t Hk; pose proof (lookup_lt_Some _ _ _ Hk); rewrite Z.add_0_l.
    assert (row_ok (RowReverse c d (Z.of_nat k))) by (apply reverse_row_ok; (done || lia)).
    rewrite Hs, (ia_reverse _ _ _ Hi), Hx by (done || lia); cbn [mbind option_bind]; by rewrite Nat2Z.id, Hk.
  - intros Hlt; rewrite Z.add_0_l in *; assert (row_ok (RowReverse c d (Z.of_nat (length (reverse_terms (dc_terms x)))))) by (apply reverse_row_ok; (done || lia)).
    rewrite Hs, (ia_reverse _ _ _ Hi), Hx by (done || lia); cbn [mbind option_bind]; by rewrite Nat2Z.id, lookup_ge_None_2.
Qed.

Lemma version_guards (m m' : gmap bytes bytes) defs docs (x : document) :
  indexes_are m defs docs -> same_index m m' -> docs !! (c, d) = Some x -> guards_at defs m' (reclaim_list defs (dc_terms x)).
Proof.
  intros Hi Hs Hx; destruct (ia_document _ _ _ Hi _ _ _ Hx) as [(_ & _ & Hts & _ & _ & Hg) _].
  assert (Hdef : forall t, term_ok t -> m' !! row_key (RowDefinition c (it_index_name t)) = definition_value <$> defs !! (c, it_index_name t)).
  { intros t [Hn _]; rewrite Hs by (done || (cbn; auto using valid_name)); by apply (ia_definition _ _ _ Hi). }
  assert (Hgr : forall t v, term_ok t -> m' !! row_key (guard_row c t) = Some v <-> m !! row_key (guard_row c t) = Some v).
  { intros t v Ht; by rewrite Hs by (done || by apply guard_row_ok). }
  destruct (dc_terms x) as [|t0 ts0] eqn:Ex; cbn [reclaim_list].
  - constructor; [|constructor]; cbn [fst snd]; split; [apply Hdef, marker_ok|]; right.
    destruct (m' !! row_key (guard_row c marker_term)) as [v|] eqn:Ev; [right|by left]; apply Hgr in Ev; [|apply marker_ok].
    apply (ia_guard _ _ _ Hi) in Ev as (_ & d' & x' & Hx' & Ht' & ->); [|done|apply marker_ok].
    destruct (ia_document _ _ _ Hi _ _ _ Hx') as [(_ & Hd' & _ & _ & _ & Hg') _].
    exists (dc_generation x'), d'; split; [lia|]; split; [by apply valid_name|]; split; [|done].
    intros ->; assert (x' = x) as -> by congruence; rewrite Ex in Ht'; by apply elem_of_nil in Ht'.
  - rewrite <- Ex in *; apply Forall_fmap; rewrite List.Forall_forall in *; intros t Ht; specialize (Hts t Ht); split; [by apply Hdef|]; cbn [fst snd].
    case_bool_decide as Eu; [split; [done|]|by left].
    destruct (m' !! row_key (guard_row c t)) as [v|] eqn:Ev; [right|by left].
    assert (Hm : m !! row_key (guard_row c t) = Some (guard_value (dc_generation x) d)).
    { apply (ia_guard _ _ _ Hi c t); [done|done|]; split; [done|]; exists d, x; split; [done|]; split; [by apply list_elem_of_In|done]. }
    apply Hgr in Ev; [|done]; exists (dc_generation x); split; [lia|]; congruence.
Qed.

Section Version.
Context (collect : bytes -> bytes -> result (list (sdb_index_term * Z))).

Lemma runs_reclaim_version (m m' : gmap bytes bytes) defs docs (x : document) (g : Z) (s : engine) :
  indexes_are m defs docs -> same_index m m' -> docs !! (c, d) = Some x -> holds b0 s m' g ->
  runs (reclaim_version collect c d) s
    (fun _ s' => holds b0 s' (apply_updates (reclaim_all_updates c d (dc_generation x) 0 (reclaim_list defs (dc_terms x))) m') g)
    (fun e s' => stops b0 e s' g).
Proof.
  intros Hi Hsm Hx Hs; destruct (ia_document _ _ _ Hi _ _ _ Hx) as [(_ & _ & Hts & _ & Hl & Hg) _]; unfold reclaim_version; apply runs_bind.
  assert (Hlen : (length (reclaim_list defs (dc_terms x)) <= Z.to_nat (UINT16_MAX + 1))%nat).
  { rewrite <- (length_fmap fst), reclaim_list_terms; unfold UINT16_MAX in *; destruct (dc_terms x); cbn [reverse_terms length] in *; lia. }
  eapply runs_impl; [apply (runs_reclaim_rows defs g (dc_generation x) Hg (Z.to_nat (UINT16_MAX + 1)) (reclaim_list defs (dc_terms x)) 0 false s m')| |done].
  - done.
  - unfold UINT16_MAX; lia.
  - done.
  - by apply reclaim_list_ok.
  - done.
  - rewrite reclaim_list_terms; by eapply version_reverse_rows.
  - by eapply version_guards.
  - cbn beta; intros r s' [-> Hs']; assert (length (reclaim_list defs (dc_terms x)) <> 0%nat) as Hne by (by destruct (dc_terms x)).
    apply Nat.eqb_neq in Hne; rewrite Hne; by apply runs_ret.
Qed.
End Version.
End Steps.
