(* ===== verification/EngineDocumentMap.v ===== *)
(** * Documents refine a map with unique indexes

    Putting and deleting a document, proved against [RowsLaws]: the rows keep the
    invariants of [EngineMap] and [EngineIndex] for the new map of documents, whatever
    version was there before; a put whose terms are refused, or that fails for another
    reason, changes no document. *)

From stdpp Require Import gmap.
From S2P Require Import Prelude Status Codec Keys Sha256 BtreePage Btree BtreeGet EngineKeys EngineRows EngineObject EngineMap EngineDocument EngineIndex EngineReclaim.

#[local] Opaque sdb_sha256 sdb_constant_time_equal sdb_object_metadata_encode.

(** ** The updates of a document operation *)

Lemma entry_row_inj (c c' d d' : bytes) (g g' : Z) (t t' : sdb_index_term) :
  entry_row c d g t = entry_row c' d' g' t' -> c = c' /\ d = d' /\ g = g' /\ t = t'.
Proof. destruct t, t'; unfold entry_row; cbn; by intros [= -> -> -> -> ->]. Qed.

Lemma guard_row_inj (c c' : bytes) (t t' : sdb_index_term) : guard_row c t = guard_row c' t' -> c = c' /\ t = t'.
Proof. destruct t, t'; unfold guard_row; cbn; by intros [= -> -> ->]. Qed.

Section Members.
Context (c d : bytes).

Lemma elem_of_reclaim_all (g : Z) (ts : list (sdb_index_term * bool)) (o : Z) (r : row_name) (v : option bytes) :
  (r, v) ∈ reclaim_all_updates c d g o ts <->
  v = None /\ ((exists t mine, (t, mine) ∈ ts /\ (r = entry_row c d g t \/ mine = true /\ r = guard_row c t))
               \/ exists k, 0 <= k < Z.of_nat (length ts) /\ r = RowReverse c d (o + k)).
Proof.
  revert o; induction ts as [|[t mine] ts IH]; intros o; cbn [reclaim_all_updates].
  { rewrite elem_of_nil; split; [done|]; intros [_ [(t & mine & Ht & _)|(k & Hk & _)]]; [by apply elem_of_nil in Ht|cbn in Hk; lia]. }
  rewrite elem_of_app, elem_of_cons, IH; unfold reclaim_updates; rewrite elem_of_cons; cbn [length]; split.
  - intros [[[= -> ->]|Hm]|[[= -> ->]|[-> [(t' & mine' & Ht & Hr)|(k & Hk & ->)]]]].
    + split; [done|]; left; exists t, mine; split; [by left|by left].
    + destruct mine; [|by apply elem_of_nil in Hm]; apply list_elem_of_singleton in Hm as [= -> ->]; split; [done|].
      left; exists t, true; split; [by left|by right].
    + split; [done|]; right; exists 0; split; [lia|by rewrite Z.add_0_r].
    + split; [done|]; left; exists t', mine'; split; [by right|done].
    + split; [done|]; right; exists (k + 1); split; [lia|f_equal; lia].
  - intros [-> [(t' & mine' & Ht & Hr)|(k & Hk & ->)]].
    + apply elem_of_cons in Ht as [[= -> ->]|Ht]; [left; destruct Hr as [->|[-> ->]]; [by left|right; by left]|].
      right; right; split; [done|]; left; eauto.
    + right; destruct (decide (k = 0)) as [->|]; [left; by rewrite Z.add_0_r|right; split; [done|]; right].
      exists (k - 1); split; [lia|f_equal; lia].
Qed.

Lemma elem_of_term_updates (defs : gmap (bytes * bytes) bool) (g : Z) (ts : list sdb_index_term) (r : row_name) (v : option bytes) :
  (r, v) ∈ term_updates c d g ts (unique_flags defs c ts) <->
  exists t, t ∈ ts /\ (r = entry_row c d g t /\ v = Some []
                       \/ defs !! (c, it_index_name t) = Some true /\ r = guard_row c t /\ v = Some (guard_value g d)).
Proof.
  induction ts as [|t ts IH].
  { cbn; rewrite elem_of_nil; split; [done|]; intros (t & Ht & _); by apply elem_of_nil in Ht. }
  cbn [unique_flags fmap list_fmap term_updates]; rewrite elem_of_cons, elem_of_app; unfold unique_flags in IH; rewrite IH; split.
  - intros [[= -> ->]|[Hu|(t' & Ht & Hr)]]; [exists t; split; [by left|by left]| |exists t'; split; [by right|done]].
    case_bool_decide as Eu; [|by apply elem_of_nil in Hu]; apply list_elem_of_singleton in Hu as [= -> ->].
    exists t; split; [by left|right; auto].
  - intros (t' & Ht & Hr); apply elem_of_cons in Ht as [->|Ht]; [|right; right; eauto].
    destruct Hr as [[-> ->]|(Hu & -> & ->)]; [by left|]; right; left; rewrite bool_decide_eq_true_2 by done; by left.
Qed.

Lemma elem_of_reverse_updates (g : Z) (ts : list sdb_index_term) (o : Z) (r : row_name) (v : option bytes) :
  (r, v) ∈ reverse_updates c d g o ts <->
  exists k t, ts !! k = Some t /\ r = RowReverse c d (o + Z.of_nat k) /\ v = Some (reverse_value g t).
Proof.
  revert o; induction ts as [|t ts IH]; intros o; cbn [reverse_updates].
  { rewrite elem_of_nil; split; [done|]; intros (k & t & Hk & _); by rewrite lookup_nil in Hk. }
  rewrite elem_of_cons, IH; split.
  - intros [[= -> ->]|(k & t' & Hk & -> & ->)]; [exists 0%nat, t; by rewrite Z.add_0_r|].
    exists (S k), t'; split; [done|]; split; [f_equal; lia|done].
  - intros ([|k] & t' & Hk & -> & ->); [left; injection Hk as ->; by rewrite Z.add_0_r|right].
    exists k, t'; split; [done|]; split; [f_equal; lia|done].
Qed.
End Members.

Section Effect.
Context (c d : bytes) (Hc : valid c) (Hd : valid d).
Context (m : gmap bytes bytes) (defs : gmap (bytes * bytes) bool) (docs : gmap (bytes * bytes) document).

Abbreviation unique t := (defs !! (c, it_index_name t) = Some true).

Definition old_updates : list update :=
  match docs !! (c, d) with
  | Some x => reclaim_all_updates c d (dc_generation x) 0 (reclaim_list c defs (dc_terms x))
  | None => []
  end.

Definition new_terms (new : option document) : list update :=
  match new with
  | Some x => term_updates c d (dc_generation x) (dc_terms x) (unique_flags defs c (dc_terms x))
  | None => []
  end.

Definition new_reverse (new : option document) : list update :=
  match new with
  | Some x => reverse_updates c d (dc_generation x) 0 (reverse_terms (dc_terms x))
  | None => []
  end.

Lemma elem_of_reclaim_list (ts : list sdb_index_term) (t : sdb_index_term) (mine : bool) :
  (t, mine) ∈ reclaim_list c defs ts -> t ∈ reverse_terms ts /\ (mine = true -> t ∈ ts /\ unique t).
Proof.
  destruct ts as [|t0 ts]; cbn [reclaim_list reverse_terms].
  - intros H; apply list_elem_of_singleton in H as [= -> ->]; split; [by left|done].
  - intros H; apply list_elem_of_fmap in H as (t' & [= -> ->] & H); split; [done|]; intros Hu; by apply bool_decide_eq_true in Hu.
Qed.

Lemma reclaim_list_covers (ts : list sdb_index_term) (t : sdb_index_term) :
  t ∈ ts -> (t, bool_decide (unique t)) ∈ reclaim_list c defs ts.
Proof. destruct ts as [|t0 ts]; [by intros H; apply elem_of_nil in H|]; intros H; apply list_elem_of_fmap; by exists t. Qed.

Lemma elem_of_old (r : row_name) (v : option bytes) :
  (r, v) ∈ old_updates ->
  v = None /\ exists x, docs !! (c, d) = Some x
    /\ ((exists t, r = entry_row c d (dc_generation x) t)
        \/ (exists t, t ∈ dc_terms x /\ unique t /\ r = guard_row c t)
        \/ exists k, 0 <= k < Z.of_nat (length (reverse_terms (dc_terms x))) /\ r = RowReverse c d k).
Proof.
  unfold old_updates; destruct (docs !! (c, d)) as [x|]; [|by intros H; apply elem_of_nil in H].
  intros H; apply elem_of_reclaim_all in H as [-> H]; split; [done|]; exists x; split; [done|].
  destruct H as [(t & mine & Ht & [->|[-> ->]])|(k & Hk & ->)]; [left; eauto| |].
  - apply elem_of_reclaim_list in Ht as [_ Ht]; destruct (Ht eq_refl); right; left; eauto.
  - right; right; exists k; rewrite <- (length_fmap fst), reclaim_list_terms in Hk; auto.
Qed.

Lemma old_has_entry (x : document) (t : sdb_index_term) :
  docs !! (c, d) = Some x -> t ∈ dc_terms x -> (entry_row c d (dc_generation x) t, None) ∈ old_updates.
Proof.
  intros Hx Ht; unfold old_updates; rewrite Hx; apply elem_of_reclaim_all; split; [done|]; left.
  exists t, (bool_decide (unique t)); split; [by apply reclaim_list_covers|by left].
Qed.

Lemma old_has_guard (x : document) (t : sdb_index_term) :
  docs !! (c, d) = Some x -> t ∈ dc_terms x -> unique t -> (guard_row c t, None) ∈ old_updates.
Proof.
  intros Hx Ht Hu; unfold old_updates; rewrite Hx; apply elem_of_reclaim_all; split; [done|]; left; exists t, true; split; [|by right].
  rewrite <- (bool_decide_eq_true_2 (unique t)) by done; by apply reclaim_list_covers.
Qed.

Lemma old_has_reverse (x : document) (k : Z) :
  docs !! (c, d) = Some x -> 0 <= k < Z.of_nat (length (reverse_terms (dc_terms x))) -> (RowReverse c d k, None) ∈ old_updates.
Proof.
  intros Hx Hk; unfold old_updates; rewrite Hx; apply elem_of_reclaim_all; split; [done|]; right; exists k; split; [|done].
  by rewrite <- (length_fmap fst), reclaim_list_terms.
Qed.

Context (Hidx : indexes_are m defs docs).

Lemma old_updates_ok : updates_ok old_updates.
Proof.
  unfold old_updates; destruct (docs !! (c, d)) as [x|] eqn:Hx; [|constructor].
  destruct (ia_document _ _ _ Hidx _ _ _ Hx) as [(_ & _ & Hts & _ & Hl & Hg) _]; apply reclaim_all_ok; [done..|by apply reclaim_list_ok|lia|done|].
  rewrite <- (length_fmap fst), reclaim_list_terms; unfold UINT16_MAX in Hl; destruct (dc_terms x); cbn [reverse_terms length] in *; lia.
Qed.

Context (new : option document).
Context (Hnew : forall x, new = Some x ->
  Forall (term_free defs docs c d) (dc_terms x) /\ Z.of_nat (length (dc_terms x)) <= UINT16_MAX /\ 0 < dc_generation x < 2 ^ 64
  /\ forall x', docs !! (c, d) = Some x' -> dc_generation x' <> dc_generation x).

Definition index_updates : list update := old_updates ++ new_terms new ++ new_reverse new.

Lemma new_ok (x : document) : new = Some x -> Forall term_ok (dc_terms x).
Proof. intros Hx; destruct (Hnew x Hx) as [Hf _]; eapply List.Forall_impl; [|exact Hf]; by intros t [? _]. Qed.

Lemma new_updates_ok : updates_ok (new_terms new ++ new_reverse new).
Proof.
  pose proof new_ok as Hok; destruct new as [x|] eqn:Ex; [|constructor]; destruct (Hnew x eq_refl) as (_ & Hl & Hg & _); apply Forall_app; split.
  - apply term_updates_ok; [done|done|by apply Hok|lia].
  - apply reverse_updates_ok; [done..|]; unfold UINT16_MAX in Hl; destruct (dc_terms x); cbn [reverse_terms length] in *; lia.
Qed.

(** ** The rows after the operation *)

Abbreviation after := (apply_updates index_updates m).

Lemma after_split (r : row_name) : after !! row_key r = apply_updates (new_terms new ++ new_reverse new) (apply_updates old_updates m) !! row_key r.
Proof. unfold index_updates; by rewrite apply_app. Qed.

Lemma row_in (us : list update) (r : row_name) : r ∈ us.*1 <-> exists v, (r, v) ∈ us.
Proof.
  rewrite list_elem_of_fmap; split; [intros ([r' v] & -> & H); eauto|intros [v H]; by exists (r, v)].
Qed.

Lemma elem_of_new (r : row_name) (v : option bytes) :
  (r, v) ∈ new_terms new ++ new_reverse new ->
  exists x, new = Some x
    /\ ((exists t, t ∈ dc_terms x /\ r = entry_row c d (dc_generation x) t /\ v = Some [])
        \/ (exists t, t ∈ dc_terms x /\ unique t /\ r = guard_row c t /\ v = Some (guard_value (dc_generation x) d))
        \/ exists k t, reverse_terms (dc_terms x) !! k = Some t /\ r = RowReverse c d (Z.of_nat k) /\ v = Some (reverse_value (dc_generation x) t)).
Proof.
  clear Hnew; destruct new as [x|]; cbn [new_terms new_reverse]; [|by intros H; apply elem_of_nil in H].
  intros H; exists x; split; [done|]; apply elem_of_app in H as [H|H].
  - apply elem_of_term_updates in H as (t & Ht & [[-> ->]|(Hu & -> & ->)]); [left; eauto|right; left; eauto 6].
  - apply elem_of_reverse_updates in H as (k & t & Hk & -> & ->); right; right; eauto.
Qed.

(** Rows of other documents and collections stay. *)
Lemma after_other (r : row_name) :
  row_ok r -> (forall g t, r <> entry_row c d g t) -> (forall t, r <> guard_row c t) -> (forall k, r <> RowReverse c d k) ->
  after !! row_key r = m !! row_key r.
Proof.
  intros Hr H1 H2 H3; apply apply_other; [apply Forall_app; split; [apply old_updates_ok|apply new_updates_ok]|done|].
  unfold index_updates; rewrite row_in; intros [v Hv]; apply elem_of_app in Hv as [Hv|Hv].
  - apply elem_of_old in Hv as (_ & x & _ & [(t & ->)|[(t & _ & _ & ->)|(k & _ & ->)]]); [by eapply H1|by eapply H2|by eapply H3].
  - apply elem_of_new in Hv as (x & _ & [(t & _ & -> & _)|[(t & _ & _ & -> & _)|(k & t & _ & -> & _)]]); [by eapply H1|by eapply H2|by eapply H3].
Qed.

Lemma after_entry (g : Z) (t : sdb_index_term) (v : bytes) :
  term_ok t -> 0 <= g < 2 ^ 64 ->
  after !! row_key (entry_row c d g t) = Some v <-> v = [] /\ exists x, new = Some x /\ dc_generation x = g /\ t ∈ dc_terms x.
Proof.
  intros Ht Hg; assert (Hr : row_ok (entry_row c d g t)) by (by apply entry_row_ok); rewrite after_split.
  assert (Hold : apply_updates old_updates m !! row_key (entry_row c d g t) = None).
  { apply apply_same; [apply old_updates_ok|done|by intros v' Hv'; apply elem_of_old in Hv' as [-> _]|].
    destruct (m !! row_key (entry_row c d g t)) as [w|] eqn:Em; [left|by right].
    apply (ia_entry _ _ _ Hidx) in Em as (_ & x & Hx & <- & Htx); [|done..].
    apply row_in; exists None; by apply old_has_entry. }
  split.
  - intros Hv; destruct (decide (entry_row c d g t ∈ (new_terms new ++ new_reverse new).*1)) as [Hin|Hn].
    + apply row_in in Hin as [w Hw]; pose proof Hw as Hw'.
      apply elem_of_new in Hw as (x & Hx & [(t' & Ht' & E & ->)|[(t' & _ & _ & E & _)|(k & t' & _ & E & _)]]); [|done|done].
      apply entry_row_inj in E as (_ & _ & -> & ->); rewrite (apply_same _ _ _ (Some [])) in Hv; [by injection Hv as <-; eauto 6|apply new_updates_ok|done| |].
      * intros w' Hw2; apply elem_of_new in Hw2 as (x2 & _ & [(t2 & _ & _ & ->)|[(t2 & _ & _ & E & _)|(k & t2 & _ & E & _)]]); [done|done|done].
      * left; apply row_in; eauto.
    + rewrite apply_other in Hv; [by rewrite Hold in Hv|apply new_updates_ok|done|done].
  - intros (-> & x & Hx & <- & Htx); apply apply_same; [apply new_updates_ok|done| |].
    + intros w' Hw2; apply elem_of_new in Hw2 as (x2 & _ & [(t2 & _ & _ & ->)|[(t2 & _ & _ & E & _)|(k & t2 & _ & E & _)]]); [done|done|done].
    + left; apply row_in; exists (Some []); rewrite Hx; apply elem_of_app; left; apply elem_of_term_updates; eauto.
Qed.

Lemma after_guard (t : sdb_index_term) (v : bytes) :
  term_ok t ->
  after !! row_key (guard_row c t) = Some v <->
  unique t /\ exists d' x, (if decide (d' = d) then new else docs !! (c, d')) = Some x /\ t ∈ dc_terms x /\ v = guard_value (dc_generation x) d'.
Proof.
  intros Ht; assert (Hr : row_ok (guard_row c t)) by (by apply guard_row_ok); rewrite after_split.
  destruct (decide (guard_row c t ∈ (new_terms new ++ new_reverse new).*1)) as [Hin|Hn].
  - apply row_in in Hin as [w Hw]; pose proof Hw as Hw'.
    apply elem_of_new in Hw as (x & Hx & [(t' & _ & E & _)|[(t' & Ht' & Hu & E & ->)|(k & t' & _ & E & _)]]); [done| |done].
    apply guard_row_inj in E as [_ <-]; rewrite (apply_same _ _ _ (Some (guard_value (dc_generation x) d))); [|apply new_updates_ok|done| |].
    + destruct (Hnew x Hx) as [Hfree _]; rewrite List.Forall_forall in Hfree; destruct (Hfree t ltac:(by apply list_elem_of_In)) as (_ & _ & Hno).
      split; [intros [= <-]; split; [done|]; exists d, x; by rewrite decide_True|].
      intros (_ & d' & x' & Hx' & Htx' & ->); destruct (decide (d' = d)) as [->|Hne]; [congruence|].
      by destruct Hne; apply (Hno Hu d' x').
    + intros w' Hw2; apply elem_of_new in Hw2 as (x2 & Hx2 & [(t2 & _ & E & _)|[(t2 & _ & _ & _ & ->)|(k & t2 & _ & E & _)]]); [done|congruence|done].
    + left; apply row_in; eauto.
  - rewrite apply_other by (done || apply new_updates_ok).
    assert (Hnot : forall x, new = Some x -> unique t -> t ∉ dc_terms x).
    { intros x Hx Hu Htx; apply Hn, row_in; exists (Some (guard_value (dc_generation x) d)); rewrite Hx; apply elem_of_app; left.
      apply elem_of_term_updates; exists t; auto. }
    destruct (decide (guard_row c t ∈ old_updates.*1)) as [Hin|Hno].
    + apply row_in in Hin as [w Hw]; pose proof Hw as Hw'.
      apply elem_of_old in Hw as (-> & x & Hx & [(t' & E)|[(t' & Htx & Hu & E)|(k & _ & E)]]); [done| |done].
      apply guard_row_inj in E as [_ <-]; rewrite (apply_same _ _ _ None);
        [|apply old_updates_ok|done|by intros w' Hw2; apply elem_of_old in Hw2 as [-> _]|left; apply row_in; eauto].
      split; [done|]; intros (_ & d' & x' & Hx' & Htx' & _); destruct (decide (d' = d)) as [->|Hne]; [by apply (Hnot x') in Htx'|].
      by destruct Hne; apply (owner_unique m defs docs Hidx c d' d x' x t).
    + rewrite apply_other by (done || apply old_updates_ok); rewrite (ia_guard _ _ _ Hidx) by done; split.
      * intros (Hu & d' & x & Hx & Htx & ->); split; [done|]; exists d', x; split; [|done]; destruct (decide (d' = d)) as [->|]; [|done].
        destruct Hno; apply row_in; exists None; by apply (old_has_guard x).
      * intros (Hu & d' & x & Hx & Htx & ->); split; [done|]; exists d', x; split; [|done]; destruct (decide (d' = d)) as [->|]; [|done].
        by apply (Hnot x) in Htx.
Qed.

Lemma after_reverse (o : Z) :
  0 <= o < 2 ^ 16 ->
  after !! row_key (RowReverse c d o) = x ← new; reverse_value (dc_generation x) <$> reverse_terms (dc_terms x) !! Z.to_nat o.
Proof.
  intros Ho; assert (Hr : row_ok (RowReverse c d o)) by (by apply reverse_row_ok); rewrite after_split.
  assert (Hold : apply_updates old_updates m !! row_key (RowReverse c d o) = None).
  { apply apply_same; [apply old_updates_ok|done|by intros v' Hv'; apply elem_of_old in Hv' as [-> _]|].
    destruct (m !! row_key (RowReverse c d o)) as [w|] eqn:Em; [left|by right].
    rewrite (ia_reverse _ _ _ Hidx) in Em by done; destruct (docs !! (c, d)) as [x|] eqn:Hx; [|done]; cbn in Em.
    destruct (reverse_terms (dc_terms x) !! Z.to_nat o) as [t|] eqn:Et; [|done]; apply lookup_lt_Some in Et.
    apply row_in; exists None; apply (old_has_reverse x); [done|lia]. }
  destruct (x ← new; reverse_value (dc_generation x) <$> reverse_terms (dc_terms x) !! Z.to_nat o) as [w|] eqn:En.
  - apply bind_Some in En as (x & Hx & En); apply fmap_Some in En as (t & Et & ->); apply apply_same; [apply new_updates_ok|done| |].
    + intros w' Hw2; apply elem_of_new in Hw2 as (x2 & Hx2 & [(t2 & _ & E & _)|[(t2 & _ & _ & E & _)|(k & t2 & Hk & E & ->)]]); [done|done|].
      injection E as ->; rewrite Nat2Z.id in Et; congruence.
    + left; apply row_in; exists (Some (reverse_value (dc_generation x) t)); rewrite Hx; apply elem_of_app; right.
      apply elem_of_reverse_updates; exists (Z.to_nat o), t; split; [done|]; split; [f_equal; lia|done].
  - rewrite apply_other; [done|apply new_updates_ok|done|]; rewrite row_in; intros [w Hw].
    apply elem_of_new in Hw as (x2 & Hx2 & [(t2 & _ & E & _)|[(t2 & _ & _ & E & _)|(k & t2 & Hk & E & _)]]); [done|done|].
    injection E as ->; rewrite Nat2Z.id in En; rewrite Hx2 in En; cbn in En; by rewrite Hk in En.
Qed.

Definition set_document (o : option document) : gmap (bytes * bytes) document := partial_alter (fun _ => o) (c, d) docs.

Lemma set_document_eq (o : option document) : set_document o !! (c, d) = o.
Proof. apply lookup_partial_alter_eq. Qed.

Lemma set_document_ne (o : option document) (c' d' : bytes) : (c', d') <> (c, d) -> set_document o !! (c', d') = docs !! (c', d').
Proof. intros Hn; apply lookup_partial_alter_ne; congruence. Qed.

Definition object_kept (m' : gmap bytes bytes) (c' d' : bytes) (x : document) : Prop :=
  exists md v, object_stored m' (doc_id c' d') md v /\ om_generation md = dc_generation x.

Lemma index_effect (m' : gmap bytes bytes) :
  same_index after m' -> (forall x, new = Some x -> object_kept m' c d x) ->
  (forall c' d' x, (c', d') <> (c, d) -> docs !! (c', d') = Some x -> object_kept m' c' d' x) ->
  indexes_are m' defs (set_document new).
Proof.
  intros Hsame Hobj Hothers; split.
  - intros c' n Hc' Hn; rewrite Hsame, after_other; [by apply (ia_definition _ _ _ Hidx)|cbn; auto using valid_name|done..|cbn; auto using valid_name|done].
  - intros c' d' x; destruct (decide ((c', d') = (c, d))) as [[= -> ->]|Hne].
    + rewrite set_document_eq; intros Hx; split; [|by apply Hobj]; destruct (Hnew x Hx) as (Hf & Hl & Hg & _).
      do 2 (split; [done|]); split; [by apply new_ok|]; split; [|done]; eapply List.Forall_impl; [|exact Hf]; by intros t (_ & ? & _).
    + rewrite set_document_ne by done; intros Hx; split; [|by apply Hothers]; apply (ia_document _ _ _ Hidx c' d' x Hx).
  - intros c' d' g t v Hc' Hd' Ht Hg; rewrite Hsame by (done || by apply entry_row_ok).
    destruct (decide ((c', d') = (c, d))) as [[= -> ->]|Hne]; [rewrite set_document_eq; by apply after_entry|].
    rewrite set_document_ne by done; rewrite after_other; [by apply (ia_entry _ _ _ Hidx)|by apply entry_row_ok| |done|done].
    intros g' t' E; apply entry_row_inj in E as (-> & -> & _); done.
  - intros c' t v Hc' Ht; rewrite Hsame by (done || by apply guard_row_ok); destruct (decide (c' = c)) as [->|Hne].
    + rewrite after_guard by done; split; intros (Hu & d' & x & Hx & Htx & ->); (split; [done|]; exists d', x; split; [|done]); revert Hx.
      * destruct (decide (d' = d)) as [->|]; [by rewrite set_document_eq|by rewrite set_document_ne by congruence].
      * destruct (decide (d' = d)) as [->|]; [by rewrite set_document_eq|by rewrite set_document_ne by congruence].
    + rewrite after_other; [|by apply guard_row_ok|done|intros t' E; by apply guard_row_inj in E as [-> _]|done].
      rewrite (ia_guard _ _ _ Hidx) by done; split; intros (Hu & d' & x & Hx & Htx & ->); (split; [done|]; exists d', x; split; [|done]); revert Hx;
        by rewrite set_document_ne by congruence.
  - intros c' d' o Hc' Hd' Ho; rewrite Hsame by (done || by apply reverse_row_ok).
    destruct (decide ((c', d') = (c, d))) as [[= -> ->]|Hne]; [rewrite set_document_eq; by apply after_reverse|].
    rewrite set_document_ne by done; rewrite after_other; [by apply (ia_reverse _ _ _ Hidx)|by apply reverse_row_ok|done|done|].
    intros k E; injection E as -> -> ->; done.
Qed.
End Effect.

(** ** Objects and indexes together *)

Definition same_objects (m m' : gmap bytes bytes) : Prop :=
  forall r, row_ok r -> is_index_row r = false -> r <> RowCounter -> m' !! row_key r = m !! row_key r.

Lemma stored_same (m m' : gmap bytes bytes) (i : object_id) (md : sdb_object_metadata) (v : bytes) :
  id_ok i -> same_objects m m' -> object_stored m i md v -> object_stored m' i md v.
Proof.
  intros Hi Hs [Hd Hm Hc]; split; [done| |].
  - rewrite Hs; [done|by apply object_row_ok|done|done].
  - intros j Hj; destruct (Hd) as (_ & (_ & Hg & _ & Hcc & _) & _).
    rewrite Hs; [by apply Hc|apply chunk_row_ok; (done || lia)|done|done].
Qed.

Lemma objects_same (m m' : gmap bytes bytes) (g : Z) (objs : gmap object_id bytes) :
  same_objects m m' -> objects_are m g objs -> objects_are m' g objs.
Proof.
  intros Hs [Hids Hsome Hnone Horph]; split; [done| | |].
  - intros i v Hv; destruct (Hsome i v Hv) as (md & Hst & Hle); exists md; split; [|done]; eapply stored_same; [|done..]; apply Hids; by rewrite Hv.
  - intros i Hi Hn; rewrite Hs; [by apply Hnone|by apply object_row_ok|done|done].
  - intros i ge j Hi Hg Hj Hx; rewrite Hs in Hx by (done || by apply chunk_row_ok).
    destruct (Horph i ge j Hi Hg Hj Hx) as (md & v & Hst & ?); exists md, v; split; [|done]; by eapply stored_same.
Qed.

Lemma version_same (m m' : gmap bytes bytes) (g : Z) (i : object_id) (old : option sdb_object_metadata) :
  id_ok i -> same_objects m m' -> version_is m g i old -> version_is m' g i old.
Proof.
  intros Hi Hs [Ho Hc]; split.
  - destruct old as [md|]; [destruct Ho as (? & v & Hst); split; [done|]; exists v; by eapply stored_same|].
    rewrite Hs; [done|by apply object_row_ok|done|done].
  - intros ge j Hg Hj Hx; rewrite Hs in Hx by (done || by apply chunk_row_ok); by apply Hc.
Qed.

Lemma index_updates_objects (c d : bytes) (m : gmap bytes bytes) defs docs (new : option document) (r : row_name) :
  row_ok r -> is_index_row r = false -> updates_ok (index_updates c d defs docs new) ->
  apply_updates (index_updates c d defs docs new) m !! row_key r = m !! row_key r.
Proof.
  intros Hr Hi Hok; apply apply_other; [done|done|]; unfold index_updates; rewrite row_in; intros [v Hv]; apply elem_of_app in Hv as [Hv|Hv].
  - apply elem_of_old in Hv as (_ & x & _ & [(t & ->)|[(t & _ & _ & ->)|(k & _ & ->)]]); done.
  - apply elem_of_new in Hv as (x & _ & [(t & _ & -> & _)|[(t & _ & _ & -> & _)|(k & t & _ & -> & _)]]); done.
Qed.

Record documents_are (m : gmap bytes bytes) (g : Z) (objs : gmap object_id bytes)
    (defs : gmap (bytes * bytes) bool) (docs : gmap (bytes * bytes) document) : Prop := {
  da_objects : objects_are m g objs;
  da_indexes : indexes_are m defs docs;
  da_domain (c d : bytes) : is_Some (docs !! (c, d)) <-> is_Some (objs !! doc_id c d)
}.

Lemma document_id_ok (c d : bytes) : valid c -> valid d -> id_ok (doc_id c d).
Proof. intros Hc Hd; split; [done|]; unfold names_valid; cbn; by rewrite Hc, Hd. Qed.

(** A change that touches neither the index rows nor the documents. *)
Lemma indexes_same (m m' : gmap bytes bytes) defs docs :
  same_index m m' -> (forall c d x, docs !! (c, d) = Some x -> object_kept m' c d x) -> indexes_are m defs docs -> indexes_are m' defs docs.
Proof.
  intros Hs Hk [Hdef Hdoc Hent Hgu Hrev]; split.
  - intros c n Hc Hn; rewrite Hs; [by apply Hdef|cbn; auto using valid_name|done].
  - intros c d x Hx; split; [apply (Hdoc c d x Hx)|by apply Hk].
  - intros c d g t v Hc Hd Ht Hg; rewrite Hs; [by apply Hent|by apply entry_row_ok|done].
  - intros c t v Hc Ht; rewrite Hs; [by apply Hgu|by apply guard_row_ok|done].
  - intros c d o Hc Hd Ho; rewrite Hs; [by apply Hrev|by apply reverse_row_ok|done].
Qed.

Lemma same_index_elsewhere (i : object_id) (m m' : gmap bytes bytes) : same_elsewhere i m m' -> same_index m m'.
Proof. intros Hs r Hr Hi; apply Hs; [done|]; by intros [->|[->|(g & j & ->)]]. Qed.

(** The document of an object that is stored. *)
Lemma document_kept (m m' : gmap bytes bytes) (i : object_id) defs docs (c d : bytes) (x : document) :
  indexes_are m defs docs -> same_elsewhere i m m' -> doc_id c d <> i -> docs !! (c, d) = Some x -> object_kept m' c d x.
Proof.
  intros Hi Hs Hne Hx; destruct (ia_document _ _ _ Hi _ _ _ Hx) as [(Hc & Hd & _) (md & v & Hst & Hg)].
  exists md, v; split; [|done]; eapply stored_elsewhere; [by apply document_id_ok|exact Hne|done|done].
Qed.

(** An object operation on a key-value entry or a blob. *)
Lemma documents_object_effect (m m' : gmap bytes bytes) (g g' : Z) objs defs docs (i : object_id)
    (o : option (sdb_object_metadata * bytes)) :
  documents_are m g objs defs docs -> id_ok i -> oi_kind i <> SDB_OBJECT_DOCUMENT -> object_effect i m m' o -> g <= g' ->
  (forall md v, o = Some (md, v) -> om_generation md <= g') -> documents_are m' g' (effect_map i o objs) defs docs.
Proof.
  intros [Hob Hix Hdom] Hi Hk He Hg Hmd; split.
  - by eapply objects_are_effect.
  - eapply indexes_same; [by eapply same_index_elsewhere, He| |done]; intros c d x Hx.
    eapply document_kept; [done|apply He|by intros <-|done].
  - intros c d; rewrite Hdom; destruct o as [[md v]|]; cbn [effect_map].
    + by rewrite lookup_insert_ne by (by intros ->).
    + by rewrite lookup_delete_ne by (by intros ->).
Qed.

Lemma documents_counted (m : gmap bytes bytes) (g n : Z) objs defs docs :
  documents_are m g objs defs docs -> documents_are (counter_row_of n m) g objs defs docs.
Proof.
  intros [Hob Hix Hdom]; assert (Hne : forall r, row_ok r -> r <> RowCounter -> counter_row_of n m !! row_key r = m !! row_key r).
  { intros r Hr Hn; unfold counter_row_of; apply lookup_insert_ne, row_key_ne; [done|done|congruence]. }
  assert (Hs : same_objects m (counter_row_of n m)) by (intros r Hr _ Hn; by apply Hne).
  split; [by eapply objects_same| |done]; eapply indexes_same; [|intros c d x Hx|done].
  - intros r Hr Hi; apply Hne; [done|by intros ->].
  - destruct (ia_document _ _ _ Hix _ _ _ Hx) as [(Hc & Hd & _) (md & v & Hst & Hg)].
    exists md, v; split; [|done]; eapply stored_same; [by apply document_id_ok|done|done].
Qed.

(** ** The operations *)

Section Operations.
Context {B : Type} `{!Rows B} `{!RowsLaws B} (b0 : B).
Context (collect : bytes -> bytes -> result (list (sdb_index_term * Z))).
Context (c d : bytes) (Hc : valid c) (Hd : valid d).
Context (m : gmap bytes bytes) (cg : Z) (objs : gmap object_id bytes) (defs : gmap (bytes * bytes) bool) (docs : gmap (bytes * bytes) document).
Context (Hdocs : documents_are m cg objs defs docs).

Abbreviation i := (doc_id c d).

(** The version of the document and its index rows belong together. *)
Lemma version_document (old : option sdb_object_metadata) :
  version_is m cg i old ->
  match old with
  | Some md => exists x, docs !! (c, d) = Some x /\ dc_generation x = om_generation md
  | None => docs !! (c, d) = None
  end.
Proof.
  intros [Ho _]; destruct Hdocs as [Hob Hix Hdom]; assert (Hi : id_ok i) by (by apply document_id_ok); destruct old as [md|].
  - destruct Ho as (_ & v & Hst); destruct (objs !! i) as [w|] eqn:Eo.
    + assert (Hx : is_Some (docs !! (c, d))) by (apply Hdom; by rewrite Eo); destruct Hx as [x Hx]; exists x; split; [done|].
      destruct (ia_document _ _ _ Hix _ _ _ Hx) as [_ (md' & v' & Hst' & <-)]; by rewrite (stored_unique _ _ _ _ _ _ Hst Hst').
    + pose proof (oa_none _ _ _ Hob i Hi Eo) as Hn; by rewrite (os_metadata _ _ _ _ Hst) in Hn.
  - destruct (docs !! (c, d)) as [x|] eqn:Hx; [|done].
    destruct (ia_document _ _ _ Hix _ _ _ Hx) as [_ (md' & v' & Hst' & _)]; by rewrite (os_metadata _ _ _ _ Hst') in Ho.
Qed.

(** The rows after a put. *)
Definition document_rows (md : sdb_object_metadata) (v : bytes) (old : option sdb_object_metadata) (x : document) : gmap bytes bytes :=
  drop_version i old
    (<[row_key (object_row i) := sdb_object_metadata_encode md]>
       (apply_updates (index_updates c d defs docs (Some x))
          (put_chunks i (om_generation md) (om_chunk_size md) v (Z.to_nat (om_chunk_count md)) 0 (counter_row_of (om_generation md) m)))).

Lemma drop_chunks_pointwise (g : Z) (n : nat) (j : Z) (m1 m2 : gmap bytes bytes) (k : bytes) :
  m1 !! k = m2 !! k -> drop_chunks i g n j m1 !! k = drop_chunks i g n j m2 !! k.
Proof.
  revert j m1 m2; induction n as [|n IH]; intros j m1 m2 E; [done|]; apply IH.
  destruct (decide (row_key (chunk_row i g j) = k)) as [<-|]; [by rewrite !lookup_delete_eq|by rewrite !lookup_delete_ne].
Qed.

Lemma drop_version_pointwise (old : option sdb_object_metadata) (m1 m2 : gmap bytes bytes) (k : bytes) :
  m1 !! k = m2 !! k -> drop_version i old m1 !! k = drop_version i old m2 !! k.
Proof. destruct old; [apply drop_chunks_pointwise|done]. Qed.

Section Put.
Context (md : sdb_object_metadata) (v : bytes) (old : option sdb_object_metadata) (ts : list sdb_index_term).
Context (Hold : version_is m cg i old) (Hmd : describes md SDB_OBJECT_DOCUMENT v) (Hlt : cg < om_generation md).
Context (Hts : Forall (term_free defs docs c d) ts) (Hlen : Z.of_nat (length ts) <= UINT16_MAX).

Abbreviation x := {| dc_generation := om_generation md; dc_terms := ts |}.

Lemma new_document_ok (y : document) :
  Some x = Some y ->
  Forall (term_free defs docs c d) (dc_terms y) /\ Z.of_nat (length (dc_terms y)) <= UINT16_MAX /\ 0 < dc_generation y < 2 ^ 64
  /\ forall x', docs !! (c, d) = Some x' -> dc_generation x' <> dc_generation y.
Proof.
  intros [= <-]; cbn; do 2 (split; [done|]); destruct Hmd as (_ & (_ & Hg & _) & Hb & _); pose proof (version_document old Hold) as Hv.
  assert (om_generation md <> 0) by (intros E; unfold metadata_bad in Hb; by rewrite E in Hb).
  split; [lia|]; intros x' Hx' E; destruct old as [md0|]; [|congruence].
  destruct Hv as (x0 & Hx0 & E0); destruct (vi_object _ _ _ _ Hold) as [Hle _]; assert (x' = x0) as -> by congruence; lia.
Qed.

Lemma document_rows_objects : same_objects (put_rows i md v old m) (document_rows md v old x).
Proof.
  intros r Hr Hi _; unfold document_rows, put_rows, written_rows; apply drop_version_pointwise.
  destruct (decide (row_key (object_row i) = row_key r)) as [<-|]; [by rewrite !lookup_insert_eq|rewrite !lookup_insert_ne by done].
  apply index_updates_objects; [done|done|]; apply Forall_app; split; [apply (old_updates_ok c d Hc Hd m defs docs (da_indexes _ _ _ _ _ Hdocs))|].
  eapply new_updates_ok; [done|done|apply new_document_ok].
Qed.

Lemma document_rows_index : same_index (apply_updates (index_updates c d defs docs (Some x)) m) (document_rows md v old x).
Proof.
  intros r Hr Hi; assert (Hid : id_ok i) by (by apply document_id_ok); unfold document_rows.
  rewrite (drop_version_elsewhere i m cg old Hid Hold) by (done || (intros g j ->; done)).
  rewrite lookup_insert_ne by (apply row_key_ne; [by apply object_row_ok|done|by intros <-]); apply apply_pointwise.
  destruct Hmd as (_ & (_ & Hg & _ & Hcc & _) & _); rewrite put_chunks_other.
  - apply lookup_insert_ne, row_key_ne; [done|done|by intros <-].
  - intros j Hj; apply row_key_ne; [done|apply chunk_row_ok; (done || lia)|by intros ->].
Qed.

Lemma documents_put : documents_are (document_rows md v old x) (om_generation md) (<[i := v]> objs) defs (<[(c, d) := x]> docs).
Proof.
  assert (Hid : id_ok i) by (by apply document_id_ok); destruct Hdocs as [Hob Hix Hdom].
  pose proof (put_rows_effect i m cg old Hid Hold md v Hmd Hlt) as He; pose proof document_rows_objects as Hso; split.
  - eapply objects_same; [done|]; apply (objects_are_effect m _ cg _ objs i (Some (md, v))); [done|done|done|lia|by intros ? ? [= -> ->]].
  - apply (index_effect c d Hc Hd m defs docs Hix (Some x) new_document_ok); [apply document_rows_index| |].
    + intros y [= <-]; exists md, v; split; [|done]; eapply stored_same; [done|done|apply He].
    + intros c' d' y Hne Hy; assert (Hni : doc_id c' d' <> i) by (intros [= -> ->]; done).
      destruct (document_kept _ _ i _ _ _ _ _ Hix (oe_elsewhere _ _ _ _ He) Hni Hy) as (md' & v' & Hst & Hg').
      exists md', v'; split; [|done]; destruct (ia_document _ _ _ Hix _ _ _ Hy) as [(? & ? & _) _].
      eapply stored_same; [by apply document_id_ok|done|done].
  - intros c' d'; destruct (decide ((c', d') = (c, d))) as [[= -> ->]|Hne]; [rewrite !lookup_insert_eq; split; by eexists|].
    rewrite !lookup_insert_ne by (congruence || (intros [= -> ->]; done)); apply Hdom.
Qed.
End Put.

Lemma runs_check (s : engine) (n g : Z) (ts : list sdb_index_term) (Q : list bool -> engine -> Prop) E :
  holds b0 s (counter_row_of n m) g ->
  (Forall (term_free defs docs c d) ts -> Q (unique_flags defs c ts) s) ->
  (forall e, Exists (term_refused defs docs c d e) ts -> E e s) ->
  runs (engine_read (fun get => check_terms get c d ts)) s Q E.
Proof.
  intros Hs HQ HE; unfold runs, engine_read; pose proof (documents_counted m cg n objs defs docs Hdocs) as [_ Hix _].
  pose proof (check_terms_read _ defs docs Hix _ (rows_get_law _ _ (proj1 Hs)) c d ts Hc) as H.
  destruct (check_terms _ c d ts) as [us|e]; [|by apply HE]; destruct H as [-> H]; by apply HQ.
Qed.

Lemma refused_error (e : sdb_status) (ts : list sdb_index_term) : Exists (term_refused defs docs c d e) ts -> e <> SDB_OK.
Proof. intros H; apply List.Exists_exists in H as (t & _ & [[-> _]|[[-> _]|[-> _]]]); done. Qed.

Lemma runs_reclaim_previous (old : option sdb_object_metadata) (m2 : gmap bytes bytes) (g : Z) (s : engine) :
  version_is m cg i old -> same_index m m2 -> holds b0 s m2 g ->
  runs (match old with Some _ => reclaim_version collect c d | None => mret tt end) s
    (fun _ s' => holds b0 s' (apply_updates (old_updates c d defs docs) m2) g) (fun e s' => stops b0 e s' g).
Proof.
  intros Hv Hsm Hs; pose proof (version_document old Hv) as Hd'; unfold old_updates; destruct old as [md|].
  - destruct Hd' as (x & Hx & _); rewrite Hx; apply (runs_reclaim_version b0 c d Hc Hd collect m m2 defs docs x g s); [apply Hdocs|done..].
  - rewrite Hd'; by apply runs_ret.
Qed.

Lemma chunks_same_index (md : sdb_object_metadata) (v : bytes) (n : Z) :
  metadata_typed md ->
  same_index m (put_chunks i (om_generation md) (om_chunk_size md) v (Z.to_nat (om_chunk_count md)) 0 (counter_row_of n m)).
Proof.
  intros (_ & Hg & _ & Hcc & _) r Hr Hi; rewrite put_chunks_other.
  - apply lookup_insert_ne, row_key_ne; [done|done|by intros <-].
  - intros j Hj; apply row_key_ne; [done|apply chunk_row_ok; (by apply document_id_ok || done || lia)|by intros ->].
Qed.

(** The chunks of the old version are there when the new one has been written. *)
Lemma old_chunks_there (md md' : sdb_object_metadata) (v : bytes) (old : option sdb_object_metadata) (us : list update) (j : Z) :
  version_is m cg i old -> metadata_typed md -> cg < om_generation md -> old = Some md' -> 0 <= j < om_chunk_count md' ->
  (forall r, row_ok r -> is_index_row r = false -> forall m0, apply_updates us m0 !! row_key r = m0 !! row_key r) ->
  (<[row_key (object_row i) := sdb_object_metadata_encode md]>
     (apply_updates us (put_chunks i (om_generation md) (om_chunk_size md) v (Z.to_nat (om_chunk_count md)) 0 (counter_row_of (om_generation md) m))))
    !! row_key (chunk_row i (om_generation md') j) <> None.
Proof.
  intros Hv Ht Hlt E Hj Hus; assert (Hid : id_ok i) by (by apply document_id_ok); destruct (old_range _ _ _ _ Hv md' E) as (? & _ & ?).
  assert (Hr : row_ok (chunk_row i (om_generation md') j)) by (apply chunk_row_ok; (done || lia)).
  pose proof (old_chunks_kept i m cg old Hid Hv md md' v j Ht Hlt E Hj) as Hk; unfold written_rows in Hk.
  rewrite lookup_insert_ne in * by (apply row_key_ne; [by apply object_row_ok|done|done]); by rewrite Hus.
Qed.

Lemma write_reverse_eq (gn : Z) (ts : list sdb_index_term) :
  sdb_document_write_reverse (B := B) c d gn ts = write_reverse_rows c d gn (reverse_terms ts) 0.
Proof. by destruct ts. Qed.

(** From the chunks of the new version to its index rows. *)
Lemma runs_write_version (old : option sdb_object_metadata) (ts : list sdb_index_term) (gn g : Z) (m2 : gmap bytes bytes) (s : engine)
    (k : engineM unit) (Q : unit -> engine -> Prop) E :
  version_is m cg i old -> same_index m m2 -> holds b0 s m2 g -> Forall term_ok ts -> Z.of_nat (length ts) <= UINT16_MAX -> 0 <= gn < 2 ^ 64 ->
  (forall s', holds b0 s' (apply_updates (index_updates c d defs docs (Some {| dc_generation := gn; dc_terms := ts |})) m2) g -> runs k s' Q E) ->
  (forall e s', stops b0 e s' g -> E e s') ->
  runs (_ ← match old with Some _ => reclaim_version collect c d | None => mret tt end;
        _ ← write_terms c d gn ts (unique_flags defs c ts);
        _ ← sdb_document_write_reverse c d gn ts; k) s Q E.
Proof.
  intros Hv Hsm Hs Hto Hlen Hgn HQ HE; apply runs_bind.
  eapply runs_impl; [by eapply (runs_reclaim_previous old m2 g s Hv)| |done]; cbn beta; intros _ s3 Hs3; apply runs_bind.
  eapply runs_impl; [eapply (runs_write_terms b0 c d Hc Hd g gn ts); [done|done|unfold unique_flags; by rewrite length_fmap|exact Hs3]| |done].
  cbn beta; intros _ s4 Hs4; apply runs_bind; rewrite write_reverse_eq.
  eapply runs_impl; [eapply (runs_write_reverse b0 c d Hc Hd g gn (reverse_terms ts)); [by apply reverse_terms_ok|done| |exact Hs4]| |done].
  { unfold UINT16_MAX in Hlen; destruct ts; cbn [reverse_terms length] in *; lia. }
  cbn beta; intros _ s5 Hs5; apply HQ; unfold index_updates; rewrite !apply_app; exact Hs5.
Qed.

(** The metadata row and the chunks of the old version. *)
Lemma runs_finish_version (md : sdb_object_metadata) (v : bytes) (old : option sdb_object_metadata) (us : list update) (s : engine) (g : Z)
    (Q : unit -> engine -> Prop) E :
  version_is m cg i old -> describes md SDB_OBJECT_DOCUMENT v -> cg < om_generation md ->
  (forall r, row_ok r -> is_index_row r = false -> forall m0, apply_updates us m0 !! row_key r = m0 !! row_key r) ->
  let m5 := apply_updates us (put_chunks i (om_generation md) (om_chunk_size md) v (Z.to_nat (om_chunk_count md)) 0 (counter_row_of (om_generation md) m)) in
  holds b0 s m5 g ->
  (forall s', holds b0 s' (drop_version i old (<[row_key (object_row i) := sdb_object_metadata_encode md]> m5)) g -> Q tt s') ->
  (forall e s', stops b0 e s' g -> E e s') ->
  runs (_ ← sdb_object_commit_metadata md c d;
        match old with
        | Some previous => sdb_object_delete_chunks SDB_OBJECT_DOCUMENT c d (om_generation previous) (om_chunk_count previous)
        | None => mret tt
        end) s Q E.
Proof.
  intros Hv Hmd Hlt Hus m5 Hs HQ HE; assert (Hid : id_ok i) by (by apply document_id_ok); destruct (Hmd) as (Hk & Hty & _).
  apply runs_bind; unfold sdb_object_commit_metadata; apply runs_bind, (runs_lift (row_key (object_row i))).
  { rewrite Hk; pose proof (object_key_of i (proj1 Hid)) as Hok; cbn [oi_kind oi_namespace oi_key] in Hok; by rewrite Hok, (proj2 Hid). }
  eapply runs_put; [done|by apply object_row_ok|by rewrite length_metadata| |intros e s' ??; by apply HE].
  intros s6 Hs6; eapply runs_impl; [apply (runs_drop_version b0 s6 m _ g cg i old Hid Hs6 Hv)| |done].
  - intros md' j E' Hj; by apply (old_chunks_there md md' v old us j).
  - cbn beta; intros []; apply HQ.
Qed.

Lemma document_put_runs (leaf_capacity : Z) (v : bytes) (ts : list sdb_index_term) (s : engine) (g : Z) :
  Z.of_nat (length ts) <= UINT16_MAX -> holds b0 s m g -> 0 <= g <= UINT64_MAX -> cg <= g ->
  runs (sdb_document_put_in_mutation collect leaf_capacity c d v ts) s
    (fun _ s' => exists md old, om_generation md = g + 1 /\ g < UINT64_MAX /\ describes md SDB_OBJECT_DOCUMENT v
       /\ Forall (term_free defs docs c d) ts /\ version_is m cg i old
       /\ holds b0 s' (document_rows md v old {| dc_generation := om_generation md; dc_terms := ts |}) (g + 1))
    (fails_clean b0 m g).
Proof.
  intros Hlen Hs Hg Hcg; assert (Hid : id_ok i) by (by apply document_id_ok); unfold sdb_document_put_in_mutation.
  rewrite Hd; cbn [negb orb]; rewrite Z.gtb_ltb, (proj2 (Z.ltb_ge _ _)) by lia.
  destruct (objects_version m cg objs i (da_objects _ _ _ _ _ Hdocs) Hid) as (old & Hv & _).
  apply runs_poison; [|intros e s' He _; apply fails_clean_poison; (done || lia)].
  assert (Hprev : runs (previous_version SDB_OBJECT_DOCUMENT c d) s (fun o s' => o = old /\ s' = s) (fun _ _ => False))
    by (by apply (runs_previous b0 s m g cg i old)).
  apply runs_bind; eapply runs_impl; [exact Hprev| |done]; intros ? ? [-> ->]; apply runs_bind.
  eapply runs_impl; [apply (runs_plan b0 leaf_capacity i v s m g); [done..|]| |].
  { eapply runs_impl; [exact Hprev| |done]; by intros ? ? [_ ->]. }
  2: { intros e s' [He [?|?]]; [by apply (stops_clean b0 m g g); [lia|]|by split; [|right]]. }
  intros md s1 (Hmd & Hgen & Hlt & Hs1); apply runs_bind, (runs_check _ (g + 1) (g + 1)); [done| |].
  2: { intros e He; split; [by eapply refused_error|]; right; by right. }
  intros Hts; apply runs_bind; destruct (Hmd) as (Hk & Hty & _); pose proof Hty as (_ & Hgr & _ & Hcr & _).
  assert (Hstop : forall e s', stops b0 e s' (g + 1) -> fails_clean b0 m g e s') by (intros e s'; apply stops_clean; lia).
  eapply runs_impl; [apply (runs_write_chunks b0 i md v (g + 1) Hid Hmd _ 0 0%nat s1 (counter_row_of (g + 1) m)); [done|lia|done|done]| |done].
  cbn beta; intros _ s2 Hs2; assert (Hto : Forall term_ok ts) by (eapply List.Forall_impl; [|exact Hts]; by intros t [? _]).
  eapply runs_write_version; [exact Hv|by apply chunks_same_index|exact Hs2|done|done|lia| |done].
  intros s5 Hs5; rewrite <- Hgen in Hs5 at 1; eapply (runs_finish_version md v old _ s5 (g + 1)); [done|done|lia| |exact Hs5| |done].
  - intros r Hr Hi m0; apply index_updates_objects; [done|done|]; apply Forall_app; split;
      [apply (old_updates_ok c d Hc Hd m defs docs (da_indexes _ _ _ _ _ Hdocs))|].
    eapply new_updates_ok; [done|done|]; eapply new_document_ok; (done || lia).
  - intros s6 Hs6; exists md, old; do 5 (split; [done|]); exact Hs6.
Qed.

(** ** Delete *)

Abbreviation reclaimed := (apply_updates (index_updates c d defs docs None) m).

Lemma no_new_document (y : document) :
  None = Some y ->
  Forall (term_free defs docs c d) (dc_terms y) /\ Z.of_nat (length (dc_terms y)) <= UINT16_MAX /\ 0 < dc_generation y < 2 ^ 64
  /\ forall x', docs !! (c, d) = Some x' -> dc_generation x' <> dc_generation y.
Proof. done. Qed.

Lemma reclaimed_objects : same_objects m reclaimed.
Proof.
  intros r Hr Hi _; apply index_updates_objects; [done|done|]; apply Forall_app; split; [|constructor].
  apply (old_updates_ok c d Hc Hd m defs docs (da_indexes _ _ _ _ _ Hdocs)).
Qed.

Lemma documents_delete (md : sdb_object_metadata) :
  version_is m cg i (Some md) ->
  documents_are (delete_rows i (Some md) reclaimed) cg (delete i objs) defs (delete (c, d) docs).
Proof.
  intros Hv; assert (Hid : id_ok i) by (by apply document_id_ok); destruct Hdocs as [Hob Hix Hdom]; pose proof reclaimed_objects as Hso.
  pose proof (version_same _ _ _ _ _ Hid Hso Hv) as Hv'; pose proof (delete_rows_effect i _ cg _ Hid Hv') as He; split.
  - apply (objects_are_effect reclaimed _ cg cg objs i None); [by eapply objects_same|done|done|lia|done].
  - apply (index_effect c d Hc Hd m defs docs Hix None no_new_document); [by eapply same_index_elsewhere, He|done|].
    intros c' d' y Hne Hy; assert (Hni : doc_id c' d' <> i) by (intros [= -> ->]; done).
    destruct (ia_document _ _ _ Hix _ _ _ Hy) as [(? & ? & _) (md' & v' & Hst & Hg')]; exists md', v'; split; [|done].
    eapply stored_elsewhere; [by apply document_id_ok|exact Hni|apply He|]; eapply stored_same; [by apply document_id_ok|done|done].
  - intros c' d'; destruct (decide ((c', d') = (c, d))) as [[= -> ->]|Hne]; [rewrite !lookup_delete_eq; by split; intros [? [=]]|].
    rewrite !lookup_delete_ne by (congruence || (intros [= -> ->]; done)); apply Hdom.
Qed.

Lemma dead_object_delete (s : engine) (g : Z) Q :
  dead b0 s g -> runs (sdb_object_delete SDB_OBJECT_DOCUMENT c d) s Q (fun e s' => stops b0 e s' g).
Proof.
  intros Hs; apply runs_poison; [|intros e s' [(_ & Hf & _) _]; congruence]; apply runs_bind, dead_find; [done|].
  intros get Hget; unfold sdb_object_read_metadata; pose proof (object_key_of i (proj1 (document_id_ok c d Hc Hd))) as Hok.
  cbn [oi_kind oi_namespace oi_key] in Hok; rewrite Hok, (proj2 (document_id_ok c d Hc Hd)); cbn [mbind result_bind]; by rewrite Hget.
Qed.

Lemma document_delete_runs (md : sdb_object_metadata) (s : engine) (g : Z) :
  holds b0 s m g -> version_is m cg i (Some md) ->
  runs (sdb_document_delete_in_mutation collect c d) s
    (fun _ s' => holds b0 s' (delete_rows i (Some md) reclaimed) g) (fun e s' => stops b0 e s' g).
Proof.
  intros Hs Hv; assert (Hid : id_ok i) by (by apply document_id_ok); unfold sdb_document_delete_in_mutation; rewrite Hd; cbn [negb].
  apply runs_poison; [|intros e s' [(_ & Hf & _) _]; congruence]; apply runs_bind.
  eapply runs_impl; [apply (runs_ignore b0 _ s g (fun s' => holds b0 s' reclaimed g))| |done]; cbn beta.
  - destruct (vi_object _ _ _ _ Hv) as (_ & v & Hst); apply runs_bind; unfold runs at 1, engine_read.
    pose proof (read_metadata_stored _ m (rows_get_law _ _ (proj1 Hs)) i md v Hid Hst) as Hr; cbn [oi_kind oi_namespace oi_key] in Hr; rewrite Hr.
    unfold index_updates; cbn [new_terms new_reverse]; rewrite app_nil_r; by apply (runs_reclaim_previous (Some md) m g s).
  - intros _ s1 [Hs1|Hdead]; [|by apply dead_object_delete].
    apply (object_delete_runs b0 s1 reclaimed g cg i md Hid Hs1); eapply version_same; [done|apply reclaimed_objects|done].
Qed.

Lemma document_delete_missing (s : engine) (g : Z) :
  holds b0 s m g -> version_is m cg i None -> sdb_document_delete_in_mutation collect c d s = (Err SDB_E_NOT_FOUND, s).
Proof.
  intros Hs Hv; assert (Hid : id_ok i) by (by apply document_id_ok); unfold sdb_document_delete_in_mutation; rewrite Hd; cbn [negb].
  unfold sdb_mutation_poison_on_partial, ignore_not_found, engine_read; unfold mbind at 1 2, engineM_bind at 1 2.
  pose proof (read_metadata_absent _ m (rows_get_law _ _ (proj1 Hs)) i Hid (vi_object _ _ _ _ Hv)) as Hr; cbn [oi_kind oi_namespace oi_key] in Hr; rewrite Hr.
  pose proof (object_delete_absent b0 s m g cg i Hid Hs Hv) as Ha; cbn [oi_kind oi_namespace oi_key] in Ha; rewrite Ha.
  by rewrite Nat.eqb_refl, andb_false_r.
Qed.
End Operations.

(** ** Index definitions *)

Lemma documents_define (m : gmap bytes bytes) (g : Z) objs defs docs (c n : bytes) (u : bool) :
  documents_are m g objs defs docs -> valid c -> valid n -> defs !! (c, n) = None ->
  documents_are (<[row_key (RowDefinition c n) := definition_value u]> m) g objs (<[(c, n) := u]> defs) docs.
Proof.
  intros [Hob Hix Hdom] Hc Hn Hnew; assert (Hrow : row_ok (RowDefinition c n)) by (cbn; auto using valid_name).
  assert (Hne : forall r, row_ok r -> r <> RowDefinition c n -> (<[row_key (RowDefinition c n) := definition_value u]> m) !! row_key r = m !! row_key r).
  { intros r Hr Hd; apply lookup_insert_ne, row_key_ne; [done|done|congruence]. }
  assert (Hso : same_objects m (<[row_key (RowDefinition c n) := definition_value u]> m)).
  { intros r Hr Hi _; apply Hne; [done|by intros ->]. }
  assert (Hused : forall d x t, docs !! (c, d) = Some x -> t ∈ dc_terms x -> it_index_name t <> n).
  { intros d x t Hx Ht E; destruct (ia_document _ _ _ Hix _ _ _ Hx) as [(_ & _ & _ & Hdef & _) _].
    rewrite List.Forall_forall in Hdef; destruct (Hdef t ltac:(by apply list_elem_of_In)) as [? He]; congruence. }
  split; [by eapply objects_same| |done]; split.
  - intros c' n' Hc' Hn'; destruct (decide ((c', n') = (c, n))) as [[= -> ->]|Hd]; [by rewrite !lookup_insert_eq|].
    rewrite Hne; [|cbn; auto using valid_name|intros [= -> ->]; done]; rewrite lookup_insert_ne by congruence; by apply (ia_definition _ _ _ Hix).
  - intros c' d x Hx; destruct (ia_document _ _ _ Hix _ _ _ Hx) as [(? & ? & ? & Hdef & ?) (md & v & Hst & Hg)]; split.
    + do 3 (split; [done|]); split; [|done]; eapply List.Forall_impl; [|exact Hdef]; intros t [w Hw].
      destruct (decide ((c', it_index_name t) = (c, n))) as [->|]; [by rewrite lookup_insert_eq|]; by rewrite lookup_insert_ne, Hw by congruence.
    + exists md, v; split; [|done]; eapply stored_same; [by apply document_id_ok|done|done].
  - intros c' d ge t v Hc' Hd Ht Hg; rewrite Hne; [by apply (ia_entry _ _ _ Hix)|by apply entry_row_ok|done].
  - intros c' t v Hc' Ht; rewrite Hne; [|by apply guard_row_ok|done]; rewrite (ia_guard _ _ _ Hix) by done.
    destruct (decide ((c', it_index_name t) = (c, n))) as [[= -> E]|Hd]; [|by rewrite lookup_insert_ne by congruence].
    split; intros (_ & d & x & Hx & Htx & _); by destruct (Hused d x t Hx Htx).
  - intros c' d o Hc' Hd Ho; rewrite Hne; [by apply (ia_reverse _ _ _ Hix)|by apply reverse_row_ok|done].
Qed.

Section Define.
Context {B : Type} `{!Rows B} `{!RowsLaws B} (b0 : B).

Lemma index_create_runs (s : engine) (m : gmap bytes bytes) (g cg : Z) objs defs docs (c n : bytes) (u : bool) :
  valid c -> valid n -> holds b0 s m g -> documents_are m cg objs defs docs ->
  runs (sdb_index_create_in_mutation c n u) s
    (fun _ s' => (defs !! (c, n) = Some u /\ s' = s)
                 \/ (defs !! (c, n) = None /\ holds b0 s' (<[row_key (RowDefinition c n) := definition_value u]> m) g))
    (fun e s' => stops b0 e s' g \/ e = SDB_E_CONFLICT /\ defs !! (c, n) = Some (negb u) /\ s' = s).
Proof.
  intros Hc Hn Hs [_ Hix _]; unfold sdb_index_create_in_mutation; apply runs_bind, (runs_find _ (defs !! (c, n))).
  { rewrite (definition_read _ m c n (defs !! (c, n)) (rows_get_law _ _ (proj1 Hs))) by (done || by apply (ia_definition _ _ _ Hix)).
    by destruct (defs !! (c, n)). }
  destruct (defs !! (c, n)) as [w|].
  - destruct (Bool.eqb_spec w u) as [->|Hne]; [left; auto|right]; split; [done|]; split; [|done]; f_equal; by destruct w, u.
  - apply runs_bind, (runs_lift (row_key (RowDefinition c n))).
    { rewrite base_key_eq by lia; unfold term_key_valid; rewrite Hc, Hn; cbn [andb]; rewrite (proj2 (Z.leb_le _ _)) by (vm_compute; congruence).
      cbn [zeros replicate]; by rewrite app_nil_r. }
    eapply runs_put; [done|cbn; auto using valid_name|by destruct u|intros s' Hs'; right; by split|intros e s' ??; by left].
Qed.
End Define.
