(* ===== verification/EngineScan.v ===== *)
(** * Scans of the committed rows ([src/engine.c])

    The engine functions that walk the tree with a cursor: the seeding of the
    generation counter at open, the search for the index entries of a document without
    reverse rows, and the visit of the documents that have an index value.  Each loop
    takes fuel, one unit per row; [None] means that it ran out.  Buffers are never null
    and allocation failures are not modelled. *)

From stdpp Require Import gmap.
From S2P Require Import Prelude Status Codec Keys Sha256 BtreePage PagerInterface BtreeNode Btree BtreeCursor EngineKeys EngineObject.

Inductive scan_step (A : Type) :=
  | ScanNext (a : A)
  | ScanStop (a : A)
  | ScanFail (e : sdb_status).
Arguments ScanNext {A} a.
Arguments ScanStop {A} a.
Arguments ScanFail {A} e.

Section Scan.
Context {P T : Type} `{!PagerOps P T}.
Implicit Types tree : sdb_btree (P := P).

(** The loop [while (status == SDB_OK && cursor.valid)] with one read and one step. *)
Fixpoint scan_rows {A} (fuel : nat) (tree : sdb_btree (P := P)) (capacity : Z) (body : bytes -> bytes -> A -> scan_step A)
    (c : sdb_btree_cursor) (a : A) : option (result A) :=
  if negb (c_valid c) then Some (Ok a)
  else
    match fuel with
    | O => None
    | S fuel =>
        match sdb_btree_cursor_read c capacity capacity with
        | Err e => Some (Err e)
        | Ok (key, value) =>
            match body key value a with
            | ScanFail e => Some (Err e)
            | ScanStop a => Some (Ok a)
            | ScanNext a =>
                match sdb_btree_cursor_next tree c with
                | (Ok _, c) => scan_rows fuel tree capacity body c a
                | (Err e, _) => Some (Err e)
                end
            end
        end
    end.

Definition start_scan {A} (fuel : nat) tree (body : bytes -> bytes -> A -> scan_step A) (started : stepped) (a : A) : option (result A) :=
  match started with
  | (Ok _, c) => scan_rows fuel tree (pager_payload_capacity (t_pager tree)) body c a
  | (Err e, _) => Some (Err e)
  end.

(** ** The generation counter at open *)

Definition max_generation (key value : bytes) (max_gen : Z) : scan_step Z :=
  let generation := sdb_row_generation key value in
  ScanNext (if generation >? max_gen then generation else max_gen).

Definition sdb_seed_generation_by_scan (fuel : nat) tree : option (result Z) :=
  start_scan fuel tree max_generation (sdb_btree_cursor_first tree zero_cursor) 0.

(** The value stored in [pager.next_object_generation]. *)
Definition sdb_engine_seed_generation (fuel : nat) tree : option (result Z) :=
  match sdb_btree_get tree sdb_generation_counter_key (Z.of_nat SDB_GENERATION_COUNTER_VALUE_SIZE) with
  | Ok value =>
      Some (fail_if negb (length value =? SDB_GENERATION_COUNTER_VALUE_SIZE)%nat with SDB_E_CORRUPT ;;
            Ok (sdb_read_u64_le value 0))
  | Err SDB_E_NOT_FOUND => sdb_seed_generation_by_scan fuel tree
  | Err e => Some (Err e)
  end.

(** ** Index entries without reverse rows *)

(** The fields of an entry key: collection, index name, value, document and generation. *)
Definition entry_fields (key : bytes) : result (bytes * bytes * bytes * bytes * Z) :=
  let key_size := Z.of_nat (length key) in
  fail_if key_size <? 17 with SDB_E_CORRUPT ;;
  let stored_collection_size := sdb_read_u16_le key 1 in
  let name_size := sdb_read_u16_le key 3 in
  let term_value_size := sdb_read_u16_le key 5 in
  fail_if (stored_collection_size =? 0) || (name_size =? 0) || (term_value_size =? 0)
          || (stored_collection_size >? SDB_ENGINE_MAX_NAME_SIZE) || (name_size >? SDB_ENGINE_MAX_NAME_SIZE)
          || (term_value_size >? SDB_ENGINE_MAX_NAME_SIZE)
          || (stored_collection_size >? key_size - 7)
          || (name_size >? key_size - 7 - stored_collection_size)
          || (term_value_size >? key_size - 7 - stored_collection_size - name_size)
    with SDB_E_CORRUPT ;;
  let base_size := 7 + stored_collection_size + name_size + term_value_size in
  fail_if key_size <? base_size + 10 with SDB_E_CORRUPT ;;
  let stored_id_size := sdb_read_u16_le key (Z.to_nat base_size) in
  fail_if (stored_id_size =? 0) || (stored_id_size >? SDB_ENGINE_MAX_NAME_SIZE) || negb (key_size =? base_size + 10 + stored_id_size)
    with SDB_E_CORRUPT ;;
  Ok (slice key 7 (Z.to_nat stored_collection_size),
      slice key (Z.to_nat (7 + stored_collection_size)) (Z.to_nat name_size),
      slice key (Z.to_nat (7 + stored_collection_size + name_size)) (Z.to_nat term_value_size),
      slice key (Z.to_nat (base_size + 2)) (Z.to_nat stored_id_size),
      sdb_read_u64_le key (Z.to_nat (base_size + 2 + stored_id_size))).

Definition legacy_term (collection document_id key value : bytes) (terms : list (sdb_index_term * Z))
  : scan_step (list (sdb_index_term * Z)) :=
  if (length key =? 0)%nat || negb (u8_at key 0 =? SDB_INDEX_ENTRY_PREFIX) then ScanStop terms
  else if (length key <? 17)%nat || negb (length value =? 0)%nat then ScanFail SDB_E_CORRUPT
  else
    match entry_fields key with
    | Err e => ScanFail e
    | Ok (stored_collection, name, term_value, stored_id, generation) =>
        if bool_decide (stored_collection = collection) && bool_decide (stored_id = document_id) then
          if generation =? 0 then ScanFail SDB_E_CORRUPT
          else ScanNext (terms ++ [({| it_index_name := name; it_value := term_value |}, generation)])
        else ScanNext terms
    end.

Definition sdb_document_collect_legacy_terms (fuel : nat) tree (collection document_id : bytes)
  : option (result (list (sdb_index_term * Z))) :=
  start_scan fuel tree (legacy_term collection document_id)
    (sdb_btree_cursor_seek tree [byte.of_Z SDB_INDEX_ENTRY_PREFIX] zero_cursor) [].

(** ** Visiting the documents of an index value *)

Section Visit.
(** The visitor: what it does with its context, and whether it wants more.  It does not
    change the database. *)
Context {A : Type} (visitor : A -> bytes -> A * bool) (callback_depth : Z).

(** The document and the generation an entry key under [prefix] names. *)
Definition visit_fields (prefix key value : bytes) : result (bytes * Z) :=
  let prefix_size := length prefix in
  fail_if negb (length value =? 0)%nat || (length key <? prefix_size + 10)%nat with SDB_E_CORRUPT ;;
  let document_id_size := Z.to_nat (sdb_read_u16_le key prefix_size) in
  fail_if (document_id_size =? 0)%nat || negb (length key =? prefix_size + 2 + document_id_size + 8)%nat with SDB_E_CORRUPT ;;
  Ok (slice key (prefix_size + 2) document_id_size, sdb_read_u64_le key (prefix_size + 2 + document_id_size)).

(** After a callback the cursor is positioned again at the key it was called for, and
    moves on if the key is still there. *)
Definition resume (tree : sdb_btree (P := P)) (capacity : Z) (resume_key : bytes) : stepped :=
  match sdb_btree_cursor_seek tree resume_key zero_cursor with
  | (Err e, c) => (Err e, c)
  | (Ok _, c) =>
      if negb (c_valid c) then (Ok tt, c)
      else match sdb_btree_cursor_read c capacity capacity with
           | Err e => (Err e, c)
           | Ok (key, _) => if bool_decide (key = resume_key) then sdb_btree_cursor_next tree c else (Ok tt, c)
           end
  end.

Fixpoint visit_rows (fuel : nat) (tree : sdb_btree (P := P)) (capacity : Z) (collection prefix : bytes) (c : sdb_btree_cursor) (matches : Z)
    (a : A) : option (result Z * A) :=
  if negb (c_valid c) then Some (Ok matches, a)
  else
    match fuel with
    | O => None
    | S fuel =>
        let continue started matches a :=
          match started with
          | (Ok _, c) => visit_rows fuel tree capacity collection prefix c matches a
          | (Err e, _) => Some (Err e, a)
          end in
        match sdb_btree_cursor_read c capacity capacity with
        | Err e => Some (Err e, a)
        | Ok (key, value) =>
            if (length key <? length prefix)%nat || negb (bool_decide (take (length prefix) key = prefix)) then Some (Ok matches, a)
            else
              match visit_fields prefix key value with
              | Err e => Some (Err e, a)
              | Ok (document_id, generation) =>
                  match sdb_object_read_metadata (sdb_btree_get tree) SDB_OBJECT_DOCUMENT collection document_id with
                  | Ok metadata =>
                      if om_generation metadata =? generation then
                        if callback_depth =? SIZE_MAX then Some (Err SDB_E_OVERFLOW, a)
                        else
                          let '(a, keep_visiting) := visitor a document_id in
                          if negb keep_visiting then Some (Ok (matches + 1), a)
                          else continue (resume tree capacity key) (matches + 1) a
                      else continue (sdb_btree_cursor_next tree c) matches a
                  | Err SDB_E_NOT_FOUND => continue (sdb_btree_cursor_next tree c) matches a
                  | Err e => Some (Err e, a)
                  end
              end
        end
    end.

(** The match count, stored on success only, and the visitor's context. *)
Definition sdb_index_visit_unlocked (fuel : nat) tree (collection index_name value : bytes) (a : A) : option (result Z * A) :=
  match sdb_index_base_key SDB_INDEX_ENTRY_PREFIX collection index_name value 0 with
  | Err e => Some (Err e, a)
  | Ok prefix =>
      match sdb_btree_cursor_seek tree prefix zero_cursor with
      | (Err e, _) => Some (Err e, a)
      | (Ok _, c) => visit_rows fuel tree (pager_payload_capacity (t_pager tree)) collection prefix c 0 a
      end
  end.
End Visit.
End Scan.
