(* ===== verification/EngineScanMap.v ===== *)
(** * Scans and the maps they walk

    The engine's cursor loops, over the committed tree of any pager: the seeded counter
    bounds every generation in use, and visiting an index value calls the visitor for
    exactly the documents that have it, once each. *)

From stdpp Require Import gmap sorting.
From S2P Require Import Prelude Status Codec Keys Sha256 Page BtreePage OrderedMap PagerInterface BtreeNode BtreeTree Btree BtreeGet BtreePut BtreeContext BtreeMap BtreeCursor BtreeScan EngineKeys EngineRows EngineObject EngineMap EngineDocument EngineIndex EngineReclaim EngineDocumentMap EngineScan.

#[local] Opaque sdb_sha256 sdb_constant_time_equal sdb_object_metadata_encode.

(** Every row fits the buffers of a scan. *)
Definition rows_fit (capacity : Z) (m : gmap bytes bytes) : Prop :=
  forall k v, m !! k = Some v -> Z.of_nat (length k) <= capacity /\ Z.of_nat (length v) <= capacity.

Fixpoint fold_rows {A} (body : bytes -> bytes -> A -> scan_step A) (rows : list kv) (a : A) : result A :=
  match rows with
  | [] => Ok a
  | (k, v) :: rows =>
      match body k v a with
      | ScanFail e => Err e
      | ScanStop a => Ok a
      | ScanNext a => fold_rows body rows a
      end
  end.

Lemma elem_of_contents (l : list kv) (k v : bytes) : key_sorted l -> (k, v) ∈ l <-> contents l !! k = Some v.
Proof. intros Hs; unfold contents; split; [by apply elem_of_list_to_map_1; apply key_sorted_NoDup|apply elem_of_list_to_map_2]. Qed.

(** Rows of a tree fit when its pages do. *)
Section Fit.
Context {P T : Type} `{!PagerOps P T}.

Definition pages_fit (pager : P) : Prop :=
  forall q view, pager_read pager q = Ok view -> Z.of_nat (length (view_payload view)) <= pager_payload_capacity pager.

Lemma elem_of_flatten (t : ptree) (x : kv) : x ∈ flatten t -> exists l, l ∈ leaves t /\ x ∈ l.2.
Proof.
  rewrite flatten_leaves; intros Hx; apply list_elem_of_In, in_concat in Hx as (l & Hl & Hx); apply list_elem_of_In, list_elem_of_fmap in Hl as (y & -> & Hy).
  exists y; split; [done|by apply list_elem_of_In].
Qed.

Lemma entry_in_node (s : Z) (l : list kv) (k v : bytes) :
  (k, v) ∈ l -> (length k + length v <= length (node_bytes (leaf_node s l)))%nat.
Proof.
  intros Hin; unfold node_bytes; rewrite length_app; cbn [leaf_node n_kind n_entries].
  assert (Hle : (length k + length v <= length (mjoin (BtreePage.entry_bytes SDB_BTREE_LEAF <$> (leaf_entry <$> l))))%nat); [|lia].
  induction l as [|x l IH]; [by apply elem_of_nil in Hin|]; rewrite (fmap_cons leaf_entry), mjoin_cons, length_app.
  apply elem_of_cons in Hin as [<-|Hin]; [|specialize (IH Hin); lia]; rewrite length_entry_bytes; cbn [leaf_entry e_key e_value fst snd]; lia.
Qed.

Lemma tree_fits (tree : sdb_btree (P := P)) (t : ptree) :
  repr (sdb_btree_read_node (t_pager tree)) t -> pages_fit (t_pager tree) ->
  forall k v, (k, v) ∈ flatten t -> Z.of_nat (length k + length v) <= pager_payload_capacity (t_pager tree).
Proof.
  intros Hr Hp k v Hin; apply elem_of_flatten in Hin as (l & Hl & Hx); pose proof (leaves_read _ _ Hr) as Hrd.
  rewrite List.Forall_forall in Hrd; specialize (Hrd l (proj1 (list_elem_of_In _ _) Hl)); unfold sdb_btree_read_node in Hrd; inv_ok Hrd.
  apply node_decode_iff in Hrd as [_ Hrd]; apply (entry_in_node (leaf_sib l)) in Hx; rewrite <- Hrd in Hx; apply Hp in Hbind; lia.
Qed.
End Fit.

Section Tree.
Context {P T : Type} `{!PagerOps P T} `{!PagerLaws P T}.
Context (tree : sdb_btree (P := P)) (t : ptree) (h : nat) (Hth : tree_holds tree t h).

Abbreviation capacity := (pager_payload_capacity (t_pager tree)).
Context (Hfit : rows_fit capacity (tree_contents t)).

Lemma flatten_sorted : key_sorted (flatten t).
Proof. by apply (wf_flatten h None None), Hth. Qed.

Lemma row_fits (k v : bytes) : (k, v) ∈ flatten t -> read_result (k, v) capacity capacity = Ok (k, v).
Proof.
  intros Hin; apply elem_of_contents in Hin; [|apply flatten_sorted]; apply Hfit in Hin as [Hk Hv].
  unfold read_result; cbn [fst snd]; by rewrite (proj2 (Z.ltb_ge _ _) Hk), (proj2 (Z.ltb_ge _ _) Hv).
Qed.

Lemma forward_step (c : sdb_btree_cursor) (k v : bytes) (rest : list kv) :
  forward t c ((k, v) :: rest) -> settled c ((k, v) :: rest) -> (k, v) ∈ flatten t ->
  c_valid c = true /\ sdb_btree_cursor_read c capacity capacity = Ok (k, v)
  /\ exists c', sdb_btree_cursor_next tree c = (Ok tt, c') /\ forward t c' rest /\ settled c' rest.
Proof.
  intros Hf Hs Hin; assert (Hv : c_valid c = true) by (destruct (c_valid c) eqn:Ev; [done|]; by specialize (Hs Ev)); split; [done|]; split.
  - destruct (forward_read t c capacity capacity _ Hf Hv) as (e & rest' & [= <- <-] & ->); by apply row_fits.
  - destruct (next_spec tree t h Hth c _ Hf) as (c' & Hn & Hf' & Hs'); rewrite Hv in *; by exists c'.
Qed.

Lemma forward_end (c : sdb_btree_cursor) : forward t c [] -> c_valid c = false.
Proof.
  intros Hf; destruct (c_valid c) eqn:Ev; [|done]; by destruct (forward_read t c capacity capacity [] Hf Ev) as (e & rest' & ? & _).
Qed.

Lemma scan_rows_spec {A} (body : bytes -> bytes -> A -> scan_step A) (rest : list kv) :
  forall fuel c a, forward t c rest -> settled c rest -> (length rest <= fuel)%nat -> (forall x, x ∈ rest -> x ∈ flatten t) ->
  scan_rows fuel tree capacity body c a = Some (fold_rows body rest a).
Proof.
  induction rest as [|[k v] rest IH]; intros fuel c a Hf Hs Hl Hin.
  { destruct fuel; cbn [scan_rows]; by rewrite forward_end. }
  destruct (forward_step c k v rest Hf Hs) as (Hv & Hr & c' & Hn & Hf' & Hs'); [apply Hin; by left|].
  destruct fuel as [|fuel]; [cbn in Hl; lia|]; cbn [scan_rows fold_rows]; rewrite Hv, Hr; cbn [negb].
  destruct (body k v a) as [a'|a'|e]; [|done|done]; rewrite Hn; apply IH; [done|done|cbn in Hl; lia|]; intros x Hx; apply Hin; by right.
Qed.

Lemma seek_forward (key : option bytes) :
  exists c rest l1, sdb_btree_cursor_descend tree key true zero_cursor = (Ok tt, c) /\ flatten t = l1 ++ rest
    /\ parted key l1 rest /\ forward t c rest /\ settled c rest.
Proof. destruct (descend_forward tree t h Hth key) as (c & l1 & rest & H1 & H2 & H3 & H4 & H5); by exists c, rest, l1. Qed.

Lemma scan_all {A} (fuel : nat) (body : bytes -> bytes -> A -> scan_step A) (a : A) :
  (length (flatten t) <= fuel)%nat ->
  start_scan fuel tree body (sdb_btree_cursor_first tree zero_cursor) a = Some (fold_rows body (flatten t) a).
Proof.
  intros Hl; unfold start_scan, sdb_btree_cursor_first; rewrite (th_open _ _ _ Hth); cbn [negb].
  destruct (seek_forward None) as (c & rest & l1 & -> & E & Hp & Hf & Hs); cbn in Hp; subst l1; cbn [app] in E; rewrite E.
  apply scan_rows_spec; [done|done|by rewrite <- E|by rewrite E].
Qed.
End Tree.

Lemma flatten_size (t : ptree) (h : nat) : wf_tree h None None t -> length (flatten t) = size (tree_contents t).
Proof.
  intros Hw; unfold tree_contents, contents; rewrite map_size_list_to_map; [done|].
  by apply key_sorted_NoDup, (wf_flatten h None None).
Qed.

(** ** The counter *)

Lemma row_generation_range (k v : bytes) : 0 <= sdb_row_generation k v <= UINT64_MAX.
Proof.
  unfold sdb_row_generation, UINT64_MAX; pose proof (sdb_read_u64_le_range v 8); pose proof (sdb_read_u64_le_range v 0).
  pose proof (sdb_read_u64_le_range k (length k - 12)); pose proof (sdb_read_u64_le_range k (length k - 8)).
  repeat case_if; lia.
Qed.

Lemma fold_max (rows : list kv) : forall a, 0 <= a <= UINT64_MAX ->
  exists g, fold_rows max_generation rows a = Ok g /\ a <= g <= UINT64_MAX /\ forall k v, (k, v) ∈ rows -> sdb_row_generation k v <= g.
Proof.
  induction rows as [|[k v] rows IH]; intros a Ha; cbn [fold_rows].
  { exists a; split; [done|]; split; [lia|]; intros k v H; by apply elem_of_nil in H. }
  unfold max_generation at 1; pose proof (row_generation_range k v) as Hr; rewrite Z.gtb_ltb.
  destruct (IH (if a <? sdb_row_generation k v then sdb_row_generation k v else a)) as (g & -> & Hg & Hall).
  { destruct (a <? sdb_row_generation k v); lia. }
  exists g; split; [done|]; destruct (Z.ltb_spec a (sdb_row_generation k v)); (split; [lia|]);
    intros k' v' Hin; apply elem_of_cons in Hin as [[= -> ->]|Hin]; (lia || by apply Hall).
Qed.

Lemma object_row_generation (i : object_id) (md : sdb_object_metadata) :
  metadata_typed md -> sdb_row_generation (row_key (object_row i)) (sdb_object_metadata_encode md) = om_generation md.
Proof.
  intros (_ & Hg & _ & _ & _ & Hd); unfold sdb_row_generation; rewrite length_metadata.
  cbn [object_row row_key pair_bytes length]; rewrite (proj2 (Z.eqb_neq _ _)) by lia.
  change (u8_at (byte.of_Z SDB_OBJECT_KEY_PREFIX :: _) 0) with SDB_OBJECT_KEY_PREFIX; cbn [Z.eqb Pos.eqb Nat.eqb SDB_OBJECT_KEY_PREFIX SDB_OBJECT_METADATA_SIZE].
  rewrite metadata_layout, sdb_read_u64_le_spec by done; assert (Hmg : length sdb_object_magic = 4%nat) by done.
  generalize dependent sdb_object_magic; intros magic Hmg; app_simp; apply le_combine_split_small; lia.
Qed.

Lemma objects_are_bound (m : gmap bytes bytes) (c g : Z) (objs : gmap object_id bytes) :
  objects_are m c objs -> (forall i md v, objs !! i = Some v -> object_stored m i md v -> om_generation md <= g) -> objects_are m g objs.
Proof.
  intros [H1 H2 H3 H4] Hg; split; [done| |done|done]; intros i v Hv; destruct (H2 i v Hv) as (md & Hs & _); eauto.
Qed.

Section Seed.
Context {P T : Type} `{!PagerOps P T} `{!PagerLaws P T}.

(** The counter row, when there is one, holds the highest generation handed out. *)
Definition counter_is (m : gmap bytes bytes) (c : Z) : Prop :=
  0 <= c <= UINT64_MAX /\ (m !! row_key RowCounter = None \/ m !! row_key RowCounter = Some (le_split 8 c)).

Lemma seed_generation_bounds (tree : sdb_btree (P := P)) (m : gmap bytes bytes) (c : Z) (objs : gmap object_id bytes) (fuel : nat) :
  tree_is tree m -> rows_fit (pager_payload_capacity (t_pager tree)) m -> (size m <= fuel)%nat -> objects_are m c objs -> counter_is m c ->
  exists g, sdb_engine_seed_generation fuel tree = Some (Ok g) /\ 0 <= g <= UINT64_MAX /\ objects_are m g objs
    /\ (m !! row_key RowCounter = Some (le_split 8 c) -> g = c).
Proof.
  intros Ht Hfit Hsz Ho [Hc Hrow]; unfold sdb_engine_seed_generation.
  change sdb_generation_counter_key with (row_key RowCounter); rewrite (get_row _ _ (tree_reads _ _ Ht) RowCounter) by done.
  destruct Hrow as [E|E]; rewrite E; cbn [lookup_result].
  - destruct Ht as (t & h & Hth & <-); unfold sdb_seed_generation_by_scan.
    rewrite (scan_all tree t h Hth Hfit) by (by rewrite (flatten_size t h) by apply Hth).
    destruct (fold_max (flatten t) 0 ltac:(unfold UINT64_MAX; lia)) as (g & -> & Hg & Hall); exists g; split; [done|]; split; [done|]; split; [|done].
    eapply objects_are_bound; [done|]; intros i md v Hv Hs; destruct (os_describes _ _ _ _ Hs) as (_ & Hty & _).
    rewrite <- (object_row_generation i md Hty); apply Hall, elem_of_contents; [by apply (wf_flatten h None None), Hth|apply (os_metadata _ _ _ _ Hs)].
  - rewrite length_le_split, (proj2 (Z.ltb_ge _ _)) by done; rewrite length_le_split; cbn [SDB_GENERATION_COUNTER_VALUE_SIZE Nat.eqb negb check].
    rewrite sdb_read_u64_le_spec; exists c; split; [|done]; do 2 f_equal.
    rewrite slice_whole by (by rewrite ?length_le_split); apply le_combine_split_small; unfold UINT64_MAX in Hc; lia.
Qed.
End Seed.

(** ** Visiting an index value *)

Lemma key_le_app (p s : bytes) : key_le p (p ++ s).
Proof. unfold key_le; rewrite <- (app_nil_r p) at 1; rewrite key_cmp_app; by destruct s. Qed.

Lemma prefix_test (p k : bytes) :
  (length k <? length p)%nat || negb (bool_decide (take (length p) k = p)) = negb (bool_decide (p `prefix_of` k)).
Proof.
  destruct (Nat.ltb_spec (length k) (length p)) as [Hl|Hl]; cbn [orb].
  - rewrite bool_decide_eq_false_2; [done|]; intros Hp; apply prefix_length in Hp; lia.
  - f_equal; apply bool_decide_ext; split; [intros E; rewrite <- (take_drop (length p) k), E; by eexists|].
    intros [r ->]; by rewrite take_app_length.
Qed.

(** Names in the range the engine accepts. *)
Definition row_valid (r : row_name) : Prop :=
  row_ok r
  /\ match r with
     | RowCounter => True
     | RowObject _ ns key | RowChunk _ ns key _ _ => valid ns /\ valid key
     | RowDefinition c n => valid c /\ valid n
     | RowEntry c n v d _ => valid c /\ valid n /\ valid v /\ valid d
     | RowGuard c n v => valid c /\ valid n /\ valid v
     | RowReverse c d _ => valid c /\ valid d
     end.

(** There are no rows but those the engine writes. *)
Definition rows_known (m : gmap bytes bytes) : Prop := forall k v, m !! k = Some v -> exists r, row_valid r /\ k = row_key r.

Abbreviation entry_prefix c t := (index_bytes SDB_INDEX_ENTRY_PREFIX c (it_index_name t) (it_value t)).

Lemma entry_key_prefix (c d : bytes) (g : Z) (t : sdb_index_term) :
  row_key (entry_row c d g t) = entry_prefix c t ++ size_bytes d ++ d ++ le_split 8 g.
Proof. done. Qed.

Lemma entry_prefix_row (r : row_name) (rest : bytes) (c : bytes) (t : sdb_index_term) :
  row_valid r -> valid c -> term_ok t -> row_key r = entry_prefix c t ++ rest ->
  exists d g, r = entry_row c d g t /\ valid d /\ 0 <= g < 2 ^ 64.
Proof.
  intros [Hr Hv] Hc [Hn Hw] E0; pose proof E0 as E; pose proof (row_key_head r) as [tail Eh]; rewrite Eh in E; unfold index_bytes in E; cbn [app] in E.
  apply cons_split in E as [Ep _]; apply byte_of_Z_inj in Ep; [|destruct r; vm_compute; split; congruence|vm_compute; split; congruence].
  destruct r as [| | | |c' n' v' d g| |]; try (vm_compute in Ep; discriminate Ep); clear Ep.
  destruct Hv as (Hc' & Hn' & Hv' & Hd); destruct Hr as (_ & _ & _ & _ & Hg); exists d, g.
  cbn [row_key] in E0; unfold entry_bytes in E0.
  apply valid_size in Hc, Hn, Hw, Hc', Hn', Hv'.
  apply index_bytes_inj in E0 as (_ & -> & -> & -> & _); [by destruct t|vm_compute; split; congruence|vm_compute; split; congruence|lia..].
Qed.

Lemma visit_entry (c d : bytes) (g : Z) (t : sdb_index_term) :
  valid d -> 0 <= g < 2 ^ 64 -> visit_fields (entry_prefix c t) (row_key (entry_row c d g t)) [] = Ok (d, g).
Proof.
  intros Hd Hg; apply valid_size in Hd; rewrite entry_key_prefix; set (p := entry_prefix c t); unfold visit_fields.
  assert (Hl : length (p ++ size_bytes d ++ d ++ le_split 8 g) = (length p + 2 + length d + 8)%nat) by (autorewrite with len; lia).
  rewrite Hl; cbn [length Nat.eqb negb orb]; rewrite (proj2 (Nat.ltb_ge _ _)) by lia; cbn [check].
  rewrite sdb_read_u16_le_spec; assert (E : slice (p ++ size_bytes d ++ d ++ le_split 8 g) (length p) 2 = size_bytes d) by (by app_simp).
  rewrite E, le_combine_split_small, Nat2Z.id by lia; rewrite (proj2 (Nat.eqb_neq _ _)) by lia; rewrite Nat.eqb_refl; cbn [negb orb check].
  rewrite sdb_read_u64_le_spec; f_equal; f_equal; [by app_simp|]; app_simp; apply le_combine_split_small; lia.
Qed.

(** Calling the visitor for a list of documents. *)
Fixpoint visit_list {A} (visitor : A -> bytes -> A * bool) (ids : list bytes) (matches : Z) (a : A) : result Z * A :=
  match ids with
  | [] => (Ok matches, a)
  | d :: ids =>
      let '(a, keep_visiting) := visitor a d in
      if negb keep_visiting then (Ok (matches + 1), a) else visit_list visitor ids (matches + 1) a
  end.

Section Visit.
Context {P T : Type} `{!PagerOps P T} `{!PagerLaws P T}.
Context (tree : sdb_btree (P := P)) (pt : ptree) (h : nat) (Hth : tree_holds tree pt h).
Abbreviation capacity := (pager_payload_capacity (t_pager tree)).
Context (Hfit : rows_fit capacity (tree_contents pt)).
Context (defs : gmap (bytes * bytes) bool) (docs : gmap (bytes * bytes) document).
Context (Hidx : indexes_are (tree_contents pt) defs docs) (Hknown : rows_known (tree_contents pt)).
Context (c : bytes) (t : sdb_index_term) (Hc : valid c) (Ht : term_ok t).
Abbreviation p := (entry_prefix c t).

(** A row under the prefix is the entry of a document with the value. *)
Lemma visit_row (k v : bytes) :
  (k, v) ∈ flatten pt -> p `prefix_of` k ->
  v = [] /\ exists d x, docs !! (c, d) = Some x /\ t ∈ dc_terms x /\ k = row_key (entry_row c d (dc_generation x) t).
Proof.
  intros Hin [rest ->]; apply elem_of_contents in Hin; [|by eapply flatten_sorted].
  destruct (Hknown _ _ Hin) as (r & Hr & E); destruct (entry_prefix_row r rest c t Hr Hc Ht (eq_sym E)) as (d & g & -> & Hd & Hg).
  assert (Hm : tree_contents pt !! row_key (entry_row c d g t) = Some v) by (by rewrite <- E).
  apply (ia_entry _ _ _ Hidx) in Hm as (-> & x & Hx & <- & Htx); [|done..]; split; [done|]; by exists d, x.
Qed.

Lemma resume_spec (k v : bytes) (l1 rest : list kv) :
  flatten pt = l1 ++ (k, v) :: rest -> bad_key k = false ->
  exists cur, resume tree capacity k = (Ok tt, cur) /\ forward pt cur rest /\ settled cur rest.
Proof.
  intros E Hk; unfold resume, sdb_btree_cursor_seek; rewrite (th_open _ _ _ Hth), Hk; cbn [negb orb].
  destruct (seek_forward tree pt h Hth (Some k)) as (cur & rest' & l1' & -> & E' & Hp & Hf & Hs).
  assert (E2 : rest' = (k, v) :: rest).
  { destruct (parted_filter _ _ _ Hp) as [Ef _]; rewrite <- E', E in Ef; rewrite <- Ef.
    apply (parted_filter k l1 ((k, v) :: rest)); pose proof (flatten_sorted tree pt h Hth) as Hso; unfold key_sorted in Hso; rewrite E in Hso.
    rewrite fmap_app, fmap_cons in Hso; cbn [fst] in Hso; split.
    - rewrite List.Forall_forall; intros x Hx; eapply StronglySorted_app_1_elem_of; [exact Hso|by apply list_elem_of_In|by left].
    - apply StronglySorted_app_1_r in Hso; apply StronglySorted_inv in Hso as [_ Hso]; constructor; [apply key_le_refl|].
      eapply List.Forall_impl; [|exact Hso]; intros x; apply key_lt_le. }
  subst rest'; destruct (forward_step tree pt h Hth Hfit cur k v rest Hf Hs) as (Hv & Hr & cur' & Hn & Hf' & Hs').
  { rewrite E, elem_of_app, elem_of_cons; auto. }
  rewrite Hv, Hr; cbn [negb]; rewrite bool_decide_eq_true_2 by done; by exists cur'.
Qed.

(** The documents of the rows under the prefix at the head of a list. *)
Fixpoint ids_of (rows : list kv) : list bytes :=
  match rows with
  | [] => []
  | (k, v) :: rows =>
      if bool_decide (p `prefix_of` k)
      then match visit_fields p k v with Ok (d, _) => d :: ids_of rows | Err _ => [] end
      else []
  end.

Lemma visit_rows_spec {A} (visitor : A -> bytes -> A * bool) (depth : Z) (rest : list kv) :
  depth <> SIZE_MAX ->
  forall fuel l1 cur matches a, flatten pt = l1 ++ rest -> forward pt cur rest -> settled cur rest -> (length rest <= fuel)%nat ->
  visit_rows visitor depth fuel tree capacity c p cur matches a = Some (visit_list visitor (ids_of rest) matches a).
Proof.
  intros Hdepth; induction rest as [|[k v] rest IH]; intros fuel l1 cur matches a E Hf Hs Hl.
  { destruct fuel; cbn [visit_rows]; by rewrite (forward_end tree pt cur Hf). }
  assert (Hin : (k, v) ∈ flatten pt) by (rewrite E, elem_of_app, elem_of_cons; auto).
  destruct (forward_step tree pt h Hth Hfit cur k v rest Hf Hs Hin) as (Hv & Hr & cur' & Hn & Hf' & Hs').
  destruct fuel as [|fuel]; [cbn in Hl; lia|]; cbn [visit_rows ids_of]; rewrite Hv, Hr, prefix_test; cbn [negb].
  case_bool_decide as Hp; cbn [negb]; [|done]; destruct (visit_row k v Hin Hp) as (-> & d & x & Hx & Htx & Ek).
  destruct (ia_document _ _ _ Hidx _ _ _ Hx) as [(_ & Hd & _ & _ & _ & Hg) (md & w & Hst & Hmg)].
  assert (Hvf : visit_fields p k [] = Ok (d, dc_generation x)) by (rewrite Ek; apply visit_entry; [done|lia]); rewrite Hvf; cbn [visit_list].
  assert (Htree : tree_is tree (tree_contents pt)) by (by exists pt, h).
  pose proof (read_metadata_stored _ _ (tree_reads _ _ Htree) (doc_id c d) md w (document_id_ok c d Hc Hd) Hst) as Hrd.
  cbn [oi_kind oi_namespace oi_key] in Hrd; rewrite Hrd, Hmg, Z.eqb_refl, (proj2 (Z.eqb_neq _ _) Hdepth).
  destruct (visitor a d) as [a' keep]; destruct keep; cbn [negb]; [|done].
  assert (Hbad : bad_key k = false) by (rewrite Ek; apply bad_key_row, entry_row_ok; (done || lia)).
  destruct (resume_spec k [] l1 rest E Hbad) as (cur2 & -> & Hf2 & Hs2).
  apply (IH fuel (l1 ++ [(k, [])])); [by rewrite <- app_assoc|done|done|cbn in Hl; lia].
Qed.

Lemma ids_of_cons (k v : bytes) (rest : list kv) :
  (k, v) ∈ flatten pt -> p `prefix_of` k ->
  exists d x, docs !! (c, d) = Some x /\ t ∈ dc_terms x /\ k = row_key (entry_row c d (dc_generation x) t) /\ ids_of ((k, v) :: rest) = d :: ids_of rest.
Proof.
  intros Hin Hp; destruct (visit_row k v Hin Hp) as (-> & d & x & Hx & Htx & Ek); exists d, x; split_and!; [done|done|done|].
  destruct (ia_document _ _ _ Hidx _ _ _ Hx) as [(_ & Hd & _ & _ & _ & Hg) _].
  cbn [ids_of]; rewrite bool_decide_eq_true_2 by done; by rewrite Ek, visit_entry by (done || lia).
Qed.

Lemma ids_of_sound (rest : list kv) (d : bytes) :
  (forall x, x ∈ rest -> x ∈ flatten pt) -> d ∈ ids_of rest ->
  exists x, docs !! (c, d) = Some x /\ t ∈ dc_terms x /\ row_key (entry_row c d (dc_generation x) t) ∈ rest.*1.
Proof.
  induction rest as [|[k v] rest IH]; intros Hin Hd; [by apply elem_of_nil in Hd|].
  destruct (decide (p `prefix_of` k)) as [Hp|Hp]; [|cbn [ids_of] in Hd; rewrite bool_decide_eq_false_2 in Hd by done; by apply elem_of_nil in Hd].
  destruct (ids_of_cons k v rest) as (d' & x & Hx & Htx & Ek & E); [apply Hin; by left|done|]; rewrite E in Hd.
  apply elem_of_cons in Hd as [->|Hd]; [exists x; split_and!; [done|done|rewrite <- Ek; by left]|].
  destruct IH as (x' & ? & ? & ?); [intros y Hy; apply Hin; by right|done|]; exists x'; split_and!; [done|done|by right].
Qed.

Lemma ids_of_nodup (rest : list kv) : (forall x, x ∈ rest -> x ∈ flatten pt) -> NoDup rest.*1 -> NoDup (ids_of rest).
Proof.
  induction rest as [|[k v] rest IH]; intros Hin Hn; [constructor|]; rewrite fmap_cons, list.NoDup_cons in Hn; destruct Hn as [Hk Hn].
  destruct (decide (p `prefix_of` k)) as [Hp|Hp]; [|cbn [ids_of]; rewrite bool_decide_eq_false_2 by done; constructor].
  assert (Hin' : forall x, x ∈ rest -> x ∈ flatten pt) by (intros y Hy; apply Hin; by right).
  destruct (ids_of_cons k v rest) as (d & x & Hx & Htx & Ek & ->); [apply Hin; by left|done|]; constructor; [|by apply IH].
  intros Hd; apply ids_of_sound in Hd as (x' & Hx' & _ & Hr); [|done]; assert (x' = x) as -> by congruence; by rewrite <- Ek in Hr.
Qed.

Lemma ids_of_reach (r1 r2 : list kv) (k v : bytes) :
  (forall x, x ∈ r1 ++ (k, v) :: r2 -> x ∈ flatten pt) -> Forall (fun x : kv => p `prefix_of` x.1) r1 -> p `prefix_of` k ->
  exists d x, d ∈ ids_of (r1 ++ (k, v) :: r2) /\ docs !! (c, d) = Some x /\ k = row_key (entry_row c d (dc_generation x) t).
Proof.
  induction r1 as [|[k1 v1] r1 IH]; intros Hin Hr Hp; cbn [app] in *.
  - destruct (ids_of_cons k v r2) as (d & x & Hx & _ & Ek & ->); [apply Hin; by left|done|]; exists d, x; split; [by left|done].
  - apply Forall_cons_iff in Hr as [Hp1 Hr]; destruct IH as (d & x & Hd & ?); [intros y Hy; apply Hin; by right|done|done|].
    destruct (ids_of_cons k1 v1 (r1 ++ (k, v) :: r2)) as (d1 & x1 & _ & _ & _ & ->); [apply Hin; by left|done|]; exists d, x; split; [by right|done].
Qed.

(** The documents are those that have the value, each once. *)
Lemma ids_of_spec (l1 rest : list kv) :
  flatten pt = l1 ++ rest -> parted (Some p) l1 rest ->
  NoDup (ids_of rest) /\ forall d, d ∈ ids_of rest <-> exists x, docs !! (c, d) = Some x /\ t ∈ dc_terms x.
Proof.
  intros E [Hlt Hge]; pose proof (flatten_sorted tree pt h Hth) as Hso; assert (Hin : forall x, x ∈ rest -> x ∈ flatten pt) by (rewrite E; set_solver).
  split.
  { apply ids_of_nodup; [done|]; apply key_sorted_NoDup in Hso; rewrite E, fmap_app, list.NoDup_app in Hso; apply Hso. }
  intros d; split; [intros Hd; apply ids_of_sound in Hd as (x & ? & ? & _); eauto|]; intros (x & Hx & Htx).
  destruct (ia_document _ _ _ Hidx _ _ _ Hx) as [(_ & Hd & _ & _ & _ & Hg) _].
  assert (Hrow : (row_key (entry_row c d (dc_generation x) t), []) ∈ flatten pt).
  { apply elem_of_contents; [done|]; apply (ia_entry _ _ _ Hidx); [done|done|done|lia|]; split; [done|]; by exists x. }
  assert (Hpk : p `prefix_of` row_key (entry_row c d (dc_generation x) t)) by (rewrite entry_key_prefix; by eexists).
  rewrite E, elem_of_app in Hrow; destruct Hrow as [Hrow|Hrow].
  { exfalso; rewrite List.Forall_forall in Hlt; specialize (Hlt _ (proj1 (list_elem_of_In _ _) (list_elem_of_fmap_2 fst _ _ Hrow))); cbn [fst] in Hlt.
    destruct Hpk as [s Es]; rewrite Es in Hlt; by apply (key_lt_irrefl p), (key_le_lt_trans _ (p ++ s)); [apply key_le_app|]. }
  apply list_elem_of_split in Hrow as (r1 & r2 & Er); destruct (ids_of_reach r1 r2 (row_key (entry_row c d (dc_generation x) t)) []) as (d' & x' & Hd' & Hx' & Ek).
  - rewrite <- Er; exact Hin.
  - rewrite Er, fmap_app in Hge; apply Forall_app in Hge as [Hge _]; rewrite List.Forall_forall in *; intros [k1 v1] Hk1; cbn [fst].
    destruct Hpk as [s Es]; apply (prefix_convex p [] s); [rewrite app_nil_r; apply Hge, list_elem_of_In, (list_elem_of_fmap_2 fst _ (k1, v1)); by apply list_elem_of_In|].
    rewrite <- Es; apply key_lt_le; unfold key_sorted in Hso; rewrite E, Er, !fmap_app in Hso; apply StronglySorted_app_1_r in Hso.
    eapply StronglySorted_app_1_elem_of; [exact Hso|apply (list_elem_of_fmap_2 fst _ (k1, v1)); by apply list_elem_of_In|by left].
  - done.
  - rewrite <- Er in Hd'; assert (Hdd : d' = d); [|by subst].
    apply row_key_inj, entry_row_inj in Ek; [by destruct Ek as (_ & -> & _)|apply entry_row_ok; (done || lia)|].
    destruct (ia_document _ _ _ Hidx _ _ _ Hx') as [(_ & ? & _ & _ & _ & ?) _]; apply entry_row_ok; (done || lia).
Qed.
End Visit.
