(* ===== verification/EngineView.v ===== *)
(** * What a database contains

    The contents of a database as maps (objects, index definitions, the terms of each
    document) and what each engine operation does to them, proved once for every
    operation: a success is a step of the maps, a failure changes none of them or
    leaves its status in the batch. *)

From stdpp Require Import gmap.
From S2P Require Import Prelude Status Codec Keys Sha256 BtreePage PagerInterface Btree BtreeGet EngineKeys EngineRows EngineObject EngineMap EngineDocument EngineIndex EngineReclaim EngineDocumentMap EngineScan EngineScanMap.

#[local] Opaque sdb_sha256 sdb_constant_time_equal sdb_object_metadata_encode.

(** ** The rows stay rows of the engine *)

Lemma known_insert (m : gmap bytes bytes) (r : row_name) (v : bytes) : rows_known m -> row_valid r -> rows_known (<[row_key r := v]> m).
Proof. intros Hk Hr k w H; apply lookup_insert_Some in H as [[<- _]|[_ H]]; eauto. Qed.

Lemma known_delete (m : gmap bytes bytes) (k : bytes) : rows_known m -> rows_known (delete k m).
Proof. intros Hk k' w H; apply lookup_delete_Some in H as [_ H]; eauto. Qed.

Create HintDb rows discriminated.
#[export] Hint Resolve known_insert known_delete : rows.

Lemma valid_object_row (i : object_id) : id_ok i -> row_valid (object_row i).
Proof. intros Hi; split; [by apply object_row_ok|]; destruct Hi as [_ Hn]; by apply andb_prop in Hn. Qed.

Lemma valid_chunk_row (i : object_id) (g j : Z) : id_ok i -> 0 <= g < 2 ^ 64 -> 0 <= j < 2 ^ 32 -> row_valid (chunk_row i g j).
Proof. intros Hi Hg Hj; split; [by apply chunk_row_ok|]; destruct Hi as [_ Hn]; by apply andb_prop in Hn. Qed.

Lemma known_put_chunks (i : object_id) (g size : Z) (v : bytes) (n : nat) : forall (j : Z) (m : gmap bytes bytes),
  id_ok i -> 0 <= g < 2 ^ 64 -> 0 <= j -> j + Z.of_nat n <= 2 ^ 32 -> rows_known m -> rows_known (put_chunks i g size v n j m).
Proof.
  induction n as [|n IH]; intros j m Hi Hg Hj Hn Hm; cbn [put_chunks]; [done|]; apply IH; [done|done|lia|lia|].
  apply known_insert; [done|]; apply valid_chunk_row; [done|done|lia].
Qed.

Lemma known_drop_version (i : object_id) (old : option sdb_object_metadata) (m : gmap bytes bytes) : rows_known m -> rows_known (drop_version i old m).
Proof.
  destruct old as [md|]; [|done]; cbn [drop_version]; generalize (om_generation md), (Z.to_nat (om_chunk_count md)), 0; intros g n.
  revert m; induction n as [|n IH]; intros m j Hm; cbn [drop_chunks]; auto with rows.
Qed.

Lemma known_counted (n : Z) (m : gmap bytes bytes) : rows_known m -> rows_known (counter_row_of n m).
Proof. intros Hm; by apply known_insert. Qed.

Lemma known_written_chunks (i : object_id) (md : sdb_object_metadata) (n : Z) (v : bytes) (m : gmap bytes bytes) :
  id_ok i -> metadata_typed md -> rows_known m ->
  rows_known (put_chunks i (om_generation md) (om_chunk_size md) v (Z.to_nat (om_chunk_count md)) 0 (counter_row_of n m)).
Proof. intros Hi (_ & Hg & _ & Hc & _) Hm; apply known_put_chunks; [done|done|lia|lia|by apply known_counted]. Qed.

Lemma known_put_rows (i : object_id) (md : sdb_object_metadata) (v : bytes) (old : option sdb_object_metadata) (m : gmap bytes bytes) :
  id_ok i -> metadata_typed md -> rows_known m -> rows_known (put_rows i md v old m).
Proof. intros Hi Ht Hm; apply known_drop_version, known_insert; [by apply known_written_chunks|by apply valid_object_row]. Qed.

Lemma known_delete_rows (i : object_id) (old : option sdb_object_metadata) (m : gmap bytes bytes) : rows_known m -> rows_known (delete_rows i old m).
Proof. intros Hm; by apply known_delete, known_drop_version. Qed.

Lemma known_updates (us : list update) : forall m : gmap bytes bytes,
  Forall (fun u => is_Some u.2 -> row_valid u.1) us -> rows_known m -> rows_known (apply_updates us m).
Proof.
  induction us as [|[r [v|]] us IH]; intros m Hus Hm; cbn [apply_updates]; [done|..]; apply Forall_cons_iff in Hus as [Hr Hus];
    (apply IH; [done|]); [apply known_insert; [done|]; by apply Hr|by apply known_delete].
Qed.

Lemma valid_updates (c d : bytes) defs docs (new : option document) :
  valid c -> valid d ->
  (forall x, new = Some x -> Forall term_ok (dc_terms x) /\ Z.of_nat (length (dc_terms x)) <= UINT16_MAX /\ 0 <= dc_generation x < 2 ^ 64) ->
  Forall (fun u => is_Some u.2 -> row_valid u.1) (index_updates c d defs docs new).
Proof.
  intros Hc Hd Hnew; rewrite List.Forall_forall; intros [r v] Hin [w Hw]; cbn in Hw; subst v; apply list_elem_of_In in Hin; cbn [fst].
  unfold index_updates in Hin; apply elem_of_app in Hin as [Hin|Hin]; [by apply elem_of_old in Hin as [? _]|].
  apply elem_of_new in Hin as (x & Hx & Hin); destruct (Hnew x Hx) as (Hts & Hl & Hg); rewrite List.Forall_forall in Hts.
  destruct Hin as [(t & Ht & -> & _)|[(t & Ht & _ & -> & _)|(k & t & Hk & -> & _)]].
  - apply list_elem_of_In in Ht; destruct (Hts t Ht) as [Hn Hv]; split; [by apply entry_row_ok|done].
  - apply list_elem_of_In in Ht; destruct (Hts t Ht) as [Hn Hv]; split; [by apply guard_row_ok|done].
  - split; [|done]; apply reverse_row_ok; [done|done|]; apply lookup_lt_Some in Hk; unfold UINT16_MAX in Hl.
    destruct (dc_terms x); cbn [reverse_terms length] in *; lia.
Qed.

Lemma known_document_rows (c d : bytes) (m : gmap bytes bytes) defs docs (md : sdb_object_metadata) (v : bytes)
    (old : option sdb_object_metadata) (ts : list sdb_index_term) :
  valid c -> valid d -> metadata_typed md -> Forall term_ok ts -> Z.of_nat (length ts) <= UINT16_MAX -> rows_known m ->
  rows_known (document_rows c d m defs docs md v old {| dc_generation := om_generation md; dc_terms := ts |}).
Proof.
  intros Hc Hd Hty Hts Hl Hm; pose proof (document_id_ok c d Hc Hd) as Hi; apply known_drop_version, known_insert; [|by apply valid_object_row].
  apply known_updates; [|by apply known_written_chunks]; apply valid_updates; [done|done|]; destruct Hty as (_ & Hg & _); by intros x [= <-].
Qed.

Lemma known_reclaimed (c d : bytes) (m : gmap bytes bytes) defs docs :
  valid c -> valid d -> rows_known m -> rows_known (apply_updates (index_updates c d defs docs None) m).
Proof. intros Hc Hd; apply known_updates, valid_updates; [done|done|by intros]. Qed.

(** ** The contents *)

Record view := {
  v_objects : gmap object_id bytes;
  v_indexes : gmap (bytes * bytes) bool; (* (collection, index) to whether it is unique *)
  v_terms : gmap (bytes * bytes) (list sdb_index_term) (* (collection, document) to its terms *)
}.

Definition empty_view : view := {| v_objects := ∅; v_indexes := ∅; v_terms := ∅ |}.

Record view_is (m : gmap bytes bytes) (g : Z) (w : view) (docs : gmap (bytes * bytes) document) : Prop := {
  vw_documents : documents_are m g (v_objects w) (v_indexes w) docs;
  vw_terms : v_terms w = dc_terms <$> docs;
  vw_known : rows_known m;
  vw_counter : counter_is m g
}.

(** The operations that change a database. *)
Inductive store := Kv | Blob.
Definition store_kind (st : store) : Z := match st with Kv => SDB_OBJECT_KV | Blob => SDB_OBJECT_BLOB end.
Abbreviation stored st ns key := {| oi_kind := store_kind st; oi_namespace := ns; oi_key := key |}.

Inductive change :=
| Put (st : store) (ns key value : bytes)
| Delete (st : store) (ns key : bytes)
| CreateIndex (collection index_name : bytes) (unique : bool)
| PutDocument (collection document_id document : bytes) (terms : list sdb_index_term)
| DeleteDocument (collection document_id : bytes).

Definition engine_op {B} `{!Rows B} (collect : bytes -> bytes -> result (list (sdb_index_term * Z))) (leaf_capacity : Z) (op : change) : engineM (B := B) unit :=
  match op with
  | Put st ns key v => sdb_object_put leaf_capacity (store_kind st) ns key v
  | Delete st ns key => sdb_object_delete (store_kind st) ns key
  | CreateIndex c n u => sdb_index_create_in_mutation c n u
  | PutDocument c d v ts => sdb_document_put_in_mutation collect leaf_capacity c d v ts
  | DeleteDocument c d => sdb_document_delete_in_mutation collect c d
  end.

(** The term can be a term of document [d]: it names an index, and no other document
    has the value of a unique one. *)
Definition term_allowed (w : view) (c d : bytes) (t : sdb_index_term) : Prop :=
  term_ok t /\ is_Some (v_indexes w !! (c, it_index_name t))
  /\ (v_indexes w !! (c, it_index_name t) = Some true -> forall d' ts, v_terms w !! (c, d') = Some ts -> t ∈ ts -> d' = d).

(** What a successful operation does. *)
Definition view_step (op : change) (w w' : view) : Prop :=
  match op with
  | Put st ns key v =>
      valid ns /\ valid key
      /\ w' = {| v_objects := <[stored st ns key := v]> (v_objects w); v_indexes := v_indexes w; v_terms := v_terms w |}
  | Delete st ns key =>
      is_Some (v_objects w !! stored st ns key)
      /\ w' = {| v_objects := delete (stored st ns key) (v_objects w); v_indexes := v_indexes w; v_terms := v_terms w |}
  | CreateIndex c n u =>
      (v_indexes w !! (c, n) = None \/ v_indexes w !! (c, n) = Some u)
      /\ w' = {| v_objects := v_objects w; v_indexes := <[(c, n) := u]> (v_indexes w); v_terms := v_terms w |}
  | PutDocument c d v ts =>
      valid c /\ valid d /\ Forall (term_allowed w c d) ts
      /\ w' = {| v_objects := <[doc_id c d := v]> (v_objects w); v_indexes := v_indexes w; v_terms := <[(c, d) := ts]> (v_terms w) |}
  | DeleteDocument c d =>
      is_Some (v_objects w !! doc_id c d)
      /\ w' = {| v_objects := delete (doc_id c d) (v_objects w); v_indexes := v_indexes w; v_terms := delete (c, d) (v_terms w) |}
  end.

Lemma view_mono (m : gmap bytes bytes) (g g' : Z) objs defs docs : documents_are m g objs defs docs -> g <= g' -> documents_are m g' objs defs docs.
Proof. intros [[Hi Hs Hn Ho] Hx Hd] Hle; split; [split|..]; try done; intros i v Hv; destruct (Hs i v Hv) as (md & ? & ?); exists md; split; [done|lia]. Qed.

Lemma term_free_allowed (w : view) docs (c d : bytes) (t : sdb_index_term) :
  v_terms w = dc_terms <$> docs -> term_free (v_indexes w) docs c d t -> term_allowed w c d t.
Proof.
  intros Ht (Hok & Hdef & Hu); do 2 (split; [done|]); intros E d' ts Hts Hin; rewrite Ht, lookup_fmap, fmap_Some in Hts.
  destruct Hts as (x & Hx & ->); by eapply Hu.
Qed.

(** A unique value has one document. *)
Lemma view_unique (m : gmap bytes bytes) (g : Z) (w : view) docs (c d d' : bytes) (ts ts' : list sdb_index_term) (t : sdb_index_term) :
  view_is m g w docs -> v_indexes w !! (c, it_index_name t) = Some true ->
  v_terms w !! (c, d) = Some ts -> v_terms w !! (c, d') = Some ts' -> t ∈ ts -> t ∈ ts' -> d = d'.
Proof.
  intros [[_ Hix _] Ht _ _] Hu Hd Hd' Hin Hin'; rewrite Ht, lookup_fmap, fmap_Some in Hd, Hd'.
  destruct Hd as (x & Hx & ->), Hd' as (x' & Hx' & ->); by eapply owner_unique.
Qed.

(** ** The counter row *)

Lemma drop_version_counter (i : object_id) (m m' : gmap bytes bytes) (c : Z) (old : option sdb_object_metadata) :
  id_ok i -> version_is m c i old -> drop_version i old m' !! row_key RowCounter = m' !! row_key RowCounter.
Proof. intros Hi Hv; by rewrite (drop_version_elsewhere i m c old Hi Hv). Qed.

Lemma put_chunks_counter (i : object_id) (md : sdb_object_metadata) (n : Z) (v : bytes) (m : gmap bytes bytes) :
  id_ok i -> metadata_typed md ->
  put_chunks i (om_generation md) (om_chunk_size md) v (Z.to_nat (om_chunk_count md)) 0 (counter_row_of n m) !! row_key RowCounter
  = Some (le_split 8 n).
Proof.
  intros Hi (_ & Hg & _ & Hc & _); rewrite put_chunks_other; [apply lookup_insert_eq|].
  intros j Hj; apply row_key_ne; [done|apply chunk_row_ok; (done || lia)|done].
Qed.

Lemma put_rows_counter (i : object_id) (m : gmap bytes bytes) (c : Z) (old : option sdb_object_metadata) (md : sdb_object_metadata) (v : bytes) :
  id_ok i -> version_is m c i old -> metadata_typed md -> put_rows i md v old m !! row_key RowCounter = Some (le_split 8 (om_generation md)).
Proof.
  intros Hi Hv Hty; unfold put_rows, written_rows; rewrite (drop_version_counter i m _ c) by done.
  rewrite lookup_insert_ne by (apply row_key_ne; [by apply object_row_ok|done|done]); by apply put_chunks_counter.
Qed.

Lemma delete_rows_counter (i : object_id) (m : gmap bytes bytes) (c : Z) (old : option sdb_object_metadata) :
  id_ok i -> version_is m c i old -> delete_rows i old m !! row_key RowCounter = m !! row_key RowCounter.
Proof.
  intros Hi Hv; unfold delete_rows; rewrite lookup_delete_ne by (apply row_key_ne; [by apply object_row_ok|done|done]).
  by rewrite (drop_version_counter i m _ c).
Qed.

(** ** The operations *)

Definition change_valid (op : change) : bool :=
  match op with
  | Put _ ns key _ | Delete _ ns key => sdb_engine_bytes_valid ns && sdb_engine_bytes_valid key
  | CreateIndex c n _ => sdb_engine_bytes_valid c && sdb_engine_bytes_valid n
  | PutDocument c d _ ts => sdb_engine_bytes_valid c && sdb_engine_bytes_valid d && (Z.of_nat (length ts) <=? UINT16_MAX)
  | DeleteDocument c d => sdb_engine_bytes_valid c && sdb_engine_bytes_valid d
  end.

Section Operations.
Context {B : Type} `{!Rows B}.
Context (collect : bytes -> bytes -> result (list (sdb_index_term * Z))) (leaf_capacity : Z).

Lemma poison_kept {A} (op : engineM A) (s : engine) (e : sdb_status) : op s = (Err e, s) -> sdb_mutation_poison_on_partial op s = (Err e, s).
Proof. intros H; unfold sdb_mutation_poison_on_partial; by rewrite H, Nat.eqb_refl, andb_false_r. Qed.

Lemma previous_refused {A} (i : object_id) (s : engine (B := B)) (k : option sdb_object_metadata -> engineM A) :
  0 <= oi_kind i < 256 -> names_valid i = false ->
  (previous_version (oi_kind i) (oi_namespace i) (oi_key i) ≫= k) s = (Err SDB_E_INVALID_ARGUMENT, s).
Proof. intros Hk Hn; unfold previous_version, engine_find, mbind, engineM_bind; by rewrite read_metadata_invalid. Qed.

Lemma op_refused (op : change) (s : engine (B := B)) :
  change_valid op = false -> engine_op collect leaf_capacity op s = (Err SDB_E_INVALID_ARGUMENT, s).
Proof.
  destruct op as [st ns key v|st ns key|c n u|c d v ts|c d]; cbn [change_valid engine_op]; intros Hv.
  - apply poison_kept, (previous_refused (stored st ns key)); [by destruct st|done].
  - apply poison_kept, (previous_refused (stored st ns key)); [by destruct st|done].
  - unfold sdb_index_create_in_mutation, engine_find, mbind, engineM_bind, sdb_index_definition; rewrite base_key_eq by lia; unfold term_key_valid; by rewrite Hv.
  - unfold sdb_document_put_in_mutation; destruct (sdb_engine_bytes_valid d) eqn:Hd; [|done]; cbn [negb orb].
    rewrite Z.gtb_ltb, Z.ltb_antisym; destruct (Z.of_nat (length ts) <=? UINT16_MAX) eqn:Hl; cbn [negb]; [|done].
    rewrite !andb_true_r in Hv; apply poison_kept, (previous_refused (doc_id c d)); [done|]; unfold names_valid; cbn; by rewrite Hv.
  - unfold sdb_document_delete_in_mutation; destruct (sdb_engine_bytes_valid d) eqn:Hd; [|done]; cbn [negb].
    rewrite andb_true_r in Hv; apply poison_kept; unfold ignore_not_found, engine_read; unfold mbind at 1 2, engineM_bind at 1 2.
    pose proof (read_metadata_invalid (rows_get (en_rows s)) (doc_id c d)) as Hr; cbn [oi_kind oi_namespace oi_key] in Hr; rewrite Hr; [done|done|].
    unfold names_valid; cbn; by rewrite Hv.
Qed.

Context `{!RowsLaws B} (b0 : B).

(** The batch is intact and contains [w]. *)
Definition contains (s : engine (B := B)) (w : view) : Prop :=
  exists m g docs, holds b0 s m (en_generation s) /\ view_is m g w docs /\ g <= en_generation s <= UINT64_MAX.

Definition failed (s : engine (B := B)) (w : view) (e : sdb_status) (s' : engine (B := B)) : Prop :=
  e <> SDB_OK /\ en_generation s <= en_generation s' <= UINT64_MAX
  /\ (rows_failure (en_rows s') <> SDB_OK /\ rows_from b0 (en_rows s') \/ contains s' w).

Definition changed (op : change) (s : engine (B := B)) (w : view) (s' : engine (B := B)) : Prop :=
  en_generation s <= en_generation s' /\ exists w', view_step op w w' /\ contains s' w'.

Lemma contains_intro (s : engine) (w : view) (m : gmap bytes bytes) (g n : Z) docs :
  holds b0 s m n -> view_is m g w docs -> g <= n <= UINT64_MAX -> contains s w.
Proof. intros Hs Hv Hg; destruct (Hs) as (Hm & E & Hf); exists m, g, docs; by rewrite E. Qed.

Lemma counted_view (m : gmap bytes bytes) (g n : Z) (w : view) docs :
  view_is m g w docs -> g <= n <= UINT64_MAX -> view_is (counter_row_of n m) n w docs.
Proof.
  intros [Hd Ht Hk [Hr _]] Hn; split; [eapply documents_counted, view_mono; [done|lia]|done|by apply known_counted|].
  split; [lia|]; right; apply lookup_insert_eq.
Qed.

Lemma clean_failed (s s' : engine) (w : view) (m : gmap bytes bytes) (g : Z) docs (e : sdb_status) :
  view_is m g w docs -> g <= en_generation s <= UINT64_MAX -> fails_clean b0 m (en_generation s) e s' -> failed s w e s'.
Proof.
  intros Hv Hg [He H]; split; [done|]; destruct H as [(Hf & Hr & Hb)|[H|[Hlt H]]]; (split; [|(by left) || right]).
  - done.
  - destruct H as (_ & -> & _); lia.
  - by eapply contains_intro.
  - destruct H as (_ & -> & _); lia.
  - eapply contains_intro; [done|apply (counted_view _ g); [done|lia]|lia].
Qed.

Lemma stops_failed (s s' : engine) (w : view) (e : sdb_status) : en_generation s <= UINT64_MAX -> stops b0 e s' (en_generation s) -> failed s w e s'.
Proof. intros Hg [(He & Hf & Hb) E]; split; [done|]; rewrite E; split; [lia|by left]. Qed.

Lemma kept_failed (s : engine) (w : view) (e : sdb_status) : contains s w -> e <> SDB_OK -> failed s w e s.
Proof. intros Hc He; split; [done|]; split; [|by right]; destruct Hc as (m & g & docs & _ & _ & ?); lia. Qed.

Lemma store_id (st : store) (ns key : bytes) : valid ns -> valid key -> id_ok (stored st ns key).
Proof. intros Hn Hk; split; [by destruct st|]; unfold names_valid; cbn; by rewrite Hn, Hk. Qed.

Abbreviation run_op op := (engine_op (B := B) collect leaf_capacity op).

Lemma put_runs (st : store) (ns key v : bytes) (s : engine) (w : view) :
  valid ns -> valid key -> contains s w -> runs (run_op (Put st ns key v)) s (fun _ => changed (Put st ns key v) s w) (failed s w).
Proof.
  intros Hn Hk (m & g & docs & Hs & Hv & Hg); pose proof (store_id st ns key Hn Hk) as Hi; destruct (Hv) as [Hd Ht Hrk [Hc _]].
  destruct (objects_version m g _ _ (da_objects _ _ _ _ _ Hd) Hi) as (old & Hold & _).
  eapply runs_impl; [apply (object_put_runs b0 leaf_capacity s m (en_generation s) g _ v old Hi Hs); [lia|lia|done]| |].
  2: intros e s'; by eapply clean_failed.
  cbn beta; intros _ s' (md & Hmd & Hgen & Hlt & Hs'); pose proof (put_rows_effect _ m g old Hi Hold md v Hmd ltac:(lia)) as He; destruct (Hmd) as (_ & Hty & _).
  split; [destruct Hs' as (_ & -> & _); lia|]; eexists; split; [split; [done|]; split; [done|reflexivity]|].
  eapply (contains_intro _ _ _ (om_generation md)); [exact Hs'| |lia]; split; cbn [v_objects v_indexes v_terms].
  - apply (documents_object_effect m _ g (om_generation md) _ _ _ _ (Some (md, v)) Hd Hi); [by destruct st|done|lia|intros ? ? [= -> ->]; lia].
  - exact Ht.
  - by apply known_put_rows.
  - split; [lia|]; right; by apply (put_rows_counter _ m g).
Qed.

Lemma delete_view (m : gmap bytes bytes) (g : Z) (w : view) docs (i : object_id) (md : sdb_object_metadata) :
  id_ok i -> oi_kind i <> SDB_OBJECT_DOCUMENT -> view_is m g w docs -> version_is m g i (Some md) ->
  view_is (delete_rows i (Some md) m) g {| v_objects := delete i (v_objects w); v_indexes := v_indexes w; v_terms := v_terms w |} docs.
Proof.
  intros Hi Hk [Hd Ht Hrk [Hc Hrow]] Hold; pose proof (delete_rows_effect i m g _ Hi Hold) as He; split; cbn [v_objects v_indexes v_terms].
  - apply (documents_object_effect m _ g g _ _ _ i None Hd Hi Hk He); [lia|done].
  - exact Ht.
  - by apply known_delete_rows.
  - split; [done|]; by rewrite (delete_rows_counter i m g).
Qed.

Lemma delete_runs (st : store) (ns key : bytes) (s : engine) (w : view) :
  valid ns -> valid key -> contains s w -> runs (run_op (Delete st ns key)) s (fun _ => changed (Delete st ns key) s w) (failed s w).
Proof.
  intros Hn Hk Hct; pose proof Hct as (m & g & docs & Hs & Hv & Hg); pose proof (store_id st ns key Hn Hk) as Hi.
  destruct (objects_version m g _ _ (da_objects _ _ _ _ _ (vw_documents _ _ _ _ Hv)) Hi) as ([md|] & Hold & Hiff).
  - eapply runs_impl; [apply (object_delete_runs b0 s m (en_generation s) g (stored st ns key) md Hi Hs Hold)| |].
    + cbn beta; intros _ s' Hs'; split; [destruct Hs' as (_ & -> & _); lia|]; eexists; split; [split; [by apply Hiff|reflexivity]|].
      eapply contains_intro; [exact Hs'|apply delete_view; [done|by destruct st|done|done]|lia].
    + intros e s'; apply stops_failed; lia.
  - unfold runs; cbn [engine_op].
    pose proof (object_delete_absent b0 s m (en_generation s) g (stored st ns key) Hi Hs Hold) as Ha; cbn [oi_kind oi_namespace oi_key] in Ha; rewrite Ha.
    by apply kept_failed.
Qed.

Lemma create_index_runs (c n : bytes) (u : bool) (s : engine) (w : view) :
  valid c -> valid n -> contains s w -> runs (run_op (CreateIndex c n u)) s (fun _ => changed (CreateIndex c n u) s w) (failed s w).
Proof.
  intros Hc Hn Hct; pose proof Hct as (m & g & docs & Hs & Hv & Hg); destruct (Hv) as [Hd Ht Hrk [Hcr Hrow]].
  eapply runs_impl; [apply (index_create_runs b0 s m (en_generation s) g _ _ _ c n u Hc Hn Hs Hd)| |].
  - cbn beta; intros _ s' [[E ->]|[E Hs']].
    + split; [lia|]; exists w; split; [|done]; split; [by right|]; rewrite insert_id by done; by destruct w.
    + split; [destruct Hs' as (_ & -> & _); lia|]; eexists; split; [split; [by left|reflexivity]|].
      assert (Hrv : row_valid (RowDefinition c n)) by (split; [cbn; auto using valid_name|done]).
      eapply (contains_intro _ _ _ g); [exact Hs'| |lia]; split; cbn [v_objects v_indexes v_terms]; [by apply documents_define|exact Ht|by apply known_insert|].
      split; [done|]; by rewrite lookup_insert_ne by (apply row_key_ne; [apply Hrv|done|done]).
  - intros e s' [H|(-> & _ & ->)]; [apply stops_failed; (done || lia)|by apply kept_failed].
Qed.

Lemma document_view (m : gmap bytes bytes) (g : Z) (w : view) docs (c d : bytes) (md : sdb_object_metadata) (v : bytes)
    (old : option sdb_object_metadata) (ts : list sdb_index_term) :
  valid c -> valid d -> view_is m g w docs -> version_is m g (doc_id c d) old -> describes md SDB_OBJECT_DOCUMENT v -> g < om_generation md ->
  Forall (term_free (v_indexes w) docs c d) ts -> Z.of_nat (length ts) <= UINT16_MAX ->
  view_is (document_rows c d m (v_indexes w) docs md v old {| dc_generation := om_generation md; dc_terms := ts |}) (om_generation md)
    {| v_objects := <[doc_id c d := v]> (v_objects w); v_indexes := v_indexes w; v_terms := <[(c, d) := ts]> (v_terms w) |}
    (<[(c, d) := {| dc_generation := om_generation md; dc_terms := ts |}]> docs).
Proof.
  intros Hc Hd [Hdo Ht Hrk [Hcr _]] Hold Hmd Hlt Hts Hl; destruct (Hmd) as (_ & Hty & _); pose proof (document_id_ok c d Hc Hd) as Hi.
  assert (Hto : Forall term_ok ts) by (eapply List.Forall_impl; [|exact Hts]; by intros t [? _]).
  split; cbn [v_objects v_indexes v_terms].
  - by apply (documents_put c d Hc Hd m g).
  - by rewrite Ht, fmap_insert.
  - by apply known_document_rows.
  - assert (Hgr : 0 <= om_generation md <= UINT64_MAX) by (destruct Hty as (_ & ? & _); unfold UINT64_MAX; lia); split; [done|]; right.
    unfold document_rows; rewrite (drop_version_counter _ m _ g) by done; rewrite lookup_insert_ne by (apply row_key_ne; [by apply object_row_ok|done|done]).
    rewrite index_updates_objects; [by apply put_chunks_counter|done|done|]; apply Forall_app; split.
    + apply (old_updates_ok c d Hc Hd m _ docs (da_indexes _ _ _ _ _ Hdo)).
    + eapply new_updates_ok; [done|done|]; by eapply (new_document_ok c d Hc Hd m g).
Qed.

Lemma put_document_runs (c d v : bytes) (ts : list sdb_index_term) (s : engine) (w : view) :
  valid c -> valid d -> Z.of_nat (length ts) <= UINT16_MAX -> contains s w ->
  runs (run_op (PutDocument c d v ts)) s (fun _ => changed (PutDocument c d v ts) s w) (failed s w).
Proof.
  intros Hc Hd Hl (m & g & docs & Hs & Hv & Hg); destruct (Hv) as [Hdo Ht Hrk [Hcr _]].
  eapply runs_impl; [apply (document_put_runs b0 collect c d Hc Hd m g _ _ docs Hdo leaf_capacity v ts s (en_generation s) Hl Hs); lia| |].
  2: intros e s'; by eapply clean_failed.
  cbn beta; intros _ s' (md & old & Hgen & Hlt & Hmd & Hts & Hold & Hs'); split; [destruct Hs' as (_ & -> & _); lia|].
  eexists; split; [split; [done|]; split; [done|]; split; [|reflexivity]; eapply List.Forall_impl; [|exact Hts]; intros t; by apply term_free_allowed|].
  eapply (contains_intro _ _ _ (om_generation md)); [exact Hs'|apply (document_view m g); (done || lia)|lia].
Qed.

Lemma delete_document_view (m : gmap bytes bytes) (g : Z) (w : view) docs (c d : bytes) (md : sdb_object_metadata) :
  valid c -> valid d -> view_is m g w docs -> version_is m g (doc_id c d) (Some md) ->
  view_is (delete_rows (doc_id c d) (Some md) (apply_updates (index_updates c d (v_indexes w) docs None) m)) g
    {| v_objects := delete (doc_id c d) (v_objects w); v_indexes := v_indexes w; v_terms := delete (c, d) (v_terms w) |} (delete (c, d) docs).
Proof.
  intros Hc Hd [Hdo Ht Hrk [Hcr Hrow]] Hold; pose proof (document_id_ok c d Hc Hd) as Hi; split; cbn [v_objects v_indexes v_terms].
  - by apply (documents_delete c d Hc Hd m g).
  - by rewrite Ht, fmap_delete.
  - by apply known_delete_rows, known_reclaimed.
  - split; [done|]; pose proof (reclaimed_objects c d Hc Hd m g _ _ docs Hdo) as Hso.
    rewrite (delete_rows_counter _ _ g) by (done || by eapply version_same).
    rewrite index_updates_objects; [done|done|done|]; apply Forall_app; split; [|constructor].
    apply (old_updates_ok c d Hc Hd m _ docs (da_indexes _ _ _ _ _ Hdo)).
Qed.

Lemma delete_document_runs (c d : bytes) (s : engine) (w : view) :
  valid c -> valid d -> contains s w -> runs (run_op (DeleteDocument c d)) s (fun _ => changed (DeleteDocument c d) s w) (failed s w).
Proof.
  intros Hc Hd Hct; pose proof Hct as (m & g & docs & Hs & Hv & Hg); pose proof (document_id_ok c d Hc Hd) as Hi.
  pose proof (vw_documents _ _ _ _ Hv) as Hdo; destruct (objects_version m g _ _ (da_objects _ _ _ _ _ Hdo) Hi) as ([md|] & Hold & Hiff).
  - eapply runs_impl; [apply (document_delete_runs b0 collect c d Hc Hd m g _ _ docs Hdo md s (en_generation s) Hs Hold)| |].
    + cbn beta; intros _ s' Hs'; split; [destruct Hs' as (_ & -> & _); lia|]; eexists; split; [split; [by apply Hiff|reflexivity]|].
      eapply contains_intro; [exact Hs'|by apply delete_document_view|lia].
    + intros e s'; apply stops_failed; lia.
  - unfold runs; cbn [engine_op]; rewrite (document_delete_missing b0 collect c d Hc Hd m g s (en_generation s) Hs Hold); by apply kept_failed.
Qed.

(** Every operation, on every input. *)
Lemma op_runs (op : change) (s : engine) (w : view) : contains s w -> runs (run_op op) s (fun _ => changed op s w) (failed s w).
Proof.
  intros Hs; destruct (change_valid op) eqn:Hv; [|unfold runs; rewrite op_refused by done; by apply kept_failed].
  destruct op; cbn [change_valid] in Hv; apply andb_true_iff in Hv as [Hv ?]; [| | |apply andb_true_iff in Hv as [Hv ?]|];
    [by apply put_runs|by apply delete_runs|by apply create_index_runs|apply put_document_runs; (done || by apply Z.leb_le)|by apply delete_document_runs].
Qed.

Lemma op_absent (op : change) (s : engine) (w : view) :
  contains s w -> change_valid op = true ->
  match op with
  | Delete st ns key => v_objects w !! stored st ns key = None
  | DeleteDocument c d => v_objects w !! doc_id c d = None
  | _ => False
  end -> run_op op s = (Err SDB_E_NOT_FOUND, s).
Proof.
  intros (m & g & docs & Hs & [Hdo _ _ _] & _) Hv Hn.
  assert (Hold : forall i, id_ok i -> v_objects w !! i = None -> version_is m g i None).
  { intros i Hi E; destruct (objects_version m g _ _ (da_objects _ _ _ _ _ Hdo) Hi) as ([md|] & Hold & Hiff); [|done].
    destruct (proj1 Hiff ltac:(by eexists)); congruence. }
  destruct op as [|st ns key| | |c d]; try done; cbn [change_valid] in Hv; apply andb_true_iff in Hv as [H1 H2]; cbn [engine_op].
  - pose proof (store_id st ns key H1 H2) as Hi; apply (object_delete_absent b0 s m (en_generation s) g (stored st ns key) Hi Hs); auto.
  - apply (document_delete_missing b0 collect c d H1 H2 m g s (en_generation s) Hs); apply Hold; [by apply document_id_ok|done].
Qed.

(** Reads inside the batch. *)
Lemma contains_get (s : engine) (w : view) (i : object_id) (capacity : Z) :
  contains s w -> 0 <= oi_kind i < 256 ->
  sdb_object_get (rows_get (en_rows s)) (oi_kind i) (oi_namespace i) (oi_key i) capacity
  = if names_valid i then get_result (v_objects w !! i) capacity else (Err SDB_E_INVALID_ARGUMENT, None).
Proof. intros (m & g & docs & Hs & Hv & _) Hk; apply (object_get_is _ m (rows_get_law _ _ (proj1 Hs)) g); [apply (vw_documents _ _ _ _ Hv)|done]. Qed.
End Operations.
