(* ===== verification/Engine.v ===== *)
(** * The database handle ([src/engine.c])

    Mutations (one batch, one commit), the auto-commit operations under the engine
    mutex, and explicit transactions with their limits.  The handle keeps the tree, the
    generation counter of the pager and the slots that make operations refuse with
    [SDB_E_BUSY]; a transaction is named by the slot it occupies.  The mutex, the
    process locks, the group-commit tail of the auto-commit calls (see [GroupCommit])
    and allocation failures are not modelled. *)

From stdpp Require Import gmap.
From S2P Require Import Prelude Status Codec Keys BtreePage PagerInterface BtreeNode Btree BtreeMap BtreeCursor EngineKeys EngineRows EngineObject EngineDocument EngineScan.

Definition SDB_TRANSACTION_MAX_OPERATIONS : Z := 10000.
Definition SDB_TRANSACTION_MAX_LOGICAL_BYTES : Z := 67108864.

Section Engine.
Context {P T : Type} `{!PagerOps P T}.

Record sdb_engine_mutation := {
  mu_batch : sdb_btree_batch (T := T);
  mu_active : bool
}.

Record sdb_transaction := {
  tx_mutation : sdb_engine_mutation;
  tx_operation_count : Z;
  tx_logical_byte_count : Z
}.

(** A read snapshot; [version] is the generation it was opened at. *)
Record sdb_snapshot := {
  sn_version : Z;
  sn_open_cursors : Z
}.

Record sdb_database := {
  db_tree : sdb_btree (P := P);
  db_generation : Z; (* pager.next_object_generation *)
  db_open : bool;
  db_callback_depth : Z;
  db_transaction : option sdb_transaction; (* active_transaction *)
  db_snapshot : option sdb_snapshot; (* active_snapshot *)
  db_commit_in_flight : Z
}.

Definition set_state (db : sdb_database) (tree : sdb_btree) (generation : Z) (transaction : option sdb_transaction) : sdb_database :=
  {| db_tree := tree; db_generation := generation; db_open := db_open db; db_callback_depth := db_callback_depth db;
     db_transaction := transaction; db_snapshot := db_snapshot db; db_commit_in_flight := db_commit_in_flight db |}.

Definition leaf_capacity (db : sdb_database) : Z := pager_payload_capacity (t_pager (db_tree db)).

(** ** Mutations *)

Definition sdb_engine_mutation_begin (db : sdb_database) : result sdb_engine_mutation :=
  fail_if negb (db_open db) with SDB_E_INVALID_ARGUMENT ;;
  batch ← sdb_btree_batch_begin (db_tree db);
  Ok {| mu_batch := batch; mu_active := true |}.

(** The status and the pager the mutation leaves. *)
Definition sdb_engine_mutation_commit (mutation : sdb_engine_mutation) : sdb_status * P :=
  if negb (mu_active mutation) then (SDB_E_INVALID_ARGUMENT, b_pager (mu_batch mutation))
  else sdb_btree_batch_commit (mu_batch mutation).

Definition sdb_engine_mutation_abort (mutation : sdb_engine_mutation) : P :=
  if mu_active mutation then sdb_btree_batch_abort (mu_batch mutation) else b_pager (mu_batch mutation).

Definition sdb_engine_mutation_finish (mutation : sdb_engine_mutation) (status : sdb_status) : sdb_status * P :=
  if bool_decide (status = SDB_OK) then sdb_engine_mutation_commit mutation
  else (status, sdb_engine_mutation_abort mutation).

(** One operation in a mutation of its own. *)
Definition in_mutation (db : sdb_database) (op : engineM unit) : sdb_status * sdb_database :=
  match sdb_engine_mutation_begin db with
  | Err e => (e, db)
  | Ok mutation =>
      let '(r, s) := op {| en_rows := mu_batch mutation; en_generation := db_generation db |} in
      let '(status, pager) := sdb_engine_mutation_finish {| mu_batch := en_rows s; mu_active := true |} (status_of r) in
      (status, set_state db (with_pager (db_tree db) pager) (en_generation s) (db_transaction db))
  end.

(** ** Auto-commit operations *)

Definition sdb_kv_put_unlocked (db : sdb_database) (namespace_name key value : bytes) : sdb_status * sdb_database :=
  in_mutation db (sdb_object_put (leaf_capacity db) SDB_OBJECT_KV namespace_name key value).
Definition sdb_kv_get_unlocked (db : sdb_database) (namespace_name key : bytes) (value_capacity : Z) : result bytes * option Z :=
  sdb_object_get (sdb_btree_get (db_tree db)) SDB_OBJECT_KV namespace_name key value_capacity.
Definition sdb_kv_delete_unlocked (db : sdb_database) (namespace_name key : bytes) : sdb_status * sdb_database :=
  in_mutation db (sdb_object_delete SDB_OBJECT_KV namespace_name key).

Definition sdb_blob_put_unlocked (db : sdb_database) (namespace_name key value : bytes) : sdb_status * sdb_database :=
  in_mutation db (sdb_object_put (leaf_capacity db) SDB_OBJECT_BLOB namespace_name key value).
Definition sdb_blob_get_unlocked (db : sdb_database) (namespace_name key : bytes) (value_capacity : Z) : result bytes * option Z :=
  sdb_object_get (sdb_btree_get (db_tree db)) SDB_OBJECT_BLOB namespace_name key value_capacity.
Definition sdb_blob_delete_unlocked (db : sdb_database) (namespace_name key : bytes) : sdb_status * sdb_database :=
  in_mutation db (sdb_object_delete SDB_OBJECT_BLOB namespace_name key).

Definition sdb_index_create_unlocked (db : sdb_database) (collection index_name : bytes) (unique : bool) : sdb_status * sdb_database :=
  in_mutation db (sdb_index_create_in_mutation collection index_name unique).

(** The scan for entries without reverse rows; [fuel] bounds the rows it looks at. *)
Definition legacy_terms (fuel : nat) (db : sdb_database) (collection document_id : bytes) : result (list (sdb_index_term * Z)) :=
  default (Err SDB_E_INTERNAL) (sdb_document_collect_legacy_terms fuel (db_tree db) collection document_id).

Definition sdb_document_put_unlocked (fuel : nat) (db : sdb_database) (collection document_id document : bytes) (terms : list sdb_index_term)
  : sdb_status * sdb_database :=
  in_mutation db (sdb_document_put_in_mutation (legacy_terms fuel db) (leaf_capacity db) collection document_id document terms).
Definition sdb_document_get_unlocked (db : sdb_database) (collection document_id : bytes) (document_capacity : Z) : result bytes * option Z :=
  sdb_object_get (sdb_btree_get (db_tree db)) SDB_OBJECT_DOCUMENT collection document_id document_capacity.
Definition sdb_document_delete_unlocked (fuel : nat) (db : sdb_database) (collection document_id : bytes) : sdb_status * sdb_database :=
  in_mutation db (sdb_document_delete_in_mutation (legacy_terms fuel db) collection document_id).

(** ** Transactions *)

Definition sdb_transaction_lock (db : sdb_database) : result sdb_transaction :=
  match db_transaction db with
  | None => Err SDB_E_INVALID_ARGUMENT
  | Some tx => fail_if negb (db_open db) || negb (db_callback_depth db =? 0) with SDB_E_BUSY ;; Ok tx
  end.

Definition sdb_transaction_reserve (tx : sdb_transaction) (logical_bytes : Z) : result sdb_transaction :=
  fail_if (tx_operation_count tx >=? SDB_TRANSACTION_MAX_OPERATIONS)
          || (logical_bytes >? SDB_TRANSACTION_MAX_LOGICAL_BYTES)
          || (tx_logical_byte_count tx >? SDB_TRANSACTION_MAX_LOGICAL_BYTES - logical_bytes)
    with SDB_E_OVERFLOW ;;
  Ok {| tx_mutation := tx_mutation tx; tx_operation_count := tx_operation_count tx + 1;
        tx_logical_byte_count := tx_logical_byte_count tx + logical_bytes |}.

Definition sdb_transaction_begin (db : sdb_database) : sdb_status * sdb_database :=
  if negb (db_open db) then (SDB_E_INVALID_ARGUMENT, db)
  else if negb (db_callback_depth db =? 0) || bool_decide (is_Some (db_transaction db)) || bool_decide (is_Some (db_snapshot db))
          || negb (db_commit_in_flight db =? 0)
  then (SDB_E_BUSY, db)
  else
    match sdb_engine_mutation_begin db with
    | Err e => (e, db)
    | Ok mutation =>
        (SDB_OK, set_state db (db_tree db) (db_generation db)
                   (Some {| tx_mutation := mutation; tx_operation_count := 0; tx_logical_byte_count := 0 |}))
    end.

Definition sdb_transaction_commit (db : sdb_database) : sdb_status * sdb_database :=
  match sdb_transaction_lock db with
  | Err e => (e, db)
  | Ok tx =>
      let '(status, pager) := sdb_engine_mutation_commit (tx_mutation tx) in
      (status, set_state db (with_pager (db_tree db) pager) (db_generation db) None)
  end.

Definition sdb_transaction_rollback (db : sdb_database) : sdb_status * sdb_database :=
  match sdb_transaction_lock db with
  | Err e => (e, db)
  | Ok tx => (SDB_OK, set_state db (with_pager (db_tree db) (sdb_engine_mutation_abort (tx_mutation tx))) (db_generation db) None)
  end.

(** The sum of sizes, refused where a [size_t] would overflow. *)
Fixpoint add_sizes (total : Z) (sizes : list Z) : result Z :=
  match sizes with
  | [] => Ok total
  | size :: sizes => fail_if total >? SIZE_MAX - size with SDB_E_OVERFLOW ;; add_sizes (total + size) sizes
  end.

(** A call that changes the transaction: lock, reserve, then the operation on its batch. *)
Definition transaction_update (db : sdb_database) (logical_bytes : result Z) (op : engineM unit) : result unit * sdb_database :=
  match sdb_transaction_lock db with
  | Err e => (Err e, db)
  | Ok tx =>
      match bytes ← logical_bytes; sdb_transaction_reserve tx bytes with
      | Err e => (Err e, db)
      | Ok tx =>
          let '(r, s) := op {| en_rows := mu_batch (tx_mutation tx); en_generation := db_generation db |} in
          (r, set_state db (db_tree db) (en_generation s)
                (Some {| tx_mutation := {| mu_batch := en_rows s; mu_active := mu_active (tx_mutation tx) |};
                         tx_operation_count := tx_operation_count tx; tx_logical_byte_count := tx_logical_byte_count tx |}))
      end
  end.

Definition transaction_get (db : sdb_database) (kind : Z) (namespace_name key : bytes) (value_capacity : Z) : result bytes * option Z :=
  match sdb_transaction_lock db with
  | Err e => (Err e, None)
  | Ok tx => sdb_object_get (sdb_btree_batch_get (mu_batch (tx_mutation tx))) kind namespace_name key value_capacity
  end.

Abbreviation size_of s := (Z.of_nat (length s)).

Definition sdb_transaction_kv_put (db : sdb_database) (namespace_name key value : bytes) : result unit * sdb_database :=
  transaction_update db (add_sizes (size_of namespace_name) [size_of key; size_of value])
    (sdb_object_put (leaf_capacity db) SDB_OBJECT_KV namespace_name key value).
Definition sdb_transaction_kv_get (db : sdb_database) (namespace_name key : bytes) (value_capacity : Z) : result bytes * option Z :=
  transaction_get db SDB_OBJECT_KV namespace_name key value_capacity.
Definition sdb_transaction_kv_delete (db : sdb_database) (namespace_name key : bytes) : result unit * sdb_database :=
  transaction_update db (add_sizes (size_of namespace_name) [size_of key]) (sdb_object_delete SDB_OBJECT_KV namespace_name key).

Definition sdb_transaction_blob_put (db : sdb_database) (namespace_name key value : bytes) : result unit * sdb_database :=
  transaction_update db (add_sizes (size_of namespace_name) [size_of key; size_of value])
    (sdb_object_put (leaf_capacity db) SDB_OBJECT_BLOB namespace_name key value).
Definition sdb_transaction_blob_get (db : sdb_database) (namespace_name key : bytes) (value_capacity : Z) : result bytes * option Z :=
  transaction_get db SDB_OBJECT_BLOB namespace_name key value_capacity.
Definition sdb_transaction_blob_delete (db : sdb_database) (namespace_name key : bytes) : result unit * sdb_database :=
  transaction_update db (add_sizes (size_of namespace_name) [size_of key]) (sdb_object_delete SDB_OBJECT_BLOB namespace_name key).

Definition sdb_transaction_index_create (db : sdb_database) (collection index_name : bytes) (unique : bool) : result unit * sdb_database :=
  transaction_update db (add_sizes (size_of collection) [size_of index_name]) (sdb_index_create_in_mutation collection index_name unique).

(** The logical bytes of a document put. *)
Definition document_bytes (collection document_id document : bytes) (terms : list sdb_index_term) : result Z :=
  total ← add_sizes (size_of collection) [size_of document_id; size_of document];
  (fix loop (logical_bytes : Z) (terms : list sdb_index_term) : result Z :=
     match terms with
     | [] => Ok logical_bytes
     | term :: terms =>
         fail_if (size_of (it_index_name term) >? SIZE_MAX - size_of (it_value term))
                 || (logical_bytes >? SIZE_MAX - size_of (it_index_name term) - size_of (it_value term))
           with SDB_E_OVERFLOW ;;
         loop (logical_bytes + size_of (it_index_name term) + size_of (it_value term)) terms
     end) total terms.

Definition sdb_transaction_document_put (fuel : nat) (db : sdb_database) (collection document_id document : bytes) (terms : list sdb_index_term)
  : result unit * sdb_database :=
  transaction_update db (document_bytes collection document_id document terms)
    (sdb_document_put_in_mutation (legacy_terms fuel db) (leaf_capacity db) collection document_id document terms).
Definition sdb_transaction_document_get (db : sdb_database) (collection document_id : bytes) (document_capacity : Z) : result bytes * option Z :=
  transaction_get db SDB_OBJECT_DOCUMENT collection document_id document_capacity.
Definition sdb_transaction_document_delete (fuel : nat) (db : sdb_database) (collection document_id : bytes) : result unit * sdb_database :=
  transaction_update db (add_sizes (size_of collection) [size_of document_id])
    (sdb_document_delete_in_mutation (legacy_terms fuel db) collection document_id).

End Engine.
