(* ===== verification/EngineApi.v ===== *)
(** * The database refines its contents

    The operations of [Engine] over any store that satisfies [PagerLaws]: an auto-commit
    operation is one step of the contents or changes nothing, a transaction applies all
    its successful operations at commit and none at rollback, and reads return what the
    maps contain. *)

From stdpp Require Import gmap.
From S2P Require Import Prelude Status Codec Keys Sha256 Page Superblock Txn MemoryStore TxnLaws BtreePage PagerInterface BtreeNode BtreeTree Btree BtreeGet BtreeBatch BtreeSteady BtreeMap BtreeCursor BtreeScan EngineKeys EngineRows EngineObject EngineMap EngineDocument EngineIndex EngineReclaim EngineDocumentMap EngineScan EngineScanMap EngineView Engine.

#[local] Opaque sdb_sha256 sdb_constant_time_equal sdb_object_metadata_encode.

(** ** A failed batch refuses every operation *)

Section Dead.
Context {B : Type} `{!Rows B} `{!RowsLaws B}.
Context (collect : bytes -> bytes -> result (list (sdb_index_term * Z))) (leaf_capacity : Z).
Context (s : engine (B := B)) (Hs : rows_failure (en_rows s) <> SDB_OK).

Lemma dead_metadata (i : object_id) :
  0 <= oi_kind i < 256 -> sdb_object_read_metadata (rows_get (en_rows s)) (oi_kind i) (oi_namespace i) (oi_key i) = Err SDB_E_INVALID_ARGUMENT.
Proof.
  intros Hk; destruct (names_valid i) eqn:Hn; [|by apply read_metadata_invalid].
  unfold sdb_object_read_metadata; rewrite object_key_of, Hn by done; cbn [mbind result_bind]; by rewrite rows_refuse.
Qed.

Lemma dead_previous {A} (i : object_id) (k : option sdb_object_metadata -> engineM A) :
  0 <= oi_kind i < 256 -> (previous_version (oi_kind i) (oi_namespace i) (oi_key i) ≫= k) s = (Err SDB_E_INVALID_ARGUMENT, s).
Proof. intros Hk; unfold previous_version, engine_find, mbind, engineM_bind; by rewrite dead_metadata. Qed.

Lemma op_dead (op : change) : engine_op collect leaf_capacity op s = (Err SDB_E_INVALID_ARGUMENT, s).
Proof.
  destruct (change_valid op) eqn:Hv; [|by apply op_refused].
  destruct op as [st ns key v|st ns key|c n u|c d v ts|c d]; cbn [change_valid engine_op] in *.
  - apply poison_kept, (dead_previous (stored st ns key)); by destruct st.
  - apply poison_kept, (dead_previous (stored st ns key)); by destruct st.
  - unfold sdb_index_create_in_mutation, engine_find, mbind, engineM_bind, sdb_index_definition; rewrite base_key_eq by lia; unfold term_key_valid.
    rewrite Hv; cbn [andb length Z.of_nat Z.leb]; rewrite (proj2 (Z.leb_le _ _)) by (vm_compute; congruence); cbn [mbind result_bind]; by rewrite rows_refuse.
  - unfold sdb_document_put_in_mutation; destruct (_ || _); [done|]; by apply poison_kept, (dead_previous (doc_id c d)).
  - unfold sdb_document_delete_in_mutation; destruct (negb _); [done|]; apply poison_kept; unfold ignore_not_found, engine_read.
    unfold mbind at 1 2, engineM_bind at 1 2; pose proof (dead_metadata (doc_id c d)) as Hr; cbn [oi_kind oi_namespace oi_key] in Hr; by rewrite Hr.
Qed.
End Dead.

Section Api.
Context {P T : Type} `{!PagerOps P T} `{!PagerLaws P T}.
Abbreviation database := (sdb_database (P := P) (T := T)).

Definition database_is (db : database) (w : view) : Prop :=
  db_open db = true /\ exists m g docs, tree_is (db_tree db) m /\ view_is m g w docs /\ g <= db_generation db <= UINT64_MAX.

(** The auto-commit operation and the transaction operation of a change. *)
Definition apply_change (fuel : nat) (db : database) (op : change) : sdb_status * database :=
  match op with
  | Put Kv ns key v => sdb_kv_put_unlocked db ns key v
  | Put Blob ns key v => sdb_blob_put_unlocked db ns key v
  | Delete Kv ns key => sdb_kv_delete_unlocked db ns key
  | Delete Blob ns key => sdb_blob_delete_unlocked db ns key
  | CreateIndex c n u => sdb_index_create_unlocked db c n u
  | PutDocument c d v ts => sdb_document_put_unlocked fuel db c d v ts
  | DeleteDocument c d => sdb_document_delete_unlocked fuel db c d
  end.

Definition transaction_change (fuel : nat) (db : database) (op : change) : result unit * database :=
  match op with
  | Put Kv ns key v => sdb_transaction_kv_put db ns key v
  | Put Blob ns key v => sdb_transaction_blob_put db ns key v
  | Delete Kv ns key => sdb_transaction_kv_delete db ns key
  | Delete Blob ns key => sdb_transaction_blob_delete db ns key
  | CreateIndex c n u => sdb_transaction_index_create db c n u
  | PutDocument c d v ts => sdb_transaction_document_put fuel db c d v ts
  | DeleteDocument c d => sdb_transaction_document_delete fuel db c d
  end.

Abbreviation op_of fuel db op := (engine_op (legacy_terms fuel db) (leaf_capacity db) op).

Lemma apply_change_eq (fuel : nat) (db : database) (op : change) : apply_change fuel db op = in_mutation db (op_of fuel db op).
Proof. by destruct op as [[]|[]| | |]. Qed.

Lemma add_sizes_err (sizes : list Z) (total : Z) (e : sdb_status) : add_sizes total sizes = Err e -> e = SDB_E_OVERFLOW.
Proof. revert total; induction sizes as [|n sizes IH]; intros total; cbn [add_sizes]; [done|]; unfold check; destruct (_ >? _); [by intros [=]|apply IH]. Qed.

Lemma document_bytes_err (c d v : bytes) (ts : list sdb_index_term) (e : sdb_status) : document_bytes c d v ts = Err e -> e = SDB_E_OVERFLOW.
Proof.
  unfold document_bytes; destruct (add_sizes _ _) as [total|e'] eqn:Ea; cbn [mbind result_bind]; [|intros [= <-]; by eapply add_sizes_err].
  clear Ea; revert total; induction ts as [|t ts IH]; intros total; [done|]; unfold check at 1; destruct (_ || _); [by intros [=]|].
  apply IH.
Qed.

Lemma transaction_change_eq (fuel : nat) (db : database) (op : change) :
  exists bytes, transaction_change fuel db op = transaction_update db bytes (op_of fuel db op) /\ forall e, bytes = Err e -> e = SDB_E_OVERFLOW.
Proof.
  destruct op as [[]|[]| | |]; eexists; (split; [reflexivity|]); intros e; first [apply add_sizes_err|apply document_bytes_err].
Qed.

(** ** One mutation *)

Lemma begin_contains (db : database) (w : view) (b0 : sdb_btree_batch) :
  database_is db w -> sdb_btree_batch_begin (db_tree db) = Ok b0 ->
  contains b0 {| en_rows := b0; en_generation := db_generation db |} w
  /\ pager_eqv (b_pager b0) (t_pager (db_tree db)) /\ b_root_page b0 = t_root_page (db_tree db).
Proof.
  intros (_ & m & g & docs & Ht & Hv & Hg) Hb; destruct (begin_is _ _ _ Ht Hb) as (Hbi & He & _ & Hr); split; [|done].
  exists m, g, docs; split; [|done]; split; [done|]; by split.
Qed.

Lemma set_state_is (db : database) (tree : sdb_btree) (n : Z) (tx : option sdb_transaction) (w : view) (m : gmap bytes bytes) (g : Z) docs :
  db_open db = true -> tree_is tree m -> view_is m g w docs -> g <= n <= UINT64_MAX -> database_is (set_state db tree n tx) w.
Proof. intros Ho Ht Hv Hg; split; [done|]; by exists m, g, docs. Qed.

(** The database as it was, after its pager has given the mutation up. *)
Lemma unchanged_database (db : database) (w : view) (pager : P) (n : Z) (tx : option sdb_transaction) :
  database_is db w -> pager_eqv pager (t_pager (db_tree db)) -> db_generation db <= n <= UINT64_MAX ->
  database_is (set_state db (with_pager (db_tree db) pager) n tx) w.
Proof. intros (Ho & m & g & docs & Ht & Hv & Hg) He Hn; eapply set_state_is; [done|by apply tree_is_eqv|done|lia]. Qed.

Section Commit.
Context (db : database) (w : view) (Hdb : database_is db w) (b0 : sdb_btree_batch (T := T)) (Hb0 : sdb_btree_batch_begin (db_tree db) = Ok b0).
Context (s : engine (B := sdb_btree_batch (T := T))) (tx : option (sdb_transaction (T := T))).

Lemma from_pager : rows_from b0 (en_rows s) -> pager_eqv (b_pager (en_rows s)) (t_pager (db_tree db)).
Proof. intros [He _]; destruct (begin_contains db w b0 Hdb Hb0) as (_ & Hp & _); by rewrite He, Hp. Qed.

Lemma commit_contains (w' : view) (pager : P) :
  contains b0 s w' -> sdb_btree_batch_commit (en_rows s) = (SDB_OK, pager) -> pager_usable pager = true ->
  database_is (set_state db (with_pager (db_tree db) pager) (en_generation s) tx) w'.
Proof.
  intros (m & g & docs & (Hm & _ & Hf) & Hv & Hg) Hc Hus; destruct (Hdb) as (Ho & m0 & g0 & docs0 & Ht & _).
  destruct (begin_contains db w b0 Hdb Hb0) as (_ & Hp & Hr); eapply set_state_is; [done| |done|lia].
  destruct (Ht) as (t & h & Hth & _); eapply (commit_is (en_rows s)); [exact Hm|apply Hth|apply Hth| |by apply from_pager|done|done].
  destruct Hf as [_ Hf]; destruct Hf as [_ ->]; [exact (rows_intact (en_rows s) m Hm)|done].
Qed.

Lemma commit_refused (e : sdb_status) (pager : P) :
  rows_from b0 (en_rows s) -> db_generation db <= en_generation s <= UINT64_MAX -> sdb_btree_batch_commit (en_rows s) = (e, pager) -> e <> SDB_OK ->
  database_is (set_state db (with_pager (db_tree db) pager) (en_generation s) tx) w \/ exists txn, txn_commit txn = (Err e, pager).
Proof.
  intros Hf Hg Hc He; destruct (Hdb) as (Ho & m0 & g0 & docs0 & Ht & Hv & Hg0).
  destruct (commit_fails _ _ _ _ _ Ht (from_pager Hf) Hc He) as [Hl|Hr]; [left|by right]; eapply set_state_is; [done|done|done|lia].
Qed.

Lemma abort_database :
  rows_from b0 (en_rows s) -> db_generation db <= en_generation s <= UINT64_MAX ->
  database_is (set_state db (with_pager (db_tree db) (sdb_btree_batch_abort (en_rows s))) (en_generation s) tx) w.
Proof.
  intros Hf Hg; apply unchanged_database; [done| |done]; unfold sdb_btree_batch_abort; rewrite (abort_pager (b_txn (en_rows s))).
  by apply from_pager.
Qed.
End Commit.

Lemma contains_from (b0 : sdb_btree_batch) (s : engine) (w : view) : contains b0 s w -> rows_from b0 (en_rows s) /\ en_generation s <= UINT64_MAX.
Proof. intros (m & g & docs & (_ & _ & Hf) & _ & Hg); split; [done|lia]. Qed.

Lemma failed_from (b0 : sdb_btree_batch) (s s' : engine) (w : view) (e : sdb_status) : failed b0 s w e s' -> rows_from b0 (en_rows s').
Proof. intros (_ & _ & [[_ Hf]|Hc]); [done|]; by apply contains_from in Hc as []. Qed.

(** C2: An auto-commit operation (put or delete of a key-value entry, a blob or a
    document, or the creation of an index) that returns [SDB_OK] has made exactly its
    step of the contents; when it returns an error the contents are unchanged, unless
    the pager failed while committing. *)
Theorem autocommit_refines (fuel : nat) (db db' : database) (w : view) (op : change) (status : sdb_status) :
  database_is db w -> apply_change fuel db op = (status, db') ->
  (status = SDB_OK -> pager_usable (t_pager (db_tree db')) = true -> exists w', view_step op w w' /\ database_is db' w')
  /\ (status <> SDB_OK -> database_is db' w \/ exists txn, txn_commit txn = (Err status, t_pager (db_tree db'))).
Proof.
  intros Hdb; rewrite apply_change_eq; unfold in_mutation, sdb_engine_mutation_begin; rewrite (proj1 Hdb); cbn [negb check].
  destruct (sdb_btree_batch_begin (db_tree db)) as [b0|e] eqn:Eb; cbn [mbind result_bind mu_batch].
  2: { intros [= <- <-]; split; [by intros ->; apply begin_fails in Eb|by left]. }
  destruct (begin_contains db w b0 Hdb Eb) as [Hc _]; pose proof (op_runs (legacy_terms fuel db) (leaf_capacity db) b0 op _ w Hc) as Hr; unfold runs in Hr.
  destruct (op_of fuel db op _) as [[[]|e] s]; unfold sdb_engine_mutation_finish; cbn [status_of].
  - rewrite (bool_decide_eq_true_2 (SDB_OK = SDB_OK)) by done; unfold sdb_engine_mutation_commit; cbn [mu_active mu_batch negb].
    destruct Hr as (Hg & w' & Hst & Hc'); cbn [en_generation] in Hg; destruct (contains_from _ _ _ Hc') as [Hf Hm].
    destruct (sdb_btree_batch_commit (en_rows s)) as [e pager] eqn:Ec; intros [= <- <-]; cbn [db_tree set_state t_pager with_pager]; split.
    + intros -> Hus; exists w'; split; [done|]; by eapply commit_contains.
    + intros He; by eapply commit_refused.
  - pose proof (failed_from _ _ _ _ _ Hr) as Hf; destruct Hr as (He & Hg & _); cbn [en_generation] in Hg.
    rewrite (bool_decide_eq_false_2 (e = SDB_OK)) by done; cbn [sdb_engine_mutation_abort mu_active mu_batch]; intros [= <- <-]; split; [done|].
    intros _; left; by eapply abort_database.
Qed.

(** ** Transactions *)

(** The operations that returned [SDB_OK], in order. *)
Inductive replay : list change -> list (result unit) -> view -> view -> Prop :=
| replay_nil w : replay [] [] w w
| replay_ok op ops rs w1 w2 w3 : view_step op w1 w2 -> replay ops rs w2 w3 -> replay (op :: ops) (Ok tt :: rs) w1 w3
| replay_err op ops e rs w1 w2 : e <> SDB_OK -> replay ops rs w1 w2 -> replay (op :: ops) (Err e :: rs) w1 w2.

Fixpoint run_changes (fuel : nat) (db : database) (ops : list change) : list (result unit) * database :=
  match ops with
  | [] => ([], db)
  | op :: ops =>
      let '(r, db) := transaction_change fuel db op in
      let '(rs, db) := run_changes fuel db ops in (r :: rs, db)
  end.

Definition batch_state (db : database) (tx : sdb_transaction (T := T)) : engine (B := sdb_btree_batch (T := T)) :=
  {| en_rows := mu_batch (tx_mutation tx); en_generation := db_generation db |}.

(** [db] is [db0] with a transaction that contains [w], or has failed. *)
Record session (db0 : database) (b0 : sdb_btree_batch (T := T)) (db : database) (o : option view) : Prop := {
  sn_open : db_open db = true;
  sn_depth : db_callback_depth db = 0;
  sn_tree : db_tree db = db_tree db0;
  sn_slots : db_snapshot db = db_snapshot db0 /\ db_commit_in_flight db = db_commit_in_flight db0;
  sn_generation : db_generation db0 <= db_generation db <= UINT64_MAX;
  sn_transaction : exists tx, db_transaction db = Some tx /\ mu_active (tx_mutation tx) = true
    /\ match o with
       | Some w => contains b0 (batch_state db tx) w
       | None => rows_failure (mu_batch (tx_mutation tx)) <> SDB_OK /\ rows_from b0 (mu_batch (tx_mutation tx))
       end
}.

Lemma session_lock (db0 db : database) (b0 : sdb_btree_batch) (o : option view) :
  session db0 b0 db o -> exists tx, sdb_transaction_lock db = Ok tx /\ db_transaction db = Some tx.
Proof.
  intros [Ho Hd _ _ _ (tx & Htx & _)]; exists tx; split; [|done]; unfold sdb_transaction_lock; rewrite Htx, Ho, Hd; done.
Qed.

Lemma reserve_kept (tx tx' : sdb_transaction (T := T)) (n : Z) : sdb_transaction_reserve tx n = Ok tx' -> tx_mutation tx' = tx_mutation tx.
Proof. unfold sdb_transaction_reserve; intros H; inv_ok H; by injection H as <-. Qed.

(** One operation inside the transaction. *)
Lemma session_step (fuel : nat) (db0 db db' : database) (b0 : sdb_btree_batch) (o : option view) (op : change) (r : result unit) :
  session db0 b0 db o -> transaction_change fuel db op = (r, db') ->
  exists o', session db0 b0 db' o'
    /\ match r with
       | Ok _ => exists w w', o = Some w /\ o' = Some w' /\ view_step op w w'
       | Err e => e <> SDB_OK /\ (o' = o \/ o' = None)
       end.
Proof.
  intros Hs; destruct (transaction_change_eq fuel db op) as (n & -> & Hn); unfold transaction_update.
  destruct (session_lock _ _ _ _ Hs) as (tx & -> & Htx); destruct (n' ← n; sdb_transaction_reserve tx n') as [tx'|e] eqn:Er.
  2: { intros [= <- <-]; exists o; split; [done|]; split; [|by left]; destruct n as [n|e']; cbn [mbind result_bind] in Er; [|injection Er as <-; by rewrite (Hn e')].
       unfold sdb_transaction_reserve, check in Er; destruct (_ || _); [by injection Er as <-|done]. }
  destruct n as [n|]; cbn [mbind result_bind] in Er; [|done]; apply reserve_kept in Er.
  destruct Hs as [Ho Hd Ht Hsl Hg (tx0 & Htx0 & Hact & Hw)]; assert (tx0 = tx) as -> by congruence; rewrite Er.
  assert (Hnew : forall s tx'' o', rows_from b0 (en_rows s) -> db_generation db <= en_generation s <= UINT64_MAX ->
            mu_batch (tx_mutation tx'') = en_rows s -> mu_active (tx_mutation tx'') = true ->
            match o' with Some w => contains b0 s w | None => rows_failure (en_rows s) <> SDB_OK end ->
            session db0 b0 (set_state db (db_tree db) (en_generation s) (Some tx'')) o').
  { intros s tx'' o' Hf Hgs Hb Ha Hco; split; cbn [set_state db_open db_callback_depth db_tree db_snapshot db_commit_in_flight db_generation]; try done; [lia|].
    exists tx''; split; [done|]; split; [done|]; unfold batch_state; cbn [set_state db_generation]; rewrite Hb; destruct o'; [by destruct s|done]. }
  destruct o as [w|].
  - pose proof (op_runs (legacy_terms fuel db) (leaf_capacity db) b0 op _ w Hw) as Hr; unfold runs, batch_state in Hr.
    destruct (op_of fuel db op _) as [[[]|e] s]; intros [= <- <-].
    + destruct Hr as (Hge & w' & Hst & Hc); destruct (contains_from _ _ _ Hc) as [Hf Hm]; exists (Some w'); split; [by apply Hnew|eauto].
    + pose proof (failed_from _ _ _ _ _ Hr) as Hf; destruct Hr as (He & Hge & [[Hfa _]|Hc]).
      * exists None; split; [by apply Hnew|]; split; [done|by right].
      * exists (Some w); split; [by apply Hnew|]; split; [done|by left].
  - destruct Hw as [Hfa Hf]; rewrite op_dead by done; intros [= <- <-]; exists None; split; [|split; [done|by left]].
    apply (Hnew (batch_state db tx)); try done; cbn [batch_state en_generation]; lia.
Qed.

Lemma session_run (fuel : nat) (db0 : database) (b0 : sdb_btree_batch) (ops : list change) : forall db db' rs o,
  session db0 b0 db o -> run_changes fuel db ops = (rs, db') ->
  exists o', session db0 b0 db' o' /\ forall w', o' = Some w' -> exists w, o = Some w /\ replay ops rs w w'.
Proof.
  induction ops as [|op ops IH]; intros db db' rs o Hs; cbn [run_changes].
  { intros [= <- <-]; exists o; split; [done|]; intros w' ->; exists w'; split; [done|constructor]. }
  destruct (transaction_change fuel db op) as [r db1] eqn:E1; destruct (run_changes fuel db1 ops) as [rs1 db2] eqn:E2; intros [= <- <-].
  destruct (session_step fuel db0 db db1 b0 o op r Hs E1) as (o1 & Hs1 & Hr); destruct (IH _ _ _ _ Hs1 E2) as (o' & Hs' & Hw).
  exists o'; split; [done|]; intros w' Ew; destruct (Hw w' Ew) as (w1 & -> & Hrep); destruct r as [[]|e].
  - destruct Hr as (w & w1' & -> & [= <-] & Hst); exists w; split; [done|]; by eapply replay_ok.
  - destruct Hr as [He [<-|?]]; [|done]; exists w1; split; [done|]; by apply replay_err.
Qed.

Lemma begin_session (db db1 : database) (w : view) :
  database_is db w -> sdb_transaction_begin db = (SDB_OK, db1) ->
  exists b0, sdb_btree_batch_begin (db_tree db) = Ok b0 /\ session db b0 db1 (Some w).
Proof.
  intros Hdb; unfold sdb_transaction_begin, sdb_engine_mutation_begin; rewrite (proj1 Hdb); cbn [negb check].
  destruct (_ || _ || _ || _) eqn:Hbusy; [done|]; apply orb_false_iff in Hbusy as [Hbusy _]; apply orb_false_iff in Hbusy as [Hbusy _].
  apply orb_false_iff in Hbusy as [Hdep _]; apply negb_false_iff, Z.eqb_eq in Hdep.
  destruct (sdb_btree_batch_begin (db_tree db)) as [b0|e] eqn:Eb; cbn [mbind result_bind]; [|by intros [= -> _]; apply begin_fails in Eb].
  intros [= <-]; exists b0; split; [done|]; destruct (begin_contains db w b0 Hdb Eb) as [Hc _]; destruct (contains_from _ _ _ Hc) as [_ Hm].
  cbn [en_generation] in Hm; split; cbn [set_state db_open db_callback_depth db_tree db_snapshot db_commit_in_flight db_generation]; try done; [apply Hdb|].
  by eexists.
Qed.

Lemma session_from (db0 db : database) (b0 : sdb_btree_batch) (o : option view) (tx : sdb_transaction) :
  session db0 b0 db o -> db_transaction db = Some tx -> mu_active (tx_mutation tx) = true /\ rows_from b0 (mu_batch (tx_mutation tx)).
Proof.
  intros Hs Htx; destruct (sn_transaction _ _ _ _ Hs) as (tx' & Htx' & Ha & Hw); assert (tx' = tx) as -> by congruence; split; [done|].
  destruct o as [w|]; [by apply contains_from in Hw as []|apply Hw].
Qed.

Lemma database_ext (db db' : database) (w : view) :
  db_open db' = db_open db -> db_tree db' = db_tree db -> db_generation db' = db_generation db -> database_is db w -> database_is db' w.
Proof. intros Ho Ht Hg (? & m & g & docs & ?); split; [by rewrite Ho|]; exists m, g, docs; by rewrite Ht, Hg. Qed.

Lemma dead_commit (b : sdb_btree_batch (T := T)) (pager : P) : b_failure b <> SDB_OK -> sdb_btree_batch_commit b <> (SDB_OK, pager).
Proof.
  intros Hf; unfold sdb_btree_batch_commit; destruct (negb (b_active b)); [done|].
  rewrite (bool_decide_eq_false_2 (b_failure b = SDB_OK)) by done; cbn [negb]; intros [=]; done.
Qed.

Lemma session_commit (db0 db db' : database) (b0 : sdb_btree_batch) (o : option view) (w : view) (status : sdb_status) :
  database_is db0 w -> sdb_btree_batch_begin (db_tree db0) = Ok b0 -> session db0 b0 db o -> sdb_transaction_commit db = (status, db') ->
  db_transaction db' = None
  /\ (status = SDB_OK -> pager_usable (t_pager (db_tree db')) = true -> exists w', o = Some w' /\ database_is db' w')
  /\ (status <> SDB_OK -> database_is db' w \/ exists txn, txn_commit txn = (Err status, t_pager (db_tree db'))).
Proof.
  intros Hdb Hb0 Hs; unfold sdb_transaction_commit; destruct (session_lock _ _ _ _ Hs) as (tx & -> & Htx).
  destruct (session_from _ _ _ _ _ Hs Htx) as [Ha Hf]; unfold sdb_engine_mutation_commit; rewrite Ha; cbn [negb].
  destruct (sdb_btree_batch_commit _) as [e pager] eqn:Ec; intros [= <- <-]; cbn [set_state db_tree t_pager with_pager]; split; [done|].
  assert (Hext : forall v, database_is (set_state db0 (with_pager (db_tree db0) pager) (db_generation db) None) v ->
            database_is (set_state db (with_pager (db_tree db) pager) (db_generation db) None) v).
  { intros v; apply database_ext; cbn [set_state db_open db_tree db_generation]; [by rewrite (sn_open _ _ _ _ Hs), (proj1 Hdb)|by rewrite (sn_tree _ _ _ _ Hs)|done]. }
  split.
  - intros -> Hus; destruct (sn_transaction _ _ _ _ Hs) as (tx' & Htx' & _ & Hw); assert (tx' = tx) as -> by congruence; destruct o as [w'|].
    + exists w'; split; [done|]; apply Hext, (commit_contains db0 w Hdb b0 Hb0 (batch_state db tx) None w' pager Hw Ec Hus).
    + destruct Hw as [Hfa _]; by apply (dead_commit _ pager Hfa) in Ec.
  - intros He; destruct (commit_refused db0 w Hdb b0 Hb0 (batch_state db tx) None e pager Hf (sn_generation _ _ _ _ Hs) Ec He); [left; by apply Hext|by right].
Qed.

Lemma session_rollback (db0 db : database) (b0 : sdb_btree_batch) (o : option view) (w : view) :
  database_is db0 w -> sdb_btree_batch_begin (db_tree db0) = Ok b0 -> session db0 b0 db o ->
  exists db', sdb_transaction_rollback db = (SDB_OK, db') /\ db_transaction db' = None /\ database_is db' w.
Proof.
  intros Hdb Hb0 Hs; unfold sdb_transaction_rollback; destruct (session_lock _ _ _ _ Hs) as (tx & -> & Htx).
  destruct (session_from _ _ _ _ _ Hs Htx) as [Ha Hf]; unfold sdb_engine_mutation_abort; rewrite Ha; eexists; split; [reflexivity|]; split; [done|].
  pose proof (abort_database db0 w Hdb b0 Hb0 (batch_state db tx) None Hf (sn_generation _ _ _ _ Hs)) as H; revert H; apply database_ext;
    cbn [set_state db_open db_tree db_generation batch_state en_generation en_rows]; [by rewrite (sn_open _ _ _ _ Hs), (proj1 Hdb)|by rewrite (sn_tree _ _ _ _ Hs)|done].
Qed.

Lemma transaction_commits (fuel : nat) (db db1 db2 : database) (w : view) (ops : list change) (rs : list (result unit)) :
  database_is db w -> sdb_transaction_begin db = (SDB_OK, db1) -> run_changes fuel db1 ops = (rs, db2) ->
  forall status db3, sdb_transaction_commit db2 = (status, db3) ->
    db_transaction db3 = None
    /\ (status = SDB_OK -> pager_usable (t_pager (db_tree db3)) = true -> exists w', replay ops rs w w' /\ database_is db3 w')
    /\ (status <> SDB_OK -> database_is db3 w \/ exists txn, txn_commit txn = (Err status, t_pager (db_tree db3))).
Proof.
  intros Hdb Hb Hr status db3 Hc; destruct (begin_session _ _ _ Hdb Hb) as (b0 & Hb0 & Hs); destruct (session_run _ _ _ _ _ _ _ _ Hs Hr) as (o & Hs' & Hrep).
  destruct (session_commit _ _ _ _ _ _ _ Hdb Hb0 Hs' Hc) as (Hn & Hok & Herr); split; [done|]; split; [|done].
  intros Es Hus; destruct (Hok Es Hus) as (w' & -> & Hdb3); destruct (Hrep w' eq_refl) as (w0 & [= <-] & ?); eauto.
Qed.

(** C1: A transaction is atomic.  Whatever operations run between begin and commit, a
    commit that returns [SDB_OK] leaves the contents after the operations that
    succeeded, in order, and only those; a commit that fails leaves the contents of
    the beginning unless the pager failed while committing; a rollback always
    succeeds and leaves the contents of the beginning. *)
Theorem transaction_atomic (fuel : nat) (db db1 db2 : database) (w : view) (ops : list change) (rs : list (result unit)) :
  database_is db w -> sdb_transaction_begin db = (SDB_OK, db1) -> run_changes fuel db1 ops = (rs, db2) ->
  (exists db3, sdb_transaction_rollback db2 = (SDB_OK, db3) /\ db_transaction db3 = None /\ database_is db3 w)
  /\ forall status db3, sdb_transaction_commit db2 = (status, db3) ->
     db_transaction db3 = None
     /\ (status = SDB_OK -> pager_usable (t_pager (db_tree db3)) = true -> exists w', replay ops rs w w' /\ database_is db3 w')
     /\ (status <> SDB_OK -> database_is db3 w \/ exists txn, txn_commit txn = (Err status, t_pager (db_tree db3))).
Proof.
  intros Hdb Hb Hr; destruct (begin_session _ _ _ Hdb Hb) as (b0 & Hb0 & Hs); destruct (session_run _ _ _ _ _ _ _ _ Hs Hr) as (o & Hs' & Hrep).
  split; [by eapply session_rollback|by eapply transaction_commits].
Qed.

(** C13: Reads inside a transaction see its own writes: after any operations, a get
    returns what the contents after the successful operations hold, or the
    transaction has failed, refuses every read and cannot commit. *)
Theorem transaction_reads_own_writes (fuel : nat) (db db1 db2 : database) (w : view) (ops : list change) (rs : list (result unit)) :
  database_is db w -> sdb_transaction_begin db = (SDB_OK, db1) -> run_changes fuel db1 ops = (rs, db2) ->
  (exists w', replay ops rs w w' /\ forall i capacity, 0 <= oi_kind i < 256 ->
     transaction_get db2 (oi_kind i) (oi_namespace i) (oi_key i) capacity
     = if names_valid i then get_result (v_objects w' !! i) capacity else (Err SDB_E_INVALID_ARGUMENT, None))
  \/ (forall i capacity, 0 <= oi_kind i < 256 ->
       transaction_get db2 (oi_kind i) (oi_namespace i) (oi_key i) capacity = (Err SDB_E_INVALID_ARGUMENT, None))
    /\ (sdb_transaction_commit db2).1 <> SDB_OK.
Proof.
  intros Hdb Hb Hr; destruct (begin_session _ _ _ Hdb Hb) as (b0 & Hb0 & Hs); destruct (session_run _ _ _ _ _ _ _ _ Hs Hr) as (o & Hs' & Hrep).
  destruct (session_lock _ _ _ _ Hs') as (tx & Hl & Htx); destruct (sn_transaction _ _ _ _ Hs') as (tx' & Htx' & Ha & Hw); assert (tx' = tx) as -> by congruence.
  unfold transaction_get, sdb_transaction_commit; rewrite Hl; destruct o as [w'|].
  - left; destruct (Hrep w' eq_refl) as (w0 & [= <-] & ?); exists w'; split; [done|]; intros i capacity Hk.
    exact (contains_get b0 (batch_state db2 tx) w' i capacity Hw Hk).
  - right; destruct Hw as [Hfa _]; split.
    + intros i capacity Hk; unfold sdb_object_get.
      pose proof (dead_metadata (batch_state db2 tx) Hfa i Hk) as Hm; cbn [batch_state en_rows rows_get batch_rows] in Hm; by rewrite Hm.
    + unfold sdb_engine_mutation_commit; rewrite Ha; cbn [negb]; destruct (sdb_btree_batch_commit _) as [e pager] eqn:Ec; cbn [fst]; intros ->.
      by apply (dead_commit _ pager Hfa) in Ec.
Qed.

(** ** Reads of the committed state *)

(** C12: The gets of key-value entries, blobs and documents return what the contents
    hold, on every name and buffer: the value and its size, [SDB_E_BUFFER_TOO_SMALL]
    with the size, [SDB_E_NOT_FOUND], or [SDB_E_INVALID_ARGUMENT] for a bad name. *)
Theorem database_get_correct (db : database) (w : view) (ns key : bytes) (capacity : Z) :
  database_is db w ->
  let answer kind :=
    if sdb_engine_bytes_valid ns && sdb_engine_bytes_valid key
    then get_result (v_objects w !! {| oi_kind := kind; oi_namespace := ns; oi_key := key |}) capacity
    else (Err SDB_E_INVALID_ARGUMENT, None) in
  sdb_kv_get_unlocked db ns key capacity = answer SDB_OBJECT_KV
  /\ sdb_blob_get_unlocked db ns key capacity = answer SDB_OBJECT_BLOB
  /\ sdb_document_get_unlocked db ns key capacity = answer SDB_OBJECT_DOCUMENT.
Proof.
  intros (_ & m & g & docs & Ht & [Hd _ _ _] & _) answer.
  assert (H : forall kind, 0 <= kind < 256 -> sdb_object_get (sdb_btree_get (db_tree db)) kind ns key capacity = answer kind).
  { intros kind Hk; apply (object_get_is _ m (tree_reads _ _ Ht) g _ {| oi_kind := kind; oi_namespace := ns; oi_key := key |}); [apply Hd|done]. }
  split; [|split]; by apply H.
Qed.

(** An operation without a step fails before anything is committed. *)
Lemma stuck_autocommit (fuel : nat) (db : database) (w : view) (op : change) :
  database_is db w -> (forall w', ~ view_step op w w') -> (apply_change fuel db op).1 <> SDB_OK /\ database_is (apply_change fuel db op).2 w.
Proof.
  intros Hdb Hno; rewrite apply_change_eq; unfold in_mutation, sdb_engine_mutation_begin; rewrite (proj1 Hdb); cbn [negb check].
  destruct (sdb_btree_batch_begin (db_tree db)) as [b0|e] eqn:Eb; cbn [mbind result_bind mu_batch]; [|split; [by apply begin_fails in Eb|done]].
  destruct (begin_contains db w b0 Hdb Eb) as [Hc _]; pose proof (op_runs (legacy_terms fuel db) (leaf_capacity db) b0 op _ w Hc) as Hr; unfold runs in Hr.
  destruct (op_of fuel db op _) as [[[]|e] s]; [destruct Hr as (_ & w' & Hst & _); by destruct (Hno w')|].
  pose proof (failed_from _ _ _ _ _ Hr) as Hf; destruct Hr as (He & Hg & _); cbn [en_generation] in Hg; unfold sdb_engine_mutation_finish; cbn [status_of].
  rewrite (bool_decide_eq_false_2 (e = SDB_OK)) by done; split; [done|]; by eapply abort_database.
Qed.

Lemma stuck_transaction (fuel : nat) (db db1 : database) (w : view) (op : change) :
  database_is db w -> sdb_transaction_begin db = (SDB_OK, db1) -> (forall w', ~ view_step op w w') -> (transaction_change fuel db1 op).1 <> Ok tt.
Proof.
  intros Hdb Hb Hno; destruct (begin_session _ _ _ Hdb Hb) as (b0 & _ & Hs); destruct (transaction_change fuel db1 op) as [r db2] eqn:E.
  destruct (session_step _ _ _ _ _ _ _ _ Hs E) as (o' & _ & Hr); cbn [fst]; intros ->; destruct Hr as (w1 & w' & [= <-] & _ & Hst); by destruct (Hno w').
Qed.


(** C15: Deleting what is not there, a key-value entry, a blob or a document, is reported
    as [SDB_E_NOT_FOUND] (when the store can open a transaction at all), not ignored,
    and changes nothing. *)
Theorem delete_absent_reported (fuel : nat) (db : database) (w : view) (op : change) (b : sdb_btree_batch) :
  database_is db w -> change_valid op = true -> sdb_btree_batch_begin (db_tree db) = Ok b ->
  match op with
  | Delete st ns key => v_objects w !! stored st ns key = None
  | DeleteDocument c d => v_objects w !! doc_id c d = None
  | _ => False
  end ->
  (apply_change fuel db op).1 = SDB_E_NOT_FOUND /\ database_is (apply_change fuel db op).2 w.
Proof.
  intros Hdb Hv Hb Hn; rewrite apply_change_eq; unfold in_mutation, sdb_engine_mutation_begin; rewrite (proj1 Hdb), Hb; cbn [negb check mbind result_bind mu_batch].
  destruct (begin_contains db w b Hdb Hb) as [Hc _]; rewrite (op_absent _ _ b op _ w Hc Hv Hn); cbn [status_of].
  destruct (contains_from _ _ _ Hc) as [Hf Hm]; split; [done|]; by eapply abort_database.
Qed.

(** ** Scans *)

Lemma database_fits (db : database) (m : gmap bytes bytes) :
  pages_fit (t_pager (db_tree db)) -> tree_is (db_tree db) m -> rows_fit (leaf_capacity db) m.
Proof.
  intros Hp (t & h & Hth & <-) k v Hv; apply elem_of_contents in Hv; [|by eapply flatten_sorted].
  pose proof (tree_fits _ t (th_repr _ _ _ Hth) Hp k v Hv); unfold leaf_capacity; lia.
Qed.

(** C10: Visiting an index value calls the visitor for the documents that have the value,
    each exactly once and no other, whatever the visitor computes, until it stops; the
    scan ends within as many steps as there are rows. *)
Theorem index_visit_exact (db : database) (w : view) (c : bytes) (t : sdb_index_term) (depth : Z) :
  database_is db w -> pages_fit (t_pager (db_tree db)) -> valid c -> term_ok t -> depth <> SIZE_MAX ->
  exists ids n, NoDup ids /\ (forall d, d ∈ ids <-> exists ts, v_terms w !! (c, d) = Some ts /\ t ∈ ts)
    /\ forall (A : Type) (visitor : A -> bytes -> A * bool) (fuel : nat) (a : A), (n <= fuel)%nat ->
       sdb_index_visit_unlocked visitor depth fuel (db_tree db) c (it_index_name t) (it_value t) a = Some (visit_list visitor ids 0 a).
Proof.
  intros (_ & m & g & docs & Ht & [[_ Hix _] Hte Hk _] & _) Hfit Hc Hto Hdep; pose proof (database_fits db m Hfit Ht) as Hf; destruct Ht as (pt & h & Hth & <-).
  set (prefix := index_bytes SDB_INDEX_ENTRY_PREFIX c (it_index_name t) (it_value t)).
  destruct (seek_forward (db_tree db) pt h Hth (Some prefix)) as (cur & rest & l1 & Hd & E & Hp & Hfw & Hse).
  destruct (ids_of_spec (db_tree db) pt h Hth Hf _ docs Hix Hk c t Hc Hto l1 rest E Hp) as [Hnd Hids].
  exists (ids_of c t rest), (length rest); split; [done|]; split.
  { intros d; rewrite Hids, Hte; setoid_rewrite lookup_fmap; setoid_rewrite fmap_Some; naive_solver. }
  intros A visitor fuel a Hl; unfold sdb_index_visit_unlocked; destruct Hto as [Hn Hv]; pose proof (valid_size _ Hv) as Hvs.
  rewrite base_key_eq by lia; unfold term_key_valid; rewrite Hc, Hn; cbn [andb]; rewrite (proj2 (Z.leb_le _ _)) by (unfold SDB_ENGINE_MAX_NAME_SIZE; lia).
  cbn [zeros replicate]; rewrite app_nil_r; fold prefix; unfold sdb_btree_cursor_seek; rewrite (th_open _ _ _ Hth); cbn [negb orb].
  assert (Hb : bad_key prefix = false).
  { rewrite <- (bad_key_row (guard_row c t)) by (by apply guard_row_ok); unfold bad_key, prefix; done. }
  rewrite Hb, Hd; by apply (visit_rows_spec (db_tree db) pt h Hth Hf _ docs Hix Hk c t Hc (conj Hn Hv) visitor depth rest Hdep fuel l1).
Qed.

(** C11: Opening a database seeds the generation counter from the counter row or, in its
    absence, from a scan of all rows; either way it ends, and the seeded counter is at
    least every generation in use, so that the database is as it was closed and no
    later version reuses the rows of an existing one. *)
Theorem reopen_keeps_contents (db : database) (w : view) :
  database_is db w -> pages_fit (t_pager (db_tree db)) ->
  exists n, forall fuel, (n <= fuel)%nat ->
    exists g, sdb_engine_seed_generation fuel (db_tree db) = Some (Ok g)
      /\ database_is (set_state db (db_tree db) g None) w
      /\ forall i v, v_objects w !! i = Some v ->
         exists md, sdb_object_read_metadata (sdb_btree_get (db_tree db)) (oi_kind i) (oi_namespace i) (oi_key i) = Ok md /\ om_generation md <= g.
Proof.
  intros (Ho & m & c & docs & Ht & [[Hob Hix Hdom] Hte Hk Hc] & Hg) Hfit; exists (size m); intros fuel Hl.
  destruct (seed_generation_bounds _ _ _ _ _ Ht (database_fits db m Hfit Ht) Hl Hob Hc) as (g & Hs & Hgr & Hob' & Hcnt); exists g; split; [done|]; split.
  - eapply (set_state_is _ _ _ _ _ m g docs); [done|done| |lia]; split; [by split|done|done|]; split; [done|].
    destruct Hc as [_ [E|E]]; [by left|right]; by rewrite (Hcnt E).
  - intros i v Hv; destruct (oa_some _ _ _ Hob' i v Hv) as (md & Hst & Hle); exists md; split; [|done].
    eapply read_metadata_stored; [by apply tree_reads|apply (oa_ids _ _ _ Hob'); by rewrite Hv|done].
Qed.

(** ** The limits of a transaction *)

Definition within_limits (tx : sdb_transaction (T := T)) (done : Z) : Prop :=
  0 <= done <= tx_operation_count tx /\ tx_operation_count tx <= SDB_TRANSACTION_MAX_OPERATIONS
  /\ tx_logical_byte_count tx <= SDB_TRANSACTION_MAX_LOGICAL_BYTES.

Definition successes (rs : list (result unit)) : Z := Z.of_nat (length (filter (fun r => r = Ok tt) rs)).

Lemma limits_step (fuel : nat) (db db' : database) (op : change) (r : result unit) (tx : sdb_transaction) (n : Z) :
  db_transaction db = Some tx -> within_limits tx n -> transaction_change fuel db op = (r, db') ->
  exists tx', db_transaction db' = Some tx' /\ within_limits tx' (if r is Ok _ then n + 1 else n).
Proof.
  intros Htx Hw; destruct (transaction_change_eq fuel db op) as (bytes & -> & _); unfold transaction_update, sdb_transaction_lock; rewrite Htx.
  destruct (check _ _ _) as [tx0|e] eqn:Ec; [|intros [= <- <-]; by exists tx]; inv_ok Ec; injection Ec as <-.
  destruct (bytes' ← bytes; sdb_transaction_reserve tx bytes') as [tx1|e] eqn:Er; [|intros [= <- <-]; by exists tx].
  destruct bytes as [size|]; cbn [mbind result_bind] in Er; [|done]; unfold sdb_transaction_reserve in Er; inv_ok Er; injection Er as <-.
  destruct (engine_op _ _ op _) as [r0 s]; intros [= <- <-]; eexists; split; [reflexivity|]; destruct Hw as (? & ? & ?); zbool_hyps.
  unfold within_limits; cbn [tx_operation_count tx_logical_byte_count]; destruct r0; lia.
Qed.

Lemma limits_run (fuel : nat) (ops : list change) : forall db db' rs tx n,
  db_transaction db = Some tx -> within_limits tx n -> run_changes fuel db ops = (rs, db') ->
  exists tx', db_transaction db' = Some tx' /\ within_limits tx' (n + successes rs).
Proof.
  induction ops as [|op ops IH]; intros db db' rs tx n Htx Hw; cbn [run_changes].
  { intros [= <- <-]; exists tx; split; [done|]; unfold successes; cbn; by rewrite Z.add_0_r. }
  destruct (transaction_change fuel db op) as [r db1] eqn:E1; destruct (run_changes fuel db1 ops) as [rs1 db2] eqn:E2; intros [= <- <-].
  destruct (limits_step _ _ _ _ _ _ _ Htx Hw E1) as (tx1 & Htx1 & Hw1); destruct (IH _ _ _ _ _ Htx1 Hw1 E2) as (tx' & Htx' & Hw'); exists tx'; split; [done|].
  unfold successes in *; destruct r as [[]|e]; rewrite list.filter_cons; case_decide; try done; cbn [length].
  by replace (n + _) with (n + 1 + Z.of_nat (length (filter (fun r => r = Ok tt) rs1))) by lia.
Qed.

End Api.

(** ** Examples: a database in a memory store *)

Definition memory_database := sdb_database (P := sdb_pager (S := memory_store)) (T := sdb_txn (S := memory_store)).

Definition example_database : memory_database :=
  {| db_tree := example_tree; db_generation := 0; db_open := true; db_callback_depth := 0; db_transaction := None;
     db_snapshot := None; db_commit_in_flight := 0 |}.

Lemma example_empty : database_is example_database empty_view.
Proof.
  split; [done|]; exists ∅, 0, ∅; split; [apply example_tree_is|]; split; [|done]; split; [split|done|by intros k v|].
  - split; [by intros i [? ?]|done|done|]; intros i g j _ _ _ [? ?]; done.
  - split; [done|done|..].
    + intros c d g t v _ _ _ _; split; [done|]; by intros (_ & x & ? & _).
    + intros c t v _ _; split; [done|]; by intros [? _].
    + done.
  - intros c d; by split; intros [? ?].
  - by split; [|left].
Qed.

Definition name (n : Z) : bytes := [byte.of_Z n].
Definition example_term : sdb_index_term := {| it_index_name := name 3; it_value := name 4 |}.

(** A unique index, a document in it, a document that violates it, an entry, and the
    removal of a blob that is not there. *)
Definition example_changes : list change :=
  [CreateIndex (name 1) (name 3) true; PutDocument (name 1) (name 5) (name 9) [example_term];
   PutDocument (name 1) (name 6) [] [example_term]; Put Kv (name 1) (name 2) (name 7); Delete Blob (name 1) (name 2)].

Definition example_results : list (result unit) := [Ok tt; Ok tt; Err SDB_E_CONFLICT; Ok tt; Err SDB_E_NOT_FOUND].

Definition example_begun : memory_database := (sdb_transaction_begin example_database).2.
Definition example_changed : memory_database := (run_changes 0 example_begun example_changes).2.
Definition example_committed : memory_database := (sdb_transaction_commit example_changed).2.

Definition example_view : view :=
  {| v_objects := <[stored Kv (name 1) (name 2) := name 7]> (<[doc_id (name 1) (name 5) := name 9]> ∅);
     v_indexes := {[ (name 1, name 3) := true ]};
     v_terms := {[ (name 1, name 5) := [example_term] ]} |}.

Lemma example_begins : sdb_transaction_begin example_database = (SDB_OK, example_begun).
Proof. unfold example_begun; apply run_fst; vm_compute; reflexivity. Qed.
Lemma example_changes_run : run_changes 0 example_begun example_changes = (example_results, example_changed).
Proof. unfold example_changed; apply run_fst; vm_compute; reflexivity. Qed.
Lemma example_commits : sdb_transaction_commit example_changed = (SDB_OK, example_committed).
Proof. unfold example_committed; apply run_fst; vm_compute; reflexivity. Qed.

Lemma example_replay (w : view) : replay example_changes example_results empty_view w -> w = example_view.
Proof.
  intros H; inversion H as [|? ? ? ? w1 ? H1 H'|]; subst; clear H; destruct H1 as [_ ->].
  inversion H' as [|? ? ? ? w2 ? H2 H|]; subst; clear H'; destruct H2 as (_ & _ & _ & ->).
  inversion H as [| |? ? ? ? ? ? _ H']; subst; clear H; inversion H' as [|? ? ? ? w4 ? H4 H|]; subst; clear H'; destruct H4 as (_ & _ & ->).
  inversion H as [| |? ? ? ? ? ? _ H']; subst; clear H; inversion H'; subst; reflexivity.
Qed.

Lemma example_is : database_is example_committed example_view.
Proof.
  destruct (transaction_commits 0 _ _ _ _ _ _ example_empty example_begins example_changes_run _ _ example_commits) as (_ & Hok & _).
  destruct Hok as (w & Hr & Hw); [done|vm_compute; reflexivity|]; apply example_replay in Hr; by subst w.
Qed.

Lemma memory_pages_fit (pager : sdb_pager (S := memory_store)) :
  map_Forall (fun _ (x : Z * bytes) => Z.of_nat (length x.2) <= pager_payload_capacity pager) (ms_pages (pg_store pager)) -> pages_fit pager.
Proof.
  intros Hm q view; unfold pager_read; cbn [txn_pager_ops sdb_pager_read]; unfold sdb_pager_read; intros H; inv_ok H; cbn [store_read memory_page_store] in H.
  unfold memory_read in H; destruct (ms_pages (pg_store pager) !! q) as [[type payload]|] eqn:E; [|done]; injection H as <-; exact (Hm q _ E).
Qed.

Lemma example_fits : pages_fit (t_pager (db_tree example_committed)).
Proof. apply memory_pages_fit, (bool_decide_unpack _); vm_compute; reflexivity. Qed.

Lemma autocommit_refines_witness :
  let put := sdb_kv_put_unlocked example_committed (name 1) (name 8) (name 9) in
  put.1 = SDB_OK /\ exists w', view_step (Put Kv (name 1) (name 8) (name 9)) example_view w' /\ database_is put.2 w'.
Proof.
  intros put; assert (E : put.1 = SDB_OK) by (vm_compute; reflexivity); split; [exact E|].
  destruct (autocommit_refines 0 example_committed put.2 example_view (Put Kv (name 1) (name 8) (name 9)) SDB_OK) as [Hok _];
    [apply example_is|by apply run_fst|]; apply Hok; [reflexivity|vm_compute; reflexivity].
Defined.

Lemma transaction_atomic_witness :
  database_is example_committed example_view
  /\ exists db3, sdb_transaction_rollback example_changed = (SDB_OK, db3) /\ db_transaction db3 = None /\ database_is db3 empty_view.
Proof.
  destruct (transaction_atomic 0 example_database example_begun example_changed empty_view example_changes example_results
              example_empty example_begins example_changes_run) as [Hrb Hc]; split; [|exact Hrb].
  destruct (Hc _ _ example_commits) as (_ & Hok & _); destruct Hok as (w & Hr & Hw); [reflexivity|vm_compute; reflexivity|].
  apply example_replay in Hr; by subst w.
Defined.

Lemma transaction_reads_own_writes_witness :
  transaction_get example_changed SDB_OBJECT_KV (name 1) (name 2) 10 = (Ok (name 7), Some 1).
Proof.
  destruct (transaction_reads_own_writes 0 example_database example_begun example_changed empty_view example_changes example_results
              example_empty example_begins example_changes_run) as [(w & Hr & Hget)|[_ Hc]].
  - apply example_replay in Hr; subst w; etrans; [apply (Hget (stored Kv (name 1) (name 2)) 10); split; [discriminate|reflexivity]|vm_compute; reflexivity].
  - rewrite example_commits in Hc; by destruct Hc.
Defined.

Lemma database_get_correct_witness :
  sdb_document_get_unlocked example_committed (name 1) (name 5) 10 = (Ok (name 9), Some 1)
  /\ sdb_kv_get_unlocked example_committed (name 1) (name 5) 10 = (Err SDB_E_NOT_FOUND, None).
Proof.
  destruct (database_get_correct example_committed example_view (name 1) (name 5) 10 example_is) as (H1 & _ & H3).
  rewrite H1, H3; split; vm_compute; reflexivity.
Defined.


Lemma delete_absent_reported_witness : (sdb_kv_delete_unlocked example_committed (name 1) (name 5)).1 = SDB_E_NOT_FOUND.
Proof.
  destruct (sdb_btree_batch_begin (T := sdb_txn (S := memory_store)) (db_tree example_committed)) as [b|e] eqn:E; [|vm_compute in E; discriminate E].
  apply (delete_absent_reported 0 example_committed example_view (Delete Kv (name 1) (name 5)) b example_is); [reflexivity|exact E|vm_compute; reflexivity].
Defined.

Lemma index_visit_exact_witness :
  exists ids n, NoDup ids /\ (forall d, d ∈ ids <-> exists ts, v_terms example_view !! (name 1, d) = Some ts /\ example_term ∈ ts)
    /\ forall A (visitor : A -> bytes -> A * bool) fuel a, (n <= fuel)%nat ->
       sdb_index_visit_unlocked visitor 0 fuel (db_tree example_committed) (name 1) (name 3) (name 4) a = Some (visit_list visitor ids 0 a).
Proof.
  apply (index_visit_exact example_committed example_view (name 1) example_term 0 example_is example_fits);
    [reflexivity|split; reflexivity|discriminate].
Defined.

Lemma reopen_keeps_contents_witness :
  exists n, forall fuel, (n <= fuel)%nat -> exists g, sdb_engine_seed_generation fuel (db_tree example_committed) = Some (Ok g)
    /\ database_is (set_state example_committed (db_tree example_committed) g None) example_view.
Proof.
  destruct (reopen_keeps_contents example_committed example_view example_is example_fits) as [n H]; exists n; intros fuel Hl.
  destruct (H fuel Hl) as (g & Hs & Hw & _); exists g; split; [exact Hs|exact Hw].
Defined.


(** Whether a refused operation spoils the transaction depends on the pages it staged:
    a violation of a unique index is fatal as the first operation, when the counter row
    it writes stages a page, and harmless when that page is staged already. *)
Lemma refusal_poisons_by_pages :
  let refused := PutDocument (name 1) (name 6) [] [example_term] in
  let run ops := run_changes 0 (sdb_transaction_begin example_committed).2 ops in
  (run [refused]).1 = [Err SDB_E_CONFLICT]
  /\ (sdb_transaction_commit (run [refused]).2).1 = SDB_E_CONFLICT
  /\ (run [Put Kv (name 1) (name 8) []; refused]).1 = [Ok tt; Err SDB_E_CONFLICT]
  /\ (sdb_transaction_commit (run [Put Kv (name 1) (name 8) []; refused]).2).1 = SDB_OK.
Proof. vm_compute; repeat split. Qed.
