(* ===== verification/EngineCursor.v ===== *)
(** * Snapshots, cursors and scans ([src/engine.c])

    A snapshot occupies a slot of the database handle that keeps writers out; cursors
    walk the objects of one namespace on it, forward or in reverse, within bounds.  A
    cursor holds a tree cursor and two buffers, of which the model keeps the capacities
    and what the accessors return.  A struct behind a pointer is passed and returned,
    the snapshot in its slot. *)

From stdpp Require Import gmap.
From S2P Require Import Prelude Status Codec Keys BtreePage PagerInterface BtreeNode Btree BtreeCursor EngineKeys EngineObject EngineDocument EngineScan Engine.

(** ** Row keys *)

(** The kind, the namespace and the user key of an object row, with [suffix_size] bytes
    after the key. *)
Definition sdb_verify_pair_key (key : bytes) (suffix_size : Z) : result (Z * bytes * bytes) :=
  let key_size := Z.of_nat (length key) in
  fail_if key_size <? 4 + suffix_size with SDB_E_CORRUPT ;;
  let namespace_size := sdb_read_u16_le key 2 in
  fail_if (namespace_size =? 0) || (namespace_size >? SDB_ENGINE_MAX_NAME_SIZE) || (namespace_size >? key_size - 4 - suffix_size)
          || (negb (u8_at key 1 =? SDB_OBJECT_KV) && negb (u8_at key 1 =? SDB_OBJECT_BLOB) && negb (u8_at key 1 =? SDB_OBJECT_DOCUMENT))
    with SDB_E_CORRUPT ;;
  let object_key_size := key_size - 4 - suffix_size - namespace_size in
  fail_if (object_key_size =? 0) || (object_key_size >? SDB_ENGINE_MAX_NAME_SIZE) with SDB_E_CORRUPT ;;
  Ok (u8_at key 1, slice key 4 (Z.to_nat namespace_size), slice key (4 + Z.to_nat namespace_size) (Z.to_nat object_key_size)).

(** [memcmp] of the common part, then the sizes. *)
Definition sdb_user_key_compare (a b : bytes) : comparison :=
  let min := Nat.min (length a) (length b) in
  match key_cmp (take min a) (take min b) with
  | Eq => (length a ?= length b)%nat
  | order => order
  end.

(** The smallest key above every key that begins with [prefix]: trailing 0xff bytes are
    dropped and the last byte is incremented. *)
Fixpoint successor_rev (reversed : bytes) : option bytes :=
  match reversed with
  | [] => None
  | b :: rest => if byte.unsigned b =? 255 then successor_rev rest else Some (rev (byte.of_Z (byte.unsigned b + 1) :: rest))
  end.
Definition prefix_successor (prefix : bytes) : option bytes := successor_rev (rev prefix).

Section Cursors.
Context {P T : Type} `{!PagerOps P T}.

(** ** Snapshots *)

Definition set_snapshot (db : sdb_database (P := P) (T := T)) (snapshot : option sdb_snapshot) : sdb_database :=
  {| db_tree := db_tree db; db_generation := db_generation db; db_open := db_open db; db_callback_depth := db_callback_depth db;
     db_transaction := db_transaction db; db_snapshot := snapshot; db_commit_in_flight := db_commit_in_flight db |}.

(** [generation] is that of the pager's superblock. *)
Definition sdb_snapshot_open (generation : Z) (db : sdb_database) : sdb_status * sdb_database :=
  if negb (db_open db) then (SDB_E_INVALID_ARGUMENT, db)
  else if bool_decide (is_Some (db_transaction db)) || bool_decide (is_Some (db_snapshot db)) || negb (db_commit_in_flight db =? 0)
          || negb (db_callback_depth db =? 0)
  then (SDB_E_BUSY, db)
  else (SDB_OK, set_snapshot db (Some {| sn_version := generation; sn_open_cursors := 0 |})).

Definition sdb_snapshot_close (db : sdb_database) : sdb_status * sdb_database :=
  match db_snapshot db with
  | None => (SDB_OK, db)
  | Some snapshot => if negb (sn_open_cursors snapshot =? 0) then (SDB_E_BUSY, db) else (SDB_OK, set_snapshot db None)
  end.

Definition sdb_snapshot_version (snapshot : option sdb_snapshot) : Z :=
  match snapshot with None => 0 | Some snapshot => sn_version snapshot end.

(** ** Cursors *)

Inductive sdb_keyspace_kind := SDB_KEYSPACE_KV | SDB_KEYSPACE_BLOB | SDB_KEYSPACE_OTHER.

(** A bound of size 0 is no bound. *)
Record sdb_cursor_options := {
  co_lower_bound : bytes;
  co_upper_bound : bytes;
  co_reverse : bool;
  co_limit : Z
}.

Definition sdb_cursor_options_init : sdb_cursor_options := {| co_lower_bound := []; co_upper_bound := []; co_reverse := false; co_limit := 0 |}.

Record sdb_cursor := {
  cu_kind : Z;
  cu_prefix : bytes;
  cu_namespace_size : nat;
  cu_lower_bound : option bytes;
  cu_upper_bound : option bytes;
  cu_limit : Z;
  cu_produced : Z;
  cu_btcur : sdb_btree_cursor;
  cu_reverse : bool;
  cu_started : bool;
  cu_valid : bool;
  cu_status : sdb_status;
  cu_key_capacity : Z;
  cu_user_key : bytes;
  cu_value_capacity : Z;
  cu_value : bytes
}.

Definition set_produced (c : sdb_cursor) (produced : Z) : sdb_cursor :=
  {| cu_kind := cu_kind c; cu_prefix := cu_prefix c; cu_namespace_size := cu_namespace_size c; cu_lower_bound := cu_lower_bound c;
     cu_upper_bound := cu_upper_bound c; cu_limit := cu_limit c; cu_produced := produced; cu_btcur := cu_btcur c;
     cu_reverse := cu_reverse c; cu_started := cu_started c; cu_valid := cu_valid c; cu_status := cu_status c;
     cu_key_capacity := cu_key_capacity c; cu_user_key := cu_user_key c; cu_value_capacity := cu_value_capacity c; cu_value := cu_value c |}.
Definition set_btcur (c : sdb_cursor) (btcur : sdb_btree_cursor) : sdb_cursor :=
  {| cu_kind := cu_kind c; cu_prefix := cu_prefix c; cu_namespace_size := cu_namespace_size c; cu_lower_bound := cu_lower_bound c;
     cu_upper_bound := cu_upper_bound c; cu_limit := cu_limit c; cu_produced := cu_produced c; cu_btcur := btcur;
     cu_reverse := cu_reverse c; cu_started := cu_started c; cu_valid := cu_valid c; cu_status := cu_status c;
     cu_key_capacity := cu_key_capacity c; cu_user_key := cu_user_key c; cu_value_capacity := cu_value_capacity c; cu_value := cu_value c |}.
Definition set_started (c : sdb_cursor) : sdb_cursor :=
  {| cu_kind := cu_kind c; cu_prefix := cu_prefix c; cu_namespace_size := cu_namespace_size c; cu_lower_bound := cu_lower_bound c;
     cu_upper_bound := cu_upper_bound c; cu_limit := cu_limit c; cu_produced := cu_produced c; cu_btcur := cu_btcur c;
     cu_reverse := cu_reverse c; cu_started := true; cu_valid := cu_valid c; cu_status := cu_status c;
     cu_key_capacity := cu_key_capacity c; cu_user_key := cu_user_key c; cu_value_capacity := cu_value_capacity c; cu_value := cu_value c |}.
Definition set_status (c : sdb_cursor) (status : sdb_status) : sdb_cursor :=
  {| cu_kind := cu_kind c; cu_prefix := cu_prefix c; cu_namespace_size := cu_namespace_size c; cu_lower_bound := cu_lower_bound c;
     cu_upper_bound := cu_upper_bound c; cu_limit := cu_limit c; cu_produced := cu_produced c; cu_btcur := cu_btcur c;
     cu_reverse := cu_reverse c; cu_started := cu_started c; cu_valid := cu_valid c; cu_status := status;
     cu_key_capacity := cu_key_capacity c; cu_user_key := cu_user_key c; cu_value_capacity := cu_value_capacity c; cu_value := cu_value c |}.
(** Whether an entry is loaded, and which. *)
Definition set_entry (c : sdb_cursor) (valid : bool) (produced : Z) (user_key : bytes) (value_capacity : Z) (value : bytes) : sdb_cursor :=
  {| cu_kind := cu_kind c; cu_prefix := cu_prefix c; cu_namespace_size := cu_namespace_size c; cu_lower_bound := cu_lower_bound c;
     cu_upper_bound := cu_upper_bound c; cu_limit := cu_limit c; cu_produced := produced; cu_btcur := cu_btcur c;
     cu_reverse := cu_reverse c; cu_started := cu_started c; cu_valid := valid; cu_status := cu_status c;
     cu_key_capacity := cu_key_capacity c; cu_user_key := user_key; cu_value_capacity := value_capacity; cu_value := value |}.

Definition no_entry (c : sdb_cursor) : sdb_cursor := set_entry c false (cu_produced c) [] (cu_value_capacity c) [].

(** The value of the entry, and the capacity of the value buffer afterwards: the buffer
    grows to the size the value has, which a second attempt fits. *)
Definition load_value (tree : sdb_btree (P := P)) (c : sdb_cursor) (object_key : bytes) : result bytes * Z :=
  let get capacity := sdb_object_get (sdb_btree_get tree) (cu_kind c) (slice (cu_prefix c) 4 (cu_namespace_size c)) object_key capacity in
  match get (cu_value_capacity c) with
  | (Err SDB_E_BUFFER_TOO_SMALL, Some value_size) =>
      if value_size >? cu_value_capacity c then ((get value_size).1, value_size) else (Err SDB_E_BUFFER_TOO_SMALL, cu_value_capacity c)
  | (r, _) => (r, cu_value_capacity c)
  end.

Definition out_of_range (c : sdb_cursor) (object_key : bytes) : bool :=
  if cu_reverse c then
    match cu_lower_bound c with
    | Some bound => match sdb_user_key_compare object_key bound with Lt => true | _ => false end
    | None => false
    end
  else
    match cu_upper_bound c with
    | Some bound => match sdb_user_key_compare object_key bound with Lt => false | _ => true end
    | None => false
    end.

Definition sdb_cursor_load_current (tree : sdb_btree (P := P)) (c : sdb_cursor) : sdb_status * sdb_cursor :=
  let c := no_entry c in
  if negb (c_valid (cu_btcur c)) then (SDB_OK, c)
  else if negb (cu_limit c =? 0) && (cu_produced c >=? cu_limit c) then (SDB_OK, c)
  else
    match sdb_btree_cursor_read (cu_btcur c) (cu_key_capacity c) (cu_value_capacity c) with
    | Err e => (e, c)
    | Ok (composite, _) =>
        if (length composite <? length (cu_prefix c))%nat || negb (bool_decide (take (length (cu_prefix c)) composite = cu_prefix c)) then (SDB_OK, c)
        else
          match sdb_verify_pair_key composite 0 with
          | Err e => (e, c)
          | Ok (_, _, object_key) =>
              if out_of_range c object_key then (SDB_OK, c)
              else
                match load_value tree c object_key with
                | (Err e, capacity) => (e, set_entry c false (cu_produced c) [] capacity [])
                | (Ok value, capacity) => (SDB_OK, set_entry c true (cu_produced c + 1) object_key capacity value)
                end
          end
    end.

Definition sdb_cursor_open (db : sdb_database (P := P) (T := T)) (keyspace_kind : sdb_keyspace_kind) (namespace_name : bytes) (options : option sdb_cursor_options)
  : result sdb_cursor * sdb_database :=
  match db_snapshot db with
  | None => (Err SDB_E_INVALID_ARGUMENT, db)
  | Some snapshot =>
      if negb (sdb_engine_bytes_valid namespace_name) || (length namespace_name =? 0)%nat
         || (Z.of_nat (length namespace_name) >? SDB_ENGINE_MAX_NAME_SIZE)
      then (Err SDB_E_INVALID_ARGUMENT, db)
      else
        match keyspace_kind with
        | SDB_KEYSPACE_OTHER => (Err SDB_E_INVALID_ARGUMENT, db)
        | _ =>
            let kind := match keyspace_kind with SDB_KEYSPACE_BLOB => SDB_OBJECT_BLOB | _ => SDB_OBJECT_KV end in
            let opts := default sdb_cursor_options_init options in
            if (Z.of_nat (length (co_lower_bound opts)) >? SDB_ENGINE_MAX_NAME_SIZE) || (Z.of_nat (length (co_upper_bound opts)) >? SDB_ENGINE_MAX_NAME_SIZE)
            then (Err SDB_E_INVALID_ARGUMENT, db)
            else
              let prefix := zeros (4 + length namespace_name) in
              let prefix := store_u8 prefix 0 SDB_OBJECT_KEY_PREFIX in
              let prefix := store_u8 prefix 1 kind in
              let prefix := sdb_write_u16_le prefix 2 (wrap 16 (Z.of_nat (length namespace_name))) in
              let prefix := memcpy_at prefix 4 namespace_name in
              let bound b := match b with [] => None | _ => Some b end in
              (Ok {| cu_kind := kind; cu_prefix := prefix; cu_namespace_size := length namespace_name;
                     cu_lower_bound := bound (co_lower_bound opts); cu_upper_bound := bound (co_upper_bound opts); cu_limit := co_limit opts;
                     cu_produced := 0; cu_btcur := zero_cursor; cu_reverse := co_reverse opts; cu_started := false; cu_valid := false;
                     cu_status := SDB_OK; cu_key_capacity := Z.of_nat (length prefix) + SDB_ENGINE_MAX_NAME_SIZE + 16; cu_user_key := [];
                     cu_value_capacity := 256; cu_value := [] |},
               set_snapshot db (Some {| sn_version := sn_version snapshot; sn_open_cursors := sn_open_cursors snapshot + 1 |}))
        end
  end.

(** The tree cursor at the first row from the user key on. *)
Definition sdb_cursor_seek_locked (tree : sdb_btree (P := P)) (c : sdb_cursor) (user_key : bytes) : sdb_status * sdb_cursor :=
  let btcur := if cu_started c then sdb_btree_cursor_close (cu_btcur c) else cu_btcur c in
  let '(r, btcur) := sdb_btree_cursor_seek tree (cu_prefix c ++ user_key) btcur in
  (status_of r, set_btcur c btcur).

(** The tree cursor at the last row of the range. *)
Definition sdb_cursor_seek_end_locked (tree : sdb_btree (P := P)) (c : sdb_cursor) : sdb_status * sdb_cursor :=
  let btcur := if cu_started c then sdb_btree_cursor_close (cu_btcur c) else cu_btcur c in
  let end_key :=
    match cu_upper_bound c with
    | Some bound => Some (cu_prefix c ++ bound)
    | None => prefix_successor (cu_prefix c)
    end in
  let '(r, btcur) :=
    match end_key with
    | None => sdb_btree_cursor_last tree btcur
    | Some end_key =>
        match sdb_btree_cursor_seek_floor tree end_key btcur with
        | (Ok _, btcur) => sdb_btree_cursor_prev tree btcur
        | (Err e, btcur) => (Err e, btcur)
        end
    end in
  (status_of r, set_btcur c btcur).

(** After a seek: the entry is loaded, and the status kept. *)
Definition started_at (tree : sdb_btree (P := P)) (sought : sdb_status * sdb_cursor) : sdb_status * sdb_cursor :=
  let '(status, c) := sought in
  let '(status, c) := if bool_decide (status = SDB_OK) then sdb_cursor_load_current tree (set_started c) else (status, c) in
  (status, set_status c status).

Definition sdb_cursor_first (tree : sdb_btree (P := P)) (c : sdb_cursor) : sdb_status * sdb_cursor :=
  let c := set_produced c 0 in
  started_at tree
    (if cu_reverse c then sdb_cursor_seek_end_locked tree c else sdb_cursor_seek_locked tree c (default [] (cu_lower_bound c))).

Definition sdb_cursor_seek (tree : sdb_btree (P := P)) (c : sdb_cursor) (key : bytes) : sdb_status * sdb_cursor :=
  if Z.of_nat (length key) >? SDB_ENGINE_MAX_NAME_SIZE then (SDB_E_INVALID_ARGUMENT, c)
  else
    let target :=
      match cu_lower_bound c with
      | Some bound => match sdb_user_key_compare key bound with Lt => bound | _ => key end
      | None => key
      end in
    started_at tree (sdb_cursor_seek_locked tree (set_produced c 0) target).

Definition sdb_cursor_next (tree : sdb_btree (P := P)) (c : sdb_cursor) : sdb_status * sdb_cursor :=
  if negb (cu_started c) then (SDB_E_INVALID_ARGUMENT, c)
  else if negb (c_valid (cu_btcur c)) then (SDB_OK, set_entry c false (cu_produced c) (cu_user_key c) (cu_value_capacity c) (cu_value c))
  else
    let '(r, btcur) := if cu_reverse c then sdb_btree_cursor_prev tree (cu_btcur c) else sdb_btree_cursor_next tree (cu_btcur c) in
    let c := set_btcur c btcur in
    let '(status, c) :=
      match r with
      | Ok _ => sdb_cursor_load_current tree c
      | Err e => (e, set_entry c false (cu_produced c) (cu_user_key c) (cu_value_capacity c) (cu_value c))
      end in
    (status, set_status c status).

Definition sdb_cursor_valid (c : option sdb_cursor) : bool := match c with None => false | Some c => cu_valid c end.
Definition sdb_cursor_status (c : option sdb_cursor) : sdb_status := match c with None => SDB_E_INVALID_ARGUMENT | Some c => cu_status c end.

Definition sdb_cursor_key (c : sdb_cursor) : result bytes := fail_if negb (cu_valid c) with SDB_E_INVALID_ARGUMENT ;; Ok (cu_user_key c).
Definition sdb_cursor_value (c : sdb_cursor) : result bytes := fail_if negb (cu_valid c) with SDB_E_INVALID_ARGUMENT ;; Ok (cu_value c).
Definition sdb_cursor_get (c : sdb_cursor) : result (bytes * bytes) := key ← sdb_cursor_key c; value ← sdb_cursor_value c; Ok (key, value).

(** The copies, and the sizes reported. *)
Definition sdb_cursor_read (c : sdb_cursor) (key_capacity value_capacity : Z) : result (bytes * bytes) * option (Z * Z) :=
  if negb (cu_valid c) then (Err SDB_E_INVALID_ARGUMENT, None)
  else
    let key_size := Z.of_nat (length (cu_user_key c)) in
    let value_size := Z.of_nat (length (cu_value c)) in
    (fail_if (key_capacity <? key_size) || (value_capacity <? value_size) with SDB_E_BUFFER_TOO_SMALL ;; Ok (cu_user_key c, cu_value c),
     Some (key_size, value_size)).

Definition sdb_cursor_close (db : sdb_database (P := P) (T := T)) (c : option sdb_cursor) : sdb_status * sdb_database :=
  match c, db_snapshot db with
  | Some _, Some snapshot =>
      (SDB_OK,
       if negb (sn_open_cursors snapshot =? 0)
       then set_snapshot db (Some {| sn_version := sn_version snapshot; sn_open_cursors := sn_open_cursors snapshot - 1 |})
       else db)
  | _, _ => (SDB_OK, db)
  end.

(** ** Scans with a visitor

    The visitor gets its context and the entry, and tells whether it wants more; it does
    not change the database.  [fuel] bounds the entries. *)

Fixpoint scan_prefix_loop {A} (visitor : A -> bytes -> bytes -> A * bool) (fuel : nat) (tree : sdb_btree (P := P)) (prefix : bytes)
    (status : sdb_status) (c : sdb_cursor) (matches : Z) (a : A) : option (sdb_status * sdb_cursor * Z * A) :=
  if negb (bool_decide (status = SDB_OK)) || negb (cu_valid c) then Some (status, c, matches, a)
  else if negb (length prefix =? 0)%nat
          && ((length (cu_user_key c) <? length prefix)%nat || negb (bool_decide (take (length prefix) (cu_user_key c) = prefix)))
  then Some (status, c, matches, a)
  else
    match fuel with
    | O => None
    | S fuel =>
        let '(a, keep_visiting) := visitor a (cu_user_key c) (cu_value c) in
        if negb keep_visiting then Some (status, c, matches + 1, a)
        else let '(status, c) := sdb_cursor_next tree c in scan_prefix_loop visitor fuel tree prefix status c (matches + 1) a
    end.

Record sdb_scan_options := { so_reverse : bool; so_limit : Z }.

(** The status, the match count (0 unless the scan succeeds), the context and the handle. *)
Definition sdb_kv_scan_prefix {A} (generation : Z) (visitor : A -> bytes -> bytes -> A * bool) (fuel : nat)
    (db : sdb_database (P := P) (T := T)) (namespace_name prefix : bytes) (options : option sdb_scan_options) (a : A)
  : option (sdb_status * Z * A * sdb_database) :=
  if match options with Some o => so_reverse o | None => false end then Some (SDB_E_INVALID_ARGUMENT, 0, a, db)
  else
    match sdb_snapshot_open generation db with
    | (SDB_OK, db) =>
        let cursor_options :=
          {| co_lower_bound := prefix; co_upper_bound := []; co_reverse := false;
             co_limit := match options with Some o => so_limit o | None => 0 end |} in
        match sdb_cursor_open db SDB_KEYSPACE_KV namespace_name (Some cursor_options) with
        | (Err e, db) => Some (e, 0, a, (sdb_snapshot_close db).2)
        | (Ok c, db) =>
            let '(status, c) := sdb_cursor_first (db_tree db) c in
            '(status, c, matches, a) ← scan_prefix_loop visitor fuel (db_tree db) prefix status c 0 a;
            let '(_, db) := sdb_cursor_close db (Some c) in
            let '(_, db) := sdb_snapshot_close db in
            Some (status, if bool_decide (status = SDB_OK) then matches else 0, a, db)
        end
    | (e, db) => Some (e, 0, a, db)
    end.

(** The last namespace emitted, how many were, and the context. *)
Definition namespace_step {A} (visitor : A -> Z -> bytes -> A * bool) (key value : bytes) (st : option (Z * bytes) * Z * A)
  : scan_step (option (Z * bytes) * Z * A) :=
  let '(last, emitted, a) := st in
  if (length key =? 0)%nat || negb (u8_at key 0 =? SDB_OBJECT_KEY_PREFIX) then ScanStop st
  else
    match sdb_verify_pair_key key 0 with
    | Err e => ScanFail e
    | Ok (kind, namespace_name, _) =>
        if bool_decide (last = Some (kind, namespace_name)) then ScanNext st
        else
          let '(a, keep_visiting) := visitor a kind namespace_name in
          if negb keep_visiting then ScanStop (last, emitted, a) else ScanNext (Some (kind, namespace_name), emitted + 1, a)
    end.

(** The status, the number of namespaces emitted (0 unless the listing succeeds), the
    context and the handle. *)
Definition sdb_list_namespaces {A} (generation : Z) (visitor : A -> Z -> bytes -> A * bool) (fuel : nat) (db : sdb_database (P := P) (T := T)) (a : A)
  : option (sdb_status * Z * option A * sdb_database) :=
  match sdb_snapshot_open generation db with
  | (SDB_OK, db) =>
      let tree := db_tree db in
      r ← start_scan fuel tree (namespace_step visitor) (sdb_btree_cursor_seek tree [byte.of_Z SDB_OBJECT_KEY_PREFIX] zero_cursor) (None, 0, a);
      let '(_, db) := sdb_snapshot_close db in
      match r with
      | Ok (_, emitted, a) => Some (SDB_OK, emitted, Some a, db)
      | Err e => Some (e, 0, None, db)
      end
  | (e, db) => Some (e, 0, Some a, db)
  end.
End Cursors.
