(* ===== verification/EngineCursorMap.v ===== *)
(** * Cursors deliver the entries of a namespace

    The snapshots and cursors of [EngineCursor] on a database that contains a view: a
    scan delivers the entries of the namespace within the bounds, in key order or in
    reverse, cut at the limit, and ends; a prefix scan and the list of namespaces call
    their visitors likewise.  What happens at the end of the range, where the cursor
    reads a row that is not its own, is stated too. *)

From stdpp Require Import gmap sorting.
From S2P Require Import Prelude Status Codec Keys Sha256 Page BtreePage OrderedMap PagerInterface BtreeNode BtreeTree Btree BtreeGet BtreePut BtreeContext BtreeMap BtreeCursor BtreeScan Superblock Txn MemoryStore TxnLaws EngineKeys EngineRows EngineObject EngineMap EngineDocument EngineIndex EngineDocumentMap EngineScan EngineScanMap EngineView Engine EngineApi EngineCursor.

#[local] Opaque sdb_sha256 sdb_constant_time_equal sdb_object_metadata_encode.

(** ** Keys *)

(** The row keys of a namespace begin with this. *)
Definition namespace_prefix (kind : Z) (ns : bytes) : bytes := byte.of_Z SDB_OBJECT_KEY_PREFIX :: byte.of_Z kind :: size_bytes ns ++ ns.

Lemma object_row_key (kind : Z) (ns key : bytes) : row_key (RowObject kind ns key) = namespace_prefix kind ns ++ key.
Proof. apply pair_bytes_split. Qed.

Lemma length_namespace_prefix (kind : Z) (ns : bytes) : length (namespace_prefix kind ns) = (4 + length ns)%nat.
Proof. unfold namespace_prefix; cbn [length]; autorewrite with len; lia. Qed.

Lemma user_key_compare_spec (a : bytes) : forall b, sdb_user_key_compare a b = key_cmp a b.
Proof.
  unfold sdb_user_key_compare; induction a as [|x a IH]; intros [|y b]; [done..|].
  cbn [length Nat.min take]; rewrite !key_cmp_cons; destruct (_ ?= _); [|done|done]; cbn [Nat.compare]; apply IH.
Qed.

Definition known_kind (kind : Z) : Prop := kind = SDB_OBJECT_KV \/ kind = SDB_OBJECT_BLOB \/ kind = SDB_OBJECT_DOCUMENT.

Lemma known_kind_range (kind : Z) : known_kind kind -> 0 <= kind < 256.
Proof. by intros [-> | [-> | ->]]. Qed.

(** The key of an object row parses to what it was built from. *)
Lemma verify_object_row (kind : Z) (ns key : bytes) :
  known_kind kind -> valid ns -> valid key -> sdb_verify_pair_key (row_key (RowObject kind ns key)) 0 = Ok (kind, ns, key).
Proof.
  intros Hk Hn Hy; pose proof (known_kind_range kind Hk); apply valid_size in Hn, Hy; unfold sdb_verify_pair_key; cbn [row_key].
  assert (Hl : length (pair_bytes SDB_OBJECT_KEY_PREFIX kind ns key) = (4 + length ns + length key)%nat)
    by (rewrite pair_bytes_split, length_app; cbn [length]; autorewrite with len; lia).
  rewrite Hl; unfold SDB_ENGINE_MAX_NAME_SIZE; rewrite (proj2 (Z.ltb_ge _ _)) by lia; cbn [check].
  assert (Es : sdb_read_u16_le (pair_bytes SDB_OBJECT_KEY_PREFIX kind ns key) 2 = Z.of_nat (length ns)).
  { rewrite sdb_read_u16_le_spec; change (slice (pair_bytes SDB_OBJECT_KEY_PREFIX kind ns key) 2 2) with (slice (size_bytes ns ++ ns ++ key) 0 2).
    app_simp; apply le_combine_split_small; lia. }
  assert (Ek : u8_at (pair_bytes SDB_OBJECT_KEY_PREFIX kind ns key) 1 = kind).
  { change (u8_at (pair_bytes SDB_OBJECT_KEY_PREFIX kind ns key) 1) with (byte.unsigned (byte.of_Z kind)); by apply byte_of_Z_small. }
  assert (Hb : negb (kind =? SDB_OBJECT_KV) && negb (kind =? SDB_OBJECT_BLOB) && negb (kind =? SDB_OBJECT_DOCUMENT) = false)
    by (by destruct Hk as [-> | [-> | ->]]).
  rewrite Es, Ek, Hb; zcmp; cbn [orb check]; zcmp; cbn [orb check]; clear Es Ek Hl.
  change (pair_bytes SDB_OBJECT_KEY_PREFIX kind ns key) with (([byte.of_Z SDB_OBJECT_KEY_PREFIX; byte.of_Z kind] ++ size_bytes ns) ++ ns ++ key).
  f_equal; f_equal; [f_equal|]; rewrite slice_app_r by len_lia; [rewrite slice_app_l by len_lia|rewrite slice_app_r by len_lia]; apply slice_whole; len_lia.
Qed.

(** Rows that begin with the prefix of a namespace are its object rows. *)
Lemma namespace_row (r : row_name) (rest : bytes) (kind : Z) (ns : bytes) :
  row_valid r -> 0 <= kind < 256 -> valid ns -> row_key r = namespace_prefix kind ns ++ rest -> r = RowObject kind ns rest.
Proof.
  intros [Hr Hv] Hk Hns E0; pose proof E0 as E; pose proof (row_key_head r) as [tail Eh]; rewrite Eh in E; unfold namespace_prefix in E; cbn [app] in E.
  apply cons_split in E as [Ep _]; apply byte_of_Z_inj in Ep; [|destruct r; vm_compute; split; congruence|vm_compute; split; congruence].
  destruct r as [|kind' ns' key| | | | |]; try (vm_compute in Ep; discriminate Ep); clear Ep Eh; destruct Hr as (Hk' & Hn' & Hy'), Hv as [Hv _].
  apply valid_size in Hns, Hv; rewrite <- object_row_key in E0; cbn [row_key] in E0.
  rewrite <- (app_nil_r (pair_bytes _ kind' _ _)), <- (app_nil_r (pair_bytes _ kind _ _)) in E0.
  by apply pair_bytes_inj in E0 as (_ & -> & -> & -> & _); [|vm_compute; split; congruence|vm_compute; split; congruence|lia..|].
Qed.

(** What [sdb_cursor_open] puts in front of the user keys. *)
Lemma open_prefix (kind : Z) (ns : bytes) :
  valid ns ->
  memcpy_at (sdb_write_u16_le (store_u8 (store_u8 (zeros (4 + length ns)) 0 SDB_OBJECT_KEY_PREFIX) 1 kind) 2 (wrap 16 (Z.of_nat (length ns)))) 4 ns
  = namespace_prefix kind ns.
Proof.
  intros Hv; apply valid_size in Hv; rewrite wrap_small by lia; rewrite <- (app_nil_l (zeros _)); fill.
  match goal with |- context [zeros ?n] => replace n with 0%nat by fill_lia end.
  unfold namespace_prefix; cbn [app zeros replicate]; by rewrite app_nil_r.
Qed.

(** The keys below the successor of a prefix are those below the prefix and those that
    begin with it. *)
Lemma lt_snoc (q k : bytes) (b : byte) :
  key_lt k (q ++ [b]) <-> key_lt k q \/ exists r, k = q ++ r /\ (r = [] \/ exists x r', r = x :: r' /\ byte.unsigned x < byte.unsigned b).
Proof.
  unfold key_lt; revert k; induction q as [|y q IH]; intros [|z k]; cbn [app].
  - split; [intros _; right; by exists []; split; [|left]|done].
  - rewrite key_cmp_cons; split.
    + destruct (Z.compare_spec (byte.unsigned z) (byte.unsigned b)) as [E|E|E]; [by destruct k| |done].
      intros _; right; exists (z :: k); split; [done|]; right; by exists z, k.
    + intros [H|(r & <- & [H|(x & r' & [= <- <-] & H)])]; [done|done|]; by rewrite (proj2 (Z.compare_lt_iff _ _)).
  - split; [by left|]; by intros.
  - rewrite !key_cmp_cons; destruct (Z.compare_spec (byte.unsigned z) (byte.unsigned y)) as [E|E|E].
    + assert (z = y) as -> by (by apply byte.unsigned_inj); rewrite IH; split; (intros [H|(r & E' & H)]; [by left|right; exists r; split; [congruence|done]]).
    + split; [by left|done].
    + split; [done|]; intros [H|(r & E' & _)]; [done|]; injection E' as -> _; lia.
Qed.

Lemma successor_spec (p s k : bytes) : prefix_successor p = Some s -> key_lt k s <-> key_lt k p \/ p `prefix_of` k.
Proof.
  unfold prefix_successor; revert s; induction p as [|b q IH] using rev_ind; intros s; [done|]; rewrite rev_app_distr; cbn [rev app successor_rev].
  pose proof (byte_range b) as Hb; destruct (Z.eqb_spec (byte.unsigned b) 255) as [E|E]; intros H.
  - rewrite (IH s H), (lt_snoc q k b); split.
    + intros [Hk|[r ->]]; [by left; left|]; destruct r as [|x r]; [left; right; by exists []; rewrite app_nil_r; auto|].
      pose proof (byte_range x); destruct (decide (byte.unsigned x = 255)) as [Ex|Ex].
      * right; exists r; rewrite <- app_assoc; cbn [app]; do 2 f_equal; apply byte.unsigned_inj; congruence.
      * left; right; exists (x :: r); split; [done|]; right; exists x, r; split; [done|lia].
    + intros [[Hk|(r & -> & _)]|[r ->]]; [by left|right; by exists r|right; rewrite <- app_assoc; by eexists].
  - injection H as <-; rewrite rev_involutive, !lt_snoc, byte_of_Z_small by lia; split.
    + intros [Hk|(r & -> & [->|(x & r' & -> & Hx)])]; [by left; left|left; right; exists []; auto|].
      destruct (decide (byte.unsigned x = byte.unsigned b)) as [Ex|Ex].
      * right; exists r'; rewrite <- app_assoc; cbn [app]; do 2 f_equal; by apply byte.unsigned_inj.
      * left; right; exists (x :: r'); split; [done|]; right; exists x, r'; split; [done|lia].
    + intros [[Hk|(r & -> & Hr)]|[r ->]]; [by left|right; exists r; split; [done|]; destruct Hr as [?|(x & r' & ? & ?)]; [by left|right; exists x, r'; split; [done|lia]]|].
      right; rewrite <- app_assoc; eexists; split; [done|]; right; do 2 eexists; split; [done|lia].
Qed.

Lemma successor_exists (x : byte) (p : bytes) :
  byte.unsigned x <> 255 -> exists s, prefix_successor (x :: p) = Some s /\ (0 < length s <= length (x :: p))%nat.
Proof.
  intros Hx; unfold prefix_successor; induction p as [|b q IH] using rev_ind.
  - cbn [rev app successor_rev]; rewrite (proj2 (Z.eqb_neq _ _) Hx); eexists; split; [done|cbn; lia].
  - rewrite app_comm_cons, rev_app_distr; cbn [rev app successor_rev]; destruct (_ =? 255).
    + destruct IH as (s & Hs & Hl); exists s; split; [done|]; cbn [length] in *; rewrite length_app; lia.
    + eexists; split; [done|]; cbn [rev]; rewrite length_app, length_rev, length_app, length_rev; cbn [length]; rewrite length_app; cbn [length]; lia.
Qed.

(** ** Tree cursors as lists of rows *)

Section Stands.
Context {P T : Type} `{!PagerOps P T}.

(** The cursor is on the first of the rows, and stepping leads through the others. *)
Fixpoint stands (step : sdb_btree_cursor -> stepped) (rows : list kv) (c : sdb_btree_cursor) : Prop :=
  match rows with
  | [] => c_valid c = false
  | row :: rows =>
      c_valid c = true /\ (forall kc vc, sdb_btree_cursor_read c kc vc = read_result row kc vc)
      /\ exists c', step c = (Ok tt, c') /\ stands step rows c'
  end.

Context `{!PagerLaws P T} (tree : sdb_btree (P := P)) (t : ptree) (h : nat) (Hth : tree_holds tree t h).

Lemma forward_stands (rows : list kv) : forall c, forward t c rows -> settled c rows -> stands (sdb_btree_cursor_next tree) rows c.
Proof.
  induction rows as [|row rows IH]; intros c Hf Hs; cbn [stands]; [by eapply forward_end|].
  assert (Hv : c_valid c = true) by (destruct (c_valid c) eqn:Ev; [done|]; by specialize (Hs Ev)); split; [done|]; split.
  - intros kc vc; by destruct (forward_read t c kc vc _ Hf Hv) as (e & rest & [= <- <-] & ->).
  - destruct (next_spec tree t h Hth c _ Hf) as (c' & Hn & Hf' & Hs'); rewrite Hv in *; exists c'; split; [done|]; by apply IH.
Qed.

Context (Hfull : Forall (fun x : Z * Z * list kv => x.2 <> []) (leaves t) \/ h = 0%nat).

Lemma backward_stands (past : list kv) : forall c, backward t c past ->
  exists c', sdb_btree_cursor_prev tree c = (Ok tt, c') /\ stands (sdb_btree_cursor_prev tree) (rev past) c'.
Proof.
  induction past as [|row past IH] using rev_ind; intros c Hb;
    destruct (prev_spec tree t h Hth c _ Hfull Hb) as (c' & Hp & [[E Hv]|(past' & e & s & l & E & Hb' & Hv & Hl & He)]).
  - by exists c'.
  - by destruct past'.
  - by destruct past.
  - apply app_inj_tail in E as [<- <-]; exists c'; split; [done|]; rewrite rev_app_distr; cbn [rev app stands]; split; [done|]; split; [|by apply IH].
    intros kc vc; by eapply read_spec.
Qed.
End Stands.

(** ** Sorted lists *)

(** A property that the elements before one with it have too splits a sorted list. *)
Lemma sorted_split {A} (R : A -> A -> Prop) (Q : A -> Prop) `{!forall x, Decision (Q x)} (l : list A) :
  StronglySorted R l -> (forall x y, x ∈ l -> y ∈ l -> R x y -> Q y -> Q x) -> l = filter Q l ++ filter (fun x => ~ Q x) l.
Proof.
  induction 1 as [|x l Hl IH Hx]; intros Hc; [done|]; destruct (decide (Q x)) as [Hq|Hq].
  - rewrite (filter_cons_True Q), (filter_cons_False (fun x => ~ Q x)) by tauto; cbn [app]; f_equal.
    apply IH; intros y z Hy Hz; apply Hc; by right.
  - assert (Hn : Forall (fun y => ~ Q y) l).
    { rewrite List.Forall_forall in *; intros y Hy Hqy; apply Hq, (Hc x y); [by left|right; by apply list_elem_of_In|by apply Hx|done]. }
    rewrite (filter_cons_False Q), (filter_cons_True (fun x => ~ Q x)) by done.
    assert (E1 : filter Q l = []) by (by apply (filter_part Q [] l)); assert (E2 : filter (fun x => ~ Q x) l = l) by (by apply (filter_part (fun x => ~ Q x) l [])).
    by rewrite E1, E2.
Qed.

Abbreviation row_lt := (fun x y : kv => key_lt x.1 y.1).

Lemma rows_sorted (l : list kv) : key_sorted l -> StronglySorted row_lt l.
Proof.
  induction l as [|x l IH]; [constructor|]; unfold key_sorted; rewrite fmap_cons; intros H; apply StronglySorted_inv in H as [Hs Hx].
  constructor; [by apply IH|]; by rewrite Forall_fmap in Hx.
Qed.

Lemma sorted_rev {A} (R : A -> A -> Prop) (l : list A) : StronglySorted R l -> StronglySorted (fun x y => R y x) (rev l).
Proof.
  induction 1 as [|x l Hl IH Hx]; cbn [rev]; [apply SSorted_nil|]; apply StronglySorted_app_2; [|done|by repeat constructor].
  intros y z Hy Hz; apply list_elem_of_singleton in Hz as ->; rewrite List.Forall_forall in Hx; apply Hx.
  apply list_elem_of_In in Hy; by apply in_rev in Hy.
Qed.

Lemma sorted_filter {A} (R : A -> A -> Prop) (Q : A -> Prop) `{!forall x, Decision (Q x)} (l : list A) :
  StronglySorted R l -> StronglySorted R (filter Q l).
Proof.
  induction 1 as [|x l Hl IH Hx]; [constructor|]; rewrite list.filter_cons; case_decide; [|done]; constructor; [done|].
  rewrite List.Forall_forall in *; intros y Hy; apply list_elem_of_In, list_elem_of_filter in Hy as [_ Hy]; by apply Hx, list_elem_of_In.
Qed.

Lemma filter_rev {A} (Q : A -> Prop) `{!forall x, Decision (Q x)} (l : list A) : filter Q (rev l) = rev (filter Q l).
Proof.
  induction l as [|x l IH]; [done|]; cbn [rev]; rewrite list.filter_app, IH, !list.filter_cons; case_decide; [done|].
  by rewrite list.filter_nil, app_nil_r.
Qed.

Lemma fmap_rev {A B} (f : A -> B) (l : list A) : f <$> rev l = rev (f <$> l).
Proof. apply map_rev. Qed.

(** ** Cursors as lists of entries *)

Section Entries.
Context {P T : Type} `{!PagerOps P T} `{!PagerLaws P T}.
Context (tree : sdb_btree (P := P)).

(** Loading an entry keeps its status. *)
Definition loaded (c : sdb_cursor) : sdb_status * sdb_cursor := let '(status, c) := sdb_cursor_load_current tree c in (status, set_status c status).

(** What the calls to [sdb_cursor_next] deliver, and the status they end with. *)
Fixpoint yields (entries : list (bytes * bytes)) (final : sdb_status) (s : sdb_status * sdb_cursor) : Prop :=
  match entries with
  | [] => s.1 = final /\ cu_status s.2 = final /\ cu_valid s.2 = false
  | entry :: entries =>
      s.1 = SDB_OK /\ cu_status s.2 = SDB_OK /\ cu_valid s.2 = true /\ cu_user_key s.2 = entry.1 /\ cu_value s.2 = entry.2
      /\ yields entries final (sdb_cursor_next tree s.2)
  end.

Context (m : gmap bytes bytes) (g : Z) (w : view) (docs : gmap (bytes * bytes) document) (Htree : tree_is tree m) (Hview : view_is m g w docs).
Context (kind : Z) (ns : bytes) (Hkind : known_kind kind) (Hns : valid ns).
Context (lower upper : option bytes) (limit : Z) (reverse : bool) (Hlimit : 0 <= limit).

Abbreviation prefix := (namespace_prefix kind ns).
Abbreviation object key := {| oi_kind := kind; oi_namespace := ns; oi_key := key |}.
Abbreviation step := (if reverse then sdb_btree_cursor_prev tree else sdb_btree_cursor_next tree).

(** A cursor opened for the scan. *)
Record scans (c : sdb_cursor) : Prop := {
  sc_kind : cu_kind c = kind;
  sc_prefix : cu_prefix c = prefix;
  sc_size : cu_namespace_size c = length ns;
  sc_lower : cu_lower_bound c = lower;
  sc_upper : cu_upper_bound c = upper;
  sc_limit : cu_limit c = limit;
  sc_reverse : cu_reverse c = reverse;
  sc_keys : cu_key_capacity c = Z.of_nat (length prefix) + SDB_ENGINE_MAX_NAME_SIZE + 16;
  sc_values : 256 <= cu_value_capacity c
}.

(** The row is that of the entry. *)
Definition row_of (row : kv) (entry : bytes * bytes) : Prop :=
  row.1 = prefix ++ entry.1 /\ length row.2 = SDB_OBJECT_METADATA_SIZE /\ v_objects w !! object entry.1 = Some entry.2.

(** Beyond the buffers of a new cursor. *)
Definition too_big (row : kv) : Prop :=
  Z.of_nat (length prefix) + SDB_ENGINE_MAX_NAME_SIZE + 16 < Z.of_nat (length row.1) \/ 256 < Z.of_nat (length row.2).

Definition beyond (key : bytes) : bool :=
  if reverse then match lower with Some bound => bool_decide (key_lt key bound) | None => false end
  else match upper with Some bound => negb (bool_decide (key_lt key bound)) | None => false end.

Lemma out_of_range_beyond (c : sdb_cursor) (key : bytes) : scans c -> out_of_range c key = beyond key.
Proof.
  intros []; unfold out_of_range, beyond; rewrite sc_reverse0, sc_lower0, sc_upper0; destruct reverse; [destruct lower as [b|]|destruct upper as [b|]]; try done;
    rewrite user_key_compare_spec; case_bool_decide as Hb; unfold key_lt in Hb; by destruct (key_cmp key b).
Qed.

Lemma object_valid (key v : bytes) : v_objects w !! object key = Some v -> valid key.
Proof.
  intros H; pose proof (da_objects _ _ _ _ _ (vw_documents _ _ _ _ Hview)) as Ho; destruct (oa_ids _ _ _ Ho (object key)) as [_ Hn]; [by eexists|].
  by apply andb_prop in Hn as [_ Hn].
Qed.

(** Every row that begins with the prefix is that of an entry. *)
Lemma prefix_row (row : kv) : m !! row.1 = Some row.2 -> prefix `prefix_of` row.1 -> exists entry, row_of row entry.
Proof.
  destruct row as [k v]; cbn [fst snd]; intros Hv [key ->]; pose proof (da_objects _ _ _ _ _ (vw_documents _ _ _ _ Hview)) as Ho.
  destruct (vw_known _ _ _ _ Hview _ _ Hv) as (r & Hr & E); pose proof (known_kind_range _ Hkind) as Hk.
  apply eq_sym, (namespace_row r key kind ns Hr Hk Hns) in E as ->; destruct Hr as [_ [_ Hy]].
  assert (Hi : id_ok (object key)) by (split; [done|]; unfold names_valid; cbn; by rewrite Hns, Hy).
  destruct (v_objects w !! object key) as [value|] eqn:E.
  - exists (key, value); destruct (oa_some _ _ _ Ho _ _ E) as (md & [_ Hm _] & _); unfold object_row in Hm; cbn [oi_kind oi_namespace oi_key] in Hm.
    rewrite object_row_key, Hv in Hm; injection Hm as ->; split; [done|]; split; [apply length_metadata|done].
  - apply (oa_none _ _ _ Ho _ Hi) in E; unfold object_row in E; cbn [oi_kind oi_namespace oi_key] in E; by rewrite object_row_key, Hv in E.
Qed.

(** Every entry has a row. *)
Lemma entry_has_row (key value : bytes) : v_objects w !! object key = Some value -> exists v, m !! (prefix ++ key) = Some v /\ row_of (prefix ++ key, v) (key, value).
Proof.
  intros E; pose proof (da_objects _ _ _ _ _ (vw_documents _ _ _ _ Hview)) as Ho; destruct (oa_some _ _ _ Ho _ _ E) as (md & [_ Hm _] & _).
  unfold object_row in Hm; cbn [oi_kind oi_namespace oi_key] in Hm; rewrite object_row_key in Hm; eexists; split; [exact Hm|].
  split; [done|]; split; [apply length_metadata|done].
Qed.

Lemma load_value_spec (c : sdb_cursor) (key value : bytes) :
  scans c -> v_objects w !! object key = Some value -> exists capacity, 256 <= capacity /\ load_value tree c key = (Ok value, capacity).
Proof.
  intros Hc Hv; unfold load_value; rewrite (sc_kind _ Hc), (sc_prefix _ Hc), (sc_size _ Hc).
  assert (En : slice prefix 4 (length ns) = ns).
  { unfold namespace_prefix; change (byte.of_Z ?a :: byte.of_Z ?b :: ?s ++ ?n) with (([byte.of_Z a; byte.of_Z b] ++ s) ++ n).
    rewrite slice_app_r by len_lia; apply slice_whole; len_lia. }
  assert (Hg : forall capacity, sdb_object_get (sdb_btree_get tree) kind ns key capacity = get_result (Some value) capacity).
  { intros capacity; pose proof (object_get_is _ m (tree_reads _ _ Htree) g _ (object key) capacity (da_objects _ _ _ _ _ (vw_documents _ _ _ _ Hview))) as Hg.
    cbn [oi_kind oi_namespace oi_key] in Hg; rewrite Hg, Hv by (by apply known_kind_range); unfold names_valid; cbn [oi_namespace oi_key].
    by rewrite Hns, (object_valid _ _ Hv). }
  rewrite En, Hg; cbn [get_result]; pose proof (sc_values _ Hc); destruct (Z.ltb_spec (cu_value_capacity c) (Z.of_nat (length value))) as [Hl|Hl].
  - rewrite Z.gtb_ltb, (proj2 (Z.ltb_lt _ _)) by done; rewrite Hg; cbn [get_result fst]; rewrite Z.ltb_irrefl; eexists; split; [|done]; lia.
  - by exists (cu_value_capacity c).
Qed.

Lemma scans_set_entry (c : sdb_cursor) (valid : bool) (n capacity : Z) (key value : bytes) :
  scans c -> 256 <= capacity -> scans (set_entry c valid n key capacity value).
Proof. by intros [] Hc; split. Qed.

Lemma scans_set_status (c : sdb_cursor) (status : sdb_status) : scans c -> scans (set_status c status).
Proof. by intros []; split. Qed.

Lemma scans_set_btcur (c : sdb_cursor) (btcur : sdb_btree_cursor) : scans c -> scans (set_btcur c btcur).
Proof. by intros []; split. Qed.

Definition limit_reached (n : Z) : bool := negb (limit =? 0) && (n >=? limit).

Lemma load_limit (c : sdb_cursor) : scans c -> limit_reached (cu_produced c) = true -> sdb_cursor_load_current tree c = (SDB_OK, no_entry c).
Proof.
  intros Hc Hn; unfold sdb_cursor_load_current; cbn [no_entry set_entry cu_btcur cu_limit cu_produced]; destruct (c_valid _); [|done].
  unfold limit_reached in Hn; by rewrite (sc_limit _ Hc), Hn.
Qed.

Lemma load_entry (c : sdb_cursor) (row : kv) (rows : list kv) (entry : bytes * bytes) :
  scans c -> limit_reached (cu_produced c) = false -> stands step (row :: rows) (cu_btcur c) -> row_of row entry -> beyond entry.1 = false ->
  exists capacity, 256 <= capacity /\ sdb_cursor_load_current tree c = (SDB_OK, set_entry (no_entry c) true (cu_produced c + 1) entry.1 capacity entry.2).
Proof.
  intros Hc Hn (Hv & Hr & _) (Hk & Hl & Ho) Hb; unfold sdb_cursor_load_current.
  assert (Hc' : scans (no_entry c)) by (apply scans_set_entry; [done|apply Hc]); destruct row as [k v]; cbn [fst snd] in *; subst k.
  destruct (load_value_spec _ _ _ Hc' Ho) as (capacity & Hcap & Hlv); pose proof (out_of_range_beyond _ entry.1 Hc') as Hor.
  change (cu_btcur (no_entry c)) with (cu_btcur c); change (cu_limit (no_entry c)) with (cu_limit c); change (cu_produced (no_entry c)) with (cu_produced c).
  rewrite Hv, Hr, (sc_limit _ Hc); fold (limit_reached (cu_produced c)); rewrite Hn; cbn [negb].
  pose proof (object_valid _ _ Ho) as Hy; pose proof (valid_size _ Hy); unfold read_result; cbn [fst snd].
  rewrite (sc_keys _ Hc'), length_app, Hl; pose proof (sc_values _ Hc'); unfold SDB_ENGINE_MAX_NAME_SIZE, SDB_OBJECT_METADATA_SIZE in *; zcmp; cbn [orb].
  rewrite (sc_prefix _ Hc'), take_app_length, bool_decide_eq_true_2, length_app by done; rewrite (proj2 (Nat.ltb_ge _ _)) by lia; cbn [orb negb].
  rewrite <- object_row_key, (verify_object_row kind ns entry.1 Hkind Hns Hy), Hor, Hb, Hlv; by exists capacity.
Qed.

(** The scan ends at the rows: there are none, or the first is of another namespace or
    beyond the bound. *)
Definition ends_at (rows : list kv) : Prop :=
  match rows with
  | [] => True
  | row :: _ => ~ prefix `prefix_of` row.1 \/ exists entry, row_of row entry /\ beyond entry.1 = true
  end.

(** The end is an error when the row after the range does not fit the buffers. *)
Definition end_status (rows : list kv) (status : sdb_status) : Prop :=
  status = SDB_OK
  \/ status = SDB_E_BUFFER_TOO_SMALL /\ exists row, row ∈ rows /\ ~ prefix `prefix_of` row.1 /\ too_big row.

Lemma load_end (c : sdb_cursor) (rows : list kv) :
  scans c -> stands step rows (cu_btcur c) -> ends_at rows -> exists status, end_status rows status /\ sdb_cursor_load_current tree c = (status, no_entry c).
Proof.
  intros Hc Hs He; unfold sdb_cursor_load_current; assert (Hc' : scans (no_entry c)) by (apply scans_set_entry; [done|apply Hc]).
  change (cu_btcur (no_entry c)) with (cu_btcur c); destruct rows as [|row rows]; [rewrite Hs; exists SDB_OK; split; [by left|done]|].
  destruct Hs as (Hv & Hr & _); rewrite Hv, Hr; cbn [negb]; destruct (negb (_ =? 0) && _); [exists SDB_OK; split; [by left|done]|].
  unfold read_result; rewrite (sc_keys _ Hc'), (sc_prefix _ Hc').
  destruct ((_ <? _) || (_ <? _)) eqn:Hbig.
  - destruct He as [Hp|(entry & (Hk & Hl & Ho) & _)].
    + exists SDB_E_BUFFER_TOO_SMALL; split; [right; split; [done|]; exists row; split; [by left|]; split; [done|]|done].
      pose proof (sc_values _ Hc'); unfold too_big; apply orb_prop in Hbig; rewrite !Z.ltb_lt in Hbig; lia.
    + exfalso; pose proof (valid_size _ (object_valid _ _ Ho)); rewrite Hk, length_app, Hl in Hbig; pose proof (sc_values _ Hc').
      unfold SDB_ENGINE_MAX_NAME_SIZE, SDB_OBJECT_METADATA_SIZE in *; apply orb_prop in Hbig; rewrite !Z.ltb_lt in Hbig; lia.
  - exists SDB_OK; split; [by left|]; destruct row as [k v]; rewrite prefix_test; cbn [fst snd] in *.
    destruct He as [Hp|(entry & (Hk & Hl & Ho) & Hb)]; [by rewrite bool_decide_eq_false_2|]; cbn [fst] in Hk; subst k.
    rewrite bool_decide_eq_true_2 by (by eexists); cbn [negb].
    rewrite <- object_row_key, (verify_object_row kind ns entry.1 Hkind Hns (object_valid _ _ Ho)), (out_of_range_beyond _ _ Hc'), Hb; done.
Qed.

(** The entries left under the limit when [n] were produced. *)
Definition cut {A} (n : Z) (l : list A) : list A := if limit =? 0 then l else take (Z.to_nat (limit - n)) l.

Lemma cut_cons {A} (n : Z) (x : A) (l : list A) : limit_reached n = false -> cut n (x :: l) = x :: cut (n + 1) l.
Proof.
  unfold limit_reached, cut; destruct (Z.eqb_spec limit 0) as [|Hn]; [done|]; cbn [negb andb]; intros H; zbool_hyps.
  replace (Z.to_nat (limit - n)) with (S (Z.to_nat (limit - (n + 1)))) by lia; done.
Qed.

Lemma cut_end {A} (n : Z) (l : list A) : limit_reached n = true -> cut n l = [].
Proof.
  unfold limit_reached, cut; destruct (Z.eqb_spec limit 0) as [|Hn]; [done|]; cbn [negb andb]; intros H; zbool_hyps.
  by replace (Z.to_nat (limit - n)) with 0%nat by lia.
Qed.

Lemma next_loaded (c : sdb_cursor) (btcur : sdb_btree_cursor) :
  scans c -> cu_started c = true -> c_valid (cu_btcur c) = true -> step (cu_btcur c) = (Ok tt, btcur) -> sdb_cursor_next tree c = loaded (set_btcur c btcur).
Proof.
  intros Hc Hs Hv Hst; unfold sdb_cursor_next, loaded; rewrite Hs, Hv, (sc_reverse _ Hc); cbn [negb].
  destruct reverse; rewrite Hst; done.
Qed.

(** The scan of rows that are those of the entries. *)
Lemma scan_yields (rows rest : list kv) (entries : list (bytes * bytes)) : forall c,
  Forall2 row_of rows entries -> Forall (fun entry => beyond entry.1 = false) entries -> ends_at rest ->
  scans c -> cu_started c = true -> stands step (rows ++ rest) (cu_btcur c) ->
  exists status, yields (cut (cu_produced c) entries) status (loaded c)
    /\ (status = SDB_OK \/ (limit = 0 \/ cu_produced c + Z.of_nat (length entries) < limit) /\ end_status rest status).
Proof.
  intros c Hro; revert c; induction Hro as [|row entry rows entries Hro _ IH]; intros c Hb He Hc Hst Hs;
    (destruct (limit_reached (cu_produced c)) eqn:Hn;
     [exists SDB_OK; split; [|by left]; unfold loaded; rewrite (load_limit c Hc Hn), cut_end by done; cbn; done|]).
  - destruct (load_end c rest Hc Hs He) as (status & Hend & Hl); exists status; unfold loaded; rewrite Hl; split.
    + unfold cut; destruct (limit =? 0); [|rewrite take_nil]; cbn; done.
    + right; split; [|done]; unfold limit_reached in Hn; cbn [length]; destruct (Z.eqb_spec limit 0); [by left|right]; cbn [negb andb] in Hn; zbool_hyps; lia.
  - apply Forall_cons_iff in Hb as [Hb1 Hb]; cbn [app] in Hs; destruct (load_entry c row (rows ++ rest) entry Hc Hn Hs Hro Hb1) as (capacity & Hcap & Hl).
    destruct Hs as (Hv & _ & btcur & Hstep & Hs); unfold loaded; rewrite Hl, cut_cons by done; cbn [yields].
    set (c1 := set_status (set_entry (no_entry c) true (cu_produced c + 1) entry.1 capacity entry.2) SDB_OK).
    assert (Hc1 : scans c1) by (apply scans_set_status, scans_set_entry; [apply scans_set_entry; [done|apply Hc]|done]).
    destruct (IH (set_btcur c1 btcur) Hb He) as (status & Hy & Hend); [by apply scans_set_btcur|done|done|].
    exists status; split; [do 5 (split; [done|])|].
    + cbn [snd]; rewrite (next_loaded c1 btcur Hc1 Hst Hv Hstep); exact Hy.
    + destruct Hend as [|[Hlen Hend]]; [by left|]; right; split; [|done]; cbn [length]; change (cu_produced (set_btcur c1 btcur)) with (cu_produced c + 1) in Hlen; lia.
Qed.

(** ** The rows of a scan *)

Definition in_scan (row : kv) : Prop := prefix `prefix_of` row.1 /\ beyond (drop (length prefix) row.1) = false.
#[local] Instance in_scan_dec (row : kv) : Decision (in_scan row).
Proof. unfold in_scan; apply _. Defined.

Definition entry_at (row : kv) : bytes * bytes :=
  let key := drop (length prefix) row.1 in (key, default [] (v_objects w !! object key)).

Lemma row_of_entry (row : kv) : m !! row.1 = Some row.2 -> prefix `prefix_of` row.1 -> row_of row (entry_at row).
Proof.
  intros Hm Hp; destruct (prefix_row row Hm Hp) as ([key value] & Hk & Hl & Hv); unfold entry_at; rewrite Hk; cbn [fst snd] in *.
  rewrite drop_app_length, Hv; by split.
Qed.

Lemma entry_of_row (row : kv) (entry : bytes * bytes) : row_of row entry -> entry_at row = entry.
Proof. destruct entry as [key value]; intros (Hk & _ & Hv); unfold entry_at; rewrite Hk; cbn [fst snd] in *; by rewrite drop_app_length, Hv. Qed.

Lemma rows_part (R : kv -> kv -> Prop) (rows : list kv) :
  StronglySorted R rows -> (forall row, row ∈ rows -> m !! row.1 = Some row.2) ->
  (forall x y, x ∈ rows -> y ∈ rows -> R x y -> in_scan y -> in_scan x) ->
  let good := filter in_scan rows in
  let rest := filter (fun row => ~ in_scan row) rows in
  rows = good ++ rest /\ Forall2 row_of good (entry_at <$> good) /\ Forall (fun entry => beyond entry.1 = false) (entry_at <$> good) /\ ends_at rest.
Proof.
  intros Hs Hm Hc good rest; split; [by eapply sorted_split|].
  assert (Hg : forall row, row ∈ good -> in_scan row /\ m !! row.1 = Some row.2)
    by (intros row Hr; apply list_elem_of_filter in Hr as [Hi Hr]; split; [done|by apply Hm]); split_and!.
  - apply Forall2_fmap_r, Forall_Forall2_diag, List.Forall_forall; intros row Hr; apply list_elem_of_In, Hg in Hr as [[Hp _] Hr]; by apply row_of_entry.
  - rewrite Forall_fmap, List.Forall_forall; intros row Hr; by apply list_elem_of_In, Hg in Hr as [[_ Hb] _].
  - destruct rest as [|row rest'] eqn:E; [done|]; assert (Hr : row ∈ rest) by (rewrite E; by left).
    unfold rest in Hr; apply list_elem_of_filter in Hr as [Hn Hr]; cbn [ends_at].
    destruct (decide (prefix `prefix_of` row.1)) as [Hp|Hp]; [right|by left]; exists (entry_at row); split; [by apply row_of_entry, Hp; apply Hm|].
    destruct (beyond (entry_at row).1) eqn:Hb; [done|]; by destruct Hn.
Qed.

Lemma lt_under_prefix (a b : bytes) : key_lt (prefix ++ a) (prefix ++ b) <-> key_lt a b.
Proof. unfold key_lt; by rewrite key_cmp_app. Qed.

Lemma le_under_prefix (a b : bytes) : key_le (prefix ++ a) (prefix ++ b) <-> key_le a b.
Proof. unfold key_le; by rewrite key_cmp_app. Qed.

Lemma entries_sorted (rows : list kv) : StronglySorted row_lt rows -> Forall in_scan rows -> key_sorted (entry_at <$> rows).
Proof.
  unfold key_sorted; induction 1 as [|x rows Hs IH Hx]; intros Hp; [apply SSorted_nil|]; apply Forall_cons_iff in Hp as [[[a Ha] _] Hp].
  rewrite !fmap_cons; apply SSorted_cons; [by apply IH|]; rewrite !Forall_fmap, List.Forall_forall in *; intros y Hy; specialize (Hx y Hy).
  destruct (Hp y Hy) as [[b Hb] _]; rewrite Ha, Hb in Hx; unfold compose, entry_at; cbn [fst]; rewrite Ha, Hb, !drop_app_length; by apply lt_under_prefix.
Qed.

(** Scans that end, with which status. *)
Definition final_status (l : list (bytes * bytes)) (status : sdb_status) : Prop :=
  status = SDB_OK
  \/ (limit = 0 \/ Z.of_nat (length l) < limit) /\ status = SDB_E_BUFFER_TOO_SMALL
     /\ exists k v, m !! k = Some v /\ ~ prefix `prefix_of` k /\ too_big (k, v).

Lemma rows_yield (R : kv -> kv -> Prop) (rows : list kv) (c : sdb_cursor) :
  StronglySorted R rows -> (forall row, row ∈ rows -> m !! row.1 = Some row.2) ->
  (forall x y, x ∈ rows -> y ∈ rows -> R x y -> in_scan y -> in_scan x) ->
  scans c -> cu_produced c = 0 -> cu_started c = true -> stands step rows (cu_btcur c) ->
  exists status, yields (cut 0 (entry_at <$> filter in_scan rows)) status (loaded c) /\ final_status (entry_at <$> filter in_scan rows) status.
Proof.
  intros Hs Hm Hc Hsc Hn Hst Hstands; destruct (rows_part R rows Hs Hm Hc) as (E & Hro & Hb & He); rewrite E in Hstands.
  destruct (scan_yields _ _ _ c Hro Hb He Hsc Hst Hstands) as (status & Hy & Hend); rewrite Hn in *; exists status; split; [exact Hy|].
  destruct Hend as [|[Hl [|(Hstat & [k v] & Hin & Hrow)]]]; [by left|by left|right]; split; [done|]; split; [done|].
  exists k, v; split; [|done]; apply list_elem_of_filter in Hin as [_ Hin]; by apply (Hm (k, v)).
Qed.

(** An entry of the namespace that the scan does not stop before. *)
Definition entry_in (key value : bytes) : Prop := v_objects w !! object key = Some value /\ beyond key = false.

Lemma elem_of_entries (rows : list kv) (key value : bytes) :
  (forall row, row ∈ rows -> m !! row.1 = Some row.2) ->
  (key, value) ∈ entry_at <$> filter in_scan rows <-> entry_in key value /\ prefix ++ key ∈ rows.*1.
Proof.
  intros Hm; rewrite list_elem_of_fmap; split.
  - intros (row & E & Hr); apply list_elem_of_filter in Hr as [[Hp Hb] Hr]; pose proof (row_of_entry row (Hm row Hr) Hp) as (Hk & _ & Hv).
    rewrite <- E in Hk, Hv; cbn [fst snd] in Hk, Hv; rewrite Hk, drop_app_length in Hb; split; [done|]; rewrite <- Hk; by apply list_elem_of_fmap_2.
  - intros [[Hv Hb] Hr]; apply list_elem_of_fmap in Hr as (row & Hk & Hr); exists row.
    assert (Hp : prefix `prefix_of` row.1) by (rewrite <- Hk; by eexists); pose proof (row_of_entry row (Hm row Hr) Hp) as Hro; pose proof Hro as (Hk' & _ & Hv').
    rewrite <- Hk in Hk'; apply app_inv_head in Hk'; rewrite <- Hk', Hv in Hv'; split; [|apply list_elem_of_filter; split; [split; [done|]|done]].
    + destruct (entry_at row); cbn in *; congruence.
    + by rewrite <- Hk, drop_app_length.
Qed.

Lemma seek_started (c : sdb_cursor) (key : bytes) (btcur : sdb_btree_cursor) :
  t_open tree = true -> scans c -> (length key <= 1024)%nat -> sdb_btree_cursor_descend tree (Some (prefix ++ key)) true zero_cursor = (Ok tt, btcur) ->
  started_at tree (sdb_cursor_seek_locked tree c key) = loaded (set_started (set_btcur c btcur)).
Proof.
  intros Ho Hc Hl Hd; unfold sdb_cursor_seek_locked, sdb_btree_cursor_seek; rewrite (sc_prefix _ Hc), Ho.
  assert (Hb : bad_key (prefix ++ key) = false).
  { pose proof (valid_size _ Hns); unfold bad_key, UINT16_MAX; rewrite length_app, length_namespace_prefix; zcmp; done. }
  rewrite Hb; cbn [negb orb]; rewrite Hd; done.
Qed.

Lemma in_scan_before (x y : kv) (from : bytes) :
  reverse = false -> key_le (prefix ++ from) x.1 -> key_lt x.1 y.1 -> in_scan y -> in_scan x.
Proof.
  intros Hr Hx Hxy [[b Hb] Hy]; rewrite Hb, drop_app_length in *; destruct (prefix_convex _ _ _ _ Hx (key_lt_le _ _ Hxy)) as [a Ha].
  split; [by exists a|]; rewrite Ha, drop_app_length in *; apply (proj1 (lt_under_prefix _ _)) in Hxy; unfold beyond in *; rewrite Hr in *.
  destruct upper as [u|]; [|done]; apply negb_false_iff, bool_decide_eq_true in Hy; apply negb_false_iff, bool_decide_eq_true; by apply (key_lt_trans _ b).
Qed.

Lemma in_scan_after (x y : kv) (till : bytes) :
  reverse = true -> (key_lt x.1 till -> prefix `prefix_of` x.1 \/ key_lt x.1 prefix) -> key_lt x.1 till -> key_lt y.1 x.1 -> in_scan y -> in_scan x.
Proof.
  intros Hr Hx Ht Hxy [[b Hb] Hy]; rewrite Hb, drop_app_length in *; destruct (Hx Ht) as [[a Ha]|Hlt].
  - split; [by exists a|]; rewrite Ha, drop_app_length in *; apply (proj1 (lt_under_prefix _ _)) in Hxy; unfold beyond in *; rewrite Hr in *.
    destruct lower as [l|]; [|done]; apply bool_decide_eq_false in Hy; apply bool_decide_eq_false; intros Ha'; apply Hy; by apply (key_lt_trans _ a).
  - exfalso; apply (key_lt_irrefl prefix); eapply key_le_lt_trans; [apply (key_le_app prefix b)|by apply (key_lt_trans _ x.1)].
Qed.

Lemma tree_row (t : ptree) (h : nat) (row : kv) : tree_holds tree t h -> tree_contents t = m -> row ∈ flatten t <-> m !! row.1 = Some row.2.
Proof. intros Hth <-; destruct row as [k v]; apply elem_of_contents; by eapply flatten_sorted. Qed.

(** Seeking on a forward cursor delivers the entries from the key on. *)
Lemma forward_scan (c : sdb_cursor) (from : bytes) :
  reverse = false -> scans c -> cu_produced c = 0 -> (length from <= 1024)%nat ->
  exists l status, key_sorted l /\ (forall key value, (key, value) ∈ l <-> entry_in key value /\ key_le from key)
    /\ yields (cut 0 l) status (started_at tree (sdb_cursor_seek_locked tree c from)) /\ final_status l status.
Proof.
  intros Hr Hc Hn Hl; pose proof Htree as (t & h & Hth & Ht); destruct (seek_forward tree t h Hth (Some (prefix ++ from))) as (btcur & rows & l1 & Hd & E & [H1 H2] & Hf & Hs).
  pose proof (rows_sorted _ (flatten_sorted tree t h Hth)) as Hso; rewrite E in Hso; pose proof (StronglySorted_app_1_r _ _ _ Hso) as Hso2.
  assert (Hm : forall row, row ∈ rows -> m !! row.1 = Some row.2) by (intros row Hin; apply (tree_row t h row Hth Ht); rewrite E, elem_of_app; by right).
  rewrite Forall_fmap, List.Forall_forall in H1, H2; unfold compose in H1, H2.
  assert (Hcl : forall x y, x ∈ rows -> y ∈ rows -> row_lt x y -> in_scan y -> in_scan x).
  { intros x y Hx _; apply (in_scan_before x y from Hr); apply H2; by apply list_elem_of_In. }
  destruct (rows_yield row_lt rows (set_started (set_btcur c btcur)) Hso2 Hm Hcl) as (status & Hy & Hfin); try done.
  { by destruct Hc; split. }
  { rewrite Hr; by apply (forward_stands tree t h Hth). }
  exists (entry_at <$> filter in_scan rows), status; split; [apply entries_sorted; [by apply sorted_filter|]|split; [|split; [|exact Hfin]]].
  - rewrite List.Forall_forall; intros x Hx; by apply list_elem_of_In, list_elem_of_filter in Hx as [? _].
  - intros key value; rewrite (elem_of_entries rows key value Hm); split; intros [He Hk]; (split; [done|]).
    + apply list_elem_of_fmap in Hk as (row & Hk & Hin); apply le_under_prefix; rewrite Hk; apply H2; by apply list_elem_of_In.
    + destruct (entry_has_row key value (proj1 He)) as (v & Hv & _); apply (tree_row t h (_, v) Hth Ht) in Hv; rewrite E, elem_of_app in Hv.
      destruct Hv as [Hv|Hv]; [|by apply (list_elem_of_fmap_2 fst _ _ Hv)]; exfalso; apply list_elem_of_In, H1 in Hv; cbn [fst] in Hv.
      apply (proj1 (lt_under_prefix _ _)) in Hv; apply (key_lt_irrefl key); by eapply key_lt_le_trans.
  - by rewrite (seek_started c from btcur (th_open _ _ _ Hth) Hc Hl Hd).
Qed.

(** The key a reverse scan starts below: the entries of the namespace below it are those
    below the upper bound, and everything else is below the namespace. *)
Definition end_key : bytes := match upper with Some bound => prefix ++ bound | None => default [] (prefix_successor prefix) end.

Lemma prefix_first : exists p, prefix = byte.of_Z SDB_OBJECT_KEY_PREFIX :: p /\ byte.unsigned (byte.of_Z SDB_OBJECT_KEY_PREFIX) <> 255.
Proof. eexists; split; [reflexivity|]; vm_compute; discriminate. Qed.

Lemma end_key_spec (k : bytes) :
  match upper with Some bound => (length bound <= 1024)%nat | None => True end ->
  bad_key end_key = false /\ (key_lt k end_key -> prefix `prefix_of` k \/ key_lt k prefix)
  /\ (forall key, k = prefix ++ key -> key_lt k end_key <-> match upper with Some bound => key_lt key bound | None => True end).
Proof.
  pose proof (valid_size _ Hns); unfold end_key, bad_key, UINT16_MAX; destruct upper as [bound|]; intros Hl.
  - rewrite length_app, length_namespace_prefix; split; [apply orb_false_iff; rewrite Z.eqb_neq, Z.gtb_ltb, Z.ltb_ge; lia|]; split; [|intros key ->; apply lt_under_prefix].
    intros Hk; destruct (decide (key_lt k prefix)) as [Hp|Hp]; [by right|left]; apply key_not_lt in Hp.
    apply (prefix_convex prefix [] bound); [by rewrite app_nil_r|by apply key_lt_le].
  - destruct prefix_first as (p & Ep & Hb); destruct (successor_exists _ p Hb) as (s & Es & Hs); rewrite <- Ep in Es, Hs; rewrite Es; cbn [from_option]; unfold id.
    rewrite length_namespace_prefix in Hs; split; [apply orb_false_iff; rewrite Z.eqb_neq, Z.gtb_ltb, Z.ltb_ge; lia|]; split; [rewrite (successor_spec _ _ _ Es); tauto|].
    intros key ->; split; [done|]; intros _; apply (successor_spec _ _ _ Es); right; by eexists.
Qed.

Lemma seek_end_started (c : sdb_cursor) (b1 b2 : sdb_btree_cursor) :
  t_open tree = true -> scans c -> bad_key end_key = false ->
  sdb_btree_cursor_descend tree (Some end_key) false zero_cursor = (Ok tt, b1) -> sdb_btree_cursor_prev tree b1 = (Ok tt, b2) ->
  started_at tree (sdb_cursor_seek_end_locked tree c) = loaded (set_started (set_btcur c b2)).
Proof.
  intros Ho Hc Hb H1 H2; unfold sdb_cursor_seek_end_locked; rewrite (sc_prefix _ Hc), (sc_upper _ Hc); unfold end_key in *.
  assert (E : match upper with Some bound => Some (prefix ++ bound) | None => prefix_successor prefix end = Some end_key).
  { unfold end_key; destruct upper; [done|]; destruct prefix_first as (p & Ep & Hne); destruct (successor_exists _ p Hne) as (s & Es & _).
    by rewrite Ep, Es. }
  rewrite E; unfold end_key, sdb_btree_cursor_seek_floor; rewrite Ho, Hb, H1; cbn [negb orb]; by rewrite H2.
Qed.

(** A reverse cursor delivers the entries below the upper bound, in reverse. *)
Lemma backward_scan (c : sdb_cursor) :
  reverse = true -> dense_tree tree m -> scans c -> cu_produced c = 0 -> match upper with Some bound => (length bound <= 1024)%nat | None => True end ->
  exists l status, key_sorted l
    /\ (forall key value, (key, value) ∈ l <-> entry_in key value /\ match upper with Some bound => key_lt key bound | None => True end)
    /\ yields (cut 0 (rev l)) status (started_at tree (sdb_cursor_seek_end_locked tree c)) /\ final_status l status.
Proof.
  intros Hr (t & h & Hth & Ht & Hfull) Hc Hn Hu.
  destruct (floor_backward tree t h Hth end_key) as (b1 & rows & l2 & Hd & E & [H1 H2] & Hb); destruct (backward_stands tree t h Hth Hfull rows b1 Hb) as (b2 & Hp & Hs).
  pose proof (rows_sorted _ (flatten_sorted tree t h Hth)) as Hso; rewrite E in Hso; apply StronglySorted_app_1_l in Hso; pose proof (sorted_rev _ _ Hso) as Hso2.
  assert (Hm : forall row, row ∈ rev rows -> m !! row.1 = Some row.2).
  { intros row Hin; apply list_elem_of_In, in_rev, list_elem_of_In in Hin; apply (tree_row t h row Hth Ht); rewrite E, elem_of_app; by left. }
  rewrite Forall_fmap, List.Forall_forall in H1, H2; unfold compose in H1, H2.
  assert (Hcl : forall x y, x ∈ rev rows -> y ∈ rev rows -> key_lt y.1 x.1 -> in_scan y -> in_scan x).
  { intros x y Hx _; apply (in_scan_after x y end_key Hr); [by apply end_key_spec|apply H1; by apply list_elem_of_In, in_rev in Hx]. }
  destruct (rows_yield _ (rev rows) (set_started (set_btcur c b2)) Hso2 Hm Hcl) as (status & Hy & Hfin); try done.
  { by destruct Hc; split. }
  { by rewrite Hr. }
  assert (Hmr : forall row, row ∈ rows -> m !! row.1 = Some row.2) by (intros row Hin; apply Hm; by apply list_elem_of_In, in_rev; rewrite rev_involutive; apply list_elem_of_In).
  rewrite filter_rev, fmap_rev in Hy, Hfin; exists (entry_at <$> filter in_scan rows), status; split; [apply entries_sorted; [by apply sorted_filter|]|split_and!].
  - rewrite List.Forall_forall; intros x Hx; by apply list_elem_of_In, list_elem_of_filter in Hx as [? _].
  - intros key value; rewrite (elem_of_entries rows key value Hmr); destruct (end_key_spec (prefix ++ key) Hu) as (_ & _ & Hend).
    split; intros [He Hk]; (split; [done|]).
    + apply list_elem_of_fmap in Hk as (row & Hk & Hin); apply (Hend key eq_refl); rewrite Hk; apply H1; by apply list_elem_of_In.
    + destruct (entry_has_row key value (proj1 He)) as (v & Hv & _); apply (tree_row t h (_, v) Hth Ht) in Hv; rewrite E, elem_of_app in Hv.
      destruct Hv as [Hv|Hv]; [by apply (list_elem_of_fmap_2 fst _ _ Hv)|]; exfalso; apply list_elem_of_In, H2 in Hv; cbn [fst] in Hv.
      apply (Hend key eq_refl) in Hk; apply (key_lt_irrefl end_key); by eapply key_le_lt_trans.
  - by rewrite (seek_end_started c b1 b2 (th_open _ _ _ Hth) Hc (proj1 (end_key_spec [] Hu)) Hd Hp).
  - unfold final_status in *; by rewrite length_rev in Hfin.
Qed.
End Entries.
